(* ===== verification/_CoqProject ===== *)
-Q . S2P
Prelude.v
Float64.v
Validators.v
Prque.v
AccountExtra.v
Messages.v
Config.v
Justification.v
RoundChangeSet.v
CoreState.v
CoreLogic.v
CoreHandlers.v
CoreSpecs.v
CoreInvariant.v
CoreSteps.v
CoreEvents.v
CoreAuth.v
CoreRuns.v
Network.v
CoreProps.v
CoreClassify.v
CoreWitness.v
Rlp.v
RlpStream.v
RlpSpec.v
RlpLists.v
Extra.v
ChainConfig.v
Forks.v
ForkProps.v
ExtraProps.v
RlpCodec.v
Shuffle.v
Header.v
Transactions.v
TxProps.v
Blocks.v
BlockProps.v
TxSigning.v
TxSigningProps.v
MessageCodec.v
MessageProps.v
CodecWitness.v
NetworkRun.v
Seals.v
SealProps.v
SealVerify.v
SealWitness.v
BaseFee.v
StateUtil.v
StateDB.v
Epoch.v
EpochProps.v
Rewards.v
EpochBuild.v
EpochBuildProps.v
HeaderCheck.v
HeaderProps.v
EngineWitness.v
StateJournal.v
JournalProps.v
JournalRuns.v
JournalFrames.v
VmAnalysis.v
VmState.v
VmGas.v
VmOps.v
NativeManager.v
Evm.v
VmTable.v
VmSpec.v
VmSimple.v
VmMemory.v
VmStore.v
VmCalls.v
VmCallOps.v
VmSafe.v
VmRun.v
Supply.v
VmWitness.v
