(* ===== verification/Prelude.v ===== *)
(** * Verification of go-stablenet: WBFT consensus, its engine and the machine

    go-stablenet is a go-ethereum node with the WBFT consensus protocol, a
    Byzantine fault tolerant protocol of the QBFT family with BLS seals.  The
    development models, as executable functions, the parts of the node that
    decide which block is final and whether a block is valid:

    - the consensus core (src/consensus/wbft/core): the state machine of one
      validator, which exchanges PRE-PREPARE, PREPARE, COMMIT and ROUND-CHANGE
      messages and hands decided blocks to the backend;
    - the engine (src/consensus/wbft/engine): preparation and verification of
      headers, seals, epochs, rewards;
    - what both stand on: validator sets, RLP, extra-data, header hashes, base
      fee, contract storage, accounts, fork schedules;
    - blocks and transactions: their formats and signatures, fee delegation;
    - the machine (src/core/vm) over the journaled state of accounts
      (src/core/state): the interpreter with the tables of all forks, calls
      between contracts, and the native managers through which the adapter
      contract moves coins and the council sets flags.

    ** Files

    Foundations
    - Prelude: Go's fixed-width integers, map iteration, the state monad [GoM]
      of the core with its weakest precondition [wp], the result type [Outcome]
      of the engine, tactics and hint databases.
    - Float64: binary64 arithmetic of the quorum formulas, on [SpecFloat].
    - Prque: src/common/prque, the heap of [container/heap].

    Consensus core
    - Validators: src/consensus/wbft/validator; membership, [F], [QuorumSize],
      proposer selection.
    - Messages, Config: views, message types, configuration with transitions.
    - Justification: core/justification.go, against a specification in terms of sets
      of senders ([justified]).
    - RoundChangeSet: core/qbft_msg_set.go and the sets of core/roundchange.go.
    - CoreState, CoreLogic, CoreHandlers: [Core] as a record, pure decisions
      (message classification, backlog, timeouts, signatures, extra seals) and
      one definition per handler up to [handleEvent], the body of the event
      loop.  The backend (chain head, block verification, signing), the codec
      and the cryptography are arguments; what a handler sends or starts is a
      list of outputs.
    - CoreSpecs, CoreInvariant, CoreSteps, CoreEvents: the invariant
      of the core and that every handler preserves it.
    - CoreRuns, CoreProps, CoreClassify, CoreWitness: runs from [NewCore] by any
      sequence of events ([run]); executions, in which the messages that come
      back are the ones that the core itself put back ([execution]), and that the
      senders of these are still validators; the theorems about both and a
      concrete run of a network of four validators.
    - CoreAuth, Network, NetworkRun: what a core sends and keeps, a network of
      cores and Byzantine validators in which messages are lost, repeated and
      reordered, agreement in it, concrete runs.

    Data formats
    - Rlp, RlpStream: src/rlp, the buffered encoder and the stream decoder.
    - RlpSpec, RlpLists: the reference encoding and what the decoder
      does on it and on arbitrary input.
    - Extra, ExtraProps: src/core/types/istanbul.go; sealer bitmaps, seals,
      epoch information, extra-data and its codec.
    - RlpCodec: codecs as records of an encoding, a decoder and their laws, with
      combinators for structs, lists, pointers and optional fields.
    - Header: src/core/types/block.go; headers, their encoding and hashes, and
      the functions that update extra-data.
    - Transactions, TxProps: the six kinds of src/core/types/tx_*.go and their
      binary form.
    - Blocks, BlockProps: blocks of src/core/types/block.go.
    - TxSigning, TxSigningProps: src/core/types/transaction_signing.go; signers,
      senders, fee payers, authorizations, the caches of a transaction and of its
      copies.
    - MessageCodec, MessageProps: src/consensus/wbft/messages; what is signed and
      what is sent.
    - CodecWitness: a block, transactions, messages, keys.

    Engine
    - Shuffle: [computeShuffledIndex], [decideValidators].
    - Seals, SealProps, SealVerify, SealWitness: aggregation, merging and
      verification of seals.
    - ChainConfig, Forks, ForkProps, BaseFee: src/params, src/consensus/misc; the
      schedule of forks, its order and its changes, the base fee.
    - StateUtil, StateDB: src/systemcontracts storage layout, accounts.
    - Epoch, EpochProps, EpochBuild, EpochBuildProps: the epoch of a block, the
      next epoch.
    - Rewards: [distributeBaseFee].
    - HeaderCheck, HeaderProps, EngineWitness: [verifyHeader], [Prepare] and a
      concrete chain built by the modelled functions.

    State and machine
    - AccountExtra: src/core/types/state_account_extra.go, the flags of accounts.
    - StateJournal: src/core/state; objects, the journal with what undoes each of
      its entries, snapshots, access lists, transient storage, [Finalise].
    - JournalProps, JournalRuns, JournalFrames: a state up to what can be read of it
      ([same]), that each operation is undone by its entries, any run of operations
      with snapshots, the end of a transaction, what a call leaves behind
      ([grows], [state_ok]), balances and logs after each operation.
    - VmAnalysis: src/core/vm/analysis.go, which bytes of a program are data.
    - VmState: memory.go, stack.go, contract.go, the contexts; [VM], the functions
      of a state that return, panic or lack fuel ([Done], [Panic], [NoFuel]).
    - VmGas: gas.go, gas_table.go, memory_table.go, operations_acl.go.
    - VmOps: instructions.go and the operations of eips.go.
    - NativeManager: native_manager.go, and who may use it.
    - Evm: [Call], [CallCode], [DelegateCall], [StaticCall], [create] of evm.go and
      the dispatch on precompiled contracts.
    - VmTable: the operations that call, jump_table.go, eips.go, and the loop of
      interpreter.go ([Run]).
    - VmSpec: the precondition [vwp] of functions that may panic, the interface
      [Ledger] (what operations may do to balances), the invariants of the machine
      and of a frame, the loop in terms of its rounds.
    - VmSimple, VmMemory, VmStore, VmCalls, VmCallOps, VmSafe: each operation of the
      Anzeon table keeps the invariants, given that calls do ([machine_ok]), and
      calls do, given that runs of contracts do ([run_ok]).
    - VmRun: the knot is tied by induction on fuel; what calls promise; more fuel
      than gas changes nothing ([more_fuel]).
    - Supply: the ledger that counts coins; transfers under write protection.
    - VmWitness: a machine with contracts, and concrete runs.

    ** What the theorems show

    - Agreement: two correct validators decide the same block of a height, while
      timers and ROUND-CHANGE messages are handled at the height of the head; for
      that, quorums intersect in a correct validator, a validator never votes twice in
      a view, a decided block carries the seals of a quorum, a block that a quorum
      prepared is the only one later rounds can justify, and two sealed headers of one
      height and round have a correct common signer.
    - The core never dereferences nil and handles every event to its end, messages
      released from the backlog included; views
      only grow; what it holds as a certificate is one; the backlog is bounded;
      timeouts of replaced timers do nothing.
    - Formats: extra-data has exactly one encoding, decoding inverts encoding,
      decoding of arbitrary bytes ends; the buffered encoder computes the
      reference encoding; bitmaps are sets; contract storage is read back.  The
      same for blocks, transactions and consensus messages.
    - Signatures: what is signed determines the content and the chain, a key signs
      for its own address only, a fee payer has signed for what is paid.
    - Configurations: an accepted change of the fork schedule changes no rule of a
      past block, but for two exceptions that the theorem names.
    - Engine: what [Prepare], [CommitHeader] and [writeEpoch] make is accepted
      by [verifyHeader], [verifySeals] and [verifyEpoch]; what is accepted has
      the properties one relies on; rewards conserve money; the base fee stays
      within its limits; the shuffle is a bijection; diligence does not
      overflow.
    - Machine: on an Anzeon chain a call or a creation ends whatever the code is,
      never panics, uses no more gas than it has, and is undone if it fails; coins
      appear only with a log of the adapter contract that says so; native managers
      serve their masters only; returning to a snapshot restores the state; the
      analysis of code is exact.
    - Deviations from what the code means to do: [late_timer_forks],
      [stale_round_changes], [static_transfer_moves], [oneBlockEpoch_panics],
      [gasTarget_wraps], [compat_search_hangs], [anzeon_conflict_dropped],
      [zero_chain_fee_payer].

    ** Bounds and fuel

    The quorum formulas go through binary64; the theorems cover sets of at most
    255 validators by evaluation of the float functions.  Fuel: [heap.up] and
    [down] get the length of the heap, a slice decoder the length of the input
    (an element takes a byte at least), the backward walks over the chain the
    block number plus two, the rounds of one block the number of validators (the
    code stops there itself), the shuffle its 33 rounds, the search for the
    lowest conflict of two schedules height + time + 2, the interpreter more
    fuel than gas (a round of the loop uses a unit at least and a nested run has
    less gas than its caller), the analysis of code its length.  In every case a
    theorem shows that the fuel is enough, or the function reports exhaustion as
    an error of its own that the theorems exclude.

    Hypotheses: keccak, ECDSA recovery and BLS are classes ([Crypto], [BlsAggregate]);
    theorems that need it assume that keccak does not collide on the inputs at hand
    and that aggregation is additive; the curve secp256k1 is a class ([Secp256k1])
    whose law is that a signature is well-formed and recovers its key ([SecpLaws]).
    Agreement is for one validator set, for cores whose head is the one they work on,
    without bad proposals, and takes signatures and block hashes as ideal
    ([SigningLaws], [HashLaws]); [messageSigningLaws] derives the former from the
    encoding.  The theorems about the machine are for the rules and values that a
    block of an Anzeon chain has ([anzeon_env]), for code that is stored under its
    hash ([state_ok]), and assume that keccak does not collide on code
    ([CollisionFree]), since analyses are shared by hash: an idealisation of a hash of
    32 bytes, stated as injectivity and met by the encodings that the concrete
    machines hash with; slots of the stack hold words, and refunds together with the
    gas fit 64 bits ([room]).  The algorithms of uint256 that are not additions,
    multiplications or bits ([Uint256]), and what precompiled contracts cost and
    compute ([PrecompiledContracts]), are arguments, total functions: that a library
    behind a precompiled contract does not panic is not part of the theorems.  The
    contracts of the concrete machines are written for them and stand for the adapter
    and the council only by their addresses.  [sort.Slice] is any sorting permutation,
    a map is iterated in any order.

    ** Not modelled

    The backend of the engine and the miner (channels, goroutines, caches), the
    network, the blockchain database and tries: they are I/O or concurrency behind
    an interface, which is an argument here.  The bodies of precompiled contracts,
    which call libraries.  What surrounds a call into the machine in a transaction
    (buying gas, intrinsic gas, refunds, authorizations) and the pool.  Of the
    journaled state, what is collected for writing a block to the database.
    Logging, tracing, metrics and mutexes are left out; handlers run one at a time,
    as the event loop runs them. *)
From Stdlib Require Export ZArith Lia.
From stdpp Require Export prelude gmap list.

#[global] Open Scope Z_scope.

(** * Go's fixed-width integers

    A w-bit integer is a [Z]; the functions below are the conversions at which
    Go truncates.  *)

Definition u8 (x : Z) : Z := x mod 2 ^ 8.
Definition u32 (x : Z) : Z := x mod 2 ^ 32.
Definition u64 (x : Z) : Z := x mod 2 ^ 64.
Definition i64 (x : Z) : Z := (x + 2 ^ 63) mod 2 ^ 64 - 2 ^ 63.

(** [math/big]: [Uint64] keeps the low 64 bits of the absolute value, [Int64]
    reads them as a signed number and restores the sign; [IsUint64] tells
    whether nothing is lost. *)
Definition big_Uint64 (x : Z) : Z := u64 (Z.abs x).
Definition big_Int64 (x : Z) : Z :=
  let v := i64 (Z.abs x) in if x <? 0 then i64 (- v) else v.
Definition big_IsUint64 (x : Z) : bool := (0 <=? x) && (x <? 2 ^ 64).

(** 20-byte addresses and 32-byte hashes are the big-endian numbers of their
    bytes; [common.Address{}] and [common.Hash{}] are 0. *)
Abbreviation Address := Z (only parsing).
Abbreviation Hash := Z (only parsing).
Abbreviation zeroAddress := 0 (only parsing).
Abbreviation zeroHash := 0 (only parsing).

Create HintDb go.
Create Rewrite HintDb gonum.
#[export] Hint Unfold u8 u32 u64 i64 : go.

Lemma u64_small x : 0 <= x < 2 ^ 64 -> u64 x = x.
Proof. intros; unfold u64; apply Z.mod_small; lia. Qed.

Lemma u32_small x : 0 <= x < 2 ^ 32 -> u32 x = x.
Proof. intros; unfold u32; apply Z.mod_small; lia. Qed.

Lemma i64_small x : - 2 ^ 63 <= x < 2 ^ 63 -> i64 x = x.
Proof. intros; unfold i64; rewrite Z.mod_small; lia. Qed.

Lemma u64_range x : 0 <= u64 x < 2 ^ 64.
Proof. unfold u64; apply Z.mod_pos_bound; lia. Qed.

Lemma i64_range x : - 2 ^ 63 <= i64 x < 2 ^ 63.
Proof. unfold i64. pose proof (Z.mod_pos_bound (x + 2 ^ 63) (2 ^ 64)). lia. Qed.

Lemma big_Uint64_small x : 0 <= x < 2 ^ 64 -> big_Uint64 x = x.
Proof. intros; unfold big_Uint64; rewrite Z.abs_eq by lia; apply u64_small; lia. Qed.

Lemma big_IsUint64_spec x : big_IsUint64 x = true <-> 0 <= x < 2 ^ 64.
Proof. unfold big_IsUint64; rewrite andb_true_iff, Z.leb_le, Z.ltb_lt; tauto. Qed.

#[export] Hint Resolve u64_range i64_range : go.
#[export] Hint Rewrite u64_small u32_small i64_small big_Uint64_small using lia : gonum.

(** * Map iteration

    [for k, v := range m] visits the entries of a Go map in an unspecified
    order.  Code that iterates over a map is modelled against this class: every
    theorem holds for whatever order the run time picks. *)

Class MapOrder : Type := {
  range : forall {K : Type} `{Countable K} {V : Type}, gmap K V -> list (K * V);
  range_perm : forall {K : Type} `{Countable K} {V : Type} (m : gmap K V),
    range m ≡ₚ map_to_list m;
}.

#[export] Instance canonicalOrder : MapOrder :=
  {| range := fun K _ _ V m => map_to_list m; range_perm := fun K _ _ V m => reflexivity _ |}.

Section range_facts.
Context `{MapOrder} `{Countable K} {V : Type}.
Implicit Types m : gmap K V.

Lemma elem_of_range m k v : (k, v) ∈ range m <-> m !! k = Some v.
Proof. rewrite range_perm. apply elem_of_map_to_list. Qed.

Lemma NoDup_range_fst m : NoDup (range m).*1.
Proof. rewrite range_perm. apply NoDup_fst_map_to_list. Qed.

Lemma length_range m : length (range m) = size m.
Proof. rewrite range_perm. apply length_map_to_list. Qed.

Lemma range_empty : range (∅ : gmap K V) = [].
Proof.
  apply Permutation_nil_r. rewrite range_perm, map_to_list_empty. reflexivity.
Qed.

Lemma elem_of_range_snd m v : v ∈ (range m).*2 <-> exists k, m !! k = Some v.
Proof.
  rewrite list_elem_of_fmap. split.
  - intros ([k v'] & -> & Hin). exists k. by apply elem_of_range.
  - intros [k Hk]. exists (k, v). split; [done|]. by apply elem_of_range.
Qed.
End range_facts.

(** * Go functions with state, outputs and nil dereferences

    A method that mutates its receiver, emits messages or events and may
    dereference nil is a function from the receiver's state to [None] (the
    goroutine panics) or to its result, the new state and the outputs in the
    order in which they are emitted.  An error that a method returns is part of
    its result: it does not undo the state changes made before it. *)

Section monad.
Context {S E : Type}.

Definition GoM (A : Type) : Type := S -> option (A * S * list E).

#[global] Instance GoM_ret : MRet GoM := fun A a s => Some (a, s, []).
#[global] Instance GoM_bind : MBind GoM := fun A B f m s =>
  match m s with
  | Some (a, s', es) =>
      match f a s' with
      | Some (b, s'', es') => Some (b, s'', es ++ es')
      | None => None
      end
  | None => None
  end.

Definition get : GoM S := fun s => Some (s, s, []).
Definition modify (f : S -> S) : GoM unit := fun s => Some (tt, f s, []).
Definition emit (e : E) : GoM unit := fun s => Some (tt, s, [e]).
Definition emits (es : list E) : GoM unit := fun s => Some (tt, s, es).

(** [*p]: the dereference of a possibly nil pointer. *)
Definition deref {A} (p : option A) : GoM A := fun s =>
  match p with Some a => Some (a, s, []) | None => None end.

(** Weakest precondition: [m] does not panic from [s] and its result, final
    state and outputs satisfy [Q]. *)
Definition wp {A} (m : GoM A) (s : S) (Q : A -> S -> list E -> Prop) : Prop :=
  match m s with Some (a, s', es) => Q a s' es | None => False end.

Lemma wp_ret {A} (a : A) s Q : wp (mret a) s Q <-> Q a s [].
Proof. done. Qed.

Lemma wp_get s Q : wp get s Q <-> Q s s [].
Proof. done. Qed.

Lemma wp_modify f s Q : wp (modify f) s Q <-> Q tt (f s) [].
Proof. done. Qed.

Lemma wp_emit e s Q : wp (emit e) s Q <-> Q tt s [e].
Proof. done. Qed.

Lemma wp_emits es s Q : wp (emits es) s Q <-> Q tt s es.
Proof. done. Qed.

Lemma wp_deref {A} (p : option A) s Q :
  wp (deref p) s Q <-> exists a, p = Some a /\ Q a s [].
Proof. unfold wp, deref; destruct p; naive_solver. Qed.

Lemma wp_deref_Some {A} (a : A) s Q : wp (deref (Some a)) s Q <-> Q a s [].
Proof. done. Qed.

Lemma wp_bind {A B} (m : GoM A) (f : A -> GoM B) s Q :
  wp (m ≫= f) s Q <-> wp m s (fun a s' es => wp (f a) s' (fun b s'' es' => Q b s'' (es ++ es'))).
Proof.
  unfold wp, mbind, GoM_bind. destruct (m s) as [[[a s'] es]|]; [|done].
  by destruct (f a s') as [[[b s''] es']|].
Qed.

Lemma wp_mono {A} (m : GoM A) s (Q Q' : A -> S -> list E -> Prop) :
  wp m s Q -> (forall a s' es, Q a s' es -> Q' a s' es) -> wp m s Q'.
Proof. unfold wp. destruct (m s) as [[[a s'] es]|]; eauto. Qed.

Lemma wp_and {A} (m : GoM A) s (Q Q' : A -> S -> list E -> Prop) :
  wp m s Q -> wp m s Q' -> wp m s (fun a s' es => Q a s' es /\ Q' a s' es).
Proof. unfold wp. destruct (m s) as [[[a s'] es]|]; eauto. Qed.

Lemma wp_run {A} (m : GoM A) s Q a s' es : wp m s Q -> m s = Some (a, s', es) -> Q a s' es.
Proof. unfold wp. intros Hwp Hrun. by rewrite Hrun in Hwp. Qed.

Lemma wp_total {A} (m : GoM A) s Q :
  wp m s Q -> exists a s' es, m s = Some (a, s', es) /\ Q a s' es.
Proof. unfold wp. destruct (m s) as [[[a s'] es]|]; naive_solver. Qed.

(** Weakest liberal precondition: if [m] returns, its result, final state and
    outputs satisfy [Q]; for facts on top of a proof that it returns. *)
Definition wlp {A} (m : GoM A) (s : S) (Q : A -> S -> list E -> Prop) : Prop :=
  match m s with Some (a, s', es) => Q a s' es | None => True end.

Lemma wlp_ret {A} (a : A) s Q : wlp (mret a) s Q <-> Q a s [].
Proof. done. Qed.
Lemma wlp_get s Q : wlp get s Q <-> Q s s [].
Proof. done. Qed.
Lemma wlp_modify f s Q : wlp (modify f) s Q <-> Q tt (f s) [].
Proof. done. Qed.
Lemma wlp_emit e s Q : wlp (emit e) s Q <-> Q tt s [e].
Proof. done. Qed.
Lemma wlp_emits es s Q : wlp (emits es) s Q <-> Q tt s es.
Proof. done. Qed.
Lemma wlp_deref {A} (p : option A) s Q : wlp (deref p) s Q <-> forall a, p = Some a -> Q a s [].
Proof. unfold wlp, deref; destruct p; naive_solver. Qed.

Lemma wlp_bind {A B} (m : GoM A) (f : A -> GoM B) s Q :
  wlp (m ≫= f) s Q <-> wlp m s (fun a s' es => wlp (f a) s' (fun b s'' es' => Q b s'' (es ++ es'))).
Proof.
  unfold wlp, mbind, GoM_bind. destruct (m s) as [[[a s'] es]|]; [|done].
  by destruct (f a s') as [[[b s''] es']|].
Qed.

Lemma wlp_mono {A} (m : GoM A) s (Q Q' : A -> S -> list E -> Prop) :
  wlp m s Q -> (forall a s' es, Q a s' es -> Q' a s' es) -> wlp m s Q'.
Proof. unfold wlp. destruct (m s) as [[[a s'] es]|]; eauto. Qed.

Lemma wlp_run {A} (m : GoM A) s Q a s' es : wlp m s Q -> m s = Some (a, s', es) -> Q a s' es.
Proof. unfold wlp. intros Hwp Hrun. by rewrite Hrun in Hwp. Qed.

Lemma wp_wlp {A} (m : GoM A) s (Q Q' : A -> S -> list E -> Prop) :
  wp m s Q' -> wlp m s Q -> wlp m s (fun a s' es => Q' a s' es /\ Q a s' es).
Proof. unfold wp, wlp. destruct (m s) as [[[a s'] es]|]; eauto. Qed.
End monad.
Arguments GoM : clear implicits.

Create Rewrite HintDb gowp.
#[export] Hint Rewrite @wp_ret @wp_get @wp_modify @wp_emit @wp_emits @wp_deref_Some @wp_bind @app_nil_l @app_nil_r : gowp.

#[export] Hint Rewrite @wlp_ret @wlp_get @wlp_modify @wlp_emit @wlp_emits @wlp_deref @wlp_bind : gowp.

(** One symbolic-execution step of a method body: rewrite with the rules of the
    primitives, or branch on the conditional that blocks. *)
Ltac wp_simpl := autorewrite with gowp; cbn [fst snd].
Ltac wp_case :=
  match goal with
  | |- wp (if ?b then _ else _) _ _ => destruct b eqn:?
  | |- wp (match ?x with _ => _ end) _ _ => destruct x eqn:?
  end.
Ltac wp_auto := repeat (wp_simpl; try wp_case).

(** * Boolean tests and generic list facts *)

(** Membership in a list that is written out. *)
Ltac in_list := cbn [app]; solve [repeat first [apply list_elem_of_here | apply list_elem_of_further]].

Ltac zify_bools :=
  repeat match goal with
  | H : _ && _ = true |- _ => apply andb_true_iff in H; destruct H
  | H : _ || _ = false |- _ => apply orb_false_iff in H; destruct H
  | H : negb _ = true |- _ => apply negb_true_iff in H
  | H : negb _ = false |- _ => apply negb_false_iff in H
  | H : (_ <? _) = true |- _ => apply Z.ltb_lt in H
  | H : (_ <? _) = false |- _ => apply Z.ltb_ge in H
  | H : (_ <=? _) = true |- _ => apply Z.leb_le in H
  | H : (_ <=? _) = false |- _ => apply Z.leb_gt in H
  | H : (_ =? _) = true |- _ => apply Z.eqb_eq in H
  | H : (_ =? _) = false |- _ => apply Z.eqb_neq in H
  | H : bool_decide _ = true |- _ => apply bool_decide_eq_true in H
  | H : bool_decide _ = false |- _ => apply bool_decide_eq_false in H
  end.

Ltac split_match :=
  match goal with
  | |- context [match ?x with _ => _ end] => destruct x eqn:?
  end.

(** The set of keys of a list with distinct elements inside a bound. *)
Lemma NoDup_subseteq_length {A} (l k : list A) :
  NoDup l -> (forall x, x ∈ l -> x ∈ k) -> (length l <= length k)%nat.
Proof. intros Hl Hsub. apply submseteq_length, NoDup_submseteq; auto. Qed.

Lemma length_filter_split {A} (P : A -> Prop) `{forall x, Decision (P x)} (l : list A) :
  (length (filter P l) + length (filter (fun x => ~ P x) l) = length l)%nat.
Proof.
  induction l as [|x l IH]; [done|].
  rewrite !filter_cons. repeat case_decide; cbn; lia || tauto.
Qed.

(** Two duplicate-free sub-collections of [u] of sizes [p] and [q] share at
    least [p + q - |u|] elements. *)
Lemma NoDup_overlap {A} `{EqDecision A} (u l k : list A) :
  NoDup l -> NoDup k -> (forall x, x ∈ l -> x ∈ u) -> (forall x, x ∈ k -> x ∈ u) ->
  (length l + length k <= length u + length (filter (fun x => x ∈ k) l))%nat.
Proof.
  intros Hl Hk Hlu Hku.
  pose proof (length_filter_split (fun x => x ∈ k) l) as Hsplit.
  assert (length (k ++ filter (fun x => x ∉ k) l) <= length u)%nat as Hle.
  { apply NoDup_subseteq_length.
    - apply NoDup_app. split_and!; [done| |by apply NoDup_filter].
      intros x Hx Hf. apply list_elem_of_filter in Hf. tauto.
    - intros x [Hx|Hx]%elem_of_app; [auto|]. apply list_elem_of_filter in Hx. naive_solver. }
  rewrite length_app in Hle. lia.
Qed.

(** * Go functions that return an error

    A pure function returns a value, returns an error, or panics (nil
    dereference, index out of range, division by zero). *)
Inductive Outcome (E A : Type) := Ret (a : A) | Fail (e : E) | Panic.
Arguments Ret {E A}. Arguments Fail {E A}. Arguments Panic {E A}.

#[global] Instance Outcome_ret E : MRet (Outcome E) := fun A a => Ret a.
#[global] Instance Outcome_bind E : MBind (Outcome E) := fun A B f m =>
  match m with Ret a => f a | Fail e => Fail e | Panic => Panic end.

Section outcome.
Context {E : Type}.

(** The dereference of a pointer, the element of a slice at an index. *)
Definition must {A} (p : option A) : Outcome E A := match p with Some a => Ret a | None => Panic end.
(** [if cond { return err }]. *)
Definition reject (cond : bool) (e : E) : Outcome E unit := if cond then Fail e else Ret tt.
(** [if err != nil { return err' }] after a call. *)
Definition orFail {A} (r : option A) (e : E) : Outcome E A := match r with Some a => Ret a | None => Fail e end.

Lemma bind_Ret {A B} (m : Outcome E A) (f : A -> Outcome E B) b :
  (m ≫= f) = Ret b <-> exists a, m = Ret a /\ f a = Ret b.
Proof. destruct m; cbn; naive_solver. Qed.

Lemma ret_bind {A B} (a : A) (f : A -> Outcome E B) : (Ret a ≫= f) = f a.
Proof. done. Qed.

Lemma mret_bind {A B} (a : A) (f : A -> Outcome E B) : (mret a ≫= f) = f a.
Proof. done. Qed.

(** One step of a run that succeeds. *)
Lemma bind_ok {A B} (m : Outcome E A) (f : A -> Outcome E B) a b : m = Ret a -> f a = Ret b -> (m ≫= f) = Ret b.
Proof. by intros ->. Qed.

Lemma reject_ok {B} cond (e : E) (f : unit -> Outcome E B) b : cond = false -> f tt = Ret b -> (reject cond e ≫= f) = Ret b.
Proof. by intros ->. Qed.

Lemma reject_Ret cond (e : E) u : reject cond e = Ret u <-> cond = false.
Proof. destruct cond, u; cbn; naive_solver. Qed.

Lemma must_Ret {A} (p : option A) a : must p = Ret a <-> p = Some a.
Proof. destruct p; cbn; naive_solver. Qed.

Lemma orFail_Ret {A} (p : option A) (e : E) a : orFail p e = Ret a <-> p = Some a.
Proof. destruct p; cbn; naive_solver. Qed.
End outcome.

(** Run a computation whose steps are values. *)
Ltac outcome_run := cbn [reject must orFail]; repeat (rewrite ret_bind || rewrite mret_bind; cbn [reject must orFail]).

(** Take a successful run apart. *)
Ltac outcome_inv :=
  repeat match goal with
  | H : (_ ≫= _) = Ret _ |- _ => apply bind_Ret in H as (? & ? & ?)
  | H : reject _ _ = Ret _ |- _ => apply reject_Ret in H
  | H : must _ = Ret _ |- _ => apply must_Ret in H
  | H : orFail _ _ = Ret _ |- _ => apply orFail_Ret in H
  | H : mret _ = Ret _ |- _ => injection H as H
  | H : Ret _ = Ret _ |- _ => injection H as H
  | H : Fail _ = Ret _ |- _ => discriminate H
  | H : Panic = Ret _ |- _ => discriminate H
  | x : unit |- _ => destruct x
  end.
