(* ===== verification/Float64.v ===== *)
(** The IEEE-754 binary64 operations the consensus code uses (conversion from
    int, division, subtraction, addition, multiplication, comparison,
    [math.Ceil], [math.Pow] with base 2, conversion to int), on the Standard Library's executable specification floats. *)
From Stdlib Require Import SpecFloat.
From S2P Require Import Prelude.

Definition prec : Z := 53.
Definition emax : Z := 1024.

Definition f64 (n : Z) : spec_float := binary_normalize prec emax n 0 false.
Definition f64_add : spec_float -> spec_float -> spec_float := SFadd prec emax.
Definition f64_sub : spec_float -> spec_float -> spec_float := SFsub prec emax.
Definition f64_div : spec_float -> spec_float -> spec_float := SFdiv prec emax.
Definition f64_lt : spec_float -> spec_float -> bool := SFltb.
Definition f64_le : spec_float -> spec_float -> bool := SFleb.

(** [int(math.Ceil(x))] for a finite [x]: the least integer not below
    [(-1)^s * m * 2^e]. *)
Definition f64_ceil (x : spec_float) : Z :=
  match x with
  | S754_finite s m e =>
      let v := if s then Z.neg m else Z.pos m in
      if 0 <=? e then v * 2 ^ e else - ((- v) / 2 ^ (- e))
  | _ => 0
  end.

Definition f64_mul : spec_float -> spec_float -> spec_float := SFmul prec emax.

(** [math.Pow(2, float64(n))] for a natural [n]: exact up to the largest
    exponent, then infinite. *)
Definition math_Pow2 (n : Z) : spec_float := if n <? emax then f64 (2 ^ n) else S754_infinity false.

Definition f64_overflows (x : spec_float) : bool :=
  match x with
  | S754_nan | S754_infinity _ => true
  | _ => f64_lt (f64 (2 ^ 63 - 1)) x
  end.

(** [int64(x)]: truncation towards zero.  Outside the range of int64 the
    language leaves the result to the implementation.  The value below is amd64's,
    -2^63 (arm64 saturates); the code gets there only with 2^63, and no theorem
    depends on the choice. *)
Definition f64_int64 (x : spec_float) : Z :=
  match x with
  | S754_finite s m e =>
      let v := if 0 <=? e then Z.pos m * 2 ^ e else Z.pos m / 2 ^ (- e) in
      let v := if s then - v else v in
      if (- 2 ^ 63 <=? v) && (v <? 2 ^ 63) then v else - 2 ^ 63
  | _ => 0
  end.
