(* ===== verification/Validators.v ===== *)
(** The validator set of [src/consensus/wbft/validator]: membership, quorum
    sizes, proposer selection. *)
From S2P Require Import Prelude Float64.

(** Byte slices are lists of numbers in 0..255. *)
Abbreviation bytes := (list Z).

Record Validator := mkValidator {
  val_address : Address;
  val_blsPublicKey : bytes;
}.

#[export] Instance Validator_eq_dec : EqDecision Validator.
Proof. solve_decision. Defined.

(** [ProposerPolicyId]: RoundRobin is 0, Sticky is 1. *)
Definition RoundRobin : Z := 0.
Definition Sticky : Z := 1.

Record ValidatorSet := mkSet {
  vs_validators : list Validator;
  vs_policy : Z;
  vs_proposer : option Validator;
}.

#[export] Instance ValidatorSet_eq_dec : EqDecision ValidatorSet.
Proof. solve_decision. Defined.

Definition Size (vs : ValidatorSet) : Z := Z.of_nat (length (vs_validators vs)).
Definition List_ (vs : ValidatorSet) : list Validator := vs_validators vs.
Definition AddressList (vs : ValidatorSet) : list Address := val_address <$> vs_validators vs.

Definition GetByIndex (vs : ValidatorSet) (i : Z) : option Validator :=
  if i <? Size vs then vs_validators vs !! Z.to_nat i else None.

(** The [for i, val := range valSet.List()] loop of [GetByAddress]. *)
Fixpoint getByAddress_from (i : Z) (l : list Validator) (addr : Address) : Z * option Validator :=
  match l with
  | [] => (-1, None)
  | val :: l' =>
      if bool_decide (addr = val_address val) then (i, Some val)
      else getByAddress_from (i + 1) l' addr
  end.

Definition GetByAddress (vs : ValidatorSet) (addr : Address) : Z * option Validator :=
  getByAddress_from 0 (List_ vs) addr.

Definition GetProposer (vs : ValidatorSet) : option Validator := vs_proposer vs.

(** [reflect.DeepEqual] of two interface values: equal contents, or both nil. *)
Definition IsProposer (vs : ValidatorSet) (addr : Address) : bool :=
  let '(_, val) := GetByAddress vs addr in bool_decide (GetProposer vs = val).

Definition newDefaultSet (validators : list Validator) (policy : Z) : ValidatorSet :=
  let vs := mkSet validators policy None in
  if 0 <? Size vs then mkSet validators policy (GetByIndex vs 0) else vs.

Definition NewSetByValidators : list Validator -> Z -> ValidatorSet := newDefaultSet.

(** [blsPublicKeys[i]] is out of range when there are fewer keys than
    addresses: [None] is the run-time panic. *)
Definition NewSet (addrs : list Address) (blsPublicKeys : list bytes) (policy : Z)
  : option ValidatorSet :=
  if bool_decide (length addrs <= length blsPublicKeys)%nat
  then Some (newDefaultSet (zip_with mkValidator addrs blsPublicKeys) policy)
  else None.

Definition emptyAddress (addr : Address) : bool := bool_decide (addr = zeroAddress).

Definition calcSeed (vs : ValidatorSet) (proposer : Address) (round : Z) : Z :=
  let '(idx, val) := GetByAddress vs proposer in
  let offset := match val with Some _ => idx | None => 0 end in
  u64 (u64 offset + round).

Definition roundRobinProposer (vs : ValidatorSet) (proposer : Address) (round : Z)
  : option Validator :=
  if Size vs =? 0 then None else
  let seed := if emptyAddress proposer then round else u64 (calcSeed vs proposer round + 1) in
  let pick := seed mod u64 (Size vs) in
  GetByIndex vs pick.

Definition stickyProposer (vs : ValidatorSet) (proposer : Address) (round : Z)
  : option Validator :=
  if Size vs =? 0 then None else
  let seed := if emptyAddress proposer then round else calcSeed vs proposer round in
  let pick := seed mod u64 (Size vs) in
  GetByIndex vs pick.

(** The selector is fixed when the set is made, from the policy's id. *)
Definition selector (vs : ValidatorSet) : Address -> Z -> option Validator :=
  if vs_policy vs =? Sticky then stickyProposer vs else roundRobinProposer vs.

Definition CalcProposer (vs : ValidatorSet) (lastProposer : Address) (round : Z) : ValidatorSet :=
  mkSet (vs_validators vs) (vs_policy vs) (selector vs lastProposer round).

Definition AddValidator (vs : ValidatorSet) (addr : Address) (blsPublicKey : bytes)
  : bool * ValidatorSet :=
  if existsb (fun v => bool_decide (val_address v = addr)) (vs_validators vs) then (false, vs)
  else (true, mkSet (vs_validators vs ++ [mkValidator addr blsPublicKey])
                    (vs_policy vs) (vs_proposer vs)).

(** [append(validators[:i], validators[i+1:]...)] at the first match. *)
Fixpoint remove_first (l : list Validator) (addr : Address) : option (list Validator) :=
  match l with
  | [] => None
  | v :: l' =>
      if bool_decide (val_address v = addr) then Some l'
      else (cons v) <$> remove_first l' addr
  end.

Definition RemoveValidator (vs : ValidatorSet) (addr : Address) : bool * ValidatorSet :=
  match remove_first (vs_validators vs) addr with
  | Some l => (true, mkSet l (vs_policy vs) (vs_proposer vs))
  | None => (false, vs)
  end.

(** [Copy] rebuilds the set from the copied validators, so the proposer of the
    copy is the first validator again. *)
Definition Copy (vs : ValidatorSet) : ValidatorSet :=
  NewSetByValidators (vs_validators vs) (vs_policy vs).

Definition F (vs : ValidatorSet) : SpecFloat.spec_float :=
  f64_div (f64 (Size vs - 1)) (f64 3).

Definition QuorumSize (vs : ValidatorSet) : Z :=
  f64_ceil (f64_sub (f64 (Size vs)) (F vs)).

(** The trigger of [handleRoundChangeMsg]:
    [float64(num) > F() && float64(num) <= F()+1]. *)
Definition reachedFPlusOne (vs : ValidatorSet) (num : Z) : bool :=
  f64_lt (F vs) (f64 num) && f64_le (f64 num) (f64_add (F vs) (f64 1)).

(** * Well-formed sets

    Governance admits at most 255 members ([MAX_MEMBERS] in
    [systemcontracts/gov_base.go]). *)
Definition maxValidators : Z := 255.

Record valset_ok (vs : ValidatorSet) : Prop := {
  vs_nonempty : 0 < Size vs;
  vs_bound : Size vs <= maxValidators;
  vs_nodup : NoDup (AddressList vs);
}.

Definition faulty (vs : ValidatorSet) : Z := (Size vs - 1) / 3.

Lemma Size_nonneg vs : 0 <= Size vs.
Proof. unfold Size; lia. Qed.

(** ** Lookup *)

Lemma getByAddress_from_Some i l addr j v :
  getByAddress_from i l addr = (j, Some v) <->
  val_address v = addr /\ i <= j /\ l !! Z.to_nat (j - i) = Some v /\
  Forall (fun w => val_address w <> addr) (take (Z.to_nat (j - i)) l).
Proof.
  revert i; induction l as [|w l IH]; intros i; cbn.
  - split; [naive_solver|]. intros (_ & _ & H & _). by rewrite lookup_nil in H.
  - case_bool_decide as Haddr.
    + split.
      * intros [= <- <-]. replace (i - i) with 0 by lia. cbn. split_and!; auto; lia.
      * intros (Hv & Hij & Hl & Hf). destruct (Z.to_nat (j - i)) as [|n] eqn:Hn.
        -- cbn in Hl. assert (i = j) by lia. naive_solver.
        -- cbn in Hf. apply Forall_cons in Hf as [Hf _]. congruence.
    + rewrite IH. split.
      * intros (Hv & Hij & Hl & Hf).
        replace (Z.to_nat (j - i)) with (S (Z.to_nat (j - (i + 1)))) by lia. cbn.
        split_and!; auto; lia.
      * intros (Hv & Hij & Hl & Hf).
        destruct (Z.to_nat (j - i)) as [|n] eqn:Hn; [cbn in Hl; naive_solver|].
        replace (Z.to_nat (j - (i + 1))) with n by lia.
        cbn in Hl, Hf. apply Forall_cons in Hf as [_ Hf]. split_and!; auto; lia.
Qed.

Lemma getByAddress_from_None i l addr j :
  getByAddress_from i l addr = (j, None) <-> j = -1 /\ addr ∉ (val_address <$> l).
Proof.
  revert i; induction l as [|w l IH]; intros i; cbn.
  - split; [intros [= <-]; split; [done|by apply not_elem_of_nil] | naive_solver].
  - case_bool_decide; [split; [done|set_solver]|]. rewrite IH. set_solver.
Qed.

Lemma GetByAddress_Some vs addr j v :
  GetByAddress vs addr = (j, Some v) ->
  val_address v = addr /\ 0 <= j < Size vs /\ vs_validators vs !! Z.to_nat j = Some v.
Proof.
  unfold GetByAddress, List_, Size. intros (Hv & Hj & Hl & _)%getByAddress_from_Some.
  rewrite Z.sub_0_r in Hl. pose proof (lookup_lt_Some _ _ _ Hl). split_and!; auto; lia.
Qed.

Lemma GetByAddress_None vs addr j :
  GetByAddress vs addr = (j, None) -> j = -1 /\ addr ∉ AddressList vs.
Proof. apply getByAddress_from_None. Qed.

Lemma GetByAddress_elem vs addr :
  addr ∈ AddressList vs <-> exists j v, GetByAddress vs addr = (j, Some v).
Proof.
  destruct (GetByAddress vs addr) as [j [v|]] eqn:Hg.
  - apply GetByAddress_Some in Hg as (<- & Hj & Hl).
    split; [naive_solver|]. intros _. apply list_elem_of_fmap.
    exists v. split; [done|]. by eapply list_elem_of_lookup_2.
  - apply GetByAddress_None in Hg. naive_solver.
Qed.

Lemma GetByIndex_Some vs i : 0 <= i < Size vs -> exists v, GetByIndex vs i = Some v.
Proof.
  unfold GetByIndex, Size. intros Hi. rewrite (proj2 (Z.ltb_lt _ _)) by lia.
  apply lookup_lt_is_Some. lia.
Qed.

Lemma GetByIndex_lookup vs i v :
  GetByIndex vs i = Some v -> vs_validators vs !! Z.to_nat i = Some v.
Proof. unfold GetByIndex. by case_match. Qed.

(** In a set without duplicates the index of an address is unique. *)
Lemma GetByAddress_lookup vs i v :
  NoDup (AddressList vs) -> vs_validators vs !! i = Some v ->
  GetByAddress vs (val_address v) = (Z.of_nat i, Some v).
Proof.
  intros Hnd Hi. destruct (GetByAddress vs (val_address v)) as [j [w|]] eqn:Hg.
  - apply GetByAddress_Some in Hg as (Hw & Hj & Hl).
    assert (Z.to_nat j = i) as <-.
    { eapply NoDup_lookup; [exact Hnd|..]; unfold AddressList; rewrite list_lookup_fmap.
      - rewrite Hl; cbn. by rewrite Hw.
      - by rewrite Hi. }
    rewrite Hl in Hi. simplify_eq. f_equal. lia.
  - apply GetByAddress_None in Hg as [_ Hg]. exfalso. apply Hg.
    apply list_elem_of_fmap. exists v. split; [done|]. by eapply list_elem_of_lookup_2.
Qed.

(** ** Quorums *)

Lemma quorum_table :
  forallb (fun n => f64_ceil (f64_sub (f64 (Z.of_nat n)) (f64_div (f64 (Z.of_nat n - 1)) (f64 3)))
                    =? (2 * Z.of_nat n + 3) / 3) (seq 0 256) = true.
Proof. vm_compute. reflexivity. Qed.

Lemma in_table n (P : nat -> bool) k :
  forallb P (seq 0 k) = true -> 0 <= n < Z.of_nat k -> P (Z.to_nat n) = true.
Proof. rewrite forallb_forall. intros H Hn. apply H, in_seq. lia. Qed.

Lemma QuorumSize_exact vs : Size vs <= maxValidators -> QuorumSize vs = (2 * Size vs + 3) / 3.
Proof.
  unfold QuorumSize, F, maxValidators. intros Hb. pose proof (Size_nonneg vs).
  pose proof (in_table (Size vs) _ _ quorum_table) as Ht. cbv beta in Ht.
  rewrite Z2Nat.id in Ht by lia. apply Z.eqb_eq, Ht. lia.
Qed.

Lemma fplus1_table :
  forallb (fun n =>
    let fl := f64_div (f64 (Z.of_nat n - 1)) (f64 3) in
    let fl1 := f64_add fl (f64 1) in
    forallb (fun k => Bool.eqb (f64_lt fl (f64 (Z.of_nat k)) && f64_le (f64 (Z.of_nat k)) fl1)
                               (Z.of_nat k =? (Z.of_nat n - 1) / 3 + 1)) (seq 0 (S n)))
    (seq 0 256) = true.
Proof. vm_compute. reflexivity. Qed.

Lemma reachedFPlusOne_exact vs num :
  Size vs <= maxValidators -> 0 <= num <= Size vs ->
  reachedFPlusOne vs num = (num =? faulty vs + 1).
Proof.
  unfold reachedFPlusOne, F, maxValidators, faulty. intros Hb Hn. pose proof (Size_nonneg vs).
  pose proof (in_table (Size vs) _ _ fplus1_table) as Ht. cbv beta zeta in Ht.
  rewrite Z2Nat.id in Ht by lia. specialize (Ht ltac:(lia)).
  apply (in_table num) in Ht; [|lia]. rewrite Z2Nat.id in Ht by lia. by apply Bool.eqb_prop.
Qed.

(** The overlap of two quorums, counted on address lists. *)
Lemma quorum_overlap vs q1 q2 :
  valset_ok vs -> NoDup q1 -> NoDup q2 ->
  (forall a, a ∈ q1 -> a ∈ AddressList vs) -> (forall a, a ∈ q2 -> a ∈ AddressList vs) ->
  QuorumSize vs <= Z.of_nat (length q1) -> QuorumSize vs <= Z.of_nat (length q2) ->
  faulty vs < Z.of_nat (length (filter (fun a => a ∈ q2) q1)).
Proof.
  intros [Hpos Hb _] Hn1 Hn2 Hs1 Hs2 Hl1 Hl2.
  rewrite QuorumSize_exact in Hl1, Hl2 by done.
  pose proof (NoDup_overlap (AddressList vs) q1 q2 Hn1 Hn2 Hs1 Hs2) as Hov.
  unfold AddressList in Hov. rewrite length_fmap in Hov.
  unfold faulty, Size in *. 
  pose proof (Z.div_mod (2 * Z.of_nat (length (vs_validators vs)) + 3) 3).
  pose proof (Z.mod_pos_bound (2 * Z.of_nat (length (vs_validators vs)) + 3) 3).
  pose proof (Z.div_mod (Z.of_nat (length (vs_validators vs)) - 1) 3).
  pose proof (Z.mod_pos_bound (Z.of_nat (length (vs_validators vs)) - 1) 3). lia.
Qed.

(** A quorum is within reach of the correct validators alone. *)
Lemma quorum_reachable vs : valset_ok vs -> QuorumSize vs <= Size vs - faulty vs.
Proof.
  intros [Hpos Hb _]. rewrite QuorumSize_exact by done. unfold faulty.
  pose proof (Z.div_mod (2 * Size vs + 3) 3). pose proof (Z.mod_pos_bound (2 * Size vs + 3) 3).
  pose proof (Z.div_mod (Size vs - 1) 3). pose proof (Z.mod_pos_bound (Size vs - 1) 3). lia.
Qed.

Lemma QuorumSize_pos vs : Size vs <= maxValidators -> 0 < QuorumSize vs.
Proof.
  intros. rewrite QuorumSize_exact by done. pose proof (Size_nonneg vs).
  apply Z.div_str_pos. lia.
Qed.

(** ** Proposer selection *)

Lemma seqZ_rotate (c : Z) (n : nat) :
  (fun k => (c + Z.of_nat k) mod Z.of_nat n) <$> seq 0 n ≡ₚ Z.of_nat <$> seq 0 n.
Proof.
  destruct n as [|n']; [done|]. set (n := S n').
  apply submseteq_length_Permutation; [apply NoDup_submseteq|].
  - apply NoDup_fmap_2_strong; [|apply NoDup_seq].
    intros x y [_ Hx]%elem_of_seq [_ Hy]%elem_of_seq He.
    assert ((c + Z.of_nat x) mod Z.of_nat n = (c + Z.of_nat y) mod Z.of_nat n) as He' by done.
    pose proof (Z.div_mod (c + Z.of_nat x) (Z.of_nat n) ltac:(lia)) as Hdx.
    pose proof (Z.div_mod (c + Z.of_nat y) (Z.of_nat n) ltac:(lia)) as Hdy.
    rewrite He' in Hdx. assert ((c + Z.of_nat x) / Z.of_nat n = (c + Z.of_nat y) / Z.of_nat n) by nia.
    lia.
  - intros x (k & -> & Hk)%list_elem_of_fmap. apply list_elem_of_fmap.
    pose proof (Z.mod_pos_bound (c + Z.of_nat k) (Z.of_nat n)).
    exists (Z.to_nat ((c + Z.of_nat k) mod Z.of_nat n)).
    rewrite Z2Nat.id by lia. split; [done|]. apply elem_of_seq. lia.
  - by rewrite !length_fmap.
Qed.

Lemma lookup_all {A} (l : list A) : (fun i => l !! i) <$> seq 0 (length l) = Some <$> l.
Proof.
  apply list_eq. intros i. rewrite !list_lookup_fmap.
  destruct (decide (i < length l)%nat) as [Hi|Hi].
  - rewrite lookup_seq_lt by done. cbn. by destruct (lookup_lt_is_Some_2 l i Hi) as [x ->].
  - rewrite lookup_seq_ge, (lookup_ge_None_2 l) by lia. done.
Qed.

(** Where the rotation starts for a given previous proposer. *)
Definition rotation_start (vs : ValidatorSet) (last : Address) (round : Z) : Z :=
  if emptyAddress last then round
  else match GetByAddress vs last with (idx, Some _) => idx | _ => 0 end + round + 1.

Lemma roundRobinProposer_pick vs last round :
  valset_ok vs -> 0 <= round < 2 ^ 64 - 256 ->
  roundRobinProposer vs last round = GetByIndex vs (rotation_start vs last round mod Size vs).
Proof.
  intros [Hpos Hb _] Hr. unfold roundRobinProposer, rotation_start, maxValidators in *.
  rewrite (proj2 (Z.eqb_neq _ _)) by lia. rewrite (u64_small (Size vs)) by lia.
  destruct (emptyAddress last); [done|]. unfold calcSeed.
  destruct (GetByAddress vs last) as [j [v|]] eqn:Hg.
  - apply GetByAddress_Some in Hg as (_ & Hj & _).
    rewrite (u64_small j), (u64_small (j + round)), u64_small by lia. done.
  - rewrite (u64_small 0), (u64_small (0 + round)), u64_small by lia. done.
Qed.

Lemma rotation_start_nonneg vs last round : 0 <= round -> 0 <= rotation_start vs last round.
Proof.
  intros. unfold rotation_start. case_match; [lia|]. case_match. case_match; [|lia].
  subst. apply GetByAddress_Some in H1. lia.
Qed.

Lemma IsProposer_spec vs addr :
  valset_ok vs -> (exists p, vs_proposer vs = Some p /\ p ∈ vs_validators vs) ->
  IsProposer vs addr = true <-> exists p, vs_proposer vs = Some p /\ val_address p = addr.
Proof.
  intros [_ _ Hnd] (p & Hp & [i Hi]%list_elem_of_lookup). unfold IsProposer, GetProposer.
  destruct (GetByAddress vs addr) as [j o] eqn:Hg. rewrite bool_decide_eq_true, Hp. split.
  - intros <-. apply GetByAddress_Some in Hg. naive_solver.
  - intros (p' & [= <-] & <-). rewrite (GetByAddress_lookup vs i p Hnd Hi) in Hg. naive_solver.
Qed.

Lemma CalcProposer_ok vs last round : valset_ok vs -> valset_ok (CalcProposer vs last round).
Proof. intros [H1 H2 H3]. by split. Qed.

Lemma selector_member vs last round :
  valset_ok vs -> exists p, selector vs last round = Some p /\ p ∈ vs_validators vs.
Proof.
  intros [Hpos Hb _]. unfold selector, maxValidators in *.
  assert (forall s, exists p, GetByIndex vs (s mod u64 (Size vs)) = Some p /\ p ∈ vs_validators vs)
    as Hpick.
  { intros s. rewrite u64_small by lia. destruct (GetByIndex_Some vs (s mod Size vs)) as [p Hp].
    { apply Z.mod_pos_bound. lia. }
    exists p. split; [done|]. apply GetByIndex_lookup in Hp. by eapply list_elem_of_lookup_2. }
  case_match; unfold stickyProposer, roundRobinProposer; rewrite (proj2 (Z.eqb_neq _ _)) by lia;
    apply Hpick.
Qed.

(** Two quorums share a validator outside any set of at most [faulty] ones. *)
Definition is_quorum (vs : ValidatorSet) (q : list Address) : Prop :=
  NoDup q /\ (forall a, a ∈ q -> a ∈ AddressList vs) /\ QuorumSize vs <= Z.of_nat (length q).

Lemma correct_member vs (byz q : list Address) :
  Z.of_nat (length byz) <= faulty vs -> NoDup q -> faulty vs < Z.of_nat (length q) ->
  exists a, a ∈ q /\ a ∉ byz.
Proof.
  intros Hbyz Hnd Hlen. destruct (decide (Forall (fun a => a ∈ byz) q)) as [Hall|Hnall].
  - exfalso. rewrite Forall_forall in Hall. pose proof (NoDup_subseteq_length _ byz Hnd Hall). lia.
  - apply not_Forall_Exists, Exists_exists in Hnall; [|apply _]. naive_solver.
Qed.

Lemma quorum_common vs byz q1 q2 :
  valset_ok vs -> Z.of_nat (length byz) <= faulty vs -> is_quorum vs q1 -> is_quorum vs q2 ->
  exists a, a ∈ q1 /\ a ∈ q2 /\ a ∉ byz.
Proof.
  intros Hok Hbyz (Hn1 & Hs1 & Hl1) (Hn2 & Hs2 & Hl2).
  pose proof (quorum_overlap vs q1 q2 Hok Hn1 Hn2 Hs1 Hs2 Hl1 Hl2) as Hov.
  apply (correct_member vs byz) in Hov as (a & Ha%list_elem_of_filter & Hb); [|done|by apply NoDup_filter].
  exists a. naive_solver.
Qed.

Lemma quorum_has_correct vs byz q :
  valset_ok vs -> Z.of_nat (length byz) <= faulty vs -> is_quorum vs q ->
  exists a, a ∈ q /\ a ∉ byz.
Proof.
  intros Hok Hbyz Hq. destruct (quorum_common vs byz q q Hok Hbyz Hq Hq) as (a & ? & _ & ?). eauto.
Qed.

(** * Properties *)

(** C6. Quorums of the validator set.  Although [QuorumSize] and [F] are
    computed in floating point, for every set of at most 255 distinct
    validators two quorums always share a validator outside any set of at most
    (n-1)/3 Byzantine ones, the remaining validators can always form a quorum
    by themselves, and the float test for F+1 ROUND-CHANGE messages is true for
    exactly (n-1)/3 + 1 of them. *)
Theorem quorum_intersection (vs : ValidatorSet) (byz q1 q2 : list Address) (num : Z)
  (Hok : valset_ok vs) (Hbyz : Z.of_nat (length byz) <= faulty vs)
  (Hq1 : is_quorum vs q1) (Hq2 : is_quorum vs q2) (Hnum : 0 <= num <= Size vs) :
  (exists a, a ∈ q1 /\ a ∈ q2 /\ a ∉ byz) /\
  QuorumSize vs <= Size vs - faulty vs /\
  reachedFPlusOne vs num = (num =? faulty vs + 1).
Proof.
  split_and!; [by eapply quorum_common|by apply quorum_reachable|].
  by apply reachedFPlusOne_exact; [apply vs_bound|].
Qed.

(** Round-robin fairness.  Starting from any previous proposer and any
    round, the proposers of n consecutive rounds are the n validators, each
    exactly once. *)
Theorem roundRobin_fair (vs : ValidatorSet) (last : Address) (round : Z)
  (Hok : valset_ok vs) (Hround : 0 <= round < 2 ^ 64 - 512) :
  (fun k => roundRobinProposer vs last (round + Z.of_nat k)) <$> seq 0 (length (vs_validators vs))
  ≡ₚ Some <$> vs_validators vs.
Proof.
  pose proof (vs_bound _ Hok) as Hb. pose proof (vs_nonempty _ Hok) as Hpos.
  unfold maxValidators in Hb. rewrite <- lookup_all.
  transitivity ((fun z => vs_validators vs !! Z.to_nat z) <$>
    ((fun k => (rotation_start vs last round + Z.of_nat k) mod Size vs) <$>
       seq 0 (length (vs_validators vs)))).
  - rewrite <- list_fmap_compose. apply reflexive_eq, list_fmap_ext.
    intros i k [-> Hk]%lookup_seq. cbn. unfold Size in *.
    rewrite roundRobinProposer_pick by (done || lia).
    replace (rotation_start vs last (round + Z.of_nat i))
      with (rotation_start vs last round + Z.of_nat i)
      by (unfold rotation_start; repeat case_match; lia).
    unfold GetByIndex, Size. rewrite (proj2 (Z.ltb_lt _ _)); [done|].
    apply Z.mod_pos_bound. lia.
  - unfold Size. rewrite seqZ_rotate, <- list_fmap_compose. apply reflexive_eq, list_fmap_ext.
    intros i k _. cbn. by rewrite Nat2Z.id.
Qed.

(** A set of four validators, used by the witnesses. *)
Definition four : ValidatorSet :=
  newDefaultSet [mkValidator 1 [11]; mkValidator 2 [22]; mkValidator 3 [33]; mkValidator 4 [44]] RoundRobin.

Lemma four_ok : valset_ok four.
Proof. split; [done|done|]. by apply (bool_decide_unpack _). Qed.

Lemma four_quorum a b c :
  bool_decide (NoDup [a; b; c]) && forallb (fun x => bool_decide (x ∈ AddressList four)) [a; b; c] = true ->
  is_quorum four [a; b; c].
Proof.
  intros [Hnd%bool_decide_eq_true Hin]%andb_true_iff. split_and!; [done| |by vm_compute].
  intros x Hx. rewrite forallb_forall in Hin. apply list_elem_of_In, Hin in Hx.
  by apply bool_decide_eq_true in Hx.
Qed.

Lemma quorum_intersection_witness :
  valset_ok four /\
  ((exists a, a ∈ [1; 2; 3] /\ a ∈ [2; 3; 4] /\ a ∉ [2]) /\
   QuorumSize four <= Size four - faulty four /\ reachedFPlusOne four 2 = (2 =? faulty four + 1)).
Proof.
  split; [exact four_ok|].
  apply (quorum_intersection four [2] [1; 2; 3] [2; 3; 4] 2 four_ok).
  - by vm_compute.
  - by apply four_quorum.
  - by apply four_quorum.
  - by vm_compute.
Defined.

Lemma roundRobin_fair_witness :
  valset_ok four /\
  (fun k => roundRobinProposer four 3 (7 + Z.of_nat k)) <$> seq 0 4 ≡ₚ Some <$> vs_validators four.
Proof. split; [exact four_ok|]. apply (roundRobin_fair four 3 7 four_ok). lia. Defined.
