(* ===== verification/Prque.v ===== *)
(** The priority queue of [src/common/prque]: the binary heap of [container/heap]
    over the stack [sstack], which behaves as a growable array.  The highest
    priority is popped first.  The queues of the consensus core carry no
    [setIndex] callback. *)
From Stdlib Require Import Sorted.
From S2P Require Import Prelude.

Section prque.
Context {V : Type}.
Implicit Types l : list (V * Z).

(** The priority stored at an index; only called with indices in range. *)
Definition prio l (i : nat) : Z := match l !! i with Some (_, p) => p | None => 0 end.

Definition Less l (i j : nat) : bool := prio l j <? prio l i.

Definition Swap l (i j : nat) : list (V * Z) :=
  match l !! i, l !! j with
  | Some a, Some b => <[j := a]> (<[i := b]> l)
  | _, _ => l
  end.

(** [heap.up]: the loop runs at most [j] times, since the parent index is smaller. *)
Fixpoint up (fuel : nat) l (j : nat) : list (V * Z) :=
  match fuel with
  | O => l
  | S fuel' =>
      let i := ((j - 1) / 2)%nat in
      if (i =? j)%nat || negb (Less l j i) then l
      else up fuel' (Swap l i j) i
  end.

(** [heap.down] on the first [n] elements: the index grows at every turn. *)
Fixpoint down (fuel : nat) l (i n : nat) : list (V * Z) :=
  match fuel with
  | O => l
  | S fuel' =>
      let j1 := (2 * i + 1)%nat in
      if (n <=? j1)%nat then l else
      let j2 := (j1 + 1)%nat in
      let j := if (j2 <? n)%nat && Less l j2 j1 then j2 else j1 in
      if negb (Less l j i) then l
      else down fuel' (Swap l i j) j n
  end.

Definition Push l (data : V) (priority : Z) : list (V * Z) :=
  let l' := l ++ [(data, priority)] in up (length l') l' (length l' - 1).

(** [Pop] of an empty queue indexes out of range: [None] is the panic. *)
Definition Pop l : option (V * Z * list (V * Z)) :=
  match l with
  | [] => None
  | _ =>
      let n := (length l - 1)%nat in
      let l' := down (length l) (Swap l 0 n) 0 n in
      match last l' with
      | Some (value, priority) => Some (value, priority, take n l')
      | None => None
      end
  end.

Definition Empty l : bool := (length l =? 0)%nat.
Definition QSize l : Z := Z.of_nat (length l).

(** The heap order of the first [n] elements. *)
Definition heap_upto (n : nat) l : Prop :=
  forall k, (0 < k < n)%nat -> prio l k <= prio l ((k - 1) / 2).
Definition heap l : Prop := heap_upto (length l) l.

Lemma parent_lt k : (0 < k)%nat -> ((k - 1) / 2 < k)%nat.
Proof. intros. apply Nat.Div0.div_lt_upper_bound. lia. Qed.

Lemma parent_spec i k : (0 < k)%nat -> ((k - 1) / 2 = i <-> k = 2 * i + 1 \/ k = 2 * i + 2)%nat.
Proof.
  intros Hk. pose proof (Nat.div_mod_eq (k - 1) 2).
  pose proof (Nat.mod_upper_bound (k - 1) 2 ltac:(lia)). lia.
Qed.

Lemma length_Swap l i j : length (Swap l i j) = length l.
Proof. unfold Swap. repeat case_match; rewrite ?length_insert; done. Qed.

Lemma prio_Swap l i j k :
  (i < length l)%nat -> (j < length l)%nat ->
  prio (Swap l i j) k = if decide (k = i) then prio l j else if decide (k = j) then prio l i else prio l k.
Proof.
  intros [a Ha]%lookup_lt_is_Some [b Hb]%lookup_lt_is_Some. unfold prio, Swap. rewrite Ha, Hb.
  destruct (decide (k = j)) as [->|].
  - rewrite list_lookup_insert_eq by (rewrite length_insert; by eapply lookup_lt_Some).
    case_decide; [by simplify_eq|done].
  - rewrite list_lookup_insert_ne by done. case_decide as Hk; [subst|].
    + rewrite list_lookup_insert_eq by by eapply lookup_lt_Some. done.
    + by rewrite list_lookup_insert_ne by done.
Qed.

Lemma Swap_perm l i j : Swap l i j ≡ₚ l.
Proof.
  unfold Swap. destruct (l !! i) as [a|] eqn:Hi; [|done]. destruct (l !! j) as [b|] eqn:Hj; [|done].
  destruct (decide (i = j)) as [->|Hij].
  - simplify_eq. by rewrite list_insert_insert_eq, list_insert_id.
  - by apply Permutation_insert_swap.
Qed.

Lemma up_perm fuel l j : up fuel l j ≡ₚ l.
Proof.
  revert l j; induction fuel as [|fuel IH]; intros l j; cbn [up]; [done|].
  case_match; [done|]. by rewrite IH, Swap_perm.
Qed.

Lemma length_down fuel l i n : length (down fuel l i n) = length l.
Proof.
  revert l i; induction fuel as [|fuel IH]; intros l i; cbn [down]; [done|].
  do 3 (case_match; try done); by rewrite IH, length_Swap.
Qed.

(** [up] repairs a heap whose only defect is between [j] and its parent. *)
Lemma up_heap fuel l j :
  (j < length l)%nat -> (j <= fuel)%nat ->
  (forall k, (0 < k < length l)%nat -> k <> j -> prio l k <= prio l ((k - 1) / 2)) ->
  (forall k, (0 < k < length l)%nat -> ((k - 1) / 2 = j)%nat -> (0 < j)%nat ->
     prio l k <= prio l ((j - 1) / 2)) ->
  heap (up fuel l j).
Proof.
  revert l j; induction fuel as [|fuel IH]; intros l j Hj Hf Hh Hg; cbn [up].
  { intros k Hk. apply Hh; lia. }
  destruct (decide (j = 0%nat)) as [->|Hj0]; [cbn; intros k Hk; apply Hh; lia|].
  pose proof (parent_lt j ltac:(lia)) as Hp. rewrite (proj2 (Nat.eqb_neq _ _)) by lia. cbn [orb].
  remember ((j - 1) / 2)%nat as i eqn:Hi. unfold Less. destruct (prio l i <? prio l j) eqn:Hless; zify_bools.
  - cbn [negb]. apply IH; rewrite ?length_Swap; try lia.
    + intros k Hk Hki. rewrite !prio_Swap by lia.
      pose proof (Hh k Hk) as Hhk. pose proof (Hg k Hk) as Hgk.
      pose proof (parent_lt k ltac:(lia)).
      repeat case_decide; simplify_eq; try lia.
      rewrite H2 in Hhk. specialize (Hhk H1). lia.
    + intros k Hk Hki Hi0. rewrite !prio_Swap by lia.
      pose proof (parent_lt i Hi0). pose proof (Hh i ltac:(lia) ltac:(lia)) as Hhi.
      pose proof (parent_lt k ltac:(lia)). repeat case_decide; try lia.
      pose proof (Hh k Hk ltac:(done)) as Hhk. rewrite Hki in Hhk. lia.
  - cbn [negb]. intros k Hk. destruct (decide (k = j)) as [->|]; [rewrite <- Hi; lia|]. by apply Hh.
Qed.

(** [down] repairs a heap whose only defect is between [i] and its children;
    it leaves the elements from [n] on alone. *)
Lemma down_heap fuel l i n :
  (n <= length l)%nat -> (n <= i + fuel)%nat ->
  (forall k, (0 < k < n)%nat -> ((k - 1) / 2 <> i)%nat -> prio l k <= prio l ((k - 1) / 2)) ->
  (forall k, (0 < k < n)%nat -> ((k - 1) / 2 = i)%nat -> (0 < i)%nat ->
     prio l k <= prio l ((i - 1) / 2)) ->
  heap_upto n (down fuel l i n).
Proof.
  revert l i; induction fuel as [|fuel IH]; intros l i Hn Hf Hh Hg; cbn [down].
  { intros k Hk. apply Hh; [done|]. pose proof (parent_lt k). lia. }
  destruct (Nat.leb_spec n (2 * i + 1)) as [Hle|Hlt].
  { intros k Hk. apply Hh; [done|]. rewrite parent_spec by lia. lia. }
  set (j := if (2 * i + 1 + 1 <? n)%nat && Less l (2 * i + 1 + 1) (2 * i + 1) then _ else _).
  assert (((j = 2 * i + 1)%nat \/ (j = 2 * i + 2)%nat) /\ (j < n)%nat /\
    forall k, (0 < k < n)%nat -> ((k - 1) / 2 = i)%nat -> prio l k <= prio l j) as (Hj & Hjn & Hmax).
  { unfold j, Less. destruct (Nat.ltb_spec (2 * i + 1 + 1) n); cbn [andb].
    - destruct (Z.ltb_spec (prio l (2 * i + 1)) (prio l (2 * i + 1 + 1))); (split_and!; [lia|lia|]);
        intros k Hk [->| ->]%parent_spec; try lia;
        replace (2 * i + 2)%nat with (2 * i + 1 + 1)%nat by lia; lia.
    - split_and!; [lia|lia|]. intros k Hk [->| ->]%parent_spec; lia. }
  clearbody j. assert (((j - 1) / 2)%nat = i) as Hpj by (apply parent_spec; lia).
  unfold Less. destruct (prio l i <? prio l j) eqn:Hless; zify_bools; cbn [negb].
  - apply IH; rewrite ?length_Swap; try lia.
    + intros k Hk Hkj. rewrite !prio_Swap by lia.
      pose proof (Hh k Hk) as Hhk. pose proof (Hg k Hk) as Hgk. pose proof (Hmax k Hk) as Hmk.
      pose proof (parent_lt k ltac:(lia)).
      repeat case_decide; subst; try lia.
      pose proof (Hg j ltac:(lia) ltac:(done) ltac:(lia)). lia.
    + intros k Hk Hkj Hj0. rewrite !prio_Swap, Hpj by lia. pose proof (parent_lt k ltac:(lia)).
      repeat case_decide; subst; try lia.
      pose proof (Hh k Hk ltac:(lia)). congruence || lia.
  - intros k Hk. destruct (decide (((k - 1) / 2)%nat = i)) as [Hki|]; [|by apply Hh].
    rewrite Hki. pose proof (Hmax k Hk Hki). lia.
Qed.

Lemma down_perm fuel l i n : down fuel l i n ≡ₚ l.
Proof.
  revert l i; induction fuel as [|fuel IH]; intros l i; cbn [down]; [done|].
  do 3 (case_match; try done); by rewrite IH, Swap_perm.
Qed.

Lemma Swap_lookup_ge l i j n k :
  (i < n)%nat -> (j < n)%nat -> (n <= k)%nat -> Swap l i j !! k = l !! k.
Proof.
  intros. unfold Swap. repeat case_match; try done.
  by rewrite !list_lookup_insert_ne by lia.
Qed.

Lemma down_lookup_ge fuel l i n k : (n <= k)%nat -> down fuel l i n !! k = l !! k.
Proof.
  intros Hk. revert l i; induction fuel as [|fuel IH]; intros l i; cbn [down]; [done|].
  destruct (Nat.leb_spec n (2 * i + 1)); [done|].
  destruct (Nat.ltb_spec (2 * i + 1 + 1) n); cbn [andb];
    repeat (case_match; try done); rewrite IH; apply (Swap_lookup_ge _ _ _ n); lia.
Qed.

Lemma heap_root n l k : heap_upto n l -> (k < n)%nat -> prio l k <= prio l 0.
Proof.
  intros Hh. induction k as [k IH] using lt_wf_ind. intros Hk.
  destruct (decide (k = 0%nat)) as [->|]; [lia|].
  pose proof (parent_lt k ltac:(lia)). pose proof (Hh k ltac:(lia)).
  pose proof (IH ((k - 1) / 2)%nat ltac:(lia) ltac:(lia)). lia.
Qed.

Lemma prio_app_l l x k : (k < length l)%nat -> prio (l ++ [x]) k = prio l k.
Proof. intros. unfold prio. by rewrite lookup_app_l. Qed.

Lemma Push_heap l v p : heap l -> heap (Push l v p).
Proof.
  intros Hh. unfold Push. set (l' := l ++ [(v, p)]).
  assert (length l' = S (length l)) as Hlen by (unfold l'; rewrite length_app; cbn; lia).
  apply up_heap; try lia.
  - intros k Hk Hne. pose proof (parent_lt k ltac:(lia)). unfold l'.
    rewrite !prio_app_l by lia. apply Hh. lia.
  - intros k Hk Hpk. pose proof (parent_lt k ltac:(lia)). lia.
Qed.

Lemma Push_perm l v p : Push l v p ≡ₚ (v, p) :: l.
Proof. unfold Push. rewrite up_perm. by rewrite (comm app). Qed.

Lemma Pop_spec l :
  heap l -> l <> [] ->
  exists v p l', Pop l = Some (v, p, l') /\ l ≡ₚ (v, p) :: l' /\ heap l' /\
    Forall (fun x => x.2 <= p) l'.
Proof.
  intros Hh Hne. destruct l as [|x0 l0] eqn:Hl; [done|]. rewrite <- Hl in *. unfold Pop.
  assert (Pop l = let n := (length l - 1)%nat in
      let l2 := down (length l) (Swap l 0 n) 0 n in
      match last l2 with Some (v, p) => Some (v, p, take n l2) | None => None end) as Heq
    by (by rewrite Hl).
  fold (Pop l). rewrite Heq. cbv zeta. clear Heq. 
  set (n := (length l - 1)%nat). assert (length l = S n) as Hlen by (subst n; rewrite Hl; cbn; lia).
  set (l2 := down (length l) (Swap l 0 n) 0 n).
  assert (length l2 = S n) as Hlen2 by (unfold l2; rewrite length_down, length_Swap; lia).
  assert (l !! 0%nat = Some x0) as H0 by (by rewrite Hl).
  assert (l2 !! n = Some x0) as Hlast.
  { unfold l2. rewrite down_lookup_ge by lia. unfold Swap. rewrite H0.
    destruct (lookup_lt_is_Some_2 l n ltac:(lia)) as [y ->].
    apply list_lookup_insert_eq. rewrite length_insert. lia. }
  assert (heap_upto n l2) as Hh2.
  { apply down_heap; rewrite ?length_Swap; try lia. intros k Hk Hp.
    pose proof (parent_lt k ltac:(lia)). rewrite !prio_Swap by lia.
    repeat case_decide; try lia. apply Hh. lia. }
  assert (l2 ≡ₚ l) as Hperm by (unfold l2; by rewrite down_perm, Swap_perm).
  assert (last l2 = Some x0) as Hlst by (rewrite last_lookup, Hlen2; done).
  assert (l2 = take n l2 ++ [x0]) as Hsplit.
  { rewrite <- (take_drop n l2) at 1. f_equal. apply drop_S in Hlast as ->.
    by rewrite drop_ge by lia. }
  rewrite Hlst. destruct x0 as [v p]. exists v, p, (take n l2). split_and!; [done|..].
  - rewrite <- Hperm, Hsplit at 1. by rewrite (comm app).
  - intros k Hk. rewrite length_take_le in Hk by lia. pose proof (parent_lt k ltac:(lia)).
    unfold prio. rewrite !lookup_take_lt by lia. by apply Hh2.
  - assert (prio l 0 = p) as Hp by (unfold prio; by rewrite H0).
    apply Forall_forall. intros x Hx. assert (x ∈ l) as [k Hk]%list_elem_of_lookup.
    { rewrite <- Hperm, Hsplit. set_solver. }
    rewrite <- Hp. destruct x as [w q]. cbn. pose proof (lookup_lt_Some _ _ _ Hk).
    pose proof (heap_root (length l) l k Hh ltac:(lia)) as Hr. unfold prio at 1 in Hr.
    by rewrite Hk in Hr.
Qed.

Lemma Pop_perm l v p l' : Pop l = Some (v, p, l') -> l ≡ₚ (v, p) :: l'.
Proof.
  unfold Pop. destruct l as [|x l0] eqn:Hl; [done|]. rewrite <- Hl. intros Hpop.
  set (l2 := down _ _ _ _) in Hpop. assert (l2 ≡ₚ l) as Hperm by (unfold l2; by rewrite down_perm, Swap_perm).
  assert (length l2 = length l) as Hlen by (by rewrite Hperm). rewrite <- Hlen in Hpop.
  destruct (last l2) as [[v' p']|] eqn:Hlast; [|done]. injection Hpop as -> -> <-.
  apply last_Some in Hlast as [k Hk]. rewrite <- Hperm, Hk, length_app. cbn [length].
  replace (length k + 1 - 1)%nat with (length k) by lia. rewrite take_app_length. by rewrite (comm app).
Qed.

Lemma Pop_Some l v p l' :
  heap l -> Pop l = Some (v, p, l') ->
  l ≡ₚ (v, p) :: l' /\ heap l' /\ Forall (fun x => x.2 <= p) l'.
Proof.
  intros Hh Hpop. assert (l <> []) as Hne by (by intros ->).
  destruct (Pop_spec l Hh Hne) as (v' & p' & l'' & Heq & ?). rewrite Hpop in Heq. by simplify_eq.
Qed.

Lemma Empty_nil l : Empty l = true <-> l = [].
Proof. unfold Empty. rewrite Nat.eqb_eq. destruct l; done. Qed.

Lemma heap_nil : heap [].
Proof. intros k. cbn. lia. Qed.

(** [n] pops in a row, and pushes of a whole list. *)
Fixpoint pops (n : nat) l : list (V * Z) :=
  match n with
  | O => []
  | S n' => match Pop l with Some (v, p, l') => (v, p) :: pops n' l' | None => [] end
  end.

Definition pushes l (items : list (V * Z)) : list (V * Z) :=
  fold_left (fun q '(v, p) => Push q v p) items l.

Lemma pushes_spec items l : heap l -> heap (pushes l items) /\ pushes l items ≡ₚ items ++ l.
Proof.
  revert l; induction items as [|[v p] items IH]; intros l Hl; [done|]. cbn.
  destruct (IH (Push l v p) (Push_heap l v p Hl)) as [Hh Hp]. split; [done|].
  rewrite Hp, Push_perm. symmetry. apply Permutation_middle.
Qed.

Lemma pops_spec n l :
  heap l -> length l = n ->
  pops n l ≡ₚ l /\ StronglySorted (fun x y => y.2 <= x.2) (pops n l).
Proof.
  revert l; induction n as [|n IH]; intros l Hh Hn.
  - destruct l; [|done]. split; [done|constructor].
  - destruct (Pop_spec l Hh) as (v & p & l' & Hpop & Hperm & Hh' & Hmax).
    { by destruct l. }
    cbn. rewrite Hpop. destruct (IH l' Hh') as [Hp' Hs'].
    { apply Permutation_length in Hperm. cbn in Hperm. lia. }
    split; [by rewrite Hperm, Hp'|]. constructor; [done|]. by rewrite Hp'.
Qed.

(** The priority queue.  Pushing any sequence of items and popping them all
    returns exactly these items, in order of decreasing priority, without ever
    popping from an empty heap. *)
Theorem prque_sorts (items : list (V * Z)) :
  pops (length items) (pushes [] items) ≡ₚ items /\
  StronglySorted (fun x y => y.2 <= x.2) (pops (length items) (pushes [] items)).
Proof.
  destruct (pushes_spec items [] heap_nil) as [Hh Hp]. rewrite app_nil_r in Hp.
  destruct (pops_spec (length items) (pushes [] items) Hh) as [Hq Hs].
  { by apply Permutation_length. }
  split; [by rewrite Hq|done].
Qed.
End prque.
