(* ===== verification/AccountExtra.v ===== *)
(** The flags of StableNet accounts (src/core/types/state_account_extra.go). *)
From S2P Require Import Prelude.

Definition AccountExtraMaskBlacklisted : Z := Z.shiftl 1 63.
Definition AccountExtraMaskAuthorized : Z := Z.shiftl 1 62.
Definition AccountExtraValidMask : Z := Z.lor AccountExtraMaskBlacklisted AccountExtraMaskAuthorized.

Definition hasBit (extra mask : Z) : bool := negb (Z.land extra mask =? 0).
Definition setBit (extra mask : Z) : Z := Z.lor extra mask.
Definition clearBit (extra mask : Z) : Z := Z.ldiff extra mask.

Definition extra_IsBlacklisted (extra : Z) : bool := hasBit extra AccountExtraMaskBlacklisted.
Definition extra_SetBlacklisted (extra : Z) : Z := setBit extra AccountExtraMaskBlacklisted.
Definition extra_ClearBlacklisted (extra : Z) : Z := clearBit extra AccountExtraMaskBlacklisted.
Definition extra_IsAuthorized (extra : Z) : bool := hasBit extra AccountExtraMaskAuthorized.
Definition extra_SetAuthorized (extra : Z) : Z := setBit extra AccountExtraMaskAuthorized.
Definition extra_ClearAuthorized (extra : Z) : Z := clearBit extra AccountExtraMaskAuthorized.
(** [true] for no error. *)
Definition ValidateExtra (extra : Z) : bool := Z.ldiff extra AccountExtraValidMask =? 0.

(** * What the flags mean *)

Lemma hasBit_testbit extra n : 0 <= n -> hasBit extra (Z.shiftl 1 n) = Z.testbit extra n.
Proof.
  intros Hn. unfold hasBit. rewrite Z.shiftl_1_l. destruct (Z.testbit extra n) eqn:Hb.
  - apply negb_true_iff, Z.eqb_neq. intros Hz. assert (Z.testbit (Z.land extra (2 ^ n)) n = true) as Ht.
    { by rewrite Z.land_spec, Hb, Z.pow2_bits_true. }
    by rewrite Hz, Z.testbit_0_l in Ht.
  - apply negb_false_iff, Z.eqb_eq, Z.bits_inj'. intros m Hm. rewrite Z.land_spec, Z.testbit_0_l, Z.pow2_bits_eqb by done.
    destruct (Z.eqb_spec n m) as [<-|]; [by rewrite Hb|apply andb_false_r].
Qed.

Lemma setBit_testbit extra n m : 0 <= n -> Z.testbit (setBit extra (Z.shiftl 1 n)) m = Z.testbit extra m || (n =? m).
Proof. intros Hn. unfold setBit. by rewrite Z.lor_spec, Z.shiftl_1_l, Z.pow2_bits_eqb. Qed.

Lemma clearBit_testbit extra n m : 0 <= n -> 0 <= m -> Z.testbit (clearBit extra (Z.shiftl 1 n)) m = Z.testbit extra m && negb (n =? m).
Proof. intros Hn Hm. unfold clearBit. by rewrite Z.ldiff_spec, Z.shiftl_1_l, Z.pow2_bits_eqb. Qed.

(** The two flags are independent, and setting and clearing them is seen. *)
Lemma flags_independent extra :
  extra_IsBlacklisted (extra_SetBlacklisted extra) = true /\ extra_IsBlacklisted (extra_ClearBlacklisted extra) = false /\
  extra_IsAuthorized (extra_SetAuthorized extra) = true /\ extra_IsAuthorized (extra_ClearAuthorized extra) = false /\
  extra_IsAuthorized (extra_SetBlacklisted extra) = extra_IsAuthorized extra /\
  extra_IsAuthorized (extra_ClearBlacklisted extra) = extra_IsAuthorized extra /\
  extra_IsBlacklisted (extra_SetAuthorized extra) = extra_IsBlacklisted extra /\
  extra_IsBlacklisted (extra_ClearAuthorized extra) = extra_IsBlacklisted extra.
Proof.
  unfold extra_IsBlacklisted, extra_SetBlacklisted, extra_ClearBlacklisted, extra_IsAuthorized, extra_SetAuthorized, extra_ClearAuthorized,
    AccountExtraMaskBlacklisted, AccountExtraMaskAuthorized.
  rewrite !hasBit_testbit, !setBit_testbit, !clearBit_testbit by lia. cbn [Z.eqb Pos.eqb negb].
  rewrite ?orb_true_r, ?orb_false_r, ?andb_true_r, ?andb_false_r. done.
Qed.
