(* ===== verification/Messages.v ===== *)
(** Views, proposals and the four WBFT messages
    ([src/consensus/wbft/types.go], [src/consensus/wbft/messages]). *)
From S2P Require Import Prelude Validators.

(** * Views *)

Record View := mkView { v_Round : Z; v_Sequence : Z }.

#[export] Instance View_eq_dec : EqDecision View.
Proof. solve_decision. Defined.

(** [View.Cmp]: by sequence, then by round. *)
Definition View_Cmp (v y : View) : comparison :=
  match v_Sequence v ?= v_Sequence y with
  | Eq => match v_Round v ?= v_Round y with Eq => Eq | c => c end
  | c => c
  end.

Definition view_lt (v y : View) : Prop :=
  v_Sequence v < v_Sequence y \/ (v_Sequence v = v_Sequence y /\ v_Round v < v_Round y).
Definition view_le (v y : View) : Prop := v = y \/ view_lt v y.

Lemma View_Cmp_spec v y :
  CompareSpec (v = y) (view_lt v y) (view_lt y v) (View_Cmp v y).
Proof.
  unfold View_Cmp, view_lt. destruct v as [r s], y as [r' s']; cbn.
  destruct (Z.compare_spec s s'); [|constructor; lia..].
  destruct (Z.compare_spec r r'); constructor; subst; auto; lia.
Qed.

Lemma View_Cmp_Lt v y : View_Cmp v y = Lt <-> view_lt v y.
Proof.
  destruct (View_Cmp_spec v y); unfold view_lt in *; subst; (split; [|done || lia]); try done; lia.
Qed.

Lemma View_Cmp_Gt v y : View_Cmp v y = Gt <-> view_lt y v.
Proof.
  destruct (View_Cmp_spec v y); unfold view_lt in *; subst; (split; [|done || lia]); try done; lia.
Qed.

Lemma View_Cmp_Eq v y : View_Cmp v y = Eq <-> v = y.
Proof.
  destruct (View_Cmp_spec v y); unfold view_lt in *; (split; [|done || (intros ->; lia)]); done.
Qed.

#[export] Instance view_le_preorder : PreOrder view_le.
Proof.
  split; [by left|]. unfold view_le, view_lt. intros [] [] []; cbn. intros [[=]|?] [[=]|?]; subst;
    [by left|right; lia..].
Qed.

(** * Message codes *)

Definition PreprepareCode : Z := 18.  (* 0x12 *)
Definition PrepareCode : Z := 19.     (* 0x13 *)
Definition CommitCode : Z := 20.      (* 0x14 *)
Definition RoundChangeCode : Z := 21. (* 0x15 *)

Definition MessageCodes : list Z := [PreprepareCode; PrepareCode; CommitCode; RoundChangeCode].

(** * Proposals

    The interface [wbft.Proposal], as the core uses it: the height, the hash,
    and for [*types.Block] the digest that validators seal
    ([PrepareSeal(header, round, sealType)]). *)

Inductive SealType := SealTypePrepare | SealTypeCommit.

#[export] Instance SealType_eq_dec : EqDecision SealType.
Proof. solve_decision. Defined.

Class Proposal (B : Type) : Type := {
  Number : B -> Z;
  BHash : B -> Hash;
  PrepareSeal : B -> Z -> SealType -> bytes;
}.

(** * Seals

    Cryptography the sources call: [crypto.Keccak256], [crypto.SigToPub],
    [crypto.PubkeyToAddress] and the BLS package. *)
Class Crypto : Type := {
  Keccak256 : bytes -> bytes;
  SigToPub : bytes -> bytes -> option bytes;
  PubkeyToAddress : bytes -> Address;
  blsPublicKey : Type;
  blsSignature : Type;
  PublicKeyFromBytes : bytes -> option blsPublicKey;
  SignatureFromBytes : bytes -> option blsSignature;
  blsVerify : blsSignature -> blsPublicKey -> bytes -> bool;
}.

(** [wbft.SealData]: a validator's seal and its index. *)
Record SealData := mkSealData { sd_Sealer : Z; sd_Seal : bytes }.

(** * Messages *)

(** [CommonPayload]; [Sequence] and [Round] are never nil in a decoded or
    constructed message. *)
Record CommonPayload := mkCommon {
  cp_code : Z;
  cp_source : Address;
  cp_Sequence : Z;
  cp_Round : Z;
  cp_signature : bytes;
}.

Definition cp_View (c : CommonPayload) : View := mkView (cp_Round c) (cp_Sequence c).
Definition cp_SetSource (c : CommonPayload) (a : Address) : CommonPayload :=
  mkCommon (cp_code c) a (cp_Sequence c) (cp_Round c) (cp_signature c).
Definition cp_SetSignature (c : CommonPayload) (sig : bytes) : CommonPayload :=
  mkCommon (cp_code c) (cp_source c) (cp_Sequence c) (cp_Round c) sig.

Record Prepare := mkPrepare {
  pr_common : CommonPayload;
  pr_Digest : Hash;
  pr_PrepareSeal : bytes;
}.

Record Commit := mkCommit {
  cm_common : CommonPayload;
  cm_Digest : Hash;
  cm_CommitSeal : bytes;
}.

(** [PreparedRound] may be nil. *)
Record SignedRoundChangePayload := mkSRC {
  sr_common : CommonPayload;
  sr_PreparedRound : option Z;
  sr_PreparedDigest : Hash;
}.

Definition NewPrepare (sequence round : Z) (digest : Hash) (seal : bytes) : Prepare :=
  mkPrepare (mkCommon PrepareCode zeroAddress sequence round []) digest seal.

Definition NewPrepareWithSigAndSource (sequence round : Z) (digest : Hash) (sig : bytes)
  (source : Address) (seal : bytes) : Prepare :=
  mkPrepare (mkCommon PrepareCode source sequence round sig) digest seal.

Definition NewCommit (sequence round : Z) (digest : Hash) (seal : bytes) : Commit :=
  mkCommit (mkCommon CommitCode zeroAddress sequence round []) digest seal.

Definition pr_source (p : Prepare) : Address := cp_source (pr_common p).
Definition pr_Round (p : Prepare) : Z := cp_Round (pr_common p).
Definition pr_View (p : Prepare) : View := cp_View (pr_common p).
Definition cm_source (p : Commit) : Address := cp_source (cm_common p).
Definition cm_Round (p : Commit) : Z := cp_Round (cm_common p).
Definition cm_View (p : Commit) : View := cp_View (cm_common p).
Definition sr_source (p : SignedRoundChangePayload) : Address := cp_source (sr_common p).
Definition sr_View (p : SignedRoundChangePayload) : View := cp_View (sr_common p).

Section messages.
Context {B : Type} `{Proposal B}.

(** A nil [Justification] and an empty one are not distinguished by any code. *)
Record RoundChange := mkRoundChange {
  rc_payload : SignedRoundChangePayload;
  rc_PreparedBlock : option B;
  rc_Justification : list Prepare;
}.

Record Preprepare := mkPreprepare {
  pp_common : CommonPayload;
  pp_Proposal : B;
  pp_JustificationRoundChanges : list SignedRoundChangePayload;
  pp_JustificationPrepares : list Prepare;
}.

Definition NewPreprepare (sequence round : Z) (proposal : B) : Preprepare :=
  mkPreprepare (mkCommon PreprepareCode zeroAddress sequence round []) proposal [] [].

Definition NewRoundChange (sequence round : Z) (preparedRound : option Z) (preparedBlock : option B)
  : RoundChange :=
  let digest := match preparedBlock with Some b => BHash b | None => zeroHash end in
  mkRoundChange (mkSRC (mkCommon RoundChangeCode zeroAddress sequence round []) preparedRound digest)
    preparedBlock [].

Definition rc_source (m : RoundChange) : Address := sr_source (rc_payload m).
Definition rc_View (m : RoundChange) : View := sr_View (rc_payload m).
Definition rc_Round (m : RoundChange) : Z := cp_Round (sr_common (rc_payload m)).

(** The interface [WBFTMessage]. *)
Inductive WBFTMessage :=
  | MPreprepare (m : Preprepare)
  | MPrepare (m : Prepare)
  | MCommit (m : Commit)
  | MRoundChange (m : RoundChange).

Definition msg_common (m : WBFTMessage) : CommonPayload :=
  match m with
  | MPreprepare m => pp_common m
  | MPrepare m => pr_common m
  | MCommit m => cm_common m
  | MRoundChange m => sr_common (rc_payload m)
  end.

Definition msg_Code (m : WBFTMessage) : Z := cp_code (msg_common m).
Definition msg_View (m : WBFTMessage) : View := cp_View (msg_common m).
Definition msg_Source (m : WBFTMessage) : Address := cp_source (msg_common m).

Definition set_common (m : WBFTMessage) (c : CommonPayload) : WBFTMessage :=
  match m with
  | MPreprepare p => MPreprepare (mkPreprepare c (pp_Proposal p) (pp_JustificationRoundChanges p)
                                    (pp_JustificationPrepares p))
  | MPrepare p => MPrepare (mkPrepare c (pr_Digest p) (pr_PrepareSeal p))
  | MCommit p => MCommit (mkCommit c (cm_Digest p) (cm_CommitSeal p))
  | MRoundChange p =>
      MRoundChange (mkRoundChange (mkSRC c (sr_PreparedRound (rc_payload p))
                                     (sr_PreparedDigest (rc_payload p)))
                      (rc_PreparedBlock p) (rc_Justification p))
  end.

(** The code carried by a message is the one of its Go type: constructors and
    [DecodeRLP] both set it. *)
Definition code_of (m : WBFTMessage) : Z :=
  match m with
  | MPreprepare _ => PreprepareCode
  | MPrepare _ => PrepareCode
  | MCommit _ => CommitCode
  | MRoundChange _ => RoundChangeCode
  end.

Definition msg_wf (m : WBFTMessage) : Prop := msg_Code m = code_of m.
End messages.

Arguments RoundChange B : clear implicits.
Arguments Preprepare B : clear implicits.
Arguments WBFTMessage B : clear implicits.

(** A small concrete proposal on which the theorems are instantiated. *)
Record SampleBlock := mkSampleBlock { sb_number : Z; sb_hash : Hash }.

#[export] Instance sampleProposal : Proposal SampleBlock := {|
  Number := sb_number;
  BHash := sb_hash;
  PrepareSeal b round st :=
    [sb_hash b; round; match st with SealTypePrepare => 0 | SealTypeCommit => 1 end];
|}.
