(* ===== verification/Config.v ===== *)
(** The engine's configuration ([src/consensus/wbft/config.go]): values that
    change at transition blocks. *)
From S2P Require Import Prelude.

(** Units of [time.Duration], in nanoseconds. *)
Definition Millisecond : Z := 1000000.
Definition Second : Z := 1000000000.

(** [params.Transition], the fields the engine reads; 0 or nil means "keep". *)
Record Transition := mkTransition {
  tr_Block : Z;
  tr_RequestTimeoutSeconds : Z;
  tr_BlockPeriodSeconds : Z;
  tr_EpochLength : Z;
  tr_ProposerPolicy : option Z;
  tr_MaxRequestTimeoutSeconds : option Z;
}.

(** Go strings, as the codes of their characters. *)
Abbreviation str := (list Z).

(** [params.SystemContract], [params.SystemContracts] and [params.Upgrade]. *)
Record SystemContract := mkContract {
  sc_Address : Z;
  sc_Version : str;
  sc_Params : gmap str str;
}.

Record SystemContracts := mkContracts {
  GovValidator : option SystemContract;
  NativeCoinAdapter : option SystemContract;
  GovMinter : option SystemContract;
  GovMasterMinter : option SystemContract;
  GovCouncil : option SystemContract;
}.

Record Upgrade := mkUpgrade { up_Block : Z; up_Contracts : SystemContracts }.

Record Config := mkConfig {
  RequestTimeout : Z;              (* milliseconds *)
  BlockPeriod : Z;                 (* seconds *)
  ProposerPolicy : Z;
  Epoch : Z;
  AllowedFutureBlockTime : Z;      (* seconds *)
  MaxRequestTimeoutSeconds : Z;
  Transitions : list Transition;
  SystemContractUpgrades : list Upgrade;
}.

(** The callback of [GetConfig], one transition. *)
Definition applyTransition (c : Config) (t : Transition) : Config :=
  mkConfig
    (if tr_RequestTimeoutSeconds t =? 0 then RequestTimeout c else u64 (tr_RequestTimeoutSeconds t * 1000))
    (if tr_BlockPeriodSeconds t =? 0 then BlockPeriod c else tr_BlockPeriodSeconds t)
    (default (ProposerPolicy c) (tr_ProposerPolicy t))
    (if tr_EpochLength t =? 0 then Epoch c else tr_EpochLength t)
    (AllowedFutureBlockTime c)
    (default (MaxRequestTimeoutSeconds c) (tr_MaxRequestTimeoutSeconds t))
    (Transitions c)
    (SystemContractUpgrades c).

(** [getTransitionValue]: the loop stops at the first transition above [num]. *)
Fixpoint getTransitionValue (ts : list Transition) (num : Z) (c : Config) : Config :=
  match ts with
  | t :: ts' => if tr_Block t <=? num then getTransitionValue ts' num (applyTransition c t) else c
  | [] => c
  end.

Definition GetConfig (c : Config) (blockNumber : Z) : Config :=
  getTransitionValue (Transitions c) blockNumber c.

(** The callback of [GetSystemContracts], one upgrade. *)
Definition overlay {A} (old new : option A) : option A := match new with Some _ => new | None => old end.
Definition applyUpgrade (gc : SystemContracts) (u : Upgrade) : SystemContracts :=
  let n := up_Contracts u in
  mkContracts (overlay (GovValidator gc) (GovValidator n)) (overlay (NativeCoinAdapter gc) (NativeCoinAdapter n))
    (overlay (GovMinter gc) (GovMinter n)) (overlay (GovMasterMinter gc) (GovMasterMinter n))
    (overlay (GovCouncil gc) (GovCouncil n)).

(** [getSystemContractsValue]: the loop stops at the first upgrade above [num]. *)
Fixpoint getSystemContractsValue (us : list Upgrade) (num : Z) (gc : SystemContracts) : SystemContracts :=
  match us with
  | u :: us' => if up_Block u <=? num then getSystemContractsValue us' num (applyUpgrade gc u) else gc
  | [] => gc
  end.

(** [GetSystemContracts]; [anzeon] is [*chainConfig.Anzeon.SystemContracts], which
    is dereferenced when there are no upgrades. *)
Definition GetSystemContracts (c : Config) (blockNumber : Z) (anzeon : option SystemContracts) : option SystemContracts :=
  match SystemContractUpgrades c with
  | [] => anzeon
  | us => Some (getSystemContractsValue us blockNumber (mkContracts None None None None None))
  end.
