(* ===== verification/Justification.v ===== *)
(** Justification of proposals after a round change
    ([src/consensus/wbft/core/justification.go]). *)
From S2P Require Import Prelude Validators Messages.

(** The errors of [isJustified] and [hasMatchingRoundChangeAndPrepares]. *)
Inductive justificationError :=
  | ErrFewRoundChanges         (* number of roundchange messages is less than required quorum *)
  | ErrRoundChangeView         (* round-change message view does not match target view *)
  | ErrFewPrepares             (* number of prepared messages is less than required quorum *)
  | ErrPrepareRound            (* prepare message round mismatch *)
  | ErrPrepareDigest           (* prepare message digest mismatch *)
  | ErrNoNilQuorum             (* quorum of roundchange messages with nil prepared round not found *)
  | ErrNoPreparedQuorum.       (* quorum of roundchange messages with prepared round not found *)

#[export] Instance justificationError_eq_dec : EqDecision justificationError.
Proof. solve_decision. Defined.

(** The loop of both [deduplicate] functions: keep the first message of each source. *)
Fixpoint dedup_by {A} (src : A -> Address) (seen : gset Address) (msgs : list A) : list A :=
  match msgs with
  | [] => []
  | m :: msgs' =>
      if bool_decide (src m ∈ seen) then dedup_by src seen msgs'
      else m :: dedup_by src ({[src m]} ∪ seen) msgs'
  end.

Definition deduplicateRoundChanges (msgs : list SignedRoundChangePayload)
  : list SignedRoundChangePayload := dedup_by sr_source ∅ msgs.

Definition deduplicatePrepares (msgs : list Prepare) : list Prepare := dedup_by pr_source ∅ msgs.

(** [m.PreparedRound == nil || m.PreparedRound == 0], with no digest. *)
Definition isNilPrepared (m : SignedRoundChangePayload) : bool :=
  match sr_PreparedRound m with None => true | Some r => r =? 0 end
  && (sr_PreparedDigest m =? zeroHash).

Fixpoint nilQuorum_loop (msgs : list SignedRoundChangePayload) (quorumSize nilCount : Z) : bool :=
  match msgs with
  | [] => false
  | m :: msgs' =>
      if isNilPrepared m then
        if nilCount + 1 =? quorumSize then true
        else nilQuorum_loop msgs' quorumSize (nilCount + 1)
      else nilQuorum_loop msgs' quorumSize nilCount
  end.

Definition hasQuorumOfRoundChangeMessagesForNil (msgs : list SignedRoundChangePayload)
  (quorumSize : Z) : option justificationError :=
  if nilQuorum_loop msgs quorumSize 0 then None else Some ErrNoNilQuorum.

Definition lowerOrEqual (preparedRound : Z) (m : SignedRoundChangePayload) : bool :=
  match sr_PreparedRound m with None => true | Some r => r <=? preparedRound end.

Definition matching (preparedRound : Z) (hash : Hash) (m : SignedRoundChangePayload) : bool :=
  match sr_PreparedRound m with None => false | Some r => r =? preparedRound end
  && (sr_PreparedDigest m =? hash).

Fixpoint preparedQuorum_loop (msgs : list SignedRoundChangePayload) (preparedRound : Z)
  (hash : Hash) (quorumSize count : Z) (hasMatchingMessage : bool) : bool :=
  match msgs with
  | [] => false
  | m :: msgs' =>
      if lowerOrEqual preparedRound m then
        let count := count + 1 in
        let hasMatchingMessage := hasMatchingMessage || matching preparedRound hash m in
        if (quorumSize <=? count) && hasMatchingMessage then true
        else preparedQuorum_loop msgs' preparedRound hash quorumSize count hasMatchingMessage
      else preparedQuorum_loop msgs' preparedRound hash quorumSize count hasMatchingMessage
  end.

Definition hasQuorumOfRoundChangeMessagesForPreparedRoundAndBlock
  (msgs : list SignedRoundChangePayload) (preparedRound : Z) (hash : Hash) (quorumSize : Z)
  : option justificationError :=
  if preparedQuorum_loop msgs preparedRound hash quorumSize 0 false then None
  else Some ErrNoPreparedQuorum.

(** The loop that checks every PREPARE against the first one's round and the
    proposal's hash. *)
Fixpoint checkPrepares (preparedRound : Z) (hash : Hash) (msgs : list Prepare)
  : option justificationError :=
  match msgs with
  | [] => None
  | spp :: msgs' =>
      if negb (preparedRound =? pr_Round spp) then Some ErrPrepareRound
      else if negb (hash =? pr_Digest spp) then Some ErrPrepareDigest
      else checkPrepares preparedRound hash msgs'
  end.

Definition viewMatches (target : View) (rc : SignedRoundChangePayload) : bool :=
  (cp_Sequence (sr_common rc) =? v_Sequence target) && (cp_Round (sr_common rc) =? v_Round target).

Definition isJustified {B} `{Proposal B} (proposal : B) (targetView : View)
  (roundChangeMessages : list SignedRoundChangePayload) (prepareMessages : list Prepare)
  (quorumSize : Z) : option justificationError :=
  let dedupedRoundChanges := deduplicateRoundChanges roundChangeMessages in
  let dedupedPrepares := deduplicatePrepares prepareMessages in
  if Z.of_nat (length dedupedRoundChanges) <? quorumSize then Some ErrFewRoundChanges
  else if negb (forallb (viewMatches targetView) dedupedRoundChanges) then Some ErrRoundChangeView
  else if negb (Z.of_nat (length dedupedPrepares) =? 0)
          && (Z.of_nat (length dedupedPrepares) <? quorumSize) then Some ErrFewPrepares
  else match dedupedPrepares with
       | [] => hasQuorumOfRoundChangeMessagesForNil dedupedRoundChanges quorumSize
       | p :: _ =>
           match checkPrepares (pr_Round p) (BHash proposal) dedupedPrepares with
           | Some e => Some e
           | None => hasQuorumOfRoundChangeMessagesForPreparedRoundAndBlock dedupedRoundChanges
                       (pr_Round p) (BHash proposal) quorumSize
           end
       end.

(** [hasMatchingRoundChangeAndPrepares]; it is only called with a non-nil
    prepared round. *)
Definition hasMatchingRoundChangeAndPrepares (preparedDigest : Hash) (preparedRound : Z)
  (prepareMessages : list Prepare) (quorumSize : Z) : bool :=
  let dedupedPrepares := deduplicatePrepares prepareMessages in
  (quorumSize <=? Z.of_nat (length dedupedPrepares))
  && forallb (fun spp => (pr_Digest spp =? preparedDigest) && (pr_Round spp =? preparedRound))
       dedupedPrepares.

(** * Deduplication *)

Section dedup.
Context {A : Type} (src : A -> Address).

Lemma dedup_by_elem seen msgs m : m ∈ dedup_by src seen msgs -> m ∈ msgs /\ src m ∉ seen.
Proof.
  revert seen; induction msgs as [|x msgs IH]; intros seen; cbn.
  - by intros ?%not_elem_of_nil.
  - case_bool_decide; [intros ?%IH; set_solver|]. intros [->|Hm]%elem_of_cons; [set_solver|].
    apply IH in Hm. set_solver.
Qed.

Lemma dedup_by_NoDup seen msgs : NoDup (src <$> dedup_by src seen msgs).
Proof.
  revert seen; induction msgs as [|x msgs IH]; intros seen; cbn; [constructor|].
  case_bool_decide; [done|]. cbn. constructor; [|done].
  intros (y & Hy & Hin)%list_elem_of_fmap. apply dedup_by_elem in Hin. set_solver.
Qed.

Lemma dedup_by_source seen msgs a :
  a ∈ (src <$> msgs) -> a ∉ seen -> a ∈ (src <$> dedup_by src seen msgs).
Proof.
  revert seen; induction msgs as [|x msgs IH]; intros seen; cbn; [done|].
  intros [->|Ha]%elem_of_cons Hs; case_bool_decide; try done; cbn; [by left|by apply IH|].
  destruct (decide (a = src x)) as [->|]; [by left|]. right. apply IH; set_solver.
Qed.
End dedup.

(** * The declarative specification *)

Definition count {A} (f : A -> bool) (l : list A) : Z := Z.of_nat (length (List.filter f l)).

(** What [isJustified] checks of the deduplicated messages. *)
Definition justified_deduped {B} `{Proposal B} (proposal : B) (target : View)
  (R : list SignedRoundChangePayload) (P : list Prepare) (q : Z) : Prop :=
  q <= Z.of_nat (length R) /\
  (forall m, m ∈ R -> sr_View m = target) /\
  ((P = [] /\ q <= count isNilPrepared R) \/
   (P <> [] /\ q <= Z.of_nat (length P) /\
    exists pr, (forall p, p ∈ P -> pr_Round p = pr /\ pr_Digest p = BHash proposal) /\
      q <= count (lowerOrEqual pr) R /\
      exists m, m ∈ R /\ sr_PreparedRound m = Some pr /\ sr_PreparedDigest m = BHash proposal)).

(** A message counts when it is the first one of its sender. *)
Definition counts {A} (src : A -> Address) (msgs : list A) (m : A) : Prop :=
  exists before after, msgs = before ++ m :: after /\ forall x, x ∈ before -> src x <> src m.

(** At least [q] different senders have a message that counts and satisfies [P]. *)
Definition quorum_of {A} (src : A -> Address) (msgs : list A) (q : Z) (P : A -> Prop) : Prop :=
  exists S : gset Address, q <= Z.of_nat (size S) /\
    forall a, a ∈ S -> exists m, counts src msgs m /\ src m = a /\ P m.

(** The specification of a justification, in terms of senders: ROUND-CHANGE
    messages of a quorum of senders, all of them for the target view; and either
    no PREPAREs and a quorum of senders that report nothing prepared, or PREPAREs
    of a quorum of senders, all of them for one round and for this proposal, a
    quorum of senders that report no later round, and a report of exactly this
    preparation. *)
Definition justified {B} `{Proposal B} (proposal : B) (target : View)
  (rcs : list SignedRoundChangePayload) (prepares : list Prepare) (q : Z) : Prop :=
  quorum_of sr_source rcs q (fun _ => True) /\
  (forall m, counts sr_source rcs m ->
     cp_Sequence (sr_common m) = v_Sequence target /\ cp_Round (sr_common m) = v_Round target) /\
  ((prepares = [] /\
    quorum_of sr_source rcs q (fun m =>
      (sr_PreparedRound m = None \/ sr_PreparedRound m = Some 0) /\ sr_PreparedDigest m = zeroHash)) \/
   (prepares <> [] /\ quorum_of pr_source prepares q (fun _ => True) /\
    exists pr,
      (forall p, counts pr_source prepares p -> pr_Round p = pr /\ pr_Digest p = BHash proposal) /\
      quorum_of sr_source rcs q (fun m => forall r, sr_PreparedRound m = Some r -> r <= pr) /\
      exists m, counts sr_source rcs m /\ sr_PreparedRound m = Some pr /\ sr_PreparedDigest m = BHash proposal)).

Lemma count_cons {A} (f : A -> bool) x l : count f (x :: l) = count f l + if f x then 1 else 0.
Proof. unfold count. cbn. destruct (f x); cbn; lia. Qed.

Lemma count_nonneg {A} (f : A -> bool) l : 0 <= count f l.
Proof. unfold count. lia. Qed.

Lemma nilQuorum_loop_spec msgs q c :
  c < q -> nilQuorum_loop msgs q c = true <-> q <= c + count isNilPrepared msgs.
Proof.
  revert c; induction msgs as [|m msgs IH]; intros c Hc; cbn [nilQuorum_loop].
  - unfold count; cbn. split; [done|lia].
  - rewrite count_cons. pose proof (count_nonneg isNilPrepared msgs).
    destruct (isNilPrepared m); [|rewrite IH by lia; lia].
    destruct (Z.eqb_spec (c + 1) q); [split; [lia|done]|]. rewrite IH by lia. lia.
Qed.

Lemma matching_lowerOrEqual pr h m : matching pr h m = true -> lowerOrEqual pr m = true.
Proof. unfold matching, lowerOrEqual. destruct (sr_PreparedRound m); [|done]. intros; zify_bools. lia. Qed.

Lemma preparedQuorum_loop_spec msgs pr h q c b :
  ~ (q <= c /\ b = true) ->
  preparedQuorum_loop msgs pr h q c b = true <->
  q <= c + count (lowerOrEqual pr) msgs /\ (b || existsb (matching pr h) msgs) = true.
Proof.
  revert c b; induction msgs as [|m msgs IH]; intros c b Hcb; cbn [preparedQuorum_loop existsb].
  - unfold count; cbn. rewrite orb_false_r. split; [done|]. intros [? ?]. destruct Hcb. split; [lia|done].
  - rewrite count_cons. pose proof (count_nonneg (lowerOrEqual pr) msgs).
    destruct (lowerOrEqual pr m) eqn:Hl.
    + destruct (Z.leb_spec q (c + 1)); destruct (b || matching pr h m) eqn:Hm; cbn [andb].
      * split; [|done]. intros _. rewrite orb_assoc, Hm. split; [lia|done].
      * rewrite IH, orb_assoc, Hm by (intros [? ?]; done). cbn. intuition lia.
      * rewrite IH, orb_assoc, Hm by lia. cbn. intuition lia.
      * rewrite IH, orb_assoc, Hm by lia. cbn. intuition lia.
    + assert (matching pr h m = false) as ->.
      { destruct (matching pr h m) eqn:Hm; [|done]. apply matching_lowerOrEqual in Hm. congruence. }
      rewrite orb_false_l, IH by done. intuition lia.
Qed.

Lemma checkPrepares_spec pr h msgs :
  checkPrepares pr h msgs = None <-> forall p, p ∈ msgs -> pr_Round p = pr /\ pr_Digest p = h.
Proof.
  induction msgs as [|p msgs IH]; cbn; [by split; [intros _ ? ?%not_elem_of_nil|]|].
  destruct (Z.eqb_spec pr (pr_Round p)); cbn; [|split; [done|]; intros Hp; destruct (Hp p); [by left|congruence]].
  destruct (Z.eqb_spec h (pr_Digest p)); cbn; [|split; [done|]; intros Hp; destruct (Hp p); [by left|congruence]].
  rewrite IH. split; [|set_solver]. intros Hp x [->|Hx]%elem_of_cons; auto.
Qed.

Lemma forallb_elem {A} (f : A -> bool) l : forallb f l = true <-> forall x, x ∈ l -> f x = true.
Proof. rewrite forallb_forall. by setoid_rewrite list_elem_of_In. Qed.

Lemma viewMatches_spec t m : viewMatches t m = true <-> sr_View m = t.
Proof.
  unfold viewMatches, sr_View, cp_View. destruct t; cbn. rewrite andb_true_iff, !Z.eqb_eq.
  split; [intros [<- <-]; done|naive_solver].
Qed.

Lemma matching_spec pr h m :
  matching pr h m = true <-> sr_PreparedRound m = Some pr /\ sr_PreparedDigest m = h.
Proof. unfold matching. destruct (sr_PreparedRound m); rewrite andb_true_iff, ?Z.eqb_eq; naive_solver. Qed.

Lemma existsb_elem {A} (f : A -> bool) l : existsb f l = true <-> exists x, x ∈ l /\ f x = true.
Proof. rewrite existsb_exists. by setoid_rewrite list_elem_of_In. Qed.

Section refine.
Context {B : Type} `{Proposal B}.

Lemma isJustified_justified (b : B) target rcs prepares q :
  0 < q -> isJustified b target rcs prepares q = None <->
  justified_deduped b target (deduplicateRoundChanges rcs) (deduplicatePrepares prepares) q.
Proof.
  intros Hq. unfold isJustified, justified_deduped.
  set (R := deduplicateRoundChanges rcs). set (P := deduplicatePrepares prepares).
  destruct (Z.ltb_spec (Z.of_nat (length R)) q); [split; [done|lia]|].
  destruct (forallb (viewMatches target) R) eqn:Hv; cbn [negb].
  2:{ split; [done|]. intros (_ & Hall & _).
      rewrite (proj2 (forallb_elem _ _)) in Hv; [done|]. intros; by apply viewMatches_spec, Hall. }
  rewrite forallb_elem in Hv. setoid_rewrite viewMatches_spec in Hv.
  destruct P as [|p P'] eqn:HP.
  - cbn. unfold hasQuorumOfRoundChangeMessagesForNil.
    destruct (nilQuorum_loop R q 0) eqn:Hn.
    + apply nilQuorum_loop_spec in Hn; [|lia]. split; [|done]. intros _. split_and!; auto.
    + split; [done|]. intros (_ & _ & [[_ Hc]|[? _]]); [|done].
      rewrite (proj2 (nilQuorum_loop_spec R q 0 Hq)) in Hn by lia. done.
  - rewrite <- HP. destruct (Z.eqb_spec (Z.of_nat (length P)) 0) as [Hz|Hz]; [rewrite HP in Hz; cbn in Hz; lia|].
    cbn [negb andb]. destruct (Z.ltb_spec (Z.of_nat (length P)) q).
    { split; [done|]. intros (_ & _ & [[? _]|(_ & ? & _)]); [congruence|lia]. }
    destruct (checkPrepares (pr_Round p) (BHash b) P) eqn:Hc.
    { split; [done|]. intros (_ & _ & [[? _]|(_ & _ & pr & Hp & _)]); [congruence|].
      assert (pr_Round p = pr) as <- by (apply Hp; rewrite HP; by left).
      by rewrite (proj2 (checkPrepares_spec _ _ _) Hp) in Hc. }
    pose proof (proj1 (checkPrepares_spec _ _ _) Hc) as Hc'.
    unfold hasQuorumOfRoundChangeMessagesForPreparedRoundAndBlock.
    destruct (preparedQuorum_loop R (pr_Round p) (BHash b) q 0 false) eqn:Hl.
    + split; [|done]. intros _.
      apply preparedQuorum_loop_spec in Hl as [Hcnt Hex]; [|naive_solver].
      cbn in Hex. apply existsb_elem in Hex as (m & Hm & Hmm%matching_spec).
      split_and!; auto. right. split_and!; [congruence|done|].
      exists (pr_Round p). split_and!; auto. exists m. naive_solver.
    + split; [done|]. intros (_ & _ & [[? _]|(_ & _ & pr & Hp & Hcnt & m & Hm & Hmr & Hmd)]); [congruence|].
      assert (pr_Round p = pr) as <- by (apply Hp; rewrite HP; by left).
      rewrite (proj2 (preparedQuorum_loop_spec R (pr_Round p) (BHash b) q 0 false ltac:(naive_solver))) in Hl; [done|].
      split; [lia|]. cbn. apply existsb_elem. exists m. split; [done|]. by apply matching_spec.
Qed.
End refine.

(** * Locks survive a justified round change *)

Lemma NoDup_fmap_filter {A C} (g : A -> C) (f : A -> bool) (l : list A) :
  NoDup (g <$> l) -> NoDup (g <$> List.filter f l).
Proof.
  induction l as [|x l IH]; cbn; [done|]. intros [Hx Hl]%NoDup_cons.
  destruct (f x); cbn; [|auto]. constructor; [|auto].
  intros (y & Hy & Hin)%list_elem_of_fmap. apply Hx. apply list_elem_of_fmap. exists y.
  split; [done|]. apply list_elem_of_In in Hin. apply filter_In in Hin as [Hin _].
  by apply list_elem_of_In.
Qed.

Lemma dedup_quorum {A} (src : A -> Address) vs (f : A -> bool) (msgs : list A) :
  (forall m, m ∈ msgs -> src m ∈ AddressList vs) ->
  QuorumSize vs <= count f (dedup_by src ∅ msgs) ->
  is_quorum vs (src <$> List.filter f (dedup_by src ∅ msgs)).
Proof.
  intros Hsrc Hcount. split_and!.
  - apply NoDup_fmap_filter, dedup_by_NoDup.
  - intros a (m & -> & Hm)%list_elem_of_fmap. apply list_elem_of_In, filter_In in Hm as [Hm _].
    apply list_elem_of_In, dedup_by_elem in Hm as [Hm _]. auto.
  - unfold count in Hcount. by rewrite length_fmap.
Qed.

Lemma filtered_source {A} (src : A -> Address) (f : A -> bool) (msgs : list A) a :
  a ∈ src <$> List.filter f (dedup_by src ∅ msgs) -> exists m, m ∈ msgs /\ src m = a /\ f m = true.
Proof.
  intros (m & -> & Hm)%list_elem_of_fmap. apply list_elem_of_In, filter_In in Hm as [Hm Hf].
  apply list_elem_of_In, dedup_by_elem in Hm as [Hm _]. eauto.
Qed.

Lemma count_all {A} (l : list A) : count (fun _ => true) l = Z.of_nat (length l).
Proof. unfold count. f_equal. induction l; cbn; auto. Qed.

(** * The specification in terms of senders *)

Lemma isNilPrepared_spec m :
  isNilPrepared m = true <->
  (sr_PreparedRound m = None \/ sr_PreparedRound m = Some 0) /\ sr_PreparedDigest m = zeroHash.
Proof. unfold isNilPrepared. destruct (sr_PreparedRound m); rewrite andb_true_iff, ?Z.eqb_eq; naive_solver. Qed.

Lemma lowerOrEqual_spec pr m : lowerOrEqual pr m = true <-> forall r, sr_PreparedRound m = Some r -> r <= pr.
Proof. unfold lowerOrEqual. destruct (sr_PreparedRound m); rewrite ?Z.leb_le; naive_solver. Qed.

(** The deduplicated messages are those that count. *)
Lemma dedup_counts {A} (src : A -> Address) msgs seen m :
  m ∈ dedup_by src seen msgs <->
  exists before after, msgs = before ++ m :: after /\ src m ∉ seen /\ forall x, x ∈ before -> src x <> src m.
Proof.
  revert seen; induction msgs as [|x msgs IH]; intros seen; cbn.
  { split; [by intros ?%not_elem_of_nil|]. by intros ([] & ? & ? & _). }
  assert (forall P : list A -> Prop, (exists before, P before) <-> P [] \/ exists y before, P (y :: before)) as Hlist.
  { intros P. split; [intros [[|y l] Hl]; eauto|]. intros [?|(? & ? & ?)]; eauto. }
  rewrite Hlist. case_bool_decide as Hx; [rewrite IH|rewrite elem_of_cons, IH]; split.
  - intros (bf & af & -> & Hm & Hbf). right. exists x, bf, af. split_and!; [done..|].
    intros y [->|Hy]%elem_of_cons; [congruence|auto].
  - intros [(af & [= -> ->] & Hm & _)|(y & bf & af & [= -> ->] & Hm & Hbf)]; [done|].
    exists bf, af. split_and!; [done..|]. intros z Hz. apply Hbf. by right.
  - intros [->|(bf & af & -> & Hm & Hbf)].
    + left. exists msgs. split_and!; [done..|]. by intros ? ?%not_elem_of_nil.
    + right. exists x, bf, af. split_and!; [done|set_solver|]. intros y [->|Hy]%elem_of_cons; [set_solver|auto].
  - intros [(af & [= -> ->] & Hm & _)|(y & bf & af & [= -> ->] & Hm & Hbf)]; [by left|].
    right. exists bf, af. split_and!; [done| |intros z Hz; apply Hbf; by right].
    assert (src y <> src m) by (apply Hbf; by left). set_solver.
Qed.

Lemma counts_dedup {A} (src : A -> Address) msgs m : counts src msgs m <-> m ∈ dedup_by src ∅ msgs.
Proof.
  rewrite dedup_counts. unfold counts. split; intros (bf & af & ? & Hm); exists bf, af; [|tauto].
  split_and!; [done|set_solver|done].
Qed.

(** A quorum of senders is a large enough number of deduplicated messages. *)
Lemma quorum_of_count {A} (src : A -> Address) (f : A -> bool) (P : A -> Prop) msgs q :
  (forall m, f m = true <-> P m) ->
  quorum_of src msgs q P <-> q <= count f (dedup_by src ∅ msgs).
Proof.
  intros Hf. set (l := src <$> List.filter f (dedup_by src ∅ msgs)).
  assert (NoDup l) as Hnd by apply NoDup_fmap_filter, dedup_by_NoDup.
  assert (forall a, a ∈ l <-> exists m, counts src msgs m /\ src m = a /\ P m) as Hl.
  { intros a. unfold l. rewrite list_elem_of_fmap. setoid_rewrite list_elem_of_In. setoid_rewrite filter_In.
    setoid_rewrite <- list_elem_of_In. setoid_rewrite counts_dedup. setoid_rewrite Hf. naive_solver. }
  assert (count f (dedup_by src ∅ msgs) = Z.of_nat (size (list_to_set l : gset Address))) as ->.
  { rewrite size_list_to_set by done. unfold count, l. by rewrite length_fmap. }
  split; [|intros Hq; exists (list_to_set l); split; [done|intros a; by rewrite elem_of_list_to_set, Hl]].
  intros (S & Hq & HS). assert (S ⊆ (list_to_set l : gset Address)) as Hsub%subseteq_size; [|lia].
  intros a Ha. apply elem_of_list_to_set, Hl. auto.
Qed.

Lemma dedup_by_nil {A} (src : A -> Address) msgs : dedup_by src ∅ msgs = [] <-> msgs = [].
Proof. destruct msgs; cbn; [done|]. by rewrite bool_decide_eq_false_2 by set_solver. Qed.

Lemma justified_dedup {B} `{Proposal B} (b : B) target rcs prepares q :
  justified b target rcs prepares q <->
  justified_deduped b target (deduplicateRoundChanges rcs) (deduplicatePrepares prepares) q.
Proof.
  unfold justified, justified_deduped, deduplicateRoundChanges, deduplicatePrepares.
  rewrite (quorum_of_count sr_source (fun _ => true)), (quorum_of_count pr_source (fun _ => true)), !count_all by done.
  rewrite (quorum_of_count _ isNilPrepared) by apply isNilPrepared_spec.
  rewrite dedup_by_nil. setoid_rewrite counts_dedup.
  setoid_rewrite (fun pr => quorum_of_count sr_source (lowerOrEqual pr) _ rcs q (lowerOrEqual_spec pr)).
  assert (forall m, sr_View m = target <->
    cp_Sequence (sr_common m) = v_Sequence target /\ cp_Round (sr_common m) = v_Round target) as Hview.
  { intros m. rewrite <- viewMatches_spec. unfold viewMatches. by rewrite andb_true_iff, !Z.eqb_eq. }
  setoid_rewrite Hview. done.
Qed.

Section properties.
Context {B : Type} `{Proposal B}.

(** C22. [isJustified] with the set's own quorum size accepts a proposal for a
    view exactly when the specification [justified] holds, which speaks of sets
    of senders and of the first message of each: the deduplication, the counting
    loops and their early exits neither accept a justification inflated by
    repeated messages nor miss a valid one. *)
Theorem isJustified_spec (vs : ValidatorSet) (b : B) (target : View)
  (rcs : list SignedRoundChangePayload) (prepares : list Prepare)
  (Hvs : Size vs <= maxValidators) :
  isJustified b target rcs prepares (QuorumSize vs) = None <->
  justified b target rcs prepares (QuorumSize vs).
Proof. rewrite justified_dedup. apply isJustified_justified. by apply QuorumSize_pos. Qed.

End properties.

(** * Witnesses *)

Module Witness.
Definition block : SampleBlock := mkSampleBlock 10 77.
Definition rc (a : Address) : SignedRoundChangePayload :=
  mkSRC (mkCommon RoundChangeCode a 10 2 []) (Some 1) 77.
Definition prep (a : Address) : Prepare := NewPrepareWithSigAndSource 10 1 77 [] a [].
Definition rcs := [rc 1; rc 3; rc 3; rc 4].
Definition prepares := [prep 1; prep 1; prep 2; prep 4].

Lemma isJustified_spec_witness :
  Size four <= maxValidators /\
  (isJustified block (mkView 2 10) rcs prepares (QuorumSize four) = None <->
   justified block (mkView 2 10) rcs prepares (QuorumSize four)).
Proof. split; [by vm_compute|]. apply (isJustified_spec four). by vm_compute. Defined.

End Witness.
