(* ===== verification/RoundChangeSet.v ===== *)
(** The sets in which the core accumulates messages: [wbftMsgSet]
    ([src/consensus/wbft/core/qbft_msg_set.go]) and [roundChangeSet]
    ([src/consensus/wbft/core/roundchange.go]). *)
From stdpp Require Import sorting.
From S2P Require Import Prelude Validators Messages Justification.

(** * Message sets

    One message per source; the messages of a set have one Go type each, so the
    set is a map to that type. *)

Section msgset.
Context `{MapOrder} {M : Type} (src : M -> Address).

Definition msgSet_Add (ms : gmap Address M) (msg : M) : gmap Address M := <[src msg := msg]> ms.
Definition msgSet_Values (ms : gmap Address M) : list M := (range ms).*2.
Definition msgSet_Size (ms : gmap Address M) : Z := Z.of_nat (size ms).
Definition msgSet_Get (ms : gmap Address M) (addr : Address) : option M := ms !! addr.

(** Every message is stored under its own source and satisfies [P]. *)
Definition msgSet_ok (P : M -> Prop) (ms : gmap Address M) : Prop :=
  map_Forall (fun a m => src m = a /\ P m) ms.

Lemma msgSet_ok_empty P : msgSet_ok P ∅.
Proof. apply map_Forall_empty. Qed.

Lemma msgSet_ok_Add P ms m : msgSet_ok P ms -> P m -> msgSet_ok P (msgSet_Add ms m).
Proof. intros Hms Hm. by apply map_Forall_insert_2. Qed.

Lemma msgSet_ok_mono (P Q : M -> Prop) ms : (forall m, P m -> Q m) -> msgSet_ok P ms -> msgSet_ok Q ms.
Proof. intros HPQ Hms a m Hm. destruct (Hms a m Hm). auto. Qed.

Lemma elem_of_Values ms m : m ∈ msgSet_Values ms <-> exists a, ms !! a = Some m.
Proof. apply elem_of_range_snd. Qed.

Lemma msgSet_ok_Values P ms m : msgSet_ok P ms -> m ∈ msgSet_Values ms -> P m.
Proof. intros Hms [a Ha]%elem_of_Values. by apply (Hms a m). Qed.

(** The sources of the values are distinct, one for each entry. *)
Lemma Values_sources P ms : msgSet_ok P ms -> src <$> msgSet_Values ms = (range ms).*1.
Proof.
  intros Hms. unfold msgSet_Values. rewrite <- list_fmap_compose. apply list_fmap_ext.
  intros i [a m] Hi. apply list_elem_of_lookup_2, elem_of_range, Hms in Hi. cbn. naive_solver.
Qed.

Lemma Values_NoDup P ms : msgSet_ok P ms -> NoDup (src <$> msgSet_Values ms).
Proof. intros Hms. rewrite (Values_sources _ _ Hms). apply NoDup_range_fst. Qed.

Lemma Values_length ms : Z.of_nat (length (msgSet_Values ms)) = msgSet_Size ms.
Proof. unfold msgSet_Values, msgSet_Size. by rewrite length_fmap, length_range. Qed.

Lemma Add_elem ms m : m ∈ msgSet_Values (msgSet_Add ms m).
Proof. apply elem_of_Values. exists (src m). apply lookup_insert_eq. Qed.
End msgset.
#[export] Hint Resolve msgSet_ok_empty msgSet_ok_Add : go.

Lemma dedup_by_id {A} (src : A -> Address) (seen : gset Address) (l : list A) :
  NoDup (src <$> l) -> (forall m, m ∈ l -> src m ∉ seen) -> dedup_by src seen l = l.
Proof.
  revert seen; induction l as [|x l IH]; intros seen; cbn; [done|].
  intros [Hx Hl]%NoDup_cons Hseen. rewrite bool_decide_eq_false_2 by (apply Hseen; left).
  f_equal. apply IH; [done|]. intros m Hm. specialize (Hseen m (list_elem_of_further _ _ _ Hm)).
  assert (src m <> src x); [|set_solver]. intros Heq. apply Hx. rewrite <- Heq.
  by apply list_elem_of_fmap_2.
Qed.

(** * Round-change sets *)

Section roundchangeset.
Context `{MapOrder} {B : Type} `{Proposal B}.

Record roundChangeSet := mkRCS {
  roundChanges : gmap Z (gmap Address (RoundChange B));
  prepareMessages : gmap Z (list Prepare);
  highestPreparedRound : gmap Z Z;
  highestPreparedBlock : gmap Z B;
}.

Definition newRoundChangeSet : roundChangeSet := mkRCS ∅ ∅ ∅ ∅.

Definition RCS_NewRound (rcs : roundChangeSet) (r : Z) : roundChangeSet :=
  let round := big_Uint64 r in
  mkRCS
    (match roundChanges rcs !! round with
     | None => <[round := ∅]> (roundChanges rcs) | Some _ => roundChanges rcs end)
    (match prepareMessages rcs !! round with
     | None => <[round := []]> (prepareMessages rcs) | Some _ => prepareMessages rcs end)
    (highestPreparedRound rcs) (highestPreparedBlock rcs).

(** [Add]; the caller's [preparedRound] and [preparedBlock] are nil together. *)
Definition RCS_Add (rcs : roundChangeSet) (r : Z) (msg : RoundChange B) (prepared : option (Z * B))
  (prepares : list Prepare) (quorumSize : Z) : roundChangeSet :=
  let round := big_Uint64 r in
  let ms := default ∅ (roundChanges rcs !! round) in
  let rcs := mkRCS (<[round := msgSet_Add rc_source ms msg]> (roundChanges rcs))
               (prepareMessages rcs) (highestPreparedRound rcs) (highestPreparedBlock rcs) in
  match prepared with
  | Some (preparedRound, preparedBlock) =>
      if match highestPreparedRound rcs !! round with
         | None => true | Some h => h <? preparedRound end then
        if hasMatchingRoundChangeAndPrepares (sr_PreparedDigest (rc_payload msg))
             (default 0 (sr_PreparedRound (rc_payload msg))) prepares quorumSize
        then mkRCS (roundChanges rcs) (<[round := prepares]> (prepareMessages rcs))
               (<[round := preparedRound]> (highestPreparedRound rcs))
               (<[round := preparedBlock]> (highestPreparedBlock rcs))
        else rcs
      else rcs
  | None => rcs
  end.

(** The two nested loops collect the addresses in a set. *)
Definition higherRoundAddresses (rcs : roundChangeSet) (round : Z) : gset Address :=
  foldl (fun acc '(k, rms) =>
           if big_Uint64 round <? k
           then foldl (fun acc '(addr, _) => {[addr]} ∪ acc) acc (range rms)
           else acc)
    ∅ (range (roundChanges rcs)).

Definition higherRoundMessages (rcs : roundChangeSet) (round : Z) : Z :=
  Z.of_nat (size (higherRoundAddresses rcs round)).

Definition getRCMessagesForGivenRound (rcs : roundChangeSet) (round : Z) : Z :=
  match roundChanges rcs !! big_Uint64 round with
  | Some rms => Z.of_nat (size rms)
  | None => 0
  end.

(** [sort.Ints] sorts in increasing order; [int(k)] reads the 64 bits as signed. *)
Definition getMinRoundChange (rcs : roundChangeSet) (round : Z) : Z :=
  let keys := (fun k => i64 k) <$>
    filter (fun k => big_Uint64 round <? k = true) (range (roundChanges rcs)).*1 in
  match merge_sort Z.le keys with
  | [] => round
  | k :: _ => k
  end.

(** The loop deletes the key it visits from the four maps. *)
Definition ClearLowerThan (rcs : roundChangeSet) (round : Z) : roundChangeSet :=
  foldl (fun rcs '(k, rms) =>
           if (Z.of_nat (length (msgSet_Values rms)) =? 0) || (k <? big_Uint64 round)
           then mkRCS (delete k (roundChanges rcs)) (delete k (prepareMessages rcs))
                  (delete k (highestPreparedRound rcs)) (delete k (highestPreparedBlock rcs))
           else rcs)
    rcs (range (roundChanges rcs)).

Definition MaxRound (rcs : roundChangeSet) (num : Z) : option Z :=
  foldl (fun maxRound '(k, rms) =>
           if msgSet_Size rms <? num then maxRound
           else let r := i64 k in
                match maxRound with
                | None => Some r
                | Some m => if m <? r then Some r else maxRound
                end)
    None (range (roundChanges rcs)).

(** ** Behaviour, whatever the iteration order *)

Lemma elem_of_addrs_foldl {M} (l : list (Address * M)) (acc : gset Address) a :
  a ∈ foldl (fun acc '(addr, _) => {[addr]} ∪ acc) acc l <-> a ∈ acc \/ a ∈ l.*1.
Proof.
  revert acc; induction l as [|[b m] l IH]; intros acc; cbn; [set_solver|].
  rewrite IH, elem_of_cons. set_solver.
Qed.

Lemma elem_of_higherRoundAddresses rcs round a :
  a ∈ higherRoundAddresses rcs round <->
  exists k rms, roundChanges rcs !! k = Some rms /\ big_Uint64 round < k /\ is_Some (rms !! a).
Proof.
  unfold higherRoundAddresses.
  assert (forall l (acc : gset Address),
    a ∈ foldl (fun acc '(k, rms) =>
       if big_Uint64 round <? k
       then foldl (fun acc '(addr, _) => {[addr]} ∪ acc) acc (range (rms : gmap Address (RoundChange B)))
       else acc) acc l <->
    a ∈ acc \/ exists k rms, (k, rms) ∈ l /\ big_Uint64 round < k /\ is_Some (rms !! a)) as Hl.
  { intros l; induction l as [|[k rms] l IH]; intros acc; cbn [foldl]; [set_solver|].
    rewrite IH. destruct (Z.ltb_spec (big_Uint64 round) k) as [Hk|Hk].
    - rewrite elem_of_addrs_foldl.
      assert (a ∈ (range rms).*1 <-> is_Some (rms !! a)) as ->; [|set_solver].
      rewrite list_elem_of_fmap. split; [intros ([b m] & -> & Hb%elem_of_range); eauto|].
      intros [m Hm%elem_of_range]. by exists (a, m).
    - split; [set_solver|]. intros [?|(k' & rms' & [[= -> ->]|?]%elem_of_cons & ? & ?)]; [auto|lia|].
      right; eauto. }
  rewrite Hl. setoid_rewrite elem_of_range. set_solver.
Qed.

Lemma head_merge_sort_spec (l : list Z) :
  match merge_sort Z.le l with
  | [] => l = []
  | k :: _ => k ∈ l /\ forall k', k' ∈ l -> k <= k'
  end.
Proof.
  pose proof (merge_sort_Permutation Z.le l) as Hperm.
  pose proof (StronglySorted_merge_sort Z.le l) as Hs.
  destruct (merge_sort Z.le l) as [|k ks]; [by apply Permutation_nil_l in Hperm|].
  split; [rewrite <- Hperm; left|]. intros k'. rewrite <- Hperm.
  inversion Hs as [|? ? _ Hall]; subst. rewrite Forall_forall in Hall.
  intros [->|Hin]%elem_of_cons; [lia|]. auto.
Qed.

(** Rounds stay far below 2^63. *)
Definition rcs_bounded (rcs : roundChangeSet) : Prop :=
  forall k, is_Some (roundChanges rcs !! k) -> 0 <= k < 2 ^ 63.

Lemma getMinRoundChange_least rcs round :
  rcs_bounded rcs -> 0 < higherRoundMessages rcs round ->
  let k := getMinRoundChange rcs round in
  is_Some (roundChanges rcs !! k) /\ big_Uint64 round < k /\
  forall k', is_Some (roundChanges rcs !! k') -> big_Uint64 round < k' -> k <= k'.
Proof.
  intros Hb Hnum. unfold higherRoundMessages in Hnum.
  destruct (set_choose_or_empty (higherRoundAddresses rcs round)) as [[a Ha]|He];
    [|rewrite He, size_empty in Hnum; lia].
  apply elem_of_higherRoundAddresses in Ha as (k0 & rms & Hk0 & Hlt & _).
  unfold getMinRoundChange. set (keys := fmap _ _).
  assert (forall k, k ∈ keys <-> is_Some (roundChanges rcs !! k) /\ big_Uint64 round < k) as Hkeys.
  { intros k. unfold keys. rewrite list_elem_of_fmap. setoid_rewrite list_elem_of_filter.
    assert (forall x, x ∈ (range (roundChanges rcs)).*1 <-> is_Some (roundChanges rcs !! x)) as Hdom.
    { intros x. rewrite list_elem_of_fmap. split; [intros ([y m] & -> & Hy%elem_of_range); eauto|].
      intros [m Hm%elem_of_range]. by exists (x, m). }
    setoid_rewrite Hdom. setoid_rewrite Z.ltb_lt. split.
    - intros (x & -> & Hx & Hs). rewrite i64_small by (specialize (Hb x Hs); lia). auto.
    - intros [Hs Hx]. exists k. rewrite i64_small by (specialize (Hb k Hs); lia). auto. }
  pose proof (head_merge_sort_spec keys) as Hhead.
  destruct (merge_sort Z.le keys) as [|k ks].
  - exfalso. assert (k0 ∈ keys) as Hin by (apply Hkeys; eauto). rewrite Hhead in Hin.
    by apply not_elem_of_nil in Hin.
  - destruct Hhead as [Hk Hmin]. apply Hkeys in Hk as [? ?]. split_and!; [done..|].
    intros k' ? ?. apply Hmin, Hkeys; auto.
Qed.

(** The keys that [ClearLowerThan] removes. *)
Definition stale (round : Z) (rcs : roundChangeSet) (k : Z) : Prop :=
  match roundChanges rcs !! k with
  | Some rms => rms = ∅ \/ k < big_Uint64 round
  | None => False
  end.

Lemma ClearLowerThan_lookup rcs round k :
  let rcs' := ClearLowerThan rcs round in
  (stale round rcs k -> roundChanges rcs' !! k = None /\ prepareMessages rcs' !! k = None /\
     highestPreparedRound rcs' !! k = None /\ highestPreparedBlock rcs' !! k = None) /\
  (~ stale round rcs k -> roundChanges rcs' !! k = roundChanges rcs !! k /\
     prepareMessages rcs' !! k = prepareMessages rcs !! k /\
     highestPreparedRound rcs' !! k = highestPreparedRound rcs !! k /\
     highestPreparedBlock rcs' !! k = highestPreparedBlock rcs !! k).
Proof.
  unfold ClearLowerThan.
  set (p := fun (k : Z) (rms : gmap Address (RoundChange B)) =>
    (Z.of_nat (length (msgSet_Values rms)) =? 0) || (k <? big_Uint64 round)).
  assert (stale round rcs k <-> exists rms, (k, rms) ∈ range (roundChanges rcs) /\ p k rms = true) as ->.
  { unfold stale, p. setoid_rewrite elem_of_range. setoid_rewrite orb_true_iff.
    setoid_rewrite Values_length. unfold msgSet_Size. setoid_rewrite Z.eqb_eq.
    setoid_rewrite Z.ltb_lt. split.
    - destruct (roundChanges rcs !! k) as [rms|]; [|done]. intros [->|Hk]; eexists; (split; [done|]);
        [left; by rewrite map_size_empty|auto].
    - intros (rms & -> & [Hz|?]); [left; apply map_size_empty_iff; lia|auto]. }
  generalize (range (roundChanges rcs)) as l. intros l. revert rcs.
  induction l as [|[k' rms] l IH]; intros rcs; cbn [foldl].
  - split; [intros (? & []%not_elem_of_nil & _)|done].
  - fold (p k' rms). destruct (p k' rms) eqn:Hp.
    + destruct (IH (mkRCS (delete k' (roundChanges rcs)) (delete k' (prepareMessages rcs))
        (delete k' (highestPreparedRound rcs)) (delete k' (highestPreparedBlock rcs)))) as [IH1 IH2].
      cbn in IH2. destruct (decide (k = k')) as [->|Hne].
      * rewrite !lookup_delete_eq in IH2. split; [|intros []; exists rms; split; [left|done]].
        intros _. destruct (decide (Exists (fun x => x.1 = k' /\ p k' x.2 = true) l)) as [He|He];
          [|apply IH2; intros (r & Hr & Hpr); apply He, Exists_exists; by exists (k', r)].
        apply Exists_exists in He as ([? r] & Hin & [Heq Hr]). cbn in Heq, Hr. subst. apply IH1. eauto.
      * rewrite !lookup_delete_ne in IH2 by done. split; intros Hex.
        -- apply IH1. destruct Hex as (r & [[=]|?]%elem_of_cons & ?); [done|eauto].
        -- apply IH2. intros (r & ? & ?). apply Hex. exists r. split; [by right|done].
    + destruct (IH rcs) as [IH1 IH2]. split; intros Hex.
      * apply IH1. destruct Hex as (r & [[= -> ->]|?]%elem_of_cons & ?); [congruence|eauto].
      * apply IH2. intros (r & ? & ?). apply Hex. exists r. split; [by right|done].
Qed.
End roundchangeset.
Arguments roundChangeSet B : clear implicits.
