(* ===== verification/CoreState.v ===== *)
(** The state of the WBFT core ([src/consensus/wbft/core/core.go],
    [roundstate.go], [priorstate.go], [types.go], [errors.go]) and the parts of
    its logic that only read or update data: message classification, backlog,
    pending requests, extra seals, seal verification and timeouts. *)
From Stdlib Require Import SpecFloat.
From S2P Require Import Prelude Float64 Validators Prque Messages Config Justification RoundChangeSet.

(** * States and errors *)

Inductive State := StateAcceptRequest | StatePreprepared | StatePrepared | StateCommitted.

#[export] Instance State_eq_dec : EqDecision State.
Proof. solve_decision. Defined.

Definition State_num (s : State) : Z :=
  match s with
  | StateAcceptRequest => 0 | StatePreprepared => 1 | StatePrepared => 2 | StateCommitted => 3
  end.

Definition State_Cmp (s y : State) : comparison := State_num s ?= State_num y.

Inductive CoreError :=
  | errNotFromProposer | errFutureMessage | errOldMessage | errInvalidMessage | errInvalidSeal
  | errInvalidSigner | errInvalidPreparedBlock | errExtraSealMessage | errInvalidExtraSealMessage
  | errCurrentIsNil | errFutureViewTooFar
  | ErrFutureBlock             (* consensus.ErrFutureBlock *)
  | ErrVerify                  (* any other error of Backend.Verify *)
  | ErrBLSPublicKey            (* bls.PublicKeyFromBytes *)
  | ErrMessageCode             (* invalid message event code *)
  | ErrDecode                  (* messages.Decode *)
  | ErrEncode                  (* EncodePayloadForSigning *)
  | ErrPreparedBlockNumber     (* prepared block number does not match current sequence *)
  | ErrPreparedBlockHash       (* prepared block hash does not match prepared digest *)
  | ErrNoProposal.             (* no proposal as pending request is nil *)

#[export] Instance CoreError_eq_dec : EqDecision CoreError.
Proof. solve_decision. Defined.

(** [backlogKey] *)
Record backlogKey := mkKey { bk_code : Z; bk_sequence : Z; bk_round : Z }.

#[export] Instance backlogKey_eq_dec : EqDecision backlogKey.
Proof. solve_decision. Defined.
#[export] Program Instance backlogKey_countable : Countable backlogKey :=
  inj_countable' (fun k => (bk_code k, bk_sequence k, bk_round k)) (fun '(c, s, r) => mkKey c s r) _.
Next Obligation. by intros []. Qed.

(** The three timers.  Every round-change timer owns a [canceled] flag: timers
    are numbered in creation order, [t_lastSent] is the one whose flag
    [lastSentTimeoutCanceled] points to and [t_canceled] the set of flags that
    are true.  The booleans tell whether the timer pointers are non-nil. *)
Record timers := mkTimers {
  t_next : Z;
  t_lastSent : option Z;
  t_canceled : gset Z;
  t_roundChange : bool;
  t_retry : bool;
  t_futurePreprepare : bool;
}.

(** * What the core calls

    The message codec of [src/consensus/wbft/messages]: what the core needs of
    it is that a decoded message has the Go type of its code. *)
Class Codec (B : Type) : Type := {
  payload_Preprepare : Preprepare B -> option bytes;
  payload_Prepare : Prepare -> option bytes;
  payload_Commit : Commit -> option bytes;
  payload_RoundChange : SignedRoundChangePayload -> option bytes;
  EncodeMessage : WBFTMessage B -> option bytes;
  Decode : Z -> bytes -> option (WBFTMessage B);
  Decode_code : forall code data m, Decode code data = Some m -> msg_Code m = code /\ msg_wf m;
}.

Section state.
Context `{MapOrder} {B : Type} `{Proposal B} `{Crypto} `{Codec B}.

(** [Request]; [RCMessages] is the message set of the round. *)
Record Request := mkRequest {
  rq_Proposal : option B;
  rq_RCMessages : option (gmap Address (RoundChange B));
  rq_PrepareMessages : list Prepare;
}.

Record Subject := mkSubject { sub_View : View; sub_Digest : Hash }.

Record roundState := mkRoundState {
  rs_round : Z;
  rs_sequence : Z;
  rs_Preprepare : option (Preprepare B);
  rs_WBFTPrepares : gmap Address Prepare;
  rs_WBFTCommits : gmap Address Commit;
  rs_pendingRequest : option Request;
  rs_preparedRound : option Z;
  rs_preparedBlock : option B;
  rs_preprepareSent : Z;
}.

Definition set_rs_Preprepare (x : option (Preprepare B)) (r : roundState) : roundState :=
  mkRoundState (rs_round r) (rs_sequence r) x (rs_WBFTPrepares r) (rs_WBFTCommits r)
    (rs_pendingRequest r) (rs_preparedRound r) (rs_preparedBlock r) (rs_preprepareSent r).

Definition set_rs_WBFTPrepares (x : gmap Address Prepare) (r : roundState) : roundState :=
  mkRoundState (rs_round r) (rs_sequence r) (rs_Preprepare r) x (rs_WBFTCommits r)
    (rs_pendingRequest r) (rs_preparedRound r) (rs_preparedBlock r) (rs_preprepareSent r).

Definition set_rs_WBFTCommits (x : gmap Address Commit) (r : roundState) : roundState :=
  mkRoundState (rs_round r) (rs_sequence r) (rs_Preprepare r) (rs_WBFTPrepares r) x
    (rs_pendingRequest r) (rs_preparedRound r) (rs_preparedBlock r) (rs_preprepareSent r).

Definition set_rs_pendingRequest (x : option Request) (r : roundState) : roundState :=
  mkRoundState (rs_round r) (rs_sequence r) (rs_Preprepare r) (rs_WBFTPrepares r)
    (rs_WBFTCommits r) x (rs_preparedRound r) (rs_preparedBlock r) (rs_preprepareSent r).

Definition set_rs_preparedRound (x : option Z) (r : roundState) : roundState :=
  mkRoundState (rs_round r) (rs_sequence r) (rs_Preprepare r) (rs_WBFTPrepares r)
    (rs_WBFTCommits r) (rs_pendingRequest r) x (rs_preparedBlock r) (rs_preprepareSent r).

Definition set_rs_preparedBlock (x : option B) (r : roundState) : roundState :=
  mkRoundState (rs_round r) (rs_sequence r) (rs_Preprepare r) (rs_WBFTPrepares r)
    (rs_WBFTCommits r) (rs_pendingRequest r) (rs_preparedRound r) x (rs_preprepareSent r).

Definition set_rs_preprepareSent (x : Z) (r : roundState) : roundState :=
  mkRoundState (rs_round r) (rs_sequence r) (rs_Preprepare r) (rs_WBFTPrepares r)
    (rs_WBFTCommits r) (rs_pendingRequest r) (rs_preparedRound r) (rs_preparedBlock r) x.

Definition newRoundState (view : View) (preprepare : option (Preprepare B)) (preparedRound : option Z)
  (preparedBlock : option B) (pendingRequest : option Request) : roundState :=
  mkRoundState (v_Round view) (v_Sequence view) preprepare ∅ ∅ pendingRequest preparedRound
    preparedBlock 0.

Definition rs_view (r : roundState) : View := mkView (rs_round r) (rs_sequence r).
Definition rs_Proposal (r : roundState) : option B := pp_Proposal <$> rs_Preprepare r.
Definition rs_Subject (r : roundState) : option Subject :=
  (fun p => mkSubject (rs_view r) (BHash (pp_Proposal p))) <$> rs_Preprepare r.

Record priorState := mkPriorState {
  ps_round : Z;
  ps_proposal : option B;
  ps_validatorSet : option ValidatorSet;
}.

Record Core := mkCore {
  c_config : Config;
  c_address : Address;
  c_state : State;
  c_valSet : option ValidatorSet;
  c_backlogs : gmap Address (list (WBFTMessage B * Z));
  c_backlogKeys : gmap Address (gset backlogKey);
  c_prepareExtraSeals : gmap Address Prepare;
  c_commitExtraSeals : gmap Address Commit;
  c_priorState : priorState;
  c_current : option roundState;
  c_roundChangeSet : option (roundChangeSet B);
  c_timers : timers;
  c_preparedPrepares : list Prepare;
  c_pendingRequests : list (Request * Z);
}.

Definition set_c_state (x : State) (c : Core) : Core :=
  mkCore (c_config c) (c_address c) x (c_valSet c) (c_backlogs c) (c_backlogKeys c)
    (c_prepareExtraSeals c) (c_commitExtraSeals c) (c_priorState c) (c_current c)
    (c_roundChangeSet c) (c_timers c) (c_preparedPrepares c) (c_pendingRequests c).

Definition set_c_valSet (x : option ValidatorSet) (c : Core) : Core :=
  mkCore (c_config c) (c_address c) (c_state c) x (c_backlogs c) (c_backlogKeys c)
    (c_prepareExtraSeals c) (c_commitExtraSeals c) (c_priorState c) (c_current c)
    (c_roundChangeSet c) (c_timers c) (c_preparedPrepares c) (c_pendingRequests c).

Definition set_c_backlogs (x : gmap Address (list (WBFTMessage B * Z))) (c : Core) : Core :=
  mkCore (c_config c) (c_address c) (c_state c) (c_valSet c) x (c_backlogKeys c)
    (c_prepareExtraSeals c) (c_commitExtraSeals c) (c_priorState c) (c_current c)
    (c_roundChangeSet c) (c_timers c) (c_preparedPrepares c) (c_pendingRequests c).

Definition set_c_backlogKeys (x : gmap Address (gset backlogKey)) (c : Core) : Core :=
  mkCore (c_config c) (c_address c) (c_state c) (c_valSet c) (c_backlogs c) x
    (c_prepareExtraSeals c) (c_commitExtraSeals c) (c_priorState c) (c_current c)
    (c_roundChangeSet c) (c_timers c) (c_preparedPrepares c) (c_pendingRequests c).

Definition set_c_prepareExtraSeals (x : gmap Address Prepare) (c : Core) : Core :=
  mkCore (c_config c) (c_address c) (c_state c) (c_valSet c) (c_backlogs c) (c_backlogKeys c) x
    (c_commitExtraSeals c) (c_priorState c) (c_current c) (c_roundChangeSet c) (c_timers c)
    (c_preparedPrepares c) (c_pendingRequests c).

Definition set_c_commitExtraSeals (x : gmap Address Commit) (c : Core) : Core :=
  mkCore (c_config c) (c_address c) (c_state c) (c_valSet c) (c_backlogs c) (c_backlogKeys c)
    (c_prepareExtraSeals c) x (c_priorState c) (c_current c) (c_roundChangeSet c) (c_timers c)
    (c_preparedPrepares c) (c_pendingRequests c).

Definition set_c_priorState (x : priorState) (c : Core) : Core :=
  mkCore (c_config c) (c_address c) (c_state c) (c_valSet c) (c_backlogs c) (c_backlogKeys c)
    (c_prepareExtraSeals c) (c_commitExtraSeals c) x (c_current c) (c_roundChangeSet c)
    (c_timers c) (c_preparedPrepares c) (c_pendingRequests c).

Definition set_c_current (x : option roundState) (c : Core) : Core :=
  mkCore (c_config c) (c_address c) (c_state c) (c_valSet c) (c_backlogs c) (c_backlogKeys c)
    (c_prepareExtraSeals c) (c_commitExtraSeals c) (c_priorState c) x (c_roundChangeSet c)
    (c_timers c) (c_preparedPrepares c) (c_pendingRequests c).

Definition set_c_roundChangeSet (x : option (roundChangeSet B)) (c : Core) : Core :=
  mkCore (c_config c) (c_address c) (c_state c) (c_valSet c) (c_backlogs c) (c_backlogKeys c)
    (c_prepareExtraSeals c) (c_commitExtraSeals c) (c_priorState c) (c_current c) x (c_timers c)
    (c_preparedPrepares c) (c_pendingRequests c).

Definition set_c_timers (x : timers) (c : Core) : Core :=
  mkCore (c_config c) (c_address c) (c_state c) (c_valSet c) (c_backlogs c) (c_backlogKeys c)
    (c_prepareExtraSeals c) (c_commitExtraSeals c) (c_priorState c) (c_current c)
    (c_roundChangeSet c) x (c_preparedPrepares c) (c_pendingRequests c).

Definition set_c_preparedPrepares (x : list Prepare) (c : Core) : Core :=
  mkCore (c_config c) (c_address c) (c_state c) (c_valSet c) (c_backlogs c) (c_backlogKeys c)
    (c_prepareExtraSeals c) (c_commitExtraSeals c) (c_priorState c) (c_current c)
    (c_roundChangeSet c) (c_timers c) x (c_pendingRequests c).

Definition set_c_pendingRequests (x : list (Request * Z)) (c : Core) : Core :=
  mkCore (c_config c) (c_address c) (c_state c) (c_valSet c) (c_backlogs c) (c_backlogKeys c)
    (c_prepareExtraSeals c) (c_commitExtraSeals c) (c_priorState c) (c_current c)
    (c_roundChangeSet c) (c_timers c) (c_preparedPrepares c) x.

(** [New] *)
Definition NewCore (config : Config) (address : Address) : Core :=
  mkCore config address StateAcceptRequest None ∅ ∅ ∅ ∅ (mkPriorState 0 None None) None None
    (mkTimers 0 None ∅ false false false) [] [].

End state.
Arguments Request B : clear implicits.
Arguments roundState B : clear implicits.
Arguments priorState B : clear implicits.
Arguments Core B : clear implicits.
