(* ===== verification/CoreLogic.v ===== *)
(** The logic of the core that only reads or updates data: classification of
    messages, backlog and pending requests
    ([src/consensus/wbft/core/backlog.go], [request.go]), extra seals
    ([extraseal.go]), signature and seal verification and the round-change
    timeout ([core.go]). *)
From Stdlib Require Import SpecFloat.
From S2P Require Import Prelude Float64 Validators Prque Messages Config Justification RoundChangeSet CoreState.

(** * Classification of messages *)

Definition sequenceThreshold : Z := 1.
Definition roundThreshold : Z := 10.
Definition maxBacklogSizePerValidator : Z := 4 * (roundThreshold + 1) * (sequenceThreshold + 1).

Definition isSequenceTooFarAhead (viewSeq currSeq threshold : Z) : bool :=
  threshold <? viewSeq - currSeq.
Definition isRoundTooFarAhead (viewRound currRound threshold : Z) : bool :=
  threshold <? viewRound - currRound.

Definition isTooFarFutureMessage (curr view : View) : bool :=
  if v_Sequence curr <? v_Sequence view then
    isSequenceTooFarAhead (v_Sequence view) (v_Sequence curr) sequenceThreshold
    || (roundThreshold <=? v_Round view)
  else
    (v_Sequence view =? v_Sequence curr) && (v_Round curr <? v_Round view)
    && isRoundTooFarAhead (v_Round view) (v_Round curr) roundThreshold.

(** [checkMessage] with the current view, the state and the prior round of the
    core; a decoded message never has a nil sequence or round. *)
Definition checkMessage (state : State) (curr : View) (priorRound : Z) (msgCode : Z) (view : View)
  : option CoreError :=
  if isTooFarFutureMessage curr view then Some errFutureViewTooFar
  else if msgCode =? RoundChangeCode then
    if v_Sequence curr <? v_Sequence view then Some errFutureMessage
    else match View_Cmp view curr with Lt => Some errOldMessage | _ => None end
  else match View_Cmp view curr with
  | Gt => Some errFutureMessage
  | Lt =>
      if (v_Sequence curr - v_Sequence view =? 1) && (v_Round view =? priorRound)
         && bool_decide (state = StateAcceptRequest)
      then Some errExtraSealMessage else Some errOldMessage
  | Eq =>
      match state with
      | StateAcceptRequest => if PreprepareCode <? msgCode then Some errFutureMessage else None
      | StatePreprepared =>
          if msgCode <? PrepareCode then Some errInvalidMessage
          else if PrepareCode <? msgCode then Some errFutureMessage else None
      | StatePrepared =>
          if msgCode =? PrepareCode then Some errExtraSealMessage
          else if msgCode <? CommitCode then Some errInvalidMessage else None
      | StateCommitted =>
          if PrepareCode <=? msgCode then Some errExtraSealMessage else Some errInvalidMessage
      end
  end.

(** * Backlog *)

(** [msgPriority], a missing key giving 0. *)
Definition msgPriority (msgCode : Z) : Z :=
  if msgCode =? PreprepareCode then 1
  else if msgCode =? CommitCode then 2
  else if msgCode =? PrepareCode then 3 else 0.

Definition toNegatePriority (msgCode : Z) (view : View) : Z :=
  if msgCode =? RoundChangeCode then i64 (- i64 (u64 (big_Uint64 (v_Sequence view) * 1000)))
  else i64 (- i64 (u64 (big_Uint64 (v_Sequence view) * 1000 + big_Uint64 (v_Round view) * 10
                        + msgPriority msgCode))).

(** * Round-change timeout, in nanoseconds *)

(** The doubling loop; [n] is the number of turns left. *)
Fixpoint doubleTimeout (n : nat) (timeout maxRequestTimeout : Z) : Z :=
  match n with
  | O => timeout
  | S n' =>
      let timeout := i64 (timeout * 2) in
      if maxRequestTimeout <? timeout then maxRequestTimeout
      else doubleTimeout n' timeout maxRequestTimeout
  end.

Definition roundChangeTimeout (cfg : Config) (round : Z) : Z :=
  let baseTimeout := i64 (i64 (RequestTimeout cfg) * Millisecond) in
  let roundNum := big_Uint64 round in
  let maxRequestTimeout := i64 (i64 (MaxRequestTimeoutSeconds cfg) * Second) in
  if 0 <? maxRequestTimeout then
    let timeout := doubleTimeout (Z.to_nat roundNum) baseTimeout maxRequestTimeout in
    if timeout <? baseTimeout then maxRequestTimeout else timeout
  else
    let timeoutFloat64 := f64_mul (math_Pow2 roundNum) (f64 baseTimeout) in
    if f64_overflows timeoutFloat64 then 2 ^ 63 - 1 else f64_int64 timeoutFloat64.

Section logic.
Context `{MapOrder} {B : Type} `{Proposal B} `{Crypto} `{Codec B}.

Definition msg_key (m : WBFTMessage B) : backlogKey :=
  mkKey (msg_Code m) (big_Uint64 (v_Sequence (msg_View m))) (big_Uint64 (v_Round (msg_View m))).

(** [backlogs] and [backlogKeys] have the same keys: both entries are made and
    deleted together. *)
Definition addToBacklog (msg : WBFTMessage B) (c : Core B) : Core B :=
  let src := msg_Source msg in
  if bool_decide (src = c_address c) then c else
  let pkey := msg_key msg in
  let push backlog keys :=
    set_c_backlogKeys (<[src := {[pkey]} ∪ keys]> (c_backlogKeys c))
      (set_c_backlogs (<[src := Push backlog msg (toNegatePriority (msg_Code msg) (msg_View msg))]>
                         (c_backlogs c)) c) in
  match c_backlogs c !! src with
  | None => push [] ∅
  | Some backlog =>
      let keys := default ∅ (c_backlogKeys c !! src) in
      if bool_decide (pkey ∈ keys) then c
      else if maxBacklogSizePerValidator <=? QSize backlog then c
      else push backlog keys
  end.

(** The inner loop of [processBacklog] on the queue and the keys of one
    validator: the messages to dispatch, in the order in which they are posted.
    Every turn pops a message, so [length q] turns are enough. *)
Fixpoint drainBacklog (fuel : nat) (check : Z -> View -> option CoreError)
  (q : list (WBFTMessage B * Z)) (keys : gset backlogKey)
  : list (WBFTMessage B * Z) * gset backlogKey * list (WBFTMessage B) :=
  match fuel with
  | O => (q, keys, [])
  | S fuel' =>
      match Pop q with
      | None => (q, keys, [])
      | Some (msg, prio, q') =>
          match check (msg_Code msg) (msg_View msg) with
          | None | Some errExtraSealMessage =>
              let '(q'', keys'', posted) := drainBacklog fuel' check q' (keys ∖ {[msg_key msg]}) in
              (q'', keys'', msg :: posted)
          | Some errFutureMessage => (Push q' msg prio, keys, [])
          | Some _ => drainBacklog fuel' check q' (keys ∖ {[msg_key msg]})
          end
      end
  end.

(** One turn of the outer loop, on the two maps and the events posted so far. *)
Definition processBacklogOf (vs : ValidatorSet) (check : Z -> View -> option CoreError)
  (acc : gmap Address (list (WBFTMessage B * Z)) * gmap Address (gset backlogKey)
         * list (Validator * WBFTMessage B))
  (entry : Address * list (WBFTMessage B * Z)) :=
  let '(backlogs, keys, events) := acc in
  let '(srcAddress, backlog) := entry in
  match snd (GetByAddress vs srcAddress) with
  | None => (delete srcAddress backlogs, delete srcAddress keys, events)
  | Some src =>
      let '(q, ks, posted) := drainBacklog (length backlog) check backlog
                                (default ∅ (keys !! srcAddress)) in
      (<[srcAddress := q]> backlogs, alter (fun _ => ks) srcAddress keys,
       events ++ ((fun m => (src, m)) <$> posted))
  end.

(** * Requests *)

Definition checkRequestMsg (current : option (roundState B)) (request : Request B)
  : option CoreError :=
  match rq_Proposal request, current with
  | None, _ => Some errInvalidMessage
  | _, None => Some errCurrentIsNil
  | Some p, Some r =>
      match rs_sequence r ?= Number p with
      | Gt => Some errOldMessage
      | Lt => Some errFutureMessage
      | Eq => None
      end
  end.

(** The loop of [processPendingRequests]: the queue left and the proposals
    posted again. *)
Fixpoint drainRequests (fuel : nat) (current : option (roundState B)) (q : list (Request B * Z))
  : list (Request B * Z) * list (option B) :=
  match fuel with
  | O => (q, [])
  | S fuel' =>
      match Pop q with
      | None => (q, [])
      | Some (r, prio, q') =>
          match checkRequestMsg current r with
          | Some errFutureMessage => (Push q' r prio, [])
          | Some _ => drainRequests fuel' current q'
          | None => let '(q'', posted) := drainRequests fuel' current q' in
                    (q'', rq_Proposal r :: posted)
          end
      end
  end.

(** * Signatures and seals *)

Definition GetSignatureAddress (data sig : bytes) : option Address :=
  PubkeyToAddress <$> SigToPub (Keccak256 data) sig.

Definition CheckValidatorSignature (vs : ValidatorSet) (data sig : bytes) : option Address :=
  match GetSignatureAddress data sig with
  | None => None
  | Some signer => val_address <$> snd (GetByAddress vs signer)
  end.

(** [verifySeal] once the sealer's entry has been looked up (the entry is
    dereferenced without a nil test, see the callers). *)
Definition verifySealOf (validator : Validator) (block : B) (round : Z) (sealType : SealType)
  (seal : bytes) : option CoreError :=
  match PublicKeyFromBytes (val_blsPublicKey validator) with
  | None => Some ErrBLSPublicKey
  | Some pubkey =>
      match SignatureFromBytes seal with
      | None => Some errInvalidSeal
      | Some sig =>
          if blsVerify sig pubkey (PrepareSeal block round sealType) then None
          else Some errInvalidSigner
      end
  end.

(** * Extra seals *)

Definition addNewer {M} (src : M -> Address) (view : M -> View) (seals : gmap Address M) (msg : M)
  : gmap Address M :=
  match seals !! src msg with
  | Some existing =>
      match View_Cmp (view existing) (view msg) with Lt => <[src msg := msg]> seals | _ => seals end
  | None => <[src msg := msg]> seals
  end.

Definition addToPrepareExtraSeal (m : Prepare) (c : Core B) : Core B :=
  set_c_prepareExtraSeals (addNewer pr_source pr_View (c_prepareExtraSeals c) m) c.
Definition addToCommitExtraSeal (m : Commit) (c : Core B) : Core B :=
  set_c_commitExtraSeals (addNewer cm_source cm_View (c_commitExtraSeals c) m) c.

Definition addEffectiveSealToExtraSeal (c : Core B) : Core B :=
  match c_current c with
  | None => c
  | Some r =>
      let c := foldl (fun c m => addToPrepareExtraSeal m c) c (msgSet_Values (rs_WBFTPrepares r)) in
      foldl (fun c m => addToCommitExtraSeal m c) c (msgSet_Values (rs_WBFTCommits r))
  end.

(** One of the two loops of [ProcessExtraSeal]. *)
Definition collectSeals {M} (src : M -> Address) (view : M -> View) (digest : M -> Hash)
  (seal : M -> bytes) (latestView : View) (hash : Hash) (vs : ValidatorSet) (msgs : list M)
  : list SealData :=
  foldl (fun acc msg =>
    match View_Cmp latestView (view msg) with
    | Eq =>
        if bool_decide (digest msg = hash) then
          let '(idx, _) := GetByAddress vs (src msg) in
          if idx <? 0 then acc else acc ++ [mkSealData (u32 idx) (seal msg)]
        else acc
    | _ => acc
    end) [] msgs.

Definition ProcessExtraSeal (c : Core B) (lastProposal : B) (priorRound : Z) (vs : ValidatorSet)
  : list SealData * list SealData :=
  let latestView := mkView priorRound (Number lastProposal) in
  (collectSeals pr_source pr_View pr_Digest pr_PrepareSeal latestView (BHash lastProposal) vs
     (msgSet_Values (c_prepareExtraSeals c)),
   collectSeals cm_source cm_View cm_Digest cm_CommitSeal latestView (BHash lastProposal) vs
     (msgSet_Values (c_commitExtraSeals c))).

(** The loops delete the entries they visit. *)
Definition ClearExtraSeals (lastNum : Z) (c : Core B) : Core B :=
  set_c_commitExtraSeals
    (filter (fun am => ~ cp_Sequence (cm_common am.2) < lastNum) (c_commitExtraSeals c))
    (set_c_prepareExtraSeals
       (filter (fun am => ~ cp_Sequence (pr_common am.2) < lastNum) (c_prepareExtraSeals c)) c).
End logic.
