(* ===== verification/CoreHandlers.v ===== *)
(** The handlers of the WBFT core ([src/consensus/wbft/core]: [core.go],
    [handler.go], [request.go], [preprepare.go], [prepare.go], [commit.go],
    [roundchange.go], [final_committed.go], [priorstate.go]).

    A handler runs against the answers of its backend ([Backend]): every method
    of the backend is called at most once per argument while one event is
    handled.  Logging and metrics are left out. *)
From S2P Require Import Prelude Validators Prque Messages Config Justification RoundChangeSet CoreState CoreLogic.

Inductive VerifyResult := VerifyOk | VerifyFuture (duration : Z) | VerifyFailed.

(** The answers of the interface [Backend] while one event is handled. *)
Record Backend (B : Type) := mkBackend {
  be_Address : Address;
  be_Validators : B -> ValidatorSet;
  be_LastProposal : option B * Address;
  be_HasBadProposal : Hash -> bool;
  be_Verify : B -> VerifyResult;
  be_CommitFails : B -> list SealData -> list SealData -> Z -> bool;
  be_Sign : bytes -> option bytes;
  be_SignWithoutHashing : bytes -> bytes;
  be_BroadcastFails : WBFTMessage B -> bool;
}.
Arguments mkBackend {B}.
Arguments be_Address {B}. Arguments be_Validators {B}. Arguments be_LastProposal {B}.
Arguments be_HasBadProposal {B}. Arguments be_Verify {B}. Arguments be_CommitFails {B}.
Arguments be_Sign {B}. Arguments be_SignWithoutHashing {B}. Arguments be_BroadcastFails {B}.

(** What a handler asks for: messages handed to the network, blocks handed to
    the backend, events posted to the core's own queue, timers. *)
Inductive Output (B : Type) :=
  | OBroadcast (vs : option ValidatorSet) (m : WBFTMessage B) (payload : bytes)
  | OGossip (vs : option ValidatorSet) (code : Z) (payload : bytes)
  | OCommit (proposal : B) (preparedSeals committedSeals : list SealData) (round : Z)
  | OPostBacklog (src : option Validator) (m : WBFTMessage B)
  | OPostRequest (proposal : option B)
  | ONotifyNewRound (round : Z)
  | OStartRoundChangeTimer (id timeout : Z)
  | OStopRoundChangeTimer
  | OStartRetryTimer (round timeout : Z)
  | OStopRetryTimer
  | OStartFuturePreprepareTimer (m : Preprepare B) (duration : Z)
  | OStopFuturePreprepareTimer.
Arguments OBroadcast {B}. Arguments OGossip {B}. Arguments OCommit {B}. Arguments OPostBacklog {B}.
Arguments OPostRequest {B}. Arguments ONotifyNewRound {B}. Arguments OStartRoundChangeTimer {B}.
Arguments OStopRoundChangeTimer {B}. Arguments OStartRetryTimer {B}. Arguments OStopRetryTimer {B}.
Arguments OStartFuturePreprepareTimer {B}. Arguments OStopFuturePreprepareTimer {B}.

Section handlers.
Context `{MapOrder} {B : Type} `{Proposal B} `{Crypto} `{Codec B} (be : Backend B).

Abbreviation M := (GoM (Core B) (Output B)).

Definition when (b : bool) (m : M unit) : M unit := if b then m else mret tt.
Definition panic {A} : M A := fun _ => None.
Definition gets {A} (f : Core B -> A) : M A := s ← get; mret (f s).

Definition current : M (roundState B) := s ← get; deref (c_current s).
Definition valSet : M ValidatorSet := s ← get; deref (c_valSet s).
Definition modify_current (f : roundState B -> roundState B) : M unit :=
  r ← current; modify (set_c_current (Some (f r))).

Definition currentView : M View := r ← current; mret (rs_view r).

Definition IsProposer_core : M bool :=
  s ← get;
  match c_valSet s with
  | None => mret false
  | Some v => mret (IsProposer v (be_Address be))
  end.

(** * State changes *)

Definition processPendingRequests : M unit :=
  s ← get;
  let '(q, posted) := drainRequests (length (c_pendingRequests s)) (c_current s) (c_pendingRequests s) in
  modify (set_c_pendingRequests q);;
  emits (OPostRequest <$> posted).

(** With a non-empty backlog, [c.valSet] is dereferenced in the first turn and
    [c.current] by the first [checkMessage]. *)
Definition processBacklog : M unit :=
  s ← get;
  match range (c_backlogs s) with
  | [] => mret tt
  | entries =>
      vs ← valSet;
      curr ← currentView;
      let check := checkMessage (c_state s) curr (ps_round (c_priorState s)) in
      let '(backlogs, keys, events) :=
        foldl (processBacklogOf vs check) (c_backlogs s, c_backlogKeys s, []) entries in
      modify (set_c_backlogs backlogs);;
      modify (set_c_backlogKeys keys);;
      emits ((fun '(src, m) => OPostBacklog (Some src) m) <$> events)
  end.

Definition setState (state : State) : M unit :=
  s ← get;
  when (negb (bool_decide (c_state s = state))) (modify (set_c_state state));;
  when (bool_decide (state = StateAcceptRequest)) processPendingRequests;;
  processBacklog.

(** * Timers *)

Definition set_timers (f : timers -> timers) : M unit :=
  modify (fun c => set_c_timers (f (c_timers c)) c).

Definition stopFuturePreprepareTimer : M unit :=
  s ← get; when (t_futurePreprepare (c_timers s)) (emit OStopFuturePreprepareTimer).
Definition stopRoundChangeTimer : M unit :=
  s ← get; when (t_roundChange (c_timers s)) (emit OStopRoundChangeTimer).
Definition stopRetrySendingRoundChangeTimer : M unit :=
  s ← get; when (t_retry (c_timers s)) (emit OStopRetryTimer).

Definition cancelLastSentTimeout : M unit :=
  set_timers (fun t =>
    match t_lastSent t with
    | Some id => mkTimers (t_next t) (t_lastSent t) ({[id]} ∪ t_canceled t) (t_roundChange t)
                   (t_retry t) (t_futurePreprepare t)
    | None => t
    end).

Definition stopTimer : M unit :=
  stopFuturePreprepareTimer;;
  stopRetrySendingRoundChangeTimer;;
  stopRoundChangeTimer;;
  cancelLastSentTimeout.

(** Called with the sequence and round of a non-nil [c.current]. *)
Definition newRoundChangeTimer (seq round : Z) : M unit :=
  stopTimer;;
  s ← get;
  let timeout := roundChangeTimeout (GetConfig (c_config s) seq) round in
  let id := t_next (c_timers s) in
  set_timers (fun t => mkTimers (id + 1) (Some id) (t_canceled t) true (t_retry t)
                         (t_futurePreprepare t));;
  emit (OStartRoundChangeTimer id timeout).

Definition newRetrySendingRoundChangeTimer : M unit :=
  s ← get;
  match c_current s with
  | None => mret tt
  | Some r =>
      let timeout := i64 (i64 (RequestTimeout (GetConfig (c_config s) (rs_sequence r))) * Millisecond) in
      stopRetrySendingRoundChangeTimer;;
      set_timers (fun t => mkTimers (t_next t) (t_lastSent t) (t_canceled t) (t_roundChange t) true
                             (t_futurePreprepare t));;
      emit (OStartRetryTimer (rs_round r) timeout)
  end.

(** * Rounds *)

Definition updatePriorState : M unit :=
  r ← current;
  s ← get;
  let p := c_priorState s in
  modify (set_c_priorState
    (mkPriorState (rs_round r)
       (match rs_Proposal r with Some b => Some b | None => ps_proposal p end)
       (match c_valSet s with Some v => Some v | None => ps_validatorSet p end))).

Definition updateRoundState (nextValSet : option ValidatorSet) (view : View) (roundChange : bool)
  : M unit :=
  s ← get;
  match c_current s with
  | Some r =>
      if roundChange then
        (match rs_preparedBlock r with
         | Some b =>
             if be_HasBadProposal be (BHash b) then
               modify_current (fun r => set_rs_preparedBlock None (set_rs_preparedRound None r));;
               modify (ClearExtraSeals (rs_sequence r + 1))
             else mret tt
         | None => mret tt
         end);;
        modify_current (fun r => newRoundState view (rs_Preprepare r) (rs_preparedRound r)
                                   (rs_preparedBlock r) (rs_pendingRequest r))
      else
        updatePriorState;;
        modify (set_c_current (Some (newRoundState view None None None None)))
  | None => modify (set_c_current (Some (newRoundState view None None None None)))
  end;;
  modify (set_c_valSet nextValSet).

(** The guards of [startNewRound]: [None] is an early return, [Some roundChange]
    goes on.  [lastProposal] is dereferenced when [c.current] is not nil. *)
Definition startNewRound_guard (round : Z) (lastProposal : option B) : M (option bool) :=
  s ← get;
  match c_current s with
  | None => mret (Some false)
  | Some r =>
      last ← deref lastProposal;
      if rs_sequence r <=? Number last then mret (Some false)
      else if Number last =? i64 (big_Int64 (rs_sequence r) - 1) then
        if round =? 0 then mret None
        else if round <? rs_round r then mret None
        else mret (Some true)
      else mret None
  end.

(** The new view, the validator set and, for a new sequence, the seals kept for
    the next block. *)
Definition startNewRound_next (round : Z) (lastProposal : option B) (roundChange : bool)
  : M (option ValidatorSet * View) :=
  if roundChange then
    r ← current;
    s ← get;
    mret (c_valSet s, mkView round (rs_sequence r))
  else
    last ← deref lastProposal;
    modify addEffectiveSealToExtraSeal;;
    mret (Some (be_Validators be last), mkView 0 (Number last + 1)).

(** [if round.Uint64() == 0 { ... } else { ... }; roundChangeSet.NewRound(round)] *)
Definition startNewRound_rcs (round : Z) (lastProposal : option B) : M unit :=
  (if big_Uint64 round =? 0 then
     modify (set_c_preparedPrepares []);;
     modify (set_c_roundChangeSet (Some newRoundChangeSet));;
     last ← deref lastProposal;
     modify (ClearExtraSeals (Number last))
   else
     s ← get;
     rcs ← deref (c_roundChangeSet s);
     modify (set_c_roundChangeSet (Some (ClearLowerThan rcs round))));;
  s ← get;
  rcs ← deref (c_roundChangeSet s);
  modify (set_c_roundChangeSet (Some (RCS_NewRound rcs round))).

Definition startNewRound (round : Z) : M unit :=
  let '(lastProposal, lastProposer) := be_LastProposal be in
  guard ← startNewRound_guard round lastProposal;
  match guard with
  | None => mret tt
  | Some roundChange =>
      next ← startNewRound_next round lastProposal roundChange;
      let '(nextValSet, newView) := next in
      updateRoundState nextValSet newView roundChange;;
      vs ← valSet;
      modify (set_c_valSet (Some (CalcProposer vs lastProposer (big_Uint64 (v_Round newView)))));;
      setState StateAcceptRequest;;
      startNewRound_rcs round lastProposal;;
      emit (ONotifyNewRound round);;
      r ← current;
      newRoundChangeTimer (rs_sequence r) (rs_round r)
  end.

(** * Sending messages *)

Definition broadcast (m : WBFTMessage B) : M bool :=
  match EncodeMessage m with
  | None => mret false
  | Some payload =>
      s ← get;
      emit (OBroadcast (c_valSet s) m payload);;
      mret (negb (be_BroadcastFails be m))
  end.

(** Sign [payload], if it can be encoded and signed. *)
Definition signPayload (payload : option bytes) : option bytes := payload ≫= be_Sign be.

Definition sendPreprepareMsg (request : Request B) : M unit :=
  r ← current;
  proposal ← deref (rq_Proposal request);
  isProposer ← IsProposer_core;
  if (rs_sequence r =? Number proposal) && isProposer then
    s ← get;
    let preprepare := NewPreprepare (rs_sequence r) (rs_round r) proposal in
    let preprepare := mkPreprepare (cp_SetSource (pp_common preprepare) (c_address s))
                        (pp_Proposal preprepare) [] [] in
    match signPayload (payload_Preprepare preprepare) with
    | None => mret tt
    | Some signature =>
        let rcs := match rq_RCMessages request with
                   | Some ms => rc_payload <$> msgSet_Values ms
                   | None => []
                   end in
        let m := MPreprepare (mkPreprepare (cp_SetSignature (pp_common preprepare) signature)
                                (pp_Proposal preprepare) rcs (rq_PrepareMessages request)) in
        sent ← broadcast m;
        when sent (modify_current (set_rs_preprepareSent (rs_round r)))
    end
  else mret tt.

Definition broadcastPrepare : M unit :=
  r ← current;
  proposal ← deref (rs_Proposal r);
  sub ← deref (rs_Subject r);
  s ← get;
  let prepareSeal := be_SignWithoutHashing be
    (PrepareSeal proposal (u32 (big_Uint64 (rs_round r))) SealTypePrepare) in
  let prepare := NewPrepare (v_Sequence (sub_View sub)) (v_Round (sub_View sub)) (sub_Digest sub)
                   prepareSeal in
  let prepare := mkPrepare (cp_SetSource (pr_common prepare) (c_address s)) (pr_Digest prepare)
                   (pr_PrepareSeal prepare) in
  match signPayload (payload_Prepare prepare) with
  | None => mret tt
  | Some signature =>
      _ ← broadcast (MPrepare (mkPrepare (cp_SetSignature (pr_common prepare) signature)
                                 (pr_Digest prepare) (pr_PrepareSeal prepare)));
      mret tt
  end.

Definition broadcastCommit : M unit :=
  r ← current;
  proposal ← deref (rs_Proposal r);
  sub ← deref (rs_Subject r);
  s ← get;
  let commitSeal := be_SignWithoutHashing be
    (PrepareSeal proposal (u32 (big_Uint64 (rs_round r))) SealTypeCommit) in
  let commit := NewCommit (v_Sequence (sub_View sub)) (v_Round (sub_View sub)) (sub_Digest sub)
                  commitSeal in
  let commit := mkCommit (cp_SetSource (cm_common commit) (c_address s)) (cm_Digest commit)
                  (cm_CommitSeal commit) in
  match signPayload (payload_Commit commit) with
  | None => mret tt
  | Some signature =>
      _ ← broadcast (MCommit (mkCommit (cp_SetSignature (cm_common commit) signature)
                                (cm_Digest commit) (cm_CommitSeal commit)));
      mret tt
  end.

Definition broadcastRoundChange (round : Z) : M unit :=
  newRetrySendingRoundChangeTimer;;
  r ← current;
  if round <? rs_round r then mret tt
  else
    s ← get;
    let roundChange := NewRoundChange (rs_sequence r) round (rs_preparedRound r) (rs_preparedBlock r) in
    let payload := rc_payload roundChange in
    match signPayload (payload_RoundChange payload) with
    | None => mret tt
    | Some signature =>
        let payload := mkSRC (cp_SetSignature (sr_common payload) signature)
                         (sr_PreparedRound payload) (sr_PreparedDigest payload) in
        _ ← broadcast (MRoundChange (mkRoundChange payload (rc_PreparedBlock roundChange)
                                       (c_preparedPrepares s)));
        mret tt
    end.

Definition broadcastNextRoundChange : M unit :=
  cv ← currentView;
  broadcastRoundChange (v_Round cv + 1).

(** * Handling messages *)

Definition handleRequest (request : Request B) : M (option CoreError) :=
  s ← get;
  match checkRequestMsg (c_current s) request with
  | Some err => mret (Some err)
  | None =>
      modify_current (set_rs_pendingRequest (Some request));;
      r ← current;
      when (bool_decide (c_state s = StateAcceptRequest) && (big_Uint64 (rs_round r) =? 0))
        (sendPreprepareMsg request);;
      mret None
  end.

Definition storeRequestMsg (request : Request B) : M unit :=
  proposal ← deref (rq_Proposal request);
  modify (fun c => set_c_pendingRequests
    (Push (c_pendingRequests c) request (i64 (- big_Int64 (Number proposal)))) c).

(** [verifySeal]: [validator.BLSPublicKey()] of an unknown sealer is a nil dereference. *)
Definition verifySeal (vs : ValidatorSet) (block : B) (round : Z) (sealType : SealType)
  (seal : bytes) (sealer : Address) : M (option CoreError) :=
  validator ← deref (snd (GetByAddress vs sealer));
  mret (verifySealOf validator block round sealType seal).

Definition handlePreprepareMsg (preprepare : Preprepare B) : M (option CoreError) :=
  vs ← valSet;
  let view := cp_View (pp_common preprepare) in
  if negb (IsProposer vs (cp_source (pp_common preprepare))) then
    (* the log line dereferences the proposer *)
    _ ← deref (GetProposer vs);
    mret (Some errNotFromProposer)
  else if negb (v_Sequence view =? Number (pp_Proposal preprepare)) then
    mret (Some errInvalidPreparedBlock)
  else if (0 <? big_Uint64 (v_Round view))
          && negb (bool_decide (isJustified (pp_Proposal preprepare) view
               (pp_JustificationRoundChanges preprepare) (pp_JustificationPrepares preprepare)
               (QuorumSize vs) = None)) then
    mret (Some errInvalidPreparedBlock)
  else match be_Verify be (pp_Proposal preprepare) with
  | VerifyFuture duration =>
      stopFuturePreprepareTimer;;
      set_timers (fun t => mkTimers (t_next t) (t_lastSent t) (t_canceled t) (t_roundChange t)
                             (t_retry t) true);;
      emit (OStartFuturePreprepareTimer preprepare duration);;
      mret (Some ErrFutureBlock)
  | VerifyFailed => mret (Some ErrVerify)
  | VerifyOk =>
      s ← get;
      if bool_decide (c_state s = StateAcceptRequest) then
        r ← current;
        newRoundChangeTimer (rs_sequence r) (rs_round r);;
        modify_current (set_rs_Preprepare (Some preprepare));;
        setState StatePreprepared;;
        broadcastPrepare;;
        mret None
      else mret None
  end.

Definition handlePrepareMsg (prepare : Prepare) : M (option CoreError) :=
  r ← current;
  vs ← valSet;
  block ← deref (rs_Proposal r);
  if negb (bool_decide (pr_Digest prepare = BHash block)) then mret (Some errInvalidMessage)
  else
    err ← verifySeal vs block (u32 (big_Uint64 (pr_Round prepare))) SealTypePrepare
            (pr_PrepareSeal prepare) (pr_source prepare);
    match err with
    | Some _ => mret (Some errInvalidMessage)
    | None =>
        modify_current (fun r => set_rs_WBFTPrepares
          (msgSet_Add pr_source (rs_WBFTPrepares r) prepare) r);;
        r ← current;
        s ← get;
        if (QuorumSize vs <=? msgSet_Size (rs_WBFTPrepares r))
           && match State_Cmp (c_state s) StatePrepared with Lt => true | _ => false end then
          modify_current (set_rs_preparedRound (Some (rs_round r)));;
          modify (set_c_preparedPrepares
            ((fun m => NewPrepareWithSigAndSource (v_Sequence (pr_View m)) (v_Round (pr_View m))
                         (pr_Digest m) (cp_signature (pr_common m)) (pr_source m) (pr_PrepareSeal m))
             <$> msgSet_Values (rs_WBFTPrepares r)));;
          when (bool_decide (BHash block = pr_Digest prepare))
            (modify_current (set_rs_preparedBlock (Some block)));;
          setState StatePrepared;;
          broadcastCommit;;
          mret None
        else mret None
    end.

(** [make([]byte, types.IstanbulExtraSeal)] filled by [copy] *)
Definition IstanbulExtraSeal : nat := 96.
Definition copySeal (seal : bytes) : bytes :=
  take IstanbulExtraSeal seal ++ replicate (IstanbulExtraSeal - length seal) 0.

(** The seals of a message set; the entry of an unknown source stays zero. *)
Definition sealsOf {T} (src : T -> Address) (seal : T -> bytes) (vs : ValidatorSet)
  (ms : gmap Address T) : list SealData :=
  (fun msg =>
     let '(idx, _) := GetByAddress vs (src msg) in
     if idx <? 0 then mkSealData 0 [] else mkSealData (u32 idx) (copySeal (seal msg)))
  <$> msgSet_Values ms.

Definition commitWBFT : M unit :=
  setState StateCommitted;;
  r ← current;
  match rs_Proposal r with
  | None => mret tt
  | Some proposal =>
      vs ← valSet;
      let preparedSeals := sealsOf pr_source pr_PrepareSeal vs (rs_WBFTPrepares r) in
      let committedSeals := sealsOf cm_source cm_CommitSeal vs (rs_WBFTCommits r) in
      emit (OCommit proposal preparedSeals committedSeals (rs_round r));;
      when (be_CommitFails be proposal preparedSeals committedSeals (rs_round r))
        (broadcastNextRoundChange)
  end.

Definition handleCommitMsg (commit : Commit) : M (option CoreError) :=
  r ← current;
  vs ← valSet;
  block ← deref (rs_Proposal r);
  if negb (bool_decide (cm_Digest commit = BHash block)) then mret (Some errInvalidMessage)
  else
    err ← verifySeal vs block (u32 (big_Uint64 (cm_Round commit))) SealTypeCommit
            (cm_CommitSeal commit) (cm_source commit);
    match err with
    | Some _ => mret (Some errInvalidMessage)
    | None =>
        modify_current (fun r => set_rs_WBFTCommits
          (msgSet_Add cm_source (rs_WBFTCommits r) commit) r);;
        r ← current;
        when (QuorumSize vs <=? msgSet_Size (rs_WBFTCommits r)) commitWBFT;;
        mret None
    end.

(** The validation and registration of a ROUND-CHANGE message for a round not
    below the current one. *)
Definition addRoundChange (roundChange : RoundChange B) : M (option CoreError) :=
  cv ← currentView;
  vs ← valSet;
  let add prepared prepares : M (option CoreError) :=
    s ← get;
    rcs ← deref (c_roundChangeSet s);
    modify (set_c_roundChangeSet (Some (RCS_Add rcs (rc_Round roundChange) roundChange prepared
                                          prepares (QuorumSize vs))));;
    mret None in
  match sr_PreparedRound (rc_payload roundChange), rc_PreparedBlock roundChange,
        rc_Justification roundChange with
  | Some pr, Some pb, (_ :: _) as justification =>
      if negb (Number pb =? v_Sequence cv) then mret (Some ErrPreparedBlockNumber)
      else if negb (bool_decide (BHash pb = sr_PreparedDigest (rc_payload roundChange))) then
        mret (Some ErrPreparedBlockHash)
      else add (Some (pr, pb)) justification
  | _, _, _ => add None []
  end.

(** The proposer's answer to a quorum of ROUND-CHANGE messages for its round. *)
Definition proposeAfterRoundChange (currentRound : Z) : M (option CoreError) :=
  s ← get;
  r ← current;
  vs ← valSet;
  rcs ← deref (c_roundChangeSet s);
  match (match highestPreparedBlock rcs !! big_Uint64 currentRound with
         | Some proposal => Some proposal
         | None => rs_pendingRequest r ≫= rq_Proposal
         end) with
  | None => mret (Some ErrNoProposal)
  | Some proposal =>
      roundChangeMessages ← deref (roundChanges rcs !! big_Uint64 currentRound);
      let rcSignedPayloads := rc_payload <$> msgSet_Values roundChangeMessages in
      let prepares := default [] (prepareMessages rcs !! big_Uint64 currentRound) in
      if negb (bool_decide (isJustified proposal (rs_view r) rcSignedPayloads prepares
                              (QuorumSize vs) = None)) then mret None
      else
        sendPreprepareMsg (mkRequest (Some proposal) (Some roundChangeMessages) prepares);;
        mret None
  end.

Definition handleRoundChangeMsg (roundChange : RoundChange B) : M (option CoreError) :=
  cv ← currentView;
  let currentRound := v_Round cv in
  s ← get;
  _ ← deref (c_roundChangeSet s);
  err ← (if currentRound <=? rc_Round roundChange then addRoundChange roundChange else mret None);
  match err with
  | Some e => mret (Some e)
  | None =>
      s ← get;
      rcs ← deref (c_roundChangeSet s);
      vs ← valSet;
      r ← current;
      isProposer ← IsProposer_core;
      if reachedFPlusOne vs (higherRoundMessages rcs currentRound) then
        let newRound := getMinRoundChange rcs currentRound in
        startNewRound newRound;;
        broadcastRoundChange newRound;;
        mret None
      else if (QuorumSize vs <=? getRCMessagesForGivenRound rcs currentRound) && isProposer
              && (rs_preprepareSent r <? currentRound) then
        proposeAfterRoundChange currentRound
      else mret None
  end.

(** [addToExtraSeal]; without a block, the message is ignored. *)
Definition addToExtraSeal (msg : WBFTMessage B) : M (option CoreError) :=
  s ← get;
  bv ← (if bool_decide (c_state s = StateAcceptRequest)
        then mret (ps_proposal (c_priorState s), ps_validatorSet (c_priorState s))
        else r ← current; mret (rs_Proposal r, c_valSet s));
  match bv with
  | (None, _) => mret None
  | (Some block, vs) =>
      match msg with
      | MPrepare m =>
          if negb (bool_decide (pr_Digest m = BHash block)) then mret (Some errInvalidMessage)
          else
            vs ← deref vs;
            err ← verifySeal vs block (u32 (big_Uint64 (pr_Round m))) SealTypePrepare
                    (pr_PrepareSeal m) (pr_source m);
            match err with
            | Some e => mret (Some e)
            | None => modify (addToPrepareExtraSeal m);; mret None
            end
      | MCommit m =>
          if negb (bool_decide (cm_Digest m = BHash block)) then mret (Some errInvalidMessage)
          else
            vs ← deref vs;
            err ← verifySeal vs block (u32 (big_Uint64 (cm_Round m))) SealTypeCommit
                    (cm_CommitSeal m) (cm_source m);
            match err with
            | Some e => mret (Some e)
            | None => modify (addToCommitExtraSeal m);; mret None
            end
      | _ => mret (Some errInvalidExtraSealMessage)
      end
  end.

(** * The event loop *)

(** The switch on the code and the type assertions of [deliverMessage]. *)
Definition deliverMessage (m : WBFTMessage B) : M (option CoreError) :=
  if msg_Code m =? PreprepareCode then
    match m with MPreprepare p => handlePreprepareMsg p | _ => panic end
  else if msg_Code m =? PrepareCode then
    match m with MPrepare p => handlePrepareMsg p | _ => panic end
  else if msg_Code m =? CommitCode then
    match m with MCommit p => handleCommitMsg p | _ => panic end
  else if msg_Code m =? RoundChangeCode then
    match m with MRoundChange p => handleRoundChangeMsg p | _ => panic end
  else mret (Some errInvalidMessage).

(** An extra seal that is stored successfully counts as handled. *)
Definition handleDecodedMessage (m : WBFTMessage B) : M (option CoreError) :=
  curr ← currentView;
  s ← get;
  match checkMessage (c_state s) curr (ps_round (c_priorState s)) (msg_Code m) (msg_View m) with
  | None => deliverMessage m
  | Some errFutureMessage => modify (addToBacklog m);; mret (Some errFutureMessage)
  | Some errExtraSealMessage => addToExtraSeal m
  | Some err => mret (Some err)
  end.

(** [checkValidatorSignature] *)
Definition checkValidatorSignature (data sig : bytes) (view : View) : M (option Address) :=
  curr ← currentView;
  s ← get;
  let prior := mkView (ps_round (c_priorState s)) (v_Sequence curr - 1) in
  let isPrior := match View_Cmp view curr with Lt => true | _ => false end
                 && bool_decide (c_state s = StateAcceptRequest)
                 && match View_Cmp view prior with Eq => true | _ => false end in
  match isPrior, ps_validatorSet (c_priorState s) with
  | true, Some vs => mret (CheckValidatorSignature vs data sig)
  | _, _ => vs ← valSet; mret (CheckValidatorSignature vs data sig)
  end.

(** The closure [verify] of [verifySignatures] on the common part of a message:
    the part with its source set, or the error. *)
Definition verifyCommon (payload : option bytes) (c : CommonPayload) : M (CommonPayload + CoreError) :=
  match payload with
  | None => mret (inr ErrEncode)
  | Some data =>
      source ← checkValidatorSignature data (cp_signature c) (cp_View c);
      match source with
      | None => mret (inr errInvalidSigner)
      | Some a => mret (inl (cp_SetSource c a))
      end
  end.

Definition verifyPrepare (p : Prepare) : M (Prepare + CoreError) :=
  c ← verifyCommon (payload_Prepare p) (pr_common p);
  match c with
  | inl c => mret (inl (mkPrepare c (pr_Digest p) (pr_PrepareSeal p)))
  | inr e => mret (inr e)
  end.

Definition verifyRoundChangePayload (p : SignedRoundChangePayload)
  : M (SignedRoundChangePayload + CoreError) :=
  c ← verifyCommon (payload_RoundChange p) (sr_common p);
  match c with
  | inl c => mret (inl (mkSRC c (sr_PreparedRound p) (sr_PreparedDigest p)))
  | inr e => mret (inr e)
  end.

(** The loops over piggybacked payloads stop at the first error. *)
Fixpoint verifyAll {T} (verify : T -> M (T + CoreError)) (l : list T) : M (list T + CoreError) :=
  match l with
  | [] => mret (inl [])
  | x :: l' =>
      y ← verify x;
      match y with
      | inr e => mret (inr e)
      | inl y =>
          ys ← verifyAll verify l';
          match ys with
          | inr e => mret (inr e)
          | inl ys => mret (inl (y :: ys))
          end
      end
  end.

Definition payload_of (m : WBFTMessage B) : option bytes :=
  match m with
  | MPreprepare p => payload_Preprepare p
  | MPrepare p => payload_Prepare p
  | MCommit p => payload_Commit p
  | MRoundChange p => payload_RoundChange (rc_payload p)
  end.

(** The message with its sources set, or the error. *)
Definition verifySignatures (m : WBFTMessage B) : M (WBFTMessage B + CoreError) :=
  c ← verifyCommon (payload_of m) (msg_common m);
  match c with
  | inr e => mret (inr e)
  | inl c =>
      match set_common m c with
      | MRoundChange p =>
          ps ← verifyAll verifyPrepare (rc_Justification p);
          match ps with
          | inr e => mret (inr e)
          | inl ps => mret (inl (MRoundChange (mkRoundChange (rc_payload p) (rc_PreparedBlock p) ps)))
          end
      | MPreprepare p =>
          rcs ← verifyAll verifyRoundChangePayload (pp_JustificationRoundChanges p);
          match rcs with
          | inr e => mret (inr e)
          | inl rcs =>
              ps ← verifyAll verifyPrepare (pp_JustificationPrepares p);
              match ps with
              | inr e => mret (inr e)
              | inl ps => mret (inl (MPreprepare (mkPreprepare (pp_common p) (pp_Proposal p) rcs ps)))
              end
          end
      | m' => mret (inl m')
      end
  end.

Definition handleEncodedMsg (code : Z) (data : bytes) : M (option CoreError) :=
  if negb (bool_decide (code ∈ MessageCodes)) then mret (Some ErrMessageCode)
  else match Decode code data with
  | None => mret (Some ErrDecode)
  | Some m =>
      v ← verifySignatures m;
      match v with
      | inr e => mret (Some e)
      | inl m => handleDecodedMessage m
      end
  end.

Definition handleTimeoutMsg : M unit :=
  r ← current;
  let nextRound := rs_round r + 1 in
  startNewRound nextRound;;
  _ ← current;
  broadcastRoundChange nextRound.

Definition handleFinalCommittedMsg : M unit := startNewRound 0.

(** The events of the main loop. *)
Inductive Event :=
  | RequestEvent (proposal : option B)
  | MessageEvent (code : Z) (payload : bytes)
  | BacklogEvent (src : option Validator) (msg : WBFTMessage B)
  | TimeoutEvent (id : Z)
  | FinalCommittedEvent
  | RetryTimeoutEvent (round : Z).

(** One turn of [handleEvents]. *)
Definition handleEvent (ev : Event) : M unit :=
  match ev with
  | RequestEvent proposal =>
      let r := mkRequest proposal None [] in
      err ← handleRequest r;
      when (bool_decide (err = Some errFutureMessage)) (storeRequestMsg r)
  | MessageEvent code payload =>
      err ← handleEncodedMsg code payload;
      match err with
      | Some _ => mret tt
      | None => s ← get; emit (OGossip (c_valSet s) code payload)
      end
  | BacklogEvent _ msg =>
      err ← handleDecodedMessage msg;
      match err with
      | Some _ => mret tt
      | None =>
          match EncodeMessage msg with
          | None => mret tt
          | Some data => s ← get; emit (OGossip (c_valSet s) (msg_Code msg) data)
          end
      end
  | TimeoutEvent id =>
      s ← get;
      when (negb (bool_decide (id ∈ t_canceled (c_timers s)))) handleTimeoutMsg
  | FinalCommittedEvent => handleFinalCommittedMsg
  | RetryTimeoutEvent round => broadcastRoundChange round
  end.
End handlers.
