(* ===== verification/CoreSpecs.v ===== *)
(** Specifications of the core's subroutines: what each of them leaves
    unchanged, that none of them panics once a round has started, and the
    invariants of the backlog and of the timers. *)
From S2P Require Import Prelude Validators Prque Messages Config Justification RoundChangeSet CoreState CoreLogic CoreHandlers.

(** Outputs of composed subroutines. *)
Ltac solve_outputs :=
  cbn [app]; rewrite ?app_nil_r; rewrite ?Forall_app, ?Forall_cons; split_and?;
  first [assumption | by apply Forall_nil | done | idtac].

Section specs.
Context `{MapOrder} {B : Type} `{Proposal B} `{Crypto} `{Codec B}.
Implicit Types s : Core B.

(** * Invariants of the queues and of the timers *)

(** The messages of a validator's queue come from that validator, have the Go
    type of their code, occupy pairwise different slots, which are the ones
    recorded in [backlogKeys], and are at most [maxBacklogSizePerValidator]. *)
Record backlog_entry_ok (src : Address) (q : list (WBFTMessage B * Z)) (ks : gset backlogKey) : Prop := {
  be_heap : heap q;
  be_source : Forall (fun mp => msg_Source mp.1 = src /\ msg_wf mp.1) q;
  be_keys : list_to_set (msg_key <$> q.*1) = ks;
  be_nodup : NoDup (msg_key <$> q.*1);
  be_size : QSize q <= maxBacklogSizePerValidator;
}.

Definition backlog_ok (backlogs : gmap Address (list (WBFTMessage B * Z)))
  (keys : gmap Address (gset backlogKey)) : Prop :=
  forall src, match backlogs !! src, keys !! src with
  | Some q, Some ks => backlog_entry_ok src q ks
  | None, None => True
  | _, _ => False
  end.

(** Every round-change timer but the last one made is canceled. *)
Record timers_ok (t : timers) : Prop := {
  timers_last : forall id, t_lastSent t = Some id -> id = t_next t - 1;
  timers_none : t_lastSent t = None -> t_next t = 0;
  timers_canceled : forall id, 0 <= id < t_next t -> t_lastSent t <> Some id -> id ∈ t_canceled t;
  timers_fresh : forall id, id ∈ t_canceled t -> id < t_next t;
  timers_next : 0 <= t_next t;
}.

(** Outputs that cast no vote: neither a PREPARE or COMMIT message nor a block
    handed over for insertion. *)
Definition no_vote (o : Output B) : Prop :=
  match o with
  | OBroadcast _ (MPrepare _) _ | OBroadcast _ (MCommit _) _ | OCommit _ _ _ _ => False
  | _ => True
  end.

(** ** The backlog *)

Lemma backlog_ok_empty : backlog_ok ∅ ∅.
Proof. intros src. by rewrite !lookup_empty. Qed.

Lemma Permutation_keys (q q' : list (WBFTMessage B * Z)) :
  q ≡ₚ q' -> msg_key <$> q.*1 ≡ₚ msg_key <$> q'.*1.
Proof. by intros ->. Qed.

Lemma entry_push src q ks m p :
  backlog_entry_ok src q ks -> msg_Source m = src -> msg_wf m -> msg_key m ∉ ks ->
  QSize q < maxBacklogSizePerValidator ->
  backlog_entry_ok src (Push q m p) ({[msg_key m]} ∪ ks).
Proof.
  intros [Hh Hs Hk Hn Hz] Hsrc Hwf Hfresh Hlt. pose proof (Push_perm q m p) as Hp.
  pose proof (Permutation_keys _ _ Hp) as Hpk. cbn in Hpk. split.
  - by apply Push_heap.
  - rewrite Hp. by constructor.
  - subst ks. apply set_eq. intros x. rewrite elem_of_list_to_set, Hpk. set_solver.
  - rewrite Hpk. constructor; [|done]. subst ks. by rewrite elem_of_list_to_set in Hfresh.
  - unfold QSize in *. rewrite Hp. cbn [length]. lia.
Qed.

Lemma entry_pop src q ks m p q' :
  backlog_entry_ok src q ks -> Pop q = Some (m, p, q') ->
  backlog_entry_ok src q' (ks ∖ {[msg_key m]}) /\ msg_Source m = src /\ msg_wf m /\
  msg_key m ∈ ks /\ QSize q' < maxBacklogSizePerValidator /\
  length q = S (length q').
Proof.
  intros [Hh Hs Hk Hn Hz] Hpop. destruct (Pop_Some _ _ _ _ Hh Hpop) as (Hperm & Hheap & _). pose proof (Permutation_keys _ _ Hperm) as Hpk. cbn in Hpk.
  rewrite Hpk in Hn. apply NoDup_cons in Hn as [Hnin Hn].
  rewrite Hperm in Hs. apply Forall_cons in Hs as [[Hm Hwf] Hs].
  unfold QSize in Hz. rewrite Hperm in Hz |- *. cbn in Hz. split_and!; auto.
  - split; auto; [|unfold QSize; lia]. subst ks. apply set_eq. intros x.
    rewrite elem_of_difference, !elem_of_list_to_set, Hpk, elem_of_cons, elem_of_singleton.
    split; [intros Hx; split; [by right|congruence]|naive_solver].
  - subst ks. rewrite elem_of_list_to_set, Hpk. left.
  - unfold QSize; lia.
Qed.

Lemma entry_unpop src q ks m p q' :
  backlog_entry_ok src q ks -> Pop q = Some (m, p, q') -> backlog_entry_ok src (Push q' m p) ks.
Proof.
  intros Hq Hpop. destruct (entry_pop _ _ _ _ _ _ Hq Hpop) as (Hq' & Hm & Hwf & Hk & Hz & _).
  assert (ks = {[msg_key m]} ∪ (ks ∖ {[msg_key m]})) as Heq.
  { apply set_eq. intros x. destruct (decide (x = msg_key m)); set_solver. }
  rewrite Heq. apply entry_push; auto. set_solver.
Qed.

Lemma drainBacklog_ok fuel check src q ks :
  backlog_entry_ok src q ks ->
  let '(q', ks', posted) := drainBacklog fuel check q ks in
  backlog_entry_ok src q' ks' /\ Forall (fun m => msg_Source m = src /\ msg_wf m) posted.
Proof.
  revert q ks; induction fuel as [|fuel IH]; intros q ks Hq; cbn [drainBacklog]; [done|].
  destruct (Pop q) as [[[m p] q']|] eqn:Hpop; [|done].
  destruct (entry_pop _ _ _ _ _ _ Hq Hpop) as (Hq' & Hm & Hwf & _).
  specialize (IH q' (ks ∖ {[msg_key m]}) Hq').
  destruct (drainBacklog fuel check q' (ks ∖ {[msg_key m]})) as [[q'' ks''] posted].
  destruct IH as [IH1 IH2].
  destruct (check (msg_Code m) (msg_View m)) as [[]|]; auto.
  split; [by eapply entry_unpop|done].
Qed.

Lemma backlog_ok_entry bl ks src q :
  backlog_ok bl ks -> bl !! src = Some q ->
  exists k, ks !! src = Some k /\ backlog_entry_ok src q k.
Proof. intros Hok Hq. specialize (Hok src). rewrite Hq in Hok. destruct (ks !! src); eauto. done. Qed.

(** The events posted by [processBacklog] come from members of the set. *)
Definition posted_ok (vs : ValidatorSet) (e : Validator * WBFTMessage B) : Prop :=
  msg_Source e.2 ∈ AddressList vs /\ msg_wf e.2.

Lemma processBacklogOf_ok vs check bl ks es src q :
  backlog_ok bl ks -> bl !! src = Some q -> Forall (posted_ok vs) es ->
  let '(bl', ks', es') := processBacklogOf vs check (bl, ks, es) (src, q) in
  backlog_ok bl' ks' /\ Forall (posted_ok vs) es' /\ forall src', src' <> src -> bl' !! src' = bl !! src'.
Proof.
  intros Hok Hq Hes. destruct (backlog_ok_entry _ _ _ _ Hok Hq) as (k & Hk & Hentry).
  unfold processBacklogOf. destruct (GetByAddress vs src) as [i [v|]] eqn:Hget; cbn [snd].
  - rewrite Hk. cbn [default from_option id].
    pose proof (drainBacklog_ok (length q) check src q k Hentry) as Hdrain.
    destruct (drainBacklog (length q) check q k) as [[q' k'] posted]. cbn in Hdrain. destruct Hdrain as [Hd1 Hd2].
    split_and!.
    + intros a. destruct (decide (a = src)) as [->|Hne].
      * by rewrite lookup_insert_eq, lookup_alter_eq, Hk.
      * rewrite lookup_insert_ne, lookup_alter_ne by done. apply Hok.
    + apply Forall_app. split; [done|]. rewrite Forall_fmap. eapply Forall_impl; [exact Hd2|].
      intros m [Hm Hwf]. split; [|done]. cbn. rewrite Hm.
      apply GetByAddress_Some in Hget as (Hv & _ & Hl). unfold AddressList.
      apply list_elem_of_fmap. exists v. split; [done|]. by eapply list_elem_of_lookup_2.
    + intros a Hne. by rewrite lookup_insert_ne.
  - split_and!; [|done|intros a Hne; by rewrite lookup_delete_ne]. intros a.
    destruct (decide (a = src)) as [->|Hne]; [by rewrite !lookup_delete_eq|].
    rewrite !lookup_delete_ne by done. apply Hok.
Qed.

Lemma processBacklog_fold_ok vs check (l : list (Address * list (WBFTMessage B * Z))) bl ks es :
  backlog_ok bl ks -> NoDup l.*1 -> Forall (fun e => bl !! e.1 = Some e.2) l -> Forall (posted_ok vs) es ->
  let '(bl', ks', es') := foldl (processBacklogOf vs check) (bl, ks, es) l in
  backlog_ok bl' ks' /\ Forall (posted_ok vs) es'.
Proof.
  revert bl ks es; induction l as [|[src q] l IH]; intros bl ks es Hok Hnd Hl Hes; cbn [foldl]; [done|].
  apply Forall_cons in Hl as [Hsrc Hl]. apply NoDup_cons in Hnd as [Hnin Hnd].
  pose proof (processBacklogOf_ok vs check bl ks es src q Hok Hsrc Hes) as Hstep.
  destruct (processBacklogOf vs check (bl, ks, es) (src, q)) as [[bl' ks'] es'].
  destruct Hstep as (Hok' & Hes' & Hframe). apply IH; auto.
  apply Forall_forall. intros e He. rewrite Hframe; [by rewrite Forall_forall in Hl; apply Hl|].
  intros Heq. apply Hnin. cbn. rewrite <- Heq. by apply list_elem_of_fmap_2.
Qed.

Lemma addToBacklog_ok msg s :
  msg_wf msg -> backlog_ok (c_backlogs s) (c_backlogKeys s) ->
  exists bl ks, addToBacklog msg s = set_c_backlogKeys ks (set_c_backlogs bl s) /\ backlog_ok bl ks.
Proof.
  intros Hwf Hok. unfold addToBacklog.
  assert (s = set_c_backlogKeys (c_backlogKeys s) (set_c_backlogs (c_backlogs s) s)) as Hid by by destruct s.
  case_bool_decide; [eauto|].
  assert (forall q ks, backlog_entry_ok (msg_Source msg) q ks -> msg_key msg ∉ ks ->
    QSize q < maxBacklogSizePerValidator ->
    backlog_ok (<[msg_Source msg := Push q msg (toNegatePriority (msg_Code msg) (msg_View msg))]> (c_backlogs s))
      (<[msg_Source msg := {[msg_key msg]} ∪ ks]> (c_backlogKeys s))) as Hpush.
  { intros q ks He Hfresh Hlt src. destruct (decide (src = msg_Source msg)) as [->|Hne].
    - rewrite !lookup_insert_eq. by apply entry_push.
    - rewrite !lookup_insert_ne by done. apply Hok. }
  specialize (Hok (msg_Source msg)) as Hsrc.
  destruct (c_backlogs s !! msg_Source msg) as [q|], (c_backlogKeys s !! msg_Source msg) as [ks|]; try done.
  - cbn [default from_option id]. case_bool_decide; [eauto|].
    destruct (Z.leb_spec maxBacklogSizePerValidator (QSize q)); [eauto|]. eauto 6.
  - eexists _, _. split; [done|]. apply Hpush; [|set_solver|done].
    split; [apply heap_nil|constructor|done|constructor|done].
Qed.

(** * Weakest preconditions of the subroutines *)

Lemma wp_when b (m : GoM (Core B) (Output B) unit) s Q :
  wp (when b m) s Q <-> if b then wp m s Q else Q tt s [].
Proof. by destruct b. Qed.

Lemma wp_current s r (Q : roundState B -> Core B -> list (Output B) -> Prop) :
  c_current s = Some r -> Q r s [] -> wp current s Q.
Proof. intros Hr HQ. unfold current. wp_simpl. rewrite Hr. done. Qed.

Lemma wp_valSet s vs (Q : ValidatorSet -> Core B -> list (Output B) -> Prop) :
  c_valSet s = Some vs -> Q vs s [] -> wp valSet s Q.
Proof. intros Hr HQ. unfold valSet. wp_simpl. rewrite Hr. done. Qed.

Lemma wp_modify_current f s r (Q : unit -> Core B -> list (Output B) -> Prop) :
  c_current s = Some r -> Q tt (set_c_current (Some (f r)) s) [] -> wp (modify_current f) s Q.
Proof. intros Hr HQ. unfold modify_current. wp_simpl. eapply wp_current; [done|]. done. Qed.

Lemma wp_currentView s r (Q : View -> Core B -> list (Output B) -> Prop) :
  c_current s = Some r -> Q (rs_view r) s [] -> wp currentView s Q.
Proof. intros Hr HQ. unfold currentView. wp_simpl. eapply wp_current; [done|]. done. Qed.

(** The state after a subroutine that only touches the queues. *)
Definition with_queues (p : list (Request B * Z)) (bl : gmap Address (list (WBFTMessage B * Z)))
  (ks : gmap Address (gset backlogKey)) s : Core B :=
  set_c_backlogKeys ks (set_c_backlogs bl (set_c_pendingRequests p s)).

Lemma with_queues_id s : s = with_queues (c_pendingRequests s) (c_backlogs s) (c_backlogKeys s) s.
Proof. by destruct s. Qed.

Lemma Forall_no_vote {A} (f : A -> Output B) l : (forall x, no_vote (f x)) -> Forall no_vote (f <$> l).
Proof. intros Hf. apply Forall_fmap, Forall_forall. auto. Qed.

Lemma wp_processPendingRequests s (Q : unit -> Core B -> list (Output B) -> Prop) :
  (forall p es, Forall no_vote es -> Q tt (set_c_pendingRequests p s) es) ->
  wp processPendingRequests s Q.
Proof.
  intros HQ. unfold processPendingRequests. wp_simpl.
  destruct (drainRequests _ _ _) as [q posted]. wp_simpl. by apply HQ, Forall_no_vote.
Qed.

Lemma wp_processBacklog s vs r (Q : unit -> Core B -> list (Output B) -> Prop) :
  c_valSet s = Some vs -> c_current s = Some r ->
  (forall bl ks es, (backlog_ok (c_backlogs s) (c_backlogKeys s) -> backlog_ok bl ks) ->
     Forall no_vote es -> Q tt (set_c_backlogKeys ks (set_c_backlogs bl s)) es) ->
  wp processBacklog s Q.
Proof.
  intros Hvs Hr HQ. unfold processBacklog. wp_simpl.
  destruct (range (c_backlogs s)) as [|e l] eqn:Hrange.
  - wp_simpl. specialize (HQ (c_backlogs s) (c_backlogKeys s) []). by destruct s; apply HQ.
  - rewrite <- Hrange. wp_simpl. eapply wp_valSet; [done|]. wp_simpl. eapply wp_currentView; [done|].
    set (check := checkMessage _ _ _).
    pose proof (processBacklog_fold_ok vs check (range (c_backlogs s)) (c_backlogs s)
      (c_backlogKeys s) []) as Hfold.
    destruct (foldl _ _ _) as [[bl ks] es]. wp_simpl. apply HQ.
    + intros Hok. apply Hfold; auto; [apply NoDup_range_fst|]. apply Forall_forall.
      intros [a q] Ha. by apply elem_of_range.
    + apply Forall_no_vote. by intros [].
Qed.

Lemma wp_setState s st vs r (Q : unit -> Core B -> list (Output B) -> Prop) :
  c_valSet s = Some vs -> c_current s = Some r ->
  (forall p bl ks es, (backlog_ok (c_backlogs s) (c_backlogKeys s) -> backlog_ok bl ks) ->
     Forall no_vote es -> Q tt (with_queues p bl ks (set_c_state st s)) es) ->
  wp (setState st) s Q.
Proof.
  intros Hvs Hr HQ. unfold setState. wp_simpl.
  assert (wp (when (negb (bool_decide (c_state s = st))) (modify (set_c_state st))) s
    (fun _ s' es => s' = set_c_state st s /\ es = [])) as Hset.
  { rewrite wp_when. case_bool_decide as Hst; cbn; [|done]. split; [|done]. rewrite <- Hst. by destruct s. }
  eapply wp_mono; [exact Hset|]. intros [] s' es [-> ->]. clear Hset. wp_simpl.
  assert (forall Q', (forall p es, Forall no_vote es -> Q' tt (set_c_pendingRequests p (set_c_state st s)) es) ->
    wp (when (bool_decide (st = StateAcceptRequest)) processPendingRequests) (set_c_state st s) Q') as Hreq.
  { intros Q' HQ'. rewrite wp_when. case_bool_decide.
    - by apply wp_processPendingRequests.
    - specialize (HQ' (c_pendingRequests s) []). by destruct s; apply HQ'. }
  apply Hreq. intros p es Hes. wp_simpl. eapply wp_processBacklog; [done..|].
  intros bl ks es' Hok Hes'. apply HQ; [done|]. solve_outputs.
Qed.

(** ** Timers *)

Lemma timers_ok_start t rc' retry fut :
  timers_ok t -> timers_ok (mkTimers (t_next t) (t_lastSent t) (t_canceled t) rc' retry fut).
Proof. by intros []; split. Qed.

Lemma timers_ok_new t retry fut :
  timers_ok t ->
  timers_ok (mkTimers (t_next t + 1) (Some (t_next t))
    (match t_lastSent t with Some id => {[id]} ∪ t_canceled t | None => t_canceled t end) true retry fut).
Proof.
  intros [Hl Hnone Hc Hf Hn]. split; cbn; [intros id [= <-]; lia|done| | |lia].
  - intros id Hid Hne. destruct (t_lastSent t) as [id'|] eqn:Hlast.
    + specialize (Hl id' eq_refl). assert (id <> t_next t) by congruence.
      destruct (decide (id = id')) as [->|]; [set_solver|].
      apply elem_of_union_r, Hc; [lia|congruence].
    + specialize (Hnone eq_refl). assert (id <> t_next t) by congruence. lia.
  - intros id. destruct (t_lastSent t) as [id'|].
    + specialize (Hl id' eq_refl). intros [->%elem_of_singleton|?%Hf]%elem_of_union; lia.
    + intros ?%Hf. lia.
Qed.

Lemma wp_newRoundChangeTimer seq round s (Q : unit -> Core B -> list (Output B) -> Prop) :
  (forall t es, (timers_ok (c_timers s) -> timers_ok t) -> Forall no_vote es ->
     Q tt (set_c_timers t s) es) ->
  wp (newRoundChangeTimer seq round) s Q.
Proof.
  intros HQ. unfold newRoundChangeTimer, stopTimer, stopFuturePreprepareTimer,
    stopRetrySendingRoundChangeTimer, stopRoundChangeTimer, cancelLastSentTimeout, set_timers.
  autorewrite with gowp; rewrite wp_when. destruct (t_futurePreprepare (c_timers s));
  autorewrite with gowp; rewrite wp_when; destruct (t_retry (c_timers s)) eqn:Hre;
  autorewrite with gowp; rewrite wp_when; destruct (t_roundChange (c_timers s));
  autorewrite with gowp; apply HQ;
  try (by repeat constructor); intros Ht; pose proof (timers_ok_new _ (t_retry (c_timers s))
    (t_futurePreprepare (c_timers s)) Ht) as Hnew; cbn;
  destruct (t_lastSent (c_timers s)); cbn; by rewrite ?Hre in Hnew |- *.
Qed.

Lemma wp_newRetryTimer s (Q : unit -> Core B -> list (Output B) -> Prop) :
  (forall t es, (timers_ok (c_timers s) -> timers_ok t) -> Forall no_vote es ->
     Q tt (set_c_timers t s) es) ->
  wp newRetrySendingRoundChangeTimer s Q.
Proof.
  intros HQ. unfold newRetrySendingRoundChangeTimer, stopRetrySendingRoundChangeTimer, set_timers.
  wp_simpl. destruct (c_current s) as [r|].
  - autorewrite with gowp. rewrite wp_when. destruct (t_retry (c_timers s)); autorewrite with gowp;
      (apply HQ; [apply timers_ok_start|by repeat constructor]).
  - wp_simpl. specialize (HQ (c_timers s) []). by destruct s; apply HQ.
Qed.
End specs.
