(* ===== verification/CoreInvariant.v ===== *)
(** The invariant of the WBFT core and its preservation by every handler: what
    the accumulated messages, the prepared certificate and the state of the
    round mean, and in which situations the core casts a vote.

    [startNewRound] and the ROUND-CHANGE messages
    ([src/consensus/wbft/core/core.go], [roundchange.go]): the invariant is
    preserved and the view only moves forward. *)
From S2P Require Import Prelude Validators Prque Messages Config Justification RoundChangeSet CoreState CoreLogic CoreHandlers CoreSpecs.

(** The hypotheses of the invariant under fixed names. *)
Ltac open_inv H := destruct H as [Hcur HvalSet Hrcs Hkeys Hvs Hprop Hri Hprior Hbl Htm Hxp Hxc].

Section invariant.
Context `{MapOrder} {B : Type} `{Proposal B} `{Crypto} `{Codec B}.
Implicit Types (s : Core B) (r : roundState B) (vs : ValidatorSet).

(** * The invariant *)

(** [seal] is a valid seal of validator [a] on block [b] for [round]. *)
Definition valid_seal vs (b : B) (round : Z) (st : SealType) (seal : bytes) (a : Address) : Prop :=
  exists v, snd (GetByAddress vs a) = Some v /\
    verifySealOf v b (u32 (big_Uint64 round)) st seal = None.

Definition prepare_ok vs (view : View) (b : B) (p : Prepare) : Prop :=
  pr_View p = view /\ pr_Digest p = BHash b /\
  valid_seal vs b (pr_Round p) SealTypePrepare (pr_PrepareSeal p) (pr_source p).

Definition commit_ok vs (view : View) (b : B) (p : Commit) : Prop :=
  cm_View p = view /\ cm_Digest p = BHash b /\
  valid_seal vs b (cm_Round p) SealTypeCommit (cm_CommitSeal p) (cm_source p).

(** The PRE-PREPARE message that the round accepted. *)
Definition accepted vs (view : View) (pp : Preprepare B) : Prop :=
  cp_View (pp_common pp) = view /\ Number (pp_Proposal pp) = v_Sequence view /\
  IsProposer vs (cp_source (pp_common pp)) = true /\
  (0 < big_Uint64 (v_Round view) ->
   isJustified (pp_Proposal pp) view (pp_JustificationRoundChanges pp)
     (pp_JustificationPrepares pp) (QuorumSize vs) = None).

(** A prepared certificate: PREPARE messages of a quorum for block [b] in round [pr]. *)
Definition certificate vs (view : View) (b : B) (ps : list Prepare) : Prop :=
  NoDup (pr_source <$> ps) /\ QuorumSize vs <= Z.of_nat (length ps) /\
  forall p, p ∈ ps -> prepare_ok vs view b p.

Record round_inv (st : State) vs r (ps : list Prepare) : Prop := {
  ri_idle : st = StateAcceptRequest -> rs_WBFTPrepares r = ∅ /\ rs_WBFTCommits r = ∅;
  ri_accepted : st <> StateAcceptRequest ->
    exists pp, rs_Preprepare r = Some pp /\ accepted vs (rs_view r) pp /\
      msgSet_ok pr_source (prepare_ok vs (rs_view r) (pp_Proposal pp)) (rs_WBFTPrepares r) /\
      msgSet_ok cm_source (commit_ok vs (rs_view r) (pp_Proposal pp)) (rs_WBFTCommits r);
  ri_prepared : st = StatePrepared \/ st = StateCommitted ->
    exists b, rs_Proposal r = Some b /\ rs_preparedBlock r = Some b /\
      rs_preparedRound r = Some (rs_round r) /\ QuorumSize vs <= msgSet_Size (rs_WBFTPrepares r);
  ri_committed : st = StateCommitted -> QuorumSize vs <= msgSet_Size (rs_WBFTCommits r);
  ri_lock : forall pr, rs_preparedRound r = Some pr ->
    0 <= pr <= rs_round r /\
    exists b, rs_preparedBlock r = Some b /\ certificate vs (mkView pr (rs_sequence r)) b ps;
  ri_nolock : rs_preparedRound r = None -> rs_preparedBlock r = None;
  ri_round : 0 <= rs_round r;
}.

Definition prior_ok (p : priorState B) : Prop :=
  is_Some (ps_proposal p) -> is_Some (ps_validatorSet p).

(** Rounds are indexed by 64-bit keys. *)
Definition rcs_keys_ok (rcs : roundChangeSet B) : Prop :=
  forall k, is_Some (roundChanges rcs !! k) -> 0 <= k < 2 ^ 64.

(** An extra seal was verified on a block with its digest. *)
Definition extra_prepare_ok (p : Prepare) : Prop :=
  exists vs b, pr_Digest p = BHash b /\
    valid_seal vs b (pr_Round p) SealTypePrepare (pr_PrepareSeal p) (pr_source p).
Definition extra_commit_ok (p : Commit) : Prop :=
  exists vs b, cm_Digest p = BHash b /\
    valid_seal vs b (cm_Round p) SealTypeCommit (cm_CommitSeal p) (cm_source p).

(** The invariant of a running core, in the current round [r] with validators [vs]. *)
Record inv_at s r vs (rcs : roundChangeSet B) : Prop := {
  inv_current : c_current s = Some r;
  inv_valSet : c_valSet s = Some vs;
  inv_rcs : c_roundChangeSet s = Some rcs;
  inv_rcs_keys : rcs_keys_ok rcs;
  inv_vs : valset_ok vs;
  inv_proposer : exists p, GetProposer vs = Some p /\ p ∈ vs_validators vs;
  inv_round : round_inv (c_state s) vs r (c_preparedPrepares s);
  inv_prior : prior_ok (c_priorState s);
  inv_backlog : backlog_ok (c_backlogs s) (c_backlogKeys s);
  inv_timers : timers_ok (c_timers s);
  inv_xprepare : msgSet_ok pr_source extra_prepare_ok (c_prepareExtraSeals s);
  inv_xcommit : msgSet_ok cm_source extra_commit_ok (c_commitExtraSeals s);
}.

Definition core_inv s : Prop := exists r vs rcs, inv_at s r vs rcs.

(** What the core relies on: the chain has a head and its validator sets are
    well formed. *)
Definition backend_ok (be : Backend B) : Prop :=
  is_Some (fst (be_LastProposal be)) /\ forall b, valset_ok (be_Validators be b).

(** * Votes and progress *)

Inductive Vote :=
  | VPrepare (v : View) (digest : Hash)
  | VCommit (v : View) (digest : Hash)
  | VBlock (proposal : B) (committedSeals : list SealData) (round : Z).

Definition vote_of (o : Output B) : option Vote :=
  match o with
  | OBroadcast _ (MPrepare p) _ => Some (VPrepare (pr_View p) (pr_Digest p))
  | OBroadcast _ (MCommit p) _ => Some (VCommit (cm_View p) (cm_Digest p))
  | OCommit b _ cs round => Some (VBlock b cs round)
  | _ => None
  end.

Definition votes (es : list (Output B)) : list Vote := omap vote_of es.

Lemma votes_app es es' : votes (es ++ es') = votes es ++ votes es'.
Proof. apply omap_app. Qed.

Lemma votes_none es : Forall no_vote es -> votes es = [].
Proof.
  induction 1 as [|o es Ho _ IH]; [done|]. unfold votes in *. cbn. rewrite IH.
  by destruct o as [? []| | | | | | | | | | |].
Qed.

(** The view never goes back, and the state never does within a view. *)
Definition progress s s' : Prop :=
  match c_current s, c_current s' with
  | Some r, Some r' =>
      view_lt (rs_view r) (rs_view r') \/
      (rs_view r = rs_view r' /\ State_num (c_state s) <= State_num (c_state s'))
  | None, _ => True
  | Some _, None => False
  end.

(** The committed seals handed over with block [b]: a quorum of different
    validators of [vs], each with a valid seal for the block and the round. *)
Definition committed_ok vs (b : B) (round : Z) (cs : list SealData) : Prop :=
  QuorumSize vs <= Z.of_nat (length cs) /\ NoDup (sd_Sealer <$> cs) /\
  forall sd, sd ∈ cs -> exists v seal,
    vs_validators vs !! Z.to_nat (sd_Sealer sd) = Some v /\
    verifySealOf v b (u32 (big_Uint64 round)) SealTypeCommit seal = None /\
    sd_Seal sd = copySeal seal.

(** [s] goes to [s'] in the same view, from state [st] to state [st'], with [b]
    the proposal of the round. *)
Definition moves s s' (st st' : State) (v : View) (b : B) : Prop :=
  exists r r', c_current s = Some r /\ c_current s' = Some r' /\
    rs_view r = v /\ rs_view r' = v /\ c_state s = st /\ c_state s' = st' /\ rs_Proposal r' = Some b.

(** The only situations in which votes are cast, and which. *)
Inductive vote_step s s' : list Vote -> Prop :=
  | vote_nothing : vote_step s s' []
  | vote_prepare v b : moves s s' StateAcceptRequest StatePreprepared v b ->
      vote_step s s' [VPrepare v (BHash b)]
  | vote_commit v b : moves s s' StatePreprepared StatePrepared v b ->
      vote_step s s' [VCommit v (BHash b)]
  | vote_block v b cs vs : moves s s' StatePrepared StateCommitted v b ->
      c_valSet s' = Some vs -> Number b = v_Sequence v -> committed_ok vs b (v_Round v) cs ->
      vote_step s s' [VBlock b cs (v_Round v)].

Record step_ok s s' (es : list (Output B)) : Prop := {
  so_inv : core_inv s';
  so_progress : progress s s';
  so_votes : vote_step s s' (votes es);
}.

Lemma progress_refl s : progress s s.
Proof. unfold progress. destruct (c_current s); [right; split; [done|lia]|done]. Qed.

Lemma progress_same s s' :
  c_current s = c_current s' -> c_state s = c_state s' -> progress s s'.
Proof. intros Hc Hs. unfold progress. rewrite Hc, Hs. destruct (c_current s'); [right; split; [done|lia]|done]. Qed.

#[global] Instance progress_trans : Transitive progress.
Proof.
  intros s1 s2 s3. unfold progress. destruct (c_current s1) as [r1|]; [|done].
  destruct (c_current s2) as [r2|]; [|done]. destruct (c_current s3) as [r3|]; [|done].
  unfold view_lt. destruct (rs_view r1), (rs_view r2), (rs_view r3); cbn.
  intros [?|[[= -> ->] ?]] [?|[[= -> ->] ?]]; [left; lia|left; lia|left; lia|right; split; [done|lia]].
Qed.

Lemma step_ok_quiet s s' es :
  core_inv s' -> progress s s' -> Forall no_vote es -> step_ok s s' es.
Proof. intros ?? Hes. split; [done..|]. rewrite (votes_none _ Hes). constructor. Qed.

(** * Preservation *)

Lemma inv_queues s r vs rcs p bl ks :
  inv_at s r vs rcs -> (backlog_ok (c_backlogs s) (c_backlogKeys s) -> backlog_ok bl ks) ->
  inv_at (with_queues p bl ks s) r vs rcs.
Proof. intros [] Hb. split; auto. Qed.

Lemma inv_timer s r vs rcs t :
  inv_at s r vs rcs -> (timers_ok (c_timers s) -> timers_ok t) -> inv_at (set_c_timers t s) r vs rcs.
Proof. intros [] Ht. split; auto. Qed.

Lemma inv_core s r vs rcs : inv_at s r vs rcs -> core_inv s.
Proof. unfold core_inv; eauto. Qed.

(** ** Extra seals *)

Section extra.
Context {M : Type} (src : M -> Address) (view : M -> View) (P : M -> Prop).

Lemma addNewer_ok seals m : msgSet_ok src P seals -> P m -> msgSet_ok src P (addNewer src view seals m).
Proof.
  intros Hs Hm. unfold addNewer. destruct (seals !! src m); [destruct (View_Cmp _ _)|]; auto;
    by apply (msgSet_ok_Add src P).
Qed.

Lemma addNewer_foldl_ok l seals :
  msgSet_ok src P seals -> Forall P l -> msgSet_ok src P (foldl (addNewer src view) seals l).
Proof.
  revert seals; induction l as [|m l IH]; intros seals Hs Hl; [done|].
  apply Forall_cons in Hl as [Hm Hl]. apply IH; [|done]. by apply addNewer_ok.
Qed.

Lemma filter_msgSet_ok (Q : Address * M -> Prop) `{forall x, Decision (Q x)} (seals : gmap Address M) :
  msgSet_ok src P seals -> msgSet_ok src P (filter Q seals).
Proof. intros Hs a m [Hm _]%map_lookup_filter_Some. by apply Hs. Qed.
End extra.

Lemma addEffective_foldl s lp lc :
  foldl (fun c m => addToCommitExtraSeal m c) (foldl (fun c m => addToPrepareExtraSeal m c) s lp) lc =
  set_c_commitExtraSeals (foldl (addNewer cm_source cm_View) (c_commitExtraSeals s) lc)
    (set_c_prepareExtraSeals (foldl (addNewer pr_source pr_View) (c_prepareExtraSeals s) lp) s).
Proof.
  revert s; induction lp as [|m lp IH]; intros s; cbn [foldl]; [|by rewrite IH].
  revert s; induction lc as [|m lc IH]; intros s; cbn [foldl]; [by destruct s|]. by rewrite IH.
Qed.

Lemma addEffective_frame s :
  c_current (addEffectiveSealToExtraSeal s) = c_current s /\ c_valSet (addEffectiveSealToExtraSeal s) = c_valSet s /\
  c_priorState (addEffectiveSealToExtraSeal s) = c_priorState s /\ c_backlogs (addEffectiveSealToExtraSeal s) = c_backlogs s.
Proof. unfold addEffectiveSealToExtraSeal. destruct (c_current s) eqn:Hc; [|done]. by rewrite addEffective_foldl. Qed.

Lemma seals_of_round s r vs rcs :
  inv_at s r vs rcs ->
  Forall extra_prepare_ok (msgSet_Values (rs_WBFTPrepares r)) /\
  Forall extra_commit_ok (msgSet_Values (rs_WBFTCommits r)).
Proof.
  intros []. destruct (decide (c_state s = StateAcceptRequest)) as [Hst|Hst].
  - destruct (ri_idle _ _ _ _ inv_round0 Hst) as [-> ->]. unfold msgSet_Values.
    rewrite !range_empty. split; apply Forall_nil_2.
  - destruct (ri_accepted _ _ _ _ inv_round0 Hst) as (pp & _ & _ & Hp & Hc).
    split; apply Forall_forall; intros m Hm.
    + destruct (msgSet_ok_Values _ _ _ _ Hp Hm) as (_ & ? & ?). exists vs, (pp_Proposal pp); auto.
    + destruct (msgSet_ok_Values _ _ _ _ Hc Hm) as (_ & ? & ?). exists vs, (pp_Proposal pp); auto.
Qed.

Lemma addEffective_spec s r vs rcs :
  inv_at s r vs rcs ->
  exists xp xc, addEffectiveSealToExtraSeal s = set_c_commitExtraSeals xc (set_c_prepareExtraSeals xp s) /\
    msgSet_ok pr_source extra_prepare_ok xp /\ msgSet_ok cm_source extra_commit_ok xc.
Proof.
  intros Hinv. destruct (seals_of_round _ _ _ _ Hinv) as [Hp Hc]. destruct Hinv.
  unfold addEffectiveSealToExtraSeal. rewrite inv_current0. rewrite addEffective_foldl.
  eexists _, _. split; [done|]. split; by apply addNewer_foldl_ok.
Qed.

(** ** Round-change sets *)

Lemma NewRound_keys rcs round : rcs_keys_ok rcs -> rcs_keys_ok (RCS_NewRound rcs round).
Proof.
  intros Hk k. unfold RCS_NewRound; cbn. destruct (roundChanges rcs !! big_Uint64 round) eqn:Hr; [apply Hk|].
  intros Hs. destruct (decide (k = big_Uint64 round)) as [->|Hne]; [apply u64_range|].
  rewrite lookup_insert_ne in Hs by done. by apply Hk.
Qed.

Lemma Add_keys rcs round m p ps q : rcs_keys_ok rcs -> rcs_keys_ok (RCS_Add rcs round m p ps q).
Proof.
  intros Hk k. unfold RCS_Add.
  assert (is_Some (<[big_Uint64 round := msgSet_Add rc_source
    (default ∅ (roundChanges rcs !! big_Uint64 round)) m]> (roundChanges rcs) !! k) -> 0 <= k < 2 ^ 64).
  { intros Hs. destruct (decide (k = big_Uint64 round)) as [->|Hne]; [apply u64_range|].
    rewrite lookup_insert_ne in Hs by done. by apply Hk. }
  destruct p as [[pr pb]|]; [|done]. cbn [roundChanges highestPreparedRound].
  by repeat case_match.
Qed.

Lemma ClearLowerThan_keys rcs round : rcs_keys_ok rcs -> rcs_keys_ok (ClearLowerThan rcs round).
Proof.
  intros Hk k [ms Hms]. destruct (ClearLowerThan_lookup rcs round k) as [Hst Hns].
  apply Hk. destruct (decide (roundChanges rcs !! k = None)) as [Hn|Hn].
  - destruct Hns as [Heq _]; [unfold stale; rewrite Hn; tauto|]. rewrite Heq in Hms. congruence.
  - by apply not_eq_None_Some.
Qed.

Lemma newRoundChangeSet_keys : rcs_keys_ok newRoundChangeSet.
Proof. intros k [? Hk]. unfold newRoundChangeSet in Hk. cbn in Hk. by rewrite lookup_empty in Hk. Qed.

Lemma Z_mod_eq_sub a b : 0 < b -> b <= a < 2 * b -> a mod b = a - b.
Proof. intros Hb Ha. symmetry. apply (Z.mod_unique a b 1); lia. Qed.

Lemma getMinRoundChange_fresh rcs round :
  rcs_keys_ok rcs -> 0 <= round -> 0 < higherRoundMessages rcs round ->
  getMinRoundChange rcs round <> round /\ getMinRoundChange rcs round < 2 ^ 64.
Proof.
  intros Hk Hr Hnum. unfold higherRoundMessages in Hnum.
  destruct (set_choose_or_empty (higherRoundAddresses rcs round)) as [[a Ha]|He];
    [|rewrite He, size_empty in Hnum; lia].
  apply elem_of_higherRoundAddresses in Ha as (k0 & rms & Hk0 & Hlt & _).
  unfold getMinRoundChange. set (keys := fmap _ _). pose proof (head_merge_sort_spec keys) as Hhead.
  destruct (sorting.merge_sort Z.le keys) as [|k ks].
  - assert (i64 k0 ∈ keys) as Hin; [|rewrite Hhead in Hin; by apply not_elem_of_nil in Hin].
    apply list_elem_of_fmap. exists k0. split; [done|]. apply list_elem_of_filter.
    split; [by apply Z.ltb_lt|]. apply list_elem_of_fmap. exists (k0, rms). split; [done|].
    by apply elem_of_range.
  - destruct Hhead as [(k1 & -> & [Hk1%Z.ltb_lt Hin]%list_elem_of_filter)%list_elem_of_fmap _].
    apply list_elem_of_fmap in Hin as ([? ms] & -> & Hin%elem_of_range). cbn in *.
    specialize (Hk z ltac:(eauto)). unfold big_Uint64 in Hk1. rewrite Z.abs_eq in Hk1 by lia.
    pose proof (i64_range z). split; [|lia]. intros Heq. destruct (Z.lt_ge_cases z (2 ^ 63)).
    + rewrite i64_small in Heq by lia. subst. rewrite u64_small in Hk1 by lia. lia.
    + unfold i64 in Heq. rewrite (Z_mod_eq_sub (z + 2 ^ 63) (2 ^ 64)) in Heq by lia. lia.
Qed.
End invariant.

Section rounds.
Context `{MapOrder} {B : Type} `{Proposal B} `{Crypto} `{Codec B} (be : Backend B).
Implicit Types (s : Core B) (r : roundState B) (vs : ValidatorSet).

(** A state in which the round [r] has just been installed. *)
Record fresh_round (round : Z) s r vs : Prop := {
  fr_current : c_current s = Some r;
  fr_valSet : c_valSet s = Some vs;
  fr_vs : valset_ok vs;
  fr_rcs : big_Uint64 round <> 0 -> exists rcs, c_roundChangeSet s = Some rcs /\ rcs_keys_ok rcs;
  fr_round : round_inv StateAcceptRequest vs r
    (if big_Uint64 round =? 0 then [] else c_preparedPrepares s);
  fr_prior : prior_ok (c_priorState s);
  fr_backlog : backlog_ok (c_backlogs s) (c_backlogKeys s);
  fr_timers : timers_ok (c_timers s);
  fr_xprepare : msgSet_ok pr_source extra_prepare_ok (c_prepareExtraSeals s);
  fr_xcommit : msgSet_ok cm_source extra_commit_ok (c_commitExtraSeals s);
}.

Lemma fresh_queues round s r vs p bl ks st :
  fresh_round round s r vs -> (backlog_ok (c_backlogs s) (c_backlogKeys s) -> backlog_ok bl ks) ->
  fresh_round round (with_queues p bl ks (set_c_state st s)) r vs.
Proof. intros [] Hb. split; auto. Qed.

Lemma round_inv_CalcProposer vs r ps lp n :
  round_inv StateAcceptRequest vs r ps -> round_inv StateAcceptRequest (CalcProposer vs lp n) r ps.
Proof. intros []. split; auto; done || by intros [|]. Qed.

(** The end of [startNewRound]. *)
Lemma wp_startNewRound_rcs round last s r vs (Q : unit -> Core B -> list (Output B) -> Prop) :
  fresh_round round s r vs -> c_state s = StateAcceptRequest ->
  (exists p, GetProposer vs = Some p /\ p ∈ vs_validators vs) ->
  (forall s' rcs, inv_at s' r vs rcs -> c_state s' = StateAcceptRequest -> Q tt s' []) ->
  wp (startNewRound_rcs round (Some last)) s Q.
Proof.
  intros [Hc Hv Hok Hrcs Hri Hprior Hbl Htm Hxp Hxc] Hst Hp HQ. unfold startNewRound_rcs. wp_simpl.
  destruct (Z.eqb_spec (big_Uint64 round) 0) as [Hz|Hnz]; wp_simpl.
  - eapply HQ; [|done]. split; cbn; auto using filter_msgSet_ok.
    + apply NewRound_keys, newRoundChangeSet_keys.
    + by rewrite Hst.
  - destruct (Hrcs Hnz) as (rcs & Hrcs' & Hk). rewrite Hrcs'. wp_simpl.
    eapply HQ; [|done]. split; cbn; auto.
    + by apply NewRound_keys, ClearLowerThan_keys.
    + by rewrite Hst.
Qed.

(** From the installation of the new round to its timer. *)
Definition startNewRound_tail (round : Z) (last : B) (lastProposer : Address) (newView : View)
  : GoM (Core B) (Output B) unit :=
  vs ← valSet;
  modify (set_c_valSet (Some (CalcProposer vs lastProposer (big_Uint64 (v_Round newView)))));;
  setState StateAcceptRequest;;
  startNewRound_rcs round (Some last);;
  emit (ONotifyNewRound round);;
  r ← current;
  newRoundChangeTimer (rs_sequence r) (rs_round r).

Lemma wp_startNewRound_tail round last lp view s r vs (Q : unit -> Core B -> list (Output B) -> Prop) :
  fresh_round round s r vs ->
  (forall s' vs' rcs es, inv_at s' r vs' rcs -> c_state s' = StateAcceptRequest -> Forall no_vote es -> Q tt s' es) ->
  wp (startNewRound_tail round last lp view) s Q.
Proof.
  intros Hfr HQ. unfold startNewRound_tail. wp_simpl. eapply wp_valSet; [by destruct Hfr|]. wp_simpl.
  set (vs' := CalcProposer _ _ _).
  assert (fresh_round round (set_c_valSet (Some vs') s) r vs') as Hfr'.
  { destruct Hfr. split; auto; [by apply CalcProposer_ok|by apply round_inv_CalcProposer]. }
  eapply wp_setState; [done|by destruct Hfr|]. intros p bl ks es Hb Hes.
  wp_simpl. eapply wp_startNewRound_rcs; [by apply fresh_queues|done|exact (selector_member vs lp _ (fr_vs _ _ _ _ Hfr))|].
  intros s' rcs Hinv Hst. wp_simpl. eapply wp_current; [by destruct Hinv|].
  apply wp_newRoundChangeTimer. intros t es' Ht Hes'. eapply HQ; [by apply inv_timer|done|].
  solve_outputs.
Qed.

Lemma newRoundState_inv vs (view : View) pp ps :
  0 <= v_Round view -> round_inv StateAcceptRequest vs (newRoundState view pp None None None) ps.
Proof. intros Hv. split; cbn; try done. by intros []. Qed.

(** Installing a round of the same sequence. *)
Lemma wp_updateRoundState_roundChange s r vs rcs round (Q : unit -> Core B -> list (Output B) -> Prop) :
  inv_at s r vs rcs -> rs_round r < round < 2 ^ 64 ->
  (forall s' r', fresh_round round s' r' vs -> rs_view r' = mkView round (rs_sequence r) -> Q tt s' []) ->
  wp (updateRoundState be (Some vs) (mkView round (rs_sequence r)) true) s Q.
Proof.
  intros Hinv Hround HQ. open_inv Hinv. unfold updateRoundState. wp_simpl. rewrite Hcur.
  pose proof (ri_round _ _ _ _ Hri) as Hr0.
  assert (big_Uint64 round =? 0 = false) as Hnz by (apply Z.eqb_neq; rewrite big_Uint64_small; lia).
  assert (forall s' pr pb, c_preparedPrepares s' = c_preparedPrepares s ->
    c_roundChangeSet s' = Some rcs -> c_priorState s' = c_priorState s ->
    c_backlogs s' = c_backlogs s -> c_backlogKeys s' = c_backlogKeys s -> c_timers s' = c_timers s ->
    msgSet_ok pr_source extra_prepare_ok (c_prepareExtraSeals s') ->
    msgSet_ok cm_source extra_commit_ok (c_commitExtraSeals s') ->
    (pr = rs_preparedRound r /\ pb = rs_preparedBlock r \/ pr = None /\ pb = None) ->
    Q tt (set_c_valSet (Some vs) (set_c_current (Some (newRoundState (mkView round (rs_sequence r))
      (rs_Preprepare r) pr pb (rs_pendingRequest r))) s')) []) as Hdone.
  { intros s' pr pb Hps Hrcs' Hpr Hbl' Hbk Ht Hxp' Hxc' Hcase.
    eapply (HQ _ (newRoundState (mkView round (rs_sequence r)) (rs_Preprepare r) pr pb _)); [|done].
    split; cbn; rewrite ?Hps, ?Hpr, ?Hbl', ?Hbk, ?Ht, ?Hnz; eauto. destruct Hri as [_ _ _ _ Hlock Hnolock _].
    split; cbn; try done; [by intros []|..|lia].
    - destruct Hcase as [[-> ->]|[-> _]]; [|done]. intros pr Hpr'.
      destruct (Hlock _ Hpr') as [? (b & Hb & Hc)]. split; [lia|eauto].
    - destruct Hcase as [[-> ->]|[_ ->]]; done. }
  destruct (rs_preparedBlock r) as [b|] eqn:Hpb.
  - destruct (be_HasBadProposal be (BHash b)); wp_simpl.
    + eapply wp_modify_current; [done|]. wp_simpl. eapply wp_modify_current; [done|]. wp_simpl.
      apply Hdone; cbn; auto using filter_msgSet_ok.
    + eapply wp_modify_current; [done|]. wp_simpl. apply Hdone; auto.
  - wp_simpl. eapply wp_modify_current; [done|]. wp_simpl. apply Hdone; auto.
Qed.

(** Installing the first round of a later sequence. *)
Lemma wp_updateRoundState_newSequence s r vs rcs round view vs' (Q : unit -> Core B -> list (Output B) -> Prop) :
  inv_at s r vs rcs -> valset_ok vs' -> 0 <= v_Round view ->
  (forall s' r', fresh_round round s' r' vs' -> rs_view r' = view -> Q tt s' []) ->
  wp (updateRoundState be (Some vs') view false) s Q.
Proof.
  intros Hinv Hvs' Hv HQ. open_inv Hinv. unfold updateRoundState, updatePriorState. wp_simpl. rewrite Hcur.
  wp_simpl. eapply wp_current; [done|]. wp_simpl. 
  eapply (HQ _ (newRoundState view None None None None)); [|by destruct view].
  split; cbn; rewrite ?HvalSet; eauto.
  - by apply newRoundState_inv.
  - intros _. cbn. eauto.
Qed.

(** The view after [startNewRound]: unchanged together with everything else, or
    strictly later and waiting for a proposal. *)
Definition advanced s r s' (es : list (Output B)) : Prop :=
  (s' = s /\ es = []) \/
  exists r', c_current s' = Some r' /\ view_lt (rs_view r) (rs_view r') /\ c_state s' = StateAcceptRequest.

Lemma wp_startNewRound round s r vs rcs (Q : unit -> Core B -> list (Output B) -> Prop) :
  inv_at s r vs rcs -> backend_ok be -> round = 0 \/ round <> rs_round r -> round < 2 ^ 64 ->
  (forall s' es, core_inv s' -> Forall no_vote es -> advanced s r s' es -> Q tt s' es) ->
  wp (startNewRound be round) s Q.
Proof.
  intros Hinv [[last Hlast] Hbe] Hne Hlt HQ. pose proof (inv_current _ _ _ _ Hinv) as Hcur.
  unfold startNewRound. destruct (be_LastProposal be) as [lp proposer]. cbn in Hlast. subst lp.
  assert (Q tt s []) as Hid by (apply HQ; [by eapply inv_core|apply Forall_nil_2|by left]).
  wp_simpl. unfold startNewRound_guard. wp_simpl. rewrite Hcur. wp_simpl.
  destruct (Z.leb_spec (rs_sequence r) (Number last)) as [Hseq|Hseq]; wp_simpl.
  { unfold startNewRound_next. wp_simpl.
    destruct (addEffective_spec _ _ _ _ Hinv) as (xp & xc & -> & Hxp' & Hxc'). wp_simpl.
    eapply (wp_updateRoundState_newSequence _ _ vs rcs round); [|apply Hbe|done|].
    { by destruct Hinv; split. }
    intros s' r' Hfr Hview. refine (wp_startNewRound_tail round last proposer _ s' r' _ _ Hfr _).
    intros s'' vs' rcs' es Hinv' Hst Hes. apply HQ; [by eapply inv_core|done|].
    right. exists r'. split_and!; [by destruct Hinv'| |done]. rewrite Hview. left. cbn. lia. }
  destruct (Number last =? i64 (big_Int64 (rs_sequence r) - 1)); [|done].
  destruct (Z.eqb_spec round 0) as [|Hr0]; [done|].
  destruct (Z.ltb_spec round (rs_round r)) as [|Hr]; [done|].
  unfold startNewRound_next. wp_simpl. eapply wp_current; [done|]. wp_simpl.
  rewrite (inv_valSet _ _ _ _ Hinv). eapply wp_updateRoundState_roundChange; [done|lia|].
  intros s' r' Hfr Hview. refine (wp_startNewRound_tail round last proposer _ s' r' _ _ Hfr _).
  intros s'' vs' rcs' es Hinv' Hst Hes. apply HQ; [by eapply inv_core|done|].
  right. exists r'. split_and!; [by destruct Hinv'| |done]. rewrite Hview. right. cbn. lia.
Qed.

(** ** Broadcasting *)

Lemma wp_broadcast m s (Q : bool -> Core B -> list (Output B) -> Prop) :
  (forall es, votes es = [] \/ votes es = option_list (vote_of (OBroadcast None m [])) ->
     forall b, Q b s es) ->
  wp (broadcast be m) s Q.
Proof.
  intros HQ. unfold broadcast. destruct (EncodeMessage m); wp_simpl; apply HQ; [|by left].
  right. unfold votes. cbn. by destruct m.
Qed.

Lemma wp_broadcast_quiet m s (Q : bool -> Core B -> list (Output B) -> Prop) :
  (forall ovs pl, no_vote (OBroadcast ovs m pl)) ->
  (forall es, Forall no_vote es -> forall b, Q b s es) -> wp (broadcast be m) s Q.
Proof.
  intros Hm HQ. unfold broadcast. destruct (EncodeMessage m); wp_simpl; apply HQ; [|by constructor].
  by repeat constructor.
Qed.

Lemma wp_broadcastRoundChange round s r vs rcs (Q : unit -> Core B -> list (Output B) -> Prop) :
  inv_at s r vs rcs ->
  (forall t es, inv_at (set_c_timers t s) r vs rcs -> Forall no_vote es -> Q tt (set_c_timers t s) es) ->
  wp (broadcastRoundChange be round) s Q.
Proof.
  intros Hinv HQ. unfold broadcastRoundChange. wp_simpl. apply wp_newRetryTimer. intros t es Ht Hes.
  pose proof (inv_timer _ _ _ _ _ Hinv Ht) as Hinv'. specialize (HQ t).
  wp_simpl. eapply wp_current; [by destruct Hinv'|].
  destruct (round <? rs_round r); wp_simpl; [by apply HQ; solve_outputs|].
  destruct (signPayload be _) as [sg|]; wp_simpl; [|by apply HQ; solve_outputs].
  apply wp_broadcast_quiet; [done|]. intros es' Hes' b. wp_simpl. apply HQ; [done|]. solve_outputs.
Qed.

Lemma wp_sendPreprepareMsg req p s r vs rcs (Q : unit -> Core B -> list (Output B) -> Prop) :
  inv_at s r vs rcs -> rq_Proposal req = Some p ->
  (forall r' es, inv_at (set_c_current (Some r') s) r' vs rcs -> rs_view r' = rs_view r ->
     Forall no_vote es -> Q tt (set_c_current (Some r') s) es) ->
  wp (sendPreprepareMsg be req) s Q.
Proof.
  intros Hinv Hp HQ. pose proof (inv_current _ _ _ _ Hinv) as Hcur.
  assert (forall n, inv_at (set_c_current (Some (set_rs_preprepareSent n r)) s)
    (set_rs_preprepareSent n r) vs rcs) as Hsent.
  { intros n. clear Hcur. open_inv Hinv. split; auto. by destruct Hri; split. }
  assert (forall es, Forall no_vote es -> Q tt s es) as Hid.
  { intros es Hes. specialize (HQ r es). rewrite <- Hcur in HQ. by destruct s; apply HQ. }
  unfold sendPreprepareMsg. wp_simpl. eapply wp_current; [done|]. wp_simpl. rewrite Hp. wp_simpl.
  unfold IsProposer_core. wp_simpl. rewrite (inv_valSet _ _ _ _ Hinv). wp_simpl.
  destruct (_ && _); wp_simpl; [|by apply Hid; solve_outputs].
  destruct (signPayload be _) as [sg|]; wp_simpl; [|by apply Hid; solve_outputs].
  apply wp_broadcast_quiet; [done|]. intros es' Hes' b. rewrite wp_when.
  destruct b; [|by apply Hid; solve_outputs]. eapply wp_modify_current; [done|].
  apply HQ; [done|done|solve_outputs].
Qed.
End rounds.
