(* ===== verification/CoreSteps.v ===== *)
(** Every event handler preserves the invariant of the core, moves the view and
    the state forward and casts at most the vote its transition allows
    ([src/consensus/wbft/core/handler.go] and the handlers it calls). *)
From S2P Require Import Prelude Validators Prque Messages Config Justification RoundChangeSet CoreState CoreLogic CoreHandlers CoreSpecs CoreInvariant.

Section steps.
Context `{MapOrder} {B : Type} `{Proposal B} `{Crypto} `{Codec B} (be : Backend B).
Implicit Types (s : Core B) (r : roundState B) (vs : ValidatorSet).

(** A handler's result is irrelevant to the step it makes. *)
Abbreviation steps m s := (wp m s (fun _ s' es => step_ok s s' es)).

Lemma step_id s es : core_inv s -> Forall no_vote es -> step_ok s s es.
Proof. intros Hs Hes. by apply step_ok_quiet; [|apply progress_refl|]. Qed.

(** ** ROUND-CHANGE messages *)

Lemma inv_set_rcs s r vs rcs rcs' :
  inv_at s r vs rcs -> rcs_keys_ok rcs' -> inv_at (set_c_roundChangeSet (Some rcs') s) r vs rcs'.
Proof. intros [] Hk. by split. Qed.

Lemma wp_addRoundChange m s r vs rcs (Q : option CoreError -> Core B -> list (Output B) -> Prop) :
  inv_at s r vs rcs -> (forall e, Q (Some e) s []) ->
  (forall rcs', inv_at (set_c_roundChangeSet (Some rcs') s) r vs rcs' ->
     Q None (set_c_roundChangeSet (Some rcs') s) []) ->
  wp (addRoundChange m) s Q.
Proof.
  intros Hinv Herr HQ. unfold addRoundChange. wp_simpl. eapply wp_currentView; [by destruct Hinv|].
  wp_simpl. eapply wp_valSet; [by destruct Hinv|].
  assert (forall pp ps, Q None (set_c_roundChangeSet
    (Some (RCS_Add rcs (rc_Round m) m pp ps (QuorumSize vs))) s) []) as Hadd.
  { intros pp ps. apply HQ. eapply inv_set_rcs; [done|]. apply Add_keys. by destruct Hinv. }
  repeat case_match; wp_simpl; auto; rewrite (inv_rcs _ _ _ _ Hinv); wp_simpl; auto.
Qed.

Lemma reachedFPlusOne_pos vs num : valset_ok vs -> 0 <= num -> reachedFPlusOne vs num = true -> 0 < num.
Proof.
  intros Hok Hn Hr. destruct (Z.eq_dec num 0) as [->|]; [|lia].
  pose proof (vs_bound _ Hok). pose proof (vs_nonempty _ Hok).
  rewrite reachedFPlusOne_exact in Hr by lia. zify_bools.
  unfold faulty in *. pose proof (Z.div_pos (Size vs - 1) 3). lia.
Qed.

Lemma progress_advanced s r s' es :
  c_current s = Some r -> advanced s r s' es -> progress s s'.
Proof.
  intros Hr [[-> _]|(r' & Hr' & Hlt & Hst)]; [apply progress_refl|]. unfold progress.
  rewrite Hr, Hr'. auto.
Qed.

(** Steps that cast no vote compose. *)
Definition calm s s' (es : list (Output B)) : Prop :=
  core_inv s' /\ progress s s' /\ Forall no_vote es.

Lemma calm_step s s' es : calm s s' es -> step_ok s s' es.
Proof. intros (? & ? & ?). by apply step_ok_quiet. Qed.

Lemma calm_refl s : core_inv s -> calm s s [].
Proof. intros Hs. split_and!; [done|apply progress_refl|apply Forall_nil_2]. Qed.

Lemma wp_calm_bind {A C} (m : GoM (Core B) (Output B) A) (f : A -> GoM (Core B) (Output B) C) s :
  wp m s (fun _ => calm s) -> (forall a s', core_inv s' -> wp (f a) s' (fun _ => calm s')) ->
  wp (m ≫= f) s (fun _ => calm s).
Proof.
  intros Hm Hf. wp_simpl. eapply wp_mono; [exact Hm|]. intros a s' es (Hinv & Hpr & Hes).
  eapply wp_mono; [by apply Hf|]. intros b s'' es' (Hinv' & Hpr' & Hes').
  split_and!; [done|by transitivity s'|solve_outputs].
Qed.

Lemma calm_trans s0 s s' es0 es : progress s0 s -> Forall no_vote es0 -> calm s s' es -> calm s0 s' (es0 ++ es).
Proof. intros Hp He (? & ? & ?). split_and!; [done|by transitivity s|solve_outputs]. Qed.

Lemma wp_startNewRound_calm round s r vs rcs :
  inv_at s r vs rcs -> backend_ok be -> round = 0 \/ round <> rs_round r -> round < 2 ^ 64 ->
  wp (startNewRound be round) s (fun _ => calm s).
Proof.
  intros Hinv Hbe Hne Hlt. eapply wp_startNewRound; [done..|]. intros s' es Hinv' Hes Hadv.
  split_and!; [done| |done]. eapply progress_advanced; [by destruct Hinv|done].
Qed.

Lemma wp_broadcastRoundChange_calm round s :
  core_inv s -> wp (broadcastRoundChange be round) s (fun _ => calm s).
Proof.
  intros (r & vs & rcs & Hinv). eapply wp_broadcastRoundChange; [done|]. intros t es Hinv' Hes.
  split_and!; [by eapply inv_core|by apply progress_same|done].
Qed.

Lemma wp_ret_calm {A} (a : A) s : core_inv s -> wp (mret a) s (fun _ => calm s).
Proof. apply calm_refl. Qed.

Lemma wp_proposeAfterRoundChange s r vs rcs :
  inv_at s r vs rcs -> QuorumSize vs <= getRCMessagesForGivenRound rcs (rs_round r) ->
  wp (proposeAfterRoundChange be (rs_round r)) s (fun _ => calm s).
Proof.
  intros Hinv Hq. pose proof (inv_core _ _ _ _ Hinv) as Hc.
  unfold proposeAfterRoundChange. wp_simpl. eapply wp_current; [by destruct Hinv|].
  wp_simpl. eapply wp_valSet; [by destruct Hinv|]. wp_simpl. rewrite (inv_rcs _ _ _ _ Hinv). wp_simpl.
  destruct (match highestPreparedBlock rcs !! _ with Some p => Some p | None => _ end) as [p|];
    [|by apply wp_ret_calm].
  unfold getRCMessagesForGivenRound in Hq. pose proof (QuorumSize_pos _ (vs_bound _ (inv_vs _ _ _ _ Hinv))).
  destruct (roundChanges rcs !! big_Uint64 (rs_round r)) as [ms|]; [|lia]. wp_simpl.
  destruct (negb _); [by apply wp_ret_calm|]. wp_simpl.
  eapply wp_sendPreprepareMsg; [done|done|]. intros r' es Hinv' Hview Hes. wp_simpl.
  split_and!; [by eapply inv_core| |solve_outputs]. unfold progress. cbn.
  rewrite (inv_current _ _ _ _ Hinv). right. by rewrite Hview.
Qed.

Lemma wp_handleRoundChangeMsg m s r vs rcs :
  inv_at s r vs rcs -> backend_ok be -> wp (handleRoundChangeMsg be m) s (fun _ => calm s).
Proof.
  intros Hinv Hbe. pose proof (inv_core _ _ _ _ Hinv) as Hc. unfold handleRoundChangeMsg.
  wp_simpl. eapply wp_currentView; [by destruct Hinv|]. wp_simpl. rewrite (inv_rcs _ _ _ _ Hinv). wp_simpl.
  assert (forall s' rcs', inv_at s' r vs rcs' -> progress s s' ->
    wp (reply ← get; rcs ← deref (c_roundChangeSet reply); vs ← valSet; r0 ← current;
        isProposer ← IsProposer_core be;
        if reachedFPlusOne vs (higherRoundMessages rcs (rs_round r)) then
          startNewRound be (getMinRoundChange rcs (rs_round r));;
          broadcastRoundChange be (getMinRoundChange rcs (rs_round r));; mret None
        else if (QuorumSize vs <=? getRCMessagesForGivenRound rcs (rs_round r)) && isProposer
              && (rs_preprepareSent r0 <? rs_round r) then proposeAfterRoundChange be (rs_round r)
        else mret (None : option CoreError)) s' (fun _ => calm s)) as Hmain.
  { intros s' rcs' Hinv' Hpr. pose proof (inv_core _ _ _ _ Hinv') as Hc'.
    wp_simpl. rewrite (inv_rcs _ _ _ _ Hinv'). wp_simpl. eapply wp_valSet; [by destruct Hinv'|].
    wp_simpl. eapply wp_current; [by destruct Hinv'|]. unfold IsProposer_core. wp_simpl.
    rewrite (inv_valSet _ _ _ _ Hinv'). wp_simpl.
    match goal with |- wp ?m _ _ => assert (wp m s' (fun _ => calm s')) as Hm end.
    { destruct (reachedFPlusOne vs _) eqn:HF.
      - apply reachedFPlusOne_pos in HF; [|by destruct Hinv'|unfold higherRoundMessages; lia].
        destruct (getMinRoundChange_fresh rcs' (rs_round r)) as [Hne Hlt]; [by destruct Hinv'| |done|].
        { eapply ri_round. by destruct Hinv'. }
        apply wp_calm_bind; [eapply wp_startNewRound_calm; eauto|]. intros _ s1 Hs1.
        apply wp_calm_bind; [by apply wp_broadcastRoundChange_calm|]. intros _ s2 Hs2. by apply wp_ret_calm.
      - destruct (_ && _) eqn:Hcond; [|by apply wp_ret_calm]. zify_bools.
        eapply wp_proposeAfterRoundChange; done. }
    eapply wp_mono; [exact Hm|]. intros a s'' es Hcalm. cbn [app]. by apply (calm_trans s s' s'' [] es). }
  destruct (v_Round (rs_view r) <=? rc_Round m).
  - eapply wp_addRoundChange; [done| |].
    + intros e. wp_simpl. by apply calm_refl.
    + intros rcs' Hinv'. refine (Hmain _ rcs' Hinv' _). by apply progress_same.
  - rewrite wp_ret. refine (Hmain s rcs Hinv _). apply progress_refl.
Qed.

(** ** PRE-PREPARE messages *)

Lemma wp_broadcastPrepare s r pp (Q : unit -> Core B -> list (Output B) -> Prop) :
  c_current s = Some r -> rs_Preprepare r = Some pp ->
  (forall es, votes es = [] \/ votes es = [VPrepare (rs_view r) (BHash (pp_Proposal pp))] -> Q tt s es) ->
  wp (broadcastPrepare be) s Q.
Proof.
  intros Hr Hpp HQ. unfold broadcastPrepare. wp_simpl. eapply wp_current; [done|]. wp_simpl.
  unfold rs_Proposal, rs_Subject. rewrite Hpp. cbn [fmap option_fmap option_map]. wp_simpl.
  destruct (signPayload be _) as [sg|]; wp_simpl; [|by apply HQ; left].
  apply wp_broadcast. intros es Hes b. wp_simpl. apply HQ. cbn [app]. by rewrite ?app_nil_r.
Qed.

Lemma wp_broadcastCommit s r pp (Q : unit -> Core B -> list (Output B) -> Prop) :
  c_current s = Some r -> rs_Preprepare r = Some pp ->
  (forall es, votes es = [] \/ votes es = [VCommit (rs_view r) (BHash (pp_Proposal pp))] -> Q tt s es) ->
  wp (broadcastCommit be) s Q.
Proof.
  intros Hr Hpp HQ. unfold broadcastCommit. wp_simpl. eapply wp_current; [done|]. wp_simpl.
  unfold rs_Proposal, rs_Subject. rewrite Hpp. cbn [fmap option_fmap option_map]. wp_simpl.
  destruct (signPayload be _) as [sg|]; wp_simpl; [|by apply HQ; left].
  apply wp_broadcast. intros es Hes b. wp_simpl. apply HQ. cbn [app]. by rewrite ?app_nil_r.
Qed.

(** The round after it has accepted a proposal. *)
Lemma round_inv_preprepare vs r ps pp :
  round_inv StateAcceptRequest vs r ps -> accepted vs (rs_view r) pp ->
  round_inv StatePreprepared vs (set_rs_Preprepare (Some pp) r) ps.
Proof.
  intros [Hidle _ _ _ Hlock Hno Hr] Hacc. destruct (Hidle eq_refl) as [Hp Hc].
  split; cbn; try done; [|by intros []].
  intros _. exists pp. split_and!; [done|done|..]; rewrite ?Hp, ?Hc; apply msgSet_ok_empty.
Qed.

Lemma votes_quiet_app (es es' : list (Output B)) : Forall no_vote es -> votes (es ++ es') = votes es'.
Proof. intros Hes. by rewrite votes_app, (votes_none _ Hes). Qed.

(** Accepting a proposal: the timer is restarted and a PREPARE may be sent. *)
Lemma steps_accept pp s r vs rcs :
  inv_at s r vs rcs -> c_state s = StateAcceptRequest -> accepted vs (rs_view r) pp ->
  wp (newRoundChangeTimer (rs_sequence r) (rs_round r);;
      modify_current (set_rs_Preprepare (Some pp));;
      setState StatePreprepared;;
      broadcastPrepare be;;
      mret (None : option CoreError)) s (fun _ s' es => step_ok s s' es).
Proof.
  intros Hinv Hst Hacc. wp_simpl. apply wp_newRoundChangeTimer. intros t es Ht Hes.
  wp_simpl. eapply wp_modify_current; [by destruct Hinv|]. wp_simpl.
  eapply wp_setState; [by destruct Hinv|done|]. intros p bl ks es' Hb Hes'.
  wp_simpl. eapply wp_broadcastPrepare; [done|done|]. intros es'' Hvotes. wp_simpl. cbn [app].
  assert (forall l, votes (es ++ es' ++ l) = votes l) as Hv.
  { intros l. by rewrite !votes_quiet_app. }
  assert (core_inv (with_queues p bl ks (set_c_state StatePreprepared
    (set_c_current (Some (set_rs_Preprepare (Some pp) r)) (set_c_timers t s))))) as Hcore.
  { apply (inv_core _ (set_rs_Preprepare (Some pp) r) vs rcs). apply inv_queues; [|done].
    open_inv Hinv. split; cbn; auto. apply round_inv_preprepare; [|done]. by rewrite <- Hst. }
  split; [done| |].
  - unfold progress. rewrite (inv_current _ _ _ _ Hinv). right. split; [done|]. by rewrite Hst.
  - rewrite ?app_nil_r, Hv. destruct Hvotes as [->| ->]; constructor.
    exists r, (set_rs_Preprepare (Some pp) r). split_and!; try done. by destruct Hinv.
Qed.

Lemma steps_handlePreprepareMsg pp s r vs rcs :
  inv_at s r vs rcs -> c_state s = StateAcceptRequest -> cp_View (pp_common pp) = rs_view r ->
  steps (handlePreprepareMsg be pp) s.
Proof.
  intros Hinv Hst Hview. pose proof (inv_core _ _ _ _ Hinv) as Hc.
  assert (forall e : option CoreError, steps (mret e) s) as Hret.
  { intros e. wp_simpl. by apply step_id; [|apply Forall_nil_2]. }
  unfold handlePreprepareMsg. wp_simpl. eapply wp_valSet; [by destruct Hinv|].
  rewrite Hview. destruct (IsProposer vs _) eqn:Hprop; cbn [negb].
  2: { destruct (inv_proposer _ _ _ _ Hinv) as (p & -> & _). wp_simpl.
       apply step_id; [done|apply Forall_nil_2]. }
  destruct (Z.eqb_spec (v_Sequence (rs_view r)) (Number (pp_Proposal pp))) as [Hseq|]; cbn [negb]; [|apply Hret].
  destruct (_ && _) eqn:Hjust; [apply Hret|].
  destruct (be_Verify be (pp_Proposal pp)) as [|d|].
  - wp_simpl. rewrite bool_decide_eq_true_2 by done. wp_simpl. eapply wp_current; [by destruct Hinv|].
    refine (steps_accept pp s r vs rcs Hinv Hst _). split_and!; [done|done|done|].
    intros Hr. apply andb_false_iff in Hjust as [Hj|Hj]; zify_bools; [lia|done].
  - unfold stopFuturePreprepareTimer, set_timers. autorewrite with gowp. rewrite wp_when.
    assert (forall es, Forall no_vote es -> step_ok s (set_c_timers (mkTimers (t_next (c_timers s))
      (t_lastSent (c_timers s)) (t_canceled (c_timers s)) (t_roundChange (c_timers s))
      (t_retry (c_timers s)) true) s) es) as Hstep.
    { intros es Hes. apply step_ok_quiet; [|by apply progress_same|done].
      eapply inv_core, inv_timer; [done|]. apply timers_ok_start. }
    destruct (t_futurePreprepare (c_timers s)); wp_simpl; apply Hstep; solve_outputs; by constructor.
  - apply Hret.
Qed.

(** ** PREPARE messages *)

Lemma wp_verifySeal vs b round st seal a s (Q : option CoreError -> Core B -> list (Output B) -> Prop) :
  a ∈ AddressList vs ->
  (forall v, snd (GetByAddress vs a) = Some v -> Q (verifySealOf v b round st seal) s []) ->
  wp (verifySeal vs b round st seal a) s Q.
Proof.
  intros (j & v & Hv)%GetByAddress_elem HQ. unfold verifySeal. rewrite Hv in HQ |- *. wp_simpl. by apply HQ.
Qed.

(** The copies that [handlePrepareMsg] keeps of the PREPARE messages. *)
Definition keepPrepare (m : Prepare) : Prepare :=
  NewPrepareWithSigAndSource (v_Sequence (pr_View m)) (v_Round (pr_View m)) (pr_Digest m)
    (cp_signature (pr_common m)) (pr_source m) (pr_PrepareSeal m).

Lemma certificate_of vs view b ms :
  msgSet_ok pr_source (prepare_ok vs view b) ms -> QuorumSize vs <= msgSet_Size ms ->
  certificate vs view b (keepPrepare <$> msgSet_Values ms).
Proof.
  intros Hms Hq. split_and!.
  - rewrite <- list_fmap_compose. by apply (Values_NoDup pr_source _ ms Hms).
  - by rewrite length_fmap, Values_length.
  - intros p (m & -> & Hm)%list_elem_of_fmap. by apply (msgSet_ok_Values pr_source _ ms m Hms).
Qed.

Lemma round_inv_addPrepare vs r ps pp p :
  round_inv StatePreprepared vs r ps -> rs_Preprepare r = Some pp ->
  prepare_ok vs (rs_view r) (pp_Proposal pp) p ->
  round_inv StatePreprepared vs (set_rs_WBFTPrepares (msgSet_Add pr_source (rs_WBFTPrepares r) p) r) ps.
Proof.
  intros [_ Hacc _ _ Hlock Hno Hr] Hpp Hp. split; cbn; try done; [|by intros []].
  intros Hne. destruct (Hacc Hne) as (pp' & Hpp' & Ha & Hps & Hcs). simplify_eq.
  exists pp. split_and!; try done. by apply msgSet_ok_Add.
Qed.

Lemma round_inv_prepared vs r ps pp :
  round_inv StatePreprepared vs r ps -> rs_Preprepare r = Some pp ->
  QuorumSize vs <= msgSet_Size (rs_WBFTPrepares r) ->
  round_inv StatePrepared vs
    (set_rs_preparedBlock (Some (pp_Proposal pp)) (set_rs_preparedRound (Some (rs_round r)) r))
    (keepPrepare <$> msgSet_Values (rs_WBFTPrepares r)).
Proof.
  intros [_ Hacc _ _ Hlock Hno Hr] Hpp Hq.
  destruct (Hacc ltac:(done)) as (pp' & Hpp' & Ha & Hps & Hcs). rewrite Hpp in Hpp'. injection Hpp' as <-.
  split; cbn; try done.
  - intros _. by exists pp.
  - intros _. exists (pp_Proposal pp). unfold rs_Proposal; cbn. by rewrite Hpp.
  - intros pr [= <-]. split; [lia|]. eexists. split; [done|]. by apply certificate_of.
Qed.

(** Reaching the prepared state: the certificate is kept and a COMMIT may be sent. *)
Lemma steps_prepared s0 s r vs rcs pp :
  inv_at s r vs rcs -> c_state s = StatePreprepared -> rs_Preprepare r = Some pp ->
  QuorumSize vs <= msgSet_Size (rs_WBFTPrepares r) ->
  (exists r0, c_current s0 = Some r0 /\ rs_view r0 = rs_view r) -> c_state s0 = StatePreprepared ->
  wp (modify_current (set_rs_preparedRound (Some (rs_round r)));;
      modify (set_c_preparedPrepares (keepPrepare <$> msgSet_Values (rs_WBFTPrepares r)));;
      modify_current (set_rs_preparedBlock (Some (pp_Proposal pp)));;
      setState StatePrepared;;
      broadcastCommit be;;
      mret (None : option CoreError)) s (fun _ s' es => step_ok s0 s' es).
Proof.
  intros Hinv Hst Hpp Hq (r0 & Hr0 & Hview) Hst0. wp_simpl. eapply wp_modify_current; [by destruct Hinv|].
  wp_simpl. eapply wp_modify_current; [done|]. wp_simpl.
  eapply wp_setState; [by destruct Hinv|done|]. intros p bl ks es Hb Hes. wp_simpl.
  eapply wp_broadcastCommit; [done|done|]. intros es' Hvotes. wp_simpl. cbn [app].
  set (r' := set_rs_preparedBlock _ _) in *.
  split.
  - apply (inv_core _ r' vs rcs). apply inv_queues; [|done]. open_inv Hinv. split; cbn; auto.
    eapply round_inv_prepared; [by rewrite <- Hst|done|done].
  - unfold progress. cbn. rewrite Hr0. right. split; [exact Hview|]. by rewrite Hst0.
  - rewrite ?app_nil_r, votes_quiet_app by done. destruct Hvotes as [->| ->]; constructor.
    exists r0, r'. split_and!; try done. unfold rs_Proposal; cbn. by rewrite Hpp.
Qed.

Lemma inv_set_current s r r' vs rcs :
  inv_at s r vs rcs -> round_inv (c_state s) vs r' (c_preparedPrepares s) ->
  inv_at (set_c_current (Some r') s) r' vs rcs.
Proof. intros [] Hr. by split. Qed.

Lemma steps_handlePrepareMsg p s r vs rcs :
  inv_at s r vs rcs -> c_state s = StatePreprepared -> pr_View p = rs_view r ->
  pr_source p ∈ AddressList vs -> steps (handlePrepareMsg be p) s.
Proof.
  intros Hinv Hst Hview Hsrc. pose proof (inv_core _ _ _ _ Hinv) as Hc.
  pose proof (inv_current _ _ _ _ Hinv) as Hr. pose proof (inv_round _ _ _ _ Hinv) as Hri.
  destruct (ri_accepted _ _ _ _ Hri ltac:(congruence)) as (pp & Hpp & _).
  unfold handlePrepareMsg. wp_simpl. eapply wp_current; [done|]. wp_simpl.
  eapply wp_valSet; [by destruct Hinv|]. wp_simpl. unfold rs_Proposal. rewrite Hpp.
  cbn [fmap option_fmap option_map]. wp_simpl.
  case_bool_decide as Hd; cbn [negb]; wp_simpl; [|by apply step_id; [|apply Forall_nil_2]].
  apply wp_verifySeal; [done|]. intros v Hv. destruct (verifySealOf v _ _ _ _) eqn:Hseal; wp_simpl.
  { apply step_id; [done|apply Forall_nil_2]. }
  eapply wp_modify_current; [done|]. wp_simpl. eapply wp_current; [done|]. wp_simpl.
  set (r1 := set_rs_WBFTPrepares _ r). set (s1 := set_c_current (Some r1) s).
  assert (inv_at s1 r1 vs rcs) as Hinv1.
  { apply (inv_set_current s r); [done|]. rewrite Hst in Hri |- *.
    apply (round_inv_addPrepare _ _ _ pp); [done|done|]. split_and!; [done|done|]. by exists v. }
  change (c_state s1) with (c_state s). rewrite Hst. cbn [State_Cmp State_num Z.compare].
  rewrite andb_true_r. destruct (Z.leb_spec (QuorumSize vs) (msgSet_Size (rs_WBFTPrepares r1))) as [Hq|Hq].
  - rewrite bool_decide_eq_true_2 by done. cbn [when].
    refine (steps_prepared s s1 r1 vs rcs pp Hinv1 Hst Hpp Hq _ Hst). by exists r.
  - wp_simpl. apply step_ok_quiet; [by eapply inv_core| |apply Forall_nil_2].
    unfold progress. rewrite Hr. right. split; [done|]. cbn. lia.
Qed.

(** ** COMMIT messages *)

(** The entry of a member of the set. *)
Lemma sealOf_member vs a v j : valset_ok vs -> GetByAddress vs a = (j, Some v) ->
  (j <? 0) = false /\ u32 j = j /\ vs_validators vs !! Z.to_nat j = Some v /\ val_address v = a.
Proof.
  intros Hok (Ha & Hj & Hl)%GetByAddress_Some. pose proof (vs_bound _ Hok). unfold maxValidators in *.
  split_and!; [apply Z.ltb_ge; lia|apply u32_small; lia|done|done].
Qed.

Lemma sealsOf_ok vs view b ms :
  valset_ok vs -> msgSet_ok cm_source (commit_ok vs view b) ms -> QuorumSize vs <= msgSet_Size ms ->
  committed_ok vs b (v_Round view) (sealsOf cm_source cm_CommitSeal vs ms).
Proof.
  intros Hok Hms Hq.
  assert (forall m, m ∈ msgSet_Values ms -> exists j v, GetByAddress vs (cm_source m) = (j, Some v) /\
    verifySealOf v b (u32 (big_Uint64 (v_Round view))) SealTypeCommit (cm_CommitSeal m) = None) as Hget.
  { intros m Hm. destruct (msgSet_ok_Values _ _ _ _ Hms Hm) as (<- & _ & v & Hv & Hs).
    destruct (GetByAddress vs (cm_source m)) as [j o]. cbn in Hv. subst. eauto. }
  unfold sealsOf. split_and!.
  - by rewrite length_fmap, Values_length.
  - rewrite <- list_fmap_compose. eapply NoDup_fmap_2_strong;
      [|eapply NoDup_fmap_1; apply (Values_NoDup cm_source _ ms Hms)].
    intros m1 m2 Hm1 Hm2. destruct (Hget m1 Hm1) as (j1 & v1 & Hg1 & _), (Hget m2 Hm2) as (j2 & v2 & Hg2 & _).
    cbn. rewrite Hg1, Hg2.
    destruct (sealOf_member _ _ _ _ Hok Hg1) as (-> & -> & Hl1 & Ha1), (sealOf_member _ _ _ _ Hok Hg2) as (-> & -> & Hl2 & Ha2).
    cbn. intros ->. assert (v1 = v2) as -> by congruence.
    apply elem_of_Values in Hm1 as [a1 Hm1], Hm2 as [a2 Hm2].
    destruct (Hms _ _ Hm1) as [<- _], (Hms _ _ Hm2) as [<- _]. congruence.
  - intros sd (m & -> & Hm)%list_elem_of_fmap. destruct (Hget m Hm) as (j & v & Hg & Hs).
    rewrite Hg. destruct (sealOf_member _ _ _ _ Hok Hg) as (-> & -> & Hl & _). cbn. eauto.
Qed.

Lemma round_inv_addCommit vs r ps pp p :
  round_inv StatePrepared vs r ps -> rs_Preprepare r = Some pp ->
  commit_ok vs (rs_view r) (pp_Proposal pp) p ->
  round_inv StatePrepared vs (set_rs_WBFTCommits (msgSet_Add cm_source (rs_WBFTCommits r) p) r) ps.
Proof.
  intros [_ Hacc Hprep _ Hlock Hno Hr] Hpp Hp. split; cbn; try done.
  intros Hne. destruct (Hacc Hne) as (pp' & Hpp' & Ha & Hps & Hcs). simplify_eq.
  exists pp. split_and!; try done. by apply msgSet_ok_Add.
Qed.

Lemma round_inv_commit vs r ps :
  round_inv StatePrepared vs r ps -> QuorumSize vs <= msgSet_Size (rs_WBFTCommits r) ->
  round_inv StateCommitted vs r ps.
Proof. intros [] Hq. by split; auto. Qed.

(** Handing the block over, with a quorum of committed seals. *)
Lemma steps_commitWBFT s0 s r vs rcs :
  inv_at s r vs rcs -> c_state s = StatePrepared -> QuorumSize vs <= msgSet_Size (rs_WBFTCommits r) ->
  (exists r0, c_current s0 = Some r0 /\ rs_view r0 = rs_view r) -> c_state s0 = StatePrepared ->
  wp (commitWBFT be) s (fun _ s' es => step_ok s0 s' es).
Proof.
  intros Hinv Hst Hq (r0 & Hr0 & Hview) Hst0. pose proof (inv_round _ _ _ _ Hinv) as Hri.
  destruct (ri_accepted _ _ _ _ Hri ltac:(congruence)) as (pp & Hpp & (_ & Hnum & _) & _ & Hcs).
  unfold commitWBFT. wp_simpl. eapply wp_setState; [by destruct Hinv..|]. intros p bl ks es Hb Hes.
  set (s1 := with_queues p bl ks (set_c_state StateCommitted s)).
  assert (inv_at s1 r vs rcs) as Hinv1.
  { apply inv_queues; [|done]. clear Hri. open_inv Hinv. split; cbn; auto.
    apply round_inv_commit; [|done]. by rewrite <- Hst. }
  wp_simpl. eapply wp_current; [by destruct Hinv1|]. unfold rs_Proposal. rewrite Hpp.
  cbn [fmap option_fmap option_map]. wp_simpl. eapply wp_valSet; [by destruct Hinv1|].
  autorewrite with gowp. rewrite wp_when. set (cs := sealsOf cm_source cm_CommitSeal vs _).
  assert (forall t es', inv_at (set_c_timers t s1) r vs rcs -> Forall no_vote es' ->
    step_ok s0 (set_c_timers t s1) (es ++ OCommit (pp_Proposal pp)
      (sealsOf pr_source pr_PrepareSeal vs (rs_WBFTPrepares r)) cs (rs_round r) :: es')) as Hdone.
  { intros t es' Hinv2 Hes'. split; [by eapply inv_core|..].
    - unfold progress. rewrite Hr0, (inv_current _ _ _ _ Hinv2). right. split; [done|].
      by rewrite Hst0.
    - rewrite votes_quiet_app by done. unfold votes at 1. cbn. fold (votes es').
      rewrite (votes_none _ Hes'). apply (vote_block s0 _ (rs_view r) (pp_Proposal pp) cs vs);
        [|by destruct Hinv2|done|].
      + exists r0, r. split_and!; try done; [by destruct Hinv|]. unfold rs_Proposal. by rewrite Hpp.
      + apply sealsOf_ok; [by destruct Hinv|done|done]. }
  destruct (be_CommitFails be _ _ _ _).
  - unfold broadcastNextRoundChange. wp_simpl. eapply wp_currentView; [by destruct Hinv1|].
    eapply wp_broadcastRoundChange; [done|]. intros t es' Hinv2 Hes'. cbn [app]. rewrite <- ?app_assoc.
    by apply Hdone.
  - cbn [app]. specialize (Hdone (c_timers s1) []). rewrite ?app_nil_r. destruct s. by apply Hdone.
Qed.

Lemma steps_handleCommitMsg p s r vs rcs :
  inv_at s r vs rcs -> c_state s = StatePrepared -> cm_View p = rs_view r ->
  cm_source p ∈ AddressList vs -> steps (handleCommitMsg be p) s.
Proof.
  intros Hinv Hst Hview Hsrc. pose proof (inv_core _ _ _ _ Hinv) as Hc.
  pose proof (inv_current _ _ _ _ Hinv) as Hr. pose proof (inv_round _ _ _ _ Hinv) as Hri.
  destruct (ri_accepted _ _ _ _ Hri ltac:(congruence)) as (pp & Hpp & _).
  unfold handleCommitMsg. wp_simpl. eapply wp_current; [done|]. wp_simpl.
  eapply wp_valSet; [by destruct Hinv|]. wp_simpl. unfold rs_Proposal. rewrite Hpp.
  cbn [fmap option_fmap option_map]. wp_simpl.
  case_bool_decide as Hd; cbn [negb]; wp_simpl; [|by apply step_id; [|apply Forall_nil_2]].
  apply wp_verifySeal; [done|]. intros v Hv. destruct (verifySealOf v _ _ _ _) eqn:Hseal; wp_simpl.
  { apply step_id; [done|apply Forall_nil_2]. }
  eapply wp_modify_current; [done|]. wp_simpl. eapply wp_current; [done|].
  set (r1 := set_rs_WBFTCommits _ r). set (s1 := set_c_current (Some r1) s).
  assert (inv_at s1 r1 vs rcs) as Hinv1.
  { apply (inv_set_current s r); [done|]. rewrite Hst in Hri |- *.
    apply (round_inv_addCommit _ _ _ pp); [done|done|]. split_and!; [done|done|]. by exists v. }
  autorewrite with gowp. rewrite wp_when.
  destruct (Z.leb_spec (QuorumSize vs) (msgSet_Size (rs_WBFTCommits r1))) as [Hq|Hq].
  - eapply wp_mono; [eapply (steps_commitWBFT s s1); [done..|by exists r|done]|].
    intros a s' es Hstep. wp_simpl. cbn [app]. by rewrite ?app_nil_r.
  - wp_simpl. apply step_ok_quiet; [by eapply inv_core| |apply Forall_nil_2].
    unfold progress. rewrite Hr. right. split; [done|]. cbn. lia.
Qed.
End steps.
