(* ===== verification/CoreEvents.v ===== *)
(** The event loop of the core ([src/consensus/wbft/core/handler.go]): message
    authentication, dispatch, and the step that each event makes. *)
From S2P Require Import Prelude Validators Prque Messages Config Justification RoundChangeSet CoreState CoreLogic CoreHandlers CoreSpecs CoreInvariant CoreSteps.

(** * Classification of messages *)

Lemma checkMessage_None st curr prior code view :
  checkMessage st curr prior code view = None ->
  match code with
  | 18 => view = curr /\ st = StateAcceptRequest
  | 19 => view = curr /\ st = StatePreprepared
  | 20 => view = curr /\ st = StatePrepared
  | _ => True
  end.
Proof.
  unfold checkMessage. destruct (isTooFarFutureMessage curr view); [done|].
  destruct (Z.eqb_spec code RoundChangeCode) as [->|_]; [done|].
  destruct (View_Cmp view curr) eqn:Hcmp; [|by repeat case_match|done].
  apply View_Cmp_Eq in Hcmp. subst view. intros Hst.
  assert (match code with 18 => st = StateAcceptRequest | 19 => st = StatePreprepared
          | 20 => st = StatePrepared | _ => True end) as Hcode.
  { destruct (decide (code = 18)) as [->|]; [by destruct st|].
    destruct (decide (code = 19)) as [->|]; [by destruct st|].
    destruct (decide (code = 20)) as [->|]; [by destruct st|]. by repeat case_match. }
  repeat case_match; auto.
Qed.

(** A message is kept as an extra seal when it belongs to the round that
    decided the previous block and no proposal has been accepted yet, or when
    it belongs to the current view, which is already past that phase. *)
Lemma checkMessage_extra st curr prior code view :
  checkMessage st curr prior code view = Some errExtraSealMessage ->
  code <> RoundChangeCode /\
  ((st = StateAcceptRequest /\ view = mkView prior (v_Sequence curr - 1)) \/
   (st <> StateAcceptRequest /\ view = curr)).
Proof.
  unfold checkMessage. destruct (isTooFarFutureMessage curr view); [done|].
  destruct (Z.eqb_spec code RoundChangeCode) as [->|Hne]; [by repeat case_match|].
  destruct (View_Cmp view curr) eqn:Hcmp; [| |done].
  - apply View_Cmp_Eq in Hcmp. subst. intros Hst. split; [done|]. right. split; [|done].
    intros ->. by repeat case_match.
  - destruct (_ && _) eqn:Hcond; [|done]. intros _. zify_bools. split; [done|]. left.
    split; [done|]. destruct view as [vr vq]; cbn in *. f_equal; lia.
Qed.

Section events.
Context `{MapOrder} {B : Type} `{Proposal B} `{Crypto} `{Codec B} (be : Backend B).
Implicit Types (s : Core B) (r : roundState B) (vs : ValidatorSet).

(** The check that [handleDecodedMessage] makes in state [s]. *)
Definition check_at s r (m : WBFTMessage B) : option CoreError :=
  checkMessage (c_state s) (rs_view r) (ps_round (c_priorState s)) (msg_Code m) (msg_View m).

(** The sender of a message that is going to be handled belongs to the validator
    set that its seal is checked against. *)
Definition sender_ok s r vs (m : WBFTMessage B) : Prop :=
  match check_at s r m with
  | None => msg_Source m ∈ AddressList vs
  | Some errExtraSealMessage =>
      if bool_decide (c_state s = StateAcceptRequest)
      then forall pvs, ps_validatorSet (c_priorState s) = Some pvs -> msg_Source m ∈ AddressList pvs
      else msg_Source m ∈ AddressList vs
  | _ => True
  end.

(** ** Extra seals *)

Lemma inv_extra_prepare s r vs rcs p :
  inv_at s r vs rcs -> extra_prepare_ok p -> inv_at (addToPrepareExtraSeal p s) r vs rcs.
Proof. intros [] Hp. split; cbn; auto. by apply addNewer_ok. Qed.

Lemma inv_extra_commit s r vs rcs p :
  inv_at s r vs rcs -> extra_commit_ok p -> inv_at (addToCommitExtraSeal p s) r vs rcs.
Proof. intros [] Hp. split; cbn; auto. by apply addNewer_ok. Qed.

Lemma wp_addToExtraSeal m s r vs rcs :
  inv_at s r vs rcs ->
  (if bool_decide (c_state s = StateAcceptRequest)
   then forall pvs, ps_validatorSet (c_priorState s) = Some pvs -> msg_Source m ∈ AddressList pvs
   else msg_Source m ∈ AddressList vs) ->
  wp (addToExtraSeal m) s (fun _ => calm s).
Proof.
  intros Hinv Hsrc. pose proof (inv_core _ _ _ _ Hinv) as Hc.
  assert (forall e : option CoreError, wp (mret e) s (fun _ => calm s)) as Hret
    by (intros; by apply wp_ret_calm).
  assert (forall b pvs, msg_Source m ∈ AddressList pvs ->
    wp (match m with
      | MPrepare m => if negb (bool_decide (pr_Digest m = BHash b)) then mret (Some errInvalidMessage) else
          vs ← deref (Some pvs);
          err ← verifySeal vs b (u32 (big_Uint64 (pr_Round m))) SealTypePrepare (pr_PrepareSeal m) (pr_source m);
          match err with Some e => mret (Some e) | None => modify (addToPrepareExtraSeal m);; mret None end
      | MCommit m => if negb (bool_decide (cm_Digest m = BHash b)) then mret (Some errInvalidMessage) else
          vs ← deref (Some pvs);
          err ← verifySeal vs b (u32 (big_Uint64 (cm_Round m))) SealTypeCommit (cm_CommitSeal m) (cm_source m);
          match err with Some e => mret (Some e) | None => modify (addToCommitExtraSeal m);; mret None end
      | _ => mret (Some errInvalidExtraSealMessage)
      end) s (fun _ => calm s)) as Hmain.
  { clear Hsrc. intros b pvs Hin. destruct m as [m|m|m|m]; [apply Hret| | |apply Hret].
    - case_bool_decide as Hd; cbn [negb]; [|apply Hret]. wp_simpl. apply wp_verifySeal; [done|].
      intros v Hv. destruct (verifySealOf v _ _ _ _) eqn:Hs; wp_simpl; [by apply calm_refl|].
      split_and!; [|by apply progress_same|apply Forall_nil_2]. eapply inv_core, inv_extra_prepare; [done|].
      exists pvs, b. split; [done|]. by exists v.
    - case_bool_decide as Hd; cbn [negb]; [|apply Hret]. wp_simpl. apply wp_verifySeal; [done|].
      intros v Hv. destruct (verifySealOf v _ _ _ _) eqn:Hs; wp_simpl; [by apply calm_refl|].
      split_and!; [|by apply progress_same|apply Forall_nil_2]. eapply inv_core, inv_extra_commit; [done|].
      exists pvs, b. split; [done|]. by exists v. }
  unfold addToExtraSeal. wp_simpl. case_bool_decide as Hst.
  - wp_simpl. destruct (ps_proposal (c_priorState s)) as [b|] eqn:Hb; [|apply Hret].
    destruct (inv_prior _ _ _ _ Hinv ltac:(eauto)) as [pvs Hpvs]. rewrite Hpvs. apply Hmain. auto.
  - wp_simpl. eapply wp_current; [by destruct Hinv|]. wp_simpl.
    destruct (rs_Proposal r) as [b|]; [|apply Hret]. rewrite (inv_valSet _ _ _ _ Hinv). by apply Hmain.
Qed.

(** ** Dispatch *)

Lemma steps_calm {A} (m : GoM (Core B) (Output B) A) s :
  wp m s (fun _ => calm s) -> wp m s (fun _ s' es => step_ok s s' es).
Proof. intros Hm. eapply wp_mono; [exact Hm|]. intros a s' es. apply calm_step. Qed.

(** The type assertions of [deliverMessage] succeed. *)
Lemma deliverMessage_wf m :
  msg_wf m ->
  deliverMessage be m =
  match m with
  | MPreprepare p => handlePreprepareMsg be p
  | MPrepare p => handlePrepareMsg be p
  | MCommit p => handleCommitMsg be p
  | MRoundChange p => handleRoundChangeMsg be p
  end.
Proof. unfold msg_wf, deliverMessage. intros ->. by destruct m. Qed.

Lemma steps_handleDecodedMessage m s r vs rcs :
  inv_at s r vs rcs -> backend_ok be -> msg_wf m -> sender_ok s r vs m ->
  wp (handleDecodedMessage be m) s (fun _ s' es => step_ok s s' es).
Proof.
  intros Hinv Hbe Hwf Hsrc. pose proof (inv_core _ _ _ _ Hinv) as Hc. unfold sender_ok in Hsrc.
  unfold handleDecodedMessage. wp_simpl. eapply wp_currentView; [by destruct Hinv|]. wp_simpl.
  fold (check_at s r m). destruct (check_at s r m) as [e|] eqn:Hcheck.
  - assert (wp (mret (Some e)) s (fun _ => calm s)) as Hret by by apply wp_ret_calm.
    destruct e; try (by apply steps_calm).
    + destruct (addToBacklog_ok m s Hwf (inv_backlog _ _ _ _ Hinv)) as (bl & ks & Heq & Hok).
      wp_simpl. rewrite Heq. apply step_ok_quiet; [|by apply progress_same|apply Forall_nil_2].
      apply (inv_core _ r vs rcs). open_inv Hinv. by split.
    + apply steps_calm. by eapply wp_addToExtraSeal.
  - apply checkMessage_None in Hcheck. unfold msg_wf in Hwf. rewrite Hwf in Hcheck.
    rewrite deliverMessage_wf by done. destruct m as [p|p|p|p]; cbn in Hcheck.
    + destruct Hcheck. by eapply steps_handlePreprepareMsg.
    + destruct Hcheck. by eapply steps_handlePrepareMsg.
    + destruct Hcheck. by eapply steps_handleCommitMsg.
    + apply steps_calm. by eapply wp_handleRoundChangeMsg.
Qed.

(** ** Authentication *)

(** The validator set against which a message for [view] is authenticated. *)
Definition signers s r vs (view : View) : ValidatorSet :=
  if match View_Cmp view (rs_view r) with Lt => true | _ => false end
     && bool_decide (c_state s = StateAcceptRequest)
     && match View_Cmp view (mkView (ps_round (c_priorState s)) (rs_sequence r - 1)) with Eq => true | _ => false end
  then default vs (ps_validatorSet (c_priorState s)) else vs.

Lemma wp_checkValidatorSignature data sig view s r vs (Q : option Address -> Core B -> list (Output B) -> Prop) :
  c_current s = Some r -> c_valSet s = Some vs ->
  Q (CheckValidatorSignature (signers s r vs view) data sig) s [] ->
  wp (checkValidatorSignature data sig view) s Q.
Proof.
  intros Hr Hvs HQ. unfold checkValidatorSignature. wp_simpl. eapply wp_currentView; [done|]. wp_simpl.
  unfold signers in HQ. change (v_Sequence (rs_view r)) with (rs_sequence r).
  destruct (_ && _); [destruct (ps_validatorSet (c_priorState s))|]; wp_simpl; cbn in HQ; auto;
    by eapply wp_valSet.
Qed.

Lemma CheckValidatorSignature_member vs data sig a :
  CheckValidatorSignature vs data sig = Some a ->
  a ∈ AddressList vs /\ GetSignatureAddress data sig = Some a.
Proof.
  unfold CheckValidatorSignature. destruct (GetSignatureAddress data sig) as [x|]; [|done].
  destruct (GetByAddress vs x) as [j [v|]] eqn:Hg; [|done]. cbn. intros [= <-].
  pose proof (proj1 (GetByAddress_Some _ _ _ _ Hg)) as ->. split; [|done]. apply GetByAddress_elem. eauto.
Qed.

(** A signed part [c'] is [c] with a source that its signature recovers to, a
    member of the set in charge of its view. *)
Definition authentic s r vs (payload : option bytes) (c c' : CommonPayload) : Prop :=
  exists a data, c' = cp_SetSource c a /\ payload = Some data /\
    GetSignatureAddress data (cp_signature c) = Some a /\ a ∈ AddressList (signers s r vs (cp_View c)).

Lemma wp_verifyCommon payload c s r vs :
  c_current s = Some r -> c_valSet s = Some vs ->
  wp (verifyCommon payload c) s (fun res s' es => s' = s /\ es = [] /\
    forall c', res = inl c' -> authentic s r vs payload c c').
Proof.
  intros Hr Hvs. unfold verifyCommon. destruct payload as [data|]; [|by wp_simpl].
  wp_simpl. eapply wp_checkValidatorSignature; [done..|].
  destruct (CheckValidatorSignature _ _ _) as [a|] eqn:Ha; wp_simpl; [|done].
  split_and!; [done..|]. intros c' [= <-]. apply CheckValidatorSignature_member in Ha as [Hin Hsig].
  exists a, data. auto.
Qed.

Lemma wp_verifyAll {T} (verify : T -> GoM (Core B) (Output B) (T + CoreError)) (P : T -> T -> Prop) l s :
  (forall x, wp (verify x) s (fun res s' es => s' = s /\ es = [] /\ forall y, res = inl y -> P x y)) ->
  wp (verifyAll verify l) s (fun res s' es => s' = s /\ es = [] /\ forall l', res = inl l' -> Forall2 P l l').
Proof.
  intros Hv. induction l as [|x l IH]; cbn [verifyAll]; wp_simpl.
  { split_and!; [done..|]. intros l' [= <-]. constructor. }
  eapply wp_mono; [apply Hv|]. intros [y|e] s' es (-> & -> & Hy); wp_simpl; [|done].
  eapply wp_mono; [exact IH|]. intros [ys|e] s' es (-> & -> & Hys); wp_simpl; [|done].
  split_and!; [done..|]. intros l' [= <-]. constructor; auto.
Qed.

Definition authentic_prepare s r vs (p p' : Prepare) : Prop :=
  authentic s r vs (payload_Prepare p) (pr_common p) (pr_common p') /\
  pr_Digest p' = pr_Digest p /\ pr_PrepareSeal p' = pr_PrepareSeal p.
Definition authentic_rc s r vs (p p' : SignedRoundChangePayload) : Prop :=
  authentic s r vs (payload_RoundChange p) (sr_common p) (sr_common p') /\
  sr_PreparedRound p' = sr_PreparedRound p /\ sr_PreparedDigest p' = sr_PreparedDigest p.

(** What [verifySignatures] guarantees of a message and its justification. *)
Definition authentic_msg s r vs (m m' : WBFTMessage B) : Prop :=
  authentic s r vs (payload_of m) (msg_common m) (msg_common m') /\
  match m, m' with
  | MPreprepare p, MPreprepare p' =>
      pp_Proposal p' = pp_Proposal p /\
      Forall2 (authentic_rc s r vs) (pp_JustificationRoundChanges p) (pp_JustificationRoundChanges p') /\
      Forall2 (authentic_prepare s r vs) (pp_JustificationPrepares p) (pp_JustificationPrepares p')
  | MRoundChange p, MRoundChange p' =>
      rc_PreparedBlock p' = rc_PreparedBlock p /\
      sr_PreparedRound (rc_payload p') = sr_PreparedRound (rc_payload p) /\
      sr_PreparedDigest (rc_payload p') = sr_PreparedDigest (rc_payload p) /\
      Forall2 (authentic_prepare s r vs) (rc_Justification p) (rc_Justification p')
  | MPrepare p, MPrepare p' => pr_Digest p' = pr_Digest p /\ pr_PrepareSeal p' = pr_PrepareSeal p
  | MCommit p, MCommit p' => cm_Digest p' = cm_Digest p /\ cm_CommitSeal p' = cm_CommitSeal p
  | _, _ => False
  end.

Lemma wp_verifyPrepare p s r vs :
  c_current s = Some r -> c_valSet s = Some vs ->
  wp (verifyPrepare p) s (fun res s' es => s' = s /\ es = [] /\
    forall p', res = inl p' -> authentic_prepare s r vs p p').
Proof.
  intros Hr Hvs. unfold verifyPrepare. wp_simpl. eapply wp_mono; [by apply wp_verifyCommon|].
  intros [c|e] s' es (-> & -> & Hc); wp_simpl; [|done]. split_and!; [done..|].
  intros p' [= <-]. split_and!; cbn; auto.
Qed.

Lemma wp_verifyRoundChangePayload p s r vs :
  c_current s = Some r -> c_valSet s = Some vs ->
  wp (verifyRoundChangePayload p) s (fun res s' es => s' = s /\ es = [] /\
    forall p', res = inl p' -> authentic_rc s r vs p p').
Proof.
  intros Hr Hvs. unfold verifyRoundChangePayload. wp_simpl. eapply wp_mono; [by apply wp_verifyCommon|].
  intros [c|e] s' es (-> & -> & Hc); wp_simpl; [|done]. split_and!; [done..|].
  intros p' [= <-]. split_and!; cbn; auto.
Qed.

Lemma wp_verifySignatures m s r vs :
  c_current s = Some r -> c_valSet s = Some vs ->
  wp (verifySignatures m) s (fun res s' es => s' = s /\ es = [] /\
    forall m', res = inl m' -> authentic_msg s r vs m m').
Proof.
  intros Hr Hvs. pose proof (fun p => wp_verifyPrepare p s r vs Hr Hvs) as HP.
  pose proof (fun p => wp_verifyRoundChangePayload p s r vs Hr Hvs) as HR.
  unfold verifySignatures. wp_simpl. eapply wp_mono; [by apply wp_verifyCommon|].
  intros [c|e] s' es (-> & -> & Hc); wp_simpl; [|done]. specialize (Hc c eq_refl).
  destruct m as [p|p|p|p]; cbn [set_common pp_JustificationRoundChanges pp_JustificationPrepares rc_Justification].
  - wp_simpl. eapply wp_mono; [apply (wp_verifyAll _ _ _ _ HR)|].
    intros [rcs|e] s' es (-> & -> & Hrcs); wp_simpl; [|done].
    eapply wp_mono; [apply (wp_verifyAll _ _ _ _ HP)|].
    intros [ps|e] s' es (-> & -> & Hps); wp_simpl; [|done].
    split_and!; [done..|]. intros m' [= <-]. split_and!; cbn; auto.
  - wp_simpl. split_and!; [done..|]. intros m' [= <-]. by split_and!.
  - wp_simpl. split_and!; [done..|]. intros m' [= <-]. by split_and!.
  - wp_simpl. eapply wp_mono; [apply (wp_verifyAll _ _ _ _ HP)|].
    intros [ps|e] s' es (-> & -> & Hps); wp_simpl; [|done].
    split_and!; [done..|]. intros m' [= <-]. split_and!; cbn; auto.
Qed.

(** An authenticated message is sent by a member of the set that its seal is
    checked against. *)
Lemma authentic_sender s r vs m m' :
  authentic_msg s r vs m m' -> msg_wf m -> msg_wf m' /\ sender_ok s r vs m'.
Proof.
  intros [(a & data & Hc & _ & _ & Hin) Hm] Hwf.
  assert (msg_Code m' = msg_Code m /\ msg_View m' = msg_View m /\ msg_Source m' = a) as (Hcode & Hview & Hsrc)
    by (unfold msg_Code, msg_View, msg_Source; by rewrite Hc).
  split; [unfold msg_wf in *; rewrite Hcode, Hwf; by destruct m, m'|].
  unfold sender_ok, check_at. rewrite Hcode, Hview, Hsrc. unfold signers in Hin.
  fold (msg_View m) in Hin. destruct (checkMessage _ _ _ _ _) as [[]|] eqn:Hcheck; try done.
  - apply checkMessage_extra in Hcheck as [_ [[Hst Hv]|[Hst Hv]]].
    + rewrite bool_decide_eq_true_2 by done. intros pvs Hpvs.
      rewrite Hpvs, bool_decide_eq_true_2 in Hin by done. rewrite Hv in Hin.
      assert (View_Cmp (mkView (ps_round (c_priorState s)) (v_Sequence (rs_view r) - 1)) (rs_view r) = Lt)
        as Hlt by (apply View_Cmp_Lt; left; cbn; lia).
      rewrite Hlt in Hin. rewrite (proj2 (View_Cmp_Eq _ _) eq_refl) in Hin. done.
    + rewrite bool_decide_eq_false_2 by done. rewrite bool_decide_eq_false_2 in Hin by done.
      by rewrite andb_false_r in Hin.
  - assert (match View_Cmp (msg_View m) (rs_view r) with Lt => false | _ => true end = true) as Hge.
    { unfold checkMessage in Hcheck. repeat case_match; done. }
    by destruct (View_Cmp (msg_View m) (rs_view r)).
Qed.

Lemma steps_handleEncodedMsg code data s r vs rcs :
  inv_at s r vs rcs -> backend_ok be ->
  wp (handleEncodedMsg be code data) s (fun _ s' es => step_ok s s' es).
Proof.
  intros Hinv Hbe. pose proof (inv_core _ _ _ _ Hinv) as Hc.
  assert (forall e : option CoreError, wp (mret e) s (fun _ s' es => step_ok s s' es)) as Hret.
  { intros e. by apply steps_calm, wp_ret_calm. }
  unfold handleEncodedMsg. destruct (negb _); [apply Hret|].
  destruct (Decode code data) as [m|] eqn:Hdec; [|apply Hret]. apply Decode_code in Hdec as [_ Hwf].
  wp_simpl. eapply wp_mono; [by apply (wp_verifySignatures m s r vs); destruct Hinv|].
  intros [m'|e] s' es (-> & -> & Hm); [|apply Hret].
  destruct (authentic_sender _ _ _ _ _ (Hm m' eq_refl) Hwf). by eapply steps_handleDecodedMessage.
Qed.

(** ** The other events *)

Lemma wp_handleRequest req s r vs rcs :
  inv_at s r vs rcs ->
  wp (handleRequest be req) s (fun res s' es => calm s s' es /\ (res = Some errFutureMessage -> is_Some (rq_Proposal req))).
Proof.
  intros Hinv. pose proof (inv_core _ _ _ _ Hinv) as Hc. pose proof (inv_current _ _ _ _ Hinv) as Hr.
  unfold handleRequest. wp_simpl. rewrite Hr. unfold checkRequestMsg.
  destruct (rq_Proposal req) as [p|] eqn:Hp; [|wp_simpl; split; [by apply calm_refl|done]].
  destruct (Z.compare (rs_sequence r) (Number p)); wp_simpl; [|split; [by apply calm_refl|eauto]..].
  eapply wp_modify_current; [done|]. wp_simpl. eapply wp_current; [done|]. autorewrite with gowp.
  set (r1 := set_rs_pendingRequest _ _). set (s1 := set_c_current (Some r1) s).
  assert (inv_at s1 r1 vs rcs) as Hinv1.
  { apply (inv_set_current s r); [done|]. destruct (inv_round _ _ _ _ Hinv). by split. }
  assert (forall s' es, core_inv s' -> progress s1 s' -> Forall no_vote es -> calm s s' es) as Hcalm.
  { intros s' es ? Hpr ?. split_and!; [done| |done]. transitivity s1; [|done].
    unfold progress. rewrite Hr. right. by split. }
  rewrite wp_when. destruct (_ && _).
  - eapply wp_sendPreprepareMsg; [done|done|]. intros r' es Hinv' Hv Hes. wp_simpl. split; [|done].
    apply Hcalm; [by eapply inv_core| |solve_outputs]. right. cbn. by rewrite Hv.
  - wp_simpl. split; [|done]. apply Hcalm; [by eapply inv_core|apply progress_refl|apply Forall_nil_2].
Qed.

Lemma wp_storeRequestMsg req s :
  core_inv s -> is_Some (rq_Proposal req) -> wp (storeRequestMsg req) s (fun _ => calm s).
Proof.
  intros (r & vs & rcs & Hinv) [p Hp]. unfold storeRequestMsg. wp_simpl. rewrite Hp. wp_simpl.
  split_and!; [|by apply progress_same|apply Forall_nil_2]. apply (inv_core _ r vs rcs).
  open_inv Hinv. by split.
Qed.

(** What is assumed of the events: a message taken out of the backlog keeps its
    type and its authenticated sender, and rounds stay below 2^64. *)
Definition event_ok s (ev : Event) : Prop :=
  forall r vs, c_current s = Some r -> c_valSet s = Some vs ->
  match ev with
  | BacklogEvent _ m => msg_wf m /\ sender_ok s r vs m
  | TimeoutEvent _ => rs_round r + 1 < 2 ^ 64
  | _ => True
  end.

Lemma steps_gossip s0 s s' es ovs code payload :
  step_ok s0 s es -> s' = s -> step_ok s0 s' (es ++ [OGossip ovs code payload]).
Proof.
  intros [Hi Hp Hv] ->. split; [done..|]. rewrite votes_app. cbn. by rewrite app_nil_r.
Qed.

Lemma handleEvent_step s ev :
  core_inv s -> backend_ok be -> event_ok s ev ->
  wp (handleEvent be ev) s (fun _ s' es => step_ok s s' es).
Proof.
  intros Hc Hbe Hev. pose proof Hc as (r & vs & rcs & Hinv).
  specialize (Hev r vs (inv_current _ _ _ _ Hinv) (inv_valSet _ _ _ _ Hinv)).
  destruct ev as [p|code data|src m|id| |round]; cbn [handleEvent].
  - apply steps_calm. wp_simpl. eapply wp_mono; [by eapply wp_handleRequest|].
    intros e s' es [Hcalm Hp]. rewrite wp_when. case_bool_decide as He; [|by rewrite app_nil_r].
    eapply wp_mono; [apply wp_storeRequestMsg; [by destruct Hcalm|auto]|]. intros [] s'' es'.
    destruct Hcalm as (? & ? & ?). by apply calm_trans.
  - wp_simpl. eapply wp_mono; [by eapply steps_handleEncodedMsg|]. intros [e|] s' es Hstep; wp_simpl; [done|].
    by eapply steps_gossip.
  - destruct Hev as [Hwf Hsrc]. wp_simpl. eapply wp_mono; [by eapply steps_handleDecodedMessage|].
    intros [e|] s' es Hstep; wp_simpl; [done|]. destruct (EncodeMessage m); wp_simpl; [|done].
    by eapply steps_gossip.
  - apply steps_calm. wp_simpl. rewrite wp_when. case_bool_decide; cbn [negb]; [by apply calm_refl|].
    unfold handleTimeoutMsg. wp_simpl. eapply wp_current; [by destruct Hinv|]. cbn [app].
    refine (wp_calm_bind _ _ _ _ _); [eapply wp_startNewRound_calm; [done..|right; lia|done]|].
    intros _ s' Hs'. pose proof Hs' as (r' & ? & ? & Hinv'). wp_simpl.
    eapply wp_current; [by destruct Hinv'|]. by apply wp_broadcastRoundChange_calm.
  - apply steps_calm. eapply wp_startNewRound_calm; [done..|by left|done].
  - apply steps_calm. by apply wp_broadcastRoundChange_calm.
Qed.
End events.
