(* ===== verification/CoreAuth.v ===== *)
(** What the core keeps of the messages it has authenticated, what its
    ROUND-CHANGE messages report, and that locks are kept: the facts about one
    validator that agreement rests on. *)
From S2P Require Import Prelude Validators Prque Messages Config Justification RoundChangeSet CoreState CoreLogic CoreHandlers CoreSpecs CoreInvariant CoreSteps CoreEvents.

Section auth.
Context `{MapOrder} {B : Type} `{Proposal B} `{Crypto} `{Codec B} (be : Backend B).
(** The validators, and a property of messages that authentication gives. *)
Context (vals : list Validator) (Au : WBFTMessage B -> Prop).
Implicit Types (s : Core B) (r : roundState B) (es : list (Output B)).

(** Two rounds that differ at most in the pending request and in the round of the
    last PRE-PREPARE sent. *)
Definition same_round (o o' : option (roundState B)) : Prop :=
  match o, o' with
  | Some r, Some r' =>
      rs_view r' = rs_view r /\ rs_Preprepare r' = rs_Preprepare r /\ rs_WBFTPrepares r' = rs_WBFTPrepares r /\
      rs_WBFTCommits r' = rs_WBFTCommits r /\ rs_preparedRound r' = rs_preparedRound r /\
      rs_preparedBlock r' = rs_preparedBlock r
  | None, None => True
  | _, _ => False
  end.

Definition backlog_au (bl : gmap Address (list (WBFTMessage B * Z))) : Prop :=
  map_Forall (fun _ q => Forall (fun mp => Au mp.1) q) bl.

(** Outputs other than ROUND-CHANGE messages. *)
Definition out_quiet (o : Output B) : Prop :=
  match o with
  | OBroadcast _ m _ => msg_wf m /\ match m with MRoundChange _ => False | _ => True end
  | OPostBacklog _ m => Au m
  | OStartFuturePreprepareTimer p _ => Au (MPreprepare p)
  | _ => True
  end.

Definition quiet_step s s' es : Prop :=
  same_round (c_current s) (c_current s') /\ c_valSet s' = c_valSet s /\ c_priorState s' = c_priorState s /\
  (backlog_au (c_backlogs s) -> backlog_au (c_backlogs s') /\ Forall out_quiet es).

(** A computation that touches neither the messages of the round nor its lock. *)
Definition quiet {A} (m : GoM (Core B) (Output B) A) : Prop :=
  forall s, wlp m s (fun _ s' es => quiet_step s s' es).

Lemma same_round_refl o : same_round o o.
Proof. by destruct o. Qed.

Lemma same_round_trans o1 o2 o3 : same_round o1 o2 -> same_round o2 o3 -> same_round o1 o3.
Proof.
  destruct o1, o2, o3; cbn; try done. intros (-> & -> & -> & -> & -> & ->) (? & ? & ? & ? & ? & ?). by split_and!.
Qed.

Lemma quiet_step_refl s : quiet_step s s [].
Proof. split_and!; [apply same_round_refl|done..|]. intros ?. by split. Qed.

Lemma quiet_step_trans s1 s2 s3 es es' : quiet_step s1 s2 es -> quiet_step s2 s3 es' -> quiet_step s1 s3 (es ++ es').
Proof.
  intros (Hr & Hv & Hp & Hb) (Hr' & Hv' & Hp' & Hb'). split_and!; [by eapply same_round_trans|congruence..|].
  intros Hbl. destruct (Hb Hbl) as [Hbl2 Hes]. destruct (Hb' Hbl2) as [Hbl3 Hes']. split; [done|]. by apply Forall_app.
Qed.

Lemma quiet_ret {A} (a : A) : quiet (mret a).
Proof. intros s. apply quiet_step_refl. Qed.
Lemma quiet_get : quiet get.
Proof. intros s. apply quiet_step_refl. Qed.
Lemma quiet_deref {A} (p : option A) : quiet (deref p).
Proof. intros s. rewrite wlp_deref. intros _ _. apply quiet_step_refl. Qed.
Lemma quiet_panic {A} : quiet (@panic _ A).
Proof. done. Qed.
Lemma quiet_emit o : out_quiet o -> quiet (emit o).
Proof.
  intros Ho s. apply wlp_emit. split_and!; [apply same_round_refl|done..|]. intros ?. split; [done|]. by constructor.
Qed.
Lemma quiet_modify f : (forall s, quiet_step s (f s) []) -> quiet (modify f).
Proof. intros Hf s. apply Hf. Qed.
Lemma quiet_bind {A C} (m : GoM (Core B) (Output B) A) (f : A -> GoM (Core B) (Output B) C) :
  quiet m -> (forall a, quiet (f a)) -> quiet (m ≫= f).
Proof.
  intros Hm Hf s. rewrite wlp_bind. eapply wlp_mono; [apply Hm|]. intros a s' es Hs.
  eapply wlp_mono; [apply Hf|]. intros c s'' es' Hs'. exact (quiet_step_trans _ _ _ _ _ Hs Hs').
Qed.
Lemma quiet_when b (m : GoM (Core B) (Output B) unit) : quiet m -> quiet (when b m).
Proof. intros Hm. destruct b; [done|apply quiet_ret]. Qed.

(** Setters of the fields that do not matter here. *)
Lemma quiet_set f : (forall s, c_current (f s) = c_current s /\ c_valSet (f s) = c_valSet s /\
    c_priorState (f s) = c_priorState s /\ c_backlogs (f s) = c_backlogs s) -> quiet (modify f).
Proof.
  intros Hf. apply quiet_modify. intros s. destruct (Hf s) as (Hc & Hv & Hp & Hb). unfold quiet_step.
  rewrite Hc, Hv, Hp, Hb. split_and!; [apply same_round_refl|done..|]. intros ?. by split.
Qed.
End auth.

Create HintDb quiet.
#[export] Hint Resolve quiet_ret quiet_get quiet_deref quiet_panic quiet_emit : quiet.

(** Walk through a computation with the closure properties of [quiet]. *)
Ltac quiet_step_tac :=
  match goal with
  | |- forall _, _ => intros ?
  | |- quiet _ (_ ≫= _) => apply quiet_bind
  | |- quiet _ (when _ _) => apply quiet_when
  | |- quiet _ (emit _) => apply quiet_emit
  | |- quiet _ (modify _) => apply quiet_set; intros ?; by split_and!
  | |- quiet _ (if ?b then _ else _) => destruct b
  | |- quiet _ (match ?x with _ => _ end) => destruct x eqn:?
  | |- quiet _ _ => solve [eauto with quiet]
  | |- out_quiet _ _ => done
  end.
Ltac quiet_auto := repeat quiet_step_tac.

Section quiet_parts.
Context `{MapOrder} {B : Type} `{Proposal B} `{Crypto} `{Codec B} (be : Backend B) (Au : WBFTMessage B -> Prop).
Implicit Types (s : Core B) (r : roundState B) (es : list (Output B)).

Abbreviation quiet := (quiet Au).

Lemma quiet_emits es : Forall (out_quiet Au) es -> quiet (emits es).
Proof. intros He s. apply wlp_emits. split_and!; [apply same_round_refl|done..|]. intros ?. by split. Qed.
Lemma quiet_current : quiet current.
Proof. unfold current. quiet_auto. Qed.
Lemma quiet_valSet : quiet valSet.
Proof. unfold valSet. quiet_auto. Qed.
Lemma quiet_currentView : quiet currentView.
Proof. unfold currentView. quiet_auto. apply quiet_current. Qed.
Lemma quiet_IsProposer : quiet (IsProposer_core be).
Proof. unfold IsProposer_core. quiet_auto. Qed.
Hint Resolve quiet_current quiet_valSet quiet_currentView quiet_IsProposer : quiet.

Lemma quiet_modify_current f : (forall r, same_round (Some r) (Some (f r))) -> quiet (modify_current f).
Proof.
  intros Hf s. unfold modify_current, current. wp_simpl. intros r Hr. split_and!; cbn; [|done..|].
  - rewrite Hr. apply Hf.
  - intros ?. by split.
Qed.

(** ** The backlog *)

Lemma Forall_Permutation {A} (P : A -> Prop) l l' : l ≡ₚ l' -> Forall P l -> Forall P l'.
Proof. intros Hp Hl. by rewrite <- Hp. Qed.

Abbreviation au_queue := (Forall (fun mp : WBFTMessage B * Z => Au mp.1)).

Lemma Pop_au q m p q' : Pop q = Some (m, p, q') -> au_queue q -> Au m /\ au_queue q'.
Proof. intros Hpop Hq. apply Pop_perm in Hpop. rewrite Hpop in Hq. by apply Forall_cons in Hq. Qed.

Lemma drainBacklog_au fuel check q ks :
  au_queue q -> let '(q', ks', posted) := drainBacklog fuel check q ks in au_queue q' /\ Forall Au posted.
Proof.
  revert q ks; induction fuel as [|fuel IH]; intros q ks Hq; cbn [drainBacklog]; [done|].
  destruct (Pop q) as [[[m p] q']|] eqn:Hpop; [|done]. destruct (Pop_au _ _ _ _ Hpop Hq) as [Hm Hq'].
  specialize (IH q' (ks ∖ {[msg_key m]}) Hq'). destruct (drainBacklog fuel check q' _) as [[q'' ks''] posted].
  destruct IH as [IH1 IH2]. destruct (check _ _) as [[]|]; auto.
  split; [|done]. eapply Forall_Permutation; [symmetry; apply Push_perm|]. by constructor.
Qed.

Lemma processBacklog_au vs check (l : list (Address * list (WBFTMessage B * Z))) bl ks ps :
  backlog_au Au bl -> Forall (fun e => au_queue e.2) l -> Forall (fun e : Validator * _ => Au e.2) ps ->
  let '(bl', ks', ps') := foldl (processBacklogOf vs check) (bl, ks, ps) l in
  backlog_au Au bl' /\ Forall (fun e : Validator * _ => Au e.2) ps'.
Proof.
  revert bl ks ps; induction l as [|[src q] l IH]; intros bl ks ps Hbl Hl Hes; cbn [foldl]; [done|].
  apply Forall_cons in Hl as [Hq Hl]. unfold processBacklogOf at 2. destruct (snd (GetByAddress vs src)) as [v|].
  - pose proof (drainBacklog_au (length q) check q (default ∅ (ks !! src)) Hq) as Hd.
    destruct (drainBacklog _ _ _ _) as [[q' ks'] posted]. destruct Hd as [Hq' Hp]. apply IH; [|done|].
    + by apply map_Forall_insert_2.
    + apply Forall_app. split; [done|]. by apply Forall_fmap.
  - apply IH; [|done..]. by apply map_Forall_delete.
Qed.

Lemma quiet_processBacklog : quiet processBacklog.
Proof.
  intros s. unfold processBacklog. wp_simpl. destruct (range (c_backlogs s)) as [|e l] eqn:Hrange.
  { wp_simpl. apply quiet_step_refl. }
  rewrite <- Hrange. unfold valSet, currentView, current. wp_simpl. intros vs Hvs. wp_simpl. intros r Hr. wp_simpl.
  set (check := checkMessage _ _ _).
  pose proof (processBacklog_au vs check (range (c_backlogs s)) (c_backlogs s) (c_backlogKeys s) []) as Hfold.
  destruct (foldl _ _ _) as [[bl ks] posted]. wp_simpl. split_and!; cbn; [apply same_round_refl|done..|].
  intros Hbl. destruct Hfold as [Hbl' Hes]; [done| |done|].
  - apply Forall_forall. intros [a q] Ha%elem_of_range. by apply (Hbl a).
  - split; [done|]. apply Forall_fmap. eapply Forall_impl; [exact Hes|]. by intros [].
Qed.

Lemma quiet_processPendingRequests : quiet processPendingRequests.
Proof.
  unfold processPendingRequests. quiet_auto. apply quiet_emits, Forall_fmap, Forall_forall. done.
Qed.
Hint Resolve quiet_processBacklog quiet_processPendingRequests : quiet.

Lemma quiet_setState st : quiet (setState st).
Proof. unfold setState. quiet_auto. Qed.

(** ** Timers and messages *)

Lemma quiet_set_timers f : quiet (set_timers f).
Proof. unfold set_timers. quiet_auto. Qed.
Hint Resolve quiet_setState quiet_set_timers : quiet.

Lemma quiet_newRoundChangeTimer seq round : quiet (newRoundChangeTimer seq round).
Proof.
  unfold newRoundChangeTimer, stopTimer, stopFuturePreprepareTimer, stopRetrySendingRoundChangeTimer,
    stopRoundChangeTimer, cancelLastSentTimeout. quiet_auto.
Qed.

Lemma quiet_newRetryTimer : quiet newRetrySendingRoundChangeTimer.
Proof. unfold newRetrySendingRoundChangeTimer, stopRetrySendingRoundChangeTimer. quiet_auto. Qed.

Lemma quiet_broadcast m : msg_wf m -> match m with MRoundChange _ => False | _ => True end -> quiet (broadcast be m).
Proof. intros Hwf Hm. unfold broadcast. quiet_auto. Qed.
Hint Resolve quiet_newRoundChangeTimer quiet_newRetryTimer : quiet.

Lemma quiet_sendPreprepareMsg req : quiet (sendPreprepareMsg be req).
Proof. unfold sendPreprepareMsg. quiet_auto; [by apply quiet_broadcast|]. by apply quiet_modify_current. Qed.

Lemma quiet_broadcastPrepare : quiet (broadcastPrepare be).
Proof. unfold broadcastPrepare. quiet_auto. by apply quiet_broadcast. Qed.

Lemma quiet_broadcastCommit : quiet (broadcastCommit be).
Proof. unfold broadcastCommit. quiet_auto. by apply quiet_broadcast. Qed.
Hint Resolve quiet_sendPreprepareMsg : quiet.

Lemma quiet_handleRequest req : quiet (handleRequest be req).
Proof. unfold handleRequest. quiet_auto. by apply quiet_modify_current. Qed.

Lemma quiet_storeRequestMsg req : quiet (storeRequestMsg req).
Proof. unfold storeRequestMsg. quiet_auto. Qed.

Lemma quiet_verifySeal vs b round st seal a : quiet (verifySeal vs b round st seal a).
Proof. unfold verifySeal. quiet_auto. Qed.
Hint Resolve quiet_verifySeal : quiet.

Lemma quiet_addToExtraSeal m : quiet (addToExtraSeal m).
Proof. unfold addToExtraSeal. quiet_auto. Qed.

Lemma quiet_addRoundChange m : quiet (addRoundChange m).
Proof. unfold addRoundChange. quiet_auto. Qed.

Lemma quiet_proposeAfterRoundChange round : quiet (proposeAfterRoundChange be round).
Proof. unfold proposeAfterRoundChange. quiet_auto. Qed.
End quiet_parts.
#[export] Hint Resolve quiet_current quiet_valSet quiet_currentView quiet_IsProposer quiet_setState quiet_newRoundChangeTimer
  quiet_newRetryTimer quiet_broadcastPrepare quiet_broadcastCommit quiet_verifySeal quiet_addToExtraSeal quiet_addRoundChange
  quiet_proposeAfterRoundChange quiet_handleRequest quiet_storeRequestMsg : quiet.

(** * The invariant of one validator *)

Section steps.
Context `{MapOrder} {B : Type} `{Proposal B} `{Crypto} `{Codec B} (be : Backend B).
Context (vals : list Validator) (Au : WBFTMessage B -> Prop).
Implicit Types (s : Core B) (r : roundState B) (es : list (Output B)).

(** Every message that is kept has property [Au]; the validators are [vals]. *)
Record auth_round (o : option (roundState B)) : Prop := {
  au_preprepare : forall r pp, o = Some r -> rs_Preprepare r = Some pp -> Au (MPreprepare pp);
  au_prepares : forall r, o = Some r -> map_Forall (fun _ p => Au (MPrepare p)) (rs_WBFTPrepares r);
  au_commits : forall r, o = Some r -> map_Forall (fun _ p => Au (MCommit p)) (rs_WBFTCommits r);
  au_bound : forall r, o = Some r -> rs_round r < 2 ^ 64;
}.

Record auth_inv s : Prop := {
  au_valSet : forall vs, c_valSet s = Some vs -> vs_validators vs = vals;
  au_prior : forall vs, ps_validatorSet (c_priorState s) = Some vs -> vs_validators vs = vals;
  au_backlog : backlog_au Au (c_backlogs s);
  au_round : auth_round (c_current s);
}.

(** What the backend answers: the validators do not change, and it reports no
    block as bad. *)
Record backend_fixed : Prop := {
  bf_vals : forall b, vs_validators (be_Validators be b) = vals;
  bf_good : forall h, be_HasBadProposal be h = false;
}.

(** The head of the chain is the block before the one being decided. *)
Definition in_sync s : Prop :=
  exists last lp, be_LastProposal be = (Some last, lp) /\
    forall r, c_current s = Some r -> Number last = rs_sequence r - 1 /\ 0 <= rs_sequence r < 2 ^ 63.

(** Locks: a prepared round is only replaced by a later one. *)
Definition lock_le (a b : option Z) : Prop := match a with None => True | Some x => exists y, b = Some y /\ x <= y end.
Definition keeps_lock s s' : Prop :=
  forall r r', c_current s = Some r -> c_current s' = Some r' -> rs_sequence r' = rs_sequence r ->
  lock_le (rs_preparedRound r) (rs_preparedRound r').

(** What a ROUND-CHANGE message reports of the state in which it is sent: the
    lock, for a round that is not ahead of the current one, or is the next one
    when the current one is prepared. *)
Definition rc_reports s (rc : RoundChange B) : Prop :=
  exists r, c_current s = Some r /\ cp_Sequence (sr_common (rc_payload rc)) = rs_sequence r /\
    sr_PreparedRound (rc_payload rc) = rs_preparedRound r /\
    sr_PreparedDigest (rc_payload rc) = from_option BHash zeroHash (rs_preparedBlock r) /\
    (rc_Round rc <= rs_round r \/ (rc_Round rc = rs_round r + 1 /\ rs_preparedRound r = Some (rs_round r))).

Definition out_ok s (o : Output B) : Prop :=
  match o with
  | OBroadcast _ m _ => msg_wf m /\ match m with MRoundChange rc => rc_reports s rc | _ => True end
  | OPostBacklog _ m => Au m
  | OStartFuturePreprepareTimer p _ => Au (MPreprepare p)
  | _ => True
  end.

Record auth_step s s' es : Prop := {
  as_inv : auth_inv s';
  as_lock : keeps_lock s s';
  as_out : Forall (out_ok s') es;
}.

Lemma out_quiet_ok s es : Forall (out_quiet Au) es -> Forall (out_ok s) es.
Proof. intros Hes. eapply Forall_impl; [exact Hes|]. intros [? []| | | | | | | | | | |]; cbn; tauto. Qed.

Lemma lock_le_refl a : lock_le a a.
Proof. destruct a; cbn; [|done]. eexists. split; [done|lia]. Qed.

Lemma lock_le_trans a b c : lock_le a b -> lock_le b c -> lock_le a c.
Proof. destruct a as [x|]; [|done]. intros (y & -> & ?) (z & -> & ?). exists z. split; [done|lia]. Qed.

Lemma auth_round_same o o' : same_round o o' -> auth_round o -> auth_round o'.
Proof.
  destruct o as [r|], o' as [r'|]; cbn; try done. intros (Hv & Hpp & Hp & Hc & _) [H3 H4 H5 H6]. injection Hv as Hv _.
  split; intros x; [intros pp|..]; intros [= <-]; rewrite ?Hpp, ?Hp, ?Hc, ?Hv; eauto.
Qed.

Lemma auth_quiet s s' es : auth_inv s -> quiet_step Au s s' es -> auth_inv s' /\ Forall (out_quiet Au) es.
Proof.
  intros [Hv Hp Hb Hr] (Hc & Hv' & Hp' & Hb'). destruct (Hb' Hb) as [Hb2 Hes]. split; [|done].
  split; [by rewrite Hv'|by rewrite Hp'|done|]. by eapply auth_round_same.
Qed.

Lemma same_round_lock s s' : same_round (c_current s) (c_current s') -> keeps_lock s s'.
Proof. intros Hs r r' Hr Hr' _. rewrite Hr, Hr' in Hs. destruct Hs as (_ & _ & _ & _ & -> & _). apply lock_le_refl. Qed.

Lemma quiet_auth {A} (m : GoM (Core B) (Output B) A) s :
  quiet Au m -> auth_inv s ->
  wlp m s (fun _ s' es => auth_inv s' /\ same_round (c_current s) (c_current s') /\ Forall (out_quiet Au) es).
Proof.
  intros Hm Hs. eapply wlp_mono; [apply Hm|]. intros a s' es Hq. destruct (auth_quiet _ _ _ Hs Hq).
  split_and!; [done|exact (proj1 Hq)|done].
Qed.

Lemma quiet_auth_step {A} (m : GoM (Core B) (Output B) A) s :
  quiet Au m -> auth_inv s -> wlp m s (fun _ s' es => auth_step s s' es).
Proof.
  intros Hm Hs. eapply wlp_mono; [by apply quiet_auth|]. intros a s' es (? & ? & ?).
  split; [done|by apply same_round_lock|by apply out_quiet_ok].
Qed.

(** A quiet computation before a step. *)
Lemma auth_step_quiet s s1 s2 es es' :
  same_round (c_current s) (c_current s1) -> Forall (out_quiet Au) es -> auth_step s1 s2 es' -> auth_step s s2 (es ++ es').
Proof.
  intros Hs Hes [Hi Hl Ho]. split; [done| |].
  - intros r r' Hr Hr' Hseq. rewrite Hr in Hs. destruct (c_current s1) as [r1|] eqn:Hr1; [|done].
    destruct Hs as (Hv & _ & _ & _ & <- & _). apply (Hl r1 r'); [done..|]. injection Hv as ? ?. congruence.
  - apply Forall_app. split; [by apply out_quiet_ok|done].
Qed.

(** ** New rounds *)

Context (Hbe : backend_fixed).

Lemma auth_newRound view pp pr pb rq :
  (forall p, pp = Some p -> Au (MPreprepare p)) -> v_Round view < 2 ^ 64 ->
  auth_round (Some (newRoundState view pp pr pb rq)).
Proof. intros Hpp Hb. split; intros r; [intros p|..]; intros [= <-]; cbn; [auto|apply map_Forall_empty..|done]. Qed.

(** Installing the round: in the same sequence the lock is kept. *)
Lemma auth_updateRoundState vs view roundChange s :
  auth_inv s -> (forall v, vs = Some v -> vs_validators v = vals) -> v_Round view < 2 ^ 64 ->
  wlp (updateRoundState be vs view roundChange) s (fun _ s' es =>
    auth_inv s' /\ es = [] /\ exists r', c_current s' = Some r' /\ rs_view r' = view /\
      forall r, c_current s = Some r -> roundChange = true -> rs_preparedRound r' = rs_preparedRound r).
Proof.
  intros [Hv Hp Hb Hr] Hvs Hbd. unfold updateRoundState. wp_simpl. destruct (c_current s) as [r|] eqn:Hc.
  - destruct roundChange.
    + assert (forall (Q : unit -> Core B -> list (Output B) -> Prop), Q tt s [] -> wlp
        (match rs_preparedBlock r with
         | Some b => if be_HasBadProposal be (BHash b) then
             modify_current (fun r => set_rs_preparedBlock None (set_rs_preparedRound None r));;
             modify (ClearExtraSeals (rs_sequence r + 1)) else mret tt
         | None => mret tt end) s Q) as Hnobad.
      { intros Q HQ. destruct (rs_preparedBlock r); [|done]. by rewrite (bf_good Hbe). }
      wp_simpl. apply Hnobad. unfold modify_current, current. wp_simpl. rewrite Hc. intros x [= <-].
      split_and!; [split; cbn; auto|done|].
      * apply auth_newRound; [|done]. intros pp Hpp. by eapply (au_preprepare _ Hr).
      * eexists. split_and!; [done..|by destruct view|]. by intros ? [= <-].
    + unfold updatePriorState, current. wp_simpl. rewrite Hc. intros x [= <-].
      split_and!; [split; cbn; auto|done|].
      * intros v. destruct (c_valSet s) eqn:Hcv; [|apply Hp]. intros [= ->]. auto.
      * by apply auth_newRound.
      * eexists. by split_and!; [|destruct view|].
  - wp_simpl. split_and!; [split; cbn; auto|done|]; [by apply auth_newRound|]. eexists. by split_and!; [|destruct view|].
Qed.

(** The part of [startNewRound] behind [updateRoundState]. *)
Lemma auth_startNewRound_tail round last lp (n : Z) s :
  auth_inv s ->
  wlp (vs ← valSet; modify (set_c_valSet (Some (CalcProposer vs lp n)));; setState StateAcceptRequest;;
       startNewRound_rcs round last;; emit (ONotifyNewRound round);;
       r ← current; newRoundChangeTimer (rs_sequence r) (rs_round r)) s
    (fun _ s' es => auth_inv s' /\ same_round (c_current s) (c_current s') /\ Forall (out_quiet Au) es).
Proof.
  intros Hs. wp_simpl. unfold valSet. wp_simpl. intros vs Hvs. wp_simpl. set (s1 := set_c_valSet _ _).
  assert (auth_inv s1) as Hs1.
  { destruct Hs as [Hv Hp Hb Hr]. split; cbn; [|done..]. intros v [= <-]. cbn. by apply Hv. }
  assert (quiet Au (setState (B := B) StateAcceptRequest;; startNewRound_rcs round last;; emit (ONotifyNewRound round);;
    r ← current; newRoundChangeTimer (rs_sequence r) (rs_round r))) as Hq.
  { unfold startNewRound_rcs. quiet_auto. }
  pose proof (quiet_auth _ s1 Hq Hs1) as Hw. autorewrite with gowp in Hw. exact Hw.
Qed.

Lemma auth_startNewRound round s :
  auth_inv s -> round < 2 ^ 64 ->
  wlp (startNewRound be round) s (fun _ s' es => auth_inv s' /\ keeps_lock s s' /\ Forall (out_quiet Au) es /\
    (is_Some (c_current s) -> is_Some (c_current s')) /\
    (in_sync s -> forall r r', c_current s = Some r -> c_current s' = Some r' ->
       rs_sequence r' = rs_sequence r /\ (round <= rs_round r' \/ (round = 0 /\ rs_round r' = rs_round r)))).
Proof.
  intros Hs Hbd. unfold startNewRound. destruct (be_LastProposal be) as [lastProposal lp] eqn:Hlp. wp_simpl.
  assert (wlp (startNewRound_guard round lastProposal) s (fun g s' es => s' = s /\ es = [] /\
    match g with
    | Some false => forall r, c_current s = Some r -> exists last, lastProposal = Some last /\ rs_sequence r <= Number last
    | _ => exists r last, c_current s = Some r /\ lastProposal = Some last /\
        (g = None -> Number last = i64 (big_Int64 (rs_sequence r) - 1) -> round = 0 \/ round < rs_round r)
    end)) as Hguard.
  { unfold startNewRound_guard. wp_simpl. destruct (c_current s) as [r|]; [|by wp_simpl]. wp_simpl. intros last Hlast.
    destruct (Z.leb_spec (rs_sequence r) (Number last)); wp_simpl; [by split_and!; [..|intros ? [= <-]; eauto]|].
    destruct (Z.eqb_spec (Number last) (i64 (big_Int64 (rs_sequence r) - 1)));
      [destruct (Z.eqb_spec round 0); [|destruct (Z.ltb_spec round (rs_round r))]|]; wp_simpl;
      split_and!; try done; exists r, last; split_and!; auto; done. }
  eapply wlp_mono; [exact Hguard|]. clear Hguard. intros [roundChange|] s0 es0 (-> & -> & Hg).
  2:{ wp_simpl. split_and!; [done|by apply same_round_lock, same_round_refl|constructor|done|].
      destruct Hg as (r0 & last & Hr0 & -> & Hg). intros (last' & lp' & Heq & Hsync) r r' Hr Hr'.
      rewrite Hlp in Heq. injection Heq as <- <-. destruct (Hsync r Hr) as [Hn Hb].
      assert (r0 = r) as -> by congruence. assert (r' = r) as -> by congruence.
      split; [done|]. unfold big_Int64 in Hg. rewrite Z.abs_eq, (i64_small (rs_sequence r)) in Hg by lia.
      rewrite (proj2 (Z.ltb_ge _ _)) in Hg by lia. rewrite i64_small in Hg by lia. destruct (Hg eq_refl Hn); [by right|left; lia]. }
  wp_simpl. unfold startNewRound_next. destruct roundChange.
  - unfold current at 1. wp_simpl. intros r Hr. wp_simpl.
    eapply wlp_mono; [apply auth_updateRoundState; [done|by apply au_valSet|done]|].
    intros [] s1 es1 (Hs1 & -> & r1 & Hr1 & Hview & Hlock). cbn [app].
    eapply wlp_mono; [by apply auth_startNewRound_tail|]. intros [] s2 es2 (Hs2 & Hsame & Hes).
    rewrite Hr1 in Hsame. destruct (c_current s2) as [r2|] eqn:Hr2; [|done].
    destruct Hsame as (Hv2 & _ & _ & _ & Hl2 & _). rewrite Hview in Hv2. injection Hv2 as Hround Hseq.
    split_and!; [done| |done|by eexists|].
    + intros x x' Hx Hx' _. assert (x' = r2) as -> by congruence. rewrite Hl2, (Hlock _ Hx eq_refl). apply lock_le_refl.
    + intros _ x x' Hx Hx'. simplify_eq. split; [done|left; lia].
  - wp_simpl. intros last Hlast. wp_simpl. destruct (addEffective_frame s) as (Hf1 & Hf2 & Hf3 & Hf4).
    eapply wlp_mono; [apply auth_updateRoundState|].
    { destruct Hs. split; by rewrite ?Hf1, ?Hf2, ?Hf3, ?Hf4. }
    { intros v [= <-]. apply (bf_vals Hbe). }
    { done. }
    intros [] s1 es1 (Hs1 & -> & r1 & Hr1 & Hview & Hlock). cbn [app].
    eapply wlp_mono; [by apply auth_startNewRound_tail|]. intros [] s2 es2 (Hs2 & Hsame & Hes).
    rewrite Hr1 in Hsame. destruct (c_current s2) as [r2|] eqn:Hr2; [|done].
    destruct Hsame as (Hv2 & _). rewrite Hview in Hv2. injection Hv2 as Hround Hseq.
    split_and!; [done| |done|by eexists|].
    + intros x x' Hx Hx' Heq. destruct (Hg x Hx) as (last' & Hl' & ?). simplify_eq. lia.
    + intros (last' & lp' & Heq & Hsync) x x' Hx Hx'. rewrite Hlp in Heq. injection Heq as Heq1 Heq2.
      destruct (Hg x Hx) as (last'' & ? & ?). destruct (Hsync x Hx). simplify_eq. lia.
Qed.

(** ** Messages sent *)

Lemma auth_broadcastRoundChange round s :
  auth_inv s ->
  (forall r, c_current s = Some r ->
     round <= rs_round r \/ (round = rs_round r + 1 /\ rs_preparedRound r = Some (rs_round r))) ->
  wlp (broadcastRoundChange be round) s (fun _ s' es => auth_step s s' es).
Proof.
  intros Hs Hround. unfold broadcastRoundChange. wp_simpl.
  eapply wlp_mono; [apply quiet_auth; [apply quiet_newRetryTimer|exact Hs]|].
  intros [] s1 es1 (Hs1 & Hsame & Hes1). unfold current. wp_simpl. intros r1 Hr1.
  assert (auth_step s s1 es1) as Hquiet by (split; [done|by apply same_round_lock|by apply out_quiet_ok]).
  destruct (round <? rs_round r1); wp_simpl; [done|].
  destruct (signPayload _ _) as [signature|]; wp_simpl; [|done]. unfold broadcast.
  destruct (EncodeMessage _) as [payload|]; wp_simpl; [|done]. destruct Hquiet as [Hi Hl Ho]. split; [done..|].
  apply Forall_app. split; [done|]. constructor; [split; [done|]|constructor]. exists r1.
  rewrite Hr1 in Hsame. destruct (c_current s) as [r|]; [|done]. destruct Hsame as (Hv & _ & _ & _ & Hp & _).
  injection Hv as Hrd _. specialize (Hround r eq_refl). rewrite <- Hrd, <- Hp in Hround.
  split_and!; [done..| |done]. cbn. by destruct (rs_preparedBlock r1).
Qed.

(** ** Handlers *)

(** A step within the view, then another one. *)
Definition within s s1 : Prop :=
  forall r, c_current s = Some r -> exists r1, c_current s1 = Some r1 /\ rs_view r1 = rs_view r /\
    lock_le (rs_preparedRound r) (rs_preparedRound r1).

Lemma within_same s s1 : same_round (c_current s) (c_current s1) -> within s s1.
Proof.
  intros Hs r Hr. rewrite Hr in Hs. destruct (c_current s1) as [r1|]; [|done]. destruct Hs as (Hv & _ & _ & _ & Hp & _).
  exists r1. rewrite Hp. auto using lock_le_refl.
Qed.

Lemma within_trans s1 s2 s3 : within s1 s2 -> within s2 s3 -> within s1 s3.
Proof.
  intros H12 H23 r Hr. destruct (H12 r Hr) as (r2 & Hr2 & Hv & Hl). destruct (H23 r2 Hr2) as (r3 & Hr3 & Hv' & Hl').
  exists r3. split_and!; [done|congruence|]. by eapply lock_le_trans.
Qed.

Lemma auth_step_within s s1 s2 es es' :
  within s s1 -> Forall (out_quiet Au) es -> auth_step s1 s2 es' -> auth_step s s2 (es ++ es').
Proof.
  intros Hw Hes [Hi Hl Ho]. split; [done| |apply Forall_app; split; [by apply out_quiet_ok|done]].
  intros r r2 Hr Hr2 Hseq. destruct (Hw r Hr) as (r1 & Hr1 & Hv & Hl1). injection Hv as _ Hs1.
  eapply lock_le_trans; [exact Hl1|]. eapply Hl; [done..|congruence].
Qed.

(** A change of the round that keeps the view and the lock. *)
Lemma auth_set_current s r r' :
  auth_inv s -> c_current s = Some r -> auth_round (Some r') -> rs_view r' = rs_view r ->
  lock_le (rs_preparedRound r) (rs_preparedRound r') ->
  auth_inv (set_c_current (Some r') s) /\ within s (set_c_current (Some r') s).
Proof.
  intros [Hv Hp Hb Ho] Hr Hr' Hview Hl. split; [by split|]. intros x Hx. exists r'. assert (x = r) as -> by congruence. by split_and!.
Qed.

Lemma wlp_ret_auth {A} (a : A) s : auth_inv s -> wlp (mret a) s (fun _ s' es => auth_step s s' es).
Proof. intros Hs. apply quiet_auth_step; [apply quiet_ret|done]. Qed.

Lemma wlp_bind_quiet {A C} (m : GoM (Core B) (Output B) A) (f : A -> GoM (Core B) (Output B) C) s :
  quiet Au m -> auth_inv s ->
  (forall a s1, auth_inv s1 -> same_round (c_current s) (c_current s1) -> wlp (f a) s1 (fun _ s' es => auth_step s1 s' es)) ->
  wlp (m ≫= f) s (fun _ s' es => auth_step s s' es).
Proof.
  intros Hm Hs Hf. rewrite wlp_bind. eapply wlp_mono; [by apply quiet_auth|]. intros a s1 es (Hs1 & Hsame & Hes).
  eapply wlp_mono; [by apply Hf|]. intros c s2 es' Hstep. eapply auth_step_within; [by apply within_same|done|done].
Qed.

Lemma wlp_modify_current_within {C} f (k : unit -> GoM (Core B) (Output B) C) s :
  auth_inv s ->
  (forall r, c_current s = Some r -> auth_round (Some (f r)) /\ rs_view (f r) = rs_view r /\
     lock_le (rs_preparedRound r) (rs_preparedRound (f r))) ->
  (forall s1 r, auth_inv s1 -> c_current s = Some r -> s1 = set_c_current (Some (f r)) s ->
     wlp (k tt) s1 (fun _ s' es => auth_step s1 s' es)) ->
  wlp (modify_current f ≫= k) s (fun _ s' es => auth_step s s' es).
Proof.
  intros Hs Hf Hk. unfold modify_current, current. wp_simpl. intros r Hr. wp_simpl. destruct (Hf r Hr) as (Ha & Hv & Hl).
  destruct (auth_set_current s r (f r) Hs Hr Ha Hv Hl) as [Hs1 Hw].
  eapply wlp_mono; [by apply (Hk _ r)|]. intros c s2 es' Hstep. exact (auth_step_within s _ s2 [] es' Hw (Forall_nil_2 _) Hstep).
Qed.

Lemma auth_handlePreprepareMsg pp s :
  auth_inv s -> Au (MPreprepare pp) -> wlp (handlePreprepareMsg be pp) s (fun _ s' es => auth_step s s' es).
Proof.
  intros Hs Hpp. unfold handlePreprepareMsg. apply wlp_bind_quiet; [auto with quiet|done|]. intros vs s0 Hs0 _. clear s Hs.
  destruct (negb _); [apply wlp_bind_quiet; auto using wlp_ret_auth with quiet|].
  destruct (negb _); [by apply wlp_ret_auth|]. destruct (_ && _); [by apply wlp_ret_auth|].
  destruct (be_Verify be _) as [|duration|]; [| |by apply wlp_ret_auth].
  2:{ apply quiet_auth_step; [|done]. unfold stopFuturePreprepareTimer, set_timers. by quiet_auto. }
  apply wlp_bind_quiet; [auto with quiet|done|]. intros s' s1 Hs1 _. case_bool_decide; [|by apply wlp_ret_auth].
  apply wlp_bind_quiet; [auto with quiet|done|]. intros r s2 Hs2 _.
  apply wlp_bind_quiet; [auto with quiet|done|]. intros [] s3 Hs3 _.
  apply wlp_modify_current_within; [done| |].
  - intros x Hx. destruct (au_round _ Hs3) as [_ Hp Hc Hbd]. split_and!; [|done|apply lock_le_refl].
    split; intros y; [intros z|..]; intros [= <-]; cbn; [by intros [= <-]|..]; eauto.
  - intros s4 x Hs4 _ _. apply quiet_auth_step; [|done]. quiet_auto.
Qed.

(** Reading the state. *)
Lemma wlp_bind_current {C} (f : roundState B -> GoM (Core B) (Output B) C) s Q :
  (forall r, c_current s = Some r -> wlp (f r) s Q) -> wlp (current ≫= f) s Q.
Proof. intros Hf. unfold current. wp_simpl. intros r Hr. by apply Hf. Qed.

Lemma wlp_bind_get {C} (f : Core B -> GoM (Core B) (Output B) C) s Q : wlp (f s) s Q -> wlp (get ≫= f) s Q.
Proof. intros Hf. by wp_simpl. Qed.

Lemma wlp_bind_pure {A C} (m : GoM (Core B) (Output B) A) (f : A -> GoM (Core B) (Output B) C) s Q :
  (forall a s' es, m s = Some (a, s', es) -> s' = s /\ es = []) -> (forall a, wlp (f a) s Q) -> wlp (m ≫= f) s Q.
Proof.
  intros Hm Hf. rewrite wlp_bind. unfold wlp at 1. destruct (m s) as [[[a s'] es]|] eqn:Hms; [|done].
  destruct (Hm _ _ _ eq_refl) as [-> ->]. apply Hf.
Qed.

Lemma deref_pure {A} (p : option A) s a s' (es : list (Output B)) : deref p s = Some (a, s', es) -> s' = s /\ es = [].
Proof. unfold deref. destruct p; naive_solver. Qed.
Lemma valSet_pure s a s' (es : list (Output B)) : valSet s = Some (a, s', es) -> s' = s /\ es = [].
Proof. unfold valSet, deref, mbind, GoM_bind, get. destruct (c_valSet s); naive_solver. Qed.
Lemma verifySeal_pure vs b round st seal sealer s a s' (es : list (Output B)) :
  verifySeal vs b round st seal sealer s = Some (a, s', es) -> s' = s /\ es = [].
Proof. unfold verifySeal, deref, mbind, GoM_bind. destruct (snd _); [|done]. cbn. naive_solver. Qed.
Lemma currentView_pure s a s' (es : list (Output B)) : currentView s = Some (a, s', es) -> s' = s /\ es = [].
Proof. unfold currentView, current, deref, mbind, GoM_bind, get. destruct (c_current s); naive_solver. Qed.

Definition lock_bounded s : Prop :=
  forall r pr, c_current s = Some r -> rs_preparedRound r = Some pr -> pr <= rs_round r.

Lemma auth_handlePrepareMsg p s :
  auth_inv s -> lock_bounded s -> Au (MPrepare p) -> wlp (handlePrepareMsg be p) s (fun _ s' es => auth_step s s' es).
Proof.
  intros Hs Hlk Hp. unfold handlePrepareMsg. apply wlp_bind_current. intros r Hr.
  apply wlp_bind_pure; [apply valSet_pure|]. intros vs. apply wlp_bind_pure; [apply deref_pure|]. intros block.
  destruct (negb _); [by apply wlp_ret_auth|]. apply wlp_bind_pure; [apply verifySeal_pure|].
  intros [e|]; [by apply wlp_ret_auth|]. apply wlp_modify_current_within; [done| |].
  { intros x Hx. destruct (au_round _ Hs) as [Hpp Hps Hc Hbd]. split_and!; [|done|apply lock_le_refl].
    split; intros y; [intros z|..]; intros [= <-]; cbn; [by apply Hpp| |by apply Hc|by apply Hbd]. apply map_Forall_insert_2; eauto. }
  intros s1 r0 Hs1 Hr0 ->. apply wlp_bind_current. intros r1 [= <-]. apply wlp_bind_get.
  destruct (_ && _); [|by apply wlp_ret_auth]. apply wlp_modify_current_within; [done| |].
  { intros x [= <-]. destruct (au_round _ Hs1) as [Hpp Hps Hc Hbd]. split_and!; [|done|].
    - split; intros y; [intros z|..]; intros [= <-]; cbn; [by apply (Hpp _ _ eq_refl)|by apply (Hps _ eq_refl)|by apply (Hc _ eq_refl)|by apply (Hbd _ eq_refl)].
    - cbn. destruct (rs_preparedRound r0) as [pr|] eqn:Hpr; [|done]. eexists. split; [done|]. by eapply Hlk. }
  clear Hs1. intros s1 r1 Hs1 [= <-] ->. set (s2 := set_c_current _ _) in *.
  apply wlp_bind_quiet; [quiet_auto|done|]. intros [] s3 Hs3 _.
  assert (wlp (setState StatePrepared;; broadcastCommit be;; mret (@None CoreError)) s3 (fun _ s' es => auth_step s3 s' es)) as Hrest.
  { apply quiet_auth_step; [quiet_auto|done]. }
  destruct (bool_decide _); cbn [when]; [|apply wlp_bind_quiet; [apply quiet_ret|done|]; intros [] s4 Hs4 _;
    apply quiet_auth_step; [quiet_auto|done]].
  apply wlp_modify_current_within; [done| |].
  - intros x Hx. destruct (au_round _ Hs3) as [Hpp Hps Hc Hbd]. split_and!; [|done|apply lock_le_refl].
    split; intros y; [intros z|..]; intros [= <-]; cbn; [by apply (Hpp x)|by apply (Hps x)|by apply (Hc x)|by apply (Hbd x)].
  - intros s4 x Hs4 _ _. apply quiet_auth_step; [quiet_auto|done].
Qed.

(** In the prepared state the round is locked. *)
Definition prepared_lock s : Prop :=
  forall r, c_current s = Some r -> rs_preparedRound r = Some (rs_round r).

Lemma auth_handleCommitMsg c s :
  auth_inv s -> prepared_lock s -> Au (MCommit c) -> wlp (handleCommitMsg be c) s (fun _ s' es => auth_step s s' es).
Proof.
  intros Hs Hlk Hp. unfold handleCommitMsg. apply wlp_bind_current. intros r Hr.
  apply wlp_bind_pure; [apply valSet_pure|]. intros vs. apply wlp_bind_pure; [apply deref_pure|]. intros block.
  destruct (negb _); [by apply wlp_ret_auth|]. apply wlp_bind_pure; [apply verifySeal_pure|].
  intros [e|]; [by apply wlp_ret_auth|]. apply wlp_modify_current_within; [done| |].
  { intros x Hx. destruct (au_round _ Hs) as [Hpp Hps Hc Hbd]. split_and!; [|done|apply lock_le_refl].
    split; intros y; [intros z|..]; intros [= <-]; cbn; [by apply Hpp|by apply Hps| |by apply Hbd]. apply map_Forall_insert_2; eauto. }
  intros s1 r0 Hs1 Hr0 ->. set (s1 := set_c_current _ _) in *.
  assert (prepared_lock s1) as Hlk1 by (intros x [= <-]; cbn; eauto).
  apply wlp_bind_current. intros r1 Hr1. rewrite wlp_bind.
  assert (wlp (when (QuorumSize vs <=? msgSet_Size (rs_WBFTCommits r1)) (commitWBFT be)) s1 (fun _ s' es => auth_step s1 s' es))
    as Hcommit; [|eapply wlp_mono; [exact Hcommit|]; intros [] s' es Hstep; wp_simpl; exact Hstep].
  destruct (_ <=? _); cbn [when]; [|by apply wlp_ret_auth]. unfold commitWBFT.
  apply wlp_bind_quiet; [auto with quiet|done|]. intros [] s2 Hs2 Hsame. apply wlp_bind_current. intros r2 Hr2.
  destruct (rs_Proposal r2); [|by apply wlp_ret_auth]. apply wlp_bind_pure; [apply valSet_pure|]. intros vs'.
  apply wlp_bind_quiet; [by apply quiet_emit|done|]. intros [] s3 Hs3 Hsame'.
  destruct (be_CommitFails be _ _ _ _); cbn [when]; [|by apply wlp_ret_auth].
  assert (prepared_lock s3) as Hlk3.
  { intros x Hx. pose proof (same_round_trans _ _ _ Hsame Hsame') as Hsm. rewrite Hr1, Hx in Hsm.
    destruct Hsm as (Hv & _ & _ & _ & Hpr & _). injection Hv as -> _. rewrite Hpr. by apply Hlk1. }
  unfold broadcastNextRoundChange, currentView. rewrite wlp_bind. apply wlp_bind_current. intros x Hx. wp_simpl.
  apply auth_broadcastRoundChange; [done|]. intros y Hy. right. assert (y = x) as -> by congruence. split; [done|]. by apply Hlk3.
Qed.

Lemma in_sync_same s s1 : in_sync s -> same_round (c_current s) (c_current s1) -> in_sync s1.
Proof.
  intros (last & lp & Hlp & Hs) Hsame. exists last, lp. split; [done|]. intros r1 Hr1. rewrite Hr1 in Hsame.
  destruct (c_current s) as [r|]; [|done]. destruct Hsame as (Hv & _). injection Hv as _ ->. by apply Hs.
Qed.

Definition round_nonneg s : Prop := forall r, c_current s = Some r -> 0 <= rs_round r.

Lemma getMinRoundChange_bound (rcs : roundChangeSet B) round : round < 2 ^ 64 -> getMinRoundChange rcs round < 2 ^ 64.
Proof.
  intros Hr. unfold getMinRoundChange. set (keys := fmap _ _). pose proof (head_merge_sort_spec keys) as Hhead.
  destruct (sorting.merge_sort Z.le keys) as [|k ks]; [done|].
  destruct Hhead as [(k1 & -> & _)%list_elem_of_fmap _]. pose proof (i64_range k1). lia.
Qed.

(** A new round and the ROUND-CHANGE message for it. *)
Lemma auth_changeRound {C} round (k : unit -> GoM (Core B) (Output B) C) s :
  auth_inv s -> in_sync s -> round_nonneg s -> round < 2 ^ 64 -> (exists r, c_current s = Some r) ->
  (forall s1, auth_inv s1 -> (forall r1, c_current s1 = Some r1 -> round <= rs_round r1) ->
     wlp (k tt) s1 (fun _ s' es => auth_step s1 s' es)) ->
  wlp (startNewRound be round ≫= k) s (fun _ s' es => auth_step s s' es).
Proof.
  intros Hs Hsync Hnn Hbd [r Hr] Hk. rewrite wlp_bind. eapply wlp_mono; [by apply auth_startNewRound|].
  intros [] s1 es1 (Hs1 & Hl1 & Hes1 & Hsome & Hround). specialize (Hround Hsync). destruct Hsome as [r1 Hr1]; [by eexists|].
  destruct (Hround r r1 Hr Hr1) as [Hseq1 Hrd]. eapply wlp_mono; [apply Hk; [done|]|].
  - intros x Hx. assert (x = r1) as -> by congruence. destruct Hrd as [?|[-> ->]]; [done|]. by apply Hnn.
  - intros c s2 es2 [Hi Hl Ho]. split; [done| |apply Forall_app; split; [by apply out_quiet_ok|done]].
    intros x r2 Hx Hr2 Hseq. assert (x = r) as -> by congruence.
    eapply lock_le_trans; [by eapply Hl1|]. eapply Hl; [done..|congruence].
Qed.

Lemma auth_handleRoundChangeMsg rc s :
  auth_inv s -> in_sync s -> round_nonneg s -> wlp (handleRoundChangeMsg be rc) s (fun _ s' es => auth_step s s' es).
Proof.
  intros Hs Hsync Hnn. unfold handleRoundChangeMsg, currentView. rewrite wlp_bind. apply wlp_bind_current. intros r0 Hr0.
  rewrite wlp_ret. cbn [app]. pose proof (au_bound _ (au_round _ Hs) r0 Hr0) as Hbd. apply wlp_bind_get. apply wlp_bind_pure; [apply deref_pure|]. intros _.
  apply wlp_bind_quiet; [quiet_auto|done|]. intros [e|] s1 Hs1 Hsame; [by apply wlp_ret_auth|].
  apply (in_sync_same _ _ Hsync) in Hsame as Hsync1. apply wlp_bind_get. apply wlp_bind_pure; [apply deref_pure|].
  intros rcs. apply wlp_bind_pure; [apply valSet_pure|]. intros vs. apply wlp_bind_current. intros r Hr.
  apply wlp_bind_pure.
  { unfold IsProposer_core, mbind, GoM_bind, get. intros a s' es. destruct (c_valSet s1); cbn; naive_solver. }
  intros isProposer. destruct (reachedFPlusOne _ _).
  - apply auth_changeRound; [done..| |by apply getMinRoundChange_bound|by eexists|].
    + intros x Hx. rewrite Hx, Hr0 in Hsame. destruct Hsame as (Hv & _). injection Hv as -> _. by apply Hnn.
    + intros s2 Hs2 Hround. rewrite wlp_bind. eapply wlp_mono; [apply auth_broadcastRoundChange; [done|]|].
      * intros x Hx. left. by apply Hround.
      * intros [] s3 es3 Hstep. by wp_simpl.
  - destruct (_ && _); [|by apply wlp_ret_auth]. apply quiet_auth_step; [auto with quiet|done].
Qed.

(** ** Events *)

(** When a new round may be started: the chain has not moved on, and the timer
    for repeating ROUND-CHANGE messages belongs to this height. *)
Definition sync_event s (ev : @Event B) : Prop :=
  match ev with
  | TimeoutEvent _ => in_sync s /\ forall r, c_current s = Some r -> rs_round r + 1 < 2 ^ 64
  | MessageEvent code _ => code = RoundChangeCode -> in_sync s
  | BacklogEvent _ m => msg_Code m = RoundChangeCode -> in_sync s
  | RetryTimeoutEvent round => forall r, c_current s = Some r -> round <= rs_round r
  | _ => True
  end.

Lemma core_inv_facts s r vs rcs : inv_at s r vs rcs ->
  lock_bounded s /\ round_nonneg s /\ (c_state s = StatePrepared -> prepared_lock s).
Proof.
  intros Hinv. pose proof (inv_current _ _ _ _ Hinv) as Hr. pose proof (inv_round _ _ _ _ Hinv) as Hri.
  split_and!.
  - intros x pr Hx Hpr. assert (x = r) as -> by congruence. destruct (ri_lock _ _ _ _ Hri pr Hpr) as [? _]. lia.
  - intros x Hx. assert (x = r) as -> by congruence. apply (ri_round _ _ _ _ Hri).
  - intros Hst x Hx. assert (x = r) as -> by congruence. destruct (ri_prepared _ _ _ _ Hri (or_introl Hst)) as (b & _ & _ & ? & _). done.
Qed.

Lemma auth_handleDecodedMessage m s :
  core_inv s -> auth_inv s -> msg_wf m -> Au m -> (msg_Code m = RoundChangeCode -> in_sync s) ->
  wlp (handleDecodedMessage be m) s (fun _ s' es => auth_step s s' es).
Proof.
  intros (r & vs & rcs & Hinv) Hs Hwf Hm Hsync. destruct (core_inv_facts _ _ _ _ Hinv) as (Hlb & Hnn & Hpl).
  unfold handleDecodedMessage, currentView. rewrite wlp_bind. apply wlp_bind_current. intros x Hx. wp_simpl.
  assert (x = r) as -> by (pose proof (inv_current _ _ _ _ Hinv); congruence). clear Hx. fold (check_at s r m).
  destruct (check_at s r m) as [e|] eqn:Hcheck.
  - destruct e; try (by apply (wlp_ret_auth (Some _))); [|by apply quiet_auth_step; [apply quiet_addToExtraSeal|]].
    wp_simpl. assert (quiet_step Au s (addToBacklog m s) []) as Hq.
    { unfold addToBacklog. case_bool_decide; [apply quiet_step_refl|].
      assert (forall q ks, Forall (fun mp => Au mp.1) q -> quiet_step Au s (set_c_backlogKeys ks
        (set_c_backlogs (<[msg_Source m := Push q m (toNegatePriority (msg_Code m) (msg_View m))]> (c_backlogs s)) s)) []) as Hpush.
      { intros q ks Hq. split_and!; cbn; [apply same_round_refl|done..|]. intros Hb. split; [|constructor].
        apply map_Forall_insert_2; [|done]. eapply Forall_Permutation; [symmetry; apply Push_perm|]. by constructor. }
      destruct (c_backlogs s !! msg_Source m) as [q|] eqn:Hq; [|by apply Hpush].
      case_bool_decide; [apply quiet_step_refl|]. destruct (_ <=? _); [apply quiet_step_refl|]. apply Hpush.
      by apply (au_backlog _ Hs (msg_Source m)). }
    destruct (auth_quiet _ _ _ Hs Hq) as [Hs' _]. split; [done|apply same_round_lock, Hq|constructor].
  - apply checkMessage_None in Hcheck. unfold msg_wf in Hwf. rewrite Hwf in Hcheck, Hsync. rewrite deliverMessage_wf by done.
    destruct m as [p|p|p|p]; cbn in Hcheck.
    + by apply auth_handlePreprepareMsg.
    + by apply auth_handlePrepareMsg.
    + destruct Hcheck. apply auth_handleCommitMsg; auto.
    + apply auth_handleRoundChangeMsg; auto.
Qed.

(** The messages of an event have property [Au]. *)
Definition au_event s (ev : @Event B) : Prop :=
  match ev with
  | MessageEvent code data => forall m m' r vs, Decode code data = Some m -> c_current s = Some r -> c_valSet s = Some vs ->
      authentic_msg s r vs m m' -> Au m'
  | BacklogEvent _ m => msg_wf m /\ Au m
  | _ => True
  end.

Lemma auth_step_gossip s s' es o : auth_step s s' es -> out_quiet Au o -> auth_step s s' (es ++ [o]).
Proof.
  intros [Hi Hl Ho] Hq. split; [done..|]. apply Forall_app. split; [done|]. apply out_quiet_ok. by constructor.
Qed.

Lemma auth_handleEncodedMsg code data s :
  core_inv s -> auth_inv s -> sync_event s (MessageEvent code data) -> au_event s (MessageEvent code data) ->
  wlp (handleEncodedMsg be code data) s (fun _ s' es => auth_step s s' es).
Proof.
  intros Hc Hs Hsync Hau. unfold handleEncodedMsg. destruct (negb _); [by apply wlp_ret_auth|].
  destruct (Decode code data) as [m|] eqn:Hdec; [|by apply wlp_ret_auth].
  destruct (Decode_code _ _ _ Hdec) as [Hcode Hwf]. pose proof Hc as (r & vs & rcs & Hinv).
  pose proof (inv_current _ _ _ _ Hinv) as Hr. pose proof (inv_valSet _ _ _ _ Hinv) as Hvs.
  pose proof (wp_verifySignatures m s r vs Hr Hvs) as Hver. rewrite wlp_bind. unfold wp in Hver. unfold wlp at 1.
  destruct (verifySignatures m s) as [[[v s1] es1]|]; [|done]. destruct Hver as (-> & -> & Hm).
  destruct v as [m'|e]; [|by apply wlp_ret_auth]. specialize (Hm m' eq_refl).
  destruct (authentic_sender _ _ _ _ _ Hm Hwf) as [Hwf' _].
  assert (msg_Code m' = code) as Hcode'.
  { rewrite <- Hcode. destruct Hm as [(a & d & Hcm & _) _]. unfold msg_Code. by rewrite Hcm. }
  eapply wlp_mono; [apply (auth_handleDecodedMessage m'); [done..| |]|].
  - by eapply Hau.
  - rewrite Hcode'. apply Hsync.
  - intros e s' es Hstep. exact Hstep.
Qed.

Lemma auth_handleEvent s ev :
  core_inv s -> auth_inv s -> sync_event s ev -> au_event s ev ->
  wlp (handleEvent be ev) s (fun _ s' es => auth_step s s' es).
Proof.
  intros Hc Hs Hsync Hau. pose proof Hc as (r & vs & rcs & Hinv). destruct (core_inv_facts _ _ _ _ Hinv) as (Hlb & Hnn & Hpl).
  destruct ev as [p|code data|src m|id| |round]; cbn [handleEvent].
  - apply quiet_auth_step; [quiet_auto|done].
  - rewrite wlp_bind. eapply wlp_mono; [by apply auth_handleEncodedMsg|]. intros [e|] s' es Hstep; wp_simpl; [done|].
    by apply auth_step_gossip.
  - destruct Hau as [Hwf Hm]. rewrite wlp_bind. eapply wlp_mono; [by apply auth_handleDecodedMessage|].
    intros [e|] s' es Hstep; wp_simpl; [done|]. destruct (EncodeMessage m); wp_simpl; [|done]. by apply auth_step_gossip.
  - apply wlp_bind_get. destruct (negb _); cbn [when]; [|by apply wlp_ret_auth]. unfold handleTimeoutMsg.
    apply wlp_bind_current. intros x Hx. destruct Hsync as [Hsync Hbd]. apply auth_changeRound; [done..|by apply Hbd|by eexists|]. intros s1 Hs1 Hround.
    apply wlp_bind_current. intros y Hy. apply auth_broadcastRoundChange; [done|]. intros z Hz. left. by apply Hround.
  - eapply wlp_mono; [by apply auth_startNewRound|]. intros [] s' es (Hs' & Hl & Hes & _).
    split; [done..|by apply out_quiet_ok].
  - apply auth_broadcastRoundChange; [done|]. intros x Hx. left. by apply Hsync.
Qed.
End steps.
