(* ===== verification/CoreRuns.v ===== *)
(** Runs of the core: the sequences of events that the main loop handles after
    [Start], and what holds in all of them. *)
From Stdlib Require Import Sorted.
From S2P Require Import Prelude Validators Prque Messages Config Justification RoundChangeSet CoreState CoreLogic CoreHandlers CoreSpecs CoreInvariant CoreSteps CoreEvents.

Section runs.
Context `{MapOrder} {B : Type} `{Proposal B} `{Crypto} `{Codec B}.
Implicit Types (s : Core B) (es : list (Output B)).

(** [Start] runs [startNewRound(0)] on a new core.  Then every event is handled
    against the backend as it is at that time. *)
Inductive run (config : Config) (address : Address) : Core B -> list (Output B) -> Prop :=
  | run_start be s es :
      backend_ok be -> startNewRound be 0 (NewCore config address) = Some (tt, s, es) ->
      run config address s es
  | run_event be ev s s' es es' :
      run config address s es -> backend_ok be -> event_ok s ev ->
      handleEvent be ev s = Some (tt, s', es') -> run config address s' (es ++ es').

(** ** The first round *)

Lemma wp_updateRoundState_first be view vs s (Q : unit -> Core B -> list (Output B) -> Prop) :
  c_current s = None ->
  Q tt (set_c_valSet (Some vs) (set_c_current (Some (newRoundState view None None None None)) s)) [] ->
  wp (updateRoundState be (Some vs) view false) s Q.
Proof. intros Hc HQ. unfold updateRoundState. wp_simpl. rewrite Hc. by wp_simpl. Qed.

Lemma start_round be config address :
  backend_ok be ->
  wp (startNewRound be 0) (NewCore config address) (fun _ s' es => core_inv s' /\ Forall no_vote es).
Proof.
  intros [[last Hlast] Hbe]. unfold startNewRound. destruct (be_LastProposal be) as [lp proposer].
  cbn in Hlast. subst lp. wp_simpl. unfold startNewRound_guard. wp_simpl. cbn [c_current NewCore]. wp_simpl.
  unfold startNewRound_next. wp_simpl. unfold addEffectiveSealToExtraSeal. cbn [c_current NewCore].
  apply wp_updateRoundState_first; [done|]. set (s1 := set_c_valSet _ _).
  assert (fresh_round 0 s1 (newRoundState (mkView 0 (Number last + 1)) None None None None)
    (be_Validators be last)) as Hfr.
  { split; cbn; try done; try apply msgSet_ok_empty; [by apply newRoundState_inv|..].
    - by intros [].
    - split; cbn; done || set_solver || lia. }
  refine (wp_startNewRound_tail 0 last proposer _ s1 _ _ _ Hfr _).
  intros s' vs' rcs es Hinv _ Hes. split; [by eapply inv_core|solve_outputs].
Qed.

Lemma run_inv config address s es : run config address s es -> core_inv s.
Proof.
  induction 1 as [be s es Hbe Hrun|be ev s s' es es' _ IH Hbe Hev Hstep].
  - by destruct (wp_run _ _ _ _ _ _ (start_round be config address Hbe) Hrun).
  - by destruct (wp_run _ _ _ _ _ _ (handleEvent_step be s ev IH Hbe Hev) Hstep).
Qed.

(** ** The order of votes *)

(** Votes are cast at a position of the protocol: a view and a phase. *)
Definition pos : Type := View * Z.
Definition pos_lt (p q : pos) : Prop := view_lt p.1 q.1 \/ (p.1 = q.1 /\ p.2 < q.2).
Definition pos_le (p q : pos) : Prop := view_lt p.1 q.1 \/ (p.1 = q.1 /\ p.2 <= q.2).

Definition vote_pos (v : Vote) : pos :=
  match v with
  | VPrepare v _ => (v, 1)
  | VCommit v _ => (v, 2)
  | VBlock b _ round => (mkView round (Number b), 3)
  end.

Definition vote_lt (v w : @Vote B) : Prop := pos_lt (vote_pos v) (vote_pos w).

Definition core_pos s : option pos :=
  match c_current s with Some r => Some (rs_view r, State_num (c_state s)) | None => None end.

Lemma pos_le_lt_trans p q q' : pos_le p q -> pos_lt q q' -> pos_lt p q'.
Proof.
  destruct p as [[] ?], q as [[] ?], q' as [[] ?]; unfold pos_le, pos_lt, view_lt; cbn.
  intros [?|[[= -> ->] ?]] [?|[[= -> ->] ?]]; try (left; lia). right; split; [done|lia].
Qed.

Lemma pos_le_trans p q q' : pos_le p q -> pos_le q q' -> pos_le p q'.
Proof.
  destruct p as [[] ?], q as [[] ?], q' as [[] ?]; unfold pos_le, view_lt; cbn.
  intros [?|[[= -> ->] ?]] [?|[[= -> ->] ?]]; try (left; lia). right; split; [done|lia].
Qed.

Lemma StronglySorted_snoc {A} (R : A -> A -> Prop) l x :
  StronglySorted R l -> Forall (fun y => R y x) l -> StronglySorted R (l ++ [x]).
Proof.
  induction 1 as [|y l Hs IH Hy]; cbn; [intros _; by repeat constructor|].
  intros [Hyx Hl]%Forall_cons. constructor; [auto|]. apply Forall_app. split; [done|by repeat constructor].
Qed.

(** A step casts nothing, or one vote at its final position, which lies
    strictly after the initial one. *)
Lemma step_votes s s' es p p' :
  step_ok s s' es -> core_pos s = Some p -> core_pos s' = Some p' ->
  pos_le p p' /\ (votes es = [] \/ exists v, votes es = [v] /\ vote_pos v = p' /\ pos_lt p p').
Proof.
  intros [_ Hpr Hv] Hp Hp'. unfold core_pos, progress in *.
  destruct (c_current s) as [r|] eqn:Hr; [|done]. destruct (c_current s') as [r'|] eqn:Hr'; [|done].
  injection Hp as <-. injection Hp' as <-. split; [exact Hpr|].
  assert (forall st st' v b, moves s s' st st' v b -> State_num st < State_num st' ->
    pos_lt (rs_view r, State_num (c_state s)) (rs_view r', State_num (c_state s')) /\
    rs_view r' = v /\ c_state s' = st') as Hmoves.
  { intros st st' v b (r1 & r2 & H1' & H2' & Hv1 & Hv2 & Hs1 & Hs2 & _) Hlt.
    assert (r1 = r) as -> by congruence. assert (r2 = r') as -> by congruence. subst st st'.
    split_and!; [right; cbn; split; [congruence|done]|done|done]. }
  inversion Hv as [Hes|v b Hm Hes|v b Hm Hes|v b cs vs Hm _ Hn _ Hes]; [by left|right..];
    destruct (Hmoves _ _ _ _ Hm ltac:(done)) as (Hlt & <- & Hst); eexists; (split; [reflexivity|split; [|done]]);
    rewrite Hst; cbn; [done|done|]. by rewrite Hn.
Qed.

Lemma core_pos_inv s : core_inv s -> exists p, core_pos s = Some p.
Proof. intros (r & vs & rcs & Hinv). unfold core_pos. rewrite (inv_current _ _ _ _ Hinv). eauto. Qed.

Lemma run_votes config address s es :
  run config address s es ->
  StronglySorted vote_lt (votes es) /\
  forall p, core_pos s = Some p -> Forall (fun v => pos_le (vote_pos v) p) (votes es).
Proof.
  induction 1 as [be s es Hbe Hrun|be ev s s' es es' Hrun IH Hbe Hev Hstep].
  - destruct (wp_run _ _ _ _ _ _ (start_round be config address Hbe) Hrun) as [_ Hes].
    rewrite (votes_none _ Hes). split; constructor.
  - pose proof (run_inv _ _ _ _ Hrun) as Hinv.
    pose proof (wp_run _ _ _ _ _ _ (handleEvent_step be s ev Hinv Hbe Hev) Hstep) as Hok.
    destruct (core_pos_inv s Hinv) as [p Hp], (core_pos_inv s' (so_inv _ _ _ Hok)) as [p' Hp'].
    destruct IH as [Hsorted Hle], (step_votes _ _ _ _ _ Hok Hp Hp') as [Hpp Hcase].
    specialize (Hle p Hp). rewrite votes_app. destruct Hcase as [->|(v & -> & Hvp & Hlt)].
    + rewrite app_nil_r. split; [done|]. intros q Hq. assert (q = p') as -> by congruence.
      eapply Forall_impl; [exact Hle|]. intros w Hw. exact (pos_le_trans _ _ _ Hw Hpp).
    + split.
      * apply StronglySorted_snoc; [done|]. eapply Forall_impl; [exact Hle|]. intros w Hw.
        unfold vote_lt. rewrite Hvp. exact (pos_le_lt_trans _ _ _ Hw Hlt).
      * intros q Hq. assert (q = p') as -> by congruence. apply Forall_app. split.
        -- eapply Forall_impl; [exact Hle|]. intros w Hw. exact (pos_le_trans _ _ _ Hw Hpp).
        -- constructor; [|constructor]. rewrite Hvp. right. split; [done|lia].
Qed.

(** The block votes of a run. *)
Lemma run_blocks config address s es :
  run config address s es ->
  forall b cs round, VBlock b cs round ∈ votes es ->
  exists vs, valset_ok vs /\ committed_ok vs b round cs.
Proof.
  induction 1 as [be s es Hbe Hrun|be ev s s' es es' Hrun IH Hbe Hev Hstep]; intros b cs round.
  - destruct (wp_run _ _ _ _ _ _ (start_round be config address Hbe) Hrun) as [_ Hes].
    rewrite (votes_none _ Hes). by intros ?%not_elem_of_nil.
  - pose proof (run_inv _ _ _ _ Hrun) as Hinv.
    pose proof (wp_run _ _ _ _ _ _ (handleEvent_step be s ev Hinv Hbe Hev) Hstep) as [Hinv' _ Hv].
    rewrite votes_app, elem_of_app. intros [Hin|Hin]; [by eapply IH|].
    inversion Hv as [Hes|v b' Hm Hes|v b' Hm Hes|v b' cs' vs Hm Hvs Hn Hc Hes]; rewrite <- Hes in Hin;
      [by apply not_elem_of_nil in Hin|by apply list_elem_of_singleton in Hin..|].
    apply list_elem_of_singleton in Hin as [= -> -> ->]. exists vs. split; [|done].
    destruct Hinv' as (? & vs' & ? & Hinv'). pose proof (inv_valSet _ _ _ _ Hinv').
    pose proof (inv_vs _ _ _ _ Hinv'). congruence.
Qed.

(** ** One vote at each position *)

Lemma StronglySorted_lookup {A} (R : A -> A -> Prop) l i j x y :
  StronglySorted R l -> (i < j)%nat -> l !! i = Some x -> l !! j = Some y -> R x y.
Proof.
  intros Hs. revert i j. induction Hs as [|z l Hs IH Hz]; intros i j Hij Hi Hj; [done|].
  destruct j as [|j]; [lia|]. cbn in Hj. destruct i as [|i]; cbn in Hi.
  - injection Hi as ->. rewrite Forall_forall in Hz. apply Hz. by eapply list_elem_of_lookup_2.
  - eapply IH; [|done|done]. lia.
Qed.

Lemma pos_lt_irrefl (p : pos) : ~ pos_lt p p.
Proof. destruct p as [[] ?]. unfold pos_lt, view_lt; cbn. lia. Qed.

Lemma same_position es i j v w :
  StronglySorted vote_lt (votes es) -> votes es !! i = Some v -> votes es !! j = Some w ->
  vote_pos v = vote_pos w -> i = j.
Proof.
  intros Hs Hi Hj Hvw. destruct (lt_eq_lt_dec i j) as [[Hlt|Heq]|Hlt]; [|done|].
  - pose proof (StronglySorted_lookup _ _ _ _ _ _ Hs Hlt Hi Hj) as Hpos. unfold vote_lt in Hpos.
    rewrite Hvw in Hpos. by apply pos_lt_irrefl in Hpos.
  - pose proof (StronglySorted_lookup _ _ _ _ _ _ Hs Hlt Hj Hi) as Hpos. unfold vote_lt in Hpos.
    rewrite Hvw in Hpos. by apply pos_lt_irrefl in Hpos.
Qed.


(** ** Executions *)

(** The backlog events of a core: the messages that [processBacklog] has posted,
    and the PRE-PREPAREs that the timer for future blocks feeds in again.  They
    are handled at any later time, in any order and any number of times. *)
Definition comes_back es (src : option Validator) (m : WBFTMessage B) : Prop :=
  OPostBacklog src m ∈ es \/
  exists p duration, m = MPreprepare p /\ OStartFuturePreprepareTimer p duration ∈ es.

Definition posted s es (ev : Event) : Prop :=
  match ev with
  | BacklogEvent src m => comes_back es src m
  | TimeoutEvent _ => forall r, c_current s = Some r -> rs_round r + 1 < 2 ^ 64
  | _ => True
  end.

(** [Start], then any sequence of events, the backlog events being those of the
    core itself. *)
Inductive execution (config : Config) (address : Address) : Core B -> list (Output B) -> Prop :=
  | execution_start be s es :
      backend_ok be -> startNewRound be 0 (NewCore config address) = Some (tt, s, es) ->
      execution config address s es
  | execution_event be ev s s' es es' :
      execution config address s es -> backend_ok be -> posted s es ev ->
      handleEvent be ev s = Some (tt, s', es') -> execution config address s' (es ++ es').
End runs.

(** * Messages that come back are from members

    [processBacklog] posts a message only when its sender belongs to the set of
    the height, but the message is handled later, without another check, and its
    seal is verified against the set of the height it has then or against the
    previous one.  The sender belongs to that set: it belongs to the set of every
    height at which its message was kept, and the set of a height never changes. *)

Section members.
Context `{MapOrder} {B : Type} `{Proposal B} `{Crypto} `{Codec B}.
Implicit Types (s : Core B) (es : list (Output B)) (m : WBFTMessage B).

(** The height, the members of its set, and those of the prior set. *)
Definition sets s : option Z * option (list Address) * option (list Address) :=
  (rs_sequence <$> c_current s, AddressList <$> c_valSet s, AddressList <$> ps_validatorSet (c_priorState s)).

Definition seq_of m : Z := v_Sequence (msg_View m).

Definition prior_member s m : Prop :=
  Some (seq_of m + 1) = (sets s).1.1 -> forall l, (sets s).2 = Some l -> msg_Source m ∈ l.

(** A message that may be handled at any time from now on. *)
Definition pending s m : Prop :=
  exists n l, (sets s).1 = (Some n, Some l) /\ msg_wf m /\ seq_of m <= n /\
    (seq_of m = n -> msg_Source m ∈ l) /\ prior_member s m.

(** The messages of the backlog, between events and before [processBacklog]. *)
Definition queued s : Prop :=
  map_Forall (fun a => Forall (fun mp => msg_Source mp.1 = a /\ msg_wf mp.1 /\ prior_member s mp.1 /\
    exists n l, (sets s).1 = (Some n, Some l) /\ a ∈ l)) (c_backlogs s).

Definition ready s : Prop :=
  map_Forall (fun a => Forall (fun mp => msg_Source mp.1 = a /\ msg_wf mp.1 /\ prior_member s mp.1)) (c_backlogs s).

Definition out_pending s (o : Output B) : Prop :=
  match o with
  | OPostBacklog _ m => pending s m
  | OStartFuturePreprepareTimer p _ => pending s (MPreprepare p)
  | _ => True
  end.

Definition member_step s s' es : Prop :=
  queued s -> queued s' /\ (forall m, pending s m -> pending s' m) /\ Forall (out_pending s') es.

Lemma out_pending_mono s s' es :
  (forall m, pending s m -> pending s' m) -> Forall (out_pending s) es -> Forall (out_pending s') es.
Proof. intros Hm Hes. eapply Forall_impl; [exact Hes|]. intros []; cbn; auto. Qed.

Lemma member_step_trans s1 s2 s3 es es' :
  member_step s1 s2 es -> member_step s2 s3 es' -> member_step s1 s3 (es ++ es').
Proof.
  intros H12 H23 Hq. destruct (H12 Hq) as (Hq2 & Hp & Hes). destruct (H23 Hq2) as (Hq3 & Hp' & Hes').
  split_and!; [done|auto|]. apply Forall_app. split; [by eapply out_pending_mono|done].
Qed.

Lemma pending_sets s s' m : sets s' = sets s -> pending s m -> pending s' m.
Proof. unfold pending, prior_member. by intros ->. Qed.

Lemma member_step_stay s s' es :
  sets s' = sets s -> c_backlogs s' = c_backlogs s -> Forall (out_pending s') es -> member_step s s' es.
Proof.
  intros Hs Hb Hes Hq. split_and!; [|by intros; eapply pending_sets|done].
  unfold queued, prior_member in *. by rewrite Hs, Hb.
Qed.

Lemma member_step_refl s : member_step s s [].
Proof. by apply member_step_stay. Qed.

Definition steady {A} (c : GoM (Core B) (Output B) A) : Prop := forall s, wlp c s (fun _ s' es => member_step s s' es).

Lemma steady_ret {A} (a : A) : steady (mret a).
Proof. intros s. apply member_step_refl. Qed.
Lemma steady_get : steady get.
Proof. intros s. apply member_step_refl. Qed.
Lemma steady_deref {A} (p : option A) : steady (deref p).
Proof. intros s. rewrite wlp_deref. intros _ _. apply member_step_refl. Qed.
Lemma steady_panic {A} : steady (@panic _ A).
Proof. done. Qed.
Lemma steady_emits es : (forall s, Forall (out_pending s) es) -> steady (emits es).
Proof. intros He s. apply wlp_emits. by apply member_step_stay. Qed.
Lemma steady_emit o : (forall s, out_pending s o) -> steady (emit o).
Proof. intros Ho s. apply wlp_emit. apply member_step_stay; [done..|]. by constructor. Qed.
Lemma steady_modify f : (forall s, sets (f s) = sets s /\ c_backlogs (f s) = c_backlogs s) -> steady (modify f).
Proof. intros Hf s. destruct (Hf s). by apply member_step_stay. Qed.
Lemma steady_bind {A C} (c : GoM (Core B) (Output B) A) (f : A -> GoM (Core B) (Output B) C) :
  steady c -> (forall a, steady (f a)) -> steady (c ≫= f).
Proof.
  intros Hm Hf s. rewrite wlp_bind. eapply wlp_mono; [apply Hm|]. intros a s' es Hs.
  eapply wlp_mono; [apply Hf|]. intros c' s'' es' Hs'. exact (member_step_trans _ _ _ _ _ Hs Hs').
Qed.
Lemma steady_when b (c : GoM (Core B) (Output B) unit) : steady c -> steady (when b c).
Proof. intros Hm. destruct b; [done|apply steady_ret]. Qed.
Lemma steady_modify_current f : (forall r, rs_sequence (f r) = rs_sequence r) -> steady (modify_current f).
Proof.
  intros Hf s. unfold modify_current, current. wp_simpl. intros r Hr. apply member_step_stay; [|done..].
  unfold sets. cbn. rewrite Hr. cbn. by rewrite Hf.
Qed.
End members.

Create HintDb steady.
#[export] Hint Resolve steady_ret steady_get steady_deref steady_panic : steady.

(** Walk through a computation with the closure properties of [steady]. *)
Ltac steady_step :=
  match goal with
  | |- forall _, _ => intros ?
  | |- steady (_ ≫= _) => apply steady_bind
  | |- steady (when _ _) => apply steady_when
  | |- steady (emit _) => apply steady_emit
  | |- steady (modify _) => apply steady_modify; intros ?; by split
  | |- steady (modify_current _) => by apply steady_modify_current
  | |- steady (if ?b then _ else _) => destruct b
  | |- steady (match ?x with _ => _ end) => destruct x eqn:?
  | |- steady _ => solve [eauto with steady]
  | |- out_pending _ _ => exact I
  end.
Ltac steady_auto := repeat steady_step.

Section member_steps.
Context `{MapOrder} {B : Type} `{Proposal B} `{Crypto} `{Codec B} (be : Backend B).
Implicit Types (s : Core B) (es : list (Output B)) (m : WBFTMessage B).

(** ** The backlog *)

Definition passes (check : Z -> View -> option CoreError) m : Prop :=
  check (msg_Code m) (msg_View m) = None \/ check (msg_Code m) (msg_View m) = Some errExtraSealMessage.

Lemma passes_seq st curr prior m : passes (checkMessage st curr prior) m -> seq_of m <= v_Sequence curr.
Proof.
  unfold passes, checkMessage, seq_of. set (v := msg_View m). destruct (isTooFarFutureMessage curr v); [by intros []|].
  destruct (msg_Code m =? RoundChangeCode).
  - destruct (Z.ltb_spec (v_Sequence curr) (v_Sequence v)); [by intros []|lia].
  - destruct (View_Cmp v curr) eqn:Hcmp; [apply View_Cmp_Eq in Hcmp as ->; lia| |by intros []].
    apply View_Cmp_Lt in Hcmp. unfold view_lt in Hcmp. lia.
Qed.

Lemma drainBacklog_passes fuel check (P : WBFTMessage B -> Prop) q ks :
  Forall (fun mp => P mp.1) q ->
  let '(q', ks', posted) := drainBacklog fuel check q ks in
  Forall (fun mp => P mp.1) q' /\ Forall (fun m => P m /\ passes check m) posted.
Proof.
  revert q ks; induction fuel as [|fuel IH]; intros q ks Hq; cbn [drainBacklog]; [done|].
  destruct (Pop q) as [[[m p] q']|] eqn:Hpop; [|done].
  pose proof (Pop_perm _ _ _ _ Hpop) as Hperm. rewrite Hperm in Hq. apply Forall_cons in Hq as [Hm Hq'].
  specialize (IH q' (ks ∖ {[msg_key m]}) Hq'). destruct (drainBacklog fuel check q' _) as [[q'' ks''] posted].
  destruct IH as [IH1 IH2]. destruct (check _ _) as [[]|] eqn:Hcheck; try done.
  - split; [|done]. rewrite Push_perm. by constructor.
  - split; [done|]. constructor; [|done]. split; [done|]. by right.
  - split; [done|]. constructor; [|done]. split; [done|]. by left.
Qed.

(** After the outer loop the senders in the backlog are members. *)
Lemma processBacklog_members vs check (P : Address -> WBFTMessage B -> Prop) l bl ks ps :
  (forall a q, bl !! a = Some q -> Forall (fun mp => P a mp.1) q /\ (a ∈ l.*1 \/ a ∈ AddressList vs)) ->
  Forall (fun e => Forall (fun mp => P e.1 mp.1) e.2) l ->
  Forall (fun e : Validator * _ => exists a, P a e.2 /\ passes check e.2 /\ a ∈ AddressList vs) ps ->
  let '(bl', ks', ps') := foldl (processBacklogOf vs check) (bl, ks, ps) l in
  (forall a q, bl' !! a = Some q -> Forall (fun mp => P a mp.1) q /\ a ∈ AddressList vs) /\
  Forall (fun e : Validator * _ => exists a, P a e.2 /\ passes check e.2 /\ a ∈ AddressList vs) ps'.
Proof.
  revert bl ks ps; induction l as [|[src q] l IH]; intros bl ks ps Hbl Hl Hps; cbn [foldl].
  { split; [|done]. intros a q Ha. destruct (Hbl a q Ha) as [? [[]%not_elem_of_nil|?]]; auto. }
  apply Forall_cons in Hl as [Hq Hl]. cbn in Hq. unfold processBacklogOf at 2.
  destruct (GetByAddress vs src) as [i [v|]] eqn:Hget; cbn [snd].
  - assert (src ∈ AddressList vs) as Hsrc.
    { apply GetByAddress_Some in Hget as (Hv & _ & Hlk). apply list_elem_of_fmap. exists v. split; [done|].
      by eapply list_elem_of_lookup_2. }
    pose proof (drainBacklog_passes (length q) check (P src) q (default ∅ (ks !! src)) Hq) as Hd.
    destruct (drainBacklog _ _ _ _) as [[q' ks'] posted]. destruct Hd as [Hq' Hp]. apply IH; [|done|].
    + intros a x. destruct (decide (a = src)) as [->|Hne]; [rewrite lookup_insert_eq; intros [= <-]; auto|].
      rewrite lookup_insert_ne by done. intros Ha. destruct (Hbl a x Ha) as [? [Hin|?]]; [|auto].
      apply elem_of_cons in Hin as [->|Hin]; [done|auto].
    + apply Forall_app. split; [done|]. apply Forall_fmap. eapply Forall_impl; [exact Hp|].
      intros m [Hm Hc]. by exists src.
  - apply IH; [|done..]. intros a x. destruct (decide (a = src)) as [->|Hne]; [by rewrite lookup_delete_eq|].
    rewrite lookup_delete_ne by done. intros Ha. destruct (Hbl a x Ha) as [? [Hin|?]]; [|auto].
    apply elem_of_cons in Hin as [->|Hin]; [done|auto].
Qed.

(** What is known of the backlog before [processBacklog] is what is needed. *)
Lemma members_processBacklog s :
  wlp processBacklog s (fun _ s' es => sets s' = sets s /\ (ready s -> queued s' /\ Forall (out_pending s') es)).
Proof.
  unfold processBacklog. wp_simpl. destruct (range (c_backlogs s)) as [|e l] eqn:Hrange.
  { wp_simpl. split; [done|]. intros _. split; [|done]. intros a q Ha. apply elem_of_range in Ha. rewrite Hrange in Ha.
    by apply not_elem_of_nil in Ha. }
  rewrite <- Hrange. unfold valSet, currentView, current. wp_simpl. intros vs Hvs. wp_simpl. intros r Hr. wp_simpl.
  set (check := checkMessage _ _ _).
  pose proof (processBacklog_members vs check (fun a m => msg_Source m = a /\ msg_wf m /\ prior_member s m)
    (range (c_backlogs s)) (c_backlogs s) (c_backlogKeys s) []) as Hfold.
  destruct (foldl _ _ _) as [[bl ks] posted]. wp_simpl. split; [done|]. intros Hready.
  assert ((sets s).1 = (Some (rs_sequence r), Some (AddressList vs))) as Hsets by (unfold sets; by rewrite Hr, Hvs).
  destruct Hfold as [Hbl Hps]; [| |constructor|].
  - intros a q Ha. split; [by apply (Hready a)|]. left. apply list_elem_of_fmap. exists (a, q). split; [done|]. by apply elem_of_range.
  - apply Forall_forall. intros [a q] Ha%elem_of_range. by apply (Hready a).
  - split.
    + intros a q Ha. destruct (Hbl a q Ha) as [Hq Hin]. eapply Forall_impl; [exact Hq|]. intros mp (? & ? & ?).
      split_and!; [done..|]. by exists (rs_sequence r), (AddressList vs).
    + apply Forall_fmap. eapply Forall_impl; [exact Hps|]. intros [v m] (a & (<- & ? & ?) & Hpass & Hin).
      exists (rs_sequence r), (AddressList vs). split_and!; [done..|by apply passes_seq in Hpass|done|done].
Qed.

Lemma queued_ready s : queued s -> ready s.
Proof. intros Hq a q Ha. eapply Forall_impl; [exact (Hq a q Ha)|]. intros mp (? & ? & ? & _). by split_and!. Qed.

Lemma steady_processPendingRequests : steady (B := B) processPendingRequests.
Proof. unfold processPendingRequests. steady_auto. apply steady_emits. intros s. by apply Forall_fmap, Forall_forall. Qed.

Lemma ready_sets s s' : sets s' = sets s -> c_backlogs s' = c_backlogs s -> ready s -> ready s'.
Proof. unfold ready, prior_member. by intros -> ->. Qed.

Lemma members_setState st s :
  wlp (setState st) s (fun _ s' es => sets s' = sets s /\ (ready s -> queued s' /\ Forall (out_pending s') es)).
Proof.
  unfold setState. wp_simpl.
  assert (forall b st, wlp (when b (modify (set_c_state st))) s (fun _ s' es => sets s' = sets s /\
    c_backlogs s' = c_backlogs s /\ es = [])) as Hset by (intros [] st'; by split_and!).
  eapply wlp_mono; [apply Hset|]. clear Hset. intros [] s1 es1 (Hs1 & Hb1 & ->). wp_simpl.
  assert (wlp (when (bool_decide (st = StateAcceptRequest)) processPendingRequests) s1 (fun _ s' es => sets s' = sets s1 /\
    c_backlogs s' = c_backlogs s1 /\ Forall (fun o => forall s0, out_pending s0 o) es)) as Hreq.
  { case_bool_decide; [|by split_and!]. cbn [when]. unfold processPendingRequests. wp_simpl.
    destruct (drainRequests _ _ _) as [q posted]. wp_simpl. split_and!; [done..|]. by apply Forall_fmap, Forall_forall. }
  eapply wlp_mono; [exact Hreq|]. clear Hreq. intros [] s2 es2 (Hs2 & Hb2 & Hes2).
  eapply wlp_mono; [apply members_processBacklog|]. intros [] s3 es3 [Hs3 Hq]. split; [congruence|].
  intros Hready. destruct Hq as [Hq Hes3]; [apply (ready_sets s); [congruence..|done]|]. split; [done|].
  cbn [app]. apply Forall_app. split; [|done]. eapply Forall_impl; [exact Hes2|]. auto.
Qed.

Lemma steady_setState st : steady (B := B) (setState st).
Proof.
  intros s. eapply wlp_mono; [apply members_setState|]. intros [] s' es [Hs Hq] Hqueued.
  destruct (Hq (queued_ready _ Hqueued)). split_and!; [done| |done]. intros m. by apply pending_sets.
Qed.
Hint Resolve steady_setState : steady.

(** ** Timers and messages *)

Lemma steady_current : steady (B := B) current.
Proof. unfold current. steady_auto. Qed.
Lemma steady_valSet : steady (B := B) valSet.
Proof. unfold valSet. steady_auto. Qed.
Lemma steady_currentView : steady (B := B) currentView.
Proof. unfold currentView. steady_auto. apply steady_current. Qed.
Lemma steady_IsProposer : steady (IsProposer_core be).
Proof. unfold IsProposer_core. steady_auto. Qed.
Lemma steady_set_timers f : steady (B := B) (set_timers f).
Proof. unfold set_timers. steady_auto. Qed.
Hint Resolve steady_current steady_valSet steady_currentView steady_IsProposer steady_set_timers : steady.

Lemma steady_stopFuturePreprepareTimer : steady (B := B) stopFuturePreprepareTimer.
Proof. unfold stopFuturePreprepareTimer. steady_auto. Qed.

Lemma steady_newRoundChangeTimer seq round : steady (B := B) (newRoundChangeTimer seq round).
Proof.
  unfold newRoundChangeTimer, stopTimer, stopFuturePreprepareTimer, stopRetrySendingRoundChangeTimer,
    stopRoundChangeTimer, cancelLastSentTimeout. steady_auto.
Qed.

Lemma steady_newRetryTimer : steady (B := B) newRetrySendingRoundChangeTimer.
Proof. unfold newRetrySendingRoundChangeTimer, stopRetrySendingRoundChangeTimer. steady_auto. Qed.

Lemma steady_broadcast m : steady (broadcast be m).
Proof. unfold broadcast. steady_auto. Qed.
Hint Resolve steady_stopFuturePreprepareTimer steady_newRoundChangeTimer steady_newRetryTimer steady_broadcast : steady.

Lemma steady_sendPreprepareMsg req : steady (sendPreprepareMsg be req).
Proof. unfold sendPreprepareMsg. steady_auto. Qed.
Lemma steady_broadcastPrepare : steady (broadcastPrepare be).
Proof. unfold broadcastPrepare. steady_auto. Qed.
Lemma steady_broadcastCommit : steady (broadcastCommit be).
Proof. unfold broadcastCommit. steady_auto. Qed.
Lemma steady_broadcastRoundChange round : steady (broadcastRoundChange be round).
Proof. unfold broadcastRoundChange. steady_auto. Qed.
Lemma steady_verifySeal vs b round st seal a : steady (verifySeal (B := B) vs b round st seal a).
Proof. unfold verifySeal. steady_auto. Qed.
Hint Resolve steady_sendPreprepareMsg steady_broadcastPrepare steady_broadcastCommit steady_broadcastRoundChange
  steady_verifySeal : steady.

Lemma steady_addToExtraSeal m : steady (addToExtraSeal m).
Proof. unfold addToExtraSeal. steady_auto. Qed.
Lemma steady_addRoundChange rc : steady (addRoundChange (B := B) rc).
Proof. unfold addRoundChange. steady_auto. Qed.
Lemma steady_proposeAfterRoundChange round : steady (proposeAfterRoundChange be round).
Proof. unfold proposeAfterRoundChange. steady_auto. Qed.
Lemma steady_handleRequest req : steady (handleRequest be req).
Proof. unfold handleRequest. steady_auto. Qed.
Lemma steady_storeRequestMsg req : steady (B := B) (storeRequestMsg req).
Proof. unfold storeRequestMsg. steady_auto. Qed.
Lemma steady_handlePrepareMsg p : steady (handlePrepareMsg be p).
Proof. unfold handlePrepareMsg. steady_auto. Qed.
Lemma steady_commitWBFT : steady (commitWBFT be).
Proof. unfold commitWBFT, broadcastNextRoundChange. steady_auto. Qed.
Lemma steady_handleCommitMsg c : steady (handleCommitMsg be c).
Proof. unfold handleCommitMsg. steady_auto. apply steady_commitWBFT. Qed.
Hint Resolve steady_addToExtraSeal steady_addRoundChange steady_proposeAfterRoundChange steady_handleRequest
  steady_storeRequestMsg steady_handlePrepareMsg steady_handleCommitMsg : steady.

(** ** A new round *)

Lemma steady_startNewRound_rcs round last : steady (B := B) (startNewRound_rcs round last).
Proof. unfold startNewRound_rcs. steady_auto. Qed.

(** The part of [startNewRound] behind [updateRoundState]. *)
Lemma members_startNewRound_tail round last lp (n : Z) s :
  wlp (vs ← valSet; modify (set_c_valSet (Some (CalcProposer vs lp n)));; setState StateAcceptRequest;;
       startNewRound_rcs round last;; emit (ONotifyNewRound round);;
       r ← current; newRoundChangeTimer (rs_sequence r) (rs_round r)) s
    (fun _ s' es => ready s -> queued s' /\ (forall m, pending s m -> pending s' m) /\ Forall (out_pending s') es).
Proof.
  unfold valSet. wp_simpl. intros vs Hvs. wp_simpl. set (s1 := set_c_valSet _ _).
  assert (sets s1 = sets s) as Hs1 by (unfold sets; cbn; by rewrite Hvs).
  eapply wlp_mono; [apply members_setState|]. intros [] s2 es2 [Hs2 Hq].
  assert (steady (B := B) (startNewRound_rcs round last;; emit (ONotifyNewRound round);;
    r ← current; newRoundChangeTimer (rs_sequence r) (rs_round r))) as Hrest.
  { steady_auto. apply steady_startNewRound_rcs. }
  eapply wlp_mono; [apply Hrest|]. intros [] s3 es3 Hstep Hready.
  destruct Hq as [Hq2 Hes2]; [by apply (ready_sets s)|]. destruct (Hstep Hq2) as (Hq3 & Hp3 & Hes3). split_and!; [done| |].
  - intros m Hm. apply Hp3. apply (pending_sets s); [congruence|done].
  - cbn [app]. apply Forall_app. split; [by eapply out_pending_mono|done].
Qed.

(** A later height: what was pending for the old one is checked against the prior
    set, which is the set of the old height. *)
Lemma later_height s s' n n' l l' :
  (sets s).1 = (Some n, Some l) -> sets s' = (Some n', Some l', Some l) -> n < n' -> c_backlogs s' = c_backlogs s ->
  (queued s -> ready s') /\ (forall m, pending s m -> pending s' m).
Proof.
  intros Hs Hs' Hn Hb. split.
  - intros Hq. unfold ready. rewrite Hb. intros a q Ha. eapply Forall_impl; [exact (Hq a q Ha)|].
    intros mp (Hsrc & Hwf & _ & n0 & l0 & Hs0 & Hin). rewrite Hs in Hs0. injection Hs0 as <- <-. split_and!; [done..|].
    intros _ l0. rewrite Hs'. intros [= <-]. by rewrite Hsrc.
  - intros m (n0 & l0 & Hs0 & Hwf & Hle & Hmem & _). rewrite Hs in Hs0. injection Hs0 as <- <-.
    exists n', l'. rewrite Hs'. split_and!; [done..|lia|lia|]. unfold prior_member. rewrite Hs'. cbn [fst snd].
    intros [= Heq] l0 [= <-]. apply Hmem. lia.
Qed.

Lemma members_updateRoundState vs view roundChange s :
  wlp (updateRoundState be vs view roundChange) s (fun _ s' es => es = [] /\ c_backlogs s' = c_backlogs s /\
    sets s' = (Some (v_Sequence view), AddressList <$> vs,
      match c_current s, c_valSet s, roundChange with
      | Some _, Some v, false => Some (AddressList v)
      | _, _, _ => (sets s).2
      end)).
Proof.
  unfold updateRoundState. wp_simpl. destruct (c_current s) as [r|] eqn:Hc.
  - destruct roundChange.
    + assert (wlp (match rs_preparedBlock r with
         | Some b => if be_HasBadProposal be (BHash b) then
             modify_current (fun r => set_rs_preparedBlock None (set_rs_preparedRound None r));;
             modify (ClearExtraSeals (rs_sequence r + 1)) else mret tt
         | None => mret tt end) s (fun _ s' es => es = [] /\ c_backlogs s' = c_backlogs s /\
           c_priorState s' = c_priorState s)) as Hbad.
      { destruct (rs_preparedBlock r); [|done]. destruct (be_HasBadProposal _ _); [|done].
        unfold modify_current, current. wp_simpl. by intros ? _. }
      wp_simpl. eapply wlp_mono; [exact Hbad|]. intros [] s1 es1 (-> & Hb & Hp).
      unfold modify_current, current. wp_simpl. intros x Hx. split_and!; [done..|]. unfold sets. cbn. rewrite Hp.
      by destruct (c_valSet s).
    + unfold updatePriorState, current. wp_simpl. rewrite Hc. intros x [= <-]. split_and!; [done..|].
      unfold sets. cbn. by destruct (c_valSet s).
  - wp_simpl. split_and!; [done..|]. unfold sets. cbn. by destruct (c_valSet s).
Qed.

(** Without a height or a set nothing is kept. *)
Lemma no_sets s s' :
  ~ (exists n l, (sets s).1 = (Some n, Some l)) -> c_backlogs s' = c_backlogs s -> queued s ->
  ready s' /\ (forall m, pending s m -> pending s' m).
Proof.
  intros Hn Hb Hq. split; [|intros m (n & l & Hs & _); destruct Hn; eauto].
  unfold ready. rewrite Hb. intros a q Ha. eapply Forall_impl; [exact (Hq a q Ha)|].
  intros mp (_ & _ & _ & n & l & Hs & _). destruct Hn. eauto.
Qed.

Lemma steady_startNewRound round : steady (startNewRound be round).
Proof.
  intros s. unfold startNewRound. destruct (be_LastProposal be) as [lastProposal lp]. wp_simpl.
  assert (wlp (startNewRound_guard round lastProposal) s (fun g s' es => s' = s /\ es = [] /\
    (g = Some false -> forall r last, c_current s = Some r -> lastProposal = Some last -> rs_sequence r <= Number last))) as Hguard.
  { unfold startNewRound_guard. wp_simpl. destruct (c_current s) as [r|]; [|wp_simpl; by split_and!]. wp_simpl. intros last ->.
    destruct (Z.leb_spec (rs_sequence r) (Number last)); [wp_simpl; split_and!; [done..|]; intros _ ? ? [= <-] [= <-]; done|].
    by repeat case_match; wp_simpl; split_and!. }
  eapply wlp_mono; [exact Hguard|]. clear Hguard. intros [roundChange|] s0 es0 (-> & -> & Hg); [|apply member_step_refl].
  wp_simpl. unfold startNewRound_next. destruct roundChange.
  - unfold current at 1. wp_simpl. intros r Hr. wp_simpl. eapply wlp_mono; [apply members_updateRoundState|].
    intros [] s1 es1 (-> & Hb & Hs1). rewrite Hr in Hs1. cbn [app v_Sequence] in Hs1 |- *.
    assert (sets s1 = sets s) as Hsame by (rewrite Hs1; unfold sets; rewrite Hr; by destruct (c_valSet s)).
    eapply wlp_mono; [apply members_startNewRound_tail|]. intros [] s2 es2 Hstep Hq.
    destruct Hstep as (Hq2 & Hp & Hes); [by apply (ready_sets s); [..|apply queued_ready]|]. split_and!; [done| |done].
    intros m Hm. apply Hp. by apply (pending_sets s).
  - wp_simpl. intros last Hlast. wp_simpl. eapply wlp_mono; [apply members_updateRoundState|].
    destruct (addEffective_frame s) as (Hc & Hv & Hpr & Hb0). rewrite Hc, Hv. intros [] s1 es1 (-> & Hb & Hs1). cbn [app].
    eapply wlp_mono; [apply members_startNewRound_tail|]. intros [] s2 es2 Hstep Hq.
    assert (ready s1 /\ (forall m, pending s m -> pending s1 m)) as [Hr1 Hp1]; [|destruct (Hstep Hr1) as (? & ? & ?); split_and!; auto].
    destruct (c_current s) as [r|] eqn:Hr, (c_valSet s) as [vs|] eqn:Hvs.
    + destruct (later_height s s1 (rs_sequence r) (Number last + 1) (AddressList vs) (AddressList (be_Validators be last)))
        as [Hrd Hpd]; [unfold sets; by rewrite Hr, Hvs|done| |congruence|auto]. specialize (Hg eq_refl r last eq_refl Hlast). lia.
    + apply (no_sets s s1); [intros (? & ? & Hx); unfold sets in Hx; by rewrite Hr, Hvs in Hx|congruence|done].
    + apply (no_sets s s1); [intros (? & ? & Hx); unfold sets in Hx; by rewrite Hr, Hvs in Hx|congruence|done].
    + apply (no_sets s s1); [intros (? & ? & Hx); unfold sets in Hx; by rewrite Hr, Hvs in Hx|congruence|done].
Qed.
Hint Resolve steady_startNewRound : steady.

(** ** Events *)

Lemma steady_handleRoundChangeMsg rc : steady (handleRoundChangeMsg be rc).
Proof. unfold handleRoundChangeMsg. steady_auto. Qed.

(** A PRE-PREPARE for a future block is kept by the timer. *)
Lemma members_handlePreprepareMsg p s :
  pending s (MPreprepare p) -> wlp (handlePreprepareMsg be p) s (fun _ s' es => member_step s s' es).
Proof.
  intros Hp. unfold handlePreprepareMsg, valSet. wp_simpl. intros vs Hvs.
  destruct (negb _); [wp_simpl; intros; apply member_step_refl|]. destruct (negb _); [apply member_step_refl|].
  destruct (_ && _); [apply member_step_refl|].
  destruct (be_Verify be (pp_Proposal p)) as [|duration|] eqn:Hver; [| |apply member_step_refl].
  - match goal with |- wlp ?c s _ => assert (steady c) as Hc; [|exact (Hc s)] end. steady_auto.
  - unfold stopFuturePreprepareTimer, set_timers. wp_simpl.
    assert (forall b s0, wlp (when b (emit (S := Core B) (@OStopFuturePreprepareTimer B))) s0 (fun _ s' es => s' = s0 /\ Forall (out_pending s') es))
      as Hstop by (intros [] s0; [apply wlp_emit|apply wlp_ret]; split; repeat constructor).
    eapply wlp_mono; [apply Hstop|]. intros [] s' es [-> Hes]. wp_simpl. apply member_step_stay; [done..|].
    apply Forall_app. split; [done|]. repeat constructor. by apply (pending_sets s).
Qed.

Lemma members_addToBacklog m s :
  msg_wf m -> (forall n l, (sets s).1 = (Some n, Some l) -> n <= seq_of m /\ msg_Source m ∈ l) ->
  is_Some (c_current s) -> is_Some (c_valSet s) -> member_step s (addToBacklog m s) [].
Proof.
  intros Hwf Hm [r Hr] [vs Hvs]. unfold addToBacklog. case_bool_decide; [apply member_step_refl|].
  assert ((sets s).1 = (Some (rs_sequence r), Some (AddressList vs))) as Hsets by (unfold sets; by rewrite Hr, Hvs).
  destruct (Hm _ _ Hsets) as [Hn Hin].
  assert (forall q ks, (c_backlogs s !! msg_Source m = Some q \/ q = []) -> member_step s (set_c_backlogKeys ks (set_c_backlogs
    (<[msg_Source m := Push q m (toNegatePriority (msg_Code m) (msg_View m))]> (c_backlogs s)) s)) []) as Hpush.
  { intros q ks Hq Hqueued. split_and!; [|done|constructor]. apply map_Forall_insert_2; [|exact Hqueued]. rewrite Push_perm.
    constructor; cbn [fst].
    - split_and!; [done..| |by exists (rs_sequence r), (AddressList vs)]. intros Heq. exfalso.
      change ((sets _).1.1) with ((sets s).1.1) in Heq. rewrite Hsets in Heq. cbn [fst] in Heq. injection Heq as Heq. lia.
    - destruct Hq as [Hlk | ->]; [exact (Hqueued _ _ Hlk)|constructor]. }
  destruct (c_backlogs s !! msg_Source m) as [q|] eqn:Hq; [|apply Hpush; by right].
  case_bool_decide; [apply member_step_refl|]. destruct (_ <=? _); [apply member_step_refl|]. apply Hpush. by left.
Qed.

Lemma checkMessage_future st curr prior code view :
  checkMessage st curr prior code view = Some errFutureMessage -> v_Sequence curr <= v_Sequence view.
Proof.
  unfold checkMessage. destruct (isTooFarFutureMessage curr view); [done|]. destruct (code =? RoundChangeCode).
  - destruct (Z.ltb_spec (v_Sequence curr) (v_Sequence view)); [lia|]. by destruct (View_Cmp view curr).
  - destruct (View_Cmp view curr) eqn:Hcmp; [apply View_Cmp_Eq in Hcmp as ->; lia|by repeat case_match|].
    intros _. unfold View_Cmp in Hcmp. destruct (Z.compare_spec (v_Sequence view) (v_Sequence curr)); [lia|done|lia].
Qed.

(** A message for the height, or a later one, is from a member. *)
Lemma members_handleDecodedMessage m s :
  core_inv s -> msg_wf m ->
  (forall n l, (sets s).1 = (Some n, Some l) -> n <= seq_of m -> msg_Source m ∈ l) ->
  wlp (handleDecodedMessage be m) s (fun _ s' es => member_step s s' es).
Proof.
  intros (r & vs & rcs & Hinv) Hwf Hin. pose proof (inv_current _ _ _ _ Hinv) as Hr. pose proof (inv_valSet _ _ _ _ Hinv) as Hvs.
  assert ((sets s).1 = (Some (rs_sequence r), Some (AddressList vs))) as Hsets by (unfold sets; by rewrite Hr, Hvs).
  unfold handleDecodedMessage, currentView, current. wp_simpl. rewrite Hr. intros x [= <-]. wp_simpl.
  destruct (checkMessage _ _ _ _ _) as [e|] eqn:Hcheck.
  - destruct e; try (apply member_step_refl).
    + wp_simpl. apply members_addToBacklog; [done| |by eexists..]. intros n l Hs. rewrite Hsets in Hs. injection Hs as <- <-.
      apply checkMessage_future in Hcheck. split; [exact Hcheck|]. by eapply Hin.
    + apply steady_addToExtraSeal.
  - assert (passes (checkMessage (c_state s) (rs_view r) (ps_round (c_priorState s))) m) as Hle%passes_seq by by left.
    apply checkMessage_None in Hcheck. unfold msg_wf in Hwf. rewrite Hwf in Hcheck. rewrite deliverMessage_wf by done.
    destruct m as [p|p|p|p]; cbn in Hcheck; [|apply steady_handlePrepareMsg|apply steady_handleCommitMsg|apply steady_handleRoundChangeMsg].
    apply members_handlePreprepareMsg. destruct Hcheck as [Hview _]. exists (rs_sequence r), (AddressList vs).
    assert (seq_of (MPreprepare p) = rs_sequence r) as Hseq by (unfold seq_of; by rewrite Hview).
    split_and!; [done..| |]; [intros _; apply (Hin _ _ Hsets); lia|].
    intros Heq. rewrite Hsets, Hseq in Heq. cbn [fst] in Heq. injection Heq as Heq. lia.
Qed.

Lemma members_handleEncodedMsg code data s :
  core_inv s -> wlp (handleEncodedMsg be code data) s (fun _ s' es => member_step s s' es).
Proof.
  intros Hc. unfold handleEncodedMsg. destruct (negb _); [apply member_step_refl|].
  destruct (Decode code data) as [m|] eqn:Hdec; [|apply member_step_refl].
  destruct (Decode_code _ _ _ Hdec) as [_ Hwf]. pose proof Hc as (r & vs & rcs & Hinv).
  pose proof (inv_current _ _ _ _ Hinv) as Hr. pose proof (inv_valSet _ _ _ _ Hinv) as Hvs.
  pose proof (wp_verifySignatures m s r vs Hr Hvs) as Hver. rewrite wlp_bind. unfold wp in Hver. unfold wlp at 1.
  destruct (verifySignatures m s) as [[[v s1] es1]|]; [|done]. destruct Hver as (-> & -> & Hm).
  destruct v as [m'|e]; [|apply member_step_refl]. specialize (Hm m' eq_refl).
  destruct (authentic_sender _ _ _ _ _ Hm Hwf) as [Hwf' _]. destruct Hm as [(a & d & Hcm & _ & _ & Hin) _].
  apply members_handleDecodedMessage; [done..|]. intros n l Hs Hn. unfold sets in Hs. rewrite Hr, Hvs in Hs. injection Hs as <- <-.
  unfold seq_of, msg_View, msg_Source in *. rewrite Hcm in *. cbn in Hn, Hin |- *.
  unfold signers in Hin. destruct (View_Cmp _ (mkView _ _)) eqn:Hcmp in Hin; [|by rewrite andb_false_r in Hin..].
  apply View_Cmp_Eq in Hcmp. apply (f_equal v_Sequence) in Hcmp. cbn in Hcmp. lia.
Qed.

Definition event_pending s (ev : Event) : Prop := match ev with BacklogEvent _ m => pending s m | _ => True end.

Lemma members_gossip s s' es o : member_step s s' es -> (forall s0, out_pending s0 o) -> member_step s s' (es ++ [o]).
Proof.
  intros Hs Ho. eapply member_step_trans; [exact Hs|]. apply member_step_stay; [done..|]. by repeat constructor.
Qed.

Lemma members_handleEvent s ev :
  core_inv s -> event_pending s ev -> wlp (handleEvent be ev) s (fun _ s' es => member_step s s' es).
Proof.
  intros Hc Hev. destruct ev as [p|code data|src m|id| |round]; cbn [handleEvent].
  - match goal with |- wlp ?c s _ => assert (steady c) as Hst; [|exact (Hst s)] end. steady_auto.
  - rewrite wlp_bind. eapply wlp_mono; [by apply members_handleEncodedMsg|]. intros [e|] s' es Hstep; wp_simpl.
    + done.
    + by apply members_gossip.
  - rewrite wlp_bind. destruct Hev as (n & l & Hs & Hwf & Hle & Hmem & _).
    eapply wlp_mono; [apply members_handleDecodedMessage; [done..|]|].
    + intros n' l' Hs' Hn. rewrite Hs in Hs'. injection Hs' as <- <-. apply Hmem. lia.
    + intros [e|] s' es Hstep; wp_simpl; [done|]. destruct (EncodeMessage m); wp_simpl; [|done].
      by apply members_gossip.
  - match goal with |- wlp ?c s _ => assert (steady c) as Hst; [|exact (Hst s)] end. unfold handleTimeoutMsg. steady_auto.
  - apply steady_startNewRound.
  - apply steady_broadcastRoundChange.
Qed.

(** A pending message has the sender that its seal is checked against. *)
Lemma pending_sender s r vs m :
  c_current s = Some r -> c_valSet s = Some vs -> pending s m -> msg_wf m /\ sender_ok s r vs m.
Proof.
  intros Hr Hvs (n & l & Hs & Hwf & Hle & Hmem & Hprior). split; [done|].
  unfold sets in Hs. rewrite Hr, Hvs in Hs. injection Hs as <- <-. unfold sender_ok, check_at.
  destruct (checkMessage _ _ _ _ _) as [[]|] eqn:Hcheck; try done.
  - apply checkMessage_extra in Hcheck as [_ [[Hst Hv]|[Hst Hv]]].
    + rewrite bool_decide_eq_true_2 by done. intros pvs Hpvs. apply Hprior; unfold sets; [|by rewrite Hpvs].
      rewrite Hr. unfold seq_of. rewrite Hv. cbn. f_equal. lia.
    + rewrite bool_decide_eq_false_2 by done. apply Hmem. unfold seq_of. by rewrite Hv.
  - apply Hmem. enough (rs_sequence r <= seq_of m) by lia. unfold checkMessage in Hcheck. fold (seq_of m) in Hcheck.
    destruct (isTooFarFutureMessage _ _); [done|].
    assert (View_Cmp (msg_View m) (rs_view r) <> Lt) as Hge by (intros Hlt; rewrite Hlt in Hcheck; by repeat case_match).
    unfold View_Cmp in Hge. fold (seq_of m) in Hge. change (v_Sequence (rs_view r)) with (rs_sequence r) in Hge.
    by destruct (Z.compare_spec (seq_of m) (rs_sequence r)); [lia| |lia].
Qed.
End member_steps.

Section executions.
Context `{MapOrder} {B : Type} `{Proposal B} `{Crypto} `{Codec B}.
Implicit Types (s : Core B) (es : list (Output B)).

Lemma posted_ok_event s es ev r vs :
  Forall (out_pending s) es -> posted s es ev -> c_current s = Some r -> c_valSet s = Some vs ->
  event_pending s ev /\ event_ok s ev.
Proof.
  intros Hes Hev Hr Hvs. rewrite Forall_forall in Hes. destruct ev as [p|code data|src m|id| |round]; try done.
  - assert (pending s m) as Hm by (destruct Hev as [Hin|(p & d & -> & Hin)]; exact (Hes _ Hin)).
    split; [done|]. intros r' vs' Hr' Hvs'. by apply pending_sender.
  - split; [done|]. intros r' vs' Hr' _. by apply Hev.
Qed.

(** Every execution is a run: the senders of the messages that come back are as
    [event_ok] asks. *)
Lemma execution_run config address s es :
  execution config address s es -> run config address s es /\ queued s /\ Forall (out_pending s) es.
Proof.
  induction 1 as [be s es Hbe Hstart|be ev s s' es es' _ (Hrun & Hq & Hes) Hbe Hev Hstep].
  - split; [by eapply run_start|]. pose proof (wlp_run _ _ _ _ _ _ (steady_startNewRound be 0 _) Hstart) as Hm.
    destruct (Hm ltac:(apply map_Forall_empty)) as (? & _ & ?). done.
  - pose proof (run_inv _ _ _ _ Hrun) as Hinv. pose proof Hinv as (r & vs & rcs & Hat).
    destruct (posted_ok_event s es ev r vs Hes Hev (inv_current _ _ _ _ Hat) (inv_valSet _ _ _ _ Hat)) as [Hpe Hok].
    split; [by eapply run_event|].
    destruct (wlp_run _ _ _ _ _ _ (members_handleEvent be s ev Hinv Hpe) Hstep Hq) as (Hq' & Hp & Hes').
    split; [done|]. apply Forall_app. split; [by eapply out_pending_mono|done].
Qed.

(** ... so every event of the core can be handled. *)
Lemma execution_event_ok config address s es ev :
  execution config address s es -> posted s es ev -> core_inv s /\ event_ok s ev.
Proof.
  intros Hex Hev. destruct (execution_run _ _ _ _ Hex) as (Hrun & _ & Hes).
  pose proof (run_inv _ _ _ _ Hrun) as Hinv. split; [done|]. destruct Hinv as (r & vs & rcs & Hat).
  by destruct (posted_ok_event s es ev r vs Hes Hev (inv_current _ _ _ _ Hat) (inv_valSet _ _ _ _ Hat)).
Qed.
End executions.
