(* ===== verification/Network.v ===== *)
(** A network of validators: any number of correct nodes that run the core, any
    behaviour of the others, and any delivery of messages that contains no forged
    signature.  The theorem is agreement: while heights follow the heads of the
    chains, no two correct nodes decide different blocks of one height. *)
From Stdlib Require Import Sorted.
From S2P Require Import Prelude Validators Prque Messages Config Justification RoundChangeSet CoreState CoreLogic CoreHandlers CoreSpecs CoreInvariant CoreSteps CoreEvents CoreAuth CoreRuns.

Section network.
Context `{MapOrder} {B : Type} `{Proposal B} `{Crypto} `{Codec B}.

(** * What is signed *)

(** Hashes are arrays of 32 bytes. *)
Definition hash_eq (x y : Hash) : Prop := x mod 2 ^ 256 = y mod 2 ^ 256.

(** The lock that a ROUND-CHANGE payload carries, as it is signed. *)
Definition prepared_content (p : SignedRoundChangePayload) : option (Z * Hash) :=
  match sr_PreparedRound p with
  | Some pr => if sr_PreparedDigest p =? zeroHash then None else Some (pr, sr_PreparedDigest p mod 2 ^ 256)
  | None => None
  end.

Definition same_content (m m' : WBFTMessage B) : Prop :=
  match m, m' with
  | MPreprepare _, MPreprepare _ => True
  | MPrepare p, MPrepare p' => pr_View p = pr_View p' /\ hash_eq (pr_Digest p) (pr_Digest p')
  | MCommit p, MCommit p' => cm_View p = cm_View p' /\ hash_eq (cm_Digest p) (cm_Digest p')
  | MRoundChange p, MRoundChange p' =>
      rc_View p = rc_View p' /\ prepared_content (rc_payload p) = prepared_content (rc_payload p')
  | _, _ => False
  end.

(** A piggybacked payload as a message of its own. *)
Definition rc_of (p : SignedRoundChangePayload) : WBFTMessage B := MRoundChange (mkRoundChange p None []).

Definition pieces (m : WBFTMessage B) : list (WBFTMessage B) :=
  m :: match m with
       | MPreprepare p => map rc_of (pp_JustificationRoundChanges p) ++ map MPrepare (pp_JustificationPrepares p)
       | MRoundChange p => map MPrepare (rc_Justification p)
       | _ => []
       end.

(** What the core needs of the message formats: the bytes to be signed determine
    the type of the message and its content, and piggybacked messages are decoded
    with the code of their type. *)
Class SigningLaws : Prop := {
  signing_inj m m' data : msg_wf m -> msg_wf m' -> payload_of m = Some data -> payload_of m' = Some data -> same_content m m';
  decode_pieces code data m : Decode code data = Some m -> Forall msg_wf (pieces m);
}.

(** Blocks are identified by their hash. *)
Class HashLaws : Prop := {
  hash_range (b : B) : 0 < BHash b < 2 ^ 256;
  hash_number (b b' : B) : BHash b = BHash b' -> Number b = Number b';
}.

(** * Networks *)

Abbreviation Net := (gmap Address (Core B * list (Output B))).

Definition sent (N : Net) (a : Address) (m : WBFTMessage B) : Prop :=
  exists s es ovs payload, N !! a = Some (s, es) /\ OBroadcast ovs m payload ∈ es.

Definition signed (N : Net) (a : Address) (data : bytes) : Prop := exists m, sent N a m /\ payload_of m = Some data.

Context (config : Config) (vs0 : ValidatorSet) (correct : gset Address).

(** The events that can happen at a node: a message whose signatures of correct
    validators are genuine, a message that the node took out of its backlog or
    kept for the time of its block, a timer, a request, a new head of the chain. *)
Definition deliverable (N : Net) (s : Core B) (es : list (Output B)) (ev : Event) : Prop :=
  match ev with
  | MessageEvent code data => forall m p d a, Decode code data = Some m -> p ∈ pieces m -> payload_of p = Some d ->
      GetSignatureAddress d (cp_signature (msg_common p)) = Some a -> a ∈ correct -> signed N a d
  | BacklogEvent src m => comes_back es src m
  | TimeoutEvent _ => forall r, c_current s = Some r -> rs_round r + 1 < 2 ^ 64
  | _ => True
  end.

(** The networks that can be reached when nodes handle events as [sched] allows. *)
Inductive reach (sched : Backend B -> Core B -> Event -> Prop) : Net -> Prop :=
  | reach_init : reach sched ∅
  | reach_start N a be s es :
      reach sched N -> a ∈ correct -> N !! a = None -> backend_ok be -> backend_fixed be (vs_validators vs0) ->
      startNewRound be 0 (NewCore config a) = Some (tt, s, es) -> reach sched (<[a := (s, es)]> N)
  | reach_event N a be ev s es s' es' :
      reach sched N -> N !! a = Some (s, es) -> backend_ok be -> backend_fixed be (vs_validators vs0) ->
      deliverable N s es ev -> sched be s ev -> handleEvent be ev s = Some (tt, s', es') ->
      reach sched (<[a := (s', es ++ es')]> N).

(** * Authentic messages *)

(** Everything the messages of a correct validator say was sent by it. *)
Definition genuine (N : Net) (p : WBFTMessage B) : Prop :=
  msg_Source p ∈ AddressList vs0 /\
  (msg_Source p ∈ correct -> exists m, sent N (msg_Source p) m /\ same_content p m).

Definition Au (N : Net) (m : WBFTMessage B) : Prop := msg_wf m /\ Forall (genuine N) (pieces m).

(** Outputs accumulate. *)
Definition net_le (N N' : Net) : Prop :=
  forall a s es, N !! a = Some (s, es) -> exists s' es', N' !! a = Some (s', es ++ es').

Lemma net_le_refl N : net_le N N.
Proof. intros a s es Ha. exists s, []. by rewrite app_nil_r. Qed.

Lemma net_le_trans N1 N2 N3 : net_le N1 N2 -> net_le N2 N3 -> net_le N1 N3.
Proof.
  intros H12 H23 a s es Ha. destruct (H12 _ _ _ Ha) as (s' & es' & Ha'). destruct (H23 _ _ _ Ha') as (s'' & es'' & Ha'').
  exists s'', (es' ++ es''). by rewrite app_assoc.
Qed.

Lemma net_le_start N a x : N !! a = None -> net_le N (<[a := x]> N).
Proof.
  intros Hn b s es Hb. exists s, []. rewrite app_nil_r, lookup_insert_ne; [done|]. congruence.
Qed.

Lemma net_le_event N a s es s' es' : N !! a = Some (s, es) -> net_le N (<[a := (s', es ++ es')]> N).
Proof.
  intros Ha b x xs Hb. destruct (decide (b = a)) as [->|Hne].
  - rewrite lookup_insert_eq. simplify_eq. eauto.
  - rewrite lookup_insert_ne by done. exists x, []. by rewrite app_nil_r.
Qed.

Lemma sent_mono N N' a m : net_le N N' -> sent N a m -> sent N' a m.
Proof.
  intros Hle (s & es & ovs & p & Ha & Hin). destruct (Hle _ _ _ Ha) as (s' & es' & Ha').
  exists s', (es ++ es'), ovs, p. split; [done|]. apply elem_of_app. by left.
Qed.

Lemma genuine_mono N N' p : net_le N N' -> genuine N p -> genuine N' p.
Proof. intros Hle [Hs Hc]. split; [done|]. intros Hin. destruct (Hc Hin) as (m & Hm & ?). eauto using sent_mono. Qed.

Lemma Au_mono N N' m : net_le N N' -> Au N m -> Au N' m.
Proof. intros Hle [Hwf Hm]. split; [done|]. eapply Forall_impl; [exact Hm|]. eauto using genuine_mono. Qed.

Lemma auth_inv_mono vals N N' s : net_le N N' -> auth_inv vals (Au N) s -> auth_inv vals (Au N') s.
Proof.
  intros Hle [Hv Hp Hb [Ha1 Ha2 Ha3 Ha4]]. split; [done..| |].
  - intros a q Hq. eapply Forall_impl; [exact (Hb a q Hq)|]. eauto using Au_mono.
  - split; [eauto using Au_mono|..]; [| |done]; intros r Hr; eapply map_Forall_impl; eauto using Au_mono.
Qed.

(** ** What [verifySignatures] accepts is authentic *)

Context `{!SigningLaws} `{!HashLaws}.

Lemma signers_vals P (s : Core B) r vs view a :
  auth_inv (vs_validators vs0) P s -> c_valSet s = Some vs ->
  a ∈ AddressList (signers s r vs view) -> a ∈ AddressList vs0.
Proof.
  intros [Hv Hp _ _] Hvs. unfold signers, AddressList. destruct (_ && _).
  - destruct (ps_validatorSet (c_priorState s)) as [pv|] eqn:Hpv; cbn; [by rewrite (Hp pv)|by rewrite (Hv vs)].
  - by rewrite (Hv vs).
Qed.

Lemma genuine_piece N code data m p p' s r vs :
  (forall a m, sent N a m -> msg_wf m) -> deliverable N s [] (MessageEvent code data) ->
  Decode code data = Some m -> p ∈ pieces m ->
  (forall a, a ∈ AddressList (signers s r vs (cp_View (msg_common p))) -> a ∈ AddressList vs0) ->
  authentic s r vs (payload_of p) (msg_common p) (msg_common p') ->
  (forall x, same_content p x -> same_content p' x) -> genuine N p'.
Proof.
  intros Hwf Hdel Hdec Hp Hmem (a & d & Hc & Hd & Hsig & Ha) Hsame.
  assert (msg_Source p' = a) as Hsrc by (unfold msg_Source; by rewrite Hc). split; rewrite Hsrc; [auto|]. intros Hcor.
  destruct (Hdel m p d a Hdec Hp Hd Hsig Hcor) as (x & Hx & Hpx). exists x. split; [done|]. apply Hsame.
  eapply signing_inj; [|by eapply Hwf|done|done]. pose proof (decode_pieces _ _ _ Hdec) as Hall.
  rewrite Forall_forall in Hall. by apply Hall.
Qed.

Lemma Forall2_pieces {A} (R : A -> A -> Prop) (f : A -> WBFTMessage B) (P : WBFTMessage B -> Prop) l l' :
  Forall2 R l l' -> (forall x y, x ∈ l -> R x y -> P (f y)) -> Forall P (map f l').
Proof.
  induction 1 as [|x y l l' Hxy Hl IH]; cbn; intros Hf; constructor; [apply (Hf x); [left|done]|].
  apply IH. intros x' y' Hx'. apply Hf. by right.
Qed.

Lemma message_au N code data m m' s r vs :
  (forall a m, sent N a m -> msg_wf m) -> deliverable N s [] (MessageEvent code data) -> Decode code data = Some m ->
  (forall view a, a ∈ AddressList (signers s r vs view) -> a ∈ AddressList vs0) ->
  authentic_msg s r vs m m' -> Au N m'.
Proof.
  intros Hwf Hdel Hdec Hmem Hau. destruct (Decode_code _ _ _ Hdec) as [_ Hm].
  pose proof (proj1 (authentic_sender _ _ _ _ _ Hau Hm)) as Hm'. split; [done|].
  pose proof (fun p p' Hp => genuine_piece N code data m p p' s r vs Hwf Hdel Hdec Hp (Hmem _)) as Hgen.
  assert (forall p p', MPrepare p ∈ pieces m -> authentic_prepare s r vs p p' -> genuine N (MPrepare p')) as Hprep.
  { intros p p' Hp (Ha & Hd & _). apply (Hgen (MPrepare p)); [done..|].
    destruct Ha as (a & d & Hc & _). intros [x|x|x|x]; cbn; try done. unfold pr_View. by rewrite Hc, Hd. }
  assert (forall p p', rc_of p ∈ pieces m -> authentic_rc s r vs p p' -> genuine N (rc_of p')) as Hrc.
  { intros p p' Hp (Ha & Hd & He). apply (Hgen (rc_of p)); [done..|].
    destruct Ha as (a & d & Hc & _). intros [x|x|x|x]; cbn; try done. unfold rc_View, sr_View, prepared_content. cbn.
    by rewrite Hc, Hd, He. }
  destruct Hau as [Ha Hrest]. pose proof Ha as (a & d & Hc & _).
  destruct m as [p|p|p|p], m' as [p'|p'|p'|p']; try done; cbn [pieces]; cbn [msg_common] in Hc; constructor.
  - apply (Hgen (MPreprepare p)); [by left|done|done].
  - destruct Hrest as (_ & Hr & Hp). apply Forall_app. split.
    + eapply Forall2_pieces; [exact Hr|]. intros x y Hx. apply Hrc. right. apply elem_of_app. left.
      apply list_elem_of_fmap. by exists x.
    + eapply Forall2_pieces; [exact Hp|]. intros x y Hx. apply Hprep. right. apply elem_of_app. right.
      apply list_elem_of_fmap. by exists x.
  - apply (Hprep p p'); [by left|]. by split.
  - constructor.
  - apply (Hgen (MCommit p)); [by left|done|]. destruct Hrest as [Hd _]. intros [x|x|x|x]; cbn; try done.
    unfold cm_View. by rewrite Hc, Hd.
  - constructor.
  - apply (Hgen (MRoundChange p)); [by left|done|]. destruct Hrest as (_ & Hd & He & _). intros [x|x|x|x]; cbn; try done.
    unfold rc_View, sr_View, prepared_content. by rewrite Hc, Hd, He.
  - destruct Hrest as (_ & _ & _ & Hp). eapply Forall2_pieces; [exact Hp|]. intros x y Hx. apply Hprep. right.
    apply list_elem_of_fmap. by exists x.
Qed.

(** * What holds of every node *)

Definition voted (N : Net) (a : Address) (v : @Vote B) : Prop :=
  exists s es, N !! a = Some (s, es) /\ v ∈ votes es.

(** A lock on round [pr] as a ROUND-CHANGE message reports it. *)
Definition reports (p : SignedRoundChangePayload) (pr : Z) : Prop :=
  sr_PreparedRound p = Some pr /\ 0 < sr_PreparedDigest p < 2 ^ 256.

Definition rc_seq (rc : RoundChange B) : Z := cp_Sequence (sr_common (rc_payload rc)).

(** A quorum whose correct members have cast the vote [v]. *)
Definition backed (N : Net) (v : @Vote B) : Prop :=
  exists q, is_quorum vs0 q /\ forall a, a ∈ q -> a ∈ correct -> voted N a v.

Definition out_good (N : Net) (o : Output B) : Prop :=
  match o with OBroadcast _ m _ => msg_wf m | OPostBacklog _ m => Au N m
  | OStartFuturePreprepareTimer p _ => Au N (MPreprepare p) | _ => True end.

Record node_ok (N : Net) (a : Address) (s : Core B) (es : list (Output B)) : Prop := {
  no_run : run config a s es;
  no_auth : auth_inv (vs_validators vs0) (Au N) s;
  no_out : Forall (out_good N) es;
  no_prepare : forall v d, VPrepare v d ∈ votes es -> exists b, d = BHash b /\ Number b = v_Sequence v;
  no_commit : forall v d, VCommit v d ∈ votes es ->
    exists b, d = BHash b /\ Number b = v_Sequence v /\ 0 <= v_Round v /\ backed N (VPrepare v d);
  no_decide : forall b cs round, VBlock b cs round ∈ votes es ->
    backed N (VCommit (mkView round (Number b)) (BHash b));
  no_lock : forall r d cur, VCommit (mkView r (rs_sequence cur)) d ∈ votes es -> c_current s = Some cur ->
    lock_le (Some r) (rs_preparedRound cur);
  no_ahead : forall ovs rc p cur, OBroadcast ovs (MRoundChange rc) p ∈ es -> c_current s = Some cur ->
    rc_seq rc < rs_sequence cur \/
    (rc_seq rc = rs_sequence cur /\ (rc_Round rc <= rs_round cur \/
       (rc_Round rc = rs_round cur + 1 /\ reports (rc_payload rc) (rs_round cur))));
  no_report : forall ovs rc p r d, OBroadcast ovs (MRoundChange rc) p ∈ es ->
    VCommit (mkView r (rc_seq rc)) d ∈ votes es -> r < rc_Round rc ->
    exists pr, r <= pr /\ reports (rc_payload rc) pr;
}.

Lemma voted_mono N N' a v : net_le N N' -> voted N a v -> voted N' a v.
Proof.
  intros Hle (s & es & Ha & Hv). destruct (Hle _ _ _ Ha) as (s' & es' & Ha'). exists s', (es ++ es').
  split; [done|]. rewrite votes_app. apply elem_of_app. by left.
Qed.

Lemma backed_mono N N' v : net_le N N' -> backed N v -> backed N' v.
Proof. intros Hle (q & Hq & Hv). exists q. split; [done|]. eauto using voted_mono. Qed.

Lemma out_good_mono N N' es : net_le N N' -> Forall (out_good N) es -> Forall (out_good N') es.
Proof.
  intros Hle Hes. eapply Forall_impl; [exact Hes|]. intros []; cbn; eauto using Au_mono.
Qed.

Lemma node_ok_mono N N' a s es : net_le N N' -> node_ok N a s es -> node_ok N' a s es.
Proof.
  intros Hle [Hr Ha Ho Hp Hc Hd Hl Hah Hre]. split; [done|by eapply auth_inv_mono|by eapply out_good_mono|done| | |done..].
  - intros v d Hv. destruct (Hc v d Hv) as (b & ? & ? & ? & ?). eauto 6 using backed_mono.
  - intros b cs round Hv. eauto using backed_mono.
Qed.

(** ** Votes as messages *)

Lemma elem_of_votes (es : list (Output B)) v : v ∈ votes es <-> exists o, o ∈ es /\ vote_of o = Some v.
Proof. unfold votes. rewrite list_elem_of_omap. done. Qed.

Lemma sent_prepare N a p : sent N a (MPrepare p) -> voted N a (VPrepare (pr_View p) (pr_Digest p)).
Proof.
  intros (s & es & ovs & pl & Ha & Hin). exists s, es. split; [done|]. apply elem_of_votes. by exists (OBroadcast ovs (MPrepare p) pl).
Qed.

Lemma sent_commit N a p : sent N a (MCommit p) -> voted N a (VCommit (cm_View p) (cm_Digest p)).
Proof.
  intros (s & es & ovs & pl & Ha & Hin). exists s, es. split; [done|]. apply elem_of_votes. by exists (OBroadcast ovs (MCommit p) pl).
Qed.

Lemma hash_eq_BHash (b b' : B) : hash_eq (BHash b) (BHash b') -> BHash b = BHash b'.
Proof. unfold hash_eq. pose proof (hash_range b). pose proof (hash_range b'). by rewrite !Z.mod_small by lia. Qed.

Definition net_ok (N : Net) : Prop := forall a s es, N !! a = Some (s, es) -> a ∈ correct /\ node_ok N a s es.

(** A genuine PREPARE or COMMIT for a block's hash is a vote for the block. *)
Lemma genuine_prepare N p (b : B) :
  net_ok N -> genuine N (MPrepare p) -> pr_Digest p = BHash b -> pr_source p ∈ correct ->
  voted N (pr_source p) (VPrepare (mkView (pr_Round p) (Number b)) (BHash b)).
Proof.
  intros HN [_ Hg] Hd Hc. destruct (Hg Hc) as ([m|m|m|m] & Hm & Hsame); try done. destruct Hsame as [Hv He].
  change (msg_Source (MPrepare p)) with (pr_source p) in Hm.
  pose proof (sent_prepare _ _ _ Hm) as Hvote. pose proof Hvote as (s & es & Ha & Hin).
  destruct (HN _ _ _ Ha) as [_ Hok]. destruct (no_prepare _ _ _ _ Hok _ _ Hin) as (b' & Hb' & Hn).
  rewrite Hd, Hb' in He. apply hash_eq_BHash in He. rewrite Hb', <- He in Hvote.
  replace (mkView (pr_Round p) (Number b)) with (pr_View m); [done|]. rewrite <- Hv, (hash_number _ _ He), Hn, <- Hv.
  by destruct p as [[]].
Qed.

Lemma genuine_commit N p (b : B) :
  net_ok N -> genuine N (MCommit p) -> cm_Digest p = BHash b -> cm_source p ∈ correct ->
  voted N (cm_source p) (VCommit (cm_View p) (BHash b)).
Proof.
  intros HN [_ Hg] Hd Hc. destruct (Hg Hc) as ([m|m|m|m] & Hm & Hsame); try done. destruct Hsame as [Hv He].
  change (msg_Source (MCommit p)) with (cm_source p) in Hm.
  pose proof (sent_commit _ _ _ Hm) as Hvote. pose proof Hvote as (s & es & Ha & Hin).
  destruct (HN _ _ _ Ha) as [_ Hok]. destruct (no_commit _ _ _ _ Hok _ _ Hin) as (b' & Hb' & _).
  rewrite Hd, Hb' in He. apply hash_eq_BHash in He. by rewrite Hv, He, <- Hb'.
Qed.

(** ** One step *)

Lemma same_members vs : vs_validators vs = vs_validators vs0 -> QuorumSize vs = QuorumSize vs0 /\ AddressList vs = AddressList vs0.
Proof. intros Heq. unfold QuorumSize, F, Size, AddressList. by rewrite Heq. Qed.

Lemma valid_seal_member vs (b : B) round st seal a : valid_seal vs b round st seal a -> a ∈ AddressList vs.
Proof.
  intros (v & Hv & _). apply GetByAddress_elem. destruct (GetByAddress vs a) as [j o] eqn:Hg. cbn in Hv. subst. eauto.
Qed.

(** The PREPARE messages of a prepared round back its proposal, ... *)
Lemma prepares_backed N s r vs rcs :
  net_ok N -> inv_at s r vs rcs -> auth_inv (vs_validators vs0) (Au N) s ->
  c_state s = StatePrepared \/ c_state s = StateCommitted ->
  exists b, rs_Proposal r = Some b /\ Number b = rs_sequence r /\ backed N (VPrepare (rs_view r) (BHash b)).
Proof.
  intros HN Hinv Hau Hst. pose proof (inv_round _ _ _ _ Hinv) as Hri. pose proof (inv_current _ _ _ _ Hinv) as Hr.
  destruct (same_members vs) as [Hq Hm]; [by apply (au_valSet _ _ _ Hau), (inv_valSet _ _ _ _ Hinv)|].
  destruct (ri_prepared _ _ _ _ Hri Hst) as (b & Hb & _ & _ & Hsize).
  destruct (ri_accepted _ _ _ _ Hri) as (pp & Hpp & (_ & Hnum & _) & Hps & _); [by destruct Hst as [->| ->]|].
  assert (pp_Proposal pp = b) as Hbp by (unfold rs_Proposal in Hb; rewrite Hpp in Hb; by injection Hb). rewrite Hbp in Hnum, Hps.
  exists b. split_and!; [done..|]. exists (pr_source <$> msgSet_Values (rs_WBFTPrepares r)). split; [split_and!|].
  - by eapply Values_NoDup.
  - intros x (p & -> & Hp)%list_elem_of_fmap. rewrite <- Hm. destruct (msgSet_ok_Values _ _ _ _ Hps Hp) as (_ & _ & Hs).
    by eapply valid_seal_member.
  - by rewrite length_fmap, Values_length, <- Hq.
  - intros x (p & -> & Hp)%list_elem_of_fmap Hc. destruct (msgSet_ok_Values _ _ _ _ Hps Hp) as (Hv & Hd & _).
    apply elem_of_Values in Hp as [k Hk]. destruct (au_prepares _ _ (au_round _ _ _ Hau) r Hr k p Hk) as [_ [Hg _]%Forall_cons].
    pose proof (genuine_prepare _ _ _ HN Hg Hd Hc) as Hvote.
    replace (rs_view r) with (mkView (pr_Round p) (Number b)); [done|]. rewrite <- Hv, Hnum, <- Hv. by destruct p as [[]].
Qed.

(** ... and the COMMIT messages of a committed round its decision. *)
Lemma commits_backed N s r vs rcs :
  net_ok N -> inv_at s r vs rcs -> auth_inv (vs_validators vs0) (Au N) s -> c_state s = StateCommitted ->
  exists b, rs_Proposal r = Some b /\ backed N (VCommit (rs_view r) (BHash b)).
Proof.
  intros HN Hinv Hau Hst. pose proof (inv_round _ _ _ _ Hinv) as Hri. pose proof (inv_current _ _ _ _ Hinv) as Hr.
  destruct (same_members vs) as [Hq Hm]; [by apply (au_valSet _ _ _ Hau), (inv_valSet _ _ _ _ Hinv)|].
  destruct (ri_accepted _ _ _ _ Hri) as (pp & Hpp & _ & _ & Hcs); [by rewrite Hst|].
  exists (pp_Proposal pp). split; [unfold rs_Proposal; by rewrite Hpp|].
  exists (cm_source <$> msgSet_Values (rs_WBFTCommits r)). split; [split_and!|].
  - by eapply Values_NoDup.
  - intros x (p & -> & Hp)%list_elem_of_fmap. rewrite <- Hm. destruct (msgSet_ok_Values _ _ _ _ Hcs Hp) as (_ & _ & Hs).
    by eapply valid_seal_member.
  - rewrite length_fmap, Values_length, <- Hq. by apply (ri_committed _ _ _ _ Hri).
  - intros x (p & -> & Hp)%list_elem_of_fmap Hc. destruct (msgSet_ok_Values _ _ _ _ Hcs Hp) as (Hv & Hd & _).
    apply elem_of_Values in Hp as [k Hk]. destruct (au_commits _ _ (au_round _ _ _ Hau) r Hr k p Hk) as [_ [Hg _]%Forall_cons].
    rewrite <- Hv. by apply genuine_commit.
Qed.

(** The votes of a step. *)
Lemma step_votes_backed N s s' es :
  net_ok N -> step_ok s s' es -> auth_inv (vs_validators vs0) (Au N) s' ->
  (forall v d, VPrepare v d ∈ votes es -> exists b, d = BHash b /\ Number b = v_Sequence v) /\
  (forall v d, VCommit v d ∈ votes es -> exists b, d = BHash b /\ Number b = v_Sequence v /\ 0 <= v_Round v /\
     backed N (VPrepare v d)) /\
  (forall b cs round, VBlock b cs round ∈ votes es -> backed N (VCommit (mkView round (Number b)) (BHash b))) /\
  (forall r d cur, VCommit (mkView r (rs_sequence cur)) d ∈ votes es -> c_current s' = Some cur -> rs_preparedRound cur = Some r).
Proof.
  intros HN [(r & vs & rcs & Hinv) _ Hv] Hau. pose proof (inv_current _ _ _ _ Hinv) as Hr.
  inversion Hv as [Hes|v b Hm Hes|v b Hm Hes|v b cs vs' Hm Hvs Hn Hc Hes].
  - split_and!; intros *; by intros ?%not_elem_of_nil.
  - destruct Hm as (r1 & r2 & _ & Hr2 & _ & Hv2 & _ & Hst & Hp). assert (r2 = r) as -> by congruence.
    split_and!; intros *; intros Hin%list_elem_of_singleton; [|done..]. injection Hin as -> ->. exists b. split; [done|].
    destruct (ri_accepted _ _ _ _ (inv_round _ _ _ _ Hinv)) as (pp & Hpp & (_ & Hnum & _) & _); [by rewrite Hst|].
    unfold rs_Proposal in Hp. rewrite Hpp in Hp. injection Hp as <-. by rewrite Hnum, Hv2.
  - destruct Hm as (r1 & r2 & _ & Hr2 & _ & Hv2 & _ & Hst & Hp). assert (r2 = r) as -> by congruence.
    split_and!; intros *; intros Hin%list_elem_of_singleton; [done| |done|].
    + injection Hin as -> ->. destruct (prepares_backed N s' r vs rcs HN Hinv Hau (or_introl Hst)) as (b' & Hb' & Hnum & Hbk).
      assert (b' = b) as -> by congruence. exists b. rewrite <- Hv2. split_and!; [done..| |done].
      apply (ri_round _ _ _ _ (inv_round _ _ _ _ Hinv)).
    + injection Hin as Hv0 _. intros Hcur. assert (cur = r) as -> by congruence.
      destruct (ri_prepared _ _ _ _ (inv_round _ _ _ _ Hinv) (or_introl Hst)) as (? & _ & _ & -> & _).
      rewrite <- Hv0 in Hv2. by injection Hv2 as ->.
  - destruct Hm as (r1 & r2 & _ & Hr2 & _ & Hv2 & _ & Hst & Hp). assert (r2 = r) as -> by congruence.
    split_and!; intros *; intros Hin%list_elem_of_singleton; [done..| |done]. injection Hin as -> -> ->.
    destruct (commits_backed N s' r vs rcs HN Hinv Hau Hst) as (b' & Hb' & Hbk). assert (b' = b) as -> by congruence.
    rewrite Hn. replace (mkView (v_Round v) (v_Sequence v)) with (rs_view r); [done|]. rewrite Hv2. by destruct v.
Qed.

Lemma sent_wf N a m : net_ok N -> sent N a m -> msg_wf m.
Proof.
  intros HN (s & es & ovs & p & Ha & Hin). destruct (HN _ _ _ Ha) as [_ Hok].
  pose proof (no_out _ _ _ _ Hok) as Ho. rewrite Forall_forall in Ho. exact (Ho _ Hin).
Qed.

(** The events of the network are what the invariants of the core rely on. *)
Lemma event_facts N be a ev s es :
  net_ok N -> N !! a = Some (s, es) -> deliverable N s es ev -> sync_event be s ev ->
  event_ok s ev /\ au_event (Au N) s ev.
Proof.
  intros HN Ha Hdel Hsync. destruct (HN _ _ _ Ha) as [_ Hok]. pose proof (no_auth _ _ _ _ Hok) as Hau.
  destruct ev as [p|code data|src m|id| |round]; cbn; try done.
  - split; [done|]. intros m m' r vs Hdec Hr Hvs Hm.
    apply (message_au N code data m m' s r vs); [by intros; eapply sent_wf|exact Hdel|done| |done].
    intros view x. by eapply signers_vals.
  - pose proof (no_out _ _ _ _ Hok) as Ho. rewrite Forall_forall in Ho.
    assert (Au N m) as [Hwf Hp] by by destruct Hdel as [Hin|(pp & d & -> & Hin)]; specialize (Ho _ Hin). pose proof (proj1 (proj1 (Forall_cons _ _ _) Hp)) as [Hsrc _]. split; [|by split].
    intros r vs Hr Hvs. split; [done|]. unfold sender_ok.
    assert (forall v, vs_validators v = vs_validators vs0 -> msg_Source m ∈ AddressList v) as Hmem.
    { intros v Hv. unfold AddressList. by rewrite Hv. }
    destruct (check_at s r m) as [[]|]; try done; [case_bool_decide; [intros pvs Hpvs|]|];
      apply Hmem; eauto using au_valSet, au_prior.
  - split; [|done]. intros r vs Hr _. by apply Hdel.
Qed.

Lemma progress_views (s s' : Core B) cur cur' :
  progress s s' -> c_current s = Some cur -> c_current s' = Some cur' ->
  rs_sequence cur < rs_sequence cur' \/ (rs_sequence cur = rs_sequence cur' /\ rs_round cur <= rs_round cur').
Proof.
  unfold progress. intros Hp Hc Hc'. rewrite Hc, Hc' in Hp. unfold view_lt in Hp. destruct cur, cur'; cbn in *.
  destruct Hp as [?|[[= -> ->] _]]; lia.
Qed.

Lemma rc_lock (s : Core B) r vs rcs rc pr :
  inv_at s r vs rcs -> rc_reports s rc -> rs_preparedRound r = Some pr -> reports (rc_payload rc) pr.
Proof.
  intros Hinv (r' & Hr' & _ & Hp & Hd & _) Hpr. assert (r' = r) as -> by (pose proof (inv_current _ _ _ _ Hinv); congruence).
  split; [congruence|]. rewrite Hd. destruct (ri_lock _ _ _ _ (inv_round _ _ _ _ Hinv) pr Hpr) as [_ (b & -> & _)].
  apply hash_range.
Qed.

(** The position of earlier votes. *)
Lemma vote_sequence a s es cur v : run config a s es -> c_current s = Some cur -> v ∈ votes es ->
  v_Sequence (vote_pos v).1 <= rs_sequence cur.
Proof.
  intros Hrun Hcur Hv. destruct (run_votes _ _ _ _ Hrun) as [_ Hpos].
  specialize (Hpos (rs_view cur, State_num (c_state s))). unfold core_pos in Hpos. rewrite Hcur in Hpos.
  specialize (Hpos eq_refl). rewrite Forall_forall in Hpos. destruct (Hpos v Hv) as [Hlt|[-> _]]; cbn in *; [|lia].
  unfold view_lt in Hlt. cbn in Hlt. lia.
Qed.

Section node_step.
Context (N : Net) (a : Address) (s s' : Core B) (es es' : list (Output B)).
Context (HN : net_ok N) (Hold : node_ok N a s es) (Hstep : step_ok s s' es').
Context (Hauth : auth_step (vs_validators vs0) (Au N) s s' es').

Lemma step_rounds cur' : c_current s' = Some cur' -> exists cur, c_current s = Some cur /\
  (rs_sequence cur < rs_sequence cur' \/ (rs_sequence cur = rs_sequence cur' /\ rs_round cur <= rs_round cur')).
Proof.
  intros Hcur'. destruct (run_inv _ _ _ _ (no_run _ _ _ _ Hold)) as (cur & vs & rcs & Hinv).
  pose proof (inv_current _ _ _ _ Hinv) as Hcur. exists cur. split; [done|]. eapply progress_views; [apply Hstep|done..].
Qed.

Lemma step_lock r d cur' : VCommit (mkView r (rs_sequence cur')) d ∈ votes (es ++ es') -> c_current s' = Some cur' ->
  lock_le (Some r) (rs_preparedRound cur').
Proof.
  intros Hin Hcur'. rewrite votes_app in Hin. apply elem_of_app in Hin as [Hin|Hin].
  - destruct (step_rounds cur' Hcur') as (cur & Hcur & Hpos).
    pose proof (vote_sequence _ _ _ _ _ (no_run _ _ _ _ Hold) Hcur Hin) as Hseq. cbn in Hseq.
    assert (rs_sequence cur' = rs_sequence cur) as Heq by lia. rewrite Heq in Hin.
    eapply lock_le_trans; [by eapply (no_lock _ _ _ _ Hold)|]. eapply (as_lock _ _ _ _ _ Hauth); done.
  - destruct (step_votes_backed N s s' es' HN Hstep (as_inv _ _ _ _ _ Hauth)) as (_ & _ & _ & Hl).
    rewrite (Hl _ _ _ Hin Hcur'). apply lock_le_refl.
Qed.

Lemma new_rc ovs rc p : OBroadcast ovs (MRoundChange rc) p ∈ es' -> rc_reports s' rc.
Proof. pose proof (as_out _ _ _ _ _ Hauth) as Ho. rewrite Forall_forall in Ho. intros Hin. apply (Ho _ Hin). Qed.

Lemma step_ahead ovs rc p cur' : OBroadcast ovs (MRoundChange rc) p ∈ es ++ es' -> c_current s' = Some cur' ->
  rc_seq rc < rs_sequence cur' \/
  (rc_seq rc = rs_sequence cur' /\ (rc_Round rc <= rs_round cur' \/
     (rc_Round rc = rs_round cur' + 1 /\ reports (rc_payload rc) (rs_round cur')))).
Proof.
  intros Hin Hcur'. apply elem_of_app in Hin as [Hin|Hin].
  - destruct (step_rounds cur' Hcur') as (cur & Hcur & Hpos).
    destruct (no_ahead _ _ _ _ Hold _ _ _ _ Hin Hcur) as [?|[Heq [?|[Hr Hrep]]]]; [left; lia|..].
    + destruct Hpos; [left; lia|right; split; [lia|left; lia]].
    + destruct Hpos as [?|[? Hle]]; [left; lia|]. right. split; [lia|].
      destruct (decide (rs_round cur = rs_round cur')) as [Hrr|]; [right; rewrite <- Hrr; auto|left; lia].
  - pose proof (new_rc _ _ _ Hin) as Hrep. destruct (so_inv _ _ _ Hstep) as (r & vs & rcs & Hinv).
    assert (r = cur') as -> by (pose proof (inv_current _ _ _ _ Hinv); congruence).
    pose proof Hrep as (r0 & Hr0 & Hsq & _ & _ & Hrd). assert (r0 = cur') as -> by congruence. right. split; [done|].
    destruct Hrd as [?|[Hrd Hpr]]; [by left|]. right. split; [done|]. by eapply rc_lock.
Qed.

Lemma step_report ovs rc p r d : OBroadcast ovs (MRoundChange rc) p ∈ es ++ es' ->
  VCommit (mkView r (rc_seq rc)) d ∈ votes (es ++ es') -> r < rc_Round rc ->
  exists pr, r <= pr /\ reports (rc_payload rc) pr.
Proof.
  intros Hin Hv Hr. destruct (so_inv _ _ _ Hstep) as (cur' & vs & rcs & Hinv). pose proof (inv_current _ _ _ _ Hinv) as Hcur'.
  apply elem_of_app in Hin as [Hin|Hin].
  - pose proof Hv as Hv'. rewrite votes_app in Hv'. apply elem_of_app in Hv' as [Hv'|Hv']; [by eapply (no_report _ _ _ _ Hold)|].
    pose proof (so_votes _ _ _ Hstep) as Hvs.
    inversion Hvs as [Hes|v b Hm Hes|v b Hm Hes|v b cs vs' Hm Hvs' Hn Hc Hes]; rewrite <- Hes in Hv';
      [by apply not_elem_of_nil in Hv'|apply list_elem_of_singleton in Hv'..]; try discriminate Hv'.
    injection Hv' as Hview _. destruct Hm as (cur & ? & Hcur & _ & Hcv & _). rewrite <- Hview in Hcv. injection Hcv as Hcr Hcs.
    destruct (no_ahead _ _ _ _ Hold _ _ _ _ Hin Hcur) as [?|[_ [?|[_ Hrep]]]]; [lia|lia|].
    exists (rs_round cur). split; [lia|done].
  - pose proof (new_rc _ _ _ Hin) as Hrep. pose proof Hrep as (r0 & Hr0 & Hsq & _). assert (r0 = cur') as -> by congruence.
    fold (rc_seq rc) in Hsq. rewrite Hsq in Hv. destruct (step_lock _ _ _ Hv Hcur') as (pr & Hpr & Hle).
    exists pr. split; [done|]. by eapply rc_lock.
Qed.
End node_step.

Lemma out_ok_good N (s : Core B) es : Forall (out_ok (Au N) s) es -> Forall (out_good N) es.
Proof. intros Hes. eapply Forall_impl; [exact Hes|]. intros []; cbn; tauto. Qed.

Lemma node_ok_step N a be ev s es s' es' :
  net_ok N -> N !! a = Some (s, es) -> backend_ok be -> backend_fixed be (vs_validators vs0) ->
  deliverable N s es ev -> sync_event be s ev -> handleEvent be ev s = Some (tt, s', es') ->
  node_ok (<[a := (s', es ++ es')]> N) a s' (es ++ es') /\ step_ok s s' es' /\
  auth_step (vs_validators vs0) (Au N) s s' es'.
Proof.
  intros HN Ha Hbe Hfix Hdel Hsync Hev. destruct (HN _ _ _ Ha) as [_ Hold].
  destruct (event_facts N be a ev s es HN Ha Hdel Hsync) as [Hevok Hau].
  pose proof (run_inv _ _ _ _ (no_run _ _ _ _ Hold)) as Hinv.
  pose proof (wp_run _ _ _ _ _ _ (handleEvent_step be s ev Hinv Hbe Hevok) Hev) as Hstep. cbn beta in Hstep.
  pose proof (wlp_run _ _ _ _ _ _ (auth_handleEvent be _ _ Hfix s ev Hinv (no_auth _ _ _ _ Hold) Hsync Hau) Hev) as Hauth.
  cbn beta in Hauth. split; [|done]. pose proof (net_le_event N a s es s' es' Ha) as Hle.
  destruct (step_votes_backed N s s' es' HN Hstep (as_inv _ _ _ _ _ Hauth)) as (Hp & Hc & Hd & _). split.
  - by eapply run_event; [apply Hold|..].
  - eapply auth_inv_mono; [exact Hle|apply Hauth].
  - eapply out_good_mono; [exact Hle|]. apply Forall_app. split; [apply Hold|]. eapply out_ok_good, Hauth.
  - intros v d. rewrite votes_app. intros [?|?]%elem_of_app; [by eapply no_prepare|auto].
  - intros v d. rewrite votes_app. intros [Hv|Hv]%elem_of_app;
      [destruct (no_commit _ _ _ _ Hold v d Hv) as (b & ? & ? & ? & ?)|destruct (Hc v d Hv) as (b & ? & ? & ? & ?)];
      eauto 6 using backed_mono.
  - intros b cs round. rewrite votes_app. intros [Hv|Hv]%elem_of_app; eapply backed_mono; try exact Hle; [by eapply no_decide|eauto].
  - by apply step_lock with N a s.
  - by apply step_ahead with N a s.
  - intros ovs rc p r d ? ? ?. by eapply (step_report N a s s' es es').
Qed.

Lemma node_ok_start N a be s es :
  backend_ok be -> backend_fixed be (vs_validators vs0) -> startNewRound be 0 (NewCore config a) = Some (tt, s, es) ->
  node_ok N a s es.
Proof.
  intros Hbe Hfix Hstart.
  pose proof (wp_run _ _ _ _ _ _ (start_round be config a Hbe) Hstart) as [Hinv Hes]. cbn beta in Hes.
  assert (auth_inv (vs_validators vs0) (Au N) (NewCore config a)) as Hnew.
  { split; [done..|by intros ? ?|]. split; done. }
  pose proof (wlp_run _ _ _ _ _ _ (auth_startNewRound be _ _ Hfix 0 _ Hnew ltac:(done)) Hstart) as (Hau & _ & Hq & _).
  assert (forall ovs rc p, OBroadcast ovs (MRoundChange rc) p ∉ es) as Hnorc.
  { intros ovs rc p Hin. rewrite Forall_forall in Hq. destruct (Hq _ Hin) as [_ []]. }
  split; [by eapply run_start|done|..].
  - eapply Forall_impl; [exact Hq|]. intros []; cbn; tauto.
  - intros v d. rewrite (votes_none _ Hes). by intros ?%not_elem_of_nil.
  - intros v d. rewrite (votes_none _ Hes). by intros ?%not_elem_of_nil.
  - intros b cs round. rewrite (votes_none _ Hes). by intros ?%not_elem_of_nil.
  - intros r d cur. rewrite (votes_none _ Hes). by intros ?%not_elem_of_nil.
  - intros ovs rc p cur Hin. by apply Hnorc in Hin.
  - intros ovs rc p r d Hin. by apply Hnorc in Hin.
Qed.

Lemma reach_ok N : reach sync_event N -> net_ok N.
Proof.
  induction 1 as [|N a be s es HN IH Hc Hn Hbe Hfix Hstart|N a be ev s es s' es' HN IH Ha Hbe Hfix Hdel Hsync Hev].
  - intros a s es. by rewrite lookup_empty.
  - intros b x xs. destruct (decide (b = a)) as [->|Hne].
    + rewrite lookup_insert_eq. intros [= <- <-]. split; [done|]. by eapply node_ok_start.
    + rewrite lookup_insert_ne by done. intros Hb. destruct (IH _ _ _ Hb) as [? Hok]. split; [done|].
      eapply node_ok_mono; [|exact Hok]. by apply net_le_start.
  - intros b x xs. destruct (decide (b = a)) as [->|Hne].
    + rewrite lookup_insert_eq. intros [= <- <-]. split; [by apply (IH _ _ _ Ha)|]. by eapply node_ok_step.
    + rewrite lookup_insert_ne by done. intros Hb. destruct (IH _ _ _ Hb) as [? Hok]. split; [done|].
      eapply node_ok_mono; [|exact Hok]. by eapply net_le_event.
Qed.

(** * Agreement *)

Context (byz : list Address) (Hvs : valset_ok vs0) (Hbyz : Z.of_nat (length byz) <= faulty vs0).
Context (Hcorrect : forall a, a ∈ AddressList vs0 -> a ∉ byz -> a ∈ correct).

Lemma voted_once N a v d d' :
  net_ok N -> (voted N a (VPrepare v d) -> voted N a (VPrepare v d') -> d = d') /\
  (voted N a (VCommit v d) -> voted N a (VCommit v d') -> d = d').
Proof.
  intros HN. assert (forall x y, voted N a x -> voted N a y -> vote_pos x = vote_pos y -> x = y) as Hone.
  { intros x y (s & es & Ha & Hx) (s1 & es1 & Ha1 & Hy) Hpos. rewrite Ha in Ha1. injection Ha1 as <- <-.
    destruct (HN _ _ _ Ha) as [_ Hok]. destruct (run_votes _ _ _ _ (no_run _ _ _ _ Hok)) as [Hs _].
    apply list_elem_of_lookup in Hx as [i Hi], Hy as [j Hj].
    assert (i = j) as -> by (by eapply same_position). congruence. }
  split; intros Hx Hy; specialize (Hone _ _ Hx Hy eq_refl); congruence.
Qed.

(** Members of a quorum behind a COMMIT report the lock in later rounds. *)
Lemma lock_reported N p a r r' h d :
  net_ok N -> genuine N (rc_of p) -> sr_source p = a -> a ∈ correct -> voted N a (VCommit (mkView r h) d) ->
  sr_View p = mkView r' h -> r < r' ->
  exists pr, r <= pr /\ sr_PreparedRound p = Some pr /\ sr_PreparedDigest p <> zeroHash.
Proof.
  intros HN [_ Hg] <- Hc (s & es & Ha & Hv) Hview Hr. destruct (Hg Hc) as ([m|m|m|rc] & Hm & Hsame); try done.
  destruct Hsame as [Hv' Hcont]. destruct Hm as (s1 & es1 & ovs & pl & Ha1 & Hin). change (msg_Source (rc_of p)) with (sr_source p) in Ha1.
  rewrite Ha in Ha1. injection Ha1 as <- <-. destruct (HN _ _ _ Ha) as [_ Hok].
  change (rc_View (mkRoundChange p None [])) with (sr_View p) in Hv'. rewrite Hview in Hv'.
  assert (rc_seq rc = h /\ rc_Round rc = r') as [Hseq Hrd] by (unfold rc_View, sr_View, cp_View in Hv'; by injection Hv').
  destruct (no_report _ _ _ _ Hok ovs rc pl r d Hin) as (pr & Hle & Hp & Hd); [by rewrite Hseq|lia|].
  exists pr. split; [done|]. unfold prepared_content in Hcont. cbn [rc_payload] in Hcont. rewrite Hp in Hcont.
  rewrite (proj2 (Z.eqb_neq (sr_PreparedDigest (rc_payload rc)) zeroHash)) in Hcont by (change zeroHash with 0; lia).
  destruct (sr_PreparedRound p); [|done].
  destruct (Z.eqb_spec (sr_PreparedDigest p) zeroHash); [done|]. injection Hcont as -> _. done.
Qed.

(** The quorum of senders of the messages that satisfy [f]. *)
Lemma senders_quorum {A} (src : A -> Address) (f : A -> bool) (l : list A) (g : A -> WBFTMessage B) N :
  (forall x, msg_Source (g x) = src x) -> Forall (genuine N) (map g l) -> QuorumSize vs0 <= count f (dedup_by src ∅ l) ->
  is_quorum vs0 (src <$> List.filter f (dedup_by src ∅ l)).
Proof.
  intros Hsrc Hg. apply dedup_quorum. intros m Hm. rewrite Forall_forall in Hg.
  destruct (Hg (g m)) as [Hin _]; [by apply list_elem_of_fmap_2|]. by rewrite <- Hsrc.
Qed.

Lemma justified_lock N NF (b : B) rcs ps r r' h d :
  net_ok N -> net_ok NF -> net_le N NF -> backed NF (VCommit (mkView r h) d) -> r < r' -> Number b = h ->
  Forall (genuine N) (map rc_of rcs) -> Forall (genuine N) (map MPrepare ps) ->
  justified_deduped b (mkView r' h) (deduplicateRoundChanges rcs) (deduplicatePrepares ps) (QuorumSize vs0) ->
  (forall a pr, r < pr -> a ∈ correct -> voted N a (VPrepare (mkView pr h) (BHash b)) -> BHash b = d) ->
  BHash b = d.
Proof.
  intros HN HNF Hle (Q & HQ & HQv) Hr Hnum Hrcs Hps (_ & Hview & Hcase) IH.
  assert (forall f, QuorumSize vs0 <= count f (deduplicateRoundChanges rcs) -> exists m pr, f m = true /\
    r <= pr /\ sr_PreparedRound m = Some pr /\ sr_PreparedDigest m <> zeroHash) as Hlocked.
  { intros f Hf. pose proof (senders_quorum sr_source f rcs rc_of N (fun _ => eq_refl) Hrcs Hf) as Hq.
    destruct (quorum_common vs0 byz _ _ Hvs Hbyz Hq HQ) as (a & Ha & HaQ & Hab).
    assert (a ∈ correct) as Hac by (apply Hcorrect; [by apply HQ|done]).
    pose proof Ha as (m & -> & Hm%list_elem_of_In%filter_In)%list_elem_of_fmap. destruct Hm as [Hm%list_elem_of_In Hfm].
    pose proof (Hview m Hm) as Hv. apply dedup_by_elem in Hm as [Hm _]. rewrite Forall_forall in Hrcs.
    destruct (lock_reported NF m (sr_source m) r r' h d) as (pr & ? & ? & ?); eauto 6.
    eapply genuine_mono; [exact Hle|]. apply Hrcs. by apply list_elem_of_fmap_2. }
  destruct Hcase as [[_ Hnil]|(_ & HP & pr & Hpr & Hlow & _)].
  - destruct (Hlocked isNilPrepared Hnil) as (m & pr & Hm & _ & _ & Hd). unfold isNilPrepared in Hm. zify_bools. done.
  - destruct (Hlocked (lowerOrEqual pr) Hlow) as (m & pr' & Hm & Hrle & Hpr' & _).
    unfold lowerOrEqual in Hm. rewrite Hpr' in Hm. zify_bools.
    unfold deduplicatePrepares in HP. rewrite <- (count_all (dedup_by _ _ _)) in HP.
    pose proof (senders_quorum pr_source _ ps MPrepare N (fun _ => eq_refl) Hps HP) as HPq.
    assert (forall x, x ∈ pr_source <$> List.filter (fun _ => true) (dedup_by pr_source ∅ ps) -> x ∈ correct ->
      voted N x (VPrepare (mkView pr h) (BHash b))) as Hvoted.
    { intros x (p & -> & Hp%list_elem_of_In%filter_In)%list_elem_of_fmap Hxc. destruct Hp as [Hp%list_elem_of_In _].
      destruct (Hpr p Hp) as [<- Hd]. apply dedup_by_elem in Hp as [Hp _]. rewrite Forall_forall in Hps. rewrite <- Hnum.
      apply genuine_prepare; [done| |done|done]. apply Hps. by apply list_elem_of_fmap_2. }
    destruct (decide (r = pr)) as [->|Hne].
    + destruct (quorum_has_correct vs0 byz Q Hvs Hbyz HQ) as (c & HcQ & Hcb).
      assert (c ∈ correct) as Hcc by (apply Hcorrect; [by apply HQ|done]).
      destruct (HQv c HcQ Hcc) as (s & es & Hc & Hv). destruct (HNF _ _ _ Hc) as [_ Hok].
      destruct (no_commit _ _ _ _ Hok _ _ Hv) as (_ & _ & _ & _ & q & Hq & Hqv).
      destruct (quorum_common vs0 byz _ _ Hvs Hbyz HPq Hq) as (x & HxP & Hxq & Hxb).
      assert (x ∈ correct) as Hxc by (apply Hcorrect; [by apply Hq|done]).
      destruct (voted_once NF x (mkView pr h) (BHash b) d HNF) as [Honce _]. apply Honce; [|by apply Hqv].
      eapply voted_mono; [exact Hle|by apply Hvoted].
    + destruct (quorum_has_correct vs0 byz _ Hvs Hbyz HPq) as (x & HxP & Hxb).
      assert (x ∈ correct) as Hxc by (apply Hcorrect; [by apply HPq|done]). apply (IH x pr); [lia|done|by apply Hvoted].
Qed.

(** A node that sends PREPARE in a round above 0 accepted a justified proposal. *)
Lemma prepare_justified N s s' es r' h d :
  step_ok s s' es -> auth_inv (vs_validators vs0) (Au N) s' -> VPrepare (mkView r' h) d ∈ votes es -> 0 < r' ->
  exists (b : B) rcs ps, d = BHash b /\ Number b = h /\
    justified_deduped b (mkView r' h) (deduplicateRoundChanges rcs) (deduplicatePrepares ps) (QuorumSize vs0) /\
    Forall (genuine N) (map rc_of rcs) /\ Forall (genuine N) (map MPrepare ps).
Proof.
  intros [(r & vs & rcs & Hinv) _ Hv] Hau Hin Hpos. pose proof (inv_current _ _ _ _ Hinv) as Hr.
  destruct (same_members vs) as [Hq _]; [by apply (au_valSet _ _ _ Hau), (inv_valSet _ _ _ _ Hinv)|].
  inversion Hv as [Hes|v b Hm Hes|v b Hm Hes|v b cs vs' Hm _ _ _ Hes]; rewrite <- Hes in Hin;
    [by apply not_elem_of_nil in Hin|apply list_elem_of_singleton in Hin..]; [|done..].
  injection Hin as <- ->. destruct Hm as (r1 & r2 & _ & Hr2 & _ & Hv2 & _ & Hst & Hp).
  assert (r2 = r) as -> by congruence.
  destruct (ri_accepted _ _ _ _ (inv_round _ _ _ _ Hinv)) as (pp & Hpp & (_ & Hnum & _ & Hjust) & _); [by rewrite Hst|].
  destruct (au_preprepare _ _ (au_round _ _ _ Hau) r pp Hr Hpp) as [_ [_ Hau']%Forall_cons]. apply Forall_app in Hau' as [Hrcs Hps].
  pose proof (au_bound _ _ (au_round _ _ _ Hau) r Hr) as Hbound.
  unfold rs_Proposal in Hp. rewrite Hpp in Hp. injection Hp as <-. rewrite Hv2 in Hnum, Hjust. cbn in Hnum, Hjust.
  assert (rs_round r = r') as Hrr by (by injection Hv2). rewrite big_Uint64_small in Hjust by lia.
  specialize (Hjust Hpos). rewrite Hq in Hjust.
  apply isJustified_justified in Hjust; [|by apply QuorumSize_pos, vs_bound].
  by exists (pp_Proposal pp), (pp_JustificationRoundChanges pp), (pp_JustificationPrepares pp).
Qed.

(** After a quorum has sent COMMIT for a block, correct nodes send PREPARE for no
    other block in the later rounds of the height. *)
Lemma later_prepares NF r h d : net_ok NF -> 0 <= r -> backed NF (VCommit (mkView r h) d) -> forall N,
  reach sync_event N -> net_le N NF -> forall a r' d', r < r' -> voted N a (VPrepare (mkView r' h) d') -> d' = d.
Proof.
  intros HNF Hr0 HQ N. induction 1 as [|N a be s es HN IH Hc Hn Hbe Hfix Hstart|N a be ev s es s' es' HN IH Ha Hbe Hfix Hdel Hsync Hev];
    intros Hle x r' d' Hr Hx.
  - destruct Hx as (? & ? & Hx & _). by rewrite lookup_empty in Hx.
  - apply (IH ltac:(eapply net_le_trans; [by apply net_le_start|exact Hle]) x r'); [done|].
    destruct Hx as (s0 & es0 & Hx & Hv). destruct (decide (x = a)) as [->|Hne].
    + rewrite lookup_insert_eq in Hx. injection Hx as <- <-.
      pose proof (wp_run _ _ _ _ _ _ (start_round be config a Hbe) Hstart) as [_ Hes]. cbn beta in Hes.
      rewrite (votes_none _ Hes) in Hv. by apply not_elem_of_nil in Hv.
    + rewrite lookup_insert_ne in Hx by done. by exists s0, es0.
  - pose proof (net_le_event N a s es s' es' Ha) as Hle1. pose proof (net_le_trans _ _ _ Hle1 Hle) as Hle2.
    specialize (IH Hle2). pose proof (reach_ok N HN) as HNok. destruct Hx as (s0 & es0 & Hx & Hv).
    destruct (decide (x = a)) as [->|Hne]; [|rewrite lookup_insert_ne in Hx by done; by apply (IH x r'); [|exists s0, es0]].
    rewrite lookup_insert_eq in Hx. injection Hx as <- <-. rewrite votes_app in Hv.
    apply elem_of_app in Hv as [Hv|Hv]; [by apply (IH a r'); [|exists s, es]|].
    destruct (node_ok_step N a be ev s es s' es' HNok Ha Hbe Hfix Hdel Hsync Hev) as (_ & Hstep & Hauth).
    destruct (prepare_justified N s s' es' r' h d' Hstep (as_inv _ _ _ _ _ Hauth) Hv) as (b & rcs & ps & -> & Hnum & Hj & Hg1 & Hg2); [lia|].
    eapply (justified_lock N NF b rcs ps r r' h d); try done. intros y pr Hpr _ Hy. by apply (IH y pr).
Qed.

(** The decisions of a node. *)
Definition decided (N : Net) (a : Address) (b : B) (round : Z) : Prop :=
  exists s es p cs, N !! a = Some (s, es) /\ OCommit b p cs round ∈ es.

Lemma decided_backed N a b round : net_ok N -> decided N a b round -> backed N (VCommit (mkView round (Number b)) (BHash b)).
Proof.
  intros HN (s & es & p & cs & Ha & Hin). destruct (HN _ _ _ Ha) as [_ Hok]. apply (no_decide _ _ _ _ Hok b cs round).
  apply list_elem_of_omap. by exists (OCommit b p cs round).
Qed.

Lemma backed_commit N v d : net_ok N -> backed N (VCommit v d) -> 0 <= v_Round v /\ backed N (VPrepare v d).
Proof.
  intros HN (Q & HQ & HQv). destruct (quorum_has_correct vs0 byz Q Hvs Hbyz HQ) as (c & HcQ & Hcb).
  destruct (HQv c HcQ) as (s & es & Hc & Hv); [apply Hcorrect; [by apply HQ|done]|]. destruct (HN _ _ _ Hc) as [_ Hok].
  by destruct (no_commit _ _ _ _ Hok _ _ Hv) as (_ & _ & _ & ? & ?).
Qed.

Lemma agreement_rounds N h r1 r2 d1 d2 :
  reach sync_event N -> backed N (VCommit (mkView r1 h) d1) -> backed N (VCommit (mkView r2 h) d2) -> r1 <= r2 -> d1 = d2.
Proof.
  intros HN H1' H2' Hle. pose proof (reach_ok N HN) as HNok. destruct (decide (r1 = r2)) as [->|Hne].
  - destruct H1' as (Q1 & HQ1 & HQv1), H2' as (Q2 & HQ2 & HQv2).
    destruct (quorum_common vs0 byz _ _ Hvs Hbyz HQ1 HQ2) as (c & Hc1 & Hc2 & Hcb).
    assert (c ∈ correct) as Hcc by (apply Hcorrect; [by apply HQ1|done]).
    destruct (voted_once N c (mkView r2 h) d1 d2 HNok) as [_ Honce]. auto.
  - destruct (backed_commit _ _ _ HNok H1') as [Hr1 _]. destruct (backed_commit _ _ _ HNok H2') as [_ (q & Hq & Hqv)].
    destruct (quorum_has_correct vs0 byz q Hvs Hbyz Hq) as (c & Hcq & Hcb). symmetry.
    apply (later_prepares N r1 h d1 HNok Hr1 H1' N HN (net_le_refl N) c r2); [lia|].
    apply Hqv; [done|]. apply Hcorrect; [by apply Hq|done].
Qed.

End network.
