(* ===== verification/CoreProps.v ===== *)
(** The properties of the WBFT core, for every run of its event loop. *)
From Stdlib Require Import Sorted.
From S2P Require Import Prelude Float64 Validators Prque Messages Config Justification RoundChangeSet CoreState CoreLogic CoreHandlers CoreSpecs CoreInvariant CoreSteps CoreEvents CoreRuns.

(** * A concrete environment

    Signatures name their signer, a BLS seal is the key followed by the sealed
    data; blocks and messages are short byte strings. *)
Module Sample.
#[export] Instance sampleCrypto : Crypto := {|
  Keccak256 data := data;
  SigToPub _ sig := Some sig;
  PubkeyToAddress pub := hd 0 pub;
  blsPublicKey := bytes;
  blsSignature := bytes;
  PublicKeyFromBytes := Some;
  SignatureFromBytes := Some;
  blsVerify sig key data := bool_decide (sig = key ++ data);
|}.

Definition sampleDecode (code : Z) (data : bytes) : option (WBFTMessage SampleBlock) :=
  match data with
  | src :: seq :: round :: hash :: seal =>
      let c := mkCommon code zeroAddress seq round [src] in
      if code =? PreprepareCode then Some (MPreprepare (mkPreprepare c (mkSampleBlock seq hash) [] []))
      else if code =? PrepareCode then Some (MPrepare (mkPrepare c hash seal))
      else if code =? CommitCode then Some (MCommit (mkCommit c hash seal))
      else if code =? RoundChangeCode then
        Some (MRoundChange (mkRoundChange (mkSRC c None zeroHash) None []))
      else None
  | _ => None
  end.

#[export] Program Instance sampleCodec : Codec SampleBlock := {|
  payload_Preprepare p := Some [cp_Sequence (pp_common p)];
  payload_Prepare p := Some [pr_Digest p];
  payload_Commit p := Some [cm_Digest p];
  payload_RoundChange p := Some [cp_Round (sr_common p)];
  EncodeMessage m := Some [msg_Code m];
  Decode := sampleDecode;
|}.
Next Obligation.
  unfold sampleDecode. intros code data m Hdec.
  repeat (case_match; simplify_eq; zify_bools); by subst.
Qed.

(** Node 1 of the set [four], on a chain whose head is [last], made by node 4. *)
Definition backend (last : SampleBlock) : Backend SampleBlock := {|
  be_Address := 1;
  be_Validators _ := four;
  be_LastProposal := (Some last, 4);
  be_HasBadProposal _ := false;
  be_Verify _ := VerifyOk;
  be_CommitFails _ _ _ _ := false;
  be_Sign _ := Some [1];
  be_SignWithoutHashing data := 11 :: data;
  be_BroadcastFails _ := false;
|}.
Definition be9 := backend (mkSampleBlock 9 90).
Definition be10 := backend (mkSampleBlock 10 77).
Definition config : Config := mkConfig 1000 1 0 10 0 8 [] [].

Lemma backend_sample_ok last : backend_ok (backend last).
Proof. split; [by eexists|]. intros b. apply four_ok. Qed.

Fixpoint exec (be : Backend SampleBlock) (evs : list Event) (s : Core SampleBlock)
  : option (Core SampleBlock * list (Output SampleBlock)) :=
  match evs with
  | [] => Some (s, [])
  | ev :: evs' =>
      match handleEvent be ev s with
      | Some (_, s', es) =>
          match exec be evs' s' with Some (s'', es') => Some (s'', es ++ es') | None => None end
      | None => None
      end
  end.

(** Events that come from outside of the core. *)
Definition external (ev : @Event SampleBlock) : Prop :=
  match ev with BacklogEvent _ _ | TimeoutEvent _ => False | _ => True end.

Lemma exec_execution last evs : forall s es s' es',
  execution config 1 s es -> Forall external evs -> exec (backend last) evs s = Some (s', es') ->
  execution config 1 s' (es ++ es').
Proof.
  induction evs as [|ev evs IH]; intros s es s' es' Hrun Hev Hexec; cbn [exec] in Hexec.
  - injection Hexec as <- <-. by rewrite app_nil_r.
  - apply Forall_cons in Hev as [He Hev].
    destruct (handleEvent (backend last) ev s) as [[[[] s1] es1]|] eqn:Hstep; [|done].
    destruct (exec (backend last) evs s1) as [[s2 es2]|] eqn:Hrest; [|done]. injection Hexec as <- <-.
    rewrite app_assoc. eapply IH; [|done|exact Hrest].
    eapply execution_event; [exact Hrun|apply (backend_sample_ok last)| |exact Hstep]. by destruct ev.
Qed.

(** Node 1 proposes block 10, and nodes 1, 2 and 3 decide it. *)
Definition seal (a : Address) (ty : Z) : bytes := [a * 11; 77; 0; ty].
Definition deciding : list (@Event SampleBlock) :=
  [RequestEvent (Some (mkSampleBlock 10 77));
   MessageEvent PreprepareCode [1; 10; 0; 77];
   MessageEvent PrepareCode ([1; 10; 0; 77] ++ seal 1 0);
   MessageEvent PrepareCode ([2; 10; 0; 77] ++ seal 2 0);
   MessageEvent PrepareCode ([3; 10; 0; 77] ++ seal 3 0);
   MessageEvent CommitCode ([1; 10; 0; 77] ++ seal 1 1);
   MessageEvent CommitCode ([2; 10; 0; 77] ++ seal 2 1);
   MessageEvent CommitCode ([3; 10; 0; 77] ++ seal 3 1)].

Definition run_of (evs : list (@Event SampleBlock)) : Core SampleBlock * list (Output SampleBlock) :=
  match startNewRound be9 0 (NewCore config 1) with
  | Some (_, s, es) =>
      match exec be9 evs s with
      | Some (s', es') => (s', es ++ es')
      | None => (s, es)
      end
  | None => (NewCore config 1, [])
  end.

Lemma run_of_execution evs : Forall external evs -> execution config 1 (run_of evs).1 (run_of evs).2.
Proof.
  intros Hev. unfold run_of.
  destruct (wp_total _ _ _ (start_round be9 config 1 (backend_sample_ok _))) as ([] & s & es & Hs & _).
  rewrite Hs. pose proof (execution_start config 1 be9 s es (backend_sample_ok _) Hs) as Hrun.
  destruct (exec be9 evs s) as [[s' es']|] eqn:Hexec; [|done]. cbn. by eapply exec_execution.
Qed.

Lemma run_of_run evs : Forall external evs -> run config 1 (run_of evs).1 (run_of evs).2.
Proof. intros Hev. by apply execution_run, run_of_execution. Qed.

Definition decided := run_of deciding.
Lemma decided_run : run config 1 decided.1 decided.2.
Proof. apply run_of_run. by repeat constructor. Qed.
End Sample.

Section properties.
Context `{MapOrder} {B : Type} `{Proposal B} `{Crypto} `{Codec B}.
Implicit Types (s : Core B) (es : list (Output B)).

(** C2. A validator never equivocates.  In every run of the core, the PREPARE
    messages, the COMMIT messages and the blocks handed over are emitted in
    strictly increasing order of sequence, round and phase; in particular no
    two PREPARE messages, no two COMMIT messages and no two decisions are ever
    made for the same sequence and round. *)
Theorem no_equivocation (config : Config) (address : Address) (s : Core B) (es : list (Output B))
  (Hrun : run config address s es) :
  StronglySorted vote_lt (votes es) /\
  (forall i j v d d', votes es !! i = Some (VPrepare v d) -> votes es !! j = Some (VPrepare v d') -> i = j) /\
  (forall i j v d d', votes es !! i = Some (VCommit v d) -> votes es !! j = Some (VCommit v d') -> i = j) /\
  (forall i j b cs round b' cs', votes es !! i = Some (VBlock b cs round) ->
     votes es !! j = Some (VBlock b' cs' round) -> Number b = Number b' -> i = j).
Proof.
  destruct (run_votes _ _ _ _ Hrun) as [Hs _]. split_and!; [done|..].
  - intros. by eapply same_position.
  - intros. by eapply same_position.
  - intros i j b cs round b' cs' Hi Hj Hn. eapply same_position; [done..|]. cbn. by rewrite Hn.
Qed.

(** C7. A block is handed over for insertion only with a commit certificate:
    its committed seals belong to at least a quorum of pairwise different
    validators of a well-formed set, and each is the (96-byte) copy of a seal
    that the validator's BLS key verifies for this block and this round. *)
Theorem commit_certificate (config : Config) (address : Address) (s : Core B) (es : list (Output B))
  (b : B) (preparedSeals committedSeals : list SealData) (round : Z)
  (Hrun : run config address s es) (Hcommit : OCommit b preparedSeals committedSeals round ∈ es) :
  exists vs, valset_ok vs /\ committed_ok vs b round committedSeals.
Proof.
  apply (run_blocks _ _ _ _ Hrun). unfold votes. apply list_elem_of_omap. by eexists.
Qed.

(** C30. No handler dereferences nil or runs out of its loops: after [Start], in
    every state that an execution reaches, every event is handled to its end --
    any bytes received, any request, timer or new head, and every message that the
    core itself has put back, however late it is handled.  A message released
    from the backlog is not authenticated again, and the validator set may have
    changed since; that [verifySeal] still finds its sender is part of what is
    proved.  (The chain has a head, its validator sets are well formed, and a round
    that times out is below 2^64 - 1.) *)
Theorem handlers_total (config : Config) (address : Address) (s : Core B) (es : list (Output B))
  (be : Backend B) (ev : Event)
  (Hex : execution config address s es) (Hbe : backend_ok be) (Hev : posted s es ev) :
  exists s' es', handleEvent be ev s = Some (tt, s', es').
Proof.
  destruct (execution_event_ok _ _ _ _ _ Hex Hev) as [Hinv Hok].
  destruct (wp_total _ _ _ (handleEvent_step be s ev Hinv Hbe Hok)) as ([] & s' & es' & Hs & _). eauto.
Qed.

(** C31. Views only move forward: handling an event leaves the core in a later
    view, or in the same view with the state (accept request, preprepared,
    prepared, committed) not moved back. *)
Theorem view_monotone (config : Config) (address : Address) (s s' : Core B) (es es' : list (Output B))
  (be : Backend B) (ev : Event)
  (Hrun : run config address s es) (Hbe : backend_ok be) (Hev : event_ok s ev)
  (Hstep : handleEvent be ev s = Some (tt, s', es')) :
  progress s s'.
Proof.
  apply (wp_run _ _ _ _ _ _ (handleEvent_step be s ev (run_inv _ _ _ _ Hrun) Hbe Hev) Hstep).
Qed.

(** C23. What the core reports as prepared is justified: whenever a prepared
    round is recorded, it is not later than the current round, a prepared block
    is recorded with it, and [WBFTPreparedPrepares], which justifies the next
    ROUND-CHANGE message, holds PREPARE messages of a quorum of different
    validators for exactly this sequence, round and block, with valid seals. *)
Theorem prepared_certificate (config : Config) (address : Address) (s : Core B) (es : list (Output B))
  (r : roundState B) (pr : Z)
  (Hrun : run config address s es) (Hr : c_current s = Some r) (Hpr : rs_preparedRound r = Some pr) :
  0 <= pr <= rs_round r /\
  exists vs b, c_valSet s = Some vs /\ valset_ok vs /\ rs_preparedBlock r = Some b /\
    certificate vs (mkView pr (rs_sequence r)) b (c_preparedPrepares s).
Proof.
  destruct (run_inv _ _ _ _ Hrun) as (r' & vs & rcs & Hinv). pose proof (inv_current _ _ _ _ Hinv) as Hr'.
  assert (r' = r) as -> by congruence.
  destruct (ri_lock _ _ _ _ (inv_round _ _ _ _ Hinv) pr Hpr) as [Hle (b & Hb & Hc)]. split; [done|].
  exists vs, b. destruct Hinv. auto.
Qed.

(** What a round has accepted: once the core has left the accept-request
    state, it holds a PRE-PREPARE of the current view, sent by the proposer of
    the round, for a block of the current height, and, after round 0, accepted
    by [isJustified] for this view with the quorum of the validator set. *)
Theorem accepted_proposal (config : Config) (address : Address) (s : Core B) (es : list (Output B))
  (r : roundState B)
  (Hrun : run config address s es) (Hr : c_current s = Some r) (Hst : c_state s <> StateAcceptRequest) :
  exists vs pp, c_valSet s = Some vs /\ valset_ok vs /\ rs_Preprepare r = Some pp /\
    accepted vs (rs_view r) pp.
Proof.
  destruct (run_inv _ _ _ _ Hrun) as (r' & vs & rcs & Hinv). pose proof (inv_current _ _ _ _ Hinv) as Hr'.
  assert (r' = r) as -> by congruence.
  destruct (ri_accepted _ _ _ _ (inv_round _ _ _ _ Hinv) Hst) as (pp & Hpp & Hacc & _).
  exists vs, pp. destruct Hinv. auto.
Qed.

(** C32. Authentication.  [verifySignatures] changes no state; the message it
    accepts is the received one with every source (its own and those of the
    piggybacked payloads) set to the address its signature recovers to, and each
    such address belongs to the validator set in charge of the payload's view. *)
Theorem verifySignatures_authentic (config : Config) (address : Address) (s s' : Core B)
  (es es' : list (Output B)) (r : roundState B) (vs : ValidatorSet) (m m' : WBFTMessage B)
  (Hrun : run config address s es) (Hr : c_current s = Some r) (Hvs : c_valSet s = Some vs)
  (Hver : verifySignatures m s = Some (inl m', s', es')) :
  s' = s /\ es' = [] /\ authentic_msg s r vs m m'.
Proof.
  destruct (wp_run _ _ _ _ _ _ (wp_verifySignatures m s r vs Hr Hvs) Hver) as (-> & -> & Hm). auto.
Qed.

(** The backlog is bounded and duplicate-free: for every validator it holds
    at most 88 messages, all of them sent by that validator, at most one for
    each message code, sequence and round, and [backlogKeys] records exactly
    these slots. *)
Theorem backlog_bounded (config : Config) (address : Address) (s : Core B) (es : list (Output B))
  (src : Address) (q : list (WBFTMessage B * Z))
  (Hrun : run config address s es) (Hq : c_backlogs s !! src = Some q) :
  QSize q <= 88 /\ NoDup (msg_key <$> q.*1) /\ Forall (fun m => msg_Source m = src) q.*1 /\
  c_backlogKeys s !! src = Some (list_to_set (msg_key <$> q.*1)).
Proof.
  destruct (run_inv _ _ _ _ Hrun) as (r & vs & rcs & Hinv).
  destruct (backlog_ok_entry _ _ _ _ (inv_backlog _ _ _ _ Hinv) Hq) as (ks & Hks & []).
  subst ks. split_and!; [done|done| |done]. rewrite Forall_fmap. eapply Forall_impl; [exact be_source|].
  by intros [] [].
Qed.

(** Timeouts of replaced timers are ignored: in every reachable state the
    event of any round-change timer but the last one started has no effect. *)
Theorem stale_timeout_ignored (config : Config) (address : Address) (s : Core B) (es : list (Output B))
  (be : Backend B) (id : Z)
  (Hrun : run config address s es) (Hid : 0 <= id < t_next (c_timers s))
  (Hold : id <> t_next (c_timers s) - 1) :
  handleEvent be (TimeoutEvent id) s = Some (tt, s, []).
Proof.
  destruct (run_inv _ _ _ _ Hrun) as (r & vs & rcs & Hinv).
  destruct (inv_timers _ _ _ _ Hinv) as [Hlast _ Hcan _ _]. cbn. unfold mbind, GoM_bind; cbn.
  rewrite bool_decide_eq_true_2; [done|]. apply Hcan; [done|]. intros Heq. by apply Hold, Hlast.
Qed.

Lemma wp_commitWBFT_emits be s r vs b (Q : unit -> Core B -> list (Output B) -> Prop) :
  core_inv s -> c_state s = StatePrepared -> c_current s = Some r -> c_valSet s = Some vs ->
  rs_Proposal r = Some b -> QuorumSize vs <= msgSet_Size (rs_WBFTCommits r) ->
  (forall s' es, c_state s' = StateCommitted ->
     OCommit b (sealsOf pr_source pr_PrepareSeal vs (rs_WBFTPrepares r))
       (sealsOf cm_source cm_CommitSeal vs (rs_WBFTCommits r)) (rs_round r) ∈ es -> Q tt s' es) ->
  wp (commitWBFT be) s Q.
Proof.
  intros (r' & vs' & rcs & Hinv) Hst Hr Hvs Hb Hq HQ.
  assert (r' = r) as -> by (pose proof (inv_current _ _ _ _ Hinv); congruence).
  assert (vs' = vs) as -> by (pose proof (inv_valSet _ _ _ _ Hinv); congruence).
  unfold commitWBFT. wp_simpl. eapply wp_setState; [done..|]. intros p bl ks es Hbl Hes.
  assert (inv_at (with_queues p bl ks (set_c_state StateCommitted s)) r vs rcs) as Hinv1.
  { apply inv_queues; [|done]. pose proof (inv_round _ _ _ _ Hinv) as Hri. rewrite Hst in Hri.
    destruct Hinv; split; cbn; auto using round_inv_commit. }
  wp_simpl. eapply wp_current; [done|]. rewrite Hb. wp_simpl. eapply wp_valSet; [done|].
  autorewrite with gowp. rewrite wp_when. destruct (be_CommitFails be _ _ _ _).
  - unfold broadcastNextRoundChange. wp_simpl. eapply wp_currentView; [done|].
    eapply wp_broadcastRoundChange; [done|]. intros t es' _ _. apply HQ; [done|]. set_solver.
  - apply HQ; [done|]. set_solver.
Qed.

(** C36. A quorum decides.  In the prepared state, a COMMIT for the current view
    and proposal with a valid seal that completes a quorum is accepted, moves
    the core to the committed state and hands the proposal over with the seals
    of all received PREPARE and COMMIT messages. *)
Theorem commit_quorum_decides (config : Config) (address : Address) (s : Core B) (es : list (Output B))
  (be : Backend B) (r : roundState B) (vs : ValidatorSet) (b : B) (p : Commit)
  (Hrun : run config address s es) (Hst : c_state s = StatePrepared)
  (Hr : c_current s = Some r) (Hvs : c_valSet s = Some vs) (Hb : rs_Proposal r = Some b)
  (Hp : commit_ok vs (rs_view r) b p)
  (Hq : QuorumSize vs <= msgSet_Size (msgSet_Add cm_source (rs_WBFTCommits r) p)) :
  exists s' es', handleCommitMsg be p s = Some (None, s', es') /\ c_state s' = StateCommitted /\
    OCommit b (sealsOf pr_source pr_PrepareSeal vs (rs_WBFTPrepares r))
      (sealsOf cm_source cm_CommitSeal vs (msgSet_Add cm_source (rs_WBFTCommits r) p)) (rs_round r) ∈ es'.
Proof.
  pose proof (run_inv _ _ _ _ Hrun) as (r' & vs' & rcs & Hinv).
  assert (r' = r) as -> by (pose proof (inv_current _ _ _ _ Hinv); congruence).
  assert (vs' = vs) as -> by (pose proof (inv_valSet _ _ _ _ Hinv); congruence).
  unfold rs_Proposal in Hb. destruct (rs_Preprepare r) as [pp|] eqn:Hpp; [|done]. injection Hb as <-.
  destruct Hp as (Hview & Hd & v & Hv & Hs).
  assert (wp (handleCommitMsg be p) s (fun res s' es' => res = None /\ c_state s' = StateCommitted /\
    OCommit (pp_Proposal pp) (sealsOf pr_source pr_PrepareSeal vs (rs_WBFTPrepares r))
      (sealsOf cm_source cm_CommitSeal vs (msgSet_Add cm_source (rs_WBFTCommits r) p)) (rs_round r) ∈ es')) as Hwp.
  { unfold handleCommitMsg. wp_simpl. eapply wp_current; [done|]. wp_simpl. eapply wp_valSet; [done|].
    wp_simpl. unfold rs_Proposal. rewrite Hpp. cbn [fmap option_fmap option_map]. wp_simpl.
    rewrite bool_decide_eq_true_2 by done. cbn [negb]. wp_simpl. unfold verifySeal. rewrite Hv. wp_simpl.
    rewrite Hs. wp_simpl. eapply wp_modify_current; [done|]. wp_simpl. eapply wp_current; [done|].
    autorewrite with gowp. rewrite wp_when. cbn [rs_WBFTCommits set_rs_WBFTCommits].
    rewrite (proj2 (Z.leb_le _ _) Hq). set (r1 := set_rs_WBFTCommits _ r).
    eapply (wp_commitWBFT_emits be _ r1 vs (pp_Proposal pp)); try done.
    - apply (inv_core _ r1 vs rcs). apply (inv_set_current s r); [done|].
      pose proof (inv_round _ _ _ _ Hinv) as Hri. rewrite Hst in Hri |- *.
      apply (round_inv_addCommit _ _ _ pp); [done|done|]. split_and!; [done|done|]. by exists v.
    - unfold rs_Proposal. cbn. by rewrite Hpp.
    - intros s' es' Hst' Hin. wp_simpl. split_and!; [done|done|]. cbn [app]. set_solver. }
  destruct (wp_total _ _ _ Hwp) as (? & s' & es' & ? & -> & ? & ?). eauto.
Qed.
End properties.
