(* ===== verification/CoreClassify.v ===== *)
(** Exact behaviour of the classification of messages, of the round-change
    timeout, of the extra seals and of the round-change set
    ([src/consensus/wbft/core/backlog.go], [core.go], [extraseal.go],
    [roundchange.go]). *)
From S2P Require Import Prelude Float64 Validators Prque Messages Config Justification RoundChangeSet CoreState CoreLogic CoreHandlers CoreSpecs CoreInvariant CoreSteps CoreEvents CoreRuns CoreProps.

(** * Classification *)

(** The code of the message that advances a state. *)
Definition expected (st : State) : option Z :=
  match st with
  | StateAcceptRequest => Some PreprepareCode
  | StatePreprepared => Some PrepareCode
  | StatePrepared => Some CommitCode
  | StateCommitted => None
  end.

(** The codes that are too early in a state. *)
Definition early (st : State) : list Z :=
  match st with
  | StateAcceptRequest => [PrepareCode; CommitCode]
  | StatePreprepared => [CommitCode]
  | _ => []
  end.

(** A view ahead of [curr] that is kept: the next sequence in a round below 10,
    or one of the next 10 rounds. *)
Definition ahead (curr view : View) : Prop :=
  (v_Sequence view = v_Sequence curr + 1 /\ v_Round view < 10) \/
  (v_Sequence view = v_Sequence curr /\ v_Round curr < v_Round view <= v_Round curr + 10).

Lemma isTooFar_false curr view :
  isTooFarFutureMessage curr view = false <->
  ahead curr view \/ view = curr \/ view_lt view curr.
Proof.
  destruct curr as [cr cs], view as [vr vs]. unfold isTooFarFutureMessage, ahead, view_lt,
    isSequenceTooFarAhead, isRoundTooFarAhead, sequenceThreshold, roundThreshold; cbn.
  assert (mkView vr vs = mkView cr cs <-> vr = cr /\ vs = cs) as -> by (split; [by intros [= -> ->]|by intros [-> ->]]).
  destruct (Z.ltb_spec cs vs).
  - rewrite orb_false_iff, Z.ltb_ge, Z.leb_gt. lia.
  - rewrite !andb_false_iff, Z.eqb_neq, !Z.ltb_ge. lia.
Qed.

(** [checkMessage] in terms of the order of views. *)
Lemma checkMessage_unfold st curr prior code view :
  code <> RoundChangeCode -> ~ view_lt view curr ->
  checkMessage st curr prior code view =
  if isTooFarFutureMessage curr view then Some errFutureViewTooFar
  else if decide (view = curr) then checkMessage st curr prior code curr else Some errFutureMessage.
Proof.
  intros Hc Hlt. unfold checkMessage. destruct (isTooFarFutureMessage curr view) eqn:Hfar; [done|].
  rewrite (proj2 (Z.eqb_neq _ _) Hc). case_decide as Hv.
  - subst view. by rewrite Hfar.
  - destruct (View_Cmp_spec view curr); done.
Qed.

Lemma view_lt_irrefl v : ~ view_lt v v.
Proof. unfold view_lt; lia. Qed.

Lemma checkMessage_current st curr prior code :
  code ∈ [PreprepareCode; PrepareCode; CommitCode] ->
  (checkMessage st curr prior code curr = None <-> expected st = Some code) /\
  (checkMessage st curr prior code curr = Some errFutureMessage <-> code ∈ early st).
Proof.
  intros Hc. assert (isTooFarFutureMessage curr curr = false) as Hfar by (apply isTooFar_false; auto).
  unfold checkMessage. rewrite Hfar, (proj2 (View_Cmp_Eq curr curr) eq_refl).
  rewrite !elem_of_cons in Hc. destruct Hc as [->|[->|[->|Hc]]]; [..|by apply not_elem_of_nil in Hc];
    destruct st; cbn; rewrite ?elem_of_cons; split; split; try done; try (by intros; set_solver);
    repeat (intros [?|?]; try done); try (intros ?%not_elem_of_nil; done); auto.
Qed.

Lemma checkMessage_roundChange st curr prior view :
  let c := checkMessage st curr prior RoundChangeCode view in
  (c = None <-> v_Sequence view = v_Sequence curr /\ v_Round curr <= v_Round view <= v_Round curr + 10) /\
  (c = Some errFutureMessage <-> v_Sequence view = v_Sequence curr + 1 /\ v_Round view < 10).
Proof.
  unfold checkMessage. rewrite Z.eqb_refl. cbv zeta.
  destruct (isTooFarFutureMessage curr view) eqn:Hfar.
  { assert (~ (ahead curr view \/ view = curr \/ view_lt view curr)) as Hn
      by (rewrite <- isTooFar_false; congruence).
    unfold ahead in Hn. destruct view as [vr vq], curr as [cr cq]; cbn in *.
    split; split; try done; intros Hx; exfalso; apply Hn; [|by left; left].
    destruct (decide (vr = cr)) as [->|]; [right; left; f_equal; lia|left; right; lia]. }
  apply isTooFar_false in Hfar. unfold ahead in Hfar. destruct view as [vr vq], curr as [cr cq]; cbn in *.
  destruct (Z.ltb_spec cq vq).
  - split; split; try done; try lia. intros _.
    destruct Hfar as [?|[[= -> ->]|Hlt]]; [lia|lia|unfold view_lt in Hlt; cbn in Hlt; lia].
  - destruct (View_Cmp_spec (mkView vr vq) (mkView cr cq)) as [Heq|Hlt|Hlt];
      unfold view_lt in *; cbn in *; (split; split; try done); try lia.
    + injection Heq as -> ->. lia.
    + intros _. destruct Hfar as [?|[[= -> ->]|?]]; lia.
Qed.

Lemma checkMessage_vote st curr prior code view :
  code ∈ [PreprepareCode; PrepareCode; CommitCode] ->
  let c := checkMessage st curr prior code view in
  (c = None <-> expected st = Some code /\ view = curr) /\
  (c = Some errFutureMessage <-> ahead curr view \/ (view = curr /\ code ∈ early st)).
Proof.
  intros Hc3. cbv zeta. destruct (checkMessage_current st curr prior code Hc3) as [Hdel Hfut].
  assert (code <> RoundChangeCode) as Hne
    by (intros ->; rewrite !elem_of_cons in Hc3; destruct Hc3 as [?|[?|[?|?%not_elem_of_nil]]]; done).
  destruct (decide (view_lt view curr)) as [Hlt|Hlt].
  - unfold checkMessage. rewrite (proj2 (isTooFar_false _ _)), (proj2 (Z.eqb_neq _ _) Hne),
      (proj2 (View_Cmp_Lt _ _) Hlt) by auto.
    assert (view <> curr) by (intros ->; by apply view_lt_irrefl in Hlt).
    assert (~ ahead curr view) by (unfold ahead, view_lt in *; lia).
    destruct (_ && _); split; split; naive_solver.
  - rewrite checkMessage_unfold by done. destruct (isTooFarFutureMessage curr view) eqn:Hfar.
    + assert (~ (ahead curr view \/ view = curr \/ view_lt view curr)) as Hn
        by (rewrite <- isTooFar_false; congruence).
      split; split; naive_solver.
    + apply isTooFar_false in Hfar. case_decide as Hv; [|split; split; naive_solver].
      assert (~ ahead curr view) by (subst; unfold ahead; lia). rewrite Hdel, Hfut. naive_solver.
Qed.

(** Exactly which messages are delivered, and which are put into the
    backlog.  A ROUND-CHANGE is delivered when it is for the current sequence and
    one of the rounds from the current one to 10 rounds ahead; another message is
    delivered when it is for the current view and is the one its state waits
    for.  A message is postponed when its view is at most one sequence ahead (in
    a round below 10) or, unless it is a ROUND-CHANGE, at most 10 rounds ahead or
    in the current view for a phase that has not been reached. *)
Theorem checkMessage_spec (st : State) (curr : View) (prior code : Z) (view : View)
  (Hcode : code ∈ MessageCodes) :
  (checkMessage st curr prior code view = None <->
    (code = RoundChangeCode /\ v_Sequence view = v_Sequence curr /\
       v_Round curr <= v_Round view <= v_Round curr + 10) \/
    (expected st = Some code /\ view = curr)) /\
  (checkMessage st curr prior code view = Some errFutureMessage <->
    (v_Sequence view = v_Sequence curr + 1 /\ v_Round view < 10) \/
    (code <> RoundChangeCode /\ (ahead curr view \/ (view = curr /\ code ∈ early st)))).
Proof.
  destruct (decide (code = RoundChangeCode)) as [->|Hne].
  - assert (expected st <> Some RoundChangeCode) as He by by destruct st.
    destruct (checkMessage_roundChange st curr prior view) as [-> ->]. naive_solver.
  - assert (code ∈ [PreprepareCode; PrepareCode; CommitCode]) as Hc3
      by (unfold MessageCodes in Hcode; rewrite !elem_of_cons in *; naive_solver).
    destruct (checkMessage_vote st curr prior code view Hc3) as [-> ->]. unfold ahead. naive_solver.
Qed.

(** * Timeouts *)

Lemma doubleTimeout_spec n t max :
  0 <= t < 2 ^ 62 -> 0 < max < 2 ^ 62 ->
  doubleTimeout n t max = match n with O => t | _ => Z.min (t * 2 ^ Z.of_nat n) max end.
Proof.
  revert t; induction n as [|n IH]; intros t Ht Hmax; [done|]. cbn [doubleTimeout].
  rewrite i64_small by lia.
  assert (t * 2 ^ Z.of_nat (S n) = t * 2 * 2 ^ Z.of_nat n) as ->.
  { rewrite Nat2Z.inj_succ, Z.pow_succ_r by lia. ring. }
  assert (1 <= 2 ^ Z.of_nat n) by (apply (Z.pow_le_mono_r 2 0); lia).
  destruct (Z.ltb_spec max (t * 2)); [rewrite Z.min_r; nia|].
  rewrite IH by lia. destruct n; [rewrite Z.mul_1_r, Z.min_l; lia|done].
Qed.

(** The round-change timeout doubles with every round up to the configured
    maximum: with a positive maximum below 2^62 ns (146 years) it is the request
    timeout in round 0 and min(timeout * 2^round, maximum) afterwards, never
    wrapping around. *)
Theorem roundChangeTimeout_capped (cfg : Config) (round : Z)
  (Hround : 0 <= round < 2 ^ 64)
  (Hbase : 0 <= RequestTimeout cfg * Millisecond < 2 ^ 62)
  (Hmax : 0 < MaxRequestTimeoutSeconds cfg * Second < 2 ^ 62) :
  roundChangeTimeout cfg round =
  let base := RequestTimeout cfg * Millisecond in
  if round =? 0 then base else Z.min (base * 2 ^ round) (MaxRequestTimeoutSeconds cfg * Second).
Proof.
  unfold Millisecond, Second in *. unfold roundChangeTimeout, Millisecond, Second.
  rewrite (i64_small (RequestTimeout cfg)), (i64_small (RequestTimeout cfg * _)) by lia.
  rewrite (i64_small (MaxRequestTimeoutSeconds cfg)), (i64_small (MaxRequestTimeoutSeconds cfg * _)) by lia.
  rewrite big_Uint64_small by lia. cbv zeta.
  set (base := RequestTimeout cfg * 1000000) in *. set (max := MaxRequestTimeoutSeconds cfg * 1000000000) in *.
  rewrite (proj2 (Z.ltb_lt 0 max)) by lia. rewrite doubleTimeout_spec by lia.
  destruct (Z.eqb_spec round 0) as [->|Hne]; [by rewrite Z.ltb_irrefl|].
  destruct (Z.to_nat round) as [|n] eqn:Hn; [lia|]. rewrite <- Hn, Z2Nat.id by lia.
  assert (2 * 1 <= 2 ^ round) by (replace round with (Z.succ (round - 1)) by lia;
    rewrite Z.pow_succ_r by lia; apply Zmult_le_compat_l; [apply (Z.pow_le_mono_r 2 0)|]; lia).
  destruct (Z.ltb_spec (Z.min (base * 2 ^ round) max) base); nia.
Qed.

(** * Extra seals *)

Section extra_seals.
Context `{MapOrder} {B : Type} `{Proposal B} `{Crypto} `{Codec B}.

Section collect.
Context {M : Type} (src : M -> Address) (view : M -> View) (digest : M -> Hash) (seal : M -> bytes).

Definition sealOf (latest : View) (hash : Hash) (vs : ValidatorSet) (m : M) : option SealData :=
  if decide (view m = latest /\ digest m = hash) then
    match GetByAddress vs (src m) with
    | (j, Some _) => Some (mkSealData j (seal m))
    | (_, None) => None
    end
  else None.

Lemma collectSeals_omap latest hash vs l :
  valset_ok vs ->
  collectSeals src view digest seal latest hash vs l = omap (sealOf latest hash vs) l.
Proof.
  intros Hok. unfold collectSeals.
  assert (forall acc, foldl (fun acc msg => match View_Cmp latest (view msg) with
     | Eq => if bool_decide (digest msg = hash) then let '(idx, _) := GetByAddress vs (src msg) in
               if idx <? 0 then acc else acc ++ [mkSealData (u32 idx) (seal msg)] else acc
     | _ => acc end) acc l = acc ++ omap (sealOf latest hash vs) l) as Hl; [|by rewrite Hl].
  induction l as [|m l IH]; intros acc; cbn [foldl]; [by rewrite app_nil_r|]. rewrite IH. clear IH.
  cbn. unfold sealOf at 2. destruct (View_Cmp_spec latest (view m)) as [Hv|Hv|Hv].
  - case_bool_decide as Hd; [rewrite decide_True by done|by rewrite decide_False by tauto].
    destruct (GetByAddress vs (src m)) as [j [v|]] eqn:Hg.
    + destruct (sealOf_member _ _ _ _ Hok Hg) as (-> & -> & _). by rewrite <- app_assoc.
    + apply GetByAddress_None in Hg as [-> _]. done.
  - rewrite decide_False; [done|]. intros [<- _]. by apply view_lt_irrefl in Hv.
  - rewrite decide_False; [done|]. intros [<- _]. by apply view_lt_irrefl in Hv.
Qed.

(** The collected seals belong to different validators of the set. *)
Lemma collectSeals_spec (P : M -> Prop) latest hash vs ms :
  valset_ok vs -> msgSet_ok src P ms ->
  let cs := collectSeals src view digest seal latest hash vs (msgSet_Values ms) in
  NoDup (sd_Sealer <$> cs) /\
  forall sd, sd ∈ cs -> exists m v, vs_validators vs !! Z.to_nat (sd_Sealer sd) = Some v /\
    src m = val_address v /\ view m = latest /\ digest m = hash /\ sd_Seal sd = seal m /\ P m.
Proof.
  intros Hok Hms. cbv zeta. rewrite collectSeals_omap by done.
  assert (forall m sd, sealOf latest hash vs m = Some sd ->
    exists v, vs_validators vs !! Z.to_nat (sd_Sealer sd) = Some v /\ val_address v = src m /\
      view m = latest /\ digest m = hash /\ sd_Seal sd = seal m) as Hseal.
  { intros m sd. unfold sealOf. case_decide as Hvd; [|done].
    destruct (GetByAddress vs (src m)) as [j [v|]] eqn:Hg; [|done]. intros [= <-].
    destruct (sealOf_member _ _ _ _ Hok Hg) as (_ & _ & Hl & Ha). exists v. naive_solver. }
  split.
  - pose proof (Values_NoDup src P ms Hms) as Hnd.
    induction (msgSet_Values ms) as [|m l IH]; cbn; [constructor|].
    cbn in Hnd. apply NoDup_cons in Hnd as [Hm Hnd]. destruct (sealOf latest hash vs m) as [sd|] eqn:Hs; [|auto].
    cbn. constructor; [|auto]. intros (sd' & Heq & (m' & Hm' & Hs')%list_elem_of_omap)%list_elem_of_fmap.
    destruct (Hseal _ _ Hs) as (v & Hv & Ha & _), (Hseal _ _ Hs') as (v' & Hv' & Ha' & _).
    rewrite Heq in Hv. assert (v = v') as -> by congruence. apply Hm. rewrite <- Ha, Ha'.
    by apply list_elem_of_fmap_2.
  - intros sd (m & Hm & Hs)%list_elem_of_omap. destruct (Hseal _ _ Hs) as (v & Hv & Ha & ? & ? & ?).
    exists m, v. split_and!; auto. by apply (msgSet_ok_Values src P ms).
Qed.
End collect.

(** The seals passed on to the next block.  In every reachable state, the
    prepared and committed seals that [ProcessExtraSeal] collects for the last
    block carry pairwise different indices into the given validator set; each is
    the seal of a message of the validator at that index, for exactly the last
    block's height, hash and deciding round, and was verified on a block with
    that hash when it was received. *)
Theorem extra_seals_valid (config : Config) (address : Address) (s : Core B) (es : list (Output B))
  (last : B) (priorRound : Z) (vs : ValidatorSet)
  (Hrun : run config address s es) (Hvs : valset_ok vs) :
  let '(ps, cs) := ProcessExtraSeal s last priorRound vs in
  let view := mkView priorRound (Number last) in
  NoDup (sd_Sealer <$> ps) /\ NoDup (sd_Sealer <$> cs) /\
  (forall sd, sd ∈ ps -> exists m v, vs_validators vs !! Z.to_nat (sd_Sealer sd) = Some v /\
     pr_source m = val_address v /\ pr_View m = view /\ pr_Digest m = BHash last /\
     sd_Seal sd = pr_PrepareSeal m /\ extra_prepare_ok m) /\
  (forall sd, sd ∈ cs -> exists m v, vs_validators vs !! Z.to_nat (sd_Sealer sd) = Some v /\
     cm_source m = val_address v /\ cm_View m = view /\ cm_Digest m = BHash last /\
     sd_Seal sd = cm_CommitSeal m /\ extra_commit_ok m).
Proof.
  destruct (run_inv _ _ _ _ Hrun) as (r & vs' & rcs & Hinv). unfold ProcessExtraSeal.
  pose proof (collectSeals_spec pr_source pr_View pr_Digest pr_PrepareSeal extra_prepare_ok
    (mkView priorRound (Number last)) (BHash last) vs _ Hvs (inv_xprepare _ _ _ _ Hinv)) as [? ?].
  pose proof (collectSeals_spec cm_source cm_View cm_Digest cm_CommitSeal extra_commit_ok
    (mkView priorRound (Number last)) (BHash last) vs _ Hvs (inv_xcommit _ _ _ _ Hinv)) as [? ?].
  by split_and!.
Qed.
End extra_seals.

(** * Round-change set *)

Section roundchange.
Context `{MapOrder} {B : Type} `{Proposal B}.

(** The F+1 rule of round changes does not depend on Go's map iteration
    order: [higherRoundMessages] is the number of different validators with a
    ROUND-CHANGE for a round above the given one, and when there is one,
    [getMinRoundChange] is the least such round that has been announced. *)
Theorem higherRound_spec (rcs : roundChangeSet B) (round : Z) (senders : list Address)
  (Hb : rcs_bounded rcs) (Hround : 0 <= round < 2 ^ 64)
  (Hnd : NoDup senders)
  (Hs : forall a, a ∈ senders <-> exists k rms, roundChanges rcs !! k = Some rms /\ round < k /\ is_Some (rms !! a)) :
  higherRoundMessages rcs round = Z.of_nat (length senders) /\
  (senders <> [] ->
   is_Some (roundChanges rcs !! getMinRoundChange rcs round) /\ round < getMinRoundChange rcs round /\
   forall k, is_Some (roundChanges rcs !! k) -> round < k -> getMinRoundChange rcs round <= k).
Proof.
  assert (higherRoundAddresses rcs round ≡ list_to_set senders) as Heq.
  { intros a. rewrite elem_of_higherRoundAddresses, elem_of_list_to_set, Hs.
    by rewrite big_Uint64_small by done. }
  assert (higherRoundMessages rcs round = Z.of_nat (length senders)) as Hnum.
  { unfold higherRoundMessages. rewrite Heq. by rewrite size_list_to_set. }
  split; [done|]. intros Hne.
  pose proof (getMinRoundChange_least rcs round Hb) as Hmin. rewrite big_Uint64_small in Hmin by done.
  apply Hmin. rewrite Hnum. destruct senders; [done|cbn; lia].
Qed.
End roundchange.
