(* ===== verification/CoreWitness.v ===== *)
(** Concrete runs of the core: the theorems of [CoreProps] and [CoreClassify]
    instantiated on the sample environment, and a run in which a timeout races
    with the finalization of a block. *)
From Stdlib Require Import Sorted.
From S2P Require Import Prelude Float64 Validators Prque Messages Config Justification RoundChangeSet CoreState CoreLogic CoreHandlers CoreSpecs CoreInvariant CoreSteps CoreEvents CoreRuns CoreProps CoreClassify.
Import Sample.

(** * A timeout that races with finalization

    Node 1 waits at height 10 and has received a ROUND-CHANGE of node 2 for
    round 5.  Block 10 is then inserted into the chain, but the timeout of round
    0 is handled before the [FinalCommittedEvent]. *)
Definition waiting := run_of [MessageEvent RoundChangeCode [2; 10; 5; 0]].

Definition raced : Core SampleBlock * list (Output SampleBlock) :=
  match exec be10 [TimeoutEvent 0; FinalCommittedEvent] waiting.1 with
  | Some (s, es) => (s, waiting.2 ++ es)
  | None => waiting
  end.

(** The sequences of the ROUND-CHANGE messages held for a round. *)
Definition heldSequences (s : Core SampleBlock) (round : Z) : option (list (Address * Z)) :=
  match c_roundChangeSet s with
  | Some rcs => (fun ms => (fun '(a, m) => (a, v_Sequence (rc_View m))) <$> map_to_list ms)
                <$> roundChanges rcs !! round
  | None => None
  end.

Lemma raced_run : run config 1 raced.1 raced.2.
Proof.
  assert (run config 1 waiting.1 waiting.2) as Hw by (apply run_of_run; by repeat constructor).
  unfold raced. cbn [exec].
  assert (event_ok waiting.1 (TimeoutEvent 0)) as Hev1.
  { intros r vs Hr _. assert (option_map rs_round (c_current waiting.1) = Some 0) as Hz by by vm_compute.
    rewrite Hr in Hz. injection Hz as Hz. rewrite Hz. lia. }
  pose proof (handleEvent_step be10 _ _ (run_inv _ _ _ _ Hw) (backend_sample_ok _) Hev1) as Hwp1.
  destruct (wp_total _ _ _ Hwp1) as ([] & s1 & es1 & Hs1 & _). rewrite Hs1.
  pose proof (run_event config 1 be10 _ _ s1 _ es1 Hw (backend_sample_ok _) Hev1 Hs1) as Hr1.
  assert (event_ok s1 FinalCommittedEvent) as Hev2 by by intros r vs _ _.
  destruct (wp_total _ _ _ (handleEvent_step be10 _ _ (run_inv _ _ _ _ Hr1) (backend_sample_ok _) Hev2))
    as ([] & s2 & es2 & Hs2 & _). rewrite Hs2. rewrite app_nil_r, app_assoc.
  by eapply run_event; [exact Hr1|apply backend_sample_ok|exact Hev2|].
Qed.

(** A timeout that is handled between the insertion of a block and its
    [FinalCommittedEvent] leaves messages of the finished height behind: the
    core is then in round 0 of height 11, has broadcast a ROUND-CHANGE for round
    1 of height 11, and still holds the ROUND-CHANGE that node 2 sent for height
    10, because [startNewRound] resets the round-change set only when it is
    called with round 0, and the later call with round 0 returns early.  One
    further ROUND-CHANGE, of node 3, then makes the core leave round 0, although
    only one of the F+1 = 2 messages it counts belongs to height 11. *)
Theorem stale_round_changes :
  run config 1 raced.1 raced.2 /\
  option_map rs_view (c_current raced.1) = Some (mkView 0 11) /\
  heldSequences raced.1 5 = Some [(2, 10)] /\
  match exec be10 [MessageEvent RoundChangeCode [3; 11; 1; 0]] raced.1 with
  | Some (s, _) => option_map rs_view (c_current s) = Some (mkView 1 11)
  | None => False
  end.
Proof. split; [apply raced_run|]. by vm_compute. Qed.

(** * Witnesses *)

Lemma no_equivocation_witness :
  StronglySorted vote_lt (votes decided.2) /\ length (votes decided.2) = 3%nat.
Proof. split; [apply (no_equivocation config 1 decided.1 decided.2 decided_run)|by vm_compute]. Defined.

Definition decidedSeals : list SealData * list SealData :=
  match List.find (fun o => match o with OCommit _ _ _ _ => true | _ => false end) decided.2 with
  | Some (OCommit _ ps cs _) => (ps, cs)
  | _ => ([], [])
  end.

Lemma commit_certificate_witness :
  length decidedSeals.2 = 3%nat /\
  exists vs, valset_ok vs /\ committed_ok vs (mkSampleBlock 10 77) 0 decidedSeals.2.
Proof.
  split; [by vm_compute|].
  apply (commit_certificate config 1 decided.1 decided.2 (mkSampleBlock 10 77) decidedSeals.1 decidedSeals.2 0
    decided_run).
  apply list_elem_of_In. vm_compute. repeat (first [left; reflexivity | right]).
Defined.

(** A PREPARE of node 2 arrives before the proposal, is kept and then posted. *)
Definition earlyPrepare := run_of
  [MessageEvent PrepareCode ([2; 10; 0; 77] ++ seal 2 0); MessageEvent PreprepareCode [1; 10; 0; 77]].
Definition released : WBFTMessage SampleBlock :=
  MPrepare (mkPrepare (mkCommon PrepareCode 2 10 0 [2]) 77 (seal 2 0)).
Definition node2 : option Validator := snd (GetByAddress four 2).

Lemma handlers_total_witness :
  OPostBacklog node2 released ∈ earlyPrepare.2 /\
  exists s' es', handleEvent be10 (BacklogEvent node2 released) earlyPrepare.1 = Some (tt, s', es').
Proof.
  assert (OPostBacklog node2 released ∈ earlyPrepare.2) as Hin.
  { apply list_elem_of_In. vm_compute. repeat (first [left; reflexivity | right]). }
  split; [exact Hin|].
  apply (handlers_total config 1 earlyPrepare.1 earlyPrepare.2 be10 (BacklogEvent node2 released)).
  - apply run_of_execution. by repeat constructor.
  - apply backend_sample_ok.
  - left. exact Hin.
Defined.

Definition advanced_core : Core SampleBlock * list (Output SampleBlock) :=
  match handleEvent be10 FinalCommittedEvent decided.1 with
  | Some (_, s, es) => (s, es)
  | None => decided
  end.

Lemma view_monotone_witness :
  option_map rs_view (c_current advanced_core.1) = Some (mkView 0 11) /\
  progress decided.1 advanced_core.1.
Proof.
  split; [by vm_compute|].
  apply (view_monotone config 1 decided.1 advanced_core.1 decided.2 advanced_core.2 be10 FinalCommittedEvent
    decided_run (backend_sample_ok _)); [by intros r vs _ _|by vm_compute].
Defined.

Definition decidedRound : roundState SampleBlock :=
  default (newRoundState (mkView 0 0) None None None None) (c_current decided.1).

Lemma prepared_certificate_witness :
  0 <= 0 <= rs_round decidedRound /\
  exists vs b, c_valSet decided.1 = Some vs /\ valset_ok vs /\ rs_preparedBlock decidedRound = Some b /\
    certificate vs (mkView 0 (rs_sequence decidedRound)) b (c_preparedPrepares decided.1).
Proof.
  apply (prepared_certificate config 1 decided.1 decided.2 decidedRound 0 decided_run); by vm_compute.
Defined.

Lemma accepted_proposal_witness :
  exists vs pp, c_valSet decided.1 = Some vs /\ valset_ok vs /\ rs_Preprepare decidedRound = Some pp /\
    accepted vs (rs_view decidedRound) pp.
Proof.
  apply (accepted_proposal config 1 decided.1 decided.2 decidedRound decided_run); [by vm_compute|].
  by vm_compute.
Defined.

Definition currentRound (s : Core SampleBlock) : roundState SampleBlock :=
  default (newRoundState (mkView 0 0) None None None None) (c_current s).
Definition currentSet (s : Core SampleBlock) : ValidatorSet := default four (c_valSet s).

Definition started := run_of [].
Lemma started_run : run config 1 started.1 started.2.
Proof. apply run_of_run. constructor. Qed.

Definition received : WBFTMessage SampleBlock :=
  MPrepare (mkPrepare (mkCommon PrepareCode zeroAddress 10 0 [2]) 77 (seal 2 0)).
Definition authenticated : WBFTMessage SampleBlock :=
  MPrepare (mkPrepare (mkCommon PrepareCode 2 10 0 [2]) 77 (seal 2 0)).

Lemma verifySignatures_authentic_witness :
  started.1 = started.1 /\ [] = ([] : list (Output SampleBlock)) /\
  authentic_msg started.1 (currentRound started.1) (currentSet started.1) received authenticated.
Proof.
  apply (verifySignatures_authentic config 1 started.1 started.1 started.2 [] (currentRound started.1)
    (currentSet started.1) received authenticated started_run); by vm_compute.
Defined.

(** COMMIT messages that arrive before the proposal wait in the backlog, one per slot. *)
Definition early_commits := run_of
  [MessageEvent CommitCode ([2; 10; 0; 77] ++ seal 2 1); MessageEvent CommitCode ([2; 10; 0; 77] ++ seal 2 1);
   MessageEvent CommitCode ([2; 11; 3; 78] ++ seal 2 1)].
Definition backlogOf2 : list (WBFTMessage SampleBlock * Z) := default [] (c_backlogs early_commits.1 !! 2).

Lemma backlog_bounded_witness :
  length backlogOf2 = 2%nat /\
  (QSize backlogOf2 <= 88 /\ NoDup (msg_key <$> backlogOf2.*1) /\
   Forall (fun m => msg_Source m = 2) backlogOf2.*1 /\
   c_backlogKeys early_commits.1 !! 2 = Some (list_to_set (msg_key <$> backlogOf2.*1))).
Proof.
  split; [by vm_compute|].
  apply (backlog_bounded config 1 early_commits.1 early_commits.2 2 backlogOf2); [|by vm_compute].
  apply run_of_run. by repeat constructor.
Defined.

Lemma stale_timeout_ignored_witness :
  t_next (c_timers decided.1) = 2 /\
  handleEvent be9 (TimeoutEvent 0) decided.1 = Some (tt, decided.1, []).
Proof.
  split; [by vm_compute|].
  apply (stale_timeout_ignored config 1 decided.1 decided.2 be9 0 decided_run); by vm_compute.
Defined.

Definition prepared := run_of (take 7 deciding).
Definition lastCommit : Commit := mkCommit (mkCommon CommitCode 3 10 0 [3]) 77 (seal 3 1).

Lemma commit_quorum_decides_witness :
  exists s' es', handleCommitMsg be9 lastCommit prepared.1 = Some (None, s', es') /\
    c_state s' = StateCommitted /\
    OCommit (mkSampleBlock 10 77)
      (sealsOf pr_source pr_PrepareSeal (currentSet prepared.1) (rs_WBFTPrepares (currentRound prepared.1)))
      (sealsOf cm_source cm_CommitSeal (currentSet prepared.1)
         (msgSet_Add cm_source (rs_WBFTCommits (currentRound prepared.1)) lastCommit))
      (rs_round (currentRound prepared.1)) ∈ es'.
Proof.
  apply (commit_quorum_decides config 1 prepared.1 prepared.2 be9 (currentRound prepared.1)
    (currentSet prepared.1) (mkSampleBlock 10 77) lastCommit); [|by vm_compute..| |by vm_compute].
  - apply run_of_run. by repeat constructor.
  - split_and!; [by vm_compute..|]. exists (mkValidator 3 [33]). by vm_compute.
Defined.

Lemma checkMessage_spec_witness :
  (checkMessage StatePreprepared (mkView 0 10) 0 CommitCode (mkView 0 10) = None <->
    (CommitCode = RoundChangeCode /\ 10 = 10 /\ 0 <= 0 <= 0 + 10) \/
    (expected StatePreprepared = Some CommitCode /\ mkView 0 10 = mkView 0 10)) /\
  (checkMessage StatePreprepared (mkView 0 10) 0 CommitCode (mkView 0 10) = Some errFutureMessage <->
    (10 = 10 + 1 /\ 0 < 10) \/
    (CommitCode <> RoundChangeCode /\
     (ahead (mkView 0 10) (mkView 0 10) \/ (mkView 0 10 = mkView 0 10 /\ CommitCode ∈ early StatePreprepared)))).
Proof.
  apply (checkMessage_spec StatePreprepared (mkView 0 10) 0 CommitCode (mkView 0 10)).
  by apply (bool_decide_unpack _).
Defined.

Lemma roundChangeTimeout_capped_witness :
  roundChangeTimeout config 3 = 8000000000 /\
  roundChangeTimeout config 3 = Z.min (1000 * Millisecond * 2 ^ 3) (8 * Second).
Proof. split; [by vm_compute|]. by apply (roundChangeTimeout_capped config 3). Defined.

Lemma extra_seals_valid_witness :
  length (ProcessExtraSeal advanced_core.1 (mkSampleBlock 10 77) 0 four).2 = 3%nat /\
  NoDup (sd_Sealer <$> (ProcessExtraSeal advanced_core.1 (mkSampleBlock 10 77) 0 four).2).
Proof.
  assert (run config 1 advanced_core.1 (decided.2 ++ advanced_core.2)) as Hrun.
  { eapply (run_event config 1 be10 FinalCommittedEvent); [exact decided_run|apply backend_sample_ok| |by vm_compute].
    by intros r vs _ _. }
  split; [by vm_compute|].
  apply (extra_seals_valid config 1 advanced_core.1 (decided.2 ++ advanced_core.2) (mkSampleBlock 10 77) 0 four
    Hrun four_ok).
Defined.

(** Two validators announce rounds 2 and 5. *)
Definition rcOf (a round : Z) : RoundChange SampleBlock :=
  mkRoundChange (mkSRC (mkCommon RoundChangeCode a 10 round []) None zeroHash) None [].
Definition twoRounds : roundChangeSet SampleBlock :=
  RCS_Add (RCS_Add newRoundChangeSet 5 (rcOf 2 5) None [] 3) 2 (rcOf 3 2) None [] 3.

Lemma higherRound_spec_witness :
  getMinRoundChange twoRounds 1 = 2 /\ higherRoundMessages twoRounds 1 = 2.
Proof.
  split; [by vm_compute|].
  assert (forall k, is_Some (roundChanges twoRounds !! k) -> k = 2 \/ k = 5) as Hk.
  { intros k. unfold twoRounds, RCS_Add, newRoundChangeSet. cbn [roundChanges]. intros Hs.
    destruct (decide (k = 2)) as [|H2]; [auto|]. destruct (decide (k = 5)) as [|H5]; [auto|].
    rewrite !lookup_insert_ne in Hs by (vm_compute; congruence). rewrite lookup_empty in Hs. by destruct Hs. }
  apply (higherRound_spec twoRounds 1 [2; 3]).
  - intros k Hs. destruct (Hk k Hs) as [->| ->]; lia.
  - lia.
  - by apply (bool_decide_unpack _).
  - intros a. split.
    + rewrite !elem_of_cons. intros [->|[->|Ha]]; [exists 5|exists 2|by apply not_elem_of_nil in Ha];
        eexists; (split; [by vm_compute|split; [lia|by vm_compute; eexists]]).
    + intros (k & rms & Hrms & _ & Ha). destruct (Hk k ltac:(eauto)) as [->| ->]; vm_compute in Hrms;
        injection Hrms as <-; destruct Ha as [m Ha]; rewrite !elem_of_cons.
      * destruct (decide (a = 3)) as [->|Hne]; [auto|].
        assert (({[3 := rcOf 3 2]} : gmap Z (RoundChange SampleBlock)) !! a = Some m) as Ha' by exact Ha.
        by rewrite lookup_singleton_ne in Ha'.
      * destruct (decide (a = 2)) as [->|Hne]; [auto|].
        assert (({[2 := rcOf 2 5]} : gmap Z (RoundChange SampleBlock)) !! a = Some m) as Ha' by exact Ha.
        by rewrite lookup_singleton_ne in Ha'.
Defined.
