(* ===== verification/Rlp.v ===== *)
(** The RLP codec (src/rlp/encode.go, encbuffer.go, decode.go).

    The encoder writes into an [encBuffer]: string data and list headers are
    kept apart, the size of a list is only known at [listEnd], and [copyTo]
    interleaves both in a second pass.  [val] is the universe of Go values the
    writers of [makeWriter] handle.  The decoder is a [Stream]: a reader with an
    optional input limit, a stack of list sizes and one value header of
    look-ahead. *)
From S2P Require Import Prelude.

(** * Big-endian integers *)

Definition is_byte (b : Z) : Prop := 0 <= b < 256.
#[global] Instance is_byte_dec b : Decision (is_byte b).
Proof. unfold is_byte; apply _. Defined.

(** The [n] low bytes of [i], most significant first. *)
Fixpoint be_bytes (n : nat) (i : Z) : list Z :=
  match n with
  | O => []
  | S n' => u8 (Z.shiftr i (8 * Z.of_nat n')) :: be_bytes n' i
  end.

(** [big.Int.SetBytes] and [binary.BigEndian.Uint64]. *)
Definition be_value (bs : list Z) : Z := fold_left (fun acc b => acc * 256 + b) bs 0.

Inductive RlpError :=
| EOL | EOF | ErrUnexpectedEOF | ErrExpectedString | ErrExpectedList | ErrCanonInt
| ErrCanonSize | ErrElemTooLarge | ErrValueTooLarge | ErrMoreThanOneValue
| ErrNegativeBigInt | errUintOverflow | errUint256Large | errNotInList | errNotAtEOL
| TooFewElements | InputStringTooLong | InputStringTooShort | WrongKindOfEmptyValue | WrongSize
| DecoderError  (** an error of a type with its own [DecodeRLP] *)
| OutOfFuel.

#[global] Instance RlpError_eq_dec : EqDecision RlpError.
Proof. solve_decision. Defined.

(** * Encoding *)

(** [putint]: the shortest big-endian form of a uint64, one byte for 0. *)
Definition putint (i : Z) : list Z :=
  if i <? 2 ^ 8 then be_bytes 1 i
  else if i <? 2 ^ 16 then be_bytes 2 i
  else if i <? 2 ^ 24 then be_bytes 3 i
  else if i <? 2 ^ 32 then be_bytes 4 i
  else if i <? 2 ^ 40 then be_bytes 5 i
  else if i <? 2 ^ 48 then be_bytes 6 i
  else if i <? 2 ^ 56 then be_bytes 7 i
  else be_bytes 8 i.

(** [intsize]: the loop shifts a uint64 right by 8 until it is 0, so eight
    rounds are enough. *)
Fixpoint intsize_from (fuel : nat) (size i : Z) : Z :=
  match fuel with
  | O => size
  | S fuel =>
      let i := Z.shiftr i 8 in
      if i =? 0 then size else intsize_from fuel (size + 1) i
  end.
Definition intsize (i : Z) : Z := intsize_from 8 1 i.

Definition headsize (size : Z) : Z := if size <? 56 then 1 else 1 + intsize size.

Definition puthead (smalltag largetag size : Z) : list Z :=
  if size <? 56 then [u8 (smalltag + u8 size)]
  else let n := putint size in u8 (largetag + u8 (Z.of_nat (length n))) :: n.

Record listhead := Listhead { lh_offset : Z; lh_size : Z }.

Definition listhead_encode (head : listhead) : list Z := puthead 0xC0 0xF7 (u64 (lh_size head)).

Record encBuffer := EncBuffer {
  eb_str : list Z;            (** string data, everything except list headers *)
  eb_lheads : list listhead;  (** all list headers *)
  eb_lhsize : Z;              (** sum of the sizes of all encoded list headers *)
}.

Definition emptyEncBuffer : encBuffer := EncBuffer [] [] 0.

Definition eb_size (buf : encBuffer) : Z := Z.of_nat (length (eb_str buf)) + eb_lhsize buf.

Definition eb_write (buf : encBuffer) (bs : list Z) : encBuffer :=
  EncBuffer (eb_str buf ++ bs) (eb_lheads buf) (eb_lhsize buf).

(** [copyTo]: string data up to a header's offset, then the header. *)
Fixpoint copyTo_from (str : list Z) (strpos : Z) (heads : list listhead) : list Z :=
  match heads with
  | [] => drop (Z.to_nat strpos) str
  | head :: heads =>
      let n := lh_offset head - strpos in
      take (Z.to_nat n) (drop (Z.to_nat strpos) str) ++
      listhead_encode head ++ copyTo_from str (strpos + n) heads
  end.
Definition makeBytes (buf : encBuffer) : list Z :=
  copyTo_from (eb_str buf) 0 (eb_lheads buf).

Definition eb_encodeStringHeader (buf : encBuffer) (size : Z) : encBuffer :=
  eb_write buf (puthead 0x80 0xB7 size).

Definition writeBool (buf : encBuffer) (b : bool) : encBuffer :=
  eb_write buf [if b then 0x01 else 0x80].

Definition writeUint64 (buf : encBuffer) (i : Z) : encBuffer :=
  if i =? 0 then eb_write buf [0x80]
  else if i <? 128 then eb_write buf [u8 i]
  else let s := putint i in eb_write buf (u8 (0x80 + u8 (Z.of_nat (length s))) :: s).

Definition writeBytes (buf : encBuffer) (b : list Z) : encBuffer :=
  match b with
  | [x] => if x <=? 0x7F then eb_write buf [x]
           else eb_write (eb_encodeStringHeader buf 1) b
  | _ => eb_write (eb_encodeStringHeader buf (Z.of_nat (length b))) b
  end.

(** [big.Int.BitLen] of a non-negative number. *)
Definition BitLen (i : Z) : Z := if i =? 0 then 0 else Z.log2 i + 1.

Definition writeBigInt (buf : encBuffer) (i : Z) : encBuffer :=
  let bitlen := BitLen i in
  if bitlen <=? 64 then writeUint64 buf (big_Uint64 i)
  else
    let length := Z.shiftr (Z.land (bitlen + 7) (-8)) 3 in
    eb_write (eb_encodeStringHeader buf length) (be_bytes (Z.to_nat length) i).

(** [writeUint256] of a number below 2^256: [b] is its 32 bytes behind a spare
    one, in which the header is put in front of the significant bytes. *)
Definition writeUint256 (buf : encBuffer) (z : Z) : encBuffer :=
  let bitlen := BitLen z in
  if bitlen <=? 64 then writeUint64 buf (u64 z)
  else
    let nBytes := u8 ((bitlen + 7) / 8) in
    let b := 0 :: be_bytes 8 (Z.shiftr z 192) ++ be_bytes 8 (Z.shiftr z 128) ++ be_bytes 8 (Z.shiftr z 64) ++ be_bytes 8 z in
    let b := <[Z.to_nat (32 - nBytes) := u8 (0x80 + nBytes)]> b in
    eb_write buf (drop (Z.to_nat (32 - nBytes)) b).

Definition eb_list (buf : encBuffer) : Z * encBuffer :=
  (Z.of_nat (length (eb_lheads buf)),
   EncBuffer (eb_str buf)
     (eb_lheads buf ++ [Listhead (Z.of_nat (length (eb_str buf))) (eb_lhsize buf)])
     (eb_lhsize buf)).

(** An index out of range would panic; [list] only hands out valid ones. *)
Definition eb_listEnd (buf : encBuffer) (index : Z) : encBuffer :=
  match eb_lheads buf !! Z.to_nat index with
  | Some lh =>
      let size := eb_size buf - lh_offset lh - lh_size lh in
      EncBuffer (eb_str buf)
        (<[Z.to_nat index := Listhead (lh_offset lh) size]> (eb_lheads buf))
        (if size <? 56 then eb_lhsize buf + 1 else eb_lhsize buf + (1 + intsize (u64 size)))
  | None => buf
  end.

(** The Go values that [makeWriter] has a writer for, as far as the sources
    modelled here use them: an [rlp.RawValue], an unsigned integer, a bool, a
    [*big.Int], a byte slice, a byte array, a nil pointer with its nil encoding
    and a slice (in particular [[]interface{}], which [writeInterface] and
    [makeSliceWriter] write element by element). *)
Inductive val :=
| VRaw (b : list Z)
| VUint (i : Z)
| VBool (b : bool)
| VBigIntPtr (i : option Z)
| VBytes (b : list Z)
| VByteArray (b : list Z)
| VNilPtr (nilEncoding : Z)
| VList (vs : list val).

Definition writeBigIntPtr (i : option Z) (w : encBuffer) : RlpError + encBuffer :=
  match i with
  | None => inr (eb_write w [0x80])
  | Some i => if i <? 0 then inl ErrNegativeBigInt else inr (writeBigInt w i)
  end.

(** [makeByteArrayWriter] with its cases for arrays of length 0 and 1. *)
Definition writeByteArray (b : list Z) (w : encBuffer) : encBuffer :=
  match b with
  | [] => eb_write w [0x80]
  | [x] => if x <=? 0x7f then eb_write w [x] else eb_write w [0x81; x]
  | _ => eb_write (eb_encodeStringHeader w (Z.of_nat (length b))) b
  end.

Fixpoint write (v : val) (w : encBuffer) : RlpError + encBuffer :=
  match v with
  | VRaw b => inr (eb_write w b)
  | VUint i => inr (writeUint64 w i)
  | VBool b => inr (writeBool w b)
  | VBigIntPtr i => writeBigIntPtr i w
  | VBytes b => inr (writeBytes w b)
  | VByteArray b => inr (writeByteArray b w)
  | VNilPtr nilEncoding => inr (eb_write w [nilEncoding])
  | VList [] => inr (eb_write w [0xC0])
  | VList vs =>
      let '(listOffset, w) := eb_list w in
      match (fix writeElems (vs : list val) (w : encBuffer) : RlpError + encBuffer :=
               match vs with
               | [] => inr w
               | v :: vs => match write v w with inl e => inl e | inr w => writeElems vs w end
               end) vs w with
      | inl e => inl e
      | inr w => inr (eb_listEnd w listOffset)
      end
  end.

Fixpoint writeElems (vs : list val) (w : encBuffer) : RlpError + encBuffer :=
  match vs with
  | [] => inr w
  | v :: vs => match write v w with inl e => inl e | inr w => writeElems vs w end
  end.

Definition EncodeToBytes (v : val) : RlpError + list Z :=
  match write v emptyEncBuffer with inl e => inl e | inr w => inr (makeBytes w) end.

(** * The reference encoding

    One recursive pass over the value, as in the definition of RLP. *)

Definition enc_string (b : list Z) : list Z :=
  match b with
  | [x] => if x <=? 0x7F then b else 0x81 :: b
  | _ => puthead 0x80 0xB7 (Z.of_nat (length b)) ++ b
  end.

(** The shortest big-endian form; nothing for 0. *)
Definition big_Bytes (i : Z) : list Z := be_bytes (Z.to_nat ((BitLen i + 7) / 8)) i.

Fixpoint enc (v : val) : list Z :=
  match v with
  | VRaw b => b
  | VUint i => enc_string (big_Bytes i)
  | VBool b => enc_string (big_Bytes (if b then 1 else 0))
  | VBigIntPtr i => enc_string (big_Bytes (default 0 i))
  | VBytes b | VByteArray b => enc_string b
  | VNilPtr nilEncoding => [nilEncoding]
  | VList vs =>
      let content := concat (map enc vs) in
      puthead 0xC0 0xF7 (Z.of_nat (length content)) ++ content
  end.

(** Values the Go types admit: 64-bit integers, bytes, integers that are not
    negative, and an encoding that a 64-bit size can describe. *)
Fixpoint val_ok (v : val) : Prop :=
  match v with
  | VUint i => 0 <= i < 2 ^ 64
  | VBigIntPtr (Some i) => 0 <= i
  | VList vs =>
      Z.of_nat (length (concat (map enc vs))) < 2 ^ 64 /\ foldr (fun v P => val_ok v /\ P) True vs
  | _ => True
  end.

Section val_induction.
Variable P : val -> Prop.
Hypothesis Hatom : forall v, (forall vs, v <> VList vs) -> P v.
Hypothesis Hlist : forall vs, Forall P vs -> P (VList vs).

Fixpoint val_ind_nested (v : val) : P v :=
  match v with
  | VList vs =>
      Hlist vs ((fix go (vs : list val) : Forall P vs :=
                   match vs with
                   | [] => Forall_nil_2 P
                   | v :: vs => Forall_cons_2 P v vs (val_ind_nested v) (go vs)
                   end) vs)
  | v => Hatom v ltac:(discriminate)
  end.
End val_induction.

(** * Integers of minimal length *)

Lemma length_be_bytes n i : length (be_bytes n i) = n.
Proof. induction n; cbn; auto. Qed.

Lemma be_bytes_byte n i : Forall is_byte (be_bytes n i).
Proof.
  induction n; constructor; [|done]. unfold is_byte, u8. apply Z.mod_pos_bound. lia.
Qed.

Lemma be_value_app_acc bs acc :
  fold_left (fun acc b => acc * 256 + b) bs acc = acc * 256 ^ Z.of_nat (length bs) + be_value bs.
Proof.
  unfold be_value. revert acc. induction bs as [|b bs IH]; intros acc; [cbn; lia|].
  cbn [fold_left length]. rewrite (IH (acc * 256 + b)), (IH (0 * 256 + b)).
  rewrite Nat2Z.inj_succ, Z.pow_succ_r by lia. ring.
Qed.

Lemma be_value_cons b bs : be_value (b :: bs) = b * 256 ^ Z.of_nat (length bs) + be_value bs.
Proof. unfold be_value at 1. cbn [fold_left]. rewrite be_value_app_acc. lia. Qed.

Lemma be_value_range bs : Forall is_byte bs -> 0 <= be_value bs < 256 ^ Z.of_nat (length bs).
Proof.
  induction 1 as [|b bs [Hb0 Hb1] _ IH]; [cbn; lia|].
  rewrite be_value_cons. cbn [length]. rewrite Nat2Z.inj_succ, Z.pow_succ_r by lia. nia.
Qed.

Lemma be_value_mod n i : be_value (be_bytes n i) = i mod 256 ^ Z.of_nat n.
Proof.
  induction n as [|n IH]; [by rewrite Z.mod_1_r|].
  cbn [be_bytes]. rewrite be_value_cons, length_be_bytes, IH.
  unfold u8. rewrite Z.shiftr_div_pow2 by lia.
  replace (2 ^ (8 * Z.of_nat n)) with (256 ^ Z.of_nat n) by (rewrite Z.pow_mul_r by lia; done).
  rewrite Nat2Z.inj_succ, Z.pow_succ_r, (Z.mul_comm 256), Z.rem_mul_r by lia.
  change (2 ^ 8) with 256. lia.
Qed.

Lemma be_value_be_bytes n i : 0 <= i -> be_value (be_bytes n i) = i mod 256 ^ Z.of_nat n.
Proof. intros _. apply be_value_mod. Qed.

Lemma pow256 n : 256 ^ Z.of_nat n = 2 ^ (8 * Z.of_nat n).
Proof. rewrite Z.pow_mul_r by lia. done. Qed.

(** Higher digits do not show in the low bytes. *)
Lemma be_bytes_add (n k : nat) m i :
  (n <= k)%nat -> be_bytes n (m * 256 ^ Z.of_nat k + i) = be_bytes n i.
Proof.
  induction n as [|n IH]; intros Hn; [done|].
  cbn [be_bytes]. rewrite IH by lia. f_equal. unfold u8.
  rewrite !Z.shiftr_div_pow2, <- !pow256 by lia.
  replace (256 ^ Z.of_nat k) with (256 * 256 ^ (Z.of_nat k - Z.of_nat n - 1) * 256 ^ Z.of_nat n)
    by (rewrite <- Z.pow_succ_r, <- Z.pow_add_r by lia; f_equal; lia).
  rewrite Z.mul_assoc, Z.div_add_l by lia. change (2 ^ 8) with 256.
  rewrite (Z.mul_comm 256), Z.mul_assoc, Z.add_comm, Z.mod_add by lia. done.
Qed.

(** A byte string is the big-endian form of its value. *)
Lemma be_bytes_be_value bs :
  Forall is_byte bs -> be_bytes (length bs) (be_value bs) = bs.
Proof.
  induction 1 as [|b bs Hb Hbs IH]; [done|].
  pose proof (be_value_range bs Hbs) as Hr. cbn [length be_bytes].
  rewrite be_value_cons, be_bytes_add, IH by lia. f_equal.
  rewrite Z.shiftr_div_pow2, <- pow256, Z.div_add_l, Z.div_small, Z.add_0_r by lia.
  unfold u8. apply Z.mod_small. destruct Hb; lia.
Qed.

Lemma nbytes_unique (n : nat) i :
  256 ^ Z.of_nat n <= i < 256 ^ Z.of_nat (S n) -> Z.to_nat ((BitLen i + 7) / 8) = S n.
Proof.
  intros Hi. assert (0 < i) by (pose proof (Z.pow_pos_nonneg 256 (Z.of_nat n)); lia).
  rewrite !pow256 in Hi. destruct Hi as [Hlo Hhi].
  apply Z.log2_le_pow2 in Hlo; [|lia]. apply Z.log2_lt_pow2 in Hhi; [|lia].
  unfold BitLen. destruct (i =? 0) eqn:?; zify_bools; [lia|].
  enough ((Z.log2 i + 1 + 7) / 8 = Z.of_nat (S n)) by lia.
  symmetry. apply (Z.div_unique _ _ _ (Z.log2 i - 8 * Z.of_nat n)); lia.
Qed.

Lemma nbytes_exists i :
  0 < i -> exists n : nat, 256 ^ Z.of_nat n <= i < 256 ^ Z.of_nat (S n).
Proof.
  intros Hi. exists (Z.to_nat (Z.log2 i / 8)).
  pose proof (Z.log2_nonneg i). pose proof (Z.log2_spec i Hi) as [Hlo Hhi].
  pose proof (Z.div_pos (Z.log2 i) 8 ltac:(lia) ltac:(lia)).
  pose proof (Z.div_mod (Z.log2 i) 8 ltac:(lia)). pose proof (Z.mod_pos_bound (Z.log2 i) 8 ltac:(lia)).
  rewrite !pow256, Nat2Z.inj_succ, Z2Nat.id by lia. split.
  - etransitivity; [|exact Hlo]. apply Z.pow_le_mono_r; lia.
  - eapply Z.lt_le_trans; [exact Hhi|]. apply Z.pow_le_mono_r; lia.
Qed.

Lemma be_bytes_head n i :
  256 ^ Z.of_nat n <= i < 256 ^ Z.of_nat (S n) ->
  exists b, be_bytes (S n) i = b :: be_bytes n i /\ 0 < b < 256.
Proof.
  intros Hi. pose proof (Z.pow_pos_nonneg 256 (Z.of_nat n)).
  eexists; split; [done|]. rewrite Z.shiftr_div_pow2, <- pow256 by lia.
  rewrite Nat2Z.inj_succ, Z.pow_succ_r in Hi by lia.
  assert (0 < i / 256 ^ Z.of_nat n < 256).
  { split; [apply Z.div_str_pos; lia|apply Z.div_lt_upper_bound; lia]. }
  unfold u8. rewrite Z.mod_small; lia.
Qed.

Lemma big_Bytes_0 : big_Bytes 0 = [].
Proof. done. Qed.

Lemma big_Bytes_value i : 0 <= i -> be_value (big_Bytes i) = i.
Proof.
  intros Hi. destruct (decide (i = 0)) as [->|Hne]; [done|].
  destruct (nbytes_exists i ltac:(lia)) as [n Hn].
  unfold big_Bytes. rewrite (nbytes_unique n i Hn), be_value_be_bytes by lia.
  apply Z.mod_small. split; [lia|apply Hn].
Qed.

Lemma big_Bytes_byte i : Forall is_byte (big_Bytes i).
Proof. apply be_bytes_byte. Qed.

(** No leading zero byte. *)
Lemma big_Bytes_cons i : 0 < i -> exists b bs, big_Bytes i = b :: bs /\ 0 < b < 256.
Proof.
  intros Hi. destruct (nbytes_exists i Hi) as [n Hn].
  destruct (be_bytes_head n i Hn) as (b & Hb & Hr).
  exists b, (be_bytes n i). unfold big_Bytes. by rewrite (nbytes_unique n).
Qed.

(** A byte string without leading zero is the minimal form of its value. *)
Lemma big_Bytes_be_value b bs :
  0 < b -> Forall is_byte (b :: bs) -> big_Bytes (be_value (b :: bs)) = b :: bs.
Proof.
  intros Hb Hbs. unfold big_Bytes. rewrite (nbytes_unique (length bs)).
  - by apply (be_bytes_be_value (b :: bs)).
  - split; [|by apply (be_value_range (b :: bs))].
    apply Forall_cons in Hbs as [_ Hbs%be_value_range]. rewrite be_value_cons. nia.
Qed.

Lemma big_Bytes_small i : 0 < i < 256 -> big_Bytes i = [i].
Proof.
  intros Hi. unfold big_Bytes. rewrite (nbytes_unique 0) by (cbn; lia).
  cbn. unfold u8. rewrite Z.shiftr_0_r, Z.mod_small by lia. done.
Qed.

Lemma length_big_Bytes i (n : nat) : 0 <= i < 256 ^ Z.of_nat n -> (length (big_Bytes i) <= n)%nat.
Proof.
  intros Hi. destruct (decide (i = 0)) as [->|Hne]; [rewrite big_Bytes_0; cbn; lia|].
  destruct (nbytes_exists i ltac:(lia)) as [k Hk].
  unfold big_Bytes. rewrite (nbytes_unique k i Hk), length_be_bytes.
  destruct (decide (n <= k)%nat); [|lia].
  pose proof (Z.pow_le_mono_r 256 (Z.of_nat n) (Z.of_nat k)). lia.
Qed.

Lemma putint_spec i : 0 < i < 2 ^ 64 -> putint i = big_Bytes i.
Proof.
  intros Hi. unfold putint, big_Bytes.
  repeat case_match; zify_bools;
    first [ rewrite (nbytes_unique 0) by (cbn; lia) | rewrite (nbytes_unique 1) by (cbn; lia)
          | rewrite (nbytes_unique 2) by (cbn; lia) | rewrite (nbytes_unique 3) by (cbn; lia)
          | rewrite (nbytes_unique 4) by (cbn; lia) | rewrite (nbytes_unique 5) by (cbn; lia)
          | rewrite (nbytes_unique 6) by (cbn; lia) | rewrite (nbytes_unique 7) by (cbn; lia) ];
    reflexivity.
Qed.

(** [intsize] is the length of the minimal form. *)
Lemma intsize_from_spec fuel size i :
  0 < i < 256 ^ Z.of_nat (S fuel) -> intsize_from (S fuel) size i = size - 1 + Z.of_nat (length (big_Bytes i)).
Proof.
  revert size i. induction fuel as [|fuel IH]; intros size i Hi.
  - cbn in Hi. cbn. rewrite big_Bytes_small, Z.shiftr_div_pow2, Z.div_small by lia. cbn. lia.
  - change (intsize_from (S (S fuel)) size i) with
      (if Z.shiftr i 8 =? 0 then size else intsize_from (S fuel) (size + 1) (Z.shiftr i 8)).
    rewrite Z.shiftr_div_pow2 by lia. change (2 ^ 8) with 256.
    destruct (i / 256 =? 0) eqn:Hq; zify_bools.
    + apply Z.div_small_iff in Hq; [|lia]. rewrite big_Bytes_small by lia. cbn. lia.
    + pose proof (Z.div_pos i 256 ltac:(lia) ltac:(lia)).
      rewrite Nat2Z.inj_succ, Z.pow_succ_r in Hi by lia.
      rewrite IH by (split; [lia|apply Z.div_lt_upper_bound; lia]).
      destruct (nbytes_exists (i / 256) ltac:(lia)) as [n Hn].
      unfold big_Bytes. rewrite (nbytes_unique n _ Hn), (nbytes_unique (S n)), !length_be_bytes; [lia|].
      rewrite !Nat2Z.inj_succ, !Z.pow_succ_r in * by lia.
      pose proof (Z.mul_div_le i 256 ltac:(lia)). pose proof (Z.mul_succ_div_gt i 256 ltac:(lia)). nia.
Qed.

Lemma intsize_spec i : 0 < i < 2 ^ 64 -> intsize i = Z.of_nat (length (big_Bytes i)).
Proof. intros Hi. unfold intsize. rewrite intsize_from_spec by (cbn; lia). lia. Qed.

(** * The two-pass encoder computes the reference encoding *)

Lemma u8_small x : 0 <= x < 256 -> u8 x = x.
Proof. intros; unfold u8; apply Z.mod_small; lia. Qed.

Lemma length_puthead st lt size :
  0 <= size < 2 ^ 64 -> Z.of_nat (length (puthead st lt size)) = headsize size.
Proof.
  intros Hs. unfold puthead, headsize. case_match; zify_bools; [done|].
  cbn [length]. rewrite putint_spec, intsize_spec by lia. lia.
Qed.

Lemma headsize_pos size : 0 <= size < 2 ^ 64 -> 0 < headsize size.
Proof. intros Hs. rewrite <- (length_puthead 0 0) by done. unfold puthead. case_match; cbn [length]; lia. Qed.

Lemma writeUint64_spec w i :
  0 <= i < 2 ^ 64 -> writeUint64 w i = eb_write w (enc_string (big_Bytes i)).
Proof.
  intros Hi. unfold writeUint64. case_match; zify_bools; [by subst|].
  case_match; zify_bools.
  - rewrite big_Bytes_small, u8_small by lia. cbn. by destruct (Z.leb_spec i 127); [|lia].
  - rewrite putint_spec by lia. f_equal.
    pose proof (length_big_Bytes i 8 ltac:(cbn; lia)) as Hlen.
    destruct (decide (i < 256)) as [?|Hbig].
    { rewrite big_Bytes_small by lia. cbn. by destruct (Z.leb_spec i 127); [lia|]. }
    destruct (nbytes_exists i ltac:(lia)) as [n Hn].
    assert (1 <= n)%nat.
    { destruct n; [cbn in Hn; lia|lia]. }
    destruct (big_Bytes i) as [|x [|y l]] eqn:Heq.
    1,2: apply (f_equal length) in Heq; unfold big_Bytes in Heq;
      rewrite (nbytes_unique n i Hn), length_be_bytes in Heq; cbn in Heq; lia.
    unfold enc_string, puthead. destruct (Z.ltb_spec (Z.of_nat (length (x :: y :: l))) 56); [done|lia].
Qed.

Lemma writeBigInt_spec w i : 0 <= i -> writeBigInt w i = eb_write w (enc_string (big_Bytes i)).
Proof.
  intros Hi. unfold writeBigInt. case_match; zify_bools.
  - assert (i < 2 ^ 64).
    { unfold BitLen in *. case_match; zify_bools; [lia|]. apply Z.log2_lt_pow2; lia. }
    by rewrite big_Uint64_small, writeUint64_spec by lia.
  - assert (Z.shiftr (Z.land (BitLen i + 7) (-8)) 3 = (BitLen i + 7) / 8) as ->.
    { rewrite Z.shiftr_land. change (Z.shiftr (-8) 3) with (-1).
      by rewrite Z.land_m1_r, Z.shiftr_div_pow2 by lia. }
    assert (9 <= (BitLen i + 7) / 8) by (apply Z.div_le_lower_bound; lia).
    unfold eb_encodeStringHeader, eb_write, big_Bytes. cbn. rewrite <- app_assoc. f_equal. f_equal.
    unfold enc_string. pose proof (length_be_bytes (Z.to_nat ((BitLen i + 7) / 8)) i) as Hl.
    destruct (be_bytes _ i) as [|x [|y l]]; [cbn in Hl; lia..|].
    rewrite Hl, Z2Nat.id by lia. done.
Qed.

Lemma be_bytes_app m n i : be_bytes (m + n) i = be_bytes m (Z.shiftr i (8 * Z.of_nat n)) ++ be_bytes n i.
Proof.
  induction m as [|m IH]; [done|]. cbn [Nat.add be_bytes app]. rewrite IH. f_equal. unfold u8.
  rewrite Z.shiftr_shiftr by lia. f_equal. f_equal. lia.
Qed.

Lemma drop_be_bytes m n i : drop m (be_bytes (m + n) i) = be_bytes n i.
Proof. rewrite be_bytes_app. apply drop_app_length'. by rewrite length_be_bytes. Qed.

(** Both integer writers agree, so [VBigIntPtr] also stands for a [*uint256.Int]. *)
Lemma writeUint256_writeBigInt w z : 0 <= z < 2 ^ 256 -> writeUint256 w z = writeBigInt w z.
Proof.
  intros Hz. unfold writeUint256, writeBigInt. destruct (Z.leb_spec (BitLen z) 64) as [|Hbig].
  { unfold big_Uint64. by rewrite Z.abs_eq by lia. }
  assert (Z.shiftr (Z.land (BitLen z + 7) (-8)) 3 = (BitLen z + 7) / 8) as ->.
  { rewrite Z.shiftr_land. change (Z.shiftr (-8) 3) with (-1). by rewrite Z.land_m1_r, Z.shiftr_div_pow2 by lia. }
  assert (BitLen z <= 256).
  { unfold BitLen in *. case_match; zify_bools; [lia|]. enough (Z.log2 z < 256) by lia. apply Z.log2_lt_pow2; lia. }
  set (n := (BitLen z + 7) / 8). assert (9 <= n <= 32) as Hn.
  { split; [apply Z.div_le_lower_bound; lia|]. enough (n < 33) by lia. apply Z.div_lt_upper_bound; lia. }
  rewrite (u8_small n) by lia. unfold eb_encodeStringHeader, eb_write, puthead. destruct (Z.ltb_spec n 56); [|lia]. cbn [eb_str eb_lheads eb_lhsize].
  rewrite <- app_assoc, (u8_small n) by lia. do 2 f_equal.
  assert (be_bytes 8 (Z.shiftr z 192) ++ be_bytes 8 (Z.shiftr z 128) ++ be_bytes 8 (Z.shiftr z 64) ++ be_bytes 8 z = be_bytes 32 z) as ->.
  { change 32%nat with (8 + (8 + (8 + 8)))%nat. rewrite !be_bytes_app. done. }
  replace 32%nat with ((32 - Z.to_nat n) + Z.to_nat n)%nat at 1 by lia.
  rewrite <- (drop_be_bytes (32 - Z.to_nat n) (Z.to_nat n) z).
  replace (32 - Z.to_nat n + Z.to_nat n)%nat with 32%nat by lia.
  replace (Z.to_nat (32 - n)) with (32 - Z.to_nat n)%nat by lia.
  set (k := (32 - Z.to_nat n)%nat). assert (k < 33)%nat by lia.
  rewrite drop_insert_ge by lia. rewrite Nat.sub_diag.
  destruct (drop k (0 :: be_bytes 32 z)) as [|x l] eqn:Hd.
  { apply (f_equal length) in Hd. rewrite length_drop in Hd. cbn [length] in Hd. rewrite length_be_bytes in Hd. lia. }
  cbn. f_equal. replace l with (drop 1 (x :: l)) by done. rewrite <- Hd, drop_drop.
  by replace (k + 1)%nat with (S k) by lia.
Qed.

(** Every writer but the list writer appends the reference encoding to the
    string data. *)
Lemma write_atom v w :
  (forall vs, v <> VList vs) -> val_ok v -> write v w = inr (eb_write w (enc v)).
Proof.
  destruct v as [b|i|b|[i|]|b|b|n|vs]; intros Hv Hok; cbn [write enc]; try done.
  - by rewrite writeUint64_spec.
  - unfold writeBool. by destruct b.
  - cbn in *. destruct (Z.ltb_spec i 0); [lia|]. by rewrite writeBigInt_spec.
  - destruct b as [|x [|y l]]; cbn [writeBytes enc_string]; [| case_match |];
      unfold eb_encodeStringHeader, eb_write; cbn; rewrite <- ?app_assoc; done.
  - destruct b as [|x [|y l]]; cbn [writeByteArray enc_string]; [| case_match |];
      unfold eb_encodeStringHeader, eb_write; cbn; rewrite <- ?app_assoc; done.
  - by destruct (Hv vs).
Qed.

(** The heads that follow start at or behind string position [n]. *)
Definition heads_ge (n : Z) (hs : list listhead) : Prop :=
  match hs with [] => True | h :: _ => n <= lh_offset h end.

(** [w'] is [w] with string data and list headers added that [copyTo] renders
    as [out]. *)
Definition renders (w w' : encBuffer) (out : list Z) : Prop :=
  exists s hs,
    eb_str w' = eb_str w ++ s /\
    eb_lheads w' = eb_lheads w ++ hs /\
    eb_lhsize w' = eb_lhsize w + (Z.of_nat (length out) - Z.of_nat (length s)) /\
    heads_ge (Z.of_nat (length (eb_str w))) hs /\
    forall post hs', heads_ge (Z.of_nat (length (eb_str w ++ s))) hs' ->
      copyTo_from (eb_str w ++ s ++ post) (Z.of_nat (length (eb_str w))) (hs ++ hs') =
      out ++ copyTo_from (eb_str w ++ s ++ post) (Z.of_nat (length (eb_str w ++ s))) hs'.

Lemma copyTo_skip p s post hs :
  heads_ge (Z.of_nat (length (p ++ s))) hs ->
  copyTo_from (p ++ s ++ post) (Z.of_nat (length p)) hs =
  s ++ copyTo_from (p ++ s ++ post) (Z.of_nat (length (p ++ s))) hs.
Proof.
  intros Hge. destruct hs as [|h hs]; cbn [copyTo_from heads_ge] in *.
  - rewrite !Nat2Z.id, drop_app_length, app_assoc, drop_app_length. done.
  - rewrite length_app in Hge.
    replace (Z.of_nat (length p) + (lh_offset h - Z.of_nat (length p))) with (lh_offset h) by lia.
    replace (Z.of_nat (length (p ++ s)) + (lh_offset h - Z.of_nat (length (p ++ s)))) with (lh_offset h) by lia.
    rewrite !Nat2Z.id, drop_app_length, (app_assoc p), drop_app_length, (app_assoc s). f_equal.
    rewrite take_app_ge by lia. f_equal. f_equal. rewrite length_app. lia.
Qed.

Lemma renders_write w bs : renders w (eb_write w bs) bs.
Proof.
  exists bs, []. cbn. rewrite app_nil_r. split_and!; [done|done|lia|done|].
  intros post hs'. apply copyTo_skip.
Qed.

Lemma heads_ge_app n m hs hs' :
  n <= m -> heads_ge n hs -> heads_ge m hs' -> heads_ge n (hs ++ hs').
Proof. destruct hs, hs'; cbn; lia. Qed.

Lemma renders_trans w w1 w2 o1 o2 :
  renders w w1 o1 -> renders w1 w2 o2 -> renders w w2 (o1 ++ o2).
Proof.
  intros (s1 & h1 & Hs1 & Hh1 & Hl1 & Hg1 & Hc1) (s2 & h2 & Hs2 & Hh2 & Hl2 & Hg2 & Hc2).
  exists (s1 ++ s2), (h1 ++ h2). rewrite Hs2, Hh2, Hl2, Hs1, Hh1, Hl1, !length_app, <- !app_assoc.
  rewrite Hs1 in *. split_and!; [done|done|lia| |].
  - eapply heads_ge_app; [|done|exact Hg2]. rewrite length_app. lia.
  - intros post hs' Hge. rewrite <- !app_assoc, Hc1.
    + specialize (Hc2 post hs'). rewrite <- !app_assoc, !length_app in Hc2.
      rewrite length_app, Hc2 by done. done.
    + eapply heads_ge_app; [|exact Hg2|exact Hge]. rewrite !length_app. lia.
Qed.

Lemma renders_list w w1 out :
  renders (eb_list w).2 w1 out -> Z.of_nat (length out) < 2 ^ 64 ->
  renders w (eb_listEnd w1 (eb_list w).1) (puthead 0xC0 0xF7 (Z.of_nat (length out)) ++ out).
Proof.
  intros (s & hs & Hs & Hh & Hl & Hg & Hc) Hsz. cbn [eb_list fst snd eb_str eb_lheads eb_lhsize] in *.
  unfold eb_listEnd. rewrite Nat2Z.id, Hh, <- app_assoc. cbn [app].
  rewrite list_lookup_middle by done. cbn [lh_offset lh_size].
  assert (eb_size w1 - Z.of_nat (length (eb_str w)) - eb_lhsize w = Z.of_nat (length out)) as ->.
  { unfold eb_size. rewrite Hs, Hl, length_app. lia. }
  exists s, (Listhead (Z.of_nat (length (eb_str w))) (Z.of_nat (length out)) :: hs).
  cbn [eb_str eb_lheads eb_lhsize]. split_and!.
  - done.
  - rewrite insert_app_r_alt, Nat.sub_diag by lia. done.
  - rewrite length_app, Nat2Z.inj_add, length_puthead, Hl by lia. unfold headsize.
    rewrite u64_small by lia. case_match; lia.
  - cbn. lia.
  - intros post hs' Hge. cbn [app copyTo_from lh_offset]. rewrite Z.sub_diag, Z.add_0_r, Hc by done.
    rewrite Z2Nat.inj_0, take_0. unfold listhead_encode. cbn [lh_size].
    rewrite u64_small by lia. by rewrite <- app_assoc.
Qed.

Lemma write_list vs w :
  write (VList vs) w =
  match vs with
  | [] => inr (eb_write w [0xC0])
  | _ => match writeElems vs (eb_list w).2 with
         | inl e => inl e
         | inr w1 => inr (eb_listEnd w1 (eb_list w).1)
         end
  end.
Proof.
  destruct vs as [|v vs]; [done|]. cbn [write eb_list fst snd].
  set (go := fix writeElems (vs : list val) (w : encBuffer) := _).
  assert (forall l b, go l b = writeElems l b) as Hgo.
  { induction l as [|x l IH]; intros b; [done|]. cbn. destruct (write x b); [done|]. apply IH. }
  cbn [writeElems]. by destruct (write v _); [|rewrite Hgo].
Qed.

Lemma write_renders v w : val_ok v -> exists w', write v w = inr w' /\ renders w w' (enc v).
Proof.
  revert w. induction v as [v Hv|vs IH] using val_ind_nested; intros w Hok.
  - eexists. rewrite write_atom by done. split; [done|apply renders_write].
  - assert (forall w, exists w', writeElems vs w = inr w' /\ renders w w' (concat (map enc vs))) as Helems.
    { destruct Hok as [_ Hok]. clear w. induction IH as [|v vs Hv Hvs IHvs]; intros w.
      - exists w. split; [done|]. exists [], []. rewrite !app_nil_r. cbn.
        split_and!; [done|done|lia|done|]. intros. cbn. by rewrite ?app_nil_r.
      - destruct Hok as [Hokv Hokvs]. destruct (Hv w Hokv) as (w1 & Hw1 & Hr1).
        destruct (IHvs Hokvs w1) as (w2 & Hw2 & Hr2). exists w2. cbn. rewrite Hw1. split; [done|].
        by eapply renders_trans. }
    rewrite write_list. destruct vs as [|v vs'] eqn:Hvs.
    + eexists; split; [done|apply renders_write].
    + rewrite <- Hvs in *. destruct (Helems (eb_list w).2) as (w1 & -> & Hr). eexists; split; [done|].
      cbn [enc]. apply renders_list; [done|]. apply Hok.
Qed.

Lemma EncodeToBytes_spec v : val_ok v -> EncodeToBytes v = inr (enc v).
Proof.
  intros Hok. destruct (write_renders v emptyEncBuffer Hok) as (w & Hw & s & hs & Hs & Hh & _ & _ & Hc).
  unfold EncodeToBytes. rewrite Hw. f_equal. unfold makeBytes. rewrite Hs, Hh.
  specialize (Hc [] []). cbn [emptyEncBuffer eb_str eb_lheads app length] in *.
  rewrite !app_nil_r in Hc. change 0 with (Z.of_nat 0). rewrite Hc by done. cbn [copyTo_from].
  by rewrite Nat2Z.id, drop_all, app_nil_r.
Qed.
