(* ===== verification/RlpStream.v ===== *)
(** The RLP decoder (src/rlp/decode.go): [Stream] and the decoders that
    [makeDecoder] builds from it, for the types the modelled sources decode. *)
From S2P Require Import Prelude Rlp.

Inductive Kind := Byte | String | List.
#[global] Instance Kind_eq_dec : EqDecision Kind.
Proof. solve_decision. Defined.

(** What [Kind] caches about the value ahead: [kind], [size], [byteval] and
    [kinderr].  [kind = -1] is the absence of this record. *)
Record Ahead := MkAhead { a_kind : Kind; a_size : Z; a_byteval : Z; a_err : option RlpError }.

Record Stream := MkStream {
  s_r : list Z;              (** the bytes the reader has left *)
  s_remaining : Z;           (** bytes the input limit leaves *)
  s_ahead : option Ahead;    (** the header read by [Kind] *)
  s_stack : list Z;          (** sizes of the open lists, innermost first *)
  s_limited : bool;
}.

(** A stream operation: an error or a value, and the stream afterwards. *)
Definition Dec (A : Type) : Type := Stream -> (RlpError + A) * Stream.

#[global] Instance Dec_ret : MRet Dec := fun A a s => (inr a, s).
#[global] Instance Dec_bind : MBind Dec := fun A B f m s =>
  match m s with
  | (inl e, s') => (inl e, s')
  | (inr a, s') => f a s'
  end.
Definition raise {A} (e : RlpError) : Dec A := fun s => (inl e, s).

(** * Limits and reads *)

(** [s.kind = -1]. *)
Definition rearm : Dec unit := fun s =>
  (inr tt, MkStream (s_r s) (s_remaining s) None (s_stack s) (s_limited s)).

Definition willRead (n : Z) : Dec unit := fun s =>
  let take_remaining (stack : list Z) :=
    if s_limited s then
      if s_remaining s <? n then
        (inl ErrValueTooLarge, MkStream (s_r s) (s_remaining s) None stack (s_limited s))
      else (inr tt, MkStream (s_r s) (s_remaining s - n) None stack (s_limited s))
    else (inr tt, MkStream (s_r s) (s_remaining s) None stack (s_limited s)) in
  match s_stack s with
  | limit :: stack =>
      if limit <? n then
        (inl ErrElemTooLarge, MkStream (s_r s) (s_remaining s) None (s_stack s) (s_limited s))
      else take_remaining (u64 (limit - n) :: stack)
  | [] => take_remaining []
  end.

Definition takeByte : Dec Z := fun s =>
  match s_r s with
  | [] => (inl ErrUnexpectedEOF, s)
  | b :: r => (inr b, MkStream r (s_remaining s) (s_ahead s) (s_stack s) (s_limited s))
  end.
Definition readByte : Dec Z := _ ← willRead 1; takeByte.

(** [readFull] into a buffer of [n] bytes. *)
Definition takeBytes (n : Z) : Dec (list Z) := fun s =>
  let rest := MkStream (drop (Z.to_nat n) (s_r s)) (s_remaining s) (s_ahead s) (s_stack s) (s_limited s) in
  if Z.of_nat (length (s_r s)) <? n then (inl ErrUnexpectedEOF, rest)
  else (inr (take (Z.to_nat n) (s_r s)), rest).
Definition readFull (n : Z) : Dec (list Z) := _ ← willRead n; takeBytes n.

(** [b[0]] of a buffer that is not empty. *)
Definition first_byte (b : list Z) : Z := match b with x :: _ => x | [] => 0 end.

Definition readUint (size : Z) : Dec Z :=
  if size =? 0 then _ ← rearm; mret 0
  else if size =? 1 then readByte
  else
    buffer ← readFull size;
    if first_byte buffer =? 0 then raise ErrCanonSize
    else mret (be_value buffer).

(** * Value headers *)

Definition readKind_long (k : Kind) (size : Z) : Dec Ahead := fun s =>
  match readUint size s with
  | (inl e, s') => (inr (MkAhead k 0 0 (Some e)), s')
  | (inr n, s') => (inr (MkAhead k n 0 (if n <? 56 then Some ErrCanonSize else None)), s')
  end.

(** [readKind]; its error is part of the result, as [Kind] caches it. *)
Definition readKind : Dec Ahead := fun s =>
  match readByte s with
  | (inl e, s') =>
      let e' :=
        match s_stack s, e with
        | [], (ErrUnexpectedEOF | ErrValueTooLarge) => EOF
        | _, _ => e
        end in
      (inr (MkAhead Byte 0 0 (Some e')), s')
  | (inr b, s') =>
      if b <? 0x80 then (inr (MkAhead Byte 0 b None), s')
      else if b <? 0xB8 then (inr (MkAhead String (b - 0x80) 0 None), s')
      else if b <? 0xC0 then readKind_long String (b - 0xB7) s'
      else if b <? 0xF8 then (inr (MkAhead List (b - 0xC0) 0 None), s')
      else readKind_long List (b - 0xF7) s'
  end.

Definition getAhead (a : Ahead) : Dec Ahead := fun s =>
  match a_err a with Some e => (inl e, s) | None => (inr a, s) end.

(** [Kind].  The element's size is compared with the space the enclosing list
    had before the header was read. *)
Definition kind : Dec Ahead := fun s =>
  match s_ahead s with
  | Some a => getAhead a s
  | None =>
      match s_stack s with
      | 0 :: _ => (inl EOL, s)
      | stack =>
          match readKind s with
          | (inl e, s') => (inl e, s')
          | (inr a, s') =>
              let tooLarge := match stack with limit :: _ => limit <? a_size a | [] => false end in
              let err :=
                match a_err a with
                | Some e => Some e
                | None =>
                    if tooLarge then Some ErrElemTooLarge
                    else if s_limited s' && (s_remaining s' <? a_size a) then Some ErrValueTooLarge
                    else None
                end in
              let a := MkAhead (a_kind a) (a_size a) (a_byteval a) err in
              getAhead a (MkStream (s_r s') (s_remaining s') (Some a) (s_stack s') (s_limited s'))
          end
      end
  end.

(** * Values *)

Definition Bytes : Dec (list Z) :=
  a ← kind;
  match a_kind a with
  | Byte => _ ← rearm; mret [a_byteval a]
  | String =>
      b ← readFull (a_size a);
      if (a_size a =? 1) && (first_byte b <? 128) then raise ErrCanonSize else mret b
  | List => raise ErrExpectedString
  end.

(** [uint], the reader of unsigned integers of [maxbits] bits. *)
Definition uintString (size : Z) : Dec Z := fun s =>
  match readUint size s with
  | (inl ErrCanonSize, s') => (inl ErrCanonInt, s')
  | (inl e, s') => (inl e, s')
  | (inr v, s') => if (0 <? size) && (v <? 128) then (inl ErrCanonSize, s') else (inr v, s')
  end.
Definition uint_ (maxbits : Z) : Dec Z :=
  a ← kind;
  match a_kind a with
  | Byte => if a_byteval a =? 0 then raise ErrCanonInt else _ ← rearm; mret (a_byteval a)
  | String =>
      if maxbits / 8 <? a_size a then raise errUintOverflow
      else uintString (a_size a)
  | List => raise ErrExpectedString
  end.

(** [decodeBigInt]: leading zero bytes are rejected. *)
Definition setBytes (buffer : list Z) : Dec Z :=
  match buffer with
  | 0 :: _ => raise ErrCanonInt
  | _ => mret (be_value buffer)
  end.
Definition BigInt : Dec Z :=
  a ← kind;
  buffer ←
    match a_kind a with
    | List => raise ErrExpectedString
    | Byte => _ ← rearm; mret [a_byteval a]
    | String =>
        if a_size a =? 0 then _ ← rearm; mret []
        else
          b ← readFull (a_size a);
          if (a_size a =? 1) && (first_byte b <? 128) then raise ErrCanonSize else mret b
    end;
  setBytes buffer.

(** [ReadUint256]. *)
Definition Uint256 : Dec Z :=
  a ← kind;
  buffer ←
    match a_kind a with
    | List => raise ErrExpectedString
    | Byte => _ ← rearm; mret [a_byteval a]
    | String =>
        if a_size a =? 0 then _ ← rearm; mret []
        else if a_size a <=? 32 then
          b ← readFull (a_size a);
          if (a_size a =? 1) && (first_byte b <? 128) then raise ErrCanonSize else mret b
        else raise errUint256Large
    end;
  setBytes buffer.

(** [decodeByteArray] into an array of [n] bytes. *)
Definition ByteArray (n : Z) : Dec (list Z) :=
  a ← kind;
  match a_kind a with
  | Byte =>
      if n =? 0 then raise InputStringTooLong
      else if 1 <? n then raise InputStringTooShort
      else _ ← rearm; mret [a_byteval a]
  | String =>
      if n <? a_size a then raise InputStringTooLong
      else if a_size a <? n then raise InputStringTooShort
      else
        b ← readFull n;
        if (a_size a =? 1) && (first_byte b <? 128) then raise ErrCanonSize else mret b
  | List => raise ErrExpectedString
  end.

(** [ReadBytes] into a buffer of [n] bytes. *)
Definition ReadBytes (n : Z) : Dec (list Z) :=
  a ← kind;
  match a_kind a with
  | Byte => if negb (n =? 1) then raise WrongSize else _ ← rearm; mret [a_byteval a]
  | String =>
      if negb (n =? a_size a) then raise WrongSize
      else
        b ← readFull n;
        if (a_size a =? 1) && (first_byte b <? 128) then raise ErrCanonSize else mret b
  | List => raise ErrExpectedString
  end.

(** [Raw]: the next value with a header put in front of its content again. *)
Definition Raw : Dec (list Z) :=
  a ← kind;
  match a_kind a with
  | Byte => _ ← rearm; mret [a_byteval a]
  | String => b ← readFull (a_size a); mret (puthead 0x80 0xB7 (a_size a) ++ b)
  | List => b ← readFull (a_size a); mret (puthead 0xC0 0xF7 (a_size a) ++ b)
  end.

(** * Lists *)

Definition pushList (size : Z) : Dec Z := fun s =>
  let stack :=
    match s_stack s with
    | limit :: stack => u64 (limit - size) :: stack
    | [] => []
    end in
  (inr size, MkStream (s_r s) (s_remaining s) None (size :: stack) (s_limited s)).
(** The method [List]. *)
Definition openList : Dec Z :=
  a ← kind;
  match a_kind a with
  | List => pushList (a_size a)
  | _ => raise ErrExpectedList
  end.

Definition ListEnd : Dec unit := fun s =>
  match s_stack s with
  | [] => (inl errNotInList, s)
  | listLimit :: stack =>
      if 0 <? listLimit then (inl errNotAtEOL, s)
      else (inr tt, MkStream (s_r s) (s_remaining s) None stack (s_limited s))
  end.

(** [decodeSliceElems]: elements are decoded until one reports [EOL].  Every
    element takes at least one byte of the input, which bounds the loop. *)
Fixpoint decodeSliceElems {A} (elemdec : Dec A) (fuel : nat) : Dec (list A) :=
  match fuel with
  | O => raise OutOfFuel
  | S fuel => fun s =>
      match elemdec s with
      | (inl EOL, s') => (inr [], s')
      | (inl e, s') => (inl e, s')
      | (inr a, s') => (decodeSliceElems elemdec fuel ≫= fun l => mret (a :: l)) s'
      end
  end.

Definition decodeElems {A} (elemdec : Dec A) : Dec (list A) := fun s =>
  decodeSliceElems elemdec (S (length (s_r s))) s.
Definition decodeListSlice {A} (elemdec : Dec A) : Dec (list A) :=
  size ← openList;
  if size =? 0 then _ ← ListEnd; mret []
  else l ← decodeElems elemdec; _ ← ListEnd; mret l.

(** [makeStructDecoder]: the fields one after the other; the end of the list
    before the last field is an error. *)
Definition field {A} (dec : Dec A) : Dec A := fun s =>
  match dec s with
  | (inl EOL, s') => (inl TooFewElements, s')
  | r => r
  end.
(** A field with the tag [optional]: where the list ends, the struct has the
    zero values [zeroed] for it and for the fields after it. *)
Definition optional {F A} (dec : Dec F) (zeroed : A) (rest : F -> Dec A) : Dec A := fun s =>
  match dec s with
  | (inl EOL, s') => (inr zeroed, s')
  | (inl e, s') => (inl e, s')
  | (inr a, s') => rest a s'
  end.
Definition decodeStruct {A} (fields : Dec A) : Dec A :=
  _ ← openList; a ← fields; _ ← ListEnd; mret a.

(** [makeNilPtrDecoder]: an empty value of the right kind is a nil pointer. *)
Definition decodeNilPtr {A} (nilKind : Kind) (dec : Dec A) : Dec (option A) :=
  a ← kind;
  if bool_decide (a_kind a <> Byte) && (a_size a =? 0) then
    if bool_decide (a_kind a <> nilKind) then raise WrongKindOfEmptyValue
    else _ ← rearm; mret None
  else x ← dec; mret (Some x).

Definition NewStream (b : list Z) (inputLimit : Z) : Stream :=
  MkStream b inputLimit None [] (0 <? inputLimit).

Definition DecodeBytes {A} (dec : Dec A) (b : list Z) : RlpError + A :=
  match dec (NewStream b (Z.of_nat (length b))) with
  | (inl e, _) => inl e
  | (inr a, s) => match s_r s with [] => inr a | _ => inl ErrMoreThanOneValue end
  end.
