(* ===== verification/RlpSpec.v ===== *)
(** Round trips of the RLP codec: what the decoder accepts and what it returns.

    [reads d bs a]: started at the bytes [bs], inside any list and under any
    input limit with room for them, the decoder [d] consumes exactly [bs] and
    returns [a].  [canon d R]: whenever [d] returns a value [a], the bytes it
    consumed stand in the relation [R] to [a]; with [R] the encoder's relation
    this says that a value has only one accepted encoding. *)
From S2P Require Import Prelude Rlp RlpStream.

(** * Accounting *)

(** [n] bytes taken from the innermost open list and from the input limit. *)
Definition sadv (n : Z) (st : list Z) : list Z :=
  match st with l :: st => u64 (l - n) :: st | [] => [] end.
Definition radv (n rem : Z) (lim : bool) : Z := if lim then rem - n else rem.

Definition fits (n rem : Z) (st : list Z) (lim : bool) : Prop :=
  match st with l :: _ => n <= l < 2 ^ 64 | [] => True end /\ (lim = true -> n <= rem).

Abbreviation len l := (Z.of_nat (length l)).

Lemma u64_sub_l x y : u64 (u64 x - y) = u64 (x - y).
Proof. unfold u64. by rewrite Zminus_mod_idemp_l. Qed.

Lemma sadv_sadv a b st : sadv b (sadv a st) = sadv (a + b) st.
Proof. destruct st as [|l st]; [done|]. cbn. rewrite u64_sub_l. do 2 f_equal. lia. Qed.

Lemma radv_radv a b rem lim : radv b (radv a rem lim) lim = radv (a + b) rem lim.
Proof. destruct lim; cbn; lia. Qed.

Lemma fits_le m n rem st lim : 0 <= m <= n -> fits n rem st lim -> fits m rem st lim.
Proof. destruct st, lim; unfold fits; naive_solver lia. Qed.

Lemma fits_adv m n rem st lim :
  0 <= m -> 0 <= n -> fits (m + n) rem st lim -> fits n (radv m rem lim) (sadv m st) lim.
Proof.
  intros Hm Hn [H1 H2]. split; [|destruct lim; cbn; naive_solver lia].
  destruct st as [|l st]; [done|]. cbn. rewrite u64_small by lia. lia.
Qed.

(** * Primitive reads *)

Lemma willRead_ok n r rem ah st lim :
  fits n rem st lim ->
  willRead n (MkStream r rem ah st lim) = (inr tt, MkStream r (radv n rem lim) None (sadv n st) lim).
Proof.
  intros [H1 H2]. unfold willRead; cbn. destruct st as [|l st], lim; cbn; try done.
  - specialize (H2 eq_refl). by destruct (Z.ltb_spec rem n); [lia|].
  - specialize (H2 eq_refl). destruct (Z.ltb_spec l n); [lia|]. by destruct (Z.ltb_spec rem n); [lia|].
  - by destruct (Z.ltb_spec l n); [lia|].
Qed.

(** A read that succeeds has stayed within the limits. *)
Lemma willRead_inv n r rem ah st lim x s' :
  willRead n (MkStream r rem ah st lim) = (inr x, s') ->
  s' = MkStream r (radv n rem lim) None (sadv n st) lim.
Proof.
  unfold willRead; cbn. destruct st as [|l st], lim; cbn; repeat case_match; naive_solver.
Qed.

Lemma readByte_ok b r rem ah st lim :
  fits 1 rem st lim ->
  readByte (MkStream (b :: r) rem ah st lim) = (inr b, MkStream r (radv 1 rem lim) None (sadv 1 st) lim).
Proof. intros Hf. unfold readByte, mbind, Dec_bind. by rewrite willRead_ok. Qed.

Lemma readByte_inv r rem ah st lim b s' :
  readByte (MkStream r rem ah st lim) = (inr b, s') ->
  exists r', r = b :: r' /\ s' = MkStream r' (radv 1 rem lim) None (sadv 1 st) lim.
Proof.
  unfold readByte, mbind, Dec_bind. destruct (willRead _ _) as [[e|[]] s1] eqn:Hw; [done|].
  apply willRead_inv in Hw as ->. unfold takeByte; cbn. destruct r as [|b' r']; naive_solver.
Qed.

Lemma readFull_ok b r rem ah st lim :
  fits (len b) rem st lim ->
  readFull (len b) (MkStream (b ++ r) rem ah st lim) =
  (inr b, MkStream r (radv (len b) rem lim) None (sadv (len b) st) lim).
Proof.
  intros Hf. unfold readFull, mbind, Dec_bind. rewrite willRead_ok by done. unfold takeBytes; cbn [s_r].
  rewrite Nat2Z.id, take_app_length, drop_app_length, length_app. by destruct (Z.ltb_spec (Z.of_nat (length b + length r)) (len b)); [lia|].
Qed.

Lemma readFull_inv n r rem ah st lim b s' :
  0 <= n -> readFull n (MkStream r rem ah st lim) = (inr b, s') ->
  exists r', r = b ++ r' /\ len b = n /\ s' = MkStream r' (radv n rem lim) None (sadv n st) lim.
Proof.
  intros Hn. unfold readFull, mbind, Dec_bind. destruct (willRead _ _) as [[e|[]] s1] eqn:Hw; [done|].
  apply willRead_inv in Hw as ->. unfold takeBytes; cbn. case_match; intros [=]; subst; zify_bools.
  exists (drop (Z.to_nat n) r). rewrite take_drop, length_take. split_and!; [done|lia|done].
Qed.

(** * Value headers *)

(** The header that stands for what [kind] reports. *)
Definition header (a : Ahead) : list Z :=
  match a_kind a with
  | Byte => [a_byteval a]
  | String => puthead 0x80 0xB7 (a_size a)
  | List => puthead 0xC0 0xF7 (a_size a)
  end.

Definition ahead_ok (a : Ahead) : Prop :=
  a_err a = None /\ 0 <= a_size a < 2 ^ 64 /\
  match a_kind a with
  | Byte => a_size a = 0 /\ 0 <= a_byteval a < 128
  | _ => a_byteval a = 0
  end.

Lemma header_length a : ahead_ok a -> 0 < len (header a) <= 9.
Proof.
  intros (_ & Hs & Hk). unfold header. destruct (a_kind a); [cbn; lia|..].
  all: unfold puthead; case_match; [cbn; lia|]; zify_bools; cbn [length];
    rewrite putint_spec by lia; pose proof (length_big_Bytes (a_size a) 8 ltac:(cbn; lia)); lia.
Qed.

(** The long form of a size. *)
Lemma readUint_ok i r rem ah st lim :
  0 < i < 2 ^ 64 -> fits (len (big_Bytes i)) rem st lim ->
  readUint (len (big_Bytes i)) (MkStream (big_Bytes i ++ r) rem ah st lim) =
  (inr i, MkStream r (radv (len (big_Bytes i)) rem lim) None (sadv (len (big_Bytes i)) st) lim).
Proof.
  intros Hi Hf. destruct (big_Bytes_cons i ltac:(lia)) as (b & bs & Hb & Hr). unfold readUint.
  destruct (Z.eqb_spec (len (big_Bytes i)) 0) as [H0|_]; [by rewrite Hb in H0|].
  destruct (Z.eqb_spec (len (big_Bytes i)) 1) as [H1|_].
  - rewrite H1 in *. destruct bs as [|y bs]; [|rewrite Hb in H1; cbn [length] in H1; lia].
    pose proof (big_Bytes_value i ltac:(lia)) as Hv. rewrite Hb in Hv |- *.
    assert (b = i) as -> by (cbn in Hv; lia). by apply readByte_ok.
  - unfold mbind, Dec_bind. rewrite readFull_ok by done.
    assert (first_byte (big_Bytes i) = b) as -> by (by rewrite Hb).
    destruct (Z.eqb_spec b 0); [lia|]. rewrite big_Bytes_value by lia. done.
Qed.

Lemma readUint_inv size r rem ah st lim v s' :
  1 <= size <= 8 -> Forall is_byte r -> readUint size (MkStream r rem ah st lim) = (inr v, s') ->
  exists bs r', r = bs ++ r' /\ len bs = size /\ be_value bs = v /\ (bs = [v] \/ bs = big_Bytes v) /\
    s' = MkStream r' (radv size rem lim) None (sadv size st) lim.
Proof.
  intros Hsize Hr Hrd. unfold readUint in Hrd.
  destruct (Z.eqb_spec size 0) as [|_]; [lia|]. destruct (Z.eqb_spec size 1) as [->|Hne].
  - apply readByte_inv in Hrd as (r' & -> & ->). exists [v], r'. cbn. naive_solver.
  - unfold mbind, Dec_bind in Hrd. destruct (readFull _ _) as [[e|b] s1] eqn:Hf; [done|].
    apply readFull_inv in Hf as (r' & -> & Hl & ->); [|lia].
    destruct b as [|x b]; [cbn in Hl; lia|]. cbn [first_byte] in Hrd.
    destruct (Z.eqb_spec x 0) as [|Hx]; [discriminate Hrd|]. unfold mret, Dec_ret in Hrd. simplify_eq.
    apply Forall_app in Hr as [Hb _].
    exists (x :: b), r'. split_and!; try done. right. symmetry. apply big_Bytes_be_value; [|done].
    apply Forall_cons in Hb as [[] _]. lia.
Qed.

(** Decide the comparisons of a tag byte. *)
Ltac case_ltb :=
  repeat match goal with |- context [?p <? ?q] => destruct (Z.ltb_spec p q); try lia end.

Lemma readKind_long_ok k lt n r rem st lim :
  (k = String /\ lt = 0xB7) \/ (k = List /\ lt = 0xF7) -> 56 <= n < 2 ^ 64 ->
  fits (1 + len (putint n)) rem st lim ->
  readKind (MkStream (u8 (lt + u8 (len (putint n))) :: putint n ++ r) rem None st lim) =
  (inr (MkAhead k n 0 None),
   MkStream r (radv (1 + len (putint n)) rem lim) None (sadv (1 + len (putint n)) st) lim).
Proof.
  intros Hlt Hn Hf. rewrite putint_spec in * by lia.
  pose proof (length_big_Bytes n 8 ltac:(cbn; lia)) as H8.
  destruct (big_Bytes_cons n ltac:(lia)) as (x & xs & Hx & Hx').
  assert (1 <= len (big_Bytes n)) by (rewrite Hx; cbn [length]; lia).
  rewrite !u8_small by (destruct Hlt as [[_ ->]|[_ ->]]; rewrite ?u8_small; lia).
  unfold readKind. rewrite readByte_ok by (eapply fits_le; [|exact Hf]; lia).
  assert (readKind_long k (len (big_Bytes n)) (MkStream (big_Bytes n ++ r) (radv 1 rem lim) None (sadv 1 st) lim) =
    (inr (MkAhead k n 0 None), MkStream r (radv (1 + len (big_Bytes n)) rem lim) None (sadv (1 + len (big_Bytes n)) st) lim)) as Hl.
  { unfold readKind_long. rewrite readUint_ok by (lia || (apply fits_adv; [lia..|done])).
    rewrite sadv_sadv, radv_radv. by destruct (Z.ltb_spec n 56); [lia|]. }
  destruct Hlt as [[-> ->]|[-> ->]]; cbn [s_stack]; case_ltb; rewrite <- Hl; f_equal; lia.
Qed.

Lemma readKind_ok a r rem st lim :
  ahead_ok a -> fits (len (header a)) rem st lim ->
  readKind (MkStream (header a ++ r) rem None st lim) =
  (inr a, MkStream r (radv (len (header a)) rem lim) None (sadv (len (header a)) st) lim).
Proof.
  intros Ha Hf. pose proof (header_length a Ha) as Hlen. destruct a as [k n bv err].
  destruct Ha as (Herr & Hn & Hk). cbn in *; subst err. unfold header in *; cbn in *.
  destruct k; [destruct Hk as [-> Hbv]|subst bv..].
  - cbn [app length] in *. unfold readKind. rewrite readByte_ok by done. by case_ltb.
  - unfold puthead in *. destruct (Z.ltb_spec n 56); cbn [app length] in *.
    + rewrite !u8_small by (rewrite ?u8_small; lia).
      unfold readKind. rewrite readByte_ok by done. case_ltb. do 3 f_equal. lia.
    + rewrite Nat2Z.inj_succ, <- Z.add_1_l in *. apply readKind_long_ok; [by left|lia|done].
  - unfold puthead in *. destruct (Z.ltb_spec n 56); cbn [app length] in *.
    + rewrite !u8_small by (rewrite ?u8_small; lia).
      unfold readKind. rewrite readByte_ok by done. case_ltb. do 3 f_equal. lia.
    + rewrite Nat2Z.inj_succ, <- Z.add_1_l in *. apply readKind_long_ok; [by right|lia|done].
Qed.

Lemma readKind_long_inv k size r rem st lim a s' :
  1 <= size <= 8 -> Forall is_byte r -> readKind_long k size (MkStream r rem None st lim) = (inr a, s') ->
  a_err a = None ->
  exists n r', a = MkAhead k n 0 None /\ 56 <= n < 2 ^ 64 /\ len (putint n) = size /\
    r = putint n ++ r' /\ s' = MkStream r' (radv size rem lim) None (sadv size st) lim.
Proof.
  intros Hs Hr Hrd He. unfold readKind_long in Hrd.
  destruct (readUint _ _) as [[e|n] s1] eqn:Hu; [naive_solver|].
  apply readUint_inv in Hu as (bs & r' & -> & Hl & Hv & Hb & ->); [|done..]. simplify_eq. cbn in *.
  destruct (Z.ltb_spec (be_value bs) 56); [done|].
  apply Forall_app in Hr as [Hbs _]. pose proof (be_value_range bs Hbs) as Hrange.
  assert (256 ^ len bs <= 256 ^ 8) by (apply Z.pow_le_mono_r; lia).
  assert (putint (be_value bs) = bs) as Hp.
  { rewrite putint_spec by lia. destruct Hb as [Hb|Hb]; [|done].
    rewrite big_Bytes_small; [done|]. rewrite Hb in Hrange at 3. cbn in Hrange. lia. }
  exists (be_value bs), r'. rewrite Hp. split_and!; done || lia.
Qed.

Lemma readKind_inv r rem st lim a s' :
  Forall is_byte r -> readKind (MkStream r rem None st lim) = (inr a, s') -> a_err a = None ->
  ahead_ok a /\ exists r', r = header a ++ r' /\
    s' = MkStream r' (radv (len (header a)) rem lim) None (sadv (len (header a)) st) lim.
Proof.
  intros Hr Hrd He. unfold readKind in Hrd. destruct (readByte _) as [[e|b] s1] eqn:Hb; [naive_solver|].
  apply readByte_inv in Hb as (r' & -> & ->). apply Forall_cons in Hr as [[Hb0 Hb1] Hr].
  unfold ahead_ok, header.
  destruct (Z.ltb_spec b 0x80); [simplify_eq; cbn; naive_solver lia|].
  destruct (Z.ltb_spec b 0xB8).
  { simplify_eq; cbn. split; [split_and!; done || lia|]. exists r'. unfold puthead. case_ltb.
    rewrite !u8_small by (rewrite ?u8_small; lia). cbn. split; [f_equal; lia|done]. }
  destruct (Z.ltb_spec b 0xC0).
  { apply readKind_long_inv in Hrd as (n & r2 & -> & Hn & Hl & -> & ->); [|lia|done|done]. cbn.
    split; [split_and!; done || lia|]. exists r2. unfold puthead. case_ltb.
    rewrite Hl, !u8_small by (rewrite ?u8_small; lia). cbn [app length].
    rewrite Nat2Z.inj_succ, <- Z.add_1_l, Hl, sadv_sadv, radv_radv. split; [f_equal; lia|done]. }
  destruct (Z.ltb_spec b 0xF8).
  { simplify_eq; cbn. split; [split_and!; done || lia|]. exists r'. unfold puthead. case_ltb.
    rewrite !u8_small by (rewrite ?u8_small; lia). cbn. split; [f_equal; lia|done]. }
  apply readKind_long_inv in Hrd as (n & r2 & -> & Hn & Hl & -> & ->); [|lia|done|done]. cbn.
  split; [split_and!; done || lia|]. exists r2. unfold puthead. case_ltb.
  rewrite Hl, !u8_small by (rewrite ?u8_small; lia). cbn [app length].
  rewrite Nat2Z.inj_succ, <- Z.add_1_l, Hl, sadv_sadv, radv_radv. split; [f_equal; lia|done].
Qed.

(** * [kind] *)

Lemma kind_ok a r rem st lim :
  ahead_ok a -> fits (len (header a) + a_size a) rem st lim ->
  kind (MkStream (header a ++ r) rem None st lim) =
  (inr a, MkStream r (radv (len (header a)) rem lim) (Some a) (sadv (len (header a)) st) lim).
Proof.
  intros Ha Hf. pose proof (header_length a Ha) as Hl. pose proof Ha as (He & Hs & Hk).
  assert (fits (len (header a)) rem st lim) as Hf' by (eapply fits_le; [|exact Hf]; lia).
  destruct a as [k n bv err]; cbn in He; subst err. cbn [a_size] in *.
  set (hd := header _) in *. unfold kind. cbn [s_ahead s_stack].
  assert (forall tl : bool, tl = false ->
    (let err := if tl then Some ErrElemTooLarge
       else if lim && (radv (len hd) rem lim <? n) then Some ErrValueTooLarge else None in
     getAhead (MkAhead k n bv err) (MkStream r (radv (len hd) rem lim) (Some (MkAhead k n bv err)) (sadv (len hd) st) lim)) =
    (inr (MkAhead k n bv None), MkStream r (radv (len hd) rem lim) (Some (MkAhead k n bv None)) (sadv (len hd) st) lim)) as Hend.
  { intros tl ->. cbn zeta. destruct Hf as [_ Hf].
    destruct lim; cbn; [|done]. specialize (Hf eq_refl). by case_ltb. }
  destruct st as [|l st].
  - unfold hd at 1. rewrite readKind_ok by done. exact (Hend false eq_refl).
  - destruct Hf as [Hf1 _]. destruct l as [|l|l]; [lia| |lia].
    unfold hd at 1. rewrite readKind_ok by done. apply (Hend (Z.pos l <? n)). by case_ltb.
Qed.

Lemma kind_inv r rem st lim a s' :
  Forall is_byte r -> kind (MkStream r rem None st lim) = (inr a, s') ->
  ahead_ok a /\ exists r', r = header a ++ r' /\
    s' = MkStream r' (radv (len (header a)) rem lim) (Some a) (sadv (len (header a)) st) lim.
Proof.
  intros Hr Hk. unfold kind in Hk; cbn [s_ahead s_stack] in Hk.
  assert (exists a0 s0 err, readKind (MkStream r rem None st lim) = (inr a0, s0) /\
    (a_err a0 <> None -> err = a_err a0) /\
    getAhead (MkAhead (a_kind a0) (a_size a0) (a_byteval a0) err)
      (MkStream (s_r s0) (s_remaining s0) (Some (MkAhead (a_kind a0) (a_size a0) (a_byteval a0) err)) (s_stack s0) (s_limited s0))
    = (inr a, s')) as (a0 & s0 & err & Hrk & Herr & Hga).
  { destruct st as [|[|l|l] st]; [|done|..];
      destruct (readKind _) as [[e|a0] s0]; try done; eexists a0, s0, _;
      (split; [done|split; [|exact Hk]]); destruct (a_err a0); done. }
  unfold getAhead in Hga; cbn in Hga. destruct err; [done|]. simplify_eq.
  assert (a_err a0 = None) as He by (destruct (a_err a0); [naive_solver|done]).
  destruct (readKind_inv _ _ _ _ _ _ Hr Hrk He) as (Ha & r' & -> & ->).
  destruct a0 as [k n bv e]. cbn in *. subst e. split; [done|]. by exists r'.
Qed.

Lemma kind_again a r rem st lim :
  a_err a = None -> kind (MkStream r rem (Some a) st lim) = (inr a, MkStream r rem (Some a) st lim).
Proof. intros He. unfold kind, getAhead; cbn. by rewrite He. Qed.

(** Errors that only the list machinery may produce. *)
Definition never {A} (e : RlpError) (d : Dec A) : Prop := forall s s', d s <> (inl e, s').

Section never.
Context (e : RlpError) (He : e = EOL \/ e = OutOfFuel).

Lemma never_ret {A} (a : A) : never e (mret a).
Proof. by intros s s'. Qed.

Lemma never_raise {A} e' : e' <> EOL -> e' <> OutOfFuel -> never e (raise (A := A) e').
Proof. intros H1 H2 s s' [=]. naive_solver. Qed.

Lemma never_bind {A B} (d : Dec A) (f : A -> Dec B) :
  never e d -> (forall a, never e (f a)) -> never e (d ≫= f).
Proof.
  intros Hd Hf s s'. unfold mbind, Dec_bind. destruct (d s) as [[e'|a] s1] eqn:Hs; [|apply Hf].
  intros [=]; subst. by eapply Hd.
Qed.

Lemma never_willRead n : never e (willRead n).
Proof. intros s s'. unfold willRead. repeat case_match; naive_solver. Qed.

Lemma never_readByte : never e readByte.
Proof.
  apply never_bind; [apply never_willRead|]. intros _ s s'. unfold takeByte. case_match; naive_solver.
Qed.

Lemma never_readFull n : never e (readFull n).
Proof.
  apply never_bind; [apply never_willRead|]. intros _ s s'. unfold takeBytes. case_match; naive_solver.
Qed.

Lemma never_readUint n : never e (readUint n).
Proof.
  unfold readUint. repeat case_match; [by intros s s'|apply never_readByte|].
  apply never_bind; [apply never_readFull|]. intros b. case_match; [by apply never_raise|apply never_ret].
Qed.

Lemma never_ListEnd : never e ListEnd.
Proof. intros s s'. unfold ListEnd. repeat case_match; naive_solver. Qed.

Lemma readKind_err s a s' : readKind s = (inr a, s') -> a_err a <> Some e.
Proof.
  unfold readKind, readKind_long. destruct (readByte s) as [[e1|b] s1] eqn:Hb.
  - intros [=]; subst. cbn. intros [=]. apply (never_readByte s s'). rewrite Hb. f_equal. f_equal.
    destruct (s_stack s), e1; naive_solver.
  - pose proof (fun n s => never_readUint n s1 s) as Hu.
    repeat case_match; intros [=]; subst; cbn; try done; intros [=]; subst; try naive_solver; by eapply Hu.
Qed.
End never.

Lemma readKind_no_error s e s' : readKind s <> (inl e, s').
Proof. unfold readKind, readKind_long. repeat case_match; naive_solver. Qed.

(** [kind] reports the end of a list without touching the stream. *)
Lemma kind_eol s s' : s_ahead s = None -> kind s = (inl EOL, s') -> s' = s.
Proof.
  unfold kind. intros -> Hk. destruct (s_stack s) as [|[|l|l] st] eqn:Hst; try (by injection Hk as <-).
  all: destruct (readKind s) as [[e|a] s1] eqn:Hrk; [by destruct (readKind_no_error _ _ _ Hrk)|].
  all: pose proof (readKind_err EOL (or_introl eq_refl) _ _ _ Hrk) as Hne.
  all: unfold getAhead in Hk; cbn in Hk; repeat case_match; simplify_eq; try done.
Qed.

Lemma kind_ahead s a s' : kind s = (inr a, s') -> s_ahead s' = Some a /\ a_err a = None.
Proof.
  assert (forall x s1, getAhead x s1 = (inr a, s') -> s_ahead s1 = Some x -> s_ahead s' = Some a /\ a_err a = None) as Hget.
  { intros x s1. unfold getAhead. destruct (a_err x) eqn:He; [done|]. intros [=]; subst. done. }
  unfold kind. destruct (s_ahead s) as [x|] eqn:Ha; [intros Hk; by eapply Hget|].
  destruct (s_stack s) as [|[|l|l] st]; try done; (destruct (readKind s) as [[e|x] s1]; [done|]); intros Hk; by eapply Hget.
Qed.

(** Behind a header that was looked at, [d] does not report the end of a list. *)
Definition peeked {A} (d : Dec A) (a : Ahead) : Prop :=
  forall s s', s_ahead s = Some a -> a_err a = None -> d s <> (inl EOL, s').

Lemma peeked_never {A} (d : Dec A) a : never EOL d -> peeked d a.
Proof. intros Hd s s' _ _. apply Hd. Qed.

(** A decoder that looks at the next header first: it reports the end of the
    list, and nothing else as the end, and it does not matter whether the header
    was already looked at. *)
Definition starts {A} (d : Dec A) : Prop :=
  exists f : Ahead -> Dec A, (forall a, peeked (f a) a) /\ forall s, d s = (kind ≫= f) s.

Lemma starts_peeks {A} (f : Ahead -> Dec A) : (forall a, peeked (f a) a) -> starts (kind ≫= f).
Proof. by exists f. Qed.

Lemma starts_kind {A} (f : Ahead -> Dec A) : (forall a, never EOL (f a)) -> starts (kind ≫= f).
Proof. intros Hf. apply starts_peeks. intros a. by apply peeked_never. Qed.

Lemma peeked_bind {A B} (d : Dec A) (f : A -> Dec B) a : peeked d a -> (forall x, never EOL (f x)) -> peeked (d ≫= f) a.
Proof.
  intros Hd Hf s s' Ha He. unfold mbind, Dec_bind. destruct (d s) as [[e|x] s1] eqn:Hrun; [|apply Hf].
  intros [=]; subst. by eapply Hd.
Qed.

Lemma starts_bind {A B} (d : Dec A) (f : A -> Dec B) :
  starts d -> (forall a, never EOL (f a)) -> starts (d ≫= f).
Proof.
  intros (g & Hg & Hd) Hf. exists (fun a => g a ≫= f). split; [intros a; by apply peeked_bind|].
  intros s. unfold mbind, Dec_bind. rewrite Hd. unfold mbind, Dec_bind. by destruct (kind s) as [[e|a] s'].
Qed.

Lemma starts_eol {A} (d : Dec A) r rem st lim :
  starts d -> d (MkStream r rem None (0 :: st) lim) = (inl EOL, MkStream r rem None (0 :: st) lim).
Proof. by intros (f & _ & ->). Qed.

Lemma starts_eol_inv {A} (d : Dec A) s s' :
  starts d -> s_ahead s = None -> d s = (inl EOL, s') -> s' = s.
Proof.
  intros (f & Hf & Hd) Hs. rewrite Hd. unfold mbind, Dec_bind.
  destruct (kind s) as [[e|a] s1] eqn:Hk.
  - intros [=]; subst. by apply kind_eol.
  - apply kind_ahead in Hk as [Ha He]. by intros ?%Hf.
Qed.

Lemma starts_peek {A} (d : Dec A) s a r rem st lim :
  starts d -> a_err a = None -> kind s = (inr a, MkStream r rem (Some a) st lim) ->
  d (MkStream r rem (Some a) st lim) = d s.
Proof.
  intros (f & _ & Hf) Ha Hk. rewrite !Hf. unfold mbind, Dec_bind. by rewrite Hk, kind_again.
Qed.

Lemma starts_peeked {A} (d : Dec A) a : starts d -> peeked d a.
Proof.
  intros (f & Hf & Hd) s s' Ha He. rewrite Hd. unfold mbind, Dec_bind, kind. rewrite Ha. unfold getAhead. rewrite He. by apply Hf.
Qed.

(** * The two judgements *)

Definition reads {A} (d : Dec A) (bs : list Z) (a : A) : Prop :=
  forall r rem st lim, fits (len bs) rem st lim ->
    d (MkStream (bs ++ r) rem None st lim) =
    (inr a, MkStream r (radv (len bs) rem lim) None (sadv (len bs) st) lim).

Definition stack_ok (st : list Z) : Prop := Forall (fun l => 0 <= l < 2 ^ 64) st.

Definition canon {A} (d : Dec A) (R : A -> list Z -> Prop) : Prop :=
  forall r rem st lim a s', Forall is_byte r -> len r < 2 ^ 64 -> stack_ok st ->
    d (MkStream r rem None st lim) = (inr a, s') ->
    exists bs r', R a bs /\ r = bs ++ r' /\
      s' = MkStream r' (radv (len bs) rem lim) None (sadv (len bs) st) lim.

Lemma stack_ok_sadv n st : stack_ok st -> stack_ok (sadv n st).
Proof.
  destruct st as [|l st]; [done|]. intros [_ H]%Forall_cons. constructor; [apply u64_range|done].
Qed.

Lemma adv_0 r rem ah st lim :
  stack_ok st -> MkStream r (radv 0 rem lim) ah (sadv 0 st) lim = MkStream r rem ah st lim.
Proof.
  intros Hst. f_equal; [destruct lim; cbn; lia|]. destruct st as [|l st]; [done|].
  apply Forall_cons in Hst as [? _]. cbn. rewrite u64_small by lia. f_equal. lia.
Qed.

Lemma fits_app {A} (b1 b2 : list A) rem st lim :
  fits (len (b1 ++ b2)) rem st lim ->
  fits (len b1) rem st lim /\ fits (len b2) (radv (len b1) rem lim) (sadv (len b1) st) lim.
Proof.
  rewrite length_app, Nat2Z.inj_add. intros Hf. split; [eapply fits_le; [|exact Hf]|apply fits_adv; [..|exact Hf]]; lia.
Qed.

Lemma reads_ret {A} (a : A) : reads (mret a) [] a.
Proof.
  intros r rem st lim Hf. unfold mret, Dec_ret. cbn [app length]. f_equal. f_equal.
  - destruct lim; cbn; lia.
  - destruct st as [|l st]; [done|]. destruct Hf as [Hf _]. cbn in *. rewrite u64_small by lia. f_equal. lia.
Qed.

Lemma reads_bind {A B} (d : Dec A) (f : A -> Dec B) b1 b2 a b :
  reads d b1 a -> reads (f a) b2 b -> reads (d ≫= f) (b1 ++ b2) b.
Proof.
  intros H1 H2 r rem st lim [Hf1 Hf2]%fits_app. unfold mbind, Dec_bind.
  rewrite <- app_assoc, H1, H2, radv_radv, sadv_sadv, length_app, Nat2Z.inj_add by done. done.
Qed.

Lemma reads_map {A B} (d : Dec A) (f : A -> B) bs a :
  reads d bs a -> reads (x ← d; mret (f x)) bs (f a).
Proof. intros H. rewrite <- (app_nil_r bs). eapply reads_bind; [done|apply reads_ret]. Qed.

Lemma canon_weaken {A} (d : Dec A) (R R' : A -> list Z -> Prop) :
  canon d R -> (forall a bs, R a bs -> R' a bs) -> canon d R'.
Proof. intros Hd HR r rem st lim a s' Hr Hl Hst Hrun. edestruct Hd as (bs & r' & ? & ?); eauto. Qed.

Lemma canon_ret {A} (a : A) : canon (mret a) (fun x bs => x = a /\ bs = []).
Proof. intros r rem st lim x s' Hr Hl Hst [=]; subst. exists [], r. change (len []) with 0. by rewrite adv_0. Qed.

Lemma canon_raise {A} e (R : A -> list Z -> Prop) : canon (raise e) R.
Proof. intros r rem st lim x s' Hr Hl Hst [=]. Qed.

Lemma canon_bind {A B} (d : Dec A) (f : A -> Dec B) R (S : A -> B -> list Z -> Prop) :
  canon d R -> (forall a, canon (f a) (S a)) ->
  canon (d ≫= f) (fun b bs => exists a b1 b2, R a b1 /\ S a b b2 /\ bs = b1 ++ b2).
Proof.
  intros Hd Hf r rem st lim b s' Hr Hl Hst. unfold mbind, Dec_bind.
  destruct (d _) as [[e|a] s1] eqn:Hrun; [done|]. intros Hrun2.
  destruct (Hd _ _ _ _ _ _ Hr Hl Hst Hrun) as (b1 & r1 & HR & -> & ->).
  apply Forall_app in Hr as [_ Hr]. rewrite length_app in Hl.
  destruct (Hf a _ _ _ _ _ _ Hr ltac:(lia) (stack_ok_sadv _ _ Hst) Hrun2) as (b2 & r2 & HS & -> & ->).
  exists (b1 ++ b2), r2. rewrite radv_radv, sadv_sadv, length_app, Nat2Z.inj_add, <- app_assoc.
  split_and!; [by exists a, b1, b2|done|done].
Qed.

(** After a header: the rest of a value whose header is [a]. *)
Lemma reads_kind {A} (f : Ahead -> Dec A) a content x :
  ahead_ok a -> len content = a_size a ->
  (forall r rem st lim, fits (len content) rem st lim ->
     f a (MkStream (content ++ r) rem (Some a) st lim) =
     (inr x, MkStream r (radv (len content) rem lim) None (sadv (len content) st) lim)) ->
  reads (kind ≫= f) (header a ++ content) x.
Proof.
  intros Ha Hlen Hf r rem st lim Hfit. unfold mbind, Dec_bind.
  rewrite <- app_assoc, kind_ok; [|done|by rewrite <- Hlen, <- Nat2Z.inj_add, <- length_app].
  rewrite Hf, radv_radv, sadv_sadv, length_app, Nat2Z.inj_add; [done|].
  apply fits_app in Hfit as [_ Hfit]. done.
Qed.

Lemma canon_kind {A} (f : Ahead -> Dec A) (R : A -> list Z -> Prop) :
  (forall a r rem st lim x s', ahead_ok a -> Forall is_byte r -> len r < 2 ^ 64 -> stack_ok st ->
     f a (MkStream r rem (Some a) st lim) = (inr x, s') ->
     exists content r', R x (header a ++ content) /\ r = content ++ r' /\
       s' = MkStream r' (radv (len content) rem lim) None (sadv (len content) st) lim) ->
  canon (kind ≫= f) R.
Proof.
  intros Hf r rem st lim x s' Hr Hl Hst. unfold mbind, Dec_bind.
  destruct (kind _) as [[e|a] s1] eqn:Hk; [done|]. intros Hrun.
  apply kind_inv in Hk as (Ha & r1 & -> & ->); [|done].
  apply Forall_app in Hr as [_ Hr]. rewrite length_app in Hl.
  destruct (Hf a _ _ _ _ _ _ Ha Hr ltac:(lia) (stack_ok_sadv _ _ Hst) Hrun) as (c & r2 & HR & -> & ->).
  exists (header a ++ c), r2. rewrite radv_radv, sadv_sadv, length_app, Nat2Z.inj_add, <- app_assoc. done.
Qed.

(** * Strings and integers *)

Lemma rearm_ok a r rem st lim :
  fits 0 rem st lim ->
  rearm (MkStream r rem (Some a) st lim) = (inr tt, MkStream r (radv 0 rem lim) None (sadv 0 st) lim).
Proof.
  intros [Hf _]. unfold rearm; cbn. f_equal. f_equal; [destruct lim; cbn; lia|].
  destruct st as [|l st]; [done|]. cbn. rewrite u64_small by lia. f_equal. lia.
Qed.

Definition byteAhead (x : Z) : Ahead := MkAhead Byte 0 x None.
Definition stringAhead (n : Z) : Ahead := MkAhead String n 0 None.
Definition listAhead (n : Z) : Ahead := MkAhead List n 0 None.

(** The two forms of a string: a byte below 128 stands for itself. *)
Inductive string_form : list Z -> Ahead -> list Z -> Prop :=
| string_form_byte x : 0 <= x < 128 -> string_form [x] (byteAhead x) []
| string_form_long b :
    len b < 2 ^ 64 -> (len b =? 1) && (first_byte b <? 128) = false ->
    string_form b (stringAhead (len b)) b.

Lemma string_form_exists b :
  Forall is_byte b -> len b < 2 ^ 64 -> exists a content, string_form b a content.
Proof.
  intros Hb Hl. destruct ((len b =? 1) && (first_byte b <? 128)) eqn:Hc.
  - zify_bools. destruct b as [|x [|y b]]; cbn [length first_byte] in *; try lia.
    apply Forall_cons in Hb as [[] _]. eexists _, _. constructor. lia.
  - eexists _, _. by constructor.
Qed.

Lemma string_form_enc b a content : string_form b a content -> enc_string b = header a ++ content.
Proof.
  destruct 1 as [x Hx|b Hl Hb].
  - cbn. by destruct (Z.leb_spec x 127); [|lia].
  - destruct b as [|x [|y b]]; [done| |done]. cbn in Hb. cbn [enc_string].
    destruct (Z.leb_spec x 127); [|done]. destruct (Z.ltb_spec x 128); [done|lia].
Qed.

Lemma string_form_ok b a content :
  string_form b a content -> ahead_ok a /\ len content = a_size a.
Proof. destruct 1; cbn; repeat split; cbn; lia || done. Qed.

Lemma reads_Bytes b : Forall is_byte b -> len b < 2 ^ 64 -> reads Bytes (enc_string b) b.
Proof.
  intros Hb Hl. destruct (string_form_exists b Hb Hl) as (a & content & Hform).
  rewrite (string_form_enc _ _ _ Hform). destruct (string_form_ok _ _ _ Hform) as [Ha Hc].
  apply reads_kind; [done..|]. intros r rem st lim Hf. destruct Hform as [x Hx|b Hl' Hnb]; cbn [a_kind a_size a_byteval byteAhead stringAhead].
  - unfold mbind, Dec_bind. by rewrite rearm_ok.
  - unfold mbind, Dec_bind. rewrite readFull_ok by done. by rewrite Hnb.
Qed.

Lemma canon_Bytes : canon Bytes (fun b bs => Forall is_byte b /\ bs = enc_string b).
Proof.
  apply canon_kind. intros a r rem st lim x s' Ha Hr Hl Hst Hrun.
  destruct a as [k n bv e]. pose proof Ha as (He & Hn & Hk). cbn in He, Hn, Hk; subst e.
  destruct k; cbn [a_kind] in Hrun; [| |discriminate Hrun].
  - injection Hrun as <- <-. destruct Hk as [-> Hbv]. exists [], r. cbn [app length].
    change (Z.of_nat 0) with 0. rewrite adv_0 by done. split; [|done]. split; [repeat constructor; lia|].
    symmetry. by apply (string_form_enc [bv] (byteAhead bv) []), string_form_byte.
  - subst bv. unfold mbind, Dec_bind in Hrun. cbn [a_size] in Hrun.
    destruct (readFull _ _) as [[e|b] s1] eqn:Hrf; [done|].
    apply readFull_inv in Hrf as (r' & -> & Hb & ->); [|lia]. subst n.
    destruct (_ && _) eqn:Hc; [discriminate Hrun|]. injection Hrun as <- <-.
    exists b, r'. split; [|done]. apply Forall_app in Hr as [Hb _]. split; [done|].
    symmetry. apply (string_form_enc b (stringAhead (len b)) b). by constructor; [lia|].
Qed.

Lemma reads_uint bits n :
  0 <= bits <= 64 -> (8 | bits) -> 0 <= n < 2 ^ bits -> reads (uint_ bits) (enc_string (big_Bytes n)) n.
Proof.
  intros Hbits [k ->] Hn.
  assert (n < 2 ^ 64) by (pose proof (Z.pow_le_mono_r 2 (k * 8) 64); lia).
  pose proof (length_big_Bytes n (Z.to_nat k)) as Hlen.
  rewrite pow256, Z2Nat.id, Z.mul_comm in Hlen by lia. specialize (Hlen Hn).
  destruct (string_form_exists (big_Bytes n) (big_Bytes_byte n) ltac:(lia)) as (a & content & Hform).
  rewrite (string_form_enc _ _ _ Hform). destruct (string_form_ok _ _ _ Hform) as [Ha Hc].
  apply reads_kind; [done..|]. intros r rem st lim Hf.
  pose proof (big_Bytes_value n ltac:(lia)) as Hval.
  inversion Hform as [x Hx Heq|b Hl' Hnb]; subst.
  - rewrite <- Heq in Hval. cbn in Hval. assert (x = n) as -> by lia. cbn [a_kind a_byteval byteAhead].
    destruct (Z.eqb_spec n 0) as [->|]; [by rewrite big_Bytes_0 in Heq|].
    unfold mbind, Dec_bind. by rewrite rearm_ok.
  - cbn [a_kind a_size stringAhead]. rewrite Z.div_mul by lia. destruct (Z.ltb_spec k (len (big_Bytes n))); [lia|].
    unfold uintString. destruct (decide (n = 0)) as [->|Hn0].
    + rewrite big_Bytes_0. cbn [length app]. change (readUint (Z.of_nat 0)) with (_ ← rearm; mret 0 : Dec Z).
      unfold mbind, Dec_bind. rewrite rearm_ok by (by rewrite big_Bytes_0 in Hf). done.
    + rewrite readUint_ok by (lia || done). destruct (Z.ltb_spec n 128); [|by rewrite andb_false_r].
      rewrite big_Bytes_small in Hnb by lia. cbn in Hnb. destruct (Z.ltb_spec n 128); [done|lia].
Qed.

Lemma enc_string_byte x : 0 <= x < 128 -> enc_string [x] = [x].
Proof. intros Hx. cbn. by destruct (Z.leb_spec x 127); [|lia]. Qed.

Lemma enc_string_long b :
  len b < 2 ^ 64 -> (len b =? 1) && (first_byte b <? 128) = false ->
  puthead 0x80 0xB7 (len b) ++ b = enc_string b.
Proof. intros Hl Hb. symmetry. by apply (string_form_enc b (stringAhead (len b)) b), string_form_long. Qed.

(** The common tail of the decoders that return a string. *)
Lemma canon_readString n r rem ah st lim b s' :
  0 <= n -> Forall is_byte r -> len r < 2 ^ 64 ->
  (b ← readFull n; if (n =? 1) && (first_byte b <? 128) then raise ErrCanonSize else mret b)
    (MkStream r rem ah st lim) = (inr b, s') ->
  exists r', r = b ++ r' /\ len b = n /\ Forall is_byte b /\ puthead 0x80 0xB7 n ++ b = enc_string b /\
    s' = MkStream r' (radv n rem lim) None (sadv n st) lim.
Proof.
  intros Hn Hr Hl Hrun. unfold mbind, Dec_bind in Hrun.
  destruct (readFull _ _) as [[e|b'] s1] eqn:Hrf; [done|].
  apply readFull_inv in Hrf as (r' & -> & Hb & ->); [|lia]. subst n.
  destruct (_ && _) eqn:Hc; [discriminate Hrun|]. injection Hrun as <- <-.
  apply Forall_app in Hr as [Hb _]. rewrite length_app in Hl.
  exists r'. split_and!; try done. apply enc_string_long; [lia|done].
Qed.

Lemma canon_uint bits :
  0 <= bits <= 64 -> (8 | bits) ->
  8 <= bits -> canon (uint_ bits) (fun n bs => 0 <= n < 2 ^ bits /\ bs = enc_string (big_Bytes n)).
Proof.
  intros Hbits [k ->] H8. apply canon_kind. intros a r rem st lim x s' Ha Hr Hl Hst Hrun.
  assert (256 <= 2 ^ (k * 8)) by (pose proof (Z.pow_le_mono_r 2 8 (k * 8)); lia).
  destruct a as [kd n bv e]. pose proof Ha as (He & Hn & Hk). cbn in He, Hn, Hk; subst e.
  destruct kd; cbn [a_kind a_size a_byteval] in Hrun; [| |discriminate Hrun].
  - destruct (Z.eqb_spec bv 0); [discriminate Hrun|]. injection Hrun as <- <-. destruct Hk as [-> Hbv].
    exists [], r. cbn [app length]. change (Z.of_nat 0) with 0. rewrite adv_0 by done. split; [|done].
    split; [lia|]. rewrite big_Bytes_small, enc_string_byte by lia. done.
  - subst bv. rewrite Z.div_mul in Hrun by lia. destruct (Z.ltb_spec k n); [discriminate Hrun|].
    unfold uintString in Hrun. destruct (Z.eqb_spec n 0) as [->|Hn0].
    { injection Hrun as <- <-. exists [], r. cbn [app length]. change (Z.of_nat 0) with 0.
      rewrite adv_0 by done. split; [|done]. split; [lia|done]. }
    destruct (readUint _ _) as [[e|v] s1] eqn:Hu; [by destruct e|].
    apply readUint_inv in Hu as (bs & r' & -> & Hb & Hv & Hform & ->); [|lia|done].
    destruct (Z.ltb_spec 0 n); [|lia]. destruct (Z.ltb_spec v 128); [done|]. cbn in Hrun. injection Hrun as <- <-.
    apply Forall_app in Hr as [Hbs _]. pose proof (be_value_range bs Hbs) as Hrange. rewrite Hv, pow256 in Hrange.
    assert (2 ^ (8 * len bs) <= 2 ^ (k * 8)) by (apply Z.pow_le_mono_r; lia).
    assert (bs = big_Bytes v) as ->.
    { destruct Hform as [->|]; [|done]. rewrite big_Bytes_small; [done|]. cbn in Hrange. lia. }
    exists (big_Bytes v), r'. rewrite Hb. split; [|done]. split; [lia|].
    rewrite length_app in Hl. subst n. cbn [header a_kind a_size]. apply enc_string_long; [lia|].
    destruct (big_Bytes_cons v ltac:(lia)) as (x & xs & Hx & Hx'). rewrite Hx in *.
    destruct (Z.eqb_spec (len (x :: xs)) 1) as [H1'|]; [|done]. destruct xs; [|cbn [length] in H1'; lia].
    cbn in Hv |- *. destruct (Z.ltb_spec x 128); [lia|done].
Qed.

Lemma setBytes_ok n s : 0 <= n -> setBytes (big_Bytes n) s = (inr n, s).
Proof.
  intros Hn. unfold setBytes. destruct (decide (n = 0)) as [->|]; [done|].
  destruct (big_Bytes_cons n ltac:(lia)) as (x & xs & Hx & Hx').
  rewrite big_Bytes_value by done. rewrite Hx. by destruct x; [lia|..].
Qed.

Lemma setBytes_inv b s x s' :
  Forall is_byte b -> setBytes b s = (inr x, s') -> s' = s /\ 0 <= x /\ b = big_Bytes x.
Proof.
  intros Hb Hrun. pose proof (be_value_range b Hb). destruct b as [|[|y|y] b].
  - by injection Hrun as <- <-.
  - discriminate Hrun.
  - injection Hrun as <- <-. rewrite big_Bytes_be_value by done. split_and!; [done|lia|done].
  - apply Forall_cons in Hb as [[] _]. lia.
Qed.

Lemma reads_BigInt n :
  0 <= n -> len (big_Bytes n) < 2 ^ 64 -> reads BigInt (enc_string (big_Bytes n)) n.
Proof.
  intros Hn Hl. destruct (string_form_exists (big_Bytes n) (big_Bytes_byte n) Hl) as (a & content & Hform).
  rewrite (string_form_enc _ _ _ Hform). destruct (string_form_ok _ _ _ Hform) as [Ha Hc].
  apply reads_kind; [done..|]. intros r rem st lim Hf.
  inversion Hform as [x Hx Heq|b Hl' Hnb]; subst; cbn [a_kind a_size a_byteval byteAhead stringAhead].
  - unfold mbind, Dec_bind. rewrite rearm_ok by done. cbn [mret Dec_ret]. rewrite Heq. by apply setBytes_ok.
  - unfold mbind, Dec_bind. destruct (Z.eqb_spec (len (big_Bytes n)) 0) as [H0|H0].
    + assert (big_Bytes n = []) as Hnil by (destruct (big_Bytes n); [done|cbn [length] in H0; lia]).
      pose proof (fun s => setBytes_ok n s Hn) as Hsb. rewrite Hnil in *.
      rewrite rearm_ok by done. cbn [mret Dec_ret]. apply Hsb.
    + rewrite readFull_ok by done. rewrite Hnb. by apply setBytes_ok.
Qed.

Lemma canon_BigInt : canon BigInt (fun n bs => 0 <= n /\ bs = enc_string (big_Bytes n)).
Proof.
  apply canon_kind. intros a r rem st lim x s' Ha Hr Hl Hst Hrun.
  destruct a as [kd n bv e]. pose proof Ha as (He & Hn & Hk). cbn in He, Hn, Hk; subst e.
  unfold mbind in Hrun. unfold Dec_bind in Hrun at 1.
  destruct kd; cbn [a_kind a_size a_byteval] in Hrun; [| |discriminate Hrun].
  - destruct Hk as [-> Hbv].
    change (setBytes [bv] (MkStream r rem None st lim) = (inr x, s')) in Hrun. apply setBytes_inv in Hrun as (-> & Hx & Heq); [|repeat constructor; lia].
    exists [], r. cbn [app length]. change (Z.of_nat 0) with 0. rewrite adv_0 by done. split; [|done].
    split; [done|]. rewrite <- Heq, enc_string_byte by lia. done.
  - subst bv. destruct (Z.eqb_spec n 0) as [->|Hn0].
    { change (setBytes [] (MkStream r rem None st lim) = (inr x, s')) in Hrun. apply setBytes_inv in Hrun as (-> & Hx & Heq); [|done].
      exists [], r. cbn [app length]. change (Z.of_nat 0) with 0. rewrite adv_0 by done. split; [|done].
      by rewrite <- Heq. }
    match type of Hrun with match ?m with _ => _ end = _ => destruct m as [[e|b] s1] eqn:Hrf end; [done|].
    apply canon_readString in Hrf as (r' & -> & Hb & Hbytes & Henc & ->); [|lia|done|done].
    apply setBytes_inv in Hrun as (-> & Hx & ->); [|done].
    exists (big_Bytes x), r'. rewrite Hb. done.
Qed.

Lemma reads_ByteArray n b :
  1 < n < 2 ^ 64 -> len b = n -> reads (ByteArray n) (enc_string b) b.
Proof.
  intros Hn Hb. rewrite <- enc_string_long.
  2:{ lia. } 2:{ destruct (Z.eqb_spec (len b) 1); [lia|done]. }
  apply (reads_kind _ (stringAhead (len b))).
  { repeat split; cbn; lia. } { done. }
  intros r rem st lim Hf. cbn [a_kind a_size stringAhead]. rewrite Hb.
  destruct (Z.ltb_spec n n); [lia|]. destruct (Z.eqb_spec n 1); [lia|].
  unfold mbind, Dec_bind. rewrite <- Hb, readFull_ok by done. done.
Qed.

Lemma canon_ByteArray n :
  1 < n < 2 ^ 64 ->
  canon (ByteArray n) (fun b bs => len b = n /\ Forall is_byte b /\ bs = enc_string b).
Proof.
  intros Hn. apply canon_kind. intros a r rem st lim x s' Ha Hr Hl Hst Hrun.
  destruct a as [kd m bv e]. pose proof Ha as (He & Hm & Hk). cbn in He, Hm, Hk; subst e.
  destruct kd; cbn [a_kind a_size a_byteval] in Hrun; [| |discriminate Hrun].
  - destruct (Z.eqb_spec n 0); [lia|]. destruct (Z.ltb_spec 1 n); [discriminate Hrun|lia].
  - destruct (Z.ltb_spec n m); [discriminate Hrun|]. destruct (Z.ltb_spec m n); [discriminate Hrun|].
    assert (m = n) as -> by lia.
    apply canon_readString in Hrun as (r' & -> & Hb & Hbytes & Henc & ->); [|lia|done|done].
    exists x, r'. rewrite Hb. done.
Qed.

(** Every value decoder looks at the header first. *)
Create HintDb rlp.
#[export] Hint Resolve never_ret never_bind never_readFull never_readByte never_readUint never_ListEnd : rlp.
#[export] Hint Extern 1 (never _ (raise _)) => apply never_raise; [auto|discriminate|discriminate] : rlp.
#[export] Hint Extern 1 (EOL = EOL \/ _) => left; reflexivity : rlp.
#[export] Hint Extern 1 (OutOfFuel = EOL \/ _) => right; reflexivity : rlp.
#[export] Hint Extern 2 (never _ (if ?b then _ else _)) => destruct b : rlp.
#[export] Hint Extern 2 (never _ (match ?b with _ => _ end)) => destruct b : rlp.
#[export] Hint Extern 1 (never _ rearm) => (intros ? ?; discriminate) : rlp.
#[export] Hint Extern 1 (never _ (pushList _)) => (intros ? ?; discriminate) : rlp.

Lemma never_uintString n : never EOL (uintString n).
Proof.
  intros s s'. unfold uintString. pose proof (never_readUint EOL (or_introl eq_refl) n s) as Hu.
  destruct (readUint n s) as [[e|v] s1]; [|case_match; naive_solver].
  destruct e; try naive_solver.
Qed.
#[export] Hint Resolve never_uintString : rlp.

Lemma starts_Bytes : starts Bytes.
Proof. apply starts_kind. auto 8 with rlp. Qed.
Lemma starts_uint bits : starts (uint_ bits).
Proof. apply starts_kind. auto 8 with rlp. Qed.
Lemma starts_openList : starts openList.
Proof. apply starts_kind. auto 8 with rlp. Qed.
