(* ===== verification/RlpLists.v ===== *)
(** Round trips of RLP lists: structs, slices and nil pointers, and the
    top-level [DecodeBytes].

    Termination of the decoders: the loop over list elements stops within the
    length of the input, so [OutOfFuel] is never the result. *)
From S2P Require Import Prelude Rlp RlpStream RlpSpec.

(** The encoding of a list with the given content. *)
Definition enc_list (content : list Z) : list Z := puthead 0xC0 0xF7 (len content) ++ content.

Lemma length_puthead_le st lt n : len (puthead st lt n) <= 9.
Proof. unfold puthead, putint. repeat case_match; cbn [length]; rewrite ?length_be_bytes; lia. Qed.

Lemma listAhead_ok n : 0 <= n < 2 ^ 64 -> ahead_ok (listAhead n).
Proof. intros Hn. repeat split; cbn; lia. Qed.

Lemma length_enc_list content :
  len content < 2 ^ 64 -> len (enc_list content) = headsize (len content) + len content.
Proof. intros Hl. unfold enc_list. rewrite length_app, Nat2Z.inj_add, length_puthead by lia. done. Qed.

Lemma openList_ok content r rem st lim :
  len content < 2 ^ 64 -> fits (len (enc_list content)) rem st lim ->
  openList (MkStream (enc_list content ++ r) rem None st lim) =
  (inr (len content), MkStream (content ++ r) (radv (headsize (len content)) rem lim) None
     (len content :: sadv (len (enc_list content)) st) lim).
Proof.
  intros Hl Hf. pose proof (length_enc_list content Hl) as Hlen. unfold openList, mbind, Dec_bind.
  unfold enc_list at 1. rewrite <- app_assoc.
  pose proof (kind_ok (listAhead (len content)) (content ++ r) rem st lim) as Hk.
  change (header (listAhead (len content))) with (puthead 0xC0 0xF7 (len content)) in Hk.
  rewrite length_puthead in Hk by lia. cbn [a_size listAhead] in Hk. rewrite <- Hlen in Hk.
  rewrite Hk by (done || apply listAhead_ok; lia). cbn [a_kind a_size listAhead]. unfold pushList; cbn [s_stack s_r s_remaining s_limited].
  do 3 f_equal. rewrite Hlen. destruct st as [|l st]; [done|]. cbn. rewrite u64_sub_l. do 2 f_equal. lia.
Qed.

Lemma openList_inv r rem st lim n s' :
  Forall is_byte r -> openList (MkStream r rem None st lim) = (inr n, s') ->
  0 <= n < 2 ^ 64 /\ exists r', r = puthead 0xC0 0xF7 n ++ r' /\
    s' = MkStream r' (radv (headsize n) rem lim) None (n :: sadv (headsize n + n) st) lim.
Proof.
  intros Hr. unfold openList, mbind, Dec_bind. destruct (kind _) as [[e|a] s1] eqn:Hk; [done|].
  apply kind_inv in Hk as (Ha & r' & -> & ->); [|done]. destruct a as [k m bv e].
  pose proof Ha as (He & Hm & Hbv). cbn in He, Hm, Hbv; subst e. intros Hrun.
  destruct k; cbn [a_kind a_size] in Hrun; [discriminate Hrun..|]. unfold pushList in Hrun. cbn in Hrun.
  injection Hrun as <- <-. split; [done|]. exists r'. unfold header; cbn. split; [done|].
  rewrite length_puthead by lia. f_equal. f_equal. destruct st as [|l st]; [done|]. cbn.
  rewrite u64_sub_l. do 2 f_equal. lia.
Qed.

Lemma ListEnd_ok r rem st lim :
  ListEnd (MkStream r rem None (0 :: st) lim) = (inr tt, MkStream r rem None st lim).
Proof. done. Qed.

(** [reads] inside a list: the list's own size is the limit. *)
Definition reads_in {A} (d : Dec A) (content : list Z) (a : A) : Prop :=
  forall r rem st lim, (lim = true -> len content <= rem) ->
    d (MkStream (content ++ r) rem None (len content :: st) lim) =
    (inr a, MkStream r (radv (len content) rem lim) None (0 :: st) lim).

Lemma reads_reads_in {A} (d : Dec A) content a :
  len content < 2 ^ 64 -> reads d content a -> reads_in d content a.
Proof.
  intros Hl Hd r rem st lim Hrem. rewrite Hd by (split; [lia|done]). cbn. by rewrite Z.sub_diag.
Qed.

(** A list whose body reads the content. *)
Lemma reads_list {A} (f : Z -> Dec A) content a :
  len content < 2 ^ 64 -> reads_in (f (len content)) content a ->
  reads (n ← openList; x ← f n; _ ← ListEnd; mret x) (enc_list content) a.
Proof.
  intros Hl Hf r rem st lim Hfit. unfold mbind at 1, Dec_bind at 1. rewrite openList_ok by done.
  pose proof (length_enc_list content Hl) as Hlen. pose proof (headsize_pos (len content) ltac:(lia)).
  unfold mbind, Dec_bind. rewrite Hf, ListEnd_ok, radv_radv, <- Hlen; [done|].
  intros ->. destruct Hfit as [_ Hfit]. specialize (Hfit eq_refl). cbn. lia.
Qed.

Lemma reads_struct {A} (body : Dec A) content a :
  len content < 2 ^ 64 -> reads body content a -> reads (decodeStruct body) (enc_list content) a.
Proof. intros Hl Hb. apply (reads_list (fun _ => body)); [done|]. by apply reads_reads_in. Qed.

Lemma canon_struct {A} (body : Dec A) R :
  canon body R ->
  canon (decodeStruct body) (fun a bs => exists c, R a c /\ len c < 2 ^ 64 /\ bs = enc_list c).
Proof.
  intros Hb r rem st lim a s' Hr Hl Hst. unfold decodeStruct, mbind, Dec_bind.
  destruct (openList _) as [[e|n] s1] eqn:Ho; [done|].
  apply openList_inv in Ho as (Hn & r1 & -> & ->); [|done].
  apply Forall_app in Hr as [_ Hr1]. rewrite length_app in Hl.
  destruct (body _) as [[e|x] s2] eqn:Hbody; [done|].
  apply Hb in Hbody as (c & r2 & HR & -> & ->); [|done|lia|constructor; [done|by apply stack_ok_sadv]].
  unfold ListEnd; cbn [s_stack sadv]. rewrite length_app in Hl.
  pose proof (u64_range (n - len c)) as Hu. destruct (Z.ltb_spec 0 (u64 (n - len c))); [done|].
  assert (u64 (n - len c) = 0) as H0 by lia. unfold u64 in H0. apply Z.mod_divide in H0 as [q Hq]; [|lia].
  assert (n = len c) as -> by nia. intros Hret. injection Hret as <- <-. cbn.
  exists (enc_list c), r2. rewrite length_enc_list, radv_radv by lia. split_and!; [|unfold enc_list; by rewrite <- app_assoc|done].
  exists c. split_and!; [done|lia|done].
Qed.

(** * Slices *)

Lemma elems_ok {A} (d : Dec A) bss xs fuel :
  starts d -> Forall2 (fun bs a => reads d bs a) bss xs -> len (concat bss) < 2 ^ 64 ->
  (length xs < fuel)%nat -> reads_in (decodeSliceElems d fuel) (concat bss) xs.
Proof.
  intros Hst Hall. revert fuel. induction Hall as [|bs a bss xs Hread Hall IH]; intros fuel Hl Hfuel.
  - destruct fuel as [|fuel]; [lia|]. intros r rem st lim Hrem. cbn [concat app length decodeSliceElems].
    change (Z.of_nat 0) with 0. rewrite starts_eol by done. f_equal. f_equal. destruct lim; cbn; lia.
  - destruct fuel as [|fuel]; [lia|]. intros r rem st lim Hrem. cbn [concat decodeSliceElems] in *.
    rewrite length_app, Nat2Z.inj_add in *. rewrite <- app_assoc, Hread.
    2:{ split; [lia|]. intros ->. specialize (Hrem eq_refl). lia. }
    cbn [sadv]. rewrite u64_small by lia. replace (len bs + len (concat bss) - len bs) with (len (concat bss)) by lia.
    unfold mbind, Dec_bind. rewrite IH; [by rewrite radv_radv|lia|cbn in Hfuel; lia|].
    intros ->. specialize (Hrem eq_refl). cbn. lia.
Qed.

Lemma concat_length_ge {A B} (bss : list (list A)) (xs : list B) (P : list A -> B -> Prop) :
  Forall2 P bss xs -> Forall (fun bs => bs <> []) bss -> (length xs <= length (concat bss))%nat.
Proof.
  induction 1 as [|bs x bss xs _ _ IH]; [done|]. intros [Hne Hall]%Forall_cons. cbn. rewrite length_app.
  specialize (IH Hall). destruct bs; [done|]. cbn. lia.
Qed.

Lemma reads_slice {A} (d : Dec A) bss xs :
  starts d -> Forall2 (fun bs a => reads d bs a) bss xs -> Forall (fun bs => bs <> []) bss ->
  len (concat bss) < 2 ^ 64 -> reads (decodeListSlice d) (enc_list (concat bss)) xs.
Proof.
  intros Hst Hall Hne Hl.
  assert (reads_in (if len (concat bss) =? 0 then mret [] else decodeElems d) (concat bss) xs) as Hin.
  { destruct (Z.eqb_spec (len (concat bss)) 0) as [H0|].
    - pose proof (concat_length_ge bss xs _ Hall Hne). assert (xs = []) as -> by (destruct xs; [done|cbn in *; lia]).
      intros r rem st lim Hrem. rewrite H0. destruct (concat bss); [|cbn in H0; lia]. cbn.
      unfold mret, Dec_ret. f_equal. f_equal. destruct lim; cbn; lia.
    - intros r rem st lim Hrem. unfold decodeElems. cbn [s_r]. apply elems_ok; try done.
      rewrite length_app. pose proof (concat_length_ge bss xs _ Hall Hne). lia. }
  pose proof (reads_list (fun n => if n =? 0 then mret [] else decodeElems d) _ _ Hl Hin) as Hr.
  intros r rem st lim Hf. rewrite <- (Hr r rem st lim Hf). unfold decodeListSlice, mbind, Dec_bind.
  destruct (openList _) as [[e|n] s1]; [done|]. by destruct (n =? 0).
Qed.

Lemma elems_inv {A} (d : Dec A) R fuel r rem st lim xs s' :
  starts d -> canon d R -> Forall is_byte r -> len r < 2 ^ 64 -> stack_ok st ->
  decodeSliceElems d fuel (MkStream r rem None st lim) = (inr xs, s') ->
  exists bss r', Forall2 R xs bss /\ r = concat bss ++ r' /\
    s' = MkStream r' (radv (len (concat bss)) rem lim) None (sadv (len (concat bss)) st) lim.
Proof.
  intros Hs Hd. revert r rem st xs s'. induction fuel as [|fuel IH]; intros r rem st xs s' Hr Hl Hst Hrun; [discriminate Hrun|].
  cbn [decodeSliceElems] in Hrun. destruct (d _) as [[e|a] s1] eqn:Hrd.
  - destruct (decide (e = EOL)) as [->|Hne]; [|destruct e; done].
    injection Hrun as <- <-. apply starts_eol_inv in Hrd as ->; [|done..]. exists [], r. cbn.
    change (Z.of_nat 0) with 0. by rewrite adv_0.
  - apply Hd in Hrd as (b1 & r1 & HR & -> & ->); [|done..].
    apply Forall_app in Hr as [_ Hr1]. rewrite length_app in Hl. unfold mbind, Dec_bind in Hrun.
    destruct (decodeSliceElems _ _ _) as [[e|l] s2] eqn:Hrec; [done|]. injection Hrun as <- <-.
    apply IH in Hrec as (bss & r2 & Hall & -> & ->); [|done|lia|by apply stack_ok_sadv].
    exists (b1 :: bss), r2. cbn. rewrite length_app, Nat2Z.inj_add, radv_radv, sadv_sadv, <- app_assoc.
    split_and!; [by constructor|done|done].
Qed.

Lemma canon_slice {A} (d : Dec A) R :
  starts d -> canon d R ->
  canon (decodeListSlice d) (fun xs bs =>
    exists bss, Forall2 R xs bss /\ len (concat bss) < 2 ^ 64 /\ bs = enc_list (concat bss)).
Proof.
  intros Hs Hd.
  assert (forall n, canon (if n =? 0 then mret [] else decodeElems d)
    (fun xs c => exists bss, Forall2 R xs bss /\ c = concat bss)) as Hbody.
  { intros n. case_match.
    - eapply canon_weaken; [apply canon_ret|]. intros xs bs [-> ->]. exists []. done.
    - intros r rem st lim xs s' Hr Hl Hst Hrun. unfold decodeElems in Hrun.
      apply (elems_inv d R) in Hrun as (bss & r' & Hall & -> & ->); [|done..].
      exists (concat bss), r'. split_and!; [by exists bss|done|done]. }
  intros r rem st lim xs s' Hr Hl Hst Hrun.
  destruct (openList (MkStream r rem None st lim)) as [[e|n] s1] eqn:Ho;
    unfold decodeListSlice, mbind, Dec_bind in Hrun; rewrite Ho in Hrun; [done|].
  destruct (canon_struct _ _ (Hbody n) r rem st lim xs s' Hr Hl Hst) as (bs & r' & HR & ? & ?).
  { unfold decodeStruct, mbind, Dec_bind. rewrite Ho. by destruct (n =? 0). }
  exists bs, r'. split; [|done]. destruct HR as (c & (bss & Hall & ->) & Hc & ->). by exists bss.
Qed.

(** * Nil pointers *)

Lemma reads_nil_None {A} (d : Dec A) : reads (decodeNilPtr List d) [0xC0] None.
Proof.
  apply (reads_kind _ (listAhead 0) []); [by apply listAhead_ok|done|].
  intros r rem st lim Hf. cbn [a_kind a_size listAhead].
  rewrite (bool_decide_eq_true_2 (List <> Byte)), (bool_decide_eq_false_2 (List <> List)) by naive_solver.
  unfold mbind, Dec_bind. cbn [andb]. change (0 =? 0) with true. cbv beta iota. by rewrite rearm_ok.
Qed.

Lemma reads_nil_Some {A} (d : Dec A) content x :
  starts d -> 0 < len content < 2 ^ 64 -> reads d (enc_list content) x ->
  reads (decodeNilPtr List d) (enc_list content) (Some x).
Proof.
  intros Hst Hl Hd r rem st lim Hf. unfold decodeNilPtr, mbind at 1, Dec_bind at 1.
  pose proof (kind_ok (listAhead (len content)) (content ++ r) rem st lim) as Hk.
  change (header (listAhead (len content))) with (puthead 0xC0 0xF7 (len content)) in Hk.
  specialize (Hk ltac:(apply listAhead_ok; lia)). rewrite length_puthead in Hk by lia.
  cbn [a_size listAhead] in Hk. rewrite <- length_enc_list in Hk by lia. specialize (Hk Hf).
  pose proof (Hd r rem st lim Hf) as Hrd. unfold enc_list at 1 in Hrd. rewrite <- app_assoc in Hrd.
  unfold enc_list at 1. rewrite <- app_assoc, Hk. cbn [a_kind a_size listAhead].
  destruct (Z.eqb_spec (len content) 0); [lia|]. rewrite andb_false_r. unfold mbind, Dec_bind.
  rewrite (starts_peek d _ (listAhead (len content)) _ _ _ _ Hst eq_refl Hk), Hrd. done.
Qed.

Lemma canon_nil {A} (d : Dec A) R :
  starts d -> canon d R ->
  canon (decodeNilPtr List d) (fun o bs =>
    match o with None => bs = [0xC0] | Some x => R x bs end).
Proof.
  intros Hs Hd r rem st lim o s' Hr Hl Hst. unfold decodeNilPtr, mbind at 1, Dec_bind at 1.
  destruct (kind _) as [[e|a] s1] eqn:Hk; [done|].
  pose proof Hk as Hk'. apply kind_inv in Hk' as (Ha & r1 & Heq & ->); [|done].
  destruct (_ && _) eqn:Hc.
  - apply andb_true_iff in Hc as [_ Hn%Z.eqb_eq].
    destruct (bool_decide (a_kind a <> List)) eqn:Hb; [intros H; discriminate H|].
    apply bool_decide_eq_false in Hb. destruct a as [k n bv e]. pose proof Ha as (He & _ & Hbv).
    cbn in He, Hbv, Hn, Hb. subst. intros H; injection H as <- <-.
    destruct k; [naive_solver..|]. by exists [0xC0], r1.
  - unfold mbind, Dec_bind. rewrite (starts_peek d _ a _ _ _ _ Hs ltac:(apply Ha) Hk).
    destruct (d _) as [[e|x] s2] eqn:Hrd; [done|]. intros H; injection H as <- <-.
    destruct (Hd _ _ _ _ _ _ Hr Hl Hst Hrd) as (bs & r' & HR & Hr' & ->). by exists bs, r'.
Qed.

Lemma reads_field {A} (d : Dec A) bs a : reads d bs a -> reads (field d) bs a.
Proof. intros Hd r rem st lim Hf. unfold field. by rewrite Hd. Qed.

Lemma canon_field {A} (d : Dec A) R : canon d R -> canon (field d) R.
Proof.
  intros Hd r rem st lim a s' Hr Hl Hst Hrun. eapply Hd; try done. unfold field in Hrun.
  destruct (d _) as [[e|x] s1]; [destruct e; done|done].
Qed.

Lemma never_field {A} (d : Dec A) : never EOL (field d).
Proof. intros s s'. unfold field. destruct (d s) as [[e|x] s1]; [destruct e; done|done]. Qed.

Lemma never_elems {A} (d : Dec A) fuel : never EOL (decodeSliceElems d fuel).
Proof.
  induction fuel as [|fuel IH]; intros s s'; cbn; [done|]. destruct (d s) as [[e|a] s1].
  - destruct (decide (e = EOL)) as [->|]; [done|]. destruct e; done.
  - apply never_bind; auto with rlp.
Qed.

Lemma never_decodeElems {A} (d : Dec A) : never EOL (decodeElems d).
Proof. intros s s'. apply never_elems. Qed.
#[export] Hint Resolve never_field never_decodeElems : rlp.

Lemma starts_struct {A} (body : Dec A) : never EOL body -> starts (decodeStruct body).
Proof. intros Hb. apply starts_bind; [apply starts_openList|]. auto 8 with rlp. Qed.

Lemma starts_slice {A} (d : Dec A) : starts (decodeListSlice d).
Proof. apply starts_bind; [apply starts_openList|]. intros n. case_match; auto 8 with rlp. Qed.

(** * Whole inputs *)

Lemma DecodeBytes_reads {A} (d : Dec A) bs a :
  reads d bs a -> 0 < len bs -> DecodeBytes d bs = inr a.
Proof.
  intros Hd Hl. unfold DecodeBytes, NewStream. destruct (Z.ltb_spec 0 (len bs)); [|lia].
  rewrite <- (app_nil_r bs) at 1. rewrite Hd by (split; [done|lia]). done.
Qed.

Lemma DecodeBytes_canon {A} (d : Dec A) R bs a :
  canon d R -> Forall is_byte bs -> len bs < 2 ^ 64 -> DecodeBytes d bs = inr a -> R a bs.
Proof.
  intros Hd Hb Hl Hrun. unfold DecodeBytes, NewStream in Hrun.
  destruct (d _) as [[e|x] s] eqn:Hrd; [done|].
  destruct (Hd _ _ _ _ _ _ Hb Hl ltac:(constructor) Hrd) as (c & r & HR & -> & ->). cbn in Hrun.
  destruct r; [|done]. rewrite app_nil_r. by injection Hrun as ->.
Qed.

Definition calm_ahead (ah : option Ahead) : Prop :=
  match ah with Some a => a_err a <> Some OutOfFuel /\ 0 <= a_size a < 2 ^ 64 | None => True end.

(** Streams over bytes, as every Go program can have them. *)
Definition good (s : Stream) : Prop :=
  Forall is_byte (s_r s) /\ len (s_r s) < 2 ^ 64 /\ stack_ok (s_stack s) /\ calm_ahead (s_ahead s).

Definition total {A} (d : Dec A) : Prop :=
  forall s, good s -> (d s).1 <> inl OutOfFuel /\ good (d s).2.

Lemma good_suffix n r rem rem' ah ah' st st' lim lim' :
  good (MkStream r rem ah st lim) -> stack_ok st' -> calm_ahead ah' ->
  good (MkStream (drop n r) rem' ah' st' lim').
Proof.
  intros (H1 & H2 & _) Hst Hah. split_and!; cbn in *; [by apply Forall_drop| |done|done].
  rewrite length_drop. lia.
Qed.

Lemma good_same r rem rem' ah ah' st st' lim lim' :
  good (MkStream r rem ah st lim) -> stack_ok st' -> calm_ahead ah' -> good (MkStream r rem' ah' st' lim').
Proof. apply (good_suffix 0). Qed.

Lemma total_ret {A} (a : A) : total (mret a).
Proof. by intros s Hs. Qed.

Lemma total_raise {A} e : e <> OutOfFuel -> total (raise (A := A) e).
Proof. intros He s Hs. split; [cbn; naive_solver|done]. Qed.

Lemma total_bind {A B} (d : Dec A) (f : A -> Dec B) :
  total d -> (forall a, total (f a)) -> total (d ≫= f).
Proof.
  intros Hd Hf s Hs. destruct (Hd s Hs) as [H1 H2]. unfold mbind, Dec_bind.
  destruct (d s) as [[e|a] s1]; cbn in *; [split; [naive_solver|done]|]. by apply Hf.
Qed.

Lemma total_willRead n : total (willRead n).
Proof.
  intros [r rem ah st lim] Hg. pose proof Hg as (_ & _ & Hst & _). cbn in Hst.
  assert (forall l st', stack_ok (l :: st') -> stack_ok (u64 (l - n) :: st')) as Hu.
  { intros l st' [_ ?]%Forall_cons. constructor; [apply u64_range|done]. }
  unfold willRead; cbn. repeat case_match; cbn; (split; [done|]); eapply good_same; try done; auto.
Qed.

Lemma total_readByte : total readByte.
Proof.
  apply total_bind; [apply total_willRead|]. intros _ [r rem ah st lim] Hg.
  unfold takeByte; cbn. destruct r as [|b r]; cbn; (split; [done|]); [done|].
  pose proof Hg as (_ & _ & Hst & Hah). by apply (good_suffix 1 (b :: r) rem rem ah ah st st lim lim).
Qed.

Lemma total_readFull n : total (readFull n).
Proof.
  apply total_bind; [apply total_willRead|]. intros _ [r rem ah st lim] Hg.
  unfold takeBytes; cbn. pose proof Hg as (_ & _ & Hst & Hah).
  case_match; cbn; (split; [done|]); by eapply good_suffix.
Qed.

Lemma total_rearm : total rearm.
Proof. intros [r rem ah st lim] Hg. split; [done|]. pose proof Hg as (_ & _ & Hst & _). by eapply good_same. Qed.

Create HintDb total.
#[export] Hint Resolve total_ret total_bind total_willRead total_readByte total_readFull total_rearm : total.
#[export] Hint Extern 1 (total (raise _)) => apply total_raise; discriminate : total.
#[export] Hint Extern 2 (total (if ?b then _ else _)) => destruct b : total.
#[export] Hint Extern 2 (total (match ?b with _ => _ end)) => destruct b : total.

Lemma total_readUint n : total (readUint n).
Proof. unfold readUint. auto 8 with total. Qed.
#[export] Hint Resolve total_readUint : total.

(** A size read from the input fits a uint64. *)
Lemma readKind_size s a s' :
  good s -> readKind s = (inr a, s') -> good s' /\ calm_ahead (Some a).
Proof.
  intros Hg Hrk. pose proof (readKind_err OutOfFuel (or_intror eq_refl) _ _ _ Hrk) as Hne.
  unfold readKind in Hrk. pose proof (total_readByte s Hg) as [_ H1].
  destruct (readByte s) as [[e|b] s1] eqn:Hb; cbn in H1; [by simplify_eq|].
  destruct s as [r rem ah st lim]. apply readByte_inv in Hb as (r' & -> & ->).
  destruct Hg as (Hbytes & _). apply Forall_cons in Hbytes as [[Hb0 Hb1] _].
  assert (forall k n, 1 <= n <= 8 ->
    readKind_long k n (MkStream r' (radv 1 rem lim) None (sadv 1 st) lim) = (inr a, s') ->
    good s' /\ calm_ahead (Some a)) as Hlong.
  { intros k n Hn Hr. unfold readKind_long in Hr. pose proof (total_readUint n _ H1) as [_ H2].
    destruct (readUint n _) as [[e|v] s2] eqn:Hu; cbn in H2; simplify_eq; [done|].
    pose proof H1 as (Hr' & _). apply readUint_inv in Hu as (bs & r2 & Heq & Hlen & Hv & _ & _); [|done..].
    cbn in Hr'. rewrite Heq in Hr'. apply Forall_app in Hr' as [Hbs _]. pose proof (be_value_range bs Hbs).
    assert (256 ^ len bs <= 256 ^ 8) by (apply Z.pow_le_mono_r; lia). split; [done|split; [done|cbn; lia]]. }
  destruct (Z.ltb_spec b 0x80); [simplify_eq; done|].
  destruct (Z.ltb_spec b 0xB8); [simplify_eq; split; [done|split; [done|cbn; lia]]|].
  destruct (Z.ltb_spec b 0xC0); [eapply Hlong; [|done]; lia|].
  destruct (Z.ltb_spec b 0xF8); [simplify_eq; split; [done|split; [done|cbn; lia]]|].
  eapply Hlong; [|done]; lia.
Qed.

Lemma kind_calm s : good s -> (kind s).1 <> inl OutOfFuel /\ good (kind s).2 /\
  (forall a, (kind s).1 = inr a -> 0 <= a_size a < 2 ^ 64).
Proof.
  intros Hg. unfold kind. destruct (s_ahead s) as [a|] eqn:Hah.
  - pose proof Hg as (_ & _ & _ & Hc). rewrite Hah in Hc. destruct Hc as [Hc1 Hc2].
    unfold getAhead. destruct (a_err a) as [e|]; cbn; split_and!; try done; naive_solver.
  - assert (forall (tl : Ahead -> bool), let r :=
      match readKind s with
      | (inl e, s') => (inl e, s')
      | (inr a, s') =>
          let err := match a_err a with Some e => Some e | None =>
              if tl a then Some ErrElemTooLarge
              else if s_limited s' && (s_remaining s' <? a_size a) then Some ErrValueTooLarge else None end in
          let a := MkAhead (a_kind a) (a_size a) (a_byteval a) err in
          getAhead a (MkStream (s_r s') (s_remaining s') (Some a) (s_stack s') (s_limited s'))
      end in r.1 <> inl OutOfFuel /\ good r.2 /\ (forall a, r.1 = inr a -> 0 <= a_size a < 2 ^ 64)) as Hread.
    { intros tl. destruct (readKind s) as [[e|a] s1] eqn:Hrk; [by destruct (readKind_no_error _ _ _ Hrk)|].
      destruct (readKind_size _ _ _ Hg Hrk) as [(G1 & G2 & G3 & _) [Hne Hsz]]. cbn zeta.
      set (err := match a_err a with Some e => Some e | None => _ end).
      assert (err <> Some OutOfFuel) as He.
      { unfold err. destruct (a_err a); [done|]. by repeat case_match. }
      unfold getAhead; cbn. destruct err as [e|]; cbn; split_and!; try done; naive_solver. }
    destruct (s_stack s) as [|[|l|l] st]; [apply (Hread (fun _ => false))| |
      apply (Hread (fun a => Z.pos l <? a_size a))|apply (Hread (fun a => Z.neg l <? a_size a))].
    by cbn.
Qed.

Lemma total_kind {A} (f : Ahead -> Dec A) :
  (forall a, 0 <= a_size a < 2 ^ 64 -> total (f a)) -> total (kind ≫= f).
Proof.
  intros Hf s Hs. destruct (kind_calm s Hs) as (H1 & H2 & H3). unfold mbind, Dec_bind.
  destruct (kind s) as [[e|a] s1]; cbn in *; [split; [naive_solver|done]|]. apply Hf; auto.
Qed.

Lemma total_Bytes : total Bytes.
Proof. apply total_kind. auto 8 with total. Qed.

Lemma total_uintString n : total (uintString n).
Proof.
  intros s Hs. destruct (total_readUint n s Hs) as [H1 H2]. unfold uintString.
  destruct (readUint n s) as [[e|v] s1]; cbn in *; [destruct e; done|by case_match].
Qed.

Lemma total_uint bits : total (uint_ bits).
Proof. apply total_kind. intros a _. pose proof (total_uintString (a_size a)). auto 8 with total. Qed.

Lemma total_BigInt : total BigInt.
Proof. apply total_kind. intros a _. unfold setBytes. auto 9 with total. Qed.

Lemma total_ByteArray n : total (ByteArray n).
Proof. apply total_kind. auto 9 with total. Qed.

(** Opening a list leaves no header ahead. *)
Lemma total_openList {A} (f : Z -> Dec A) :
  (forall n s, good s -> s_ahead s = None -> (f n s).1 <> inl OutOfFuel /\ good (f n s).2) ->
  total (openList ≫= f).
Proof.
  intros Hf s Hs. destruct (kind_calm s Hs) as (H1 & H2 & H3). unfold openList, mbind, Dec_bind.
  destruct (kind s) as [[e|a] s1]; cbn in *; [split; [naive_solver|done]|].
  specialize (H3 a eq_refl). destruct (a_kind a); [done..|]. unfold pushList; cbn.
  apply Hf; [|done]. destruct H2 as (G1 & G2 & G3 & _). split_and!; cbn; try done.
  constructor; [done|]. destruct (s_stack s1) as [|l st]; [done|].
  apply Forall_cons in G3 as [_ G3]. constructor; [apply u64_range|done].
Qed.

Lemma total_ListEnd : total ListEnd.
Proof.
  intros s (G1 & G2 & G3 & G4). unfold ListEnd. destruct (s_stack s) as [|l st] eqn:Hst; cbn.
  - split; [done|]. split_and!; try done. by rewrite Hst.
  - case_match; cbn; (split; [done|]); split_and!; cbn; try done; [by rewrite Hst|].
    by apply Forall_cons in G3 as [_ G3].
Qed.
#[export] Hint Resolve total_ListEnd : total.

Lemma total_field {A} (d : Dec A) : total d -> total (field d).
Proof.
  intros Hd s Hs. destruct (Hd s Hs) as [H1 H2]. unfold field.
  destruct (d s) as [[e|a] s1]; cbn in *; [destruct e; done|done].
Qed.

Lemma total_struct {A} (body : Dec A) : total body -> total (decodeStruct body).
Proof.
  intros Hb. apply total_openList. intros n s Hs _. revert s Hs.
  change (total (a ← body; _ ← ListEnd; mret a)). auto with total.
Qed.

Lemma total_elems {A} (d : Dec A) R fuel s :
  starts d -> total d -> canon d R -> (forall a bs, R a bs -> bs <> []) ->
  good s -> s_ahead s = None -> (length (s_r s) < fuel)%nat ->
  (decodeSliceElems d fuel s).1 <> inl OutOfFuel /\ good (decodeSliceElems d fuel s).2.
Proof.
  intros Hst Htot Hcan Hne. revert s. induction fuel as [|fuel IH]; intros s Hs Hah Hfuel; [lia|].
  destruct (Htot s Hs) as [H1 H2]. cbn [decodeSliceElems]. destruct (d s) as [[e|a] s1] eqn:Hd; cbn in *.
  - destruct e; done.
  - destruct s as [r rem ah st lim]. cbn in *. subst ah. destruct Hs as (G1 & G2 & G3 & _). cbn in *.
    apply Hcan in Hd as (bs & r' & HR & -> & ->); [|done..]. apply Hne in HR.
    assert (length r' < fuel)%nat as Hlt.
    { rewrite length_app in Hfuel. destruct bs; [done|cbn in Hfuel; lia]. }
    destruct (IH _ H2 eq_refl Hlt) as [H3 H4]. unfold mbind, Dec_bind.
    destruct (decodeSliceElems _ _ _) as [[e|l] s2]; cbn in *; [split; [naive_solver|done]|done].
Qed.

Lemma total_slice {A} (d : Dec A) R :
  starts d -> total d -> canon d R -> (forall a bs, R a bs -> bs <> []) -> total (decodeListSlice d).
Proof.
  intros Hst Htot Hcan Hne. apply total_openList. intros n s Hs Hah.
  destruct (n =? 0).
  - revert s Hs Hah. intros s Hs _. revert s Hs. change (total (_ ← ListEnd; mret (@nil A))). auto with total.
  - destruct (total_elems d R (S (length (s_r s))) s Hst Htot Hcan Hne Hs Hah ltac:(lia)) as [H1 H2].
    unfold mbind, Dec_bind, decodeElems.
    destruct (decodeSliceElems _ _ _) as [[e|l] s1]; cbn in *; [split; [naive_solver|done]|].
    apply (total_bind ListEnd (fun _ => mret l)); auto with total.
Qed.

Lemma total_nil {A} nk (d : Dec A) : total d -> total (decodeNilPtr nk d).
Proof. intros Hd. apply total_kind. auto 8 with total. Qed.

Lemma DecodeBytes_total {A} (d : Dec A) b :
  total d -> Forall is_byte b -> len b < 2 ^ 64 -> DecodeBytes d b <> inl OutOfFuel.
Proof.
  intros Hd Hb Hl. destruct (Hd (NewStream b (len b))) as [H1 _].
  { split_and!; cbn; [done|done|constructor|done]. }
  unfold DecodeBytes. destruct (d _) as [[e|a] s]; cbn in *; [naive_solver|]. by destruct (s_r s).
Qed.
