(* ===== verification/Extra.v ===== *)
(** The consensus data of a block header (src/core/types/istanbul.go): the
    bitmap of sealers, aggregated seals, the epoch information and the header's
    extra-data, with their RLP forms. *)
From S2P Require Import Prelude Rlp RlpStream RlpSpec RlpLists.

(** * SealerSet *)

(** A bitmap over validator indices, a byte slice. *)
Abbreviation SealerSet := (list Z) (only parsing).

(** [SetSealer]: the slice grows with zero bytes when the index is behind its
    end. *)
Definition SetSealer (s : SealerSet) (index : Z) : SealerSet :=
  let byteIndex := Z.to_nat (index / 8) in
  let s := if (length s <=? byteIndex)%nat then s ++ replicate (byteIndex + 1 - length s) 0 else s in
  alter (fun b => Z.lor b (u8 (Z.shiftl 1 (index mod 8)))) byteIndex s.

(** [ClearSealer] writes through the slice. *)
Definition ClearSealer (s : SealerSet) (index : Z) : SealerSet :=
  let byteIndex := Z.to_nat (index / 8) in
  if (byteIndex <? length s)%nat then
    alter (fun b => Z.ldiff b (u8 (Z.shiftl 1 (index mod 8)))) byteIndex s
  else s.

Definition IsSealer (s : SealerSet) (index : Z) : bool :=
  let byteIndex := Z.to_nat (index / 8) in
  if (length s <=? byteIndex)%nat then false
  else negb (Z.land (s !!! byteIndex) (u8 (Z.shiftl 1 (index mod 8))) =? 0).

(** The two loops of [GetSealers]. *)
Definition byteSealers (byteIndex : nat) (b : Z) : list Z :=
  List.flat_map (fun bitOffset =>
    if negb (Z.land b (Z.shiftl 1 (Z.of_nat bitOffset)) =? 0)
    then [u32 (Z.of_nat byteIndex * 8 + Z.of_nat bitOffset)] else [])
    (seq 0 8).
Definition GetSealers (s : SealerSet) : list Z := concat (imap byteSealers s).

(** * Seals, epochs, extra-data *)

Record WBFTAggregatedSeal := AggregatedSeal { as_Sealers : SealerSet; as_Signature : list Z }.

Record Candidate := MkCandidate { cd_Addr : Address; cd_Diligence : Z }.

Record EpochInfo := MkEpochInfo {
  ei_Candidates : list Candidate;
  ei_Validators : list Z;         (** indices into the candidate list *)
  ei_BLSPublicKeys : list (list Z);
}.

Record WBFTExtra := MkExtra {
  we_VanityData : list Z;
  we_RandaoReveal : list Z;
  we_PrevRound : Z;
  we_PrevPreparedSeal : option WBFTAggregatedSeal;
  we_PrevCommittedSeal : option WBFTAggregatedSeal;
  we_Round : Z;
  we_PreparedSeal : option WBFTAggregatedSeal;
  we_CommittedSeal : option WBFTAggregatedSeal;
  we_GasTip : option Z;
  we_EpochInfo : option EpochInfo;
}.

#[global] Instance AggregatedSeal_eq_dec : EqDecision WBFTAggregatedSeal.
Proof. solve_decision. Defined.
#[global] Instance Candidate_eq_dec : EqDecision Candidate.
Proof. solve_decision. Defined.
#[global] Instance EpochInfo_eq_dec : EqDecision EpochInfo.
Proof. solve_decision. Defined.
#[global] Instance WBFTExtra_eq_dec : EqDecision WBFTExtra.
Proof. solve_decision. Defined.

Definition DiligenceDenominator : Z := 1000000.
Definition DefaultDiligence : Z := u64 (2 * DiligenceDenominator * 95) / 100.
Definition IstanbulExtraVanity : Z := 32.
Definition IstanbulExtraSeal : Z := 96.
Definition WBFTDefaultDifficulty : Z := 1.

(** * Epoch accessors

    The receiver may be nil, except where the source dereferences it. *)

Definition GetCandidates (ei : option EpochInfo) : list Address :=
  match ei with None => [] | Some ei => map cd_Addr (ei_Candidates ei) end.

Fixpoint findCandidate (addr : Address) (i : Z) (cs : list Candidate) : Z * option Candidate :=
  match cs with
  | [] => (u32 i, None)
  | candi :: cs => if cd_Addr candi =? addr then (u32 i, Some candi) else findCandidate addr (i + 1) cs
  end.
Definition FindValidatorByAddress (ei : option EpochInfo) (addr : Address) : Z * option Candidate :=
  match ei with None => (0, None) | Some ei => findCandidate addr 0 (ei_Candidates ei) end.

Definition GetCandidate (ei : option EpochInfo) (index : Z) : Address :=
  match ei with
  | None => zeroAddress
  | Some ei =>
      if Z.of_nat (length (ei_Candidates ei)) <=? index then zeroAddress
      else match ei_Candidates ei !! Z.to_nat index with
           | Some candi => cd_Addr candi
           | None => zeroAddress
           end
  end.

Definition epoch_GetValidators (ei : option EpochInfo) : list Address :=
  match ei with None => [] | Some e => map (GetCandidate ei) (ei_Validators e) end.

Definition GetValidatorIndexMap (ei : EpochInfo) : gmap Address Z :=
  fold_left (fun m idx => <[GetCandidate (Some ei) idx := idx]> m) (ei_Validators ei) ∅.

(** * RLP *)

(** [common.Address] is an array of 20 bytes. *)
Definition addressBytes (a : Address) : list Z := be_bytes 20 a.

Definition seal_val (s : WBFTAggregatedSeal) : val :=
  VList [VBytes (as_Sealers s); VBytes (as_Signature s)].

Definition candidate_val (c : Candidate) : val :=
  VList [VByteArray (addressBytes (cd_Addr c)); VUint (cd_Diligence c)].

Definition epoch_val (e : EpochInfo) : val :=
  VList [ VList (map candidate_val (ei_Candidates e));
          VList (map VUint (ei_Validators e));
          VList (map VBytes (ei_BLSPublicKeys e)) ].

(** A nil pointer to a struct is written as an empty list. *)
Definition ptr_val {A} (f : A -> val) (p : option A) : val :=
  match p with Some x => f x | None => VNilPtr 0xC0 end.

Definition extra_val (x : WBFTExtra) : val :=
  VList [ VBytes (we_VanityData x);
          VBytes (we_RandaoReveal x);
          VUint (we_PrevRound x);
          ptr_val seal_val (we_PrevPreparedSeal x);
          ptr_val seal_val (we_PrevCommittedSeal x);
          VUint (we_Round x);
          ptr_val seal_val (we_PreparedSeal x);
          ptr_val seal_val (we_CommittedSeal x);
          VBigIntPtr (we_GasTip x);
          ptr_val epoch_val (we_EpochInfo x) ].

Definition decodeSeal : Dec WBFTAggregatedSeal :=
  decodeStruct
    (sealers ← field Bytes;
     signature ← field Bytes;
     mret (AggregatedSeal sealers signature)).

Definition decodeCandidate : Dec Candidate :=
  decodeStruct
    (addr ← field (ByteArray 20);
     diligence ← field (uint_ 64);
     mret (MkCandidate (be_value addr) diligence)).

Definition decodeEpochInfo : Dec EpochInfo :=
  decodeStruct
    (candidates ← field (decodeListSlice decodeCandidate);
     validators ← field (decodeListSlice (uint_ 32));
     keys ← field (decodeListSlice Bytes);
     mret (MkEpochInfo candidates validators keys)).

(** The struct of [WBFTExtra.DecodeRLP].  The nil tag of [GasTip] has no effect:
    [makeDecoder] selects the decoder of [*big.Int] before it looks at tags. *)
Definition decodeExtra : Dec WBFTExtra :=
  decodeStruct
    (vanity ← field Bytes;
     reveal ← field Bytes;
     prevRound ← field (uint_ 32);
     prevPrepared ← field (decodeNilPtr List decodeSeal);
     prevCommitted ← field (decodeNilPtr List decodeSeal);
     round ← field (uint_ 32);
     prepared ← field (decodeNilPtr List decodeSeal);
     committed ← field (decodeNilPtr List decodeSeal);
     gasTip ← field BigInt;
     epoch ← field (decodeNilPtr List decodeEpochInfo);
     mret (MkExtra vanity reveal prevRound prevPrepared prevCommitted round prepared committed (Some gasTip) epoch)).

(** [rlp.DecodeBytes] of a header's extra-data. *)
Definition ExtractExtra (b : list Z) : RlpError + WBFTExtra := DecodeBytes decodeExtra b.
Definition EncodeExtra (x : WBFTExtra) : RlpError + list Z := EncodeToBytes (extra_val x).
