(* ===== verification/ChainConfig.v ===== *)
(** Chain configuration (src/params/config.go, config_wbft.go,
    protocol_params.go), the genesis epoch (src/consensus/wbft/config.go) and the
    hexadecimal strings it is read from (src/common/hexutil/hexutil.go). *)
From S2P Require Import Prelude Validators Rlp RlpStream Extra Config.

(** * Hexadecimal strings *)

Inductive HexError := ErrEmptyString | ErrMissingPrefix | ErrSyntax | ErrOddLength.

Definition has0xPrefix (input : str) : bool :=
  match input with
  | c0 :: c1 :: _ => (c0 =? 48) && ((c1 =? 120) || (c1 =? 88))
  | _ => false
  end.

(** Digits 0-9, a-f, A-F. *)
Definition fromHexChar (c : Z) : option Z :=
  if (48 <=? c) && (c <=? 57) then Some (c - 48)
  else if (97 <=? c) && (c <=? 102) then Some (c - 97 + 10)
  else if (65 <=? c) && (c <=? 70) then Some (c - 65 + 10)
  else None.

(** [hex.DecodeString]: pairs of digits; a character that is no digit is reported
    before an odd length. *)
Fixpoint hexDecodeString (s : str) : HexError + bytes :=
  match s with
  | [] => inr []
  | [c] => match fromHexChar c with Some _ => inl ErrOddLength | None => inl ErrSyntax end
  | c :: d :: s' =>
      match fromHexChar c, fromHexChar d with
      | Some a, Some b =>
          match hexDecodeString s' with inr bs => inr (a * 16 + b :: bs) | inl e => inl e end
      | _, _ => inl ErrSyntax
      end
  end.

Definition Decode (input : str) : HexError + bytes :=
  if Z.of_nat (length input) =? 0 then inl ErrEmptyString
  else if negb (has0xPrefix input) then inl ErrMissingPrefix
  else hexDecodeString (drop 2 input).

(** [MustDecode] panics for invalid input. *)
Definition MustDecode (input : str) : option bytes :=
  match Decode input with inr b => Some b | inl _ => None end.

Definition hexDigit (d : Z) : Z := if d <? 10 then 48 + d else 87 + d.
Definition Encode (b : bytes) : str :=
  48 :: 120 :: flat_map (fun x => [hexDigit (Z.shiftr x 4); hexDigit (Z.land x 15)]) b.

(** * Chain configuration *)

Record AnzeonConfig := mkAnzeon {
  init_Validators : list Address;
  init_BLSPublicKeys : list str;
  SystemContracts_ : option SystemContracts;
}.

(** [params.ChainConfig]: chain, forks and upgrades.  Forks after London are
    scheduled by time. *)
Record ChainConfig := mkChainConfig {
  ChainID : option Z;
  HomesteadBlock : option Z;
  DAOForkBlock : option Z;
  DAOForkSupport : bool;
  EIP150Block : option Z;
  EIP155Block : option Z;
  EIP158Block : option Z;
  ByzantiumBlock : option Z;
  ConstantinopleBlock : option Z;
  PetersburgBlock : option Z;
  IstanbulBlock : option Z;
  MuirGlacierBlock : option Z;
  BerlinBlock : option Z;
  LondonBlock : option Z;
  ArrowGlacierBlock : option Z;
  GrayGlacierBlock : option Z;
  MergeNetsplitBlock : option Z;
  ApplepieBlock : option Z;
  BohoBlock : option Z;
  ShanghaiTime : option Z;
  CancunTime : option Z;
  PragueTime : option Z;
  VerkleTime : option Z;
  Anzeon : option AnzeonConfig;
  Boho : option AnzeonConfig;
}.

(** A chain with every fork up to London, Applepie and Anzeon from the first
    block on. *)
Definition londonConfig (chainID : Z) (anzeon : option AnzeonConfig) : ChainConfig :=
  mkChainConfig (Some chainID) (Some 0) None false (Some 0) (Some 0) (Some 0) (Some 0) (Some 0) (Some 0) (Some 0) None
    (Some 0) (Some 0) None None None (Some 0) None None None None None anzeon None.

Definition isBlockForked (s head : option Z) : bool :=
  match s, head with Some s, Some head => s <=? head | _, _ => false end.
Definition isTimestampForked (s : option Z) (head : Z) : bool :=
  match s with Some s => s <=? head | None => false end.

Definition IsLondon (c : ChainConfig) (num : option Z) : bool := isBlockForked (LondonBlock c) num.
Definition IsHomestead (c : ChainConfig) (num : option Z) : bool := isBlockForked (HomesteadBlock c) num.
Definition IsDAOFork (c : ChainConfig) (num : option Z) : bool := isBlockForked (DAOForkBlock c) num.
Definition IsEIP150 (c : ChainConfig) (num : option Z) : bool := isBlockForked (EIP150Block c) num.
Definition IsEIP155 (c : ChainConfig) (num : option Z) : bool := isBlockForked (EIP155Block c) num.
Definition IsEIP158 (c : ChainConfig) (num : option Z) : bool := isBlockForked (EIP158Block c) num.
Definition IsByzantium (c : ChainConfig) (num : option Z) : bool := isBlockForked (ByzantiumBlock c) num.
Definition IsConstantinople (c : ChainConfig) (num : option Z) : bool := isBlockForked (ConstantinopleBlock c) num.
Definition IsMuirGlacier (c : ChainConfig) (num : option Z) : bool := isBlockForked (MuirGlacierBlock c) num.

(** Without a block of its own, Petersburg comes with Constantinople. *)
Definition IsPetersburg (c : ChainConfig) (num : option Z) : bool :=
  isBlockForked (PetersburgBlock c) num || bool_decide (PetersburgBlock c = None) && isBlockForked (ConstantinopleBlock c) num.
Definition IsIstanbul (c : ChainConfig) (num : option Z) : bool := isBlockForked (IstanbulBlock c) num.
Definition IsBerlin (c : ChainConfig) (num : option Z) : bool := isBlockForked (BerlinBlock c) num.
Definition IsApplepie (c : ChainConfig) (num : option Z) : bool := isBlockForked (ApplepieBlock c) num.
Definition IsBoho (c : ChainConfig) (num : option Z) : bool := isBlockForked (BohoBlock c) num.
Definition IsArrowGlacier (c : ChainConfig) (num : option Z) : bool := isBlockForked (ArrowGlacierBlock c) num.
Definition IsGrayGlacier (c : ChainConfig) (num : option Z) : bool := isBlockForked (GrayGlacierBlock c) num.
Definition IsShanghai (c : ChainConfig) (num : option Z) (time : Z) : bool :=
  IsLondon c num && isTimestampForked (ShanghaiTime c) time.
Definition IsCancun (c : ChainConfig) (num : option Z) (time : Z) : bool :=
  IsLondon c num && isTimestampForked (CancunTime c) time.
Definition IsPrague (c : ChainConfig) (num : option Z) (time : Z) : bool :=
  IsLondon c num && isTimestampForked (PragueTime c) time.
Definition IsVerkle (c : ChainConfig) (num : option Z) (time : Z) : bool :=
  IsLondon c num && isTimestampForked (VerkleTime c) time.
Definition AnzeonEnabled (c : ChainConfig) : bool := bool_decide (Anzeon c <> None).

Definition GasLimitBoundDivisor : Z := 1024.
Definition MinGasLimit : Z := 5000.
Definition MaxGasLimit : Z := 0x7fffffffffffffff.
Definition BaseFeeChangeDenominator : Z := 8.
Definition ElasticityMultiplier : Z := 2.
Definition InitialBaseFee : Z := 1000000000.
Definition IncreasingThreshold : Z := 20.
Definition DecreasingThreshold : Z := 6.
Definition BaseFeeChangeRate : Z := 2.
Definition MinBaseFee : Z := 20000000000000.
Definition MaxBaseFee : Z := 20000000000000000.
Definition InitialGasTip : Z := 27600000000000.

(** * The genesis epoch *)

(** [GetInitialBLSPublicKeys]; [None] is the panic of [MustDecode]. *)
Definition GetInitialBLSPublicKeys (c : AnzeonConfig) : option (list bytes) := mapM MustDecode (init_BLSPublicKeys c).

(** The loop of [CreateInitialEpochInfo]: candidate [i] is validator [i]. *)
Fixpoint initialEpoch_from (i : Z) (candidates : list Address) (keys : list str) (info : EpochInfo) : option EpochInfo :=
  match candidates with
  | [] => Some info
  | addr :: candidates =>
      key ← keys !! Z.to_nat i;
      pk ← MustDecode key;
      initialEpoch_from (i + 1) candidates keys
        (MkEpochInfo (ei_Candidates info ++ [MkCandidate addr DefaultDiligence])
           (ei_Validators info ++ [u32 i]) (ei_BLSPublicKeys info ++ [pk]))
  end.
Definition CreateInitialEpochInfo (config : AnzeonConfig) : option EpochInfo :=
  initialEpoch_from 0 (init_Validators config) (init_BLSPublicKeys config) (MkEpochInfo [] [] []).
