(* ===== verification/Forks.v ===== *)
(** Fork schedules (src/params/config.go): the rules of a block, the order of forks
    and the compatibility of a stored schedule with a new one; what
    [SetupGenesisBlock] of src/core/genesis.go does with a conflict. *)
From S2P Require Import Prelude Validators Config ChainConfig.

(** * Rules *)

Record Rules := mkRules {
  r_ChainID : Z;
  r_IsHomestead : bool; r_IsEIP150 : bool; r_IsEIP155 : bool; r_IsEIP158 : bool; r_IsByzantium : bool;
  r_IsConstantinople : bool; r_IsPetersburg : bool; r_IsIstanbul : bool; r_IsBerlin : bool; r_IsLondon : bool;
  r_IsApplepie : bool; r_IsAnzeon : bool; r_IsBoho : bool;
  r_IsMerge : bool; r_IsShanghai : bool; r_IsCancun : bool; r_IsPrague : bool; r_IsVerkle : bool;
}.

(** [ChainConfig.Rules]. *)
Definition config_Rules (c : ChainConfig) (num : option Z) (isMerge : bool) (timestamp : Z) : Rules :=
  let chainID := default 0 (ChainID c) in
  let isMerge := isMerge && IsLondon c num in
  let isAnzeon := AnzeonEnabled c in
  mkRules chainID (IsHomestead c num) (IsEIP150 c num) (IsEIP155 c num) (IsEIP158 c num) (IsByzantium c num)
    (IsConstantinople c num) (IsPetersburg c num) (IsIstanbul c num) (IsBerlin c num) (IsLondon c num)
    (IsApplepie c num) isAnzeon (isAnzeon && IsBoho c num)
    isMerge (isMerge && IsShanghai c num timestamp) (isMerge && IsCancun c num timestamp)
    (isMerge && IsPrague c num timestamp) (isMerge && IsVerkle c num timestamp).

Inductive Fork := Paris | Shanghai | Cancun | Prague.

Definition LatestFork (c : ChainConfig) (time : Z) : Fork :=
  let london := LondonBlock c in
  if IsPrague c london time then Prague
  else if IsCancun c london time then Cancun
  else if IsShanghai c london time then Shanghai
  else Paris.

(** * Upgrades *)

Record Upgrade := mkUpgrade { up_Block : Z; up_SystemContracts : SystemContracts }.

Definition CollectUpgrades (c : ChainConfig) : list Upgrade :=
  match BohoBlock c, Boho c with
  | Some block, Some boho => match SystemContracts_ boho with Some contracts => [mkUpgrade block contracts] | None => [] end
  | _, _ => []
  end.

(** * The order of forks *)

Record fork := mkFork { f_block : option Z; f_timestamp : option Z; f_optional : bool }.

Definition forks (c : ChainConfig) : list fork :=
  [ mkFork (HomesteadBlock c) None false;
    mkFork (DAOForkBlock c) None true;
    mkFork (EIP150Block c) None false;
    mkFork (EIP155Block c) None false;
    mkFork (EIP158Block c) None false;
    mkFork (ByzantiumBlock c) None false;
    mkFork (ConstantinopleBlock c) None false;
    mkFork (PetersburgBlock c) None false;
    mkFork (IstanbulBlock c) None false;
    mkFork (MuirGlacierBlock c) None true;
    mkFork (BerlinBlock c) None false;
    mkFork (LondonBlock c) None false;
    mkFork (ArrowGlacierBlock c) None true;
    mkFork (GrayGlacierBlock c) None true;
    mkFork (ApplepieBlock c) None true;
    mkFork (BohoBlock c) None true;
    mkFork (MergeNetsplitBlock c) None true;
    mkFork None (ShanghaiTime c) true;
    mkFork None (CancunTime c) true;
    mkFork None (PragueTime c) true;
    mkFork None (VerkleTime c) true ].

Definition scheduled (f : fork) : bool := bool_decide (f_block f <> None) || bool_decide (f_timestamp f <> None).

Definition isSet (x : option Z) : bool := bool_decide (x <> None).
Definition later (x y : option Z) : bool := match x, y with Some x, Some y => y <? x | _, _ => false end.

(** The test of [cur] against the last fork; [true] for no error. *)
Definition follows (lastFork cur : fork) : bool :=
  if negb (scheduled lastFork) && scheduled cur then false
  else if isSet (f_block lastFork) && isSet (f_block cur) || isSet (f_timestamp lastFork) && isSet (f_timestamp cur) then
    if later (f_block lastFork) (f_block cur) then false
    else if later (f_timestamp lastFork) (f_timestamp cur) then false
    else negb (isSet (f_timestamp lastFork) && isSet (f_block cur))
  else true.

(** The loop of [CheckConfigForkOrder]; no fork comes before the first one. *)
Fixpoint checkForks (lastFork : option fork) (fs : list fork) : bool :=
  match fs with
  | [] => true
  | cur :: fs =>
      match lastFork with Some l => follows l cur | None => true end &&
      checkForks (if negb (f_optional cur) || scheduled cur then Some cur else lastFork) fs
  end.
Definition CheckConfigForkOrder (c : ChainConfig) : bool := checkForks None (forks c).

(** * Compatibility *)

Definition configBlockEqual (x y : option Z) : bool :=
  match x, y with Some x, Some y => x =? y | None, None => true | _, _ => false end.
Definition configTimestampEqual (x y : option Z) : bool :=
  match x, y with Some x, Some y => x =? y | None, None => true | _, _ => false end.

Definition isForkBlockIncompatible (s1 s2 head : option Z) : bool :=
  (isBlockForked s1 head || isBlockForked s2 head) && negb (configBlockEqual s1 s2).
Definition isForkTimestampIncompatible (s1 s2 : option Z) (head : Z) : bool :=
  (isTimestampForked s1 head || isTimestampForked s2 head) && negb (configTimestampEqual s1 s2).
Definition isForkAnzeonIncompatible (s1 s2 : option AnzeonConfig) : bool :=
  negb (bool_decide (bool_decide (s1 = None) = bool_decide (s2 = None))).

(** [ConfigCompatError], without its text. *)
Record ConfigCompatError := mkCompatError {
  StoredBlock : option Z; NewBlock : option Z; StoredTime : option Z; NewTime : option Z;
  RewindToBlock : Z; RewindToTime : Z;
}.

Definition newBlockCompatError (storedblock newblock : option Z) : ConfigCompatError :=
  let rew :=
    match storedblock, newblock with
    | None, _ => newblock
    | Some s, None => storedblock
    | Some s, Some n => if s <? n then storedblock else newblock
    end in
  mkCompatError storedblock newblock None None
    (match rew with Some r => if 0 <? r then u64 (u64 r - 1) else 0 | None => 0 end) 0.

(** The subtraction is one of 64 bits. *)
Definition newTimestampCompatError (storedtime newtime : option Z) : ConfigCompatError :=
  let rew :=
    match storedtime, newtime with
    | None, _ => newtime
    | Some s, None => storedtime
    | Some s, Some n => if s <? n then storedtime else newtime
    end in
  mkCompatError None None storedtime newtime 0 (match rew with Some r => u64 (r - 1) | None => 0 end).

Definition newAnzeonCompatError : ConfigCompatError := mkCompatError None None None None 0 0.

Section compatible.
Variables c newcfg : ChainConfig.

Definition blockCheck (s1 s2 : option Z) (headNumber headTimestamp : Z) : bool := isForkBlockIncompatible s1 s2 (Some headNumber).
Definition timeCheck (s1 s2 : option Z) (headNumber headTimestamp : Z) : bool := isForkTimestampIncompatible s1 s2 headTimestamp.

(** The conditions of [checkCompatible] in their order, each with its error. *)
Definition checks : list ((Z -> Z -> bool) * ConfigCompatError) :=
  let block (f : ChainConfig -> option Z) := (blockCheck (f c) (f newcfg), newBlockCompatError (f c) (f newcfg)) in
  let time (f : ChainConfig -> option Z) := (timeCheck (f c) (f newcfg), newTimestampCompatError (f c) (f newcfg)) in
  [ block HomesteadBlock;
    block DAOForkBlock;
    (fun n _ => IsDAOFork c (Some n) && negb (Bool.eqb (DAOForkSupport c) (DAOForkSupport newcfg)),
     newBlockCompatError (DAOForkBlock c) (DAOForkBlock newcfg));
    block EIP150Block;
    block EIP155Block;
    block EIP158Block;
    (fun n _ => IsEIP158 c (Some n) && negb (configBlockEqual (ChainID c) (ChainID newcfg)),
     newBlockCompatError (EIP158Block c) (EIP158Block newcfg));
    block ByzantiumBlock;
    block ConstantinopleBlock;
    (fun n _ => isForkBlockIncompatible (PetersburgBlock c) (PetersburgBlock newcfg) (Some n) &&
                isForkBlockIncompatible (ConstantinopleBlock c) (PetersburgBlock newcfg) (Some n),
     newBlockCompatError (PetersburgBlock c) (PetersburgBlock newcfg));
    block IstanbulBlock;
    block MuirGlacierBlock;
    block BerlinBlock;
    block LondonBlock;
    block ArrowGlacierBlock;
    block GrayGlacierBlock;
    block ApplepieBlock;
    block BohoBlock;
    block MergeNetsplitBlock;
    time ShanghaiTime;
    time CancunTime;
    time PragueTime;
    time VerkleTime;
    (fun _ _ => isForkAnzeonIncompatible (Anzeon c) (Anzeon newcfg), newAnzeonCompatError) ].

Definition checkCompatible (headNumber headTimestamp : Z) : option ConfigCompatError :=
  snd <$> List.find (fun check => check.1 headNumber headTimestamp) checks.

Definition sameRewind (e : ConfigCompatError) (lasterr : option ConfigCompatError) : bool :=
  match lasterr with Some l => (RewindToBlock e =? RewindToBlock l) && (RewindToTime e =? RewindToTime l) | None => false end.

(** The loop of [CheckCompatible]; [None] where the fuel is not enough. *)
Fixpoint compatLoop (fuel : nat) (bhead btime : Z) (lasterr : option ConfigCompatError) : option (option ConfigCompatError) :=
  match fuel with
  | O => None
  | S fuel =>
      match checkCompatible bhead btime with
      | None => Some lasterr
      | Some err =>
          if sameRewind err lasterr then Some lasterr
          else if 0 <? RewindToTime err then compatLoop fuel bhead (RewindToTime err) (Some err)
          else compatLoop fuel (RewindToBlock err) btime (Some err)
      end
  end.

(** Every round moves the height or the time down, where no fork is scheduled at
    time 0. *)
Definition CheckCompatible (fuel : nat) (height time : Z) : option (option ConfigCompatError) := compatLoop fuel height time None.
End compatible.

(** The end of [SetupGenesisBlockWithOverride]: whether the conflict is returned,
    or the new configuration is written over the stored one. *)
Definition conflictReturned (headNumber headTime : Z) (compatErr : option ConfigCompatError) : bool :=
  match compatErr with
  | Some e => negb (headNumber =? 0) && negb (RewindToBlock e =? 0) || negb (headTime =? 0) && negb (RewindToTime e =? 0)
  | None => false
  end.
