(* ===== verification/ForkProps.v ===== *)
(** Schedules of forks: what an accepted change of schedule leaves as it was, when
    the search for the lowest conflict ends, and where it does not. *)
From S2P Require Import Prelude Validators Config ChainConfig Forks.

Definition blocks_of (c : ChainConfig) : list (option Z) :=
  [HomesteadBlock c; DAOForkBlock c; EIP150Block c; EIP155Block c; EIP158Block c; ByzantiumBlock c; ConstantinopleBlock c;
   PetersburgBlock c; IstanbulBlock c; MuirGlacierBlock c; BerlinBlock c; LondonBlock c; ArrowGlacierBlock c;
   GrayGlacierBlock c; ApplepieBlock c; BohoBlock c; MergeNetsplitBlock c].
Definition times_of (c : ChainConfig) : list (option Z) := [ShanghaiTime c; CancunTime c; PragueTime c; VerkleTime c].

(** Blocks and times of 64 bits; no fork by time at the first moment. *)
Definition in64 (lo : Z) (o : option Z) : Prop := match o with Some x => lo <= x < 2 ^ 64 | None => True end.
Definition schedule_ok (c : ChainConfig) : Prop := Forall (in64 0) (blocks_of c) /\ Forall (in64 1) (times_of c).

(** * Every conflict lowers the head *)

(** What a conflict at a height and a time says about the rewind. *)
Definition lowers (check : (Z -> Z -> bool) * ConfigCompatError) : Prop :=
  forall h t, 0 <= h -> check.1 h t = true ->
    0 < RewindToTime check.2 < t \/
    RewindToTime check.2 = 0 /\ (0 <= RewindToBlock check.2 < h \/ h = 0 /\ RewindToBlock check.2 = 0).

Lemma pred64 x : 0 < x < 2 ^ 64 -> u64 (u64 x - 1) = x - 1.
Proof. intros Hx. rewrite (u64_small x), u64_small by lia. done. Qed.

Lemma block_error_lowers s1 s2 h :
  in64 0 s1 -> in64 0 s2 -> 0 <= h -> isBlockForked s1 (Some h) || isBlockForked s2 (Some h) = true ->
  RewindToTime (newBlockCompatError s1 s2) = 0 /\
  (0 <= RewindToBlock (newBlockCompatError s1 s2) < h \/ h = 0 /\ RewindToBlock (newBlockCompatError s1 s2) = 0).
Proof.
  intros H1 H2 Hh Hf. split; [done|]. unfold newBlockCompatError; cbn.
  destruct s1 as [x|], s2 as [y|]; cbn in *; zify_bools; try done.
  all: repeat case_match; try rewrite orb_true_iff in Hf; simplify_eq; zify_bools.
  all: destruct_or?; zify_bools; rewrite ?pred64 by lia; lia.
Qed.

Lemma time_error_lowers s1 s2 h t :
  in64 1 s1 -> in64 1 s2 -> 0 <= h -> isTimestampForked s1 t || isTimestampForked s2 t = true ->
  0 < RewindToTime (newTimestampCompatError s1 s2) < t \/
  RewindToTime (newTimestampCompatError s1 s2) = 0 /\ RewindToBlock (newTimestampCompatError s1 s2) = 0.
Proof.
  intros H1 H2 Hh Hf. unfold newTimestampCompatError; cbn.
  destruct s1 as [x|], s2 as [y|]; cbn in *; zify_bools; try done.
  all: repeat case_match; try rewrite orb_true_iff in Hf; simplify_eq; zify_bools.
  all: destruct_or?; zify_bools; rewrite u64_small by lia; lia.
Qed.

Lemma checks_lower c newcfg : schedule_ok c -> schedule_ok newcfg -> Forall lowers (checks c newcfg).
Proof.
  intros [Hb Ht] [Hb' Ht']. unfold checks. cbv zeta.
  assert (forall s1 s2, in64 0 s1 -> in64 0 s2 -> lowers (blockCheck s1 s2, newBlockCompatError s1 s2)) as Hblock.
  { intros s1 s2 H1 H2 h t Hh Hc. right. apply andb_true_iff in Hc as [Hc _]. by apply block_error_lowers. }
  assert (forall s1 s2, in64 1 s1 -> in64 1 s2 -> lowers (timeCheck s1 s2, newTimestampCompatError s1 s2)) as Htime.
  { intros s1 s2 H1 H2 h t Hh Hc. apply andb_true_iff in Hc as [Hc _]. cbn [snd].
    destruct (time_error_lowers s1 s2 h t H1 H2 Hh Hc) as [?|[-> ->]]; [by left|right]. split; [done|lia]. }
  unfold blocks_of, times_of in *. rewrite !Forall_cons in *. destruct_and!.
  split_and!; try (by apply Hblock); try (by apply Htime); [..|by apply Forall_nil].
  - intros h t Hh Hc. right. apply andb_true_iff in Hc as [Hc _]. apply block_error_lowers; [done..|]. unfold IsDAOFork in Hc. by rewrite Hc.
  - intros h t Hh Hc. right. apply andb_true_iff in Hc as [Hc _]. apply block_error_lowers; [done..|]. unfold IsEIP158 in Hc. by rewrite Hc.
  - intros h t Hh Hc. right. apply andb_true_iff in Hc as [Hc _]. apply andb_true_iff in Hc as [Hc _]. by apply block_error_lowers.
  - intros h t Hh _. right. cbn. split; [done|lia].
Qed.

Lemma checkCompatible_lowers c newcfg h t e :
  schedule_ok c -> schedule_ok newcfg -> 0 <= h -> checkCompatible c newcfg h t = Some e ->
  0 < RewindToTime e < t \/ RewindToTime e = 0 /\ (0 <= RewindToBlock e < h \/ h = 0 /\ RewindToBlock e = 0).
Proof.
  intros Hc Hn Hh. unfold checkCompatible. destruct (List.find _ _) as [[f x]|] eqn:Hf; [|done]. intros [= <-].
  apply List.find_some in Hf as [Hin Hf]. pose proof (checks_lower c newcfg Hc Hn) as Hl.
  rewrite Forall_forall in Hl. apply (Hl (f, x)); [by apply list_elem_of_In|done|done].
Qed.

(** * The search ends *)

Lemma compatLoop_ends c newcfg fuel h t lasterr :
  schedule_ok c -> schedule_ok newcfg -> 0 <= h -> 0 <= t -> h + t + 2 <= Z.of_nat fuel ->
  exists r, compatLoop c newcfg fuel h t lasterr = Some r.
Proof.
  intros Hc Hn. revert h t lasterr. induction fuel as [|fuel IH]; intros h t lasterr Hh Ht Hf; [lia|]. cbn [compatLoop].
  destruct (checkCompatible c newcfg h t) as [e|] eqn:He; [|by eauto].
  destruct (sameRewind e lasterr); [by eauto|]. destruct (checkCompatible_lowers c newcfg h t e Hc Hn Hh He) as [Hlow|[Hz Hlow]].
  - destruct (Z.ltb_spec 0 (RewindToTime e)); [|lia]. apply IH; lia.
  - rewrite Hz. cbn. destruct Hlow as [Hlow|[-> Hb]]; [apply IH; lia|]. rewrite Hb.
    destruct fuel as [|fuel]; [lia|]. cbn [compatLoop]. rewrite He. cbn. rewrite !Z.eqb_refl. by eauto.
Qed.

Lemma compatLoop_some c newcfg fuel h t e : compatLoop c newcfg fuel h t (Some e) <> Some None.
Proof.
  revert h t e. induction fuel as [|fuel IH]; intros h t e; [done|]. cbn [compatLoop].
  destruct (checkCompatible c newcfg h t); [|done]. destruct (sameRewind _ _); [done|]. destruct (0 <? _); apply IH.
Qed.

Lemma CheckCompatible_none c newcfg fuel h t :
  CheckCompatible c newcfg fuel h t = Some None -> checkCompatible c newcfg h t = None.
Proof.
  destruct fuel as [|fuel]; [done|]. unfold CheckCompatible. cbn [compatLoop].
  destruct (checkCompatible c newcfg h t) as [e|]; [|done]. cbn. destruct (0 <? _); intros Hn; by apply compatLoop_some in Hn.
Qed.

(** Where no fork is scheduled at time 0, the search of [CheckCompatible] for
    the lowest conflict ends: every round lowers the height or the time.  It
    reports a conflict exactly when there is one at the head. *)
Theorem compat_search_ends (c newcfg : ChainConfig) (height time : Z) (fuel : nat)
    (Hc : schedule_ok c) (Hn : schedule_ok newcfg) (Hh : 0 <= height) (Ht : 0 <= time)
    (Hfuel : height + time + 2 <= Z.of_nat fuel) :
  exists r, CheckCompatible c newcfg fuel height time = Some r /\
    (r = None <-> checkCompatible c newcfg height time = None).
Proof.
  destruct (compatLoop_ends c newcfg fuel height time None Hc Hn Hh Ht Hfuel) as [r Hr]. exists r. split; [done|]. split.
  - intros ->. by apply CheckCompatible_none in Hr.
  - intros Hnone. destruct fuel as [|fuel]; [done|]. cbn [compatLoop] in Hr. rewrite Hnone in Hr. by injection Hr as <-.
Qed.

(** * The same rules for the past *)

Lemma find_none {A} (f : A -> bool) l x : List.find f l = None -> x ∈ l -> f x = false.
Proof. intros Hf Hx. eapply List.find_none; [done|]. by apply list_elem_of_In. Qed.

Lemma blocks_agree s1 s2 h n : isForkBlockIncompatible s1 s2 (Some h) = false -> n <= h -> isBlockForked s1 (Some n) = isBlockForked s2 (Some n).
Proof.
  unfold isForkBlockIncompatible, configBlockEqual. destruct s1 as [x|], s2 as [y|]; cbn; intros Hf Hn; try done.
  all: apply andb_false_iff in Hf as [Hf|Hf]; zify_bools; subst; try done.
  all: repeat match goal with |- context [?a <=? ?b] => destruct (Z.leb_spec a b) end; try done; lia.
Qed.

Lemma times_agree s1 s2 t m : isForkTimestampIncompatible s1 s2 t = false -> m <= t -> isTimestampForked s1 m = isTimestampForked s2 m.
Proof. apply (blocks_agree s1 s2 t m). Qed.

Lemma checks_false c newcfg h t :
  checkCompatible c newcfg h t = None -> Forall (fun check => check.1 h t = false) (checks c newcfg).
Proof.
  unfold checkCompatible. destruct (List.find _ _) eqn:Hf; [done|]. intros _. apply Forall_forall. intros x Hx.
  exact (find_none _ _ x Hf Hx).
Qed.

Lemma petersburg_agree c newcfg h n :
  PetersburgBlock c = ConstantinopleBlock c -> n <= h ->
  isForkBlockIncompatible (ConstantinopleBlock c) (ConstantinopleBlock newcfg) (Some h) = false ->
  isForkBlockIncompatible (PetersburgBlock c) (PetersburgBlock newcfg) (Some h) = false ->
  IsPetersburg c (Some n) = IsPetersburg newcfg (Some n).
Proof.
  intros Hp Hn Hc Hpp. pose proof (blocks_agree _ _ h n Hc Hn) as Ha. pose proof (blocks_agree _ _ h n Hpp Hn) as Hb.
  unfold IsPetersburg. rewrite <- Hb, <- Ha, Hp in *.
  destruct (isBlockForked (ConstantinopleBlock c) (Some n)); [done|]. by rewrite !andb_false_r.
Qed.

(** The rules without the chain ID and the rule of Petersburg. *)
Definition commonRules (r : Rules) : Rules :=
  mkRules 0 (r_IsHomestead r) (r_IsEIP150 r) (r_IsEIP155 r) (r_IsEIP158 r) (r_IsByzantium r) (r_IsConstantinople r) false
    (r_IsIstanbul r) (r_IsBerlin r) (r_IsLondon r) (r_IsApplepie r) (r_IsAnzeon r) (r_IsBoho r) (r_IsMerge r) (r_IsShanghai r)
    (r_IsCancun r) (r_IsPrague r) (r_IsVerkle r).

(** C21. A new configuration that [CheckCompatible] accepts at a head leaves the
    rules of every block up to the head as they were, with two exceptions: the chain
    ID is bound only if EIP-158 is active at the head, and Petersburg only if the
    stored configuration sets it to the block of Constantinople.  (With Petersburg
    left out, which activates it with Constantinople, a new configuration may move
    it without a conflict.) *)
Theorem compatible_rules (c newcfg : ChainConfig) (fuel : nat) (height time num timestamp : Z) (isMerge : bool)
    (Hcompat : CheckCompatible c newcfg fuel height time = Some None) (Hnum : num <= height) (Htime : timestamp <= time) :
  let r := config_Rules c (Some num) isMerge timestamp in
  let r' := config_Rules newcfg (Some num) isMerge timestamp in
  commonRules r = commonRules r' /\
  (IsEIP158 c (Some height) = true -> r_ChainID r = r_ChainID r') /\
  (PetersburgBlock c = ConstantinopleBlock c -> r_IsPetersburg r = r_IsPetersburg r').
Proof.
  apply CheckCompatible_none, checks_false in Hcompat. unfold checks in Hcompat. cbv zeta in Hcompat.
  rewrite !Forall_cons in Hcompat. unfold blockCheck, timeCheck in Hcompat. cbn [fst] in Hcompat. destruct_and!.
  repeat match goal with H : isForkBlockIncompatible _ _ _ = false |- _ => pose proof (blocks_agree _ _ height num H Hnum); revert H end.
  repeat match goal with H : isForkTimestampIncompatible _ _ _ = false |- _ => pose proof (times_agree _ _ time timestamp H Htime); clear H end.
  intros. cbv zeta. split_and!.
  - assert (AnzeonEnabled c = AnzeonEnabled newcfg) as HA.
    { match goal with H : isForkAnzeonIncompatible _ _ = false |- _ => revert H end. unfold isForkAnzeonIncompatible, AnzeonEnabled.
      destruct (Anzeon c), (Anzeon newcfg); done. }
    unfold r, r', commonRules, config_Rules. cbn -[AnzeonEnabled]. rewrite HA.
    unfold IsHomestead, IsEIP150, IsEIP155, IsEIP158, IsByzantium, IsConstantinople, IsIstanbul, IsBerlin, IsShanghai,
      IsCancun, IsPrague, IsVerkle, IsLondon, IsApplepie, IsBoho.
    repeat match goal with H : isBlockForked _ _ = _ |- _ => rewrite H; clear H | H : isTimestampForked _ _ = _ |- _ => rewrite H; clear H end.
    done.
  - intros H158. cbn. match goal with H : IsEIP158 _ _ && _ = false |- _ => rewrite H158 in H; cbn in H; apply negb_false_iff in H; revert H end.
    unfold configBlockEqual. destruct (ChainID c), (ChainID newcfg); cbn; try done. by intros ->%Z.eqb_eq.
  - intros Hpetersburg. cbn. match goal with H : isForkBlockIncompatible (PetersburgBlock _) _ _ && _ = false |- _ => rewrite <- Hpetersburg, andb_diag in H end.
    by apply (petersburg_agree c newcfg height).
Qed.

(** * Where the search does not end *)

Module Hang.
(** Cancun at the first moment and no Shanghai; the new schedule has both later.
    Both pass the check of the order of forks. *)
Definition stored : ChainConfig :=
  mkChainConfig (Some 8282) (Some 0) None false (Some 0) (Some 0) (Some 0) (Some 0) (Some 0) (Some 0) (Some 0) None
    (Some 0) (Some 0) None None None None None None (Some 0) None None None None.
Definition rescheduled : ChainConfig :=
  mkChainConfig (Some 8282) (Some 0) None false (Some 0) (Some 0) (Some 0) (Some 0) (Some 0) (Some 0) (Some 0) None
    (Some 0) (Some 0) None None None None None (Some 100) (Some 200) None None None None.

Definition cancunError := newTimestampCompatError (Some 0) (Some 200).
Definition shanghaiError := newTimestampCompatError None (Some 100).

Lemma loop_stuck fuel h :
  compatLoop stored rescheduled fuel h (2 ^ 64 - 1) (Some cancunError) = None /\
  compatLoop stored rescheduled fuel h 99 (Some shanghaiError) = None.
Proof.
  assert (checkCompatible stored rescheduled h (2 ^ 64 - 1) = Some shanghaiError) as H1.
  { unfold checkCompatible, checks, blockCheck, isForkBlockIncompatible. cbn. by rewrite !andb_false_r. }
  assert (checkCompatible stored rescheduled h 99 = Some cancunError) as H2.
  { unfold checkCompatible, checks, blockCheck, isForkBlockIncompatible. cbn. by rewrite !andb_false_r. }
  induction fuel as [|fuel [IH1 IH2]]; [done|]. cbn [compatLoop]. rewrite H1, H2. split; [exact IH2|exact IH1].
Qed.
End Hang.

(** C39. [CheckCompatible] does not end for every pair of schedules: with Cancun
    stored at time 0, where the rewind time wraps around to the largest one, and a
    new schedule with a later Shanghai, it goes from one conflict to the other
    for ever, at every head; both schedules pass [CheckConfigForkOrder]. *)
Theorem compat_search_hangs :
  CheckConfigForkOrder Hang.stored = true /\ CheckConfigForkOrder Hang.rescheduled = true /\
  forall fuel height, CheckCompatible Hang.stored Hang.rescheduled fuel height 50 = None.
Proof.
  split; [done|]. split; [done|]. intros fuel h. destruct fuel as [|fuel]; [done|]. unfold CheckCompatible. cbn [compatLoop].
  assert (checkCompatible Hang.stored Hang.rescheduled h 50 = Some Hang.cancunError) as ->.
  { unfold checkCompatible, checks, blockCheck, isForkBlockIncompatible. cbn. by rewrite !andb_false_r. }
  apply (Hang.loop_stuck fuel h).
Qed.

Definition set_Anzeon (a : option AnzeonConfig) (c : ChainConfig) : ChainConfig :=
  mkChainConfig (ChainID c) (HomesteadBlock c) (DAOForkBlock c) (DAOForkSupport c) (EIP150Block c) (EIP155Block c) (EIP158Block c)
    (ByzantiumBlock c) (ConstantinopleBlock c) (PetersburgBlock c) (IstanbulBlock c) (MuirGlacierBlock c) (BerlinBlock c)
    (LondonBlock c) (ArrowGlacierBlock c) (GrayGlacierBlock c) (MergeNetsplitBlock c) (ApplepieBlock c) (BohoBlock c)
    (ShanghaiTime c) (CancunTime c) (PragueTime c) (VerkleTime c) a (Boho c).

Lemma configBlockEqual_refl x : configBlockEqual x x = true.
Proof. destruct x; [apply Z.eqb_refl|done]. Qed.
Lemma configTimestampEqual_refl x : configTimestampEqual x x = true.
Proof. apply configBlockEqual_refl. Qed.

Lemma anzeon_conflict c h t : Anzeon c <> None -> checkCompatible c (set_Anzeon None c) h t = Some newAnzeonCompatError.
Proof.
  intros Ha. unfold checkCompatible, checks, blockCheck, timeCheck, isForkBlockIncompatible, isForkTimestampIncompatible.
  cbn -[configBlockEqual configTimestampEqual]. rewrite !configBlockEqual_refl, ?configTimestampEqual_refl, Bool.eqb_reflx. cbn [negb]. rewrite !andb_false_r. cbn.
  by destruct (Anzeon c).
Qed.

(** Removing Anzeon from the configuration of a chain is found as a conflict
    at every head, but [SetupGenesisBlock] never returns it: its rewind is to
    block 0 and time 0, so the new configuration is written over the stored one. *)
Theorem anzeon_conflict_dropped (c : ChainConfig) (fuel : nat) (height time : Z) (Ha : Anzeon c <> None) (Hf : (2 <= fuel)%nat) :
  CheckCompatible c (set_Anzeon None c) fuel height time = Some (Some newAnzeonCompatError) /\
  conflictReturned height time (Some newAnzeonCompatError) = false.
Proof.
  split; [|unfold conflictReturned; cbn; by rewrite !andb_false_r].
  destruct fuel as [|[|fuel]]; [lia..|]. unfold CheckCompatible. cbn [compatLoop]. by rewrite !anzeon_conflict.
Qed.

(** * The order of forks *)

Lemma checkForks_before l fs rest f b :
  f_timestamp l = None -> Forall (fun f => f_timestamp f = None) fs -> checkForks (Some l) (fs ++ rest) = true ->
  f ∈ fs -> f_block f = Some b -> exists lb, f_block l = Some lb /\ lb <= b.
Proof.
  revert l. induction fs as [|cur fs IH]; intros l Hl Hfs Hc Hf Hb; [by apply elem_of_nil in Hf|].
  apply Forall_cons in Hfs as [Hcur Hfs]. cbn [app checkForks] in Hc. apply andb_true_iff in Hc as [Hfol Hc].
  assert (forall cb, f_block cur = Some cb -> exists lb, f_block l = Some lb /\ lb <= cb) as Hstep.
  { intros cb Hcb. revert Hfol. unfold follows, scheduled, isSet, later. rewrite Hl, Hcur, Hcb.
    destruct (f_block l) as [lb|]; cbn; [|done]. destruct (Z.ltb_spec cb lb); [done|]. intros _. by exists lb. }
  apply elem_of_cons in Hf as [<-|Hf]; [by apply Hstep|]. destruct (negb (f_optional cur) || scheduled cur).
  - destruct (IH cur Hcur Hfs Hc Hf Hb) as (cb & Hcb & Hle). destruct (Hstep cb Hcb) as (lb & Hlb & Hle'). exists lb. split; [done|lia].
  - by apply IH.
Qed.

Lemma checkForks_pair l fs f rest last :
  f_timestamp l = None -> f_optional l = false -> Forall (fun f => f_timestamp f = None) (fs ++ [f]) ->
  checkForks last (l :: (fs ++ [f]) ++ rest) = true ->
  forall n, isBlockForked (f_block f) (Some n) = true -> isBlockForked (f_block l) (Some n) = true.
Proof.
  intros Hl Ho Hfs Hc n. cbn [checkForks] in Hc. apply andb_true_iff in Hc as [_ Hc]. rewrite Ho in Hc. cbn in Hc.
  destruct (f_block f) as [b|] eqn:Hb; [|done]. cbn. intros Hn.
  destruct (checkForks_before l (fs ++ [f]) rest f b Hl Hfs Hc) as (lb & -> & Hle); [set_solver|done|]. zify_bools. apply Z.leb_le. lia.
Qed.

Lemma checkForks_tail last f fs : checkForks last (f :: fs) = true -> exists last', checkForks last' fs = true.
Proof. cbn. intros [_ Hc]%andb_true_iff. eauto. Qed.

Ltac fork_pair fs f := match goal with Hc : checkForks ?l (?a :: _) = true |- context [Some ?n] =>
  refine (checkForks_pair a fs f _ l eq_refl eq_refl _ Hc n); repeat constructor end.
Ltac next_fork := match goal with Hc : checkForks _ (_ :: _) = true |- _ => apply checkForks_tail in Hc as [? Hc] end.

(** A schedule that [CheckConfigForkOrder] accepts activates forks in their
    order: at every block, a fork is active only with all mandatory ones before
    it, and Applepie, with fee delegation, and Boho only with London. *)
Theorem fork_order_monotone (c : ChainConfig) (n : Z) (Hc : CheckConfigForkOrder c = true) :
  let on f := isBlockForked (f c) (Some n) = true in
  (on EIP150Block -> on HomesteadBlock) /\ (on EIP155Block -> on EIP150Block) /\ (on EIP158Block -> on EIP155Block) /\
  (on ByzantiumBlock -> on EIP158Block) /\ (on ConstantinopleBlock -> on ByzantiumBlock) /\
  (on PetersburgBlock -> on ConstantinopleBlock) /\ (on IstanbulBlock -> on PetersburgBlock) /\
  (on BerlinBlock -> on IstanbulBlock) /\ (on LondonBlock -> on BerlinBlock) /\
  (on ApplepieBlock -> on LondonBlock) /\ (on BohoBlock -> on LondonBlock).
Proof.
  cbv zeta. unfold CheckConfigForkOrder, forks in Hc.
  split; [fork_pair [mkFork (DAOForkBlock c) None true] (mkFork (EIP150Block c) None false)|]. do 2 next_fork.
  split; [fork_pair (@nil fork) (mkFork (EIP155Block c) None false)|]. next_fork.
  split; [fork_pair (@nil fork) (mkFork (EIP158Block c) None false)|]. next_fork.
  split; [fork_pair (@nil fork) (mkFork (ByzantiumBlock c) None false)|]. next_fork.
  split; [fork_pair (@nil fork) (mkFork (ConstantinopleBlock c) None false)|]. next_fork.
  split; [fork_pair (@nil fork) (mkFork (PetersburgBlock c) None false)|]. next_fork.
  split; [fork_pair (@nil fork) (mkFork (IstanbulBlock c) None false)|]. next_fork.
  split; [fork_pair [mkFork (MuirGlacierBlock c) None true] (mkFork (BerlinBlock c) None false)|]. do 2 next_fork.
  split; [fork_pair (@nil fork) (mkFork (LondonBlock c) None false)|]. next_fork.
  pose (glaciers := [mkFork (ArrowGlacierBlock c) None true; mkFork (GrayGlacierBlock c) None true]).
  split; [fork_pair glaciers (mkFork (ApplepieBlock c) None true)|
          fork_pair (glaciers ++ [mkFork (ApplepieBlock c) None true]) (mkFork (BohoBlock c) None true)].
Qed.
