(* ===== verification/ExtraProps.v ===== *)
(** Properties of the header's consensus data: the sealer bitmap is a set, and
    the extra-data has exactly one RLP form. *)
From S2P Require Import Prelude Rlp RlpStream RlpSpec RlpLists Extra.

(** * The sealer bitmap *)

(** Bit [j] of the bitmap. *)
Definition sealer_bit (s : SealerSet) (j : Z) : bool :=
  match s !! Z.to_nat (j / 8) with Some b => Z.testbit b (j mod 8) | None => false end.

Lemma land_bit b k : 0 <= k -> negb (Z.land b (Z.shiftl 1 k) =? 0) = Z.testbit b k.
Proof.
  intros Hk. destruct (Z.testbit b k) eqn:Hb.
  - apply negb_true_iff, Z.eqb_neq. intros H0. apply (f_equal (fun x => Z.testbit x k)) in H0.
    rewrite Z.land_spec, Hb, Z.shiftl_spec, Z.sub_diag, Z.bits_0 in H0 by done. done.
  - apply negb_false_iff, Z.eqb_eq, Z.bits_inj'. intros n Hn. rewrite Z.land_spec, Z.bits_0.
    destruct (decide (n = k)) as [->|Hne]; [by rewrite Hb|].
    rewrite Z.shiftl_spec by done. replace (Z.testbit 1 (n - k)) with false; [by rewrite andb_false_r|].
    destruct (decide (n < k)); [by rewrite Z.testbit_neg_r by lia|].
    symmetry. apply (Z.pow2_bits_false 0). lia.
Qed.

Lemma bit_mask k : 0 <= k < 8 -> u8 (Z.shiftl 1 k) = Z.shiftl 1 k.
Proof.
  intros Hk. apply u8_small. rewrite Z.shiftl_1_l.
  pose proof (Z.pow_pos_nonneg 2 k). pose proof (Z.pow_lt_mono_r 2 k 8). lia.
Qed.

Lemma testbit_shiftl_1 k n : 0 <= n -> 0 <= k -> Z.testbit (Z.shiftl 1 k) n = bool_decide (n = k).
Proof.
  intros Hn Hk. rewrite Z.shiftl_1_l. case_bool_decide; [by subst; apply Z.pow2_bits_true|].
  by apply Z.pow2_bits_false.
Qed.

Lemma IsSealer_bit s j : IsSealer s j = sealer_bit s j.
Proof.
  pose proof (Z.mod_pos_bound j 8 ltac:(lia)). unfold IsSealer, sealer_bit. case_match eqn:Hc.
  - apply Nat.leb_le in Hc. by rewrite lookup_ge_None_2.
  - apply Nat.leb_gt in Hc. rewrite bit_mask, land_bit by lia.
    destruct (lookup_lt_is_Some_2 _ _ Hc) as [b Hb]. by rewrite Hb, (list_lookup_total_correct _ _ _ Hb).
Qed.

Lemma same_bit i j :
  0 <= i -> 0 <= j -> (j / 8 = i / 8 /\ j mod 8 = i mod 8) <-> j = i.
Proof.
  intros Hi Hj. split; [|by intros ->]. intros [H1 H2].
  rewrite (Z.div_mod j 8), (Z.div_mod i 8), H1, H2 by lia. done.
Qed.

(** The padding of [SetSealer] adds no sealer. *)
Lemma sealer_bit_pad s n j : sealer_bit (s ++ replicate n 0) j = sealer_bit s j.
Proof.
  unfold sealer_bit. destruct (decide (Z.to_nat (j / 8) < length s)%nat).
  - by rewrite lookup_app_l by done.
  - rewrite (lookup_ge_None_2 s), lookup_app_r by lia. destruct (replicate n 0 !! _) eqn:Hr; [|done].
    apply lookup_replicate in Hr as [-> _]. apply Z.bits_0.
Qed.

Lemma alter_bit (f : Z -> Z) (op : bool -> bool -> bool) s i j :
  0 <= i -> 0 <= j -> (Z.to_nat (i / 8) < length s)%nat ->
  (forall b n, 0 <= n -> Z.testbit (f b) n = op (Z.testbit b n) (bool_decide (n = i mod 8))) ->
  (forall b, op b false = b) ->
  sealer_bit (alter f (Z.to_nat (i / 8)) s) j = op (sealer_bit s j) (bool_decide (j = i)).
Proof.
  intros Hi Hj Hlen Hf Hop. pose proof (Z.mod_pos_bound j 8 ltac:(lia)).
  pose proof (Z.div_pos i 8 ltac:(lia) ltac:(lia)). pose proof (Z.div_pos j 8 ltac:(lia) ltac:(lia)).
  pose proof (same_bit i j Hi Hj) as Hsame. unfold sealer_bit.
  destruct (decide (j / 8 = i / 8)) as [He|He].
  - rewrite He, list_lookup_alter_eq. destruct (lookup_lt_is_Some_2 _ _ Hlen) as [b Hb]. rewrite Hb. cbn.
    rewrite Hf by lia. f_equal. apply bool_decide_ext. naive_solver.
  - rewrite list_lookup_alter_ne by lia. rewrite (bool_decide_eq_false_2 (j = i)) by naive_solver. by rewrite Hop.
Qed.

Lemma IsSealer_SetSealer s i j :
  0 <= i -> 0 <= j -> IsSealer (SetSealer s i) j = IsSealer s j || bool_decide (j = i).
Proof.
  intros Hi Hj. rewrite !IsSealer_bit. unfold SetSealer.
  pose proof (Z.mod_pos_bound i 8 ltac:(lia)).
  rewrite (alter_bit _ orb); [|done|done|..].
  - case_match; by rewrite ?sealer_bit_pad.
  - case_match eqn:Hc; [apply Nat.leb_le in Hc; rewrite length_app, length_replicate|apply Nat.leb_gt in Hc]; lia.
  - intros b n Hn. by rewrite bit_mask, Z.lor_spec, testbit_shiftl_1 by lia.
  - apply orb_false_r.
Qed.

Lemma IsSealer_ClearSealer s i j :
  0 <= i -> 0 <= j -> IsSealer (ClearSealer s i) j = IsSealer s j && negb (bool_decide (j = i)).
Proof.
  intros Hi Hj. rewrite !IsSealer_bit. unfold ClearSealer.
  pose proof (Z.mod_pos_bound i 8 ltac:(lia)). case_match eqn:Hc.
  - apply Nat.ltb_lt in Hc. rewrite (alter_bit _ (fun x y => x && negb y)); [done..| |].
    + intros b n Hn. by rewrite bit_mask, Z.ldiff_spec, testbit_shiftl_1 by lia.
    + intros b. apply andb_true_r.
  - apply Nat.ltb_ge in Hc. case_bool_decide; [subst|by rewrite andb_true_r].
    unfold sealer_bit. by rewrite lookup_ge_None_2.
Qed.

Lemma filter_ext_in {A} (P Q : A -> Prop) `{forall x, Decision (P x)} `{forall x, Decision (Q x)} (l : list A) :
  (forall x, x ∈ l -> P x <-> Q x) -> filter P l = filter Q l.
Proof.
  induction l as [|x l IH]; intros HPQ; [done|]. rewrite !filter_cons, IH by set_solver.
  specialize (HPQ x ltac:(set_solver)). repeat case_decide; naive_solver.
Qed.

Lemma flat_map_filter {A B} (t : A -> bool) (g : A -> B) (P : B -> Prop) `{forall x, Decision (P x)} (l : list A) :
  (forall x, x ∈ l -> t x = true <-> P (g x)) ->
  List.flat_map (fun x => if t x then [g x] else []) l = filter P (map g l).
Proof.
  induction l as [|x l IH]; intros Ht; [done|].
  cbn [List.flat_map map]. rewrite filter_cons, IH by set_solver.
  specialize (Ht x ltac:(set_solver)). destruct (t x); case_decide; naive_solver.
Qed.

Lemma byteSealers_spec k b :
  Z.of_nat k < 2 ^ 29 ->
  byteSealers k b = filter (fun j => Z.testbit b (j mod 8) = true) (seqZ (8 * Z.of_nat k) 8).
Proof.
  intros Hk. unfold byteSealers.
  rewrite (flat_map_filter _ (fun o => u32 (Z.of_nat k * 8 + Z.of_nat o)) (fun j => Z.testbit b (j mod 8) = true)).
  - f_equal. unfold seqZ. apply map_ext_in. intros o Ho%in_seq. rewrite u32_small; lia.
  - intros o Ho%elem_of_seq. rewrite land_bit, u32_small by lia.
    rewrite Z.add_comm, Z.mod_add, Z.mod_small by lia. done.
Qed.

(** [GetSealers] lists the sealers in increasing order. *)
Lemma GetSealers_spec s :
  len s <= 2 ^ 29 -> GetSealers s = filter (fun j => IsSealer s j = true) (seqZ 0 (8 * len s)).
Proof.
  unfold GetSealers. induction s as [|b s IH] using rev_ind; intros Hl; [done|].
  rewrite length_app in Hl |- *. cbn [length] in *.
  rewrite imap_app, concat_app, IH by lia. cbn [imap concat]. rewrite app_nil_r, Nat.add_0_r, byteSealers_spec by lia.
  replace (8 * Z.of_nat (length s + 1)) with (8 * len s + 8) by lia.
  rewrite seqZ_app, filter_app, Z.add_0_l by lia. f_equal.
  - apply filter_ext_in. intros j Hj%elem_of_seqZ. rewrite !IsSealer_bit. unfold sealer_bit.
    pose proof (Z.div_pos j 8 ltac:(lia) ltac:(lia)). pose proof (Z.div_lt_upper_bound j 8 (len s) ltac:(lia) ltac:(lia)).
    by rewrite lookup_app_l by lia.
  - apply filter_ext_in. intros j Hj%elem_of_seqZ. rewrite IsSealer_bit. unfold sealer_bit.
    assert (j / 8 = len s) as ->.
    { symmetry. apply (Z.div_unique _ _ _ (j - 8 * len s)); lia. }
    by rewrite Nat2Z.id, list_lookup_middle.
Qed.

(** * Sizes *)

Lemma len_concat_elem (v : val) vs : v ∈ vs -> len (enc v) <= len (concat (map enc vs)).
Proof.
  induction 1 as [v vs|v w vs _ IH]; cbn; rewrite length_app; lia.
Qed.

Lemma content_lt vs : len (enc (VList vs)) < 2 ^ 64 -> len (concat (map enc vs)) < 2 ^ 64.
Proof. cbn [enc]. rewrite length_app. lia. Qed.

Lemma elem_lt v vs : len (enc (VList vs)) < 2 ^ 64 -> v ∈ vs -> len (enc v) < 2 ^ 64.
Proof. intros Hl%content_lt Hv%len_concat_elem. lia. Qed.

Lemma string_lt b : len (enc_string b) < 2 ^ 64 -> len b < 2 ^ 64.
Proof.
  destruct b as [|x [|y b]]; cbn [enc_string]; rewrite ?length_app; cbn [length]; [lia..|lia].
Qed.

(** The values of the Go types, without the bound on the encoded size. *)
Fixpoint val_shape (v : val) : Prop :=
  match v with
  | VUint i => 0 <= i < 2 ^ 64
  | VBigIntPtr (Some i) => 0 <= i
  | VList vs => foldr (fun v P => val_shape v /\ P) True vs
  | _ => True
  end.

Lemma val_shape_ok v : val_shape v -> len (enc v) < 2 ^ 64 -> val_ok v.
Proof.
  induction v as [v Hv|vs IH] using val_ind_nested; intros Hs Hl.
  - destruct v; try done. by destruct (Hv vs).
  - split; [by apply content_lt|]. pose proof (fun v => elem_lt v vs Hl) as He. clear Hl.
    cbn in Hs. induction IH as [|v vs Hv _ IHvs]; [done|]. destruct Hs as [Hs Hss].
    split; [apply Hv; [done|apply He; set_solver]|]. apply IHvs; [done|]. set_solver.
Qed.

(** Only a negative number makes the encoder fail. *)
Lemma EncodeToBytes_total v : val_shape v -> exists b, EncodeToBytes v = inr b.
Proof.
  intros Hv. enough (forall w, exists w', write v w = inr w') as Hw.
  { unfold EncodeToBytes. destruct (Hw emptyEncBuffer) as [w' ->]. eauto. }
  induction v as [v Hatom|vs IH] using val_ind_nested; intros w.
  - destruct v as [| | |[i|]| | | |vs]; try (eexists; reflexivity); [|by destruct (Hatom vs)].
    cbn in *. destruct (Z.ltb_spec i 0); [lia|]. eauto.
  - rewrite write_list. destruct vs as [|v0 vs0] eqn:Heq; [eauto|]. rewrite <- Heq in *.
    enough (exists w', writeElems vs (eb_list w).2 = inr w') as [w' ->] by eauto.
    generalize (eb_list w).2. cbn in Hv. clear Heq v0 vs0 w.
    induction IH as [|v vs Hw _ IHvs]; intros w; [eauto|]. destruct Hv as [Hv Hvs].
    cbn. destruct (Hw Hv w) as [w1 ->]. by apply IHvs.
Qed.

(** * Well-formed consensus data *)

Definition bytes_ok (b : list Z) : Prop := Forall is_byte b.
Definition seal_ok (s : WBFTAggregatedSeal) : Prop := bytes_ok (as_Sealers s) /\ bytes_ok (as_Signature s).
Definition candidate_ok (c : Candidate) : Prop := 0 <= cd_Addr c < 2 ^ 160 /\ 0 <= cd_Diligence c < 2 ^ 64.
Definition epoch_ok (e : EpochInfo) : Prop :=
  Forall candidate_ok (ei_Candidates e) /\ Forall (fun i => 0 <= i < 2 ^ 32) (ei_Validators e) /\
  Forall bytes_ok (ei_BLSPublicKeys e).
Definition ptr_ok {A} (P : A -> Prop) (p : option A) : Prop := match p with Some x => P x | None => True end.
Definition extra_ok (x : WBFTExtra) : Prop :=
  bytes_ok (we_VanityData x) /\ bytes_ok (we_RandaoReveal x) /\ 0 <= we_PrevRound x < 2 ^ 32 /\
  ptr_ok seal_ok (we_PrevPreparedSeal x) /\ ptr_ok seal_ok (we_PrevCommittedSeal x) /\
  0 <= we_Round x < 2 ^ 32 /\
  ptr_ok seal_ok (we_PreparedSeal x) /\ ptr_ok seal_ok (we_CommittedSeal x) /\
  ptr_ok (fun t => 0 <= t) (we_GasTip x) /\ ptr_ok epoch_ok (we_EpochInfo x).

Lemma foldr_shape vs : Forall val_shape vs -> foldr (fun v P => val_shape v /\ P) True vs.
Proof. induction 1; cbn; auto. Qed.

Lemma extra_shape x : extra_ok x -> val_shape (extra_val x).
Proof.
  intros (_ & _ & Hpr & _ & _ & Hr & _ & _ & Htip & Hep). cbn [val_shape extra_val foldr].
  assert (forall p, val_shape (ptr_val seal_val p)) as Hseal by (by intros [s|]).
  split_and!; try done; try lia.
  destruct (we_EpochInfo x) as [e|]; [|done]. destruct Hep as (Hc & Hv & Hk). cbn.
  split_and!; try done; apply foldr_shape, Forall_map.
  - eapply Forall_impl; [exact Hc|]. intros c [_ ?]. cbn. split_and!; done || lia.
  - eapply Forall_impl; [exact Hv|]. cbn. lia.
  - by apply Forall_true.
Qed.

(** * Encoding, then decoding *)

Lemma reads_string b : bytes_ok b -> len (enc (VBytes b)) < 2 ^ 64 -> reads Bytes (enc (VBytes b)) b.
Proof. intros Hb Hl%string_lt. by apply reads_Bytes. Qed.

Ltac divide8 := first [exists 4; reflexivity | exists 8; reflexivity].

Lemma reads_seal s :
  seal_ok s -> len (enc (seal_val s)) < 2 ^ 64 -> reads decodeSeal (enc (seal_val s)) s.
Proof.
  intros [H1 H2] Hl. pose proof (fun v => elem_lt v _ Hl) as He. destruct s as [a b]; cbn in H1, H2.
  apply reads_struct; [by apply content_lt|].
  eapply reads_bind; [apply reads_field, reads_string; [done|apply He; set_solver]|].
  eapply reads_bind; [apply reads_field, reads_string; [done|apply He; set_solver]|]. apply reads_ret.
Qed.

Lemma reads_candidate c :
  candidate_ok c -> len (enc (candidate_val c)) < 2 ^ 64 -> reads decodeCandidate (enc (candidate_val c)) c.
Proof.
  intros [H1 H2] Hl. destruct c as [a d]; cbn in H1, H2.
  assert (be_value (addressBytes a) = a) as Ha.
  { unfold addressBytes. rewrite be_value_be_bytes, Z.mod_small by (cbn; lia). done. }
  apply reads_struct; [by apply content_lt|].
  eapply reads_bind; [apply reads_field, (reads_ByteArray 20 (addressBytes a)); [lia|]|].
  { unfold addressBytes. by rewrite length_be_bytes. }
  eapply reads_bind; [apply reads_field, (reads_uint 64 d); [lia|divide8|lia]|].
  rewrite Ha. apply reads_ret.
Qed.

Lemma starts_candidate : starts decodeCandidate.
Proof. apply starts_struct. auto 8 with rlp. Qed.
Lemma starts_seal : starts decodeSeal.
Proof. apply starts_struct. auto 8 with rlp. Qed.
Lemma starts_epoch : starts decodeEpochInfo.
Proof. apply starts_struct. auto 8 with rlp. Qed.

Lemma enc_nonempty v : (forall b, v <> VRaw b) -> enc v <> [].
Proof.
  assert (forall b, enc_string b <> []) as Hs.
  { intros b Hb. destruct b as [|x [|y b]]; cbn in Hb; [done|by destruct (x <=? 127)|].
    unfold puthead in Hb. by destruct (_ <? 56). }
  destruct v; intros Hv; cbn [enc]; try done.
  - by destruct (Hv b).
  - unfold puthead. by destruct (_ <? 56).
Qed.

(** A slice whose elements are encoded by [f]. *)
Lemma reads_elems {A} (d : Dec A) (f : A -> val) (P : A -> Prop) (xs : list A) :
  starts d -> (forall x b, f x <> VRaw b) ->
  (forall x, P x -> len (enc (f x)) < 2 ^ 64 -> reads d (enc (f x)) x) ->
  Forall P xs -> len (enc (VList (map f xs))) < 2 ^ 64 ->
  reads (decodeListSlice d) (enc (VList (map f xs))) xs.
Proof.
  intros Hst Hraw Hd HP Hl. pose proof (content_lt _ Hl) as Hc. pose proof (fun v => elem_lt v _ Hl) as He. clear Hl.
  apply reads_slice; [done| | |done].
  - clear Hc. induction HP as [|x xs Hx _ IH]; constructor; [apply Hd; [done|apply He; set_solver]|].
    apply IH. intros v Hv. apply He. set_solver.
  - apply Forall_map, Forall_map, Forall_forall. intros x _. apply enc_nonempty, Hraw.
Qed.

Lemma reads_epoch e :
  epoch_ok e -> len (enc (epoch_val e)) < 2 ^ 64 -> reads decodeEpochInfo (enc (epoch_val e)) e.
Proof.
  intros (H1 & H2 & H3) Hl. pose proof (fun v => elem_lt v _ Hl) as He. destruct e as [cs vs ks]; cbn in H1, H2, H3.
  apply reads_struct; [by apply content_lt|].
  eapply reads_bind; [apply reads_field, (reads_elems _ _ candidate_ok);
    [apply starts_candidate|done|apply reads_candidate|done|apply He; set_solver]|].
  eapply reads_bind; [apply reads_field, (reads_elems _ _ (fun i => 0 <= i < 2 ^ 32));
    [apply starts_uint|done| |done|apply He; set_solver]|].
  { intros i Hi _. apply reads_uint; [lia|divide8|lia]. }
  eapply reads_bind; [apply reads_field, (reads_elems _ _ bytes_ok);
    [apply starts_Bytes|done|apply reads_string|done|apply He; set_solver]|].
  apply reads_ret.
Qed.

Lemma reads_ptr {A} (d : Dec A) (f : A -> val) (P : A -> Prop) (p : option A) :
  starts d -> (forall x, exists v vs, f x = VList (v :: vs) /\ forall b, v <> VRaw b) ->
  (forall x, P x -> len (enc (f x)) < 2 ^ 64 -> reads d (enc (f x)) x) ->
  ptr_ok P p -> len (enc (ptr_val f p)) < 2 ^ 64 ->
  reads (decodeNilPtr List d) (enc (ptr_val f p)) p.
Proof.
  intros Hst Hf Hd HP Hl. destruct p as [x|]; [|apply reads_nil_None].
  cbn [ptr_val ptr_ok] in *. specialize (Hd x HP Hl). destruct (Hf x) as (v & vs & Heq & Hv). rewrite Heq in *.
  apply (reads_nil_Some d (concat (map enc (v :: vs)))); [done| |done]. split; [|by apply content_lt].
  cbn [map concat]. rewrite length_app. pose proof (enc_nonempty v Hv). destruct (enc v); [done|cbn [length]; lia].
Qed.

(** What comes back from the wire: a nil gas tip reads as 0. *)
Definition wire (x : WBFTExtra) : WBFTExtra :=
  MkExtra (we_VanityData x) (we_RandaoReveal x) (we_PrevRound x) (we_PrevPreparedSeal x)
    (we_PrevCommittedSeal x) (we_Round x) (we_PreparedSeal x) (we_CommittedSeal x)
    (Some (default 0 (we_GasTip x))) (we_EpochInfo x).

Lemma reads_extra x :
  extra_ok x -> len (enc (extra_val x)) < 2 ^ 64 -> reads decodeExtra (enc (extra_val x)) (wire x).
Proof.
  intros (H1 & H2 & H3 & H4 & H5 & H6 & H7 & H8 & H9 & H10) Hl. pose proof (fun v => elem_lt v _ Hl) as He.
  apply reads_struct; [by apply content_lt|].
  assert (forall p, ptr_ok seal_ok p -> ptr_val seal_val p ∈
    [ptr_val seal_val (we_PrevPreparedSeal x); ptr_val seal_val (we_PrevCommittedSeal x);
     ptr_val seal_val (we_PreparedSeal x); ptr_val seal_val (we_CommittedSeal x)] ->
    reads (field (decodeNilPtr List decodeSeal)) (enc (ptr_val seal_val p)) p) as Hseal.
  { intros p Hp Hin. apply reads_field, (reads_ptr _ _ seal_ok); [apply starts_seal| |apply reads_seal|done|apply He; set_solver].
    intros s. by eexists _, _. }
  eapply reads_bind; [apply reads_field, reads_string; [done|apply He; set_solver]|].
  eapply reads_bind; [apply reads_field, reads_string; [done|apply He; set_solver]|].
  eapply reads_bind; [apply reads_field, (reads_uint 32); [lia|divide8|done]|].
  eapply reads_bind; [apply Hseal; [done|set_solver]|].
  eapply reads_bind; [apply Hseal; [done|set_solver]|].
  eapply reads_bind; [apply reads_field, (reads_uint 32); [lia|divide8|done]|].
  eapply reads_bind; [apply Hseal; [done|set_solver]|].
  eapply reads_bind; [apply Hseal; [done|set_solver]|].
  eapply reads_bind; [apply reads_field, reads_BigInt|].
  { by destruct (we_GasTip x). }
  { apply string_lt, (He (VBigIntPtr (we_GasTip x))). set_solver. }
  eapply reads_bind; [apply reads_field, (reads_ptr _ _ epoch_ok);
    [apply starts_epoch| |apply reads_epoch|done|apply He; set_solver]|].
  { intros e. by eexists _, _. }
  apply reads_ret.
Qed.

(** * Decoding, then encoding *)

(** Relations of the form "the encoding of a well-formed value". *)
Definition encodes {A} (f : A -> val) (P : A -> Prop) (x : A) (bs : list Z) : Prop := P x /\ bs = enc (f x).

Ltac canon_fields := repeat (eapply canon_bind; [apply canon_field|intros ?]).

Lemma canon_seal : canon decodeSeal (encodes seal_val seal_ok).
Proof.
  eapply canon_weaken; [apply canon_struct; canon_fields; [apply canon_Bytes..|apply canon_ret]|].
  intros s bs (c & (b1 & e1 & c1 & [H1 ->] & (b2 & e2 & c2 & [H2 ->] & [-> ->] & ->) & ->) & Hl & ->). done.
Qed.

Lemma canon_candidate : canon decodeCandidate (encodes candidate_val candidate_ok).
Proof.
  eapply canon_weaken; [apply canon_struct; canon_fields;
    [apply (canon_ByteArray 20); lia|apply (canon_uint 64); [lia|divide8|lia]|apply canon_ret]|].
  intros s bs (c & (b1 & e1 & c1 & (Hlen & H1 & ->) & (n & e2 & c2 & [H2 ->] & [-> ->] & ->) & ->) & Hl & ->).
  pose proof (be_value_range b1 H1) as Hr. pose proof (be_bytes_be_value b1 H1) as Hb.
  assert (length b1 = 20%nat) as H20 by lia. rewrite H20 in Hr, Hb.
  split; [split; cbn in *; lia|]. 
  unfold candidate_val; cbn [cd_Addr cd_Diligence].
  assert (addressBytes (be_value b1) = b1) as -> by exact Hb. done.
Qed.

Lemma canon_elems {A} (d : Dec A) (f : A -> val) (P : A -> Prop) :
  starts d -> canon d (encodes f P) -> canon (decodeListSlice d) (encodes (fun xs => VList (map f xs)) (Forall P)).
Proof.
  intros Hst Hd. eapply canon_weaken; [by apply canon_slice|].
  intros xs bs (bss & Hall & Hl & ->).
  enough (Forall P xs /\ concat bss = concat (map enc (map f xs))) as [HP Hc].
  { split; [done|]. unfold enc_list. rewrite Hc. done. }
  clear Hl. induction Hall as [|x b xs bss [Hx ->] _ [IH1 IH2]]; [done|]. cbn. rewrite IH2. split; [by constructor|done].
Qed.

Lemma canon_epoch : canon decodeEpochInfo (encodes epoch_val epoch_ok).
Proof.
  eapply canon_weaken; [apply canon_struct; canon_fields|].
  - apply (canon_elems _ candidate_val candidate_ok); [apply starts_candidate|apply canon_candidate].
  - apply (canon_elems _ VUint (fun i => 0 <= i < 2 ^ 32)); [apply starts_uint|].
    apply (canon_uint 32); [lia|divide8|lia].
  - apply (canon_elems _ VBytes bytes_ok); [apply starts_Bytes|apply canon_Bytes].
  - apply canon_ret.
  - intros s bs (c & (cs & e1 & c1 & [H1 ->] & (vs & e2 & c2 & [H2 ->] & (ks & e3 & c3 & [H3 ->] & [-> ->] & ->) & ->) & ->) & Hl & ->).
    done.
Qed.

Lemma canon_ptr {A} (d : Dec A) (f : A -> val) (P : A -> Prop) :
  starts d -> canon d (encodes f P) -> canon (decodeNilPtr List d) (encodes (ptr_val f) (ptr_ok P)).
Proof.
  intros Hst Hd. eapply canon_weaken; [by apply canon_nil|]. intros [x|] bs; [done|]. by intros ->.
Qed.

Lemma canon_extra :
  canon decodeExtra (encodes extra_val (fun x => extra_ok x /\ we_GasTip x <> None)).
Proof.
  pose proof (canon_ptr _ _ _ starts_seal canon_seal) as Hseal.
  assert (canon (uint_ 32) (encodes VUint (fun n => 0 <= n < 2 ^ 32))) as Hu.
  { apply canon_uint; [lia|divide8|lia]. }
  assert (canon Bytes (encodes VBytes bytes_ok)) as Hb by apply canon_Bytes.
  eapply canon_weaken; [apply canon_struct; canon_fields;
    [exact Hb|exact Hb|exact Hu|exact Hseal|exact Hseal|exact Hu|exact Hseal|exact Hseal|apply canon_BigInt| |apply canon_ret]|].
  { apply (canon_ptr _ _ _ starts_epoch canon_epoch). }
  unfold encodes. intros x bs (c & Hc & Hl & ->).
  repeat match goal with H : exists _, _ |- _ => destruct H | H : _ /\ _ |- _ => destruct H end. subst.
  split; [done|]. cbn. by rewrite ?app_nil_r.
Qed.

(** * Decoding stops *)

Lemma encodes_nonempty {A} (f : A -> val) P x bs :
  (forall b, f x <> VRaw b) -> encodes f P x bs -> bs <> [].
Proof. intros Hf [_ ->]. by apply enc_nonempty. Qed.

Lemma total_seal : total decodeSeal.
Proof. apply total_struct. eauto using total_bind, total_field, total_Bytes, total_ret. Qed.

Lemma total_candidate : total decodeCandidate.
Proof. apply total_struct. eauto using total_bind, total_field, total_ByteArray, total_uint, total_ret. Qed.

Lemma total_epoch : total decodeEpochInfo.
Proof.
  apply total_struct.
  apply total_bind; [apply total_field, (total_slice _ _ starts_candidate total_candidate canon_candidate);
    intros c bs; by apply encodes_nonempty|intros cs].
  apply total_bind; [apply total_field, (total_slice _ (encodes VUint (fun n => 0 <= n < 2 ^ 32)));
    [apply starts_uint|apply total_uint|apply (canon_uint 32); [lia|divide8|lia]|intros c bs; by apply encodes_nonempty]|intros vs].
  apply total_bind; [apply total_field, (total_slice _ (encodes VBytes bytes_ok));
    [apply starts_Bytes|apply total_Bytes|apply canon_Bytes|intros c bs; by apply encodes_nonempty]|intros ks].
  apply total_ret.
Qed.

Lemma total_extra : total decodeExtra.
Proof.
  apply total_struct. pose proof (total_nil List _ total_seal). pose proof (total_nil List _ total_epoch).
  repeat (apply total_bind; [apply total_field; auto using total_Bytes, total_uint, total_BigInt|intros ?]).
  apply total_ret.
Qed.

(** * Both directions together *)

Lemma EncodeExtra_ok x :
  extra_ok x -> len (enc (extra_val x)) < 2 ^ 64 ->
  EncodeExtra x = inr (enc (extra_val x)) /\ ExtractExtra (enc (extra_val x)) = inr (wire x).
Proof.
  intros Hok Hsize. split.
  - by apply EncodeToBytes_spec, val_shape_ok; [apply extra_shape|].
  - apply DecodeBytes_reads; [by apply reads_extra|].
    pose proof (enc_nonempty (extra_val x) ltac:(done)). destruct (enc (extra_val x)); [done|cbn [length]; lia].
Qed.

Lemma ExtractExtra_inv b x :
  Forall is_byte b -> len b < 2 ^ 64 -> ExtractExtra b = inr x ->
  b = enc (extra_val x) /\ EncodeExtra x = inr b /\ extra_ok x /\ wire x = x.
Proof.
  intros Hb Hl Hdec. destruct (DecodeBytes_canon _ _ _ _ canon_extra Hb Hl Hdec) as [[Hok Htip] ->].
  split_and!; [done| |done|].
  - by apply EncodeExtra_ok.
  - destruct x as [? ? ? ? ? ? ? ? [t|] ?]; done.
Qed.

(** * Properties *)

(** A sealer bitmap is a set of validator indices: setting an index adds
    exactly that index, clearing removes exactly it, and [GetSealers] lists
    exactly the members, each once and in increasing order.  (The size bound
    keeps the listed indices within a uint32.) *)
Theorem sealerSet_is_set (s : SealerSet) (i j : Z) (Hi : 0 <= i) (Hj : 0 <= j) (Hs : Z.of_nat (length s) <= 2 ^ 29) :
  IsSealer (SetSealer s i) j = IsSealer s j || bool_decide (j = i) /\
  IsSealer (ClearSealer s i) j = IsSealer s j && negb (bool_decide (j = i)) /\
  GetSealers s = filter (fun k => IsSealer s k = true) (seqZ 0 (8 * Z.of_nat (length s))).
Proof.
  split_and!; [by apply IsSealer_SetSealer|by apply IsSealer_ClearSealer|by apply GetSealers_spec].
Qed.

Lemma sealerSet_is_set_witness :
  IsSealer (SetSealer [] 11) 11 = true /\ GetSealers (SetSealer (SetSealer [] 11) 3) = [3; 11].
Proof.
  split; [|reflexivity].
  rewrite (proj1 (sealerSet_is_set [] 11 11 ltac:(lia) ltac:(lia) ltac:(cbn; lia))). reflexivity.
Defined.

(** Extra-data survives the wire: what [setExtra] encodes,
    [ExtractWBFTExtra] decodes to the same extra-data, except that a nil gas tip
    comes back as 0. *)
Theorem extra_roundtrip (x : WBFTExtra) (Hok : extra_ok x) (Hsize : Z.of_nat (length (enc (extra_val x))) < 2 ^ 64) :
  exists b, EncodeExtra x = inr b /\ ExtractExtra b = inr (wire x).
Proof.
  exists (enc (extra_val x)). by apply EncodeExtra_ok.
Qed.

Definition sample_extra : WBFTExtra :=
  MkExtra (replicate 32 0) [1; 2; 3] 1 (Some (AggregatedSeal [7] [9; 9])) None 300 None
    (Some (AggregatedSeal [255; 1] [128])) (Some 27600000000000)
    (Some (MkEpochInfo [MkCandidate 0xabcdef 1900000] [0; 70000] [[5; 6]; []])).

Lemma sample_extra_ok : extra_ok sample_extra.
Proof.
  unfold extra_ok, bytes_ok, ptr_ok, seal_ok, epoch_ok, candidate_ok. cbn.
  split_and!; try lia; repeat constructor; cbn; lia.
Defined.

Lemma extra_roundtrip_witness :
  exists b, EncodeExtra sample_extra = inr b /\ ExtractExtra b = inr sample_extra.
Proof. apply (extra_roundtrip sample_extra sample_extra_ok). vm_compute. reflexivity. Defined.

(** C29. Extra-data is not malleable: a byte string that decodes is the encoding
    of what it decodes to, so two different byte strings never carry the same
    extra-data. *)
Theorem extra_canonical (b : list Z) (x : WBFTExtra)
    (Hb : Forall is_byte b) (Hl : Z.of_nat (length b) < 2 ^ 64) (Hdec : ExtractExtra b = inr x) :
  EncodeExtra x = inr b /\ extra_ok x /\ wire x = x.
Proof.
  apply ExtractExtra_inv in Hdec; tauto.
Qed.

Definition sample_extra_bytes : list Z := Eval vm_compute in enc (extra_val sample_extra).

Lemma extra_canonical_witness :
  EncodeExtra sample_extra = inr sample_extra_bytes /\ extra_ok sample_extra /\ wire sample_extra = sample_extra.
Proof.
  apply (extra_canonical sample_extra_bytes sample_extra).
  - apply (bool_decide_unpack _). vm_compute. exact I.
  - vm_compute. reflexivity.
  - vm_compute. reflexivity.
Defined.

(** Decoding a header's extra-data always ends, with a value or with one of
    the decoder's errors: the element loops never run longer than the input. *)
Theorem extra_decode_total (b : list Z) (Hb : Forall is_byte b) (Hl : Z.of_nat (length b) < 2 ^ 64) :
  ExtractExtra b <> inl OutOfFuel.
Proof. by apply DecodeBytes_total; [apply total_extra|..]. Qed.

Lemma extra_decode_total_witness :
  ExtractExtra [0xC3; 0xC2; 0x80; 0x80] <> inl OutOfFuel /\
  ExtractExtra [0xC3; 0xC2; 0x80; 0x80] = inl ErrExpectedString.
Proof.
  split; [|reflexivity]. apply extra_decode_total; [|cbn; lia].
  apply (bool_decide_unpack _). vm_compute. exact I.
Defined.

(** The two-pass encoder of the RLP library, which collects string data and
    list headers separately and interleaves them at the end, produces the
    recursive RLP encoding of every encodable value. *)
Theorem encoder_correct (v : val) (Hok : val_ok v) : EncodeToBytes v = inr (enc v).
Proof. by apply EncodeToBytes_spec. Qed.

Lemma encoder_correct_witness :
  EncodeToBytes (VList [VBytes [100; 111; 103]; VList [VUint 1024; VList []]]) =
  inr [201; 131; 100; 111; 103; 196; 130; 4; 0; 192].
Proof. rewrite encoder_correct; [reflexivity|]. cbn. repeat split; lia. Defined.
