(* ===== verification/RlpCodec.v ===== *)
(** Encoders and decoders that belong together: what a value is written as, what
    the decoder accepts, and rules that build such pairs for structs from those of
    their fields.  Every pair gives a round trip, canonicity and termination. *)
From S2P Require Import Prelude Rlp RlpStream RlpSpec RlpLists Extra ExtraProps.

(** Values that can be written, as bytes. *)
Definition val_well (v : val) : Prop := val_ok v /\ bytes_ok (enc v).

Lemma putint_byte i : bytes_ok (putint i).
Proof. unfold putint. repeat case_match; apply be_bytes_byte. Qed.

Lemma puthead_byte s l i : bytes_ok (puthead s l i).
Proof.
  assert (forall x, is_byte (u8 x)) as Hu by (intros x; unfold is_byte, u8; apply Z.mod_pos_bound; lia).
  unfold puthead. case_match; constructor; [apply Hu|constructor|apply Hu|apply putint_byte].
Qed.

Lemma enc_string_bytes b : bytes_ok b -> bytes_ok (enc_string b).
Proof.
  intros Hb. assert (bytes_ok (puthead 0x80 0xB7 (len b) ++ b)) as Hp by (apply Forall_app; split; [apply puthead_byte|done]).
  unfold enc_string. destruct b as [|x [|y b]]; [done| |done]. by case_match.
Qed.

(** [f] writes, [d] reads, [P] are the values of the Go type. *)
Record field_ok {A} (f : A -> val) (P : A -> Prop) (d : Dec A) : Prop := {
  co_reads x : P x -> len (enc (f x)) < 2 ^ 64 -> reads d (enc (f x)) x;
  co_canon : canon d (encodes f P);
  co_total : total d;
  co_raw x b : f x <> VRaw b;
  co_valid x : P x -> len (enc (f x)) < 2 ^ 64 -> val_well (f x);
}.

(** As an element of a list, it also has to report the end of the list. *)
Record codec_ok {A} (f : A -> val) (P : A -> Prop) (d : Dec A) : Prop := {
  co_field :> field_ok f P d;
  co_starts : starts d;
}.

Lemma codec_intro {A} (f : A -> val) (P : A -> Prop) (d : Dec A) :
  (forall x, P x -> len (enc (f x)) < 2 ^ 64 -> reads d (enc (f x)) x) -> canon d (encodes f P) -> starts d -> total d ->
  (forall x b, f x <> VRaw b) -> (forall x, P x -> len (enc (f x)) < 2 ^ 64 -> val_well (f x)) -> codec_ok f P d.
Proof. by split. Qed.

(** The fields of a struct, from some field on. *)
Record body_ok {A} (g : A -> list val) (P : A -> Prop) (body : Dec A) : Prop := {
  bo_reads x : P x -> len (concat (map enc (g x))) < 2 ^ 64 -> reads_in body (concat (map enc (g x))) x;
  bo_canon : canon body (fun x bs => P x /\ bs = concat (map enc (g x)));
  bo_never : never EOL body;
  bo_total : total body;
  bo_valid x v : P x -> v ∈ g x -> len (enc v) < 2 ^ 64 -> val_well v;
}.

Lemma body_ret {A} (a : A) : body_ok (fun _ => []) (fun x => x = a) (mret a).
Proof.
  split.
  - intros x -> _. apply reads_reads_in; [done|apply reads_ret].
  - apply canon_ret.
  - apply never_ret.
  - apply total_ret.
  - by intros x v _ ?%elem_of_nil.
Qed.

Lemma reads_in_bind {A B} (d : Dec A) (k : A -> Dec B) b1 b2 a x :
  len (b1 ++ b2) < 2 ^ 64 -> reads d b1 a -> reads_in (k a) b2 x -> reads_in (a ← d; k a) (b1 ++ b2) x.
Proof.
  intros Hl Hd Hk r rem st lim Hrem. rewrite length_app in *. unfold mbind, Dec_bind. rewrite <- app_assoc, Hd.
  2:{ split; [lia|]. intros Hlim. specialize (Hrem Hlim). lia. }
  cbn [sadv]. rewrite u64_small by lia. replace (Z.of_nat (length b1 + length b2) - len b1) with (len b2) by lia.
  rewrite Hk; [by rewrite radv_radv, Nat2Z.inj_add|]. intros Hlim. specialize (Hrem Hlim). subst lim. cbn. lia.
Qed.

(** A field with the value [p x] of the struct [x]. *)
Lemma body_field {A F} (p : A -> F) (f : F -> val) P (d : Dec F) (k : F -> Dec A) g Q :
  field_ok f P d -> (forall a, body_ok (g a) (Q a) (k a)) -> (forall a x, Q a x -> p x = a) ->
  body_ok (fun x => f (p x) :: g (p x) x) (fun x => P (p x) /\ Q (p x) x) (a ← field d; k a).
Proof.
  intros Hd Hk Hp. split.
  - intros x [HP HQ]. cbn [map concat]. intros Hl. pose proof Hl as Hl'. rewrite length_app in Hl'.
    eapply reads_in_bind; [done|apply reads_field, Hd; [done|lia]|]. apply Hk; [done|lia].
  - eapply canon_weaken; [apply canon_bind; [apply canon_field, Hd|intros a; apply Hk]|].
    intros x bs (a & b1 & b2 & [HP ->] & [HQ ->] & ->). by rewrite (Hp a x HQ).
  - apply never_bind; [apply never_field|]. intros a. apply Hk.
  - apply total_bind; [by apply total_field, Hd|]. intros a. apply Hk.
  - intros x v [HP HQ] Hv Hl. apply elem_of_cons in Hv as [->|Hv]; [by apply (co_valid _ _ _ Hd)|]. by eapply Hk.
Qed.

(** An optional field and what follows it: absent in [z] alone. *)
Lemma body_optional {A F} (p : A -> option F) (f : F -> val) P (d : Dec F) (z : A) (k : F -> Dec A) g Q :
  codec_ok f P d -> (forall a, body_ok (g a) (Q a) (k a)) -> (forall a x, Q a x -> p x = Some a) -> p z = None ->
  body_ok (fun x => match p x with Some a => f a :: g a x | None => [] end)
    (fun x => match p x with Some a => P a /\ Q a x | None => x = z end) (optional d z k).
Proof.
  intros Hd Hk Hp Hz. split.
  - intros x. destruct (p x) as [a|] eqn:Hx.
    + intros [HP HQ]. cbn [map concat]. intros Hl. pose proof Hl as Hl'. rewrite length_app in Hl'.
      pose proof (reads_in_bind d k _ _ a x Hl (co_reads _ _ _ Hd a HP ltac:(lia)) (bo_reads _ _ _ (Hk a) x HQ ltac:(lia))) as Hr.
      intros r rem st lim Hrem. rewrite <- (Hr r rem st lim Hrem). unfold optional, mbind, Dec_bind.
      rewrite <- app_assoc, (co_reads _ _ _ Hd a HP ltac:(lia)); [done|]. rewrite length_app.
      split; [lia|]. intros Hlim. specialize (Hrem Hlim). rewrite length_app in Hrem. lia.
    + intros -> _ r rem st lim Hrem. unfold optional. cbn [map concat app length]. change (Z.of_nat 0) with 0.
      rewrite starts_eol by apply Hd. f_equal. f_equal. destruct lim; cbn; lia.
  - intros r rem st lim x s' Hr Hl Hst Hrun. unfold optional in Hrun. destruct (d _) as [[e|a] s1] eqn:Hrd.
    + destruct (decide (e = EOL)) as [->|Hne]; [|destruct e; done]. injection Hrun as <- <-.
      apply starts_eol_inv in Hrd as ->; [|apply Hd|done]. exists [], r. rewrite Hz. split; [done|]. split; [done|].
      change (len []) with 0. by rewrite adv_0.
    + assert ((d ≫= k) (MkStream r rem None st lim) = (inr x, s')) as Hb by (unfold mbind, Dec_bind; by rewrite Hrd).
      apply (canon_bind d k _ _ (co_canon _ _ _ Hd) (fun a => bo_canon _ _ _ (Hk a)) r rem st lim x s' Hr Hl Hst)
        in Hb as (bs & r' & (a' & b1 & b2 & [HP ->] & [HQ ->] & ->) & Heq).
      exists (enc (f a') ++ concat (map enc (g a' x))), r'. split; [|done]. by rewrite (Hp a' x HQ).
  - intros s s'. unfold optional. destruct (d s) as [[e|a] s1]; [destruct e; done|]. apply Hk.
  - intros s Hs. destruct (co_total _ _ _ Hd s Hs) as [H1 H2]. unfold optional. destruct (d s) as [[e|a] s1]; [|by apply Hk].
    destruct e; split; cbn in *; naive_solver.
  - intros x v HP Hv. destruct (p x) as [a|]; [|by apply elem_of_nil in Hv]. destruct HP as [HP HQ].
    apply elem_of_cons in Hv as [->|Hv]; [by apply (co_valid _ _ _ Hd)|]. by eapply Hk.
Qed.

Lemma list_valid vs : len (enc (VList vs)) < 2 ^ 64 -> (forall v, v ∈ vs -> len (enc v) < 2 ^ 64 -> val_well v) -> val_well (VList vs).
Proof.
  intros Hl Hvs. assert (Forall val_well vs) as Hok by (apply Forall_forall; intros v Hv; apply Hvs; [done|by apply (elem_lt v vs)]).
  apply content_lt in Hl. clear Hvs. split.
  - split; [done|]. clear Hl. induction Hok as [|v vs [Hv _] _ IH]; by split.
  - cbn [enc]. apply Forall_app; split; [apply puthead_byte|]. clear Hl. induction Hok as [|v vs [_ Hv] _ IH]; [constructor|].
    cbn. by apply Forall_app.
Qed.

Lemma codec_struct {A} (g : A -> list val) P body : body_ok g P body -> codec_ok (fun x => VList (g x)) P (decodeStruct body).
Proof.
  intros Hb. apply codec_intro.
  - intros x HP Hl. apply content_lt in Hl. apply (reads_list (fun _ => body)); [done|]. by apply Hb.
  - eapply canon_weaken; [apply canon_struct, Hb|]. intros x bs (c & [HP ->] & _ & ->). done.
  - apply starts_struct, Hb.
  - apply total_struct, Hb.
  - done.
  - intros x HP Hl. apply list_valid; [done|]. intros v Hv. by apply (bo_valid _ _ _ Hb x).
Qed.

Lemma codec_slice {A} (f : A -> val) P d :
  codec_ok f P d -> codec_ok (fun xs => VList (map f xs)) (Forall P) (decodeListSlice d).
Proof.
  intros Hd. apply codec_intro.
  - intros xs HP Hl. by apply (reads_elems d f P); [apply Hd..| |].
  - by apply canon_elems; apply Hd.
  - apply starts_slice.
  - apply (total_slice d (encodes f P)); [apply Hd..|]. intros x bs. apply encodes_nonempty, Hd.
  - done.
  - intros xs HP Hl. apply list_valid; [done|]. intros v (x & -> & Hx)%list_elem_of_fmap. apply (co_valid _ _ _ Hd).
    rewrite Forall_forall in HP. by apply HP.
Qed.

(** Another view of the same value. *)
Lemma codec_iso {A A'} (f : A -> val) P d (to : A -> A') (from : A' -> A) (P' : A' -> Prop) :
  codec_ok f P d -> (forall x, P' x -> P (from x) /\ to (from x) = x) -> (forall a, P a -> P' (to a) /\ from (to a) = a) ->
  codec_ok (fun x => f (from x)) P' (a ← d; mret (to a)).
Proof.
  intros Hd Hto Hfrom. apply codec_intro.
  - intros x HP Hl. destruct (Hto x HP) as [HP' Hx]. rewrite <- Hx at 2. by apply reads_map, Hd.
  - eapply canon_weaken; [apply canon_bind; [apply Hd|intros a; apply canon_ret]|].
    intros x bs (a & b1 & b2 & [HP ->] & [-> ->] & ->). destruct (Hfrom a HP) as [HP' Ha].
    split; [done|]. by rewrite app_nil_r, Ha.
  - apply starts_bind; [apply Hd|auto with rlp].
  - apply total_bind; [apply Hd|]. intros a. apply total_ret.
  - intros x b. apply Hd.
  - intros x HP Hl. apply (co_valid _ _ _ Hd); [by apply Hto|done].
Qed.

(** Looking at a header before the value is read. *)
Lemma reads_peek {A} (f : Ahead -> Dec A) a content x :
  ahead_ok a -> len content = a_size a -> starts (f a) -> reads (f a) (header a ++ content) x ->
  reads (kind ≫= f) (header a ++ content) x.
Proof.
  intros Ha Hc Hst Hd r rem st lim Hf. unfold mbind, Dec_bind.
  pose proof (kind_ok a (content ++ r) rem st lim Ha) as Hk.
  rewrite <- Hc, <- Nat2Z.inj_add, <- length_app in Hk. specialize (Hk Hf). rewrite app_assoc in Hk.
  rewrite Hk, (starts_peek _ _ a _ _ _ _ Hst (proj1 Ha) Hk). by apply Hd.
Qed.

Lemma reads_peek_list {A} (f : Ahead -> Dec A) content x :
  len content < 2 ^ 64 -> starts (f (listAhead (len content))) ->
  reads (f (listAhead (len content))) (enc_list content) x -> reads (kind ≫= f) (enc_list content) x.
Proof. intros Hl Hst Hd. apply (reads_peek f (listAhead (len content))); [apply listAhead_ok; lia|done..]. Qed.

Definition fails {A} (d : Dec A) : Prop := forall s a s', d s <> (inr a, s').

Lemma fails_raise {A} e : fails (raise (A := A) e).
Proof. by intros s a s'. Qed.

Lemma canon_peek {A} (f : Ahead -> Dec A) (R : A -> list Z -> Prop) :
  (forall a, fails (f a) \/ starts (f a) /\ canon (f a) R) -> canon (kind ≫= f) R.
Proof.
  intros Hf r rem st lim x s' Hr Hl Hst. unfold mbind, Dec_bind.
  destruct (kind _) as [[e|a] s1] eqn:Hk; [done|]. intros Hrun. destruct (Hf a) as [Hfail|[Hs Hc]]; [by apply Hfail in Hrun|].
  pose proof Hk as Hk'. apply kind_inv in Hk' as (Ha & r1 & Heq & ->); [|done].
  rewrite (starts_peek (f a) _ a _ _ _ _ Hs ltac:(apply Ha) Hk) in Hrun. by eapply Hc.
Qed.

(** [ReadBytes] where the size is known. *)
Lemma reads_ReadBytes b : Forall is_byte b -> len b < 2 ^ 64 -> reads (ReadBytes (len b)) (enc_string b) b.
Proof.
  intros Hb Hl. destruct (string_form_exists b Hb Hl) as (a & content & Hform).
  rewrite (string_form_enc _ _ _ Hform). destruct (string_form_ok _ _ _ Hform) as [Ha Hc].
  apply reads_kind; [done..|]. intros r rem st lim Hf. destruct Hform as [x Hx|b Hl' Hnb]; cbn [a_kind a_size a_byteval byteAhead stringAhead].
  - change (negb (len [x] =? 1)) with false. cbv iota. unfold mbind, Dec_bind. by rewrite rearm_ok.
  - rewrite Z.eqb_refl. cbn [negb]. unfold mbind, Dec_bind. rewrite readFull_ok by done. by rewrite Hnb.
Qed.

Lemma canon_ReadBytes n : canon (ReadBytes n) (fun b bs => bytes_ok b /\ len b = n /\ bs = enc_string b).
Proof.
  apply canon_kind. intros a r rem st lim x s' Ha Hr Hl Hst Hrun.
  destruct a as [k m bv e]. pose proof Ha as (He & Hn & Hk). cbn in He, Hn, Hk; subst e.
  destruct k; cbn [a_kind a_size a_byteval] in Hrun; [| |discriminate Hrun].
  - destruct (Z.eqb_spec n 1) as [->|]; [|discriminate Hrun]. injection Hrun as <- <-. destruct Hk as [-> Hbv]. exists [], r.
    cbn [app length]. change (Z.of_nat 0) with 0. rewrite adv_0 by done. split; [|done]. split; [repeat constructor; lia|].
    split; [done|]. symmetry. by apply (string_form_enc [bv] (byteAhead bv) []), string_form_byte.
  - destruct (Z.eqb_spec n m) as [->|]; [|discriminate Hrun]. subst bv.
    apply canon_readString in Hrun as (r' & -> & Hlx & Hx & Henc & ->); [|lia|done..].
    exists x, r'. by rewrite Hlx.
Qed.

Lemma starts_ReadBytes n : starts (ReadBytes n).
Proof. apply starts_kind. auto 9 with rlp. Qed.

Lemma total_ReadBytes n : total (ReadBytes n).
Proof. apply total_kind. auto 9 with total. Qed.

(** * Field types *)

Lemma codec_Bytes : codec_ok VBytes bytes_ok Bytes.
Proof.
  apply codec_intro; [apply reads_string|apply canon_Bytes|apply starts_Bytes|apply total_Bytes|done|].
  intros b Hb _. split; [done|]. by apply enc_string_bytes.
Qed.

Lemma codec_uint bits :
  0 < bits <= 64 -> (8 | bits) -> codec_ok VUint (fun i => 0 <= i < 2 ^ bits) (uint_ bits).
Proof.
  intros Hb Hd. apply codec_intro; [|apply canon_uint; [lia|done|destruct Hd; lia]|apply starts_uint|apply total_uint|done|].
  - intros i Hi _. apply reads_uint; [lia|done|done].
  - intros i Hi _. split; [cbn; pose proof (Z.pow_le_mono_r 2 bits 64); lia|]. apply enc_string_bytes, big_Bytes_byte.
Qed.

Lemma codec_uint64 : codec_ok VUint (fun i => 0 <= i < 2 ^ 64) (uint_ 64).
Proof. apply codec_uint; [lia|by exists 8]. Qed.

Lemma starts_BigInt : starts BigInt.
Proof.
  apply starts_kind. intros a. apply never_bind; [auto 8 with rlp|]. intros b. unfold setBytes. auto 8 with rlp.
Qed.

Definition bigInt (i : Z) : val := VBigIntPtr (Some i).

Lemma codec_BigInt : codec_ok bigInt (fun i => 0 <= i) BigInt.
Proof.
  apply codec_intro; [|apply canon_BigInt|apply starts_BigInt|apply total_BigInt|done|].
  - intros i Hi Hl%string_lt. by apply reads_BigInt.
  - intros i Hi _. split; [done|]. apply enc_string_bytes, big_Bytes_byte.
Qed.

Lemma reads_Uint256 n : 0 <= n < 2 ^ 256 -> reads Uint256 (enc_string (big_Bytes n)) n.
Proof.
  intros Hn. pose proof (length_big_Bytes n 32 Hn) as Hl.
  destruct (string_form_exists (big_Bytes n) (big_Bytes_byte n) ltac:(lia)) as (a & content & Hform).
  rewrite (string_form_enc _ _ _ Hform). destruct (string_form_ok _ _ _ Hform) as [Ha Hc].
  apply reads_kind; [done..|]. intros r rem st lim Hf.
  inversion Hform as [x Hx Heq|b Hl' Hnb]; subst; cbn [a_kind a_size a_byteval byteAhead stringAhead].
  - unfold mbind, Dec_bind. rewrite rearm_ok by done. cbn [mret Dec_ret]. rewrite Heq. apply setBytes_ok. lia.
  - unfold mbind, Dec_bind. destruct (Z.eqb_spec (len (big_Bytes n)) 0) as [Hz|Hz].
    + assert (big_Bytes n = []) as Hnil by (destruct (big_Bytes n); [done|cbn [length] in Hz; lia]).
      pose proof (fun s => setBytes_ok n s ltac:(lia)) as Hsb. rewrite Hnil in *.
      rewrite rearm_ok by done. cbn [mret Dec_ret]. apply Hsb.
    + destruct (Z.leb_spec (len (big_Bytes n)) 32); [|lia]. rewrite readFull_ok by done. rewrite Hnb. apply setBytes_ok. lia.
Qed.

Lemma canon_Uint256 : canon Uint256 (fun n bs => 0 <= n < 2 ^ 256 /\ bs = enc_string (big_Bytes n)).
Proof.
  apply canon_kind. intros a r rem st lim x s' Ha Hr Hl Hst Hrun.
  destruct a as [kd n bv e]. pose proof Ha as (He & Hn & Hk). cbn in He, Hn, Hk; subst e.
  unfold mbind in Hrun. unfold Dec_bind in Hrun at 1.
  assert (forall b s, Forall is_byte b -> len b <= 32 -> setBytes b s = (inr x, s') -> 0 <= x < 2 ^ 256) as Hbound.
  { intros b s Hb Hlb (-> & Hx & ->)%setBytes_inv; [|done]. pose proof (be_value_range _ Hb) as Hrange.
    rewrite big_Bytes_value in Hrange by done. pose proof (Z.pow_le_mono_r 256 (len (big_Bytes x)) 32). lia. }
  destruct kd; cbn [a_kind a_size a_byteval] in Hrun; [| |discriminate Hrun].
  - destruct Hk as [-> Hbv]. change (setBytes [bv] (MkStream r rem None st lim) = (inr x, s')) in Hrun.
    assert (Forall is_byte [bv]) as Hb by (repeat constructor; lia). pose proof (Hbound _ _ Hb ltac:(done) Hrun) as Hx.
    apply setBytes_inv in Hrun as (-> & _ & Heq); [|done]. exists [], r. cbn [app length]. change (Z.of_nat 0) with 0.
    rewrite adv_0 by done. split; [|done]. split; [done|]. rewrite <- Heq, enc_string_byte by lia. done.
  - subst bv. destruct (Z.eqb_spec n 0) as [->|Hn0].
    { change (setBytes [] (MkStream r rem None st lim) = (inr x, s')) in Hrun. pose proof (Hbound [] _ ltac:(done) ltac:(done) Hrun) as Hx.
      apply setBytes_inv in Hrun as (-> & _ & Heq); [|done]. exists [], r. cbn [app length]. change (Z.of_nat 0) with 0.
      rewrite adv_0 by done. split; [|done]. by rewrite <- Heq. }
    destruct (Z.leb_spec n 32); [|discriminate Hrun].
    match type of Hrun with match ?m with _ => _ end = _ => destruct m as [[e|b] s1] eqn:Hrf end; [done|].
    apply canon_readString in Hrf as (r' & -> & Hb & Hbytes & Henc & ->); [|lia|done|done].
    pose proof (Hbound _ _ Hbytes ltac:(lia) Hrun) as Hx. apply setBytes_inv in Hrun as (-> & _ & ->); [|done].
    exists (big_Bytes x), r'. rewrite Hb. done.
Qed.

Lemma codec_Uint256 : codec_ok bigInt (fun i => 0 <= i < 2 ^ 256) Uint256.
Proof.
  apply codec_intro; [intros i Hi _; by apply reads_Uint256|apply canon_Uint256| | |done|intros i Hi _; split; [cbn; lia|apply enc_string_bytes, big_Bytes_byte]].
  - apply starts_kind. intros a. apply never_bind; [auto 8 with rlp|]. intros b. unfold setBytes. auto 8 with rlp.
  - apply total_kind. intros a _. unfold setBytes. auto 9 with total.
Qed.

Lemma starts_ByteArray n : starts (ByteArray n).
Proof. apply starts_kind. auto 9 with rlp. Qed.

Lemma codec_ByteArray n :
  1 < n < 2 ^ 64 -> codec_ok VByteArray (fun b => len b = n /\ bytes_ok b) (ByteArray n).
Proof.
  intros Hn. apply codec_intro; [|by eapply canon_weaken; [by apply canon_ByteArray|]; intros b bs (? & ? & ->)
    |apply starts_ByteArray|apply total_ByteArray|done|].
  - intros b [Hb _] _. by apply reads_ByteArray.
  - intros b [_ Hb] _. split; [done|]. by apply enc_string_bytes.
Qed.

(** Arrays of bytes as numbers: hashes, addresses, blooms, nonces. *)
Definition fixedBytes (n : nat) (i : Z) : val := VByteArray (be_bytes n i).
Definition FixedBytes (n : nat) : Dec Z := b ← ByteArray (Z.of_nat n); mret (be_value b).

Lemma codec_FixedBytes n :
  1 < Z.of_nat n < 2 ^ 64 -> codec_ok (fixedBytes n) (fun i => 0 <= i < 256 ^ Z.of_nat n) (FixedBytes n).
Proof.
  intros Hn. apply (codec_iso VByteArray (fun b => len b = Z.of_nat n /\ bytes_ok b) (ByteArray (Z.of_nat n)) be_value (be_bytes n)).
  - by apply codec_ByteArray.
  - intros i Hi. rewrite be_value_mod, Z.mod_small by done. split; [|done]. split; [by rewrite length_be_bytes|apply be_bytes_byte].
  - intros b [Hl Hb]. pose proof (be_value_range b Hb) as Hr. pose proof (be_bytes_be_value b Hb) as Hx.
    rewrite Hl in Hr. split; [done|]. assert (length b = n) as Hn' by lia. by rewrite Hn' in Hx.
Qed.

(** A nil pointer to an array is written as an empty string. *)
Definition addressPtr (a : option Address) : val :=
  match a with Some a => fixedBytes 20 a | None => VNilPtr 0x80 end.
Definition AddressPtr : Dec (option Address) := decodeNilPtr String (FixedBytes 20).

Lemma canon_nil_string {A} (d : Dec A) R :
  starts d -> canon d R ->
  canon (decodeNilPtr String d) (fun o bs => match o with None => bs = [0x80] | Some x => R x bs end).
Proof.
  intros Hs Hd r rem st lim o s' Hr Hl Hst. unfold decodeNilPtr, mbind at 1, Dec_bind at 1.
  destruct (kind _) as [[e|a] s1] eqn:Hk; [done|].
  pose proof Hk as Hk'. apply kind_inv in Hk' as (Ha & r1 & Heq & ->); [|done].
  destruct (_ && _) eqn:Hc.
  - apply andb_true_iff in Hc as [_ Hn%Z.eqb_eq].
    destruct (bool_decide (a_kind a <> String)) eqn:Hb; [intros H; discriminate H|].
    apply bool_decide_eq_false in Hb. destruct a as [k n bv e]. pose proof Ha as (He & _ & Hbv).
    cbn in He, Hbv, Hn, Hb. subst. intros H; injection H as <- <-.
    destruct k; [naive_solver| |naive_solver]. by exists [0x80], r1.
  - unfold mbind, Dec_bind. rewrite (starts_peek d _ a _ _ _ _ Hs ltac:(apply Ha) Hk).
    destruct (d _) as [[e|x] s2] eqn:Hrd; [done|]. intros H; injection H as <- <-.
    destruct (Hd _ _ _ _ _ _ Hr Hl Hst Hrd) as (bs & r' & HR & Hr' & ->). by exists bs, r'.
Qed.

Lemma fixed_header n i :
  1 < Z.of_nat n < 2 ^ 64 -> enc (fixedBytes n i) = header (stringAhead (Z.of_nat n)) ++ be_bytes n i.
Proof.
  intros Hn. cbn [enc fixedBytes]. rewrite <- enc_string_long; rewrite length_be_bytes; [done|lia|].
  by destruct (Z.eqb_spec (Z.of_nat n) 1); [lia|].
Qed.

Lemma field_AddressPtr : field_ok addressPtr (ptr_ok (fun a => 0 <= a < 2 ^ 160)) AddressPtr.
Proof.
  pose proof (codec_FixedBytes 20 ltac:(lia)) as Hc. split.
  - intros [a|] HP Hl.
    + cbn [addressPtr] in *. pose proof (co_reads _ _ _ Hc a HP Hl) as Hr. rewrite fixed_header in * by lia.
      apply reads_peek; [by repeat split; cbn|by rewrite length_be_bytes| |]; cbn.
      * apply starts_bind; [apply Hc|auto with rlp].
      * by apply reads_map.
    + apply (reads_kind _ (stringAhead 0) []); [by repeat split; cbn|done|].
      intros r rem st lim Hf. cbn. rewrite (bool_decide_eq_true_2 (String <> Byte)), (bool_decide_eq_false_2 (String <> String)) by naive_solver.
      unfold mbind, Dec_bind. cbn [andb]. by rewrite rearm_ok.
  - eapply canon_weaken; [apply canon_nil_string; [apply Hc|apply Hc]|]. intros [a|] bs; [by intros [? ->]|by intros ->].
  - apply total_nil, Hc.
  - by intros [].
  - intros [a|] HP Hl; [by apply (co_valid _ _ _ Hc)|]. split; [done|]. repeat constructor; done.
Qed.

(** * Whole values *)

(** [val_ok] as a test. *)
Fixpoint val_okb (v : val) : bool :=
  match v with
  | VUint i => (0 <=? i) && (i <? 2 ^ 64)
  | VBigIntPtr (Some i) => 0 <=? i
  | VList vs => (Z.of_nat (length (concat (map enc vs))) <? 2 ^ 64) && forallb val_okb vs
  | _ => true
  end.

(** [rlp.EncodeToBytes].  It fails on negative integers; unsigned integers of
    more than 64 bits and values whose encoding has 2^64 bytes do not exist. *)
Definition marshal (v : val) : option (list Z) :=
  if val_okb v && (Z.of_nat (length (enc v)) <? 2 ^ 64) then
    match EncodeToBytes v with inr b => Some b | inl _ => None end
  else None.

Lemma val_okb_spec v : val_okb v = true <-> val_ok v.
Proof.
  induction v as [v Hatom|vs IH] using val_ind_nested.
  - destruct v as [|i| |[i|]| | | |vs]; cbn; try done; [|apply Z.leb_le|by destruct (Hatom vs)].
    rewrite andb_true_iff, Z.leb_le, Z.ltb_lt. done.
  - cbn [val_okb val_ok]. rewrite andb_true_iff, Z.ltb_lt. apply and_iff_compat_l.
    induction IH as [|v vs Hv _ IHvs]; cbn; [done|]. rewrite andb_true_iff, Hv, IHvs. done.
Qed.

Lemma marshal_inv v b : marshal v = Some b -> b = enc v /\ val_ok v /\ len (enc v) < 2 ^ 64.
Proof.
  unfold marshal. destruct (val_okb v && _) eqn:Hv; [|done]. apply andb_true_iff in Hv as [Hv Hl%Z.ltb_lt].
  apply val_okb_spec in Hv. rewrite EncodeToBytes_spec by done. by intros [= <-].
Qed.

Lemma marshal_enc v : val_ok v -> len (enc v) < 2 ^ 64 -> marshal v = Some (enc v).
Proof.
  intros Hv Hl. unfold marshal. rewrite (proj2 (val_okb_spec v) Hv), (proj2 (Z.ltb_lt _ _) Hl). cbn [andb].
  by rewrite EncodeToBytes_spec.
Qed.

(** ** Encodings are self-delimiting *)

Lemma enc_string_prefix b b' x y :
  bytes_ok b -> bytes_ok b' -> len b < 2 ^ 64 -> len b' < 2 ^ 64 -> enc_string b ++ x = enc_string b' ++ y -> b = b' /\ x = y.
Proof.
  intros Hb Hb' Hl Hl' Heq. assert (forall n, fits n 0 [] false) as Hf by (by split).
  pose proof (reads_Bytes b Hb Hl x 0 [] false (Hf _)) as H1'. rewrite Heq, (reads_Bytes b' Hb' Hl' y 0 [] false (Hf _)) in H1'.
  by injection H1' as -> ->.
Qed.

Lemma enc_list_prefix c c' x y :
  len c < 2 ^ 64 -> len c' < 2 ^ 64 -> enc_list c ++ x = enc_list c' ++ y -> c = c' /\ x = y.
Proof.
  intros Hl Hl' Heq. assert (forall n, fits n 0 [] false) as Hf by (by split).
  pose proof (openList_ok c x 0 [] false Hl (Hf _)) as H1'. rewrite Heq, (openList_ok c' y 0 [] false Hl' (Hf _)) in H1'.
  injection H1' as Hlen Hcx _. apply app_inj_1; [lia|done].
Qed.

Lemma big_prefix i j x y :
  0 <= i -> 0 <= j -> len (enc_string (big_Bytes i)) < 2 ^ 64 -> len (enc_string (big_Bytes j)) < 2 ^ 64 ->
  enc_string (big_Bytes i) ++ x = enc_string (big_Bytes j) ++ y -> i = j /\ x = y.
Proof.
  intros Hi Hj Hl%string_lt Hl'%string_lt Heq. apply enc_string_prefix in Heq as [Hb ->]; [|by (apply big_Bytes_byte || done)..].
  by rewrite <- (big_Bytes_value i), Hb, big_Bytes_value.
Qed.
