(* ===== verification/Shuffle.v ===== *)
(** Ordering of the next epoch's validators (src/consensus/wbft/engine/engine.go,
    [computeShuffledIndex], [sortCandidates], [decideValidators]): candidates are
    sorted by power and diligence, then shuffled by the swap-or-not shuffle of
    the beacon chain, seeded with the header's mix digest. *)
From stdpp Require Import sorting.
From S2P Require Import Prelude Rlp.

(** * The swap-or-not shuffle *)

Section shuffle.
(** [crypto.Keccak256Hash]. *)
Context (Keccak256Hash : list Z -> list Z).

Definition shuffleRoundCount : Z := 33.

(** [binary.LittleEndian]. *)
Fixpoint le_value (bs : list Z) : Z :=
  match bs with [] => 0 | b :: bs => b + 256 * le_value bs end.
Fixpoint le_bytes (n : nat) (i : Z) : list Z :=
  match n with O => [] | S n => u8 i :: le_bytes n (Z.shiftr i 8) end.

Definition fromBytes8 (x : list Z) : Z :=
  if (length x <? 8)%nat then 0 else le_value (take 8 x).

(** The pivot of a round: the buffer's first 33 bytes are the seed and the
    round. *)
Definition shufflePivot (seed : list Z) (round indexCount : Z) : Z :=
  fromBytes8 (take 8 (Keccak256Hash (seed ++ [round]))) mod indexCount.

(** The bit of the hash that decides whether [position] and its mirror swap. *)
Definition shuffleBit (seed : list Z) (round position : Z) : Z :=
  let source := Keccak256Hash (seed ++ [round] ++ take 4 (le_bytes 8 (Z.shiftr position 8))) in
  let byteV := nth (Z.to_nat (Z.shiftr (Z.land position 0xff) 3)) source 0 in
  Z.land (Z.shiftr byteV (Z.land position 0x7)) 0x1.

(** One round of the loop. *)
Definition shuffleRound (seed : list Z) (indexCount round index : Z) : Z :=
  let pivot := shufflePivot seed round indexCount in
  let flip := u64 (u64 (pivot + indexCount) - index) mod indexCount in
  let position := if index <? flip then flip else index in
  if shuffleBit seed round position =? 1 then flip else index.

(** The loop; [fuel] counts the rounds that may still follow, 32 are enough. *)
Fixpoint shuffleLoop (fuel : nat) (shuffle : bool) (seed : list Z) (indexCount round index : Z) : Z :=
  let index := shuffleRound seed indexCount round index in
  match fuel with
  | O => index
  | S fuel =>
      if shuffle then
        let round := u8 (round + 1) in
        if round =? shuffleRoundCount then index
        else shuffleLoop fuel shuffle seed indexCount round index
      else
        if round =? 0 then index
        else shuffleLoop fuel shuffle seed indexCount (u8 (round - 1)) index
  end.

(** [None] is the error for an index out of bounds. *)
Definition computeShuffledIndex (index indexCount : Z) (seed : list Z) (shuffle : bool) : option Z :=
  if indexCount <=? index then None
  else
    let round := if shuffle then 0 else u8 (shuffleRoundCount - 1) in
    Some (shuffleLoop 32 shuffle seed indexCount round index).

(** * Deciding the validators *)

Record PoweredCandidate := MkPowered { pc_Addr : Address; pc_Power : Z; pc_Diligence : Z }.

#[global] Instance PoweredCandidate_inhabited : Inhabited PoweredCandidate := populate (MkPowered 0 0 0).

(** The comparison of [sortCandidates]: more power first, then more diligence.
    The indices that are compared are positions of the candidate list. *)
Definition candidateLess (candidates : list PoweredCandidate) (i j : nat) : bool :=
  let candidateI := candidates !!! i in
  let candidateJ := candidates !!! j in
  if pc_Power candidateI =? pc_Power candidateJ then pc_Diligence candidateJ <? pc_Diligence candidateI
  else pc_Power candidateJ <? pc_Power candidateI.
End shuffle.

(** [sort.Slice]: a permutation in which no element is less than an earlier one.
    It is not stable: the order of equal elements is the library's choice. *)
Class SortSlice : Type := {
  sortSlice : forall {A : Type}, (A -> A -> bool) -> list A -> list A;
  sortSlice_perm : forall {A : Type} (less : A -> A -> bool) (l : list A), sortSlice less l ≡ₚ l;
  sortSlice_sorted : forall {A : Type} (less : A -> A -> bool) (l : list A),
    (forall x y, less x y = true -> less y x = false) ->
    (forall x y z, less y x = false -> less z y = false -> less z x = false) ->
    StronglySorted (fun x y => less y x = false) (sortSlice less l);
}.

Section decide.
Context (Keccak256Hash : list Z -> list Z) `{SortSlice}.

Definition sortCandidates (candidates : list PoweredCandidate) : list nat :=
  sortSlice (candidateLess candidates) (seq 0 (length candidates)).

(** [indices[shuffledIdx]] for every position; an error of the shuffle ends the
    loop. *)
Fixpoint pickValidators (indices : list nat) (seed : list Z) (positions : list nat) : option (list Z) :=
  match positions with
  | [] => Some []
  | i :: positions =>
      match computeShuffledIndex Keccak256Hash (Z.of_nat i) (Z.of_nat (length indices)) seed true with
      | None => None
      | Some shuffledIdx =>
          match indices !! Z.to_nat shuffledIdx with
          | None => None
          | Some v => match pickValidators indices seed positions with
                      | Some vs => Some (u32 (Z.of_nat v) :: vs)
                      | None => None
                      end
          end
      end
  end.

(** [decideValidators]; [seed] is [header.MixDigest]. *)
Definition decideValidators (seed : list Z) (newStakers : list PoweredCandidate) : option (list Z) :=
  let indices := sortCandidates newStakers in
  pickValidators indices seed (seq 0 (length indices)).
End decide.

Definition mergeSortLess {A} (less : A -> A -> bool) (l : list A) : list A :=
  merge_sort (H := fun x y => bool_eq_dec (less y x) false) (fun x y => less y x = false) l.

#[export] Instance mergeSort : SortSlice.
Proof.
  refine {| sortSlice := @mergeSortLess |}.
  - intros A less l. apply merge_sort_Permutation.
  - intros A less l Hasym Htrans. apply StronglySorted_merge_sort.
    + intros x y z. apply Htrans.
    + intros x y. destruct (less y x) eqn:Hyx; [|by left]. right. by apply Hasym.
Defined.

(** * The shuffle is a permutation *)

Section shuffle_proofs.
Context (Keccak256Hash : list Z -> list Z) (seed : list Z) (n : Z) (Hn : 0 < n < 2 ^ 63).

Abbreviation step := (shuffleRound Keccak256Hash seed n).

Lemma pivot_range r : 0 <= shufflePivot Keccak256Hash seed r n < n.
Proof. apply Z.mod_pos_bound. lia. Qed.

Lemma flip_eq r i : 0 <= i < n ->
  u64 (u64 (shufflePivot Keccak256Hash seed r n + n) - i) mod n = (shufflePivot Keccak256Hash seed r n - i) mod n.
Proof.
  intros Hi. pose proof (pivot_range r). rewrite !u64_small by (rewrite ?u64_small; lia).
  replace (shufflePivot Keccak256Hash seed r n + n - i) with (shufflePivot Keccak256Hash seed r n - i + 1 * n) by lia.
  apply Z.mod_add. lia.
Qed.

Lemma shuffleRound_range r i : 0 <= i < n -> 0 <= step r i < n.
Proof. intros Hi. unfold shuffleRound. case_match; [|done]. apply Z.mod_pos_bound. lia. Qed.

(** A round swaps an index with its mirror image or leaves both in place. *)
Lemma shuffleRound_involutive r i : 0 <= i < n -> step r (step r i) = i.
Proof.
  intros Hi. set (p := shufflePivot Keccak256Hash seed r n). set (f := (p - i) mod n).
  assert (0 <= f < n) as Hf by (apply Z.mod_pos_bound; lia).
  assert ((p - f) mod n = i) as Hmirror.
  { unfold f. rewrite Zminus_mod_idemp_r. replace (p - (p - i)) with i by lia. apply Z.mod_small. lia. }
  assert (forall a b, 0 <= a < n -> b = (p - a) mod n ->
    step r a = if shuffleBit Keccak256Hash seed r (Z.max a b) =? 1 then b else a) as Hstep.
  { intros a b Ha ->. unfold shuffleRound. rewrite flip_eq by done. fold p.
    replace (if a <? (p - a) mod n then (p - a) mod n else a) with (Z.max a ((p - a) mod n)); [done|].
    destruct (Z.ltb_spec a ((p - a) mod n)); lia. }
  rewrite (Hstep i f) by done. destruct (shuffleBit _ _ _ (Z.max i f) =? 1) eqn:Hbit.
  - rewrite (Hstep f i) by done. by rewrite Z.max_comm, Hbit.
  - rewrite (Hstep i f) by done. by rewrite Hbit.
Qed.

(** The loops as folds over the rounds they run. *)
Lemma shuffleLoop_up k r i :
  0 <= r -> r + Z.of_nat k = 32 ->
  shuffleLoop Keccak256Hash k true seed n r i = fold_left (fun i r => step r i) (seqZ r (Z.of_nat (S k))) i.
Proof.
  revert r i. induction k as [|k IH]; intros r i Hr Hk.
  - rewrite seqZ_cons by lia. cbn. rewrite seqZ_nil by lia. done.
  - rewrite seqZ_cons by lia. cbn [shuffleLoop fold_left].
    rewrite u8_small by lia. unfold shuffleRoundCount. destruct (Z.eqb_spec (r + 1) 33); [lia|].
    rewrite IH by lia. do 2 f_equal. lia.
Qed.

Lemma shuffleLoop_down k i :
  (k <= 32)%nat ->
  shuffleLoop Keccak256Hash k false seed n (Z.of_nat k) i =
  fold_left (fun i r => step r i) (rev (seqZ 0 (Z.of_nat (S k)))) i.
Proof.
  revert i. induction k as [|k IH]; intros i Hk; [done|].
  cbn [shuffleLoop]. rewrite seqZ_S, rev_app_distr. cbn [rev app fold_left].
  destruct (Z.eqb_spec (Z.of_nat (S k)) 0); [lia|].
  rewrite u8_small by lia. replace (Z.of_nat (S k) - 1) with (Z.of_nat k) by lia. apply IH. lia.
Qed.

Lemma fold_range rs i : 0 <= i < n -> 0 <= fold_left (fun i r => step r i) rs i < n.
Proof. revert i. induction rs as [|r rs IH]; intros i Hi; [done|]. apply IH. by apply shuffleRound_range. Qed.

Lemma fold_unfold rs i : 0 <= i < n ->
  fold_left (fun i r => step r i) (rev rs) (fold_left (fun i r => step r i) rs i) = i.
Proof.
  revert i. induction rs as [|r rs IH]; intros i Hi; [done|]. cbn [rev fold_left].
  rewrite fold_left_app, IH by (by apply shuffleRound_range). by apply shuffleRound_involutive.
Qed.

Definition rounds : list Z := seqZ 0 33.

Lemma shuffle_up i : 0 <= i < n ->
  computeShuffledIndex Keccak256Hash i n seed true = Some (fold_left (fun i r => step r i) rounds i).
Proof.
  intros Hi. unfold computeShuffledIndex. destruct (Z.leb_spec n i); [lia|].
  cbv zeta. rewrite shuffleLoop_up by lia. unfold rounds. change (Z.of_nat 33) with 33. reflexivity.
Qed.

Lemma shuffle_down i : 0 <= i < n ->
  computeShuffledIndex Keccak256Hash i n seed false = Some (fold_left (fun i r => step r i) (rev rounds) i).
Proof.
  intros Hi. unfold computeShuffledIndex. destruct (Z.leb_spec n i); [lia|].
  cbv zeta. change (u8 (shuffleRoundCount - 1)) with (Z.of_nat 32). rewrite shuffleLoop_down by lia.
  unfold rounds. change (Z.of_nat 33) with 33. reflexivity.
Qed.

Lemma shuffle_injective i j : 0 <= i < n -> 0 <= j < n ->
  computeShuffledIndex Keccak256Hash i n seed true = computeShuffledIndex Keccak256Hash j n seed true -> i = j.
Proof.
  intros Hi Hj. rewrite !shuffle_up by done. intros Heq. apply Some_inj in Heq.
  generalize dependent rounds. intros rs Heq.
  rewrite <- (fold_unfold rs i Hi), <- (fold_unfold rs j Hj). by f_equal.
Qed.
End shuffle_proofs.

(** * The chosen validators *)

Section decide_proofs.
Context (Keccak256Hash : list Z -> list Z) `{SortSlice}.
Implicit Types (seed : list Z) (cs : list PoweredCandidate).

Lemma candidateLess_asym cs x y : candidateLess cs x y = true -> candidateLess cs y x = false.
Proof.
  unfold candidateLess. rewrite (Z.eqb_sym (pc_Power (cs !!! y))). case_match; zify_bools.
  all: rewrite ?Z.ltb_lt, ?Z.ltb_ge; lia.
Qed.

Lemma candidateLess_trans cs x y z :
  candidateLess cs y x = false -> candidateLess cs z y = false -> candidateLess cs z x = false.
Proof. unfold candidateLess. repeat case_match; zify_bools; rewrite ?Z.ltb_lt, ?Z.ltb_ge; lia. Qed.

Lemma sortCandidates_perm cs : sortCandidates cs ≡ₚ seq 0 (length cs).
Proof. apply sortSlice_perm. Qed.

Lemma length_sortCandidates cs : length (sortCandidates cs) = length cs.
Proof. rewrite sortCandidates_perm. apply length_seq. Qed.

(** Where position [i] is taken from. *)
Definition source_of (m : nat) seed (i : nat) : nat :=
  Z.to_nat (fold_left (fun i r => shuffleRound Keccak256Hash seed (Z.of_nat m) r i) rounds (Z.of_nat i)).

Lemma shuffle_source m seed i :
  (i < m)%nat -> Z.of_nat m < 2 ^ 63 ->
  computeShuffledIndex Keccak256Hash (Z.of_nat i) (Z.of_nat m) seed true = Some (Z.of_nat (source_of m seed i)) /\
  (source_of m seed i < m)%nat.
Proof.
  intros Hi Hm. rewrite shuffle_up by lia. unfold source_of.
  pose proof (fold_range Keccak256Hash seed (Z.of_nat m) ltac:(lia) rounds (Z.of_nat i) ltac:(lia)) as Hr.
  set (k := fold_left _ _ _) in *. clearbody k. split; [f_equal|]; lia.
Qed.
#[local] Opaque source_of computeShuffledIndex.

Lemma pickValidators_spec indices seed ps :
  Z.of_nat (length indices) < 2 ^ 63 -> Forall (fun i => (i < length indices)%nat) ps ->
  pickValidators Keccak256Hash indices seed ps =
  Some (map (fun i => u32 (Z.of_nat (indices !!! source_of (length indices) seed i))) ps).
Proof.
  intros Hlen. induction 1 as [|i ps Hi _ IH]; [done|]. cbn [pickValidators map].
  destruct (shuffle_source (length indices) seed i Hi Hlen) as [-> Hlt]. rewrite Nat2Z.id.
  destruct (lookup_lt_is_Some_2 _ _ Hlt) as [v Hv].
  by rewrite Hv, IH, (list_lookup_total_correct _ _ _ Hv).
Qed.

Lemma source_of_perm m seed :
  Z.of_nat m < 2 ^ 63 -> map (source_of m seed) (seq 0 m) ≡ₚ seq 0 m.
Proof.
  intros Hm. apply submseteq_length_Permutation; [|by rewrite length_map].
  apply NoDup_submseteq.
  - apply NoDup_fmap_2_strong; [|apply NoDup_seq].
    intros i j Hi%elem_of_seq Hj%elem_of_seq Heq.
    destruct (shuffle_source m seed i ltac:(lia) Hm) as [H1 _].
    destruct (shuffle_source m seed j ltac:(lia) Hm) as [H2 _].
    enough (Z.of_nat i = Z.of_nat j) by lia.
    apply (shuffle_injective Keccak256Hash seed (Z.of_nat m)); [lia..|]. by rewrite H1, H2, Heq.
  - intros x (i & -> & Hi%elem_of_seq)%list_elem_of_fmap. apply elem_of_seq.
    destruct (shuffle_source m seed i ltac:(lia) Hm) as [_ ?]. lia.
Qed.

Lemma map_lookup_seq {A} (l : list nat) (f : nat -> A) :
  map (fun k => f (l !!! k)) (seq 0 (length l)) = map f l.
Proof.
  induction l as [|x l IH]; [done|]. cbn [length seq map]. f_equal.
  rewrite <- seq_shift, map_map. apply IH.
Qed.

Lemma decideValidators_perm seed cs :
  Z.of_nat (length cs) < 2 ^ 32 ->
  exists vs, decideValidators Keccak256Hash seed cs = Some vs /\ vs ≡ₚ map Z.of_nat (seq 0 (length cs)).
Proof.
  intros Hlen. unfold decideValidators. pose proof (length_sortCandidates cs) as Hl.
  rewrite pickValidators_spec; [eexists; split; [done|]|lia|].
  2:{ apply Forall_forall. intros i Hi%elem_of_seq. lia. }
  set (idx := sortCandidates cs) in *. rewrite Hl.
  assert (map (fun i => u32 (Z.of_nat (idx !!! source_of (length cs) seed i))) (seq 0 (length cs)) =
    map (fun k => u32 (Z.of_nat (idx !!! k))) (map (source_of (length cs) seed) (seq 0 (length cs)))) as ->.
  { by rewrite map_map. }
  rewrite source_of_perm by lia. rewrite <- (sortCandidates_perm cs) at 2. fold idx.
  rewrite <- Hl. clear seed Hl.
  assert (Forall (fun k => Z.of_nat k < 2 ^ 32) idx) as Hidx.
  { unfold idx. rewrite sortCandidates_perm. apply Forall_forall. intros k Hk%elem_of_seq. lia. }
  rewrite (map_lookup_seq idx (fun v => u32 (Z.of_nat v))).
  enough (map (fun v => u32 (Z.of_nat v)) idx = map Z.of_nat idx) as -> by done.
  clearbody idx. induction Hidx as [|k l Hk _ IH]; [done|]. cbn. by rewrite IH, u32_small by lia.
Qed.

(** Before shuffling, no candidate comes behind one with less power or, at equal
    power, less diligence. *)
Lemma sortCandidates_sorted cs :
  StronglySorted (fun i j => candidateLess cs j i = false) (sortCandidates cs).
Proof. apply sortSlice_sorted; [apply candidateLess_asym|apply candidateLess_trans]. Qed.
End decide_proofs.

(** [computeShuffledIndex] permutes the positions below [indexCount]: the
    shuffled position is in range, and the unshuffling direction (rounds in
    reverse) maps it back; an index out of bounds is an error.  This holds for
    whatever the hash function returns. *)
Theorem shuffle_inverse (Keccak256Hash : list Z -> list Z) (seed : list Z) (n i : Z)
    (Hn : 0 < n < 2 ^ 63) (Hi : 0 <= i) :
  match computeShuffledIndex Keccak256Hash i n seed true with
  | Some j => 0 <= j < n /\ computeShuffledIndex Keccak256Hash j n seed false = Some i
  | None => n <= i
  end.
Proof.
  destruct (decide (n <= i)) as [Hge|Hlt].
  - unfold computeShuffledIndex. by destruct (Z.leb_spec n i); [|lia].
  - rewrite shuffle_up by lia. split; [apply fold_range; lia|].
    rewrite shuffle_down by (try apply fold_range; lia). f_equal. apply fold_unfold; lia.
Qed.

Lemma shuffle_inverse_witness :
  exists j, computeShuffledIndex (fun b => map (fun x => u8 (x * 7 + 13)) (take 32 b)) 5 21 (seqZ 1 32) true = Some j /\
    computeShuffledIndex (fun b => map (fun x => u8 (x * 7 + 13)) (take 32 b)) j 21 (seqZ 1 32) false = Some 5.
Proof.
  pose proof (shuffle_inverse (fun b => map (fun x => u8 (x * 7 + 13)) (take 32 b)) (seqZ 1 32) 21 5
    ltac:(lia) ltac:(lia)) as H.
  destruct (computeShuffledIndex _ 5 21 _ true) as [j|]; [|lia]. exists j. split; [reflexivity|apply H].
Defined.

(** The validators of the next epoch are the candidates, each exactly once:
    [decideValidators] returns a permutation of the candidate indices, of the
    list that is sorted by power and, at equal power, by diligence; for every
    sorting routine that meets the contract of [sort.Slice] and every hash. *)
Theorem decideValidators_complete `{SortSlice} (Keccak256Hash : list Z -> list Z) (seed : list Z)
    (cs : list PoweredCandidate) (Hlen : Z.of_nat (length cs) < 2 ^ 32) :
  StronglySorted (fun i j => candidateLess cs j i = false) (sortCandidates cs) /\
  exists vs, decideValidators Keccak256Hash seed cs = Some vs /\ vs ≡ₚ map Z.of_nat (seq 0 (length cs)).
Proof. split; [apply sortCandidates_sorted|by apply decideValidators_perm]. Qed.

Lemma decideValidators_complete_witness :
  exists vs, decideValidators (fun b => map (fun x => u8 (x * 7 + 13)) (take 32 b)) (seqZ 1 32)
    [MkPowered 10 1 1900000; MkPowered 11 1 2000000; MkPowered 12 1 5] = Some vs /\ vs ≡ₚ [0; 1; 2].
Proof.
  apply (decideValidators_complete (fun b => map (fun x => u8 (x * 7 + 13)) (take 32 b)) (seqZ 1 32)
    [MkPowered 10 1 1900000; MkPowered 11 1 2000000; MkPowered 12 1 5]). cbn. lia.
Defined.
