(* ===== verification/Header.v ===== *)
(** Block headers and the consensus data in their extra-data
    (src/core/types/block.go, istanbul.go; src/consensus/wbft/engine/engine.go,
    apply_extra.go; [PrepareSeal] of src/consensus/wbft/core/core.go). *)
From S2P Require Import Prelude Validators Messages Rlp RlpStream Extra.

(** * Headers *)

Record Header := MkHeader {
  h_ParentHash : Hash;
  h_UncleHash : Hash;
  h_Coinbase : Address;
  h_Root : Hash;
  h_TxHash : Hash;
  h_ReceiptHash : Hash;
  h_Bloom : Z;
  h_Difficulty : option Z;
  h_Number : option Z;
  h_GasLimit : Z;
  h_GasUsed : Z;
  h_Time : Z;
  h_Extra : bytes;
  h_MixDigest : Hash;
  h_Nonce : Z;
  h_BaseFee : option Z;
  h_WithdrawalsHash : option Hash;
  h_BlobGasUsed : option Z;
  h_ExcessBlobGas : option Z;
  h_ParentBeaconRoot : option Hash;
}.

Definition set_h_Extra (x : bytes) (h : Header) : Header :=
  MkHeader (h_ParentHash h) (h_UncleHash h) (h_Coinbase h) (h_Root h) (h_TxHash h) (h_ReceiptHash h)
    (h_Bloom h) (h_Difficulty h) (h_Number h) (h_GasLimit h) (h_GasUsed h) (h_Time h) x (h_MixDigest h)
    (h_Nonce h) (h_BaseFee h) (h_WithdrawalsHash h) (h_BlobGasUsed h) (h_ExcessBlobGas h) (h_ParentBeaconRoot h).

(** [CopyHeader]: a nil difficulty or number becomes 0. *)
Definition CopyHeader (h : Header) : Header :=
  MkHeader (h_ParentHash h) (h_UncleHash h) (h_Coinbase h) (h_Root h) (h_TxHash h) (h_ReceiptHash h)
    (h_Bloom h) (Some (default 0 (h_Difficulty h))) (Some (default 0 (h_Number h)))
    (h_GasLimit h) (h_GasUsed h) (h_Time h) (h_Extra h) (h_MixDigest h)
    (h_Nonce h) (h_BaseFee h) (h_WithdrawalsHash h) (h_BlobGasUsed h) (h_ExcessBlobGas h) (h_ParentBeaconRoot h).

Definition hashBytes (h : Hash) : bytes := be_bytes 32 h.

(** The generated [Header.EncodeRLP]: an optional field is written when it or a
    later one is present. *)
Definition header_val (h : Header) : val :=
  let t1 := bool_decide (h_BaseFee h <> None) in
  let t2 := bool_decide (h_WithdrawalsHash h <> None) in
  let t3 := bool_decide (h_BlobGasUsed h <> None) in
  let t4 := bool_decide (h_ExcessBlobGas h <> None) in
  let t5 := bool_decide (h_ParentBeaconRoot h <> None) in
  VList (
    [ VBytes (hashBytes (h_ParentHash h)); VBytes (hashBytes (h_UncleHash h));
      VBytes (addressBytes (h_Coinbase h)); VBytes (hashBytes (h_Root h));
      VBytes (hashBytes (h_TxHash h)); VBytes (hashBytes (h_ReceiptHash h));
      VBytes (be_bytes 256 (h_Bloom h)); VBigIntPtr (h_Difficulty h); VBigIntPtr (h_Number h);
      VUint (h_GasLimit h); VUint (h_GasUsed h); VUint (h_Time h); VBytes (h_Extra h);
      VBytes (hashBytes (h_MixDigest h)); VBytes (be_bytes 8 (h_Nonce h)) ] ++
    (if t1 || t2 || t3 || t4 || t5 then [VBigIntPtr (h_BaseFee h)] else []) ++
    (if t2 || t3 || t4 || t5 then
       [match h_WithdrawalsHash h with None => VRaw [0x80] | Some x => VBytes (hashBytes x) end] else []) ++
    (if t3 || t4 || t5 then
       [match h_BlobGasUsed h with None => VRaw [0x80] | Some x => VUint x end] else []) ++
    (if t4 || t5 then
       [match h_ExcessBlobGas h with None => VRaw [0x80] | Some x => VUint x end] else []) ++
    (if t5 then
       [match h_ParentBeaconRoot h with None => VRaw [0x80] | Some x => VBytes (hashBytes x) end] else [])).

Definition ExtractWBFTExtra (h : Header) : RlpError + WBFTExtra := ExtractExtra (h_Extra h).

Definition set_we_filtered (round : Z) (x : WBFTExtra) : WBFTExtra :=
  MkExtra (we_VanityData x) (we_RandaoReveal x) (we_PrevRound x) (we_PrevPreparedSeal x)
    (we_PrevCommittedSeal x) round None None (we_GasTip x) (we_EpochInfo x).

(** [WBFTFilteredHeaderWithRound]: seals removed, round replaced. *)
Definition WBFTFilteredHeaderWithRound (h : Header) (round : Z) : option Header :=
  let newHeader := CopyHeader h in
  match ExtractWBFTExtra newHeader with
  | inl _ => None
  | inr wbftExtra =>
      match EncodeExtra (set_we_filtered round wbftExtra) with
      | inl _ => None
      | inr payload => Some (set_h_Extra payload newHeader)
      end
  end.
Definition WBFTFilteredHeader (h : Header) : option Header := WBFTFilteredHeaderWithRound h 0.

Section header.
Context `{Crypto}.

(** [rlpHash]: an encoding error leaves the hasher empty.  The hash of a nil
    header is the hash of its nil encoding, an empty list. *)
Definition rlpHash (h : option Header) : Hash :=
  be_value (Keccak256 (
    match h with
    | None => [0xC0]
    | Some h => match EncodeToBytes (header_val h) with inr b => b | inl _ => [] end
    end)).

(** [Header.Hash]. *)
Definition header_Hash (h : Header) : Hash :=
  if bool_decide (h_Difficulty h = Some WBFTDefaultDifficulty) then
    match WBFTFilteredHeader h with
    | Some istanbulHeader => rlpHash (Some istanbulHeader)
    | None => rlpHash (Some h)
    end
  else rlpHash (Some h).

Definition WBFTHashWithRoundNumber (h : Header) (round : Z) : Hash :=
  rlpHash (WBFTFilteredHeaderWithRound h round).

Definition sealByte (st : SealType) : Z := match st with SealTypePrepare => 0 | SealTypeCommit => 1 end.

(** [PrepareSeal]: what a validator signs with its BLS key. *)
Definition header_PrepareSeal (header : Header) (round : Z) (sealType : SealType) : bytes :=
  let h := CopyHeader header in
  let roundHeader := hashBytes (WBFTHashWithRoundNumber h round) in
  hashBytes (be_value (Keccak256 (roundHeader ++ [sealByte sealType]))).

(** The engine's hash for signing. *)
Definition sigHash (header : Header) : Hash := rlpHash (WBFTFilteredHeader header).

(** A header as a proposal of the core. *)
#[global] Instance headerProposal : Proposal Header := {|
  Number := fun h => default 0 (h_Number h);
  BHash := header_Hash;
  PrepareSeal := header_PrepareSeal;
|}.
End header.

(** * Writing extra-data *)

Inductive EngineError :=
| ErrUnknownBlock | ErrInvalidBlockNumber | ErrUnauthorized | ErrInvalidDifficulty
| ErrInvalidExtraDataFormat | ErrInvalidUncleHash | ErrInvalidTimestamp
| ErrInvalidPreparedSeals | ErrInvalidPrevPreparedSeals | ErrEmptyPreparedSeals | ErrEmptyPrevPreparedSeals
| ErrInvalidCommittedSeals | ErrInvalidPrevCommittedSeals | ErrEmptyCommittedSeals | ErrEmptyPrevCommittedSeals
| ErrInvalidSeal | ErrEmptySeals | ErrMismatchTxhashes | ErrEpochInfoIsNotNil
| ErrStateUnavailable | ErrBlacklistedSigner
| ErrFutureBlockTime | ErrUnknownAncestor
| ErrGasTipContractUnavailable | GasTipMismatchError
| ErrRlp (e : RlpError) | ErrBls
(** errors made with [errors.New] or [fmt.Errorf] at the place of the check *)
| ErrLackOfSealCount | ErrSealerNotValidator | ErrZeroValidatorAddress | ErrEpochInfoIsNil
| ErrGasLimitTooHigh | ErrShanghai | ErrWithdrawalsHash | ErrCancun | ErrExcessBlobGas | ErrBlobGasUsed
| ErrParentBeaconRoot | ErrGasUsed | ErrBaseFeeBeforeFork | ErrGasLimitBound | ErrGasLimitMin
| ErrMissingBaseFee | ErrInvalidBaseFee | ErrRandaoReveal | ErrRandaoMix | ErrUnknownParent
| ErrGovValidatorDisabled | ErrEmptyStateRoot | ErrSign
| ErrProposerNotFound | ErrSealCountRange | ErrDiligenceRange | ErrShuffledIndex
| ErrCandidateSizes | ErrCandidateMismatch | ErrDiligenceMismatch | ErrValidatorSizes | ErrValidatorMismatch
| ErrBLSKeySizes | ErrBLSKeyMismatch
| ErrNilBaseFee | ErrCandidateIndex | ErrShareOverflow | ErrNegativeDust | ErrDustOverflow
(** not an error of the code: the fuel of a walk along the chain is used up *)
| OutOfFuelWalk.

#[global] Instance EngineError_eq_dec : EqDecision EngineError.
Proof. solve_decision. Defined.

Definition rlp_result {A} (r : RlpError + A) : Outcome EngineError A :=
  match r with inr a => Ret a | inl e => Fail (ErrRlp e) end.

(** [getExtra]: a short extra field is client data, it becomes the vanity. *)
Definition getExtra (header : Header) : Outcome EngineError WBFTExtra :=
  if Z.of_nat (length (h_Extra header)) <? IstanbulExtraVanity then
    let vanity := h_Extra header ++ replicate (Z.to_nat IstanbulExtraVanity - length (h_Extra header)) 0 in
    Ret (MkExtra vanity [] 0 None None 0 None None None None)
  else rlp_result (ExtractWBFTExtra header).

Definition setExtra (h : Header) (wbftExtra : WBFTExtra) : Outcome EngineError Header :=
  payload ← rlp_result (EncodeExtra wbftExtra); mret (set_h_Extra payload h).

(** A function that updates extra-data in place. *)
Definition ApplyWBFTExtra : Type := WBFTExtra -> Outcome EngineError WBFTExtra.

Fixpoint Combine (applies : list ApplyWBFTExtra) : ApplyWBFTExtra := fun extra =>
  match applies with
  | [] => Ret extra
  | apply :: applies => extra ← apply extra; Combine applies extra
  end.

Definition ApplyHeaderWBFTExtra (header : Header) (applies : list ApplyWBFTExtra)
  : Outcome EngineError (WBFTExtra * Header) :=
  extra ← getExtra header;
  extra ← Combine applies extra;
  header ← setExtra header extra;
  mret (extra, header).

Definition set_we_PreparedSeal (s : option WBFTAggregatedSeal) (x : WBFTExtra) : WBFTExtra :=
  MkExtra (we_VanityData x) (we_RandaoReveal x) (we_PrevRound x) (we_PrevPreparedSeal x)
    (we_PrevCommittedSeal x) (we_Round x) s (we_CommittedSeal x) (we_GasTip x) (we_EpochInfo x).
Definition set_we_CommittedSeal (s : option WBFTAggregatedSeal) (x : WBFTExtra) : WBFTExtra :=
  MkExtra (we_VanityData x) (we_RandaoReveal x) (we_PrevRound x) (we_PrevPreparedSeal x)
    (we_PrevCommittedSeal x) (we_Round x) (we_PreparedSeal x) s (we_GasTip x) (we_EpochInfo x).
Definition set_we_Round (r : Z) (x : WBFTExtra) : WBFTExtra :=
  MkExtra (we_VanityData x) (we_RandaoReveal x) (we_PrevRound x) (we_PrevPreparedSeal x)
    (we_PrevCommittedSeal x) r (we_PreparedSeal x) (we_CommittedSeal x) (we_GasTip x) (we_EpochInfo x).
Definition set_we_RandaoReveal (r : bytes) (x : WBFTExtra) : WBFTExtra :=
  MkExtra (we_VanityData x) r (we_PrevRound x) (we_PrevPreparedSeal x)
    (we_PrevCommittedSeal x) (we_Round x) (we_PreparedSeal x) (we_CommittedSeal x) (we_GasTip x) (we_EpochInfo x).
Definition set_we_GasTip (t : option Z) (x : WBFTExtra) : WBFTExtra :=
  MkExtra (we_VanityData x) (we_RandaoReveal x) (we_PrevRound x) (we_PrevPreparedSeal x)
    (we_PrevCommittedSeal x) (we_Round x) (we_PreparedSeal x) (we_CommittedSeal x) t (we_EpochInfo x).
Definition set_we_EpochInfo (e : option EpochInfo) (x : WBFTExtra) : WBFTExtra :=
  MkExtra (we_VanityData x) (we_RandaoReveal x) (we_PrevRound x) (we_PrevPreparedSeal x)
    (we_PrevCommittedSeal x) (we_Round x) (we_PreparedSeal x) (we_CommittedSeal x) (we_GasTip x) e.

Definition WritePrevSeals (prevRound : Z) (prevPreparedSeal prevCommittedSeal : option WBFTAggregatedSeal)
  : ApplyWBFTExtra := fun x =>
  Ret (MkExtra (we_VanityData x) (we_RandaoReveal x) prevRound prevPreparedSeal
    prevCommittedSeal (we_Round x) (we_PreparedSeal x) (we_CommittedSeal x) (we_GasTip x) (we_EpochInfo x)).
Definition WriteEpochInfo (epochInfo : option EpochInfo) : ApplyWBFTExtra := fun x =>
  Ret (set_we_EpochInfo epochInfo x).
Definition WriteGasTip (gasTip : Z) : ApplyWBFTExtra := fun x => Ret (set_we_GasTip (Some gasTip) x).
Definition writeRoundNumber (round : Z) : ApplyWBFTExtra := fun x =>
  Ret (set_we_Round (u32 (big_Uint64 round)) x).
