(* ===== verification/Transactions.v ===== *)
(** Transactions (src/core/types/transaction.go, tx_*.go): the six kinds, their
    accessors, and their RLP and binary forms, among them transactions whose fees
    another account pays. *)
From S2P Require Import Prelude Validators Messages Rlp RlpStream Extra RlpCodec.

(** * Data

    After [NewTx] or decoding, no integer of a transaction is nil. *)

Record AccessTuple := mkAccessTuple { at_Address : Address; at_StorageKeys : list Hash }.

Record LegacyTx := mkLegacyTx {
  lt_Nonce : Z; lt_GasPrice : Z; lt_Gas : Z; lt_To : option Address; lt_Value : Z; lt_Data : bytes;
  lt_V : Z; lt_R : Z; lt_S : Z;
}.

Record AccessListTx := mkAccessListTx {
  al_ChainID : Z; al_Nonce : Z; al_GasPrice : Z; al_Gas : Z; al_To : option Address; al_Value : Z; al_Data : bytes;
  al_AccessList : list AccessTuple; al_V : Z; al_R : Z; al_S : Z;
}.

Record DynamicFeeTx := mkDynamicFeeTx {
  df_ChainID : Z; df_Nonce : Z; df_GasTipCap : Z; df_GasFeeCap : Z; df_Gas : Z; df_To : option Address; df_Value : Z;
  df_Data : bytes; df_AccessList : list AccessTuple; df_V : Z; df_R : Z; df_S : Z;
}.

Record BlobTxSidecar := mkSidecar { sc_Blobs : list bytes; sc_Commitments : list bytes; sc_Proofs : list bytes }.

Record BlobTx := mkBlobTx {
  bl_ChainID : Z; bl_Nonce : Z; bl_GasTipCap : Z; bl_GasFeeCap : Z; bl_Gas : Z; bl_To : Address; bl_Value : Z;
  bl_Data : bytes; bl_AccessList : list AccessTuple; bl_BlobFeeCap : Z; bl_BlobHashes : list Hash;
  bl_Sidecar : option BlobTxSidecar; bl_V : Z; bl_R : Z; bl_S : Z;
}.

Record SetCodeAuthorization := mkAuthorization {
  au_ChainID : Z; au_Address : Address; au_Nonce : Z; au_V : Z; au_R : Z; au_S : Z;
}.

Record SetCodeTx := mkSetCodeTx {
  sct_ChainID : Z; sct_Nonce : Z; sct_GasTipCap : Z; sct_GasFeeCap : Z; sct_Gas : Z; sct_To : Address; sct_Value : Z;
  sct_Data : bytes; sct_AccessList : list AccessTuple; sct_AuthList : list SetCodeAuthorization;
  sct_V : Z; sct_R : Z; sct_S : Z;
}.

(** The sender's transaction, and who pays for it. *)
Record FeeDelegateDynamicFeeTx := mkFeeDelegateTx {
  fd_SenderTx : DynamicFeeTx; fd_FeePayer : option Address; fd_FV : Z; fd_FR : Z; fd_FS : Z;
}.

Inductive TxData :=
  | Legacy (tx : LegacyTx)
  | AccessList (tx : AccessListTx)
  | DynamicFee (tx : DynamicFeeTx)
  | Blob (tx : BlobTx)
  | SetCode (tx : SetCodeTx)
  | FeeDelegate (tx : FeeDelegateDynamicFeeTx).

Definition LegacyTxType : Z := 0.
Definition AccessListTxType : Z := 1.
Definition DynamicFeeTxType : Z := 2.
Definition BlobTxType : Z := 3.
Definition SetCodeTxType : Z := 4.
Definition FeeDelegateDynamicFeeTxType : Z := 22.

Definition tx_Type (tx : TxData) : Z :=
  match tx with
  | Legacy _ => LegacyTxType
  | AccessList _ => AccessListTxType
  | DynamicFee _ => DynamicFeeTxType
  | Blob _ => BlobTxType
  | SetCode _ => SetCodeTxType
  | FeeDelegate _ => FeeDelegateDynamicFeeTxType
  end.

(** * RLP *)

Definition hash_val : Hash -> val := fixedBytes 32.
Definition address_val : Address -> val := fixedBytes 20.

Definition tuple_val (t : AccessTuple) : val := VList [address_val (at_Address t); VList (map hash_val (at_StorageKeys t))].
Definition accessList_val (l : list AccessTuple) : val := VList (map tuple_val l).

Definition legacy_val (tx : LegacyTx) : val :=
  VList [VUint (lt_Nonce tx); bigInt (lt_GasPrice tx); VUint (lt_Gas tx); addressPtr (lt_To tx); bigInt (lt_Value tx);
         VBytes (lt_Data tx); bigInt (lt_V tx); bigInt (lt_R tx); bigInt (lt_S tx)].

Definition accessListTx_val (tx : AccessListTx) : val :=
  VList [bigInt (al_ChainID tx); VUint (al_Nonce tx); bigInt (al_GasPrice tx); VUint (al_Gas tx); addressPtr (al_To tx);
         bigInt (al_Value tx); VBytes (al_Data tx); accessList_val (al_AccessList tx);
         bigInt (al_V tx); bigInt (al_R tx); bigInt (al_S tx)].

Definition dynamicFee_val (tx : DynamicFeeTx) : val :=
  VList [bigInt (df_ChainID tx); VUint (df_Nonce tx); bigInt (df_GasTipCap tx); bigInt (df_GasFeeCap tx); VUint (df_Gas tx);
         addressPtr (df_To tx); bigInt (df_Value tx); VBytes (df_Data tx); accessList_val (df_AccessList tx);
         bigInt (df_V tx); bigInt (df_R tx); bigInt (df_S tx)].

(** The sidecar is not a field of the struct's encoding. *)
Definition blob_val (tx : BlobTx) : val :=
  VList [bigInt (bl_ChainID tx); VUint (bl_Nonce tx); bigInt (bl_GasTipCap tx); bigInt (bl_GasFeeCap tx); VUint (bl_Gas tx);
         address_val (bl_To tx); bigInt (bl_Value tx); VBytes (bl_Data tx); accessList_val (bl_AccessList tx);
         bigInt (bl_BlobFeeCap tx); VList (map hash_val (bl_BlobHashes tx));
         bigInt (bl_V tx); bigInt (bl_R tx); bigInt (bl_S tx)].

(** [blobTxWithBlobs]. *)
Definition blobWithBlobs_val (tx : BlobTx) (sc : BlobTxSidecar) : val :=
  VList [blob_val tx; VList (map VByteArray (sc_Blobs sc)); VList (map VByteArray (sc_Commitments sc));
         VList (map VByteArray (sc_Proofs sc))].

Definition authorization_val (a : SetCodeAuthorization) : val :=
  VList [bigInt (au_ChainID a); address_val (au_Address a); VUint (au_Nonce a); VUint (au_V a); bigInt (au_R a); bigInt (au_S a)].

Definition setCode_val (tx : SetCodeTx) : val :=
  VList [bigInt (sct_ChainID tx); VUint (sct_Nonce tx); bigInt (sct_GasTipCap tx); bigInt (sct_GasFeeCap tx); VUint (sct_Gas tx);
         address_val (sct_To tx); bigInt (sct_Value tx); VBytes (sct_Data tx); accessList_val (sct_AccessList tx);
         VList (map authorization_val (sct_AuthList tx)); bigInt (sct_V tx); bigInt (sct_R tx); bigInt (sct_S tx)].

Definition feeDelegate_val (tx : FeeDelegateDynamicFeeTx) : val :=
  VList [dynamicFee_val (fd_SenderTx tx); addressPtr (fd_FeePayer tx); bigInt (fd_FV tx); bigInt (fd_FR tx); bigInt (fd_FS tx)].

(** The method [encode] of typed transactions; [LegacyTx.encode] panics and is
    never called. *)
Definition inner_val (tx : TxData) : val :=
  match tx with
  | Legacy tx => legacy_val tx
  | AccessList tx => accessListTx_val tx
  | DynamicFee tx => dynamicFee_val tx
  | Blob tx => match bl_Sidecar tx with None => blob_val tx | Some sc => blobWithBlobs_val tx sc end
  | SetCode tx => setCode_val tx
  | FeeDelegate tx => feeDelegate_val tx
  end.

(** The length of a buffer is an [int]. *)
Definition encodeTyped (tx : TxData) : option bytes :=
  b ← marshal (inner_val tx);
  let buf := tx_Type tx :: b in
  if Z.of_nat (length buf) <? 2 ^ 63 then Some buf else None.

(** [Transaction.EncodeRLP]. *)
Definition tx_val (tx : TxData) : option val :=
  if tx_Type tx =? LegacyTxType then Some (inner_val tx) else b ← encodeTyped tx; Some (VBytes b).

Definition MarshalBinary (tx : TxData) : option bytes :=
  if tx_Type tx =? LegacyTxType then marshal (inner_val tx) else encodeTyped tx.

(** ** Decoding *)

Definition decodeTuple : Dec AccessTuple :=
  decodeStruct (addr ← field (FixedBytes 20); keys ← field (decodeListSlice (FixedBytes 32)); mret (mkAccessTuple addr keys)).

Definition decodeLegacy : Dec LegacyTx :=
  decodeStruct
    (nonce ← field (uint_ 64); gasPrice ← field BigInt; gas ← field (uint_ 64); to ← field AddressPtr; value ← field BigInt;
     data ← field Bytes; v ← field BigInt; r ← field BigInt; s ← field BigInt;
     mret (mkLegacyTx nonce gasPrice gas to value data v r s)).

Definition decodeAccessListTx : Dec AccessListTx :=
  decodeStruct
    (chainID ← field BigInt; nonce ← field (uint_ 64); gasPrice ← field BigInt; gas ← field (uint_ 64); to ← field AddressPtr;
     value ← field BigInt; data ← field Bytes; accessList ← field (decodeListSlice decodeTuple);
     v ← field BigInt; r ← field BigInt; s ← field BigInt;
     mret (mkAccessListTx chainID nonce gasPrice gas to value data accessList v r s)).

Definition decodeDynamicFee : Dec DynamicFeeTx :=
  decodeStruct
    (chainID ← field BigInt; nonce ← field (uint_ 64); gasTipCap ← field BigInt; gasFeeCap ← field BigInt; gas ← field (uint_ 64);
     to ← field AddressPtr; value ← field BigInt; data ← field Bytes; accessList ← field (decodeListSlice decodeTuple);
     v ← field BigInt; r ← field BigInt; s ← field BigInt;
     mret (mkDynamicFeeTx chainID nonce gasTipCap gasFeeCap gas to value data accessList v r s)).

Definition decodeBlobStruct : Dec BlobTx :=
  decodeStruct
    (chainID ← field Uint256; nonce ← field (uint_ 64); gasTipCap ← field Uint256; gasFeeCap ← field Uint256; gas ← field (uint_ 64);
     to ← field (FixedBytes 20); value ← field Uint256; data ← field Bytes; accessList ← field (decodeListSlice decodeTuple);
     blobFeeCap ← field Uint256; blobHashes ← field (decodeListSlice (FixedBytes 32));
     v ← field Uint256; r ← field Uint256; s ← field Uint256;
     mret (mkBlobTx chainID nonce gasTipCap gasFeeCap gas to value data accessList blobFeeCap blobHashes None v r s)).

(** Blobs have 131072 bytes, commitments and proofs 48. *)
Definition decodeBlobWithBlobs : Dec (BlobTx * BlobTxSidecar) :=
  decodeStruct
    (tx ← field decodeBlobStruct;
     blobs ← field (decodeListSlice (ByteArray 131072));
     commitments ← field (decodeListSlice (ByteArray 48));
     proofs ← field (decodeListSlice (ByteArray 48));
     mret (tx, mkSidecar blobs commitments proofs)).

Definition decodeAuthorization : Dec SetCodeAuthorization :=
  decodeStruct
    (chainID ← field Uint256; addr ← field (FixedBytes 20); nonce ← field (uint_ 64); v ← field (uint_ 8);
     r ← field Uint256; s ← field Uint256; mret (mkAuthorization chainID addr nonce v r s)).

Definition decodeSetCode : Dec SetCodeTx :=
  decodeStruct
    (chainID ← field Uint256; nonce ← field (uint_ 64); gasTipCap ← field Uint256; gasFeeCap ← field Uint256; gas ← field (uint_ 64);
     to ← field (FixedBytes 20); value ← field Uint256; data ← field Bytes; accessList ← field (decodeListSlice decodeTuple);
     authList ← field (decodeListSlice decodeAuthorization); v ← field Uint256; r ← field Uint256; s ← field Uint256;
     mret (mkSetCodeTx chainID nonce gasTipCap gasFeeCap gas to value data accessList authList v r s)).

Definition decodeFeeDelegate : Dec FeeDelegateDynamicFeeTx :=
  decodeStruct
    (senderTx ← field decodeDynamicFee; feePayer ← field AddressPtr; fv ← field BigInt; fr ← field BigInt; fs ← field BigInt;
     mret (mkFeeDelegateTx senderTx feePayer fv fr fs)).

(** ** Splitting values off a buffer (src/rlp/raw.go) *)

Definition readSize (b : bytes) (slen : Z) : RlpError + Z :=
  if Z.of_nat (length b) <? slen then inl ErrUnexpectedEOF
  else
    let s := be_value (take (Z.to_nat slen) b) in
    if (s <? 56) || (first_byte b =? 0) then inl ErrCanonSize else inr s.

(** The kind, the size of the tag and the size of the content. *)
Definition raw_readKind (buf : bytes) : RlpError + (Kind * Z * Z) :=
  match buf with
  | [] => inl ErrUnexpectedEOF
  | b :: rest =>
      let long k slen := match readSize rest slen with inl e => inl e | inr n => inr (k, slen + 1, n) end in
      let res :=
        if b <? 0x80 then inr (Byte, 0, 1)
        else if b <? 0xB8 then
          if (b - 0x80 =? 1) && match rest with x :: _ => x <? 128 | [] => false end then inl ErrCanonSize
          else inr (String, 1, b - 0x80)
        else if b <? 0xC0 then long String (b - 0xB7)
        else if b <? 0xF8 then inr (List, 1, b - 0xC0)
        else long List (b - 0xF7) in
      match res with
      | inl e => inl e
      | inr (k, tagsize, contentsize) =>
          if u64 (Z.of_nat (length buf) - tagsize) <? contentsize then inl ErrValueTooLarge else inr (k, tagsize, contentsize)
      end
  end.

(** The kind and the content of the first value, and what follows it. *)
Definition Split (b : bytes) : RlpError + (Kind * bytes * bytes) :=
  match raw_readKind b with
  | inl e => inl e
  | inr (k, ts, cs) => inr (k, take (Z.to_nat cs) (drop (Z.to_nat ts) b), drop (Z.to_nat (ts + cs)) b)
  end.

Definition SplitList (b : bytes) : RlpError + (bytes * bytes) :=
  match Split b with
  | inl e => inl e
  | inr (k, content, rest) => if bool_decide (k = List) then inr (content, rest) else inl ErrExpectedList
  end.

Definition set_Sidecar (tx : BlobTx) (sc : option BlobTxSidecar) : BlobTx :=
  mkBlobTx (bl_ChainID tx) (bl_Nonce tx) (bl_GasTipCap tx) (bl_GasFeeCap tx) (bl_Gas tx) (bl_To tx) (bl_Value tx) (bl_Data tx)
    (bl_AccessList tx) (bl_BlobFeeCap tx) (bl_BlobHashes tx) sc (bl_V tx) (bl_R tx) (bl_S tx).

(** [BlobTx.decode]: with blobs, the first element of the list is a list. *)
Definition decodeBlob (input : bytes) : RlpError + BlobTx :=
  match SplitList input with
  | inl e => inl e
  | inr (outerList, _) =>
      match Split outerList with
      | inl e => inl e
      | inr (firstElemKind, _, _) =>
          if negb (bool_decide (firstElemKind = List)) then DecodeBytes decodeBlobStruct input
          else
            match DecodeBytes decodeBlobWithBlobs input with
            | inl e => inl e
            | inr (tx, sc) => inr (set_Sidecar tx (Some sc))
            end
      end
  end.

Inductive TxError := errShortTypedTx | ErrTxTypeNotSupported | TxRlpError (e : RlpError).

Definition rlp_tx {A} (mk : A -> TxData) (r : RlpError + A) : TxError + TxData :=
  match r with inl e => inl (TxRlpError e) | inr a => inr (mk a) end.

Definition decodeTyped (b : bytes) : TxError + TxData :=
  match b with
  | ty :: ((_ :: _) as input) =>
      if ty =? AccessListTxType then rlp_tx AccessList (DecodeBytes decodeAccessListTx input)
      else if ty =? DynamicFeeTxType then rlp_tx DynamicFee (DecodeBytes decodeDynamicFee input)
      else if ty =? BlobTxType then rlp_tx Blob (decodeBlob input)
      else if ty =? SetCodeTxType then rlp_tx SetCode (DecodeBytes decodeSetCode input)
      else if ty =? FeeDelegateDynamicFeeTxType then rlp_tx FeeDelegate (DecodeBytes decodeFeeDelegate input)
      else inl ErrTxTypeNotSupported
  | _ => inl errShortTypedTx
  end.

(** [Transaction.DecodeRLP]; [getPooledBuffer] refuses sizes that no [int] holds. *)
Definition decodeTx : Dec TxData :=
  a ← kind;
  match a_kind a with
  | List => tx ← decodeLegacy; mret (Legacy tx)
  | Byte => raise DecoderError
  | String =>
      if 2 ^ 63 - 1 <? a_size a then raise DecoderError
      else
        b ← ReadBytes (a_size a);
        match decodeTyped b with
        | inr tx => mret tx
        | inl (TxRlpError e) => raise e
        | inl _ => raise DecoderError
        end
  end.

Definition UnmarshalBinary (b : bytes) : TxError + TxData :=
  if (0 <? Z.of_nat (length b)) && (0x7f <? first_byte b) then rlp_tx Legacy (DecodeBytes decodeLegacy b)
  else decodeTyped b.

(** * Accessors *)

(** [deriveChainId]; [big.Int.Uint64] takes the low bits. *)
Definition deriveChainId (v : Z) : Z :=
  if BitLen v <=? 64 then
    let v := u64 v in
    if (v =? 27) || (v =? 28) then 0 else u64 (v - 35) / 2
  else (v - 35) / 2.

Definition tx_ChainId (tx : TxData) : Z :=
  match tx with
  | Legacy tx => deriveChainId (lt_V tx)
  | AccessList tx => al_ChainID tx
  | DynamicFee tx => df_ChainID tx
  | Blob tx => bl_ChainID tx
  | SetCode tx => sct_ChainID tx
  | FeeDelegate tx => df_ChainID (fd_SenderTx tx)
  end.

Definition tx_AccessList (tx : TxData) : list AccessTuple :=
  match tx with
  | Legacy tx => []
  | AccessList tx => al_AccessList tx
  | DynamicFee tx => df_AccessList tx
  | Blob tx => bl_AccessList tx
  | SetCode tx => sct_AccessList tx
  | FeeDelegate tx => df_AccessList (fd_SenderTx tx)
  end.

Definition tx_Data (tx : TxData) : bytes :=
  match tx with
  | Legacy tx => lt_Data tx
  | AccessList tx => al_Data tx
  | DynamicFee tx => df_Data tx
  | Blob tx => bl_Data tx
  | SetCode tx => sct_Data tx
  | FeeDelegate tx => df_Data (fd_SenderTx tx)
  end.

Definition tx_Gas (tx : TxData) : Z :=
  match tx with
  | Legacy tx => lt_Gas tx
  | AccessList tx => al_Gas tx
  | DynamicFee tx => df_Gas tx
  | Blob tx => bl_Gas tx
  | SetCode tx => sct_Gas tx
  | FeeDelegate tx => df_Gas (fd_SenderTx tx)
  end.

(** The price of a transaction with two caps is its fee cap. *)
Definition tx_GasPrice (tx : TxData) : Z :=
  match tx with
  | Legacy tx => lt_GasPrice tx
  | AccessList tx => al_GasPrice tx
  | DynamicFee tx => df_GasFeeCap tx
  | Blob tx => bl_GasFeeCap tx
  | SetCode tx => sct_GasFeeCap tx
  | FeeDelegate tx => df_GasFeeCap (fd_SenderTx tx)
  end.

Definition tx_GasTipCap (tx : TxData) : Z :=
  match tx with
  | Legacy tx => lt_GasPrice tx
  | AccessList tx => al_GasPrice tx
  | DynamicFee tx => df_GasTipCap tx
  | Blob tx => bl_GasTipCap tx
  | SetCode tx => sct_GasTipCap tx
  | FeeDelegate tx => df_GasTipCap (fd_SenderTx tx)
  end.

Definition tx_GasFeeCap (tx : TxData) : Z :=
  match tx with
  | Legacy tx => lt_GasPrice tx
  | AccessList tx => al_GasPrice tx
  | DynamicFee tx => df_GasFeeCap tx
  | Blob tx => bl_GasFeeCap tx
  | SetCode tx => sct_GasFeeCap tx
  | FeeDelegate tx => df_GasFeeCap (fd_SenderTx tx)
  end.

Definition tx_Value (tx : TxData) : Z :=
  match tx with
  | Legacy tx => lt_Value tx
  | AccessList tx => al_Value tx
  | DynamicFee tx => df_Value tx
  | Blob tx => bl_Value tx
  | SetCode tx => sct_Value tx
  | FeeDelegate tx => df_Value (fd_SenderTx tx)
  end.

Definition tx_Nonce (tx : TxData) : Z :=
  match tx with
  | Legacy tx => lt_Nonce tx
  | AccessList tx => al_Nonce tx
  | DynamicFee tx => df_Nonce tx
  | Blob tx => bl_Nonce tx
  | SetCode tx => sct_Nonce tx
  | FeeDelegate tx => df_Nonce (fd_SenderTx tx)
  end.

(** Blob and set-code transactions always have a recipient. *)
Definition tx_To (tx : TxData) : option Address :=
  match tx with
  | Legacy tx => lt_To tx
  | AccessList tx => al_To tx
  | DynamicFee tx => df_To tx
  | Blob tx => Some (bl_To tx)
  | SetCode tx => Some (sct_To tx)
  | FeeDelegate tx => df_To (fd_SenderTx tx)
  end.

(** V, R and S; those of the sender where another account pays. *)
Definition RawSignatureValues (tx : TxData) : Z * Z * Z :=
  match tx with
  | Legacy tx => (lt_V tx, lt_R tx, lt_S tx)
  | AccessList tx => (al_V tx, al_R tx, al_S tx)
  | DynamicFee tx => (df_V tx, df_R tx, df_S tx)
  | Blob tx => (bl_V tx, bl_R tx, bl_S tx)
  | SetCode tx => (sct_V tx, sct_R tx, sct_S tx)
  | FeeDelegate tx => (df_V (fd_SenderTx tx), df_R (fd_SenderTx tx), df_S (fd_SenderTx tx))
  end.

Definition tx_FeePayer (tx : TxData) : option Address :=
  match tx with FeeDelegate tx => fd_FeePayer tx | _ => None end.

(** The other kinds return nil values, which no caller asks for. *)
Definition RawFeePayerSignatureValues (tx : TxData) : option (Z * Z * Z) :=
  match tx with FeeDelegate tx => Some (fd_FV tx, fd_FR tx, fd_FS tx) | _ => None end.

(** [effectiveGasPrice]; a nil base fee counts as 0. *)
Definition effectiveGasPrice (tx : TxData) (baseFee : option Z) : Z :=
  match tx with
  | Legacy tx => lt_GasPrice tx
  | AccessList tx => al_GasPrice tx
  | _ =>
      let baseFee := default 0 baseFee in
      let tip := tx_GasFeeCap tx - baseFee in
      let tip := if tx_GasTipCap tx <? tip then tx_GasTipCap tx else tip in
      tip + baseFee
  end.

Definition BlobTxBlobGasPerBlob : Z := 131072.
Definition tx_BlobGas (tx : TxData) : Z :=
  match tx with Blob tx => u64 (BlobTxBlobGasPerBlob * Z.of_nat (length (bl_BlobHashes tx))) | _ => 0 end.
Definition tx_BlobGasFeeCap (tx : TxData) : option Z := match tx with Blob tx => Some (bl_BlobFeeCap tx) | _ => None end.
Definition tx_BlobHashes (tx : TxData) : list Hash := match tx with Blob tx => bl_BlobHashes tx | _ => [] end.

Definition Cost (tx : TxData) : Z :=
  let total := tx_GasPrice tx * tx_Gas tx in
  let total := if tx_Type tx =? BlobTxType then total + default 0 (tx_BlobGasFeeCap tx) * tx_BlobGas tx else total in
  total + tx_Value tx.
Definition FeeCost (tx : TxData) : Z := Cost tx - tx_Value tx.

(** [isProtectedV]. *)
Definition isProtectedV (V : Z) : bool :=
  if BitLen V <=? 8 then let v := u64 V in negb (v =? 27) && negb (v =? 28) && negb (v =? 1) && negb (v =? 0) else true.
Definition Protected (tx : TxData) : bool := match tx with Legacy tx => isProtectedV (lt_V tx) | _ => true end.
