(* ===== verification/TxProps.v ===== *)
(** Transactions survive encoding: round trip, canonicity and termination of their
    codecs. *)
From S2P Require Import Prelude Validators Messages Rlp RlpStream RlpSpec RlpLists Extra ExtraProps RlpCodec Transactions.

(** * Values of the Go types *)

Definition uint64_ok (i : Z) : Prop := 0 <= i < 2 ^ 64.
Definition uint256_ok (i : Z) : Prop := 0 <= i < 2 ^ 256.
Definition big_ok (i : Z) : Prop := 0 <= i.
Definition hash_ok (h : Hash) : Prop := 0 <= h < 256 ^ 32.
Definition address_ok (a : Address) : Prop := 0 <= a < 256 ^ 20.
Definition addressPtr_ok : option Address -> Prop := ptr_ok address_ok.

Definition tuple_ok (t : AccessTuple) : Prop := address_ok (at_Address t) /\ Forall hash_ok (at_StorageKeys t).

Definition legacy_ok (tx : LegacyTx) : Prop :=
  uint64_ok (lt_Nonce tx) /\ big_ok (lt_GasPrice tx) /\ uint64_ok (lt_Gas tx) /\ addressPtr_ok (lt_To tx) /\ big_ok (lt_Value tx) /\
  bytes_ok (lt_Data tx) /\ big_ok (lt_V tx) /\ big_ok (lt_R tx) /\ big_ok (lt_S tx).

Definition accessListTx_ok (tx : AccessListTx) : Prop :=
  big_ok (al_ChainID tx) /\ uint64_ok (al_Nonce tx) /\ big_ok (al_GasPrice tx) /\ uint64_ok (al_Gas tx) /\ addressPtr_ok (al_To tx) /\
  big_ok (al_Value tx) /\ bytes_ok (al_Data tx) /\ Forall tuple_ok (al_AccessList tx) /\
  big_ok (al_V tx) /\ big_ok (al_R tx) /\ big_ok (al_S tx).

Definition dynamicFee_ok (tx : DynamicFeeTx) : Prop :=
  big_ok (df_ChainID tx) /\ uint64_ok (df_Nonce tx) /\ big_ok (df_GasTipCap tx) /\ big_ok (df_GasFeeCap tx) /\ uint64_ok (df_Gas tx) /\
  addressPtr_ok (df_To tx) /\ big_ok (df_Value tx) /\ bytes_ok (df_Data tx) /\ Forall tuple_ok (df_AccessList tx) /\
  big_ok (df_V tx) /\ big_ok (df_R tx) /\ big_ok (df_S tx).

Definition array_ok (n : Z) (b : bytes) : Prop := len b = n /\ bytes_ok b.
Definition sidecar_ok (sc : BlobTxSidecar) : Prop :=
  Forall (array_ok 131072) (sc_Blobs sc) /\ Forall (array_ok 48) (sc_Commitments sc) /\ Forall (array_ok 48) (sc_Proofs sc).

Definition blob_ok (tx : BlobTx) : Prop :=
  uint256_ok (bl_ChainID tx) /\ uint64_ok (bl_Nonce tx) /\ uint256_ok (bl_GasTipCap tx) /\ uint256_ok (bl_GasFeeCap tx) /\
  uint64_ok (bl_Gas tx) /\ address_ok (bl_To tx) /\ uint256_ok (bl_Value tx) /\ bytes_ok (bl_Data tx) /\
  Forall tuple_ok (bl_AccessList tx) /\ uint256_ok (bl_BlobFeeCap tx) /\ Forall hash_ok (bl_BlobHashes tx) /\
  uint256_ok (bl_V tx) /\ uint256_ok (bl_R tx) /\ uint256_ok (bl_S tx).

Definition authorization_ok (a : SetCodeAuthorization) : Prop :=
  uint256_ok (au_ChainID a) /\ address_ok (au_Address a) /\ uint64_ok (au_Nonce a) /\ 0 <= au_V a < 2 ^ 8 /\
  uint256_ok (au_R a) /\ uint256_ok (au_S a).

Definition setCode_ok (tx : SetCodeTx) : Prop :=
  uint256_ok (sct_ChainID tx) /\ uint64_ok (sct_Nonce tx) /\ uint256_ok (sct_GasTipCap tx) /\ uint256_ok (sct_GasFeeCap tx) /\
  uint64_ok (sct_Gas tx) /\ address_ok (sct_To tx) /\ uint256_ok (sct_Value tx) /\ bytes_ok (sct_Data tx) /\
  Forall tuple_ok (sct_AccessList tx) /\ Forall authorization_ok (sct_AuthList tx) /\
  uint256_ok (sct_V tx) /\ uint256_ok (sct_R tx) /\ uint256_ok (sct_S tx).

Definition feeDelegate_ok (tx : FeeDelegateDynamicFeeTx) : Prop :=
  dynamicFee_ok (fd_SenderTx tx) /\ addressPtr_ok (fd_FeePayer tx) /\ big_ok (fd_FV tx) /\ big_ok (fd_FR tx) /\ big_ok (fd_FS tx).

(** * Codecs of the structs *)

Lemma field_uint64 : field_ok VUint uint64_ok (uint_ 64).
Proof. apply codec_uint64. Qed.
Lemma field_uint256 : field_ok bigInt uint256_ok Uint256.
Proof. apply codec_Uint256. Qed.
Lemma field_big : field_ok bigInt big_ok BigInt.
Proof. apply codec_BigInt. Qed.
Lemma field_bytes : field_ok VBytes bytes_ok Bytes.
Proof. apply codec_Bytes. Qed.
Lemma codec_hash : codec_ok hash_val hash_ok (FixedBytes 32).
Proof. by apply (codec_FixedBytes 32). Qed.
Lemma codec_address : codec_ok address_val address_ok (FixedBytes 20).
Proof. by apply (codec_FixedBytes 20). Qed.
Lemma field_addressPtr : field_ok addressPtr addressPtr_ok AddressPtr.
Proof. apply field_AddressPtr. Qed.

Lemma field_hash : field_ok hash_val hash_ok (FixedBytes 32).
Proof. apply codec_hash. Qed.
Lemma field_address : field_ok address_val address_ok (FixedBytes 20).
Proof. apply codec_address. Qed.
Lemma field_uint8 : field_ok VUint (fun i => 0 <= i < 2 ^ 8) (uint_ 8).
Proof. apply codec_uint; [lia|by exists 1]. Qed.
Lemma field_slice {A} (f : A -> val) P d : codec_ok f P d -> field_ok (fun xs => VList (map f xs)) (Forall P) (decodeListSlice d).
Proof. intros Hd. by apply codec_slice. Qed.
Lemma field_of_codec {A} (f : A -> val) P d : codec_ok f P d -> field_ok f P d.
Proof. by intros []. Qed.

Create HintDb fields.
#[export] Hint Resolve field_uint64 field_uint256 field_big field_bytes field_addressPtr field_hash field_address field_uint8 : fields.
#[export] Hint Resolve field_slice codec_hash codec_address : fields.

Lemma codec_equiv {A} (f f' : A -> val) P P' d :
  codec_ok f P d -> (forall x, f x = f' x) -> (forall x, P x <-> P' x) -> codec_ok f' P' d.
Proof.
  intros Hd Hf HP. apply codec_intro; [|eapply canon_weaken; [apply Hd|]|apply Hd|apply Hd| |].
  - intros x Hx%HP. rewrite <- Hf. by apply Hd.
  - intros x bs [Hx%HP ->]. split; [done|]. by rewrite Hf.
  - intros x b. rewrite <- Hf. apply Hd.
  - intros x Hx%HP. rewrite <- Hf. by apply (co_valid _ _ _ Hd).
Qed.

(** One field after the other, by projection. *)
Ltac next_field p := eapply (body_field p); [solve [eauto with fields]|intros ?|].
Ltac projections := intros ? ? ?; cbn beta in *; destruct_and?; match goal with H : ?x = _ |- _ => rewrite H; reflexivity end.
Ltac struct_ok ok := intros []; unfold ok; cbn; split; intros; destruct_and?; split_and!; done.

Lemma codec_tuple : codec_ok tuple_val tuple_ok decodeTuple.
Proof.
  eapply codec_equiv; [eapply codec_struct| |].
  - next_field at_Address. next_field at_StorageKeys. apply body_ret. all: projections.
  - reflexivity.
  - struct_ok tuple_ok.
Qed.
#[export] Hint Resolve codec_tuple : fields.

Lemma codec_legacy : codec_ok legacy_val legacy_ok decodeLegacy.
Proof.
  eapply codec_equiv; [eapply codec_struct| |].
  - next_field lt_Nonce. next_field lt_GasPrice. next_field lt_Gas. next_field lt_To. next_field lt_Value. next_field lt_Data.
    next_field lt_V. next_field lt_R. next_field lt_S. apply body_ret. all: projections.
  - reflexivity.
  - struct_ok legacy_ok.
Qed.

Lemma codec_accessListTx : codec_ok accessListTx_val accessListTx_ok decodeAccessListTx.
Proof.
  eapply codec_equiv; [eapply codec_struct| |].
  - next_field al_ChainID. next_field al_Nonce. next_field al_GasPrice. next_field al_Gas. next_field al_To.
    next_field al_Value. next_field al_Data. next_field al_AccessList. next_field al_V. next_field al_R.
    next_field al_S. apply body_ret. all: projections.
  - reflexivity.
  - struct_ok accessListTx_ok.
Qed.

Lemma codec_dynamicFee : codec_ok dynamicFee_val dynamicFee_ok decodeDynamicFee.
Proof.
  eapply codec_equiv; [eapply codec_struct| |].
  - next_field df_ChainID. next_field df_Nonce. next_field df_GasTipCap. next_field df_GasFeeCap.
    next_field df_Gas. next_field df_To. next_field df_Value. next_field df_Data. next_field df_AccessList.
    next_field df_V. next_field df_R. next_field df_S. apply body_ret. all: projections.
  - reflexivity.
  - struct_ok dynamicFee_ok.
Qed.
#[export] Hint Resolve codec_dynamicFee field_of_codec : fields.

Lemma codec_authorization : codec_ok authorization_val authorization_ok decodeAuthorization.
Proof.
  eapply codec_equiv; [eapply codec_struct| |].
  - next_field au_ChainID. next_field au_Address. next_field au_Nonce. next_field au_V. next_field au_R.
    next_field au_S. apply body_ret. all: projections.
  - reflexivity.
  - struct_ok authorization_ok.
Qed.
#[export] Hint Resolve codec_authorization : fields.

Lemma codec_setCode : codec_ok setCode_val setCode_ok decodeSetCode.
Proof.
  eapply codec_equiv; [eapply codec_struct| |].
  - next_field sct_ChainID. next_field sct_Nonce. next_field sct_GasTipCap. next_field sct_GasFeeCap.
    next_field sct_Gas. next_field sct_To. next_field sct_Value. next_field sct_Data. next_field sct_AccessList.
    next_field sct_AuthList. next_field sct_V. next_field sct_R. next_field sct_S. apply body_ret. all: projections.
  - reflexivity.
  - struct_ok setCode_ok.
Qed.

Lemma codec_feeDelegate : codec_ok feeDelegate_val feeDelegate_ok decodeFeeDelegate.
Proof.
  eapply codec_equiv; [eapply codec_struct| |].
  - next_field fd_SenderTx. next_field fd_FeePayer. next_field fd_FV. next_field fd_FR. next_field fd_FS. apply body_ret. all: projections.
  - reflexivity.
  - struct_ok feeDelegate_ok.
Qed.

Definition blobStruct_ok (tx : BlobTx) : Prop := blob_ok tx /\ bl_Sidecar tx = None.

Lemma codec_blobStruct : codec_ok blob_val blobStruct_ok decodeBlobStruct.
Proof.
  eapply codec_equiv; [eapply codec_struct| |].
  - next_field bl_ChainID. next_field bl_Nonce. next_field bl_GasTipCap. next_field bl_GasFeeCap.
    next_field bl_Gas. next_field bl_To. next_field bl_Value. next_field bl_Data. next_field bl_AccessList.
    next_field bl_BlobFeeCap. next_field bl_BlobHashes. next_field bl_V. next_field bl_R. next_field bl_S. apply body_ret. all: projections.
  - reflexivity.
  - intros []. unfold blobStruct_ok, blob_ok. cbn. split; intros; destruct_and?; split_and!; congruence || done.
Qed.
#[export] Hint Resolve codec_blobStruct : fields.

Lemma codec_array n : 1 < n < 2 ^ 64 -> codec_ok VByteArray (array_ok n) (ByteArray n).
Proof. apply codec_ByteArray. Qed.
#[export] Hint Extern 1 (codec_ok _ _ (ByteArray _)) => (apply codec_array; lia) : fields.

Definition blobWithBlobs_ok (p : BlobTx * BlobTxSidecar) : Prop := blobStruct_ok p.1 /\ sidecar_ok p.2.

Lemma codec_blobWithBlobs : codec_ok (fun p => blobWithBlobs_val p.1 p.2) blobWithBlobs_ok decodeBlobWithBlobs.
Proof.
  eapply codec_equiv; [eapply codec_struct| |].
  - next_field (fst (A := BlobTx) (B := BlobTxSidecar)). next_field (fun p : BlobTx * BlobTxSidecar => sc_Blobs p.2).
    next_field (fun p : BlobTx * BlobTxSidecar => sc_Commitments p.2). next_field (fun p : BlobTx * BlobTxSidecar => sc_Proofs p.2).
    apply body_ret. all: projections.
  - reflexivity.
  - intros [? []]. unfold blobWithBlobs_ok, sidecar_ok. cbn. split; intros; destruct_and?; split_and!; done.
Qed.

(** * Whole inputs *)

Lemma DecodeBytes_codec {A} (f : A -> val) P d x :
  field_ok f P d -> P x -> len (enc (f x)) < 2 ^ 64 -> DecodeBytes d (enc (f x)) = inr x.
Proof.
  intros Hd HP Hl. apply DecodeBytes_reads; [by apply Hd|]. pose proof (enc_nonempty (f x) (co_raw _ _ _ Hd x)).
  destruct (enc (f x)); [done|cbn [length]; lia].
Qed.

Lemma DecodeBytes_codec_inv {A} (f : A -> val) P d b x :
  field_ok f P d -> bytes_ok b -> len b < 2 ^ 64 -> DecodeBytes d b = inr x -> P x /\ b = enc (f x).
Proof. intros Hd Hb Hl Hx. apply (DecodeBytes_canon d (encodes f P) b x (co_canon _ _ _ Hd) Hb Hl Hx). Qed.

(** At the top level there is no list that could end. *)
Lemma DecodeBytes_EOL {A} (d : Dec A) b : starts d -> DecodeBytes d b <> inl EOL.
Proof.
  intros (f & Hf & Hd). unfold DecodeBytes. rewrite Hd. unfold mbind, Dec_bind.
  destruct (kind (NewStream b (len b))) as [[e|a] s1] eqn:Hk.
  - intros [=]; subst. apply kind_eol in Hk as Hs; [|done]. subst s1. unfold kind in Hk. cbn in Hk.
    destruct (readKind _) as [[e|a] s1] eqn:Hr; [by injection Hk as _ ->; destruct (readKind_no_error _ _ _ Hr)|].
    pose proof (readKind_err EOL (or_introl eq_refl) _ _ _ Hr) as Hne. unfold getAhead in Hk. cbn in Hk.
    destruct (a_err a); [|destruct (_ && _)]; cbn in Hk; injection Hk as ? _; subst; done.
  - apply kind_ahead in Hk as [Ha He]. specialize (Hf a s1). destruct (f a s1) as [[e|x] s2] eqn:Hx.
    + intros [=]; subst. by eapply Hf.
    + by destruct (s_r s2).
Qed.

(** ** Splitting encoded values *)

Lemma readSize_ok n r : 56 <= n < 2 ^ 64 -> readSize (putint n ++ r) (len (putint n)) = inr n.
Proof.
  intros Hn. rewrite putint_spec by lia. unfold readSize. rewrite length_app.
  destruct (Z.ltb_spec (Z.of_nat (length (big_Bytes n) + length r)) (len (big_Bytes n))); [lia|].
  rewrite Nat2Z.id, take_app_length, big_Bytes_value by lia. destruct (Z.ltb_spec n 56); [lia|].
  destruct (big_Bytes_cons n ltac:(lia)) as (b & bs & -> & Hb). cbn. destruct (Z.eqb_spec b 0); [lia|done].
Qed.

Lemma raw_readKind_list c r :
  len (enc_list c ++ r) < 2 ^ 64 -> raw_readKind (enc_list c ++ r) = inr (List, headsize (len c), len c).
Proof.
  intros Hl. assert (len c < 2 ^ 64) as Hc.
  { unfold enc_list in Hl. rewrite !length_app in Hl. lia. }
  pose proof (length_enc_list c Hc) as Hlen. rewrite length_app in Hl.
  assert (u64 (len (enc_list c ++ r) - headsize (len c)) <? len c = false) as Hfit.
  { rewrite length_app, Nat2Z.inj_add, Hlen, u64_small; apply Z.ltb_ge || idtac; pose proof (headsize_pos (len c)); lia. }
  unfold raw_readKind, enc_list, headsize in *. unfold puthead in *. destruct (Z.ltb_spec (len c) 56) as [Hs|Hs].
  - cbn [app] in *. rewrite (u8_small (len c)), u8_small in * by lia.
    destruct (Z.ltb_spec (0xC0 + len c) 0x80); [lia|]. destruct (Z.ltb_spec (0xC0 + len c) 0xB8); [lia|].
    destruct (Z.ltb_spec (0xC0 + len c) 0xC0); [lia|]. destruct (Z.ltb_spec (0xC0 + len c) 0xF8); [|lia].
    replace (0xC0 + len c - 0xC0) with (len c) by lia. by rewrite Hfit.
  - pose proof (length_big_Bytes (len c) 8 ltac:(cbn; lia)) as Hb8.
    destruct (big_Bytes_cons (len c) ltac:(lia)) as (b & bs & Hbb & _).
    assert (1 <= len (putint (len c)) <= 8) as Hp by (rewrite putint_spec by lia; rewrite Hbb in *; cbn [length] in *; lia).
    cbn [app] in *. rewrite (u8_small (len (putint (len c)))), u8_small in * by lia. rewrite <- app_assoc in *.
    destruct (Z.ltb_spec (0xF7 + len (putint (len c))) 0x80); [lia|]. destruct (Z.ltb_spec (0xF7 + len (putint (len c))) 0xB8); [lia|].
    destruct (Z.ltb_spec (0xF7 + len (putint (len c))) 0xC0); [lia|]. destruct (Z.ltb_spec (0xF7 + len (putint (len c))) 0xF8); [lia|].
    replace (0xF7 + len (putint (len c)) - 0xF7) with (len (putint (len c))) by lia. rewrite readSize_ok by lia.
    rewrite intsize_spec, <- putint_spec in * by lia. rewrite (Z.add_comm _ 1), Hfit. done.
Qed.

Lemma SplitList_list c : len (enc_list c) < 2 ^ 64 -> SplitList (enc_list c) = inr (c, []).
Proof.
  intros Hl. assert (len c < 2 ^ 64) as Hc by (unfold enc_list in Hl; rewrite length_app in Hl; lia).
  unfold SplitList, Split. rewrite <- (app_nil_r (enc_list c)), raw_readKind_list by (by rewrite app_nil_r). rewrite app_nil_r.
  rewrite (bool_decide_eq_true_2 (List = List)) by done. pose proof (headsize_pos (len c) ltac:(lia)).
  pose proof (length_enc_list c Hc) as Hlen. do 2 f_equal.
  - unfold enc_list. assert (length (puthead 0xC0 0xF7 (len c)) = Z.to_nat (headsize (len c))) as Hp.
    { pose proof (length_puthead 0xC0 0xF7 (len c) ltac:(lia)). lia. }
    rewrite <- Hp, drop_app_length, Nat2Z.id. apply take_ge. lia.
  - apply drop_ge. lia.
Qed.

(** A short string is not taken for a list. *)
Lemma Split_string b r :
  bytes_ok b -> len b <= 32 -> len (enc_string b ++ r) < 2 ^ 64 ->
  exists k content rest, Split (enc_string b ++ r) = inr (k, content, rest) /\ k <> List.
Proof.
  intros Hb Hb32 Hl. enough (exists k ts cs, raw_readKind (enc_string b ++ r) = inr (k, ts, cs) /\ k <> List) as (k & ts & cs & Hk & Hne).
  { unfold Split. rewrite Hk. eauto. }
  assert (forall h x l, 0x80 <= h < 0xB8 -> len l = h - 0x80 -> (h = 0x81 -> hd 0 l >= 128) ->
    Z.of_nat (length (h :: l ++ x)) < 2 ^ 64 -> raw_readKind (h :: l ++ x) = inr (String, 1, h - 0x80)) as Hstr.
  { intros h x l Hh Hll Hcan Hlen. unfold raw_readKind. destruct (Z.ltb_spec h 0x80); [lia|]. destruct (Z.ltb_spec h 0xB8); [|lia].
    assert ((h - 0x80 =? 1) && match l ++ x with y :: _ => y <? 128 | [] => false end = false) as ->.
    { destruct (Z.eqb_spec (h - 0x80) 1); [|done]. destruct l as [|y l]; [cbn in Hll; lia|]. cbn. cbn in Hcan. apply Z.ltb_ge. lia. }
    cbn [length] in *. rewrite length_app in *. rewrite u64_small by lia. destruct (Z.ltb_spec (Z.of_nat (S (length l + length x)) - 1) (h - 0x80)); [lia|done]. }
  destruct b as [|x [|y b]]; cbn [enc_string] in *.
  - exists String, 1, 0. split; [|done]. apply (Hstr 0x80 r []); [lia|done|lia|exact Hl].
  - apply Forall_cons in Hb as [[? ?] _]. destruct (Z.leb_spec x 0x7F).
    + exists Byte, 0, 1. split; [|done]. cbn. destruct (Z.ltb_spec x 0x80); [|lia]. cbn [app length] in Hl.
      rewrite u64_small by lia. by destruct (Z.ltb_spec (Z.of_nat (S (length r)) - 0) 1); [lia|].
    + exists String, 1, 1. split; [|done]. apply (Hstr 0x81 r [x]); [lia|done|cbn; lia|exact Hl].
  - assert (puthead 0x80 0xB7 (len (x :: y :: b)) = [0x80 + len (x :: y :: b)]) as Hp.
    { unfold puthead. destruct (Z.ltb_spec (len (x :: y :: b)) 56); [|lia]. by rewrite (u8_small (len (x :: y :: b))), u8_small by lia. }
    rewrite Hp in *. eexists String, 1, _. split; [|done]. rewrite <- app_assoc in *.
    apply (Hstr (0x80 + len (x :: y :: b)) r (x :: y :: b)); [cbn [length] in *; lia..|done].
Qed.

Definition tx_ok (tx : TxData) : Prop :=
  match tx with
  | Legacy tx => legacy_ok tx
  | AccessList tx => accessListTx_ok tx
  | DynamicFee tx => dynamicFee_ok tx
  | Blob tx => blob_ok tx /\ ptr_ok sidecar_ok (bl_Sidecar tx)
  | SetCode tx => setCode_ok tx
  | FeeDelegate tx => feeDelegate_ok tx
  end.

Lemma SplitList_VList vs : len (enc (VList vs)) < 2 ^ 64 -> SplitList (enc (VList vs)) = inr (concat (map enc vs), []).
Proof. apply SplitList_list. Qed.

Lemma Split_VList vs r : len (enc (VList vs) ++ r) < 2 ^ 64 ->
  exists content rest, Split (enc (VList vs) ++ r) = inr (List, content, rest).
Proof. intros Hl. unfold Split. pose proof (raw_readKind_list (concat (map enc vs)) r Hl) as Hk. unfold enc_list in Hk. cbn [enc]. rewrite Hk. eauto. Qed.

(** The outer list of a blob transaction, and the kind of its first element. *)
Lemma blob_first_kind v vs r :
  len (enc (VList (v :: vs))) < 2 ^ 64 -> concat (map enc (v :: vs)) = enc v ++ r -> len (enc v ++ r) < 2 ^ 64.
Proof. intros Hl%content_lt Heq. by rewrite <- Heq. Qed.

Lemma decodeBlob_ok tx :
  tx_ok (Blob tx) -> len (enc (inner_val (Blob tx))) < 2 ^ 64 -> decodeBlob (enc (inner_val (Blob tx))) = inr tx.
Proof.
  intros [Hok Hsc] Hl. unfold decodeBlob. cbn [inner_val] in *. destruct (bl_Sidecar tx) as [sc|] eqn:Hs.
  - pose proof (DecodeBytes_codec _ _ _ (set_Sidecar tx None, sc) codec_blobWithBlobs ltac:(done) Hl
      : DecodeBytes decodeBlobWithBlobs (enc (blobWithBlobs_val tx sc)) = _) as Hd.
    rewrite Hd. unfold blobWithBlobs_val in *. rewrite SplitList_VList by done.
    edestruct (Split_VList) as (c & r & Hk); [exact (blob_first_kind _ _ _ Hl eq_refl)|].
    cbn [map concat]. unfold blob_val at 1. rewrite Hk. rewrite (bool_decide_eq_true_2 (List = List)) by done. cbn [negb].
    by destruct tx; cbn in *; subst.
  - pose proof (DecodeBytes_codec _ _ _ tx codec_blobStruct (conj Hok Hs) Hl) as Hd. rewrite Hd. unfold blob_val in *.
    rewrite SplitList_VList by done.
    edestruct (Split_string (big_Bytes (bl_ChainID tx))) as (k & c & r & Hk & Hne);
      [apply big_Bytes_byte|pose proof (length_big_Bytes (bl_ChainID tx) 32 (proj1 Hok)); lia|exact (blob_first_kind _ _ _ Hl eq_refl)|].
    match goal with |- context [Split ?x] => replace (Split x) with (inr (k, c, r) : RlpError + (Kind * bytes * bytes)) by (symmetry; exact Hk) end.
    by rewrite bool_decide_eq_false_2.
Qed.

Lemma decodeBlob_inv b tx :
  bytes_ok b -> len b < 2 ^ 64 -> decodeBlob b = inr tx -> tx_ok (Blob tx) /\ b = enc (inner_val (Blob tx)).
Proof.
  intros Hb Hl. unfold decodeBlob. destruct (SplitList b) as [e|[outer rest]]; [done|]. destruct (Split outer) as [e|[[k c] r]]; [done|].
  destruct (negb _).
  - intros Hd. apply (DecodeBytes_codec_inv _ _ _ _ _ codec_blobStruct Hb Hl) in Hd as [[Hok Hs] ->]. cbn. by rewrite Hs.
  - destruct (DecodeBytes decodeBlobWithBlobs b) as [e|[tx' sc]] eqn:Hd; [done|]. intros [= <-].
    apply (DecodeBytes_codec_inv _ _ _ _ _ codec_blobWithBlobs Hb Hl) in Hd as [[[Hok _] Hsc] ->]. done.
Qed.

(** * Transactions *)

Lemma encodeTyped_inv tx b :
  encodeTyped tx = Some b -> b = tx_Type tx :: enc (inner_val tx) /\ len b < 2 ^ 63.
Proof.
  intros (e & He & Hb)%bind_Some. apply marshal_inv in He as (-> & _ & _). cbv zeta in Hb.
  destruct (Z.ltb_spec (Z.of_nat (length (tx_Type tx :: enc (inner_val tx)))) (2 ^ 63)); [|done]. by injection Hb as <-.
Qed.

Lemma inner_list tx : exists v vs, inner_val tx = VList (v :: vs).
Proof. destruct tx as [| | |tx| |]; cbn; try by eexists _, _. destruct (bl_Sidecar tx); by eexists _, _. Qed.

Lemma length_putint i : 1 <= len (putint i) <= 8.
Proof. unfold putint. repeat case_match; rewrite length_be_bytes; lia. Qed.

Lemma inner_first tx : exists x l, enc (inner_val tx) = x :: l /\ 0xC0 <= x.
Proof.
  destruct (inner_list tx) as (v & vs & ->). cbn [enc]. unfold puthead. destruct (Z.ltb_spec (len (concat (map enc (v :: vs)))) 56).
  - eexists _, _. split; [reflexivity|]. rewrite (u8_small (len _)), u8_small; lia.
  - eexists _, _. split; [reflexivity|]. pose proof (length_putint (len (concat (map enc (v :: vs))))) as Hp.
    rewrite (u8_small (len (putint _))), u8_small; lia.
Qed.

Lemma decodeTyped_ok tx b : tx_ok tx -> tx_Type tx <> LegacyTxType -> encodeTyped tx = Some b -> decodeTyped b = inr tx.
Proof.
  intros Hok Hty Hb. apply encodeTyped_inv in Hb as [-> Hl]. destruct (inner_first tx) as (x & l & Hx & _).
  assert (len (enc (inner_val tx)) < 2 ^ 64) as Hle by (cbn [length] in Hl; lia).
  unfold decodeTyped. rewrite Hx, <- Hx. destruct tx as [tx|tx|tx|tx|tx|tx]; cbn [tx_Type inner_val] in *; [done|..].
  - by rewrite (DecodeBytes_codec _ _ _ tx codec_accessListTx Hok Hle).
  - by rewrite (DecodeBytes_codec _ _ _ tx codec_dynamicFee Hok Hle).
  - change (rlp_tx Blob (decodeBlob (enc (inner_val (Blob tx)))) = inr (Blob tx)). by rewrite (decodeBlob_ok tx Hok Hle).
  - by rewrite (DecodeBytes_codec _ _ _ tx codec_setCode Hok Hle).
  - by rewrite (DecodeBytes_codec _ _ _ tx codec_feeDelegate Hok Hle).
Qed.

Lemma rlp_tx_inr {A} (mk : A -> TxData) r tx : rlp_tx mk r = inr tx -> exists a, r = inr a /\ tx = mk a.
Proof. destruct r as [e|a]; cbn; [done|]. intros [= <-]. eauto. Qed.

Lemma decodeTyped_inv b tx :
  bytes_ok b -> len b < 2 ^ 64 -> decodeTyped b = inr tx ->
  tx_ok tx /\ tx_Type tx <> LegacyTxType /\ b = tx_Type tx :: enc (inner_val tx).
Proof.
  intros Hb Hl. unfold decodeTyped. destruct b as [|ty [|x l]]; [done..|]. apply Forall_cons in Hb as [_ Hb].
  assert (len (x :: l) < 2 ^ 64) as Hl' by (cbn [length] in *; lia). clear Hl.
  repeat case_match; zify_bools; subst; intros Hd; try done; apply rlp_tx_inr in Hd as (a & Hd & ->).
  - apply (DecodeBytes_codec_inv _ _ _ _ _ codec_accessListTx Hb Hl') in Hd as [Hok ->]. done.
  - apply (DecodeBytes_codec_inv _ _ _ _ _ codec_dynamicFee Hb Hl') in Hd as [Hok ->]. done.
  - apply decodeBlob_inv in Hd as [Hok ->]; [|done..]. done.
  - apply (DecodeBytes_codec_inv _ _ _ _ _ codec_setCode Hb Hl') in Hd as [Hok ->]. done.
  - apply (DecodeBytes_codec_inv _ _ _ _ _ codec_feeDelegate Hb Hl') in Hd as [Hok ->]. done.
Qed.

(** No error inside a typed transaction is taken for the end of a list. *)
Lemma decodeTyped_EOL b : decodeTyped b <> inl (TxRlpError EOL).
Proof.
  assert (forall A (mk : A -> TxData) r, r <> inl EOL -> rlp_tx mk r <> inl (TxRlpError EOL)) as Hr.
  { intros A mk [e|a] Hne; cbn; [|done]. intros [=]; subst. done. }
  assert (forall A (f : A -> val) P d i, codec_ok f P d -> DecodeBytes d i <> inl EOL) as Hc.
  { intros A f P d i Hd. apply DecodeBytes_EOL, Hd. }
  assert (forall i e, Split i = inl e -> e <> EOL) as Hs.
  { intros i e. unfold Split, raw_readKind, readSize. repeat case_match; simplify_eq; intros [=]; subst; done. }
  unfold decodeTyped. destruct b as [|ty [|x l]]; [done..|].
  repeat case_match; try done; apply Hr; [eapply Hc, codec_accessListTx|eapply Hc, codec_dynamicFee| |eapply Hc, codec_setCode|eapply Hc, codec_feeDelegate].
  unfold decodeBlob, SplitList. destruct (Split (x :: l)) as [e|[[k c] r]] eqn:Hs1; [apply Hs in Hs1; naive_solver|].
  destruct (bool_decide _); [|done]. destruct (Split c) as [e|[[k' c'] r']] eqn:Hs2; [apply Hs in Hs2; naive_solver|].
  destruct (negb _); [eapply Hc, codec_blobStruct|]. pose proof (Hc _ _ _ _ (x :: l) codec_blobWithBlobs) as Hb.
  destruct (DecodeBytes decodeBlobWithBlobs (x :: l)) as [e|[tx sc]]; [naive_solver|done].
Qed.

(** What a transaction is written as inside a list, and which ones can be. *)
Definition tx_written (tx : TxData) : val :=
  if tx_Type tx =? LegacyTxType then inner_val tx else VBytes (tx_Type tx :: enc (inner_val tx)).
Definition tx_fits (tx : TxData) : Prop :=
  tx_ok tx /\ (tx_Type tx <> LegacyTxType -> 1 + len (enc (inner_val tx)) < 2 ^ 63).

Lemma tx_val_written tx v : tx_val tx = Some v -> v = tx_written tx.
Proof.
  unfold tx_val, tx_written. case_match; [by intros [= <-]|].
  intros Hv. apply bind_Some in Hv as (b & [-> _]%encodeTyped_inv & [= <-]). done.
Qed.

Lemma inner_valid tx : tx_ok tx -> len (enc (inner_val tx)) < 2 ^ 64 -> val_well (inner_val tx).
Proof.
  destruct tx as [tx|tx|tx|tx|tx|tx]; cbn [tx_ok inner_val].
  - apply (co_valid _ _ _ codec_legacy).
  - apply (co_valid _ _ _ codec_accessListTx).
  - apply (co_valid _ _ _ codec_dynamicFee).
  - intros [Hok Hsc]. destruct (bl_Sidecar tx) as [sc|].
    + by apply (co_valid _ _ _ codec_blobWithBlobs (set_Sidecar tx None, sc)).
    + by apply (co_valid _ _ _ codec_blobStruct (set_Sidecar tx None)).
  - apply (co_valid _ _ _ codec_setCode).
  - apply (co_valid _ _ _ codec_feeDelegate).
Qed.

Lemma tx_bytes tx : tx_fits tx -> tx_Type tx <> LegacyTxType -> bytes_ok (tx_Type tx :: enc (inner_val tx)).
Proof.
  intros [Hok Hl] Hty. constructor.
  - by destruct tx.
  - apply inner_valid; [done|]. specialize (Hl Hty). lia.
Qed.

(** Errors and results of [decodeTyped], inside a stream. *)
Lemma typed_never r : r <> inl (TxRlpError EOL) -> never EOL (match r with inr tx => mret tx | inl (TxRlpError e) => raise e | inl _ => raise DecoderError end : Dec TxData).
Proof. destruct r as [[| |e]|tx]; intros Hr s s'; cbn; intros [=]; subst; done. Qed.

Lemma reads_tx tx : tx_fits tx -> len (enc (tx_written tx)) < 2 ^ 64 -> reads decodeTx (enc (tx_written tx)) tx.
Proof.
  intros Hf. pose proof Hf as [Hok Hl]. unfold tx_written. destruct (Z.eqb_spec (tx_Type tx) LegacyTxType) as [Hty|Hty].
  - destruct tx; try done. cbn [inner_val tx_ok] in *. intros Hle. pose proof (co_reads _ _ _ codec_legacy _ Hok Hle) as Hr.
    apply reads_peek_list; [by apply content_lt| |by apply reads_map].
    apply starts_bind; [apply codec_legacy|auto with rlp].
  - specialize (Hl Hty). set (b := tx_Type tx :: enc (inner_val tx)). intros _. cbn [enc].
    assert (len b < 2 ^ 63) as Hb by (unfold b; cbn [length]; lia).
    assert ((len b =? 1) && (first_byte b <? 128) = false) as Hne.
    { unfold b. destruct (inner_first tx) as (x & l & -> & _). by destruct (Z.eqb_spec (len (tx_Type tx :: x :: l)) 1); [cbn [length] in *; lia|]. }
    rewrite <- enc_string_long by (lia || done). apply (reads_peek _ (stringAhead (len b))); [by repeat split; cbn; lia|done| |]; cbn [a_kind a_size stringAhead].
    all: destruct (Z.ltb_spec (2 ^ 63 - 1) (len b)); [lia|].
    + apply starts_bind; [apply starts_ReadBytes|]. intros x. apply typed_never, decodeTyped_EOL.
    + change (header (stringAhead (len b)) ++ b) with (puthead 0x80 0xB7 (len b) ++ b). rewrite enc_string_long by (lia || done).
      rewrite <- (app_nil_r (enc_string b)). eapply reads_bind; [apply reads_ReadBytes; [by apply tx_bytes|lia]|].
      rewrite (decodeTyped_ok tx b Hok Hty); [apply reads_ret|]. unfold encodeTyped. rewrite marshal_enc; [|apply inner_valid; [done|lia]|lia].
      cbn [mbind option_bind]. fold b. cbv zeta. by destruct (Z.ltb_spec (Z.of_nat (length b)) (2 ^ 63)); [|lia].
Qed.

(** The branch of [decodeTx] for strings. *)
Definition readTyped (n : Z) : Dec TxData :=
  b ← ReadBytes n; match decodeTyped b with inr tx => mret tx | inl (TxRlpError e) => raise e | inl _ => raise DecoderError end.

Lemma canon_typed n : n <= 2 ^ 63 - 1 ->
  canon (readTyped n)
    (encodes tx_written tx_fits).
Proof.
  intros Hn r rem st lim tx s' Hr Hl Hst Hrun.
  assert (canon (readTyped n)
    (fun tx bs => exists b, decodeTyped b = inr tx /\ bytes_ok b /\ len b = n /\ bs = enc_string b)) as Hc.
  { eapply canon_weaken; [eapply (canon_bind _ _ _ (fun b tx bs => decodeTyped b = inr tx /\ bs = [])); [apply canon_ReadBytes|]|].
    - intros b. destruct (decodeTyped b) as [[| |e]|tx']; [apply canon_raise..|].
      eapply canon_weaken; [apply canon_ret|]. by intros x bs [-> ->].
    - intros x bs (b & b1 & b2 & (Hb & Hlb & ->) & (Hd & ->) & ->). exists b. by rewrite app_nil_r. }
  destruct (Hc _ _ _ _ _ _ Hr Hl Hst Hrun) as (bs & r' & (b & Hd & Hb & Hlb & ->) & Heq & ->).
  exists (enc_string b), r'. split; [|done]. apply decodeTyped_inv in Hd as (Hok & Hty & ->); [|done|lia].
  cbn [length] in Hlb. split; [split; [done|intros _; lia]|]. unfold tx_written. by rewrite (proj2 (Z.eqb_neq _ _) Hty).
Qed.

Lemma decodeTyped_fuel b : bytes_ok b -> len b < 2 ^ 64 -> decodeTyped b <> inl (TxRlpError OutOfFuel).
Proof.
  intros Hb Hl. unfold decodeTyped. destruct b as [|ty [|x l]]; [done..|]. apply Forall_cons in Hb as [_ Hb].
  assert (len (x :: l) < 2 ^ 64) as Hl' by (cbn [length] in *; lia). clear Hl.
  assert (forall A (mk : A -> TxData) r, r <> inl OutOfFuel -> rlp_tx mk r <> inl (TxRlpError OutOfFuel)) as Hr.
  { intros A mk [e|a] Hne; cbn; [|done]. intros [=]; subst. done. }
  assert (forall A (f : A -> val) P d, codec_ok f P d -> DecodeBytes d (x :: l) <> inl OutOfFuel) as Hc.
  { intros A f P d Hd. apply DecodeBytes_total; [apply Hd|done..]. }
  assert (forall i e, Split i = inl e -> e <> OutOfFuel) as Hs.
  { intros i e. unfold Split, raw_readKind, readSize. repeat case_match; simplify_eq; intros [=]; subst; done. }
  repeat case_match; try done; apply Hr; [eapply Hc, codec_accessListTx|eapply Hc, codec_dynamicFee| |eapply Hc, codec_setCode|eapply Hc, codec_feeDelegate].
  unfold decodeBlob, SplitList. destruct (Split (x :: l)) as [e|[[k c] r]] eqn:Hs1; [apply Hs in Hs1; naive_solver|].
  destruct (bool_decide _); [|done]. destruct (Split c) as [e|[[k' c'] r']] eqn:Hs2; [apply Hs in Hs2; naive_solver|].
  destruct (negb _); [eapply Hc, codec_blobStruct|]. pose proof (Hc _ _ _ _ codec_blobWithBlobs) as Hbl.
  destruct (DecodeBytes decodeBlobWithBlobs (x :: l)) as [e|[tx sc]]; [naive_solver|done].
Qed.

Lemma ReadBytes_input n s b s' :
  good s -> ReadBytes n s = (inr b, s') -> bytes_ok b /\ len b < 2 ^ 64 \/ exists x, b = [x].
Proof.
  intros Hs. unfold ReadBytes, mbind at 1, Dec_bind at 1. destruct (kind_calm s Hs) as (_ & Hg & Hz).
  destruct (kind s) as [[e|a] [r rem ah st lim]]; [done|]. cbn in Hg. specialize (Hz a eq_refl). destruct Hg as (Hr & Hl & _).
  destruct (a_kind a); [| |done].
  - destruct (negb _); [done|]. intros Hrun. injection Hrun as <- _. eauto.
  - destruct (Z.eqb_spec n (a_size a)) as [->|]; [|done]. cbn [negb]. unfold mbind, Dec_bind.
    destruct (readFull _ _) as [[e|x] s1] eqn:Hrf; [done|]. apply readFull_inv in Hrf as (r' & Heq & Hb & ->); [|lia].
    cbn in Hr, Hl. subst r. apply Forall_app in Hr as [Hx _]. rewrite length_app in Hl.
    destruct (_ && _); [done|]. intros [= <- <-]. left. split; [done|lia].
Qed.

Lemma total_typed n :
  total (readTyped n).
Proof.
  intros s Hs. destruct (total_ReadBytes n s Hs) as [H1 H2]. pose proof (ReadBytes_input n s) as Hb. unfold readTyped, mbind, Dec_bind.
  destruct (ReadBytes n s) as [[e|b] s1]; [split; cbn in *; [naive_solver|done]|]. cbn [fst snd] in *.
  assert (decodeTyped b <> inl (TxRlpError OutOfFuel)) as Hd.
  { destruct (Hb b s1 Hs eq_refl) as [[? ?]|[x ->]]; [by apply decodeTyped_fuel|done]. }
  destruct (decodeTyped b) as [[| |e]|tx]; split; cbn; naive_solver.
Qed.

Lemma codec_tx : codec_ok tx_written tx_fits decodeTx.
Proof.
  apply codec_intro; [apply reads_tx| | | | |].
  - apply canon_peek. intros [k n bv e]. cbn [a_kind a_size]. destruct k; [left; apply fails_raise| |].
    + destruct (Z.ltb_spec (2 ^ 63 - 1) n); [left; apply fails_raise|right]. split; [|by apply canon_typed].
      apply starts_bind; [apply starts_ReadBytes|]. intros x. apply typed_never, decodeTyped_EOL.
    + right. split; [apply starts_bind; [apply codec_legacy|auto with rlp]|].
      eapply canon_weaken; [apply canon_bind; [apply codec_legacy|intros tx; apply canon_ret]|].
      intros x bs (tx & b1 & b2 & [Hok ->] & [-> ->] & ->). split; [by split|]. by rewrite app_nil_r.
  - apply starts_peeks. intros [k n bv e]. cbn [a_kind a_size]. destruct k; [by apply peeked_never; auto with rlp| |].
    + case_match; [by apply peeked_never; auto with rlp|]. apply starts_peeked, starts_bind; [apply starts_ReadBytes|].
      intros x. apply typed_never, decodeTyped_EOL.
    + apply starts_peeked, starts_bind; [apply codec_legacy|auto with rlp].
  - apply total_kind. intros [k n bv e] Hn. cbn [a_kind a_size]. destruct k; [by apply total_raise| |].
    + case_match; [by apply total_raise|]. apply total_typed.
    + apply total_bind; [apply codec_legacy|intros tx; apply total_ret].
  - intros tx b. unfold tx_written. destruct (inner_list tx) as (v & vs & ->). by case_match.
  - intros tx Hf Hl. unfold tx_written in *. case_match; zify_bools.
    + by apply inner_valid; [apply Hf|].
    + split; [done|]. apply enc_string_bytes, tx_bytes; [done|]. lia.
Qed.

Lemma UnmarshalBinary_ok tx b : tx_ok tx -> MarshalBinary tx = Some b -> UnmarshalBinary b = inr tx.
Proof.
  intros Hok. unfold MarshalBinary, UnmarshalBinary. destruct (Z.eqb_spec (tx_Type tx) LegacyTxType) as [Hty|Hty]; intros Hb.
  - destruct tx as [tx| | | | |]; try done. apply marshal_inv in Hb as (-> & _ & Hl).
    destruct (inner_first (Legacy tx)) as (x & l & Hx & Hge). rewrite Hx. cbn [first_byte].
    destruct (Z.ltb_spec 0x7f x); [|lia]. destruct (Z.ltb_spec 0 (Z.of_nat (length (x :: l)))); [|cbn [length] in *; lia].
    cbn [andb]. rewrite <- Hx. cbn [inner_val] in *. by rewrite (DecodeBytes_codec _ _ _ tx codec_legacy Hok Hl).
  - pose proof (decodeTyped_ok tx b Hok Hty Hb) as Hd. apply encodeTyped_inv in Hb as [-> _]. cbn [first_byte].
    destruct (Z.ltb_spec 0x7f (tx_Type tx)) as [Hlt|]; [by destruct tx|]. by rewrite andb_false_r.
Qed.

Lemma MarshalBinary_fits tx :
  tx_ok tx -> len (enc (inner_val tx)) + 1 < 2 ^ 63 ->
  MarshalBinary tx = Some (if tx_Type tx =? LegacyTxType then enc (inner_val tx) else tx_Type tx :: enc (inner_val tx)).
Proof.
  intros Hok Hl. unfold MarshalBinary, encodeTyped. rewrite marshal_enc; [|apply inner_valid; [done|lia]|lia].
  case_match; [done|]. cbn [mbind option_bind]. cbv zeta. destruct (Z.ltb_spec (Z.of_nat (length (tx_Type tx :: enc (inner_val tx)))) (2 ^ 63)); [done|].
  cbn [length] in *. lia.
Qed.

Lemma UnmarshalBinary_inv tx b :
  bytes_ok b -> len b < 2 ^ 63 - 1 -> UnmarshalBinary b = inr tx -> tx_ok tx /\ MarshalBinary tx = Some b.
Proof.
  intros Hb Hl. unfold UnmarshalBinary. case_match.
  - intros (a & Hd & ->)%rlp_tx_inr. apply (DecodeBytes_codec_inv _ _ _ _ _ codec_legacy Hb ltac:(lia)) in Hd as [Hok ->].
    split; [done|]. apply (MarshalBinary_fits (Legacy a)); [done|]. cbn [inner_val]. lia.
  - intros (Hok & Hty & ->)%decodeTyped_inv; [|done|lia]. split; [done|]. cbn [length] in Hl. rewrite MarshalBinary_fits; [|done|lia].
    by rewrite (proj2 (Z.eqb_neq _ _) Hty).
Qed.

(** C19. The binary form of a transaction is unique: [UnmarshalBinary] accepts
    exactly the bytes [MarshalBinary] writes for a transaction of the Go types,
    legacy or typed, blob transactions with and without their sidecar and
    fee-delegated ones included, and gives that transaction back. *)
Theorem tx_binary_unique (b : bytes) (tx : TxData) (Hb : Forall is_byte b) (Hl : Z.of_nat (length b) < 2 ^ 63 - 1) :
  UnmarshalBinary b = inr tx <-> tx_ok tx /\ MarshalBinary tx = Some b.
Proof.
  split; [by apply UnmarshalBinary_inv|]. intros [Hok Hm]. by apply UnmarshalBinary_ok.
Qed.
