(* ===== verification/Blocks.v ===== *)
(** Blocks and their RLP form (src/core/types/block.go, withdrawal.go,
    gen_header_rlp.go, gen_withdrawal_rlp.go), as the core's proposals. *)
From S2P Require Import Prelude Validators Messages Rlp RlpStream Extra RlpCodec Header Transactions.

Record Withdrawal := MkWithdrawal {
  w_Index : Z;
  w_Validator : Z;
  w_Address : Address;
  w_Amount : Z;
}.

(** The caches of the hash and the size are not kept.  A nil slice of withdrawals
    is [None]; the other slices are the same nil or empty. *)
Record Block := MkBlock {
  b_header : Header;
  b_uncles : list Header;
  b_transactions : list TxData;
  b_withdrawals : option (list Withdrawal);
}.

(** * Encoding *)

Definition withdrawal_val (w : Withdrawal) : val :=
  VList [VUint (w_Index w); VUint (w_Validator w); VBytes (addressBytes (w_Address w)); VUint (w_Amount w)].

(** A typed transaction that cannot be encoded has a negative integer, which the
    encoder reports for the whole block. *)
Definition tx_elem (tx : TxData) : val := default (bigInt (-1)) (tx_val tx).

(** [Block.EncodeRLP], an [extblock]. *)
Definition block_EncodeRLP (b : Block) : val :=
  VList ([header_val (b_header b); VList (map tx_elem (b_transactions b)); VList (map header_val (b_uncles b))] ++
         match b_withdrawals b with Some ws => [VList (map withdrawal_val ws)] | None => [] end).

(** * Decoding *)

(** A [*big.Int] field. *)
Definition BigIntPtr : Dec (option Z) := i ← BigInt; mret (Some i).

Definition decodeHeader : Dec Header :=
  decodeStruct
    (parentHash ← field (FixedBytes 32); uncleHash ← field (FixedBytes 32); coinbase ← field (FixedBytes 20);
     root ← field (FixedBytes 32); txHash ← field (FixedBytes 32); receiptHash ← field (FixedBytes 32);
     bloom ← field (FixedBytes 256); difficulty ← field BigIntPtr; number ← field BigIntPtr;
     gasLimit ← field (uint_ 64); gasUsed ← field (uint_ 64); time ← field (uint_ 64); extra ← field Bytes;
     mixDigest ← field (FixedBytes 32); nonce ← field (FixedBytes 8);
     let h := MkHeader parentHash uncleHash coinbase root txHash receiptHash bloom difficulty number gasLimit gasUsed time
                extra mixDigest nonce in
     optional BigInt (h None None None None None) (fun baseFee =>
     optional (FixedBytes 32) (h (Some baseFee) None None None None) (fun withdrawalsHash =>
     optional (uint_ 64) (h (Some baseFee) (Some withdrawalsHash) None None None) (fun blobGasUsed =>
     optional (uint_ 64) (h (Some baseFee) (Some withdrawalsHash) (Some blobGasUsed) None None) (fun excessBlobGas =>
     optional (FixedBytes 32) (h (Some baseFee) (Some withdrawalsHash) (Some blobGasUsed) (Some excessBlobGas) None)
       (fun parentBeaconRoot =>
     mret (h (Some baseFee) (Some withdrawalsHash) (Some blobGasUsed) (Some excessBlobGas) (Some parentBeaconRoot)))))))).

Definition decodeWithdrawal : Dec Withdrawal :=
  decodeStruct
    (index ← field (uint_ 64); validator ← field (uint_ 64); addr ← field (FixedBytes 20); amount ← field (uint_ 64);
     mret (MkWithdrawal index validator addr amount)).

Definition decodeExtblock : Dec Block :=
  decodeStruct
    (header ← field decodeHeader;
     txs ← field (decodeListSlice decodeTx);
     uncles ← field (decodeListSlice decodeHeader);
     optional (decodeListSlice decodeWithdrawal) (MkBlock header uncles txs None) (fun withdrawals =>
     mret (MkBlock header uncles txs (Some withdrawals)))).

(** [Block.DecodeRLP]: [Kind] is called for the size, its error is dropped. *)
Definition block_DecodeRLP : Dec Block := fun s => let (_, s) := kind s in decodeExtblock s.

(** * Operations *)

Definition NewBlockWithHeader (header : Header) : Block := MkBlock (CopyHeader header) [] [] None.

Definition WithSeal (b : Block) (header : Header) : Block :=
  MkBlock (CopyHeader header) (b_uncles b) (b_transactions b) (b_withdrawals b).

Definition WithBody (b : Block) (transactions : list TxData) (uncles : list Header) : Block :=
  MkBlock (b_header b) (map CopyHeader uncles) transactions (b_withdrawals b).

Definition WithWithdrawals (b : Block) (withdrawals : option (list Withdrawal)) : Block :=
  MkBlock (b_header b) (b_uncles b) (b_transactions b) withdrawals.

(** [Header.SanityCheck]; [true] for no error. *)
Definition header_SanityCheck (h : Header) : bool :=
  negb (match h_Number h with Some n => negb ((0 <=? n) && (n <? 2 ^ 64)) | None => false end) &&
  negb (match h_Difficulty h with Some d => 80 <? BitLen d | None => false end) &&
  negb (100 * 1024 <? Z.of_nat (length (h_Extra h))) &&
  negb (match h_BaseFee h with Some f => 256 <? BitLen f | None => false end).
Definition SanityCheck (b : Block) : bool := header_SanityCheck (b_header b).

(** [Block.Size] without its cache: an encoding error leaves the counter at 0. *)
Definition block_Size (b : Block) : Z :=
  match EncodeToBytes (block_EncodeRLP b) with inr e => u64 (Z.of_nat (length e)) | inl _ => 0 end.

Section proposal.
Context `{Crypto}.

(** [CalcUncleHash]. *)
Definition CalcUncleHash (EmptyUncleHash : Hash) (uncles : list Header) : Hash :=
  match uncles with
  | [] => EmptyUncleHash
  | _ => be_value (Keccak256 (match EncodeToBytes (VList (map header_val uncles)) with inr b => b | inl _ => [] end))
  end.

(** A block as a proposal of the core; [PrepareSeal] takes its header. *)
#[global] Instance blockProposal : Proposal Block := {|
  Number := fun b => default 0 (h_Number (b_header b));
  BHash := fun b => header_Hash (b_header b);
  PrepareSeal := fun b => header_PrepareSeal (b_header b);
|}.
End proposal.
