(* ===== verification/BlockProps.v ===== *)
(** Blocks survive encoding: round trip, canonicity and termination of the codecs
    of headers and blocks. *)
From S2P Require Import Prelude Validators Messages Rlp RlpStream RlpSpec RlpLists Extra ExtraProps RlpCodec Header Transactions TxProps Blocks.

(** * Values of the Go types *)

(** A pointer that is set: decoding always sets it. *)
Definition bigPtr_ok (o : option Z) : Prop := exists i, o = Some i /\ 0 <= i.

(** An optional field is set only where the one before it is. *)
Definition optionals_ok (h : Header) : Prop :=
  ptr_ok big_ok (h_BaseFee h) /\ ptr_ok hash_ok (h_WithdrawalsHash h) /\ ptr_ok uint64_ok (h_BlobGasUsed h) /\
  ptr_ok uint64_ok (h_ExcessBlobGas h) /\ ptr_ok hash_ok (h_ParentBeaconRoot h) /\
  (h_WithdrawalsHash h <> None -> h_BaseFee h <> None) /\ (h_BlobGasUsed h <> None -> h_WithdrawalsHash h <> None) /\
  (h_ExcessBlobGas h <> None -> h_BlobGasUsed h <> None) /\ (h_ParentBeaconRoot h <> None -> h_ExcessBlobGas h <> None).

Definition header_ok (h : Header) : Prop :=
  hash_ok (h_ParentHash h) /\ hash_ok (h_UncleHash h) /\ address_ok (h_Coinbase h) /\ hash_ok (h_Root h) /\
  hash_ok (h_TxHash h) /\ hash_ok (h_ReceiptHash h) /\ 0 <= h_Bloom h < 256 ^ 256 /\ bigPtr_ok (h_Difficulty h) /\
  bigPtr_ok (h_Number h) /\ uint64_ok (h_GasLimit h) /\ uint64_ok (h_GasUsed h) /\ uint64_ok (h_Time h) /\
  bytes_ok (h_Extra h) /\ hash_ok (h_MixDigest h) /\ 0 <= h_Nonce h < 256 ^ 8 /\ optionals_ok h.

Definition withdrawal_ok (w : Withdrawal) : Prop :=
  uint64_ok (w_Index w) /\ uint64_ok (w_Validator w) /\ address_ok (w_Address w) /\ uint64_ok (w_Amount w).

Definition block_ok (b : Block) : Prop :=
  header_ok (b_header b) /\ Forall tx_fits (b_transactions b) /\ Forall header_ok (b_uncles b) /\
  ptr_ok (Forall withdrawal_ok) (b_withdrawals b).

(** * Fields *)

Lemma codec_fixed n :
  1 < Z.of_nat n < 2 ^ 64 -> codec_ok (fun i => VBytes (be_bytes n i)) (fun i => 0 <= i < 256 ^ Z.of_nat n) (FixedBytes n).
Proof.
  intros Hn. pose proof (codec_FixedBytes n Hn) as Hc. apply codec_intro; try apply Hc; try done.
Qed.
Lemma field_hashBytes : field_ok (fun i => VBytes (hashBytes i)) hash_ok (FixedBytes 32).
Proof. by apply (codec_fixed 32). Qed.
Lemma field_addressBytes : field_ok (fun i => VBytes (addressBytes i)) address_ok (FixedBytes 20).
Proof. by apply (codec_fixed 20). Qed.
Lemma field_bloom : field_ok (fun i => VBytes (be_bytes 256 i)) (fun i => 0 <= i < 256 ^ 256) (FixedBytes 256).
Proof. by apply (codec_fixed 256). Qed.
Lemma field_nonce : field_ok (fun i => VBytes (be_bytes 8 i)) (fun i => 0 <= i < 256 ^ 8) (FixedBytes 8).
Proof. by apply (codec_fixed 8). Qed.

Lemma field_bigPtr : field_ok VBigIntPtr bigPtr_ok BigIntPtr.
Proof.
  pose proof (codec_iso bigInt (fun i => 0 <= i) BigInt Some (default 0) bigPtr_ok codec_BigInt) as Hc.
  assert (codec_ok (fun o => bigInt (default 0 o)) bigPtr_ok BigIntPtr) as Hi.
  { apply Hc; [by intros x (i & -> & Hi)|]. intros i Hi. split; [by exists i|done]. }
  split.
  - intros x Hx. destruct Hx as (i & -> & Hx). apply (co_reads _ _ _ Hi (Some i)). by exists i.
  - eapply canon_weaken; [apply Hi|]. intros x bs [(i & -> & Hx) ->]. split; [by exists i|done].
  - apply Hi.
  - done.
  - intros x Hx. destruct Hx as (i & -> & Hx). apply (co_valid _ _ _ Hi (Some i)). by exists i.
Qed.

#[export] Hint Resolve field_hashBytes field_addressBytes field_bloom field_nonce field_bigPtr : fields.

(** Another encoder with the same results on the values of the type. *)
Lemma codec_same {A} (f f' : A -> val) P P' d :
  codec_ok f P d -> (forall x, P x <-> P' x) -> (forall x, P' x -> f x = f' x) -> (forall x b, f' x <> VRaw b) -> codec_ok f' P' d.
Proof.
  intros Hd HP Hf Hraw. apply codec_intro; [|eapply canon_weaken; [apply Hd|]|apply Hd|apply Hd|done|].
  - intros x Hx. rewrite <- Hf by done. apply Hd. by apply HP.
  - intros x bs [Hx%HP ->]. split; [done|]. by rewrite Hf.
  - intros x Hx. rewrite <- Hf by done. apply (co_valid _ _ _ Hd). by apply HP.
Qed.

Ltac next_optional p := eapply (body_optional p); [first [apply codec_BigInt|apply codec_uint64|by apply (codec_fixed 32)]|intros ?| |reflexivity].

(** Which optional fields are set. *)
Ltac optionals :=
  cbn beta in *; destruct_and?;
  repeat match goal with H : match ?o with Some _ => _ | None => _ end |- _ => destruct o eqn:?; cbn beta in *; destruct_and? end.
Ltac projected := intros ? ? ?; optionals; match goal with H : ?x = _ |- _ => rewrite H; reflexivity end.

Ltac absent :=
  repeat match goal with H : ?o <> None -> None <> None |- _ =>
    assert (o = None) by (destruct o; [by destruct H|done]); clear H; subst o end.

(** * Headers *)

Lemma codec_header : codec_ok header_val header_ok decodeHeader.
Proof.
  eapply codec_same; [eapply codec_struct| | |done].
  - next_field h_ParentHash. next_field h_UncleHash. next_field h_Coinbase. next_field h_Root. next_field h_TxHash.
    next_field h_ReceiptHash. next_field h_Bloom. next_field h_Difficulty. next_field h_Number. next_field h_GasLimit.
    next_field h_GasUsed. next_field h_Time. next_field h_Extra. next_field h_MixDigest. next_field h_Nonce. cbv zeta.
    next_optional h_BaseFee. next_optional h_WithdrawalsHash. next_optional h_BlobGasUsed. next_optional h_ExcessBlobGas.
    next_optional h_ParentBeaconRoot. apply body_ret. all: projected.
  - intros []; unfold header_ok, optionals_ok; cbn. split; intros; optionals; cbn in *; simplify_eq; split_and!; try done.
    repeat match goal with
      | |- match ?o with Some _ => _ | None => _ end => destruct o; cbn in *; absent
      | |- _ /\ match _ with Some _ => _ | None => _ end => split; [done|]
      end; done.
  - intros [] (_ & _ & _ & _ & _ & _ & _ & _ & _ & _ & _ & _ & _ & _ & _ & _ & _ & _ & _ & _ & H1 & H2 & H3 & H4). unfold header_val. cbn in *.
    do 6 (absent; try done; match goal with |- context [match ?o with Some _ => _ :: _ | None => [] end] => destruct o end).
Qed.

(** * Blocks *)

Lemma codec_withdrawal : codec_ok withdrawal_val withdrawal_ok decodeWithdrawal.
Proof.
  eapply codec_equiv; [eapply codec_struct| |].
  - next_field w_Index. next_field w_Validator. next_field w_Address. next_field w_Amount. apply body_ret. all: projections.
  - reflexivity.
  - struct_ok withdrawal_ok.
Qed.

Lemma tx_elem_fits tx : tx_fits tx -> tx_elem tx = tx_written tx.
Proof.
  intros Hf. unfold tx_elem. pose proof Hf as [Hok Hl]. unfold tx_val, tx_written in *.
  destruct (Z.eqb_spec (tx_Type tx) LegacyTxType) as [|Hty]; [done|].
  specialize (Hl Hty). unfold encodeTyped. rewrite marshal_enc; [|apply inner_valid; [done|lia]|lia]. cbn [mbind option_bind].
  cbv zeta. destruct (Z.ltb_spec (Z.of_nat (length (tx_Type tx :: enc (inner_val tx)))) (2 ^ 63)); [done|]. cbn [length] in *. lia.
Qed.

Lemma codec_tx_elem : codec_ok tx_elem tx_fits decodeTx.
Proof.
  eapply codec_same; [apply codec_tx|done| |].
  - intros tx Hf. by rewrite tx_elem_fits.
  - intros tx b. unfold tx_elem, tx_val. destruct (inner_list tx) as (v & vs & ->). case_match; [done|].
    by destruct (encodeTyped tx).
Qed.

#[export] Hint Resolve codec_header codec_withdrawal codec_tx_elem field_of_codec : fields.

Lemma codec_extblock : codec_ok block_EncodeRLP block_ok decodeExtblock.
Proof.
  eapply codec_same; [eapply codec_struct| | |done].
  - next_field b_header. next_field b_transactions. next_field b_uncles.
    eapply (body_optional b_withdrawals); [apply codec_slice, codec_withdrawal|intros ?| |reflexivity]. apply body_ret. all: projected.
  - intros []; unfold block_ok; cbn. split; intros; optionals; cbn in *; simplify_eq; split_and!; try done. by case_match.
  - intros [h us txs [ws|]]; done.
Qed.

(** [Kind] a second time gives the same, errors included. *)
Lemma kind_again_any s : kind (kind s).2 = kind s.
Proof.
  assert (forall a s1, s_ahead s1 = Some a -> kind (getAhead a s1).2 = getAhead a s1) as Hg.
  { intros a s1 Ha. unfold getAhead. destruct (a_err a) eqn:He; cbn; unfold kind; rewrite Ha; unfold getAhead; by rewrite He. }
  destruct (s_ahead s) as [a|] eqn:Ha.
  - assert (kind s = getAhead a s) as -> by (unfold kind; by rewrite Ha). by apply Hg.
  - destruct (s_stack s) as [|[|l|l] st] eqn:Hst.
    2:{ assert (kind s = (inl EOL, s)) as -> by (unfold kind; by rewrite Ha, Hst). cbn. unfold kind. by rewrite Ha, Hst. }
    all: unfold kind at 2 3; rewrite Ha, Hst.
    all: destruct (readKind s) as [[e|a] s1] eqn:Hrk; [by destruct (readKind_no_error _ _ _ Hrk)|]; by apply Hg.
Qed.

Lemma block_DecodeRLP_ext s : block_DecodeRLP s = decodeExtblock s.
Proof.
  unfold block_DecodeRLP. destruct (co_starts _ _ _ codec_extblock) as (f & _ & Hf).
  pose proof (kind_again_any s) as Hk. destruct (kind s) as [r s1] eqn:Hs. cbn in Hk. rewrite !Hf.
  unfold mbind, Dec_bind. by rewrite Hk, Hs.
Qed.

Lemma codec_ext {A} (f : A -> val) P (d d' : Dec A) : codec_ok f P d -> (forall s, d' s = d s) -> codec_ok f P d'.
Proof.
  intros Hd He. apply codec_intro; [| | | |apply Hd|apply Hd].
  - intros x HP Hl r rem st lim Hf. rewrite He. by apply Hd.
  - intros r rem st lim x s' Hr Hl Hst. rewrite He. by apply Hd.
  - destruct (co_starts _ _ _ Hd) as (g & Hg & Hdg). exists g. split; [done|]. intros s. by rewrite He.
  - intros s. rewrite He. apply Hd.
Qed.

Lemma codec_block : codec_ok block_EncodeRLP block_ok block_DecodeRLP.
Proof. eapply codec_ext; [apply codec_extblock|apply block_DecodeRLP_ext]. Qed.

(** C18. A block has one encoding: [DecodeRLP] accepts exactly the bytes
    [EncodeRLP] writes for a block of the Go types whose optional header fields
    are set from the first on, and gives that block back; transactions of every
    type, uncles and withdrawals included. *)
Theorem block_encoding_unique (data : bytes) (b : Block) (Hb : Forall is_byte data) (Hl : Z.of_nat (length data) < 2 ^ 64) :
  DecodeBytes block_DecodeRLP data = inr b <-> block_ok b /\ marshal (block_EncodeRLP b) = Some data.
Proof.
  split.
  - intros [Hok ->]%(DecodeBytes_codec_inv _ _ _ _ _ codec_block Hb Hl). split; [done|].
    apply marshal_enc; [|done]. by apply (co_valid _ _ _ codec_block).
  - intros [Hok (-> & _ & _)%marshal_inv]. by apply (DecodeBytes_codec _ _ _ b codec_block).
Qed.
