(* ===== verification/TxSigning.v ===== *)
(** Signatures of transactions (src/core/types/transaction_signing.go, the methods
    [sigHash] and [setSignatureValues] of tx_*.go, src/crypto/crypto.go). *)
From S2P Require Import Prelude Validators Messages Rlp RlpStream Extra ChainConfig RlpCodec Header Transactions.

(** The curve secp256k1: keys, [crypto.Sign] and [crypto.Ecrecover]. *)
Class Secp256k1 : Type := {
  PrivateKey : Type;
  publicKey : PrivateKey -> bytes;
  crypto_Sign : bytes -> PrivateKey -> option bytes;
  Ecrecover : bytes -> bytes -> option bytes;
}.

Definition secp256k1N : Z := 0xFFFFFFFFFFFFFFFFFFFFFFFFFFFFFFFEBAAEDCE6AF48A03BBFD25E8CD0364141.
Definition secp256k1halfN : Z := secp256k1N / 2.

Definition ValidateSignatureValues (v r s : Z) (homestead : bool) : bool :=
  if (r <? 1) || (s <? 1) then false
  else if homestead && (secp256k1halfN <? s) then false
  else (r <? secp256k1N) && (s <? secp256k1N) && ((v =? 0) || (v =? 1)).

(** * What is signed *)

(** What [rlp.Encode] writes into a hasher: nothing where it fails. *)
Definition rlp_written (v : val) : bytes := match EncodeToBytes v with inr b => b | inl _ => [] end.

(** The lists that are hashed: for Homestead, and by [sigHash]. *)
Definition homesteadPayload (tx : TxData) : val :=
  VList [VUint (tx_Nonce tx); bigInt (tx_GasPrice tx); VUint (tx_Gas tx); addressPtr (tx_To tx);
         bigInt (tx_Value tx); VBytes (tx_Data tx)].
Definition FrontierSigner_data (tx : TxData) : bytes := rlp_written (homesteadPayload tx).

Definition sigPayload (tx : TxData) (chainID : Z) : val :=
  match tx with
  | Legacy tx =>
      VList [VUint (lt_Nonce tx); bigInt (lt_GasPrice tx); VUint (lt_Gas tx); addressPtr (lt_To tx);
             bigInt (lt_Value tx); VBytes (lt_Data tx); bigInt chainID; VUint 0; VUint 0]
  | AccessList tx =>
      VList [bigInt chainID; VUint (al_Nonce tx); bigInt (al_GasPrice tx); VUint (al_Gas tx);
             addressPtr (al_To tx); bigInt (al_Value tx); VBytes (al_Data tx); accessList_val (al_AccessList tx)]
  | DynamicFee tx =>
      VList [bigInt chainID; VUint (df_Nonce tx); bigInt (df_GasTipCap tx); bigInt (df_GasFeeCap tx);
             VUint (df_Gas tx); addressPtr (df_To tx); bigInt (df_Value tx); VBytes (df_Data tx);
             accessList_val (df_AccessList tx)]
  | Blob tx =>
      VList [bigInt chainID; VUint (bl_Nonce tx); bigInt (bl_GasTipCap tx); bigInt (bl_GasFeeCap tx);
             VUint (bl_Gas tx); address_val (bl_To tx); bigInt (bl_Value tx); VBytes (bl_Data tx);
             accessList_val (bl_AccessList tx); bigInt (bl_BlobFeeCap tx); VList (map hash_val (bl_BlobHashes tx))]
  | SetCode tx =>
      VList [bigInt chainID; VUint (sct_Nonce tx); bigInt (sct_GasTipCap tx); bigInt (sct_GasFeeCap tx);
             VUint (sct_Gas tx); address_val (sct_To tx); bigInt (sct_Value tx); VBytes (sct_Data tx);
             accessList_val (sct_AccessList tx); VList (map authorization_val (sct_AuthList tx))]
  | FeeDelegate tx =>
      let s := fd_SenderTx tx in
      VList [VList [bigInt chainID; VUint (df_Nonce s); bigInt (df_GasTipCap s); bigInt (df_GasFeeCap s);
                    VUint (df_Gas s); addressPtr (df_To s); bigInt (df_Value s); VBytes (df_Data s);
                    accessList_val (df_AccessList s); bigInt (df_V s); bigInt (df_R s); bigInt (df_S s)];
             addressPtr (fd_FeePayer tx)]
  end.

(** The bytes that [sigHash] hashes: typed transactions put their type in front. *)
Definition sigData (tx : TxData) (chainID : Z) : bytes :=
  let data := rlp_written (sigPayload tx chainID) in
  if tx_Type tx =? LegacyTxType then data else tx_Type tx :: data.

(** [SetCodeAuthorization.SigHash], before hashing. *)
Definition authorization_payload (a : SetCodeAuthorization) : val :=
  VList [bigInt (au_ChainID a); address_val (au_Address a); VUint (au_Nonce a)].
Definition authorization_sigData (a : SetCodeAuthorization) : bytes := 0x05 :: rlp_written (authorization_payload a).

(** * Signers *)

Inductive Signer :=
  | FrontierSigner
  | HomesteadSigner
  | EIP155Signer (chainId : Z)
  | eip2930Signer (chainId : Z)
  | londonSigner (chainId : Z)
  | anzeonSigner (chainId : Z)
  | cancunSigner (chainId : Z)
  | feeDelegateSigner (chainId : Z).

(** [Equal]: the same type and the same chain. *)
#[export] Instance Signer_eq_dec : EqDecision Signer.
Proof. solve_decision. Defined.

Definition signer_ChainID (s : Signer) : option Z :=
  match s with
  | FrontierSigner | HomesteadSigner => None
  | EIP155Signer c | eip2930Signer c | londonSigner c | anzeonSigner c | cancunSigner c | feeDelegateSigner c => Some c
  end.

Inductive SignError :=
  | ErrTxTypeUnsupported | ErrInvalidChainId | ErrInvalidSig | ErrRecovery | ErrInvalidPublicKey
  | ErrFeePayerNotSet | ErrInvalidFeePayer | ErrSign.

(** A result, an error, or a panic. *)
Inductive Signing (A : Type) := Signed (a : A) | SignFailed (e : SignError) | SignPanic.
Arguments Signed {A}.
Arguments SignFailed {A}.
Arguments SignPanic {A}.

Section signing.
Context `{Crypto} `{Secp256k1}.

Definition dataHash (data : bytes) : Hash := be_value (Keccak256 data).

(** The methods [Hash]. *)
Definition FrontierSigner_Hash (tx : TxData) : Hash := dataHash (FrontierSigner_data tx).
Definition EIP155Signer_Hash (c : Z) (tx : TxData) : Hash := dataHash (sigData tx c).
Definition eip2930Signer_Hash (c : Z) (tx : TxData) : Hash :=
  if tx_Type tx =? LegacyTxType then EIP155Signer_Hash c tx
  else if tx_Type tx =? AccessListTxType then dataHash (sigData tx c)
  else zeroHash.
Definition londonSigner_Hash (c : Z) (tx : TxData) : Hash :=
  match tx with
  | FeeDelegate tx => dataHash (sigData (DynamicFee (fd_SenderTx tx)) c)
  | DynamicFee _ => dataHash (sigData tx c)
  | _ => eip2930Signer_Hash c tx
  end.
Definition anzeonSigner_Hash (c : Z) (tx : TxData) : Hash :=
  if negb (tx_Type tx =? SetCodeTxType) then londonSigner_Hash c tx else dataHash (sigData tx c).
Definition cancunSigner_Hash (c : Z) (tx : TxData) : Hash :=
  if negb (tx_Type tx =? BlobTxType) then anzeonSigner_Hash c tx else dataHash (sigData tx c).
Definition feeDelegateSigner_Hash (c : Z) (tx : TxData) : Hash :=
  if negb (tx_Type tx =? FeeDelegateDynamicFeeTxType) then londonSigner_Hash c tx else dataHash (sigData tx c).

Definition signer_Hash (s : Signer) (tx : TxData) : Hash :=
  match s with
  | FrontierSigner | HomesteadSigner => FrontierSigner_Hash tx
  | EIP155Signer c => EIP155Signer_Hash c tx
  | eip2930Signer c => eip2930Signer_Hash c tx
  | londonSigner c => londonSigner_Hash c tx
  | anzeonSigner c => anzeonSigner_Hash c tx
  | cancunSigner c => cancunSigner_Hash c tx
  | feeDelegateSigner c => feeDelegateSigner_Hash c tx
  end.

(** The address of an uncompressed public key. *)
Definition pubAddress (pub : bytes) : Address := be_value (take 20 (drop 12 (Keccak256 (drop 1 pub)))).

Definition recoverSender (sighash : Hash) (sig : bytes) : SignError + Address :=
  match Ecrecover (hashBytes sighash) sig with
  | None => inl ErrRecovery
  | Some pub => if (Z.of_nat (length pub) =? 0) || negb (first_byte pub =? 4) then inl ErrInvalidPublicKey else inr (pubAddress pub)
  end.

(** [recoverPlain]; R and S have at most 32 bytes where they are used. *)
Definition recoverPlain (sighash : Hash) (R S Vb : Z) (homestead : bool) : SignError + Address :=
  if 8 <? BitLen (Z.abs Vb) then inl ErrInvalidSig
  else
    let V := u8 (u64 (Z.abs Vb) - 27) in
    if negb (ValidateSignatureValues V R S homestead) then inl ErrInvalidSig
    else recoverSender sighash (be_bytes 32 R ++ be_bytes 32 S ++ [V]).

(** The methods [Sender]. *)
Definition FrontierSigner_Sender (tx : TxData) : SignError + Address :=
  if negb (tx_Type tx =? LegacyTxType) then inl ErrTxTypeUnsupported
  else let '(v, r, s) := RawSignatureValues tx in recoverPlain (FrontierSigner_Hash tx) r s v false.
Definition HomesteadSigner_Sender (tx : TxData) : SignError + Address :=
  if negb (tx_Type tx =? LegacyTxType) then inl ErrTxTypeUnsupported
  else let '(v, r, s) := RawSignatureValues tx in recoverPlain (FrontierSigner_Hash tx) r s v true.
Definition EIP155Signer_Sender (c : Z) (tx : TxData) : SignError + Address :=
  if negb (tx_Type tx =? LegacyTxType) then inl ErrTxTypeUnsupported
  else if negb (Protected tx) then HomesteadSigner_Sender tx
  else if negb (tx_ChainId tx =? c) then inl ErrInvalidChainId
  else let '(v, r, s) := RawSignatureValues tx in recoverPlain (EIP155Signer_Hash c tx) r s (v - c * 2 - 8) true.
Definition eip2930Signer_Sender (c : Z) (tx : TxData) : SignError + Address :=
  let '(v, r, s) := RawSignatureValues tx in
  if tx_Type tx =? LegacyTxType then EIP155Signer_Sender c tx
  else if tx_Type tx =? AccessListTxType then
    if negb (tx_ChainId tx =? c) then inl ErrInvalidChainId else recoverPlain (eip2930Signer_Hash c tx) r s (v + 27) true
  else inl ErrTxTypeUnsupported.
Definition londonSigner_Sender (c : Z) (tx : TxData) : SignError + Address :=
  if negb (tx_Type tx =? DynamicFeeTxType) && negb (tx_Type tx =? FeeDelegateDynamicFeeTxType) then eip2930Signer_Sender c tx
  else
    let '(v, r, s) := RawSignatureValues tx in
    if negb (tx_ChainId tx =? c) then inl ErrInvalidChainId else recoverPlain (londonSigner_Hash c tx) r s (v + 27) true.
Definition anzeonSigner_Sender (c : Z) (tx : TxData) : SignError + Address :=
  if negb (tx_Type tx =? SetCodeTxType) then londonSigner_Sender c tx
  else
    let '(v, r, s) := RawSignatureValues tx in
    if negb (tx_ChainId tx =? c) then inl ErrInvalidChainId else recoverPlain (anzeonSigner_Hash c tx) r s (v + 27) true.
Definition cancunSigner_Sender (c : Z) (tx : TxData) : SignError + Address :=
  if negb (tx_Type tx =? BlobTxType) then anzeonSigner_Sender c tx
  else
    let '(v, r, s) := RawSignatureValues tx in
    if negb (tx_ChainId tx =? c) then inl ErrInvalidChainId else recoverPlain (cancunSigner_Hash c tx) r s (v + 27) true.

(** The fee payer of a fee-delegated transaction. *)
Definition feeDelegateSigner_Sender (c : Z) (tx : TxData) : SignError + Address :=
  match RawFeePayerSignatureValues tx with
  | None => londonSigner_Sender c tx
  | Some (v, r, s) =>
      if negb (tx_ChainId tx =? c) then inl ErrInvalidChainId else recoverPlain (feeDelegateSigner_Hash c tx) r s (v + 27) true
  end.

Definition signer_Sender (s : Signer) (tx : TxData) : SignError + Address :=
  match s with
  | FrontierSigner => FrontierSigner_Sender tx
  | HomesteadSigner => HomesteadSigner_Sender tx
  | EIP155Signer c => EIP155Signer_Sender c tx
  | eip2930Signer c => eip2930Signer_Sender c tx
  | londonSigner c => londonSigner_Sender c tx
  | anzeonSigner c => anzeonSigner_Sender c tx
  | cancunSigner c => cancunSigner_Sender c tx
  | feeDelegateSigner c => feeDelegateSigner_Sender c tx
  end.

(** * Signing *)

(** [decodeSignature]; it panics where the length is wrong. *)
Definition decodeSignature (sig : bytes) : option (Z * Z * Z) :=
  if Z.of_nat (length sig) =? 65 then
    Some (be_value (take 32 sig), be_value (take 32 (drop 32 sig)), u8 (nth 64 sig 0 + 27))
  else None.

(** R, S and the recovery id as V. *)
Definition typedValues (sig : bytes) : Signing (Z * Z * Z) :=
  match decodeSignature sig with Some (r, s, _) => Signed (r, s, nth 64 sig 0) | None => SignPanic end.

(** The methods [SignatureValues]: R, S and V. *)
Definition FrontierSigner_SignatureValues (tx : TxData) (sig : bytes) : Signing (Z * Z * Z) :=
  if negb (tx_Type tx =? LegacyTxType) then SignFailed ErrTxTypeUnsupported
  else match decodeSignature sig with Some rsv => Signed rsv | None => SignPanic end.
Definition EIP155Signer_SignatureValues (c : Z) (tx : TxData) (sig : bytes) : Signing (Z * Z * Z) :=
  if negb (tx_Type tx =? LegacyTxType) then SignFailed ErrTxTypeUnsupported
  else
    match decodeSignature sig with
    | Some (r, s, v) => Signed (r, s, if negb (c =? 0) then u8 (nth 64 sig 0 + 35) + c * 2 else v)
    | None => SignPanic
    end.
Definition eip2930Signer_SignatureValues (c : Z) (tx : TxData) (sig : bytes) : Signing (Z * Z * Z) :=
  match tx with
  | Legacy _ => EIP155Signer_SignatureValues c tx sig
  | AccessList txdata =>
      if negb (al_ChainID txdata =? 0) && negb (al_ChainID txdata =? c) then SignFailed ErrInvalidChainId else typedValues sig
  | _ => SignFailed ErrTxTypeUnsupported
  end.
Definition londonSigner_SignatureValues (c : Z) (tx : TxData) (sig : bytes) : Signing (Z * Z * Z) :=
  match tx with
  | DynamicFee txdata =>
      if negb (df_ChainID txdata =? 0) && negb (df_ChainID txdata =? c) then SignFailed ErrInvalidChainId else typedValues sig
  | _ => eip2930Signer_SignatureValues c tx sig
  end.
Definition anzeonSigner_SignatureValues (c : Z) (tx : TxData) (sig : bytes) : Signing (Z * Z * Z) :=
  match tx with
  | SetCode txdata =>
      if negb (sct_ChainID txdata =? 0) && negb (sct_ChainID txdata =? c) then SignFailed ErrInvalidChainId else typedValues sig
  | _ => londonSigner_SignatureValues c tx sig
  end.
Definition cancunSigner_SignatureValues (c : Z) (tx : TxData) (sig : bytes) : Signing (Z * Z * Z) :=
  match tx with
  | Blob txdata =>
      if negb (bl_ChainID txdata =? 0) && negb (bl_ChainID txdata =? c) then SignFailed ErrInvalidChainId else typedValues sig
  | _ => anzeonSigner_SignatureValues c tx sig
  end.
Definition feeDelegateSigner_SignatureValues (c : Z) (tx : TxData) (sig : bytes) : Signing (Z * Z * Z) :=
  match tx with
  | FeeDelegate txdata =>
      if negb (df_ChainID (fd_SenderTx txdata) =? 0) && negb (df_ChainID (fd_SenderTx txdata) =? c) then SignFailed ErrInvalidChainId
      else typedValues sig
  | _ => londonSigner_SignatureValues c tx sig
  end.

Definition signer_SignatureValues (s : Signer) (tx : TxData) (sig : bytes) : Signing (Z * Z * Z) :=
  match s with
  | FrontierSigner | HomesteadSigner => FrontierSigner_SignatureValues tx sig
  | EIP155Signer c => EIP155Signer_SignatureValues c tx sig
  | eip2930Signer c => eip2930Signer_SignatureValues c tx sig
  | londonSigner c => londonSigner_SignatureValues c tx sig
  | anzeonSigner c => anzeonSigner_SignatureValues c tx sig
  | cancunSigner c => cancunSigner_SignatureValues c tx sig
  | feeDelegateSigner c => feeDelegateSigner_SignatureValues c tx sig
  end.

Definition u256 (x : Z) : Z := x mod 2 ^ 256.

(** The methods [setSignatureValues]; a nil chain ID only reaches legacy
    transactions.  [uint256.MustFromBig] panics for more than 256 bits, where
    [SetFromBig] keeps the low bits.  The chain ID of a fee-delegated transaction
    stays as it is. *)
Definition setSignatureValues (tx : TxData) (chainID : option Z) (v r s : Z) : option TxData :=
  let c := default 0 chainID in
  match tx with
  | Legacy t =>
      Some (Legacy (mkLegacyTx (lt_Nonce t) (lt_GasPrice t) (lt_Gas t) (lt_To t) (lt_Value t) (lt_Data t) v r s))
  | AccessList t =>
      Some (AccessList (mkAccessListTx c (al_Nonce t) (al_GasPrice t) (al_Gas t) (al_To t) (al_Value t) (al_Data t)
                          (al_AccessList t) v r s))
  | DynamicFee t =>
      Some (DynamicFee (mkDynamicFeeTx c (df_Nonce t) (df_GasTipCap t) (df_GasFeeCap t) (df_Gas t) (df_To t) (df_Value t)
                          (df_Data t) (df_AccessList t) v r s))
  | Blob t =>
      Some (Blob (mkBlobTx (u256 c) (bl_Nonce t) (bl_GasTipCap t) (bl_GasFeeCap t) (bl_Gas t) (bl_To t) (bl_Value t) (bl_Data t)
                    (bl_AccessList t) (bl_BlobFeeCap t) (bl_BlobHashes t) (bl_Sidecar t) (u256 v) (u256 r) (u256 s)))
  | SetCode t =>
      if 2 ^ 256 <=? c then None
      else
        Some (SetCode (mkSetCodeTx c (sct_Nonce t) (sct_GasTipCap t) (sct_GasFeeCap t) (sct_Gas t) (sct_To t) (sct_Value t)
                         (sct_Data t) (sct_AccessList t) (sct_AuthList t) (u256 v) (u256 r) (u256 s)))
  | FeeDelegate t => Some (FeeDelegate (mkFeeDelegateTx (fd_SenderTx t) (fd_FeePayer t) v r s))
  end.

Definition WithSignature (tx : TxData) (signer : Signer) (sig : bytes) : Signing TxData :=
  match signer_SignatureValues signer tx sig with
  | Signed (r, s, v) => match setSignatureValues tx (signer_ChainID signer) v r s with Some tx => Signed tx | None => SignPanic end
  | SignFailed e => SignFailed e
  | SignPanic => SignPanic
  end.

Definition SignTx (tx : TxData) (s : Signer) (prv : PrivateKey) : Signing TxData :=
  match crypto_Sign (hashBytes (signer_Hash s tx)) prv with
  | Some sig => WithSignature tx s sig
  | None => SignFailed ErrSign
  end.

(** * Authorizations *)

Definition SignSetCode (prv : PrivateKey) (auth : SetCodeAuthorization) : Signing SetCodeAuthorization :=
  match crypto_Sign (hashBytes (dataHash (authorization_sigData auth))) prv with
  | Some sig =>
      match decodeSignature sig with
      | Some (r, s, _) => Signed (mkAuthorization (au_ChainID auth) (au_Address auth) (au_Nonce auth) (nth 64 sig 0) r s)
      | None => SignPanic
      end
  | None => SignFailed ErrSign
  end.

Definition Authority (a : SetCodeAuthorization) : SignError + Address :=
  if negb (ValidateSignatureValues (au_V a) (au_R a) (au_S a) true) then inl ErrInvalidSig
  else recoverSender (dataHash (authorization_sigData a)) (be_bytes 32 (au_R a) ++ be_bytes 32 (au_S a) ++ [au_V a]).

(** [SetCodeAuthorities]: the accounts that authorized, each once. *)
Fixpoint authorities_from (marks : list Address) (auths : list SetCodeAuthorization) : list Address :=
  match auths with
  | [] => []
  | auth :: auths =>
      match Authority auth with
      | inr addr => if bool_decide (addr ∈ marks) then authorities_from marks auths else addr :: authorities_from (addr :: marks) auths
      | inl _ => authorities_from marks auths
      end
  end.
Definition SetCodeAuthorities (tx : TxData) : list Address :=
  match tx with SetCode tx => authorities_from [] (sct_AuthList tx) | _ => [] end.

(** * Transactions with their caches *)

Record Transaction := mkTransaction {
  t_inner : TxData;
  t_from : option (Signer * Address);
  t_feePayer : option (Signer * Address);
}.

(** [Sender]: the cached address, where the signer is the same. *)
Definition Sender (signer : Signer) (tx : Transaction) : (SignError + Address) * Transaction :=
  match t_from tx with
  | Some (s, from) =>
      if bool_decide (s = signer) then (inr from, tx)
      else
        match signer_Sender signer (t_inner tx) with
        | inl e => (inl e, tx)
        | inr addr => (inr addr, mkTransaction (t_inner tx) (Some (signer, addr)) (t_feePayer tx))
        end
  | None =>
      match signer_Sender signer (t_inner tx) with
      | inl e => (inl e, tx)
      | inr addr => (inr addr, mkTransaction (t_inner tx) (Some (signer, addr)) (t_feePayer tx))
      end
  end.

Definition FeePayer (signer : Signer) (tx : Transaction) : (SignError + Address) * Transaction :=
  match t_feePayer tx with
  | Some (s, from) =>
      if bool_decide (s = signer) then (inr from, tx)
      else
        match signer_Sender signer (t_inner tx) with
        | inl e => (inl e, tx)
        | inr addr => (inr addr, mkTransaction (t_inner tx) (t_from tx) (Some (signer, addr)))
        end
  | None =>
      match signer_Sender signer (t_inner tx) with
      | inl e => (inl e, tx)
      | inr addr => (inr addr, mkTransaction (t_inner tx) (t_from tx) (Some (signer, addr)))
      end
  end.

Definition RecoverFeePayer (chainID : Z) (tx : Transaction) : (SignError + Address) * Transaction :=
  match tx_FeePayer (t_inner tx) with
  | None => (inl ErrFeePayerNotSet, tx)
  | Some claimed =>
      match FeePayer (feeDelegateSigner chainID) tx with
      | (inr feePayer, tx) => if feePayer =? claimed then (inr feePayer, tx) else (inl ErrInvalidFeePayer, tx)
      | (inl _, tx) => (inl ErrInvalidFeePayer, tx)
      end
  end.

(** [WithoutBlobTxSidecar]: a copy without the blobs keeps the cached sender. *)
Definition withoutSidecar (t : BlobTx) : BlobTx :=
  mkBlobTx (bl_ChainID t) (bl_Nonce t) (bl_GasTipCap t) (bl_GasFeeCap t) (bl_Gas t) (bl_To t) (bl_Value t) (bl_Data t)
    (bl_AccessList t) (bl_BlobFeeCap t) (bl_BlobHashes t) None (bl_V t) (bl_R t) (bl_S t).
Definition WithoutBlobTxSidecar (tx : Transaction) : Transaction :=
  match t_inner tx with
  | Blob blobtx =>
      match bl_Sidecar blobtx with
      | None => tx
      | Some _ => mkTransaction (Blob (withoutSidecar blobtx)) (t_from tx) None
      end
  | _ => tx
  end.

(** [NewTx], and what decoding makes. *)
Definition NewTx (inner : TxData) : Transaction := mkTransaction inner None None.
End signing.

(** * Choosing a signer *)

(** [NewEIP155Signer]: a nil chain ID is 0. *)
Definition MakeSigner (config : ChainConfig) (blockNumber : option Z) (blockTime : Z) : Signer :=
  let c := default 0 (ChainID config) in
  if IsCancun config blockNumber blockTime then cancunSigner c
  else if AnzeonEnabled config then anzeonSigner c
  else if IsLondon config blockNumber then londonSigner c
  else if IsBerlin config blockNumber then eip2930Signer c
  else if IsEIP155 config blockNumber then EIP155Signer c
  else if IsHomestead config blockNumber then HomesteadSigner
  else FrontierSigner.

Definition LatestSigner (config : ChainConfig) : Signer :=
  match ChainID config with
  | Some c =>
      if bool_decide (CancunTime config <> None) then cancunSigner c
      else if AnzeonEnabled config then anzeonSigner c
      else if bool_decide (LondonBlock config <> None) then londonSigner c
      else if bool_decide (BerlinBlock config <> None) then eip2930Signer c
      else if bool_decide (EIP155Block config <> None) then EIP155Signer c
      else HomesteadSigner
  | None => HomesteadSigner
  end.

Definition LatestSignerForChainID (chainID : option Z) : Signer :=
  match chainID with Some c => cancunSigner c | None => HomesteadSigner end.
