(* ===== verification/TxSigningProps.v ===== *)
(** Signatures of transactions: what is signed is one thing only, who signed is
    found again, and no chain accepts what was signed for another. *)
From S2P Require Import Prelude Validators Messages Rlp RlpStream RlpSpec RlpLists Extra ChainConfig ExtraProps RlpCodec Header Transactions TxProps TxSigning.

(** * What is signed determines the content *)

Lemma codec_inj {A} (f : A -> val) P d x y :
  field_ok f P d -> P x -> P y -> len (enc (f x)) < 2 ^ 64 -> enc (f x) = enc (f y) -> x = y.
Proof.
  intros Hd Hx Hy Hl Heq. assert (forall n, fits n 0 [] false) as Hf by (by split).
  pose proof (co_reads _ _ _ Hd x Hx Hl [] 0 [] false (Hf _)) as H1'. rewrite Heq in H1', Hl.
  rewrite (co_reads _ _ _ Hd y Hy Hl [] 0 [] false (Hf _)) in H1'. by injection H1' as ->.
Qed.

Lemma rlp_written_enc v : val_ok v -> len (enc v) < 2 ^ 64 -> rlp_written v = enc v.
Proof.
  intros Hv Hl. pose proof (marshal_enc v Hv Hl) as Hm. unfold marshal in Hm. unfold rlp_written.
  destruct (_ && _); [|done]. destruct (EncodeToBytes v) as [e|b]; [done|]. by injection Hm as ->.
Qed.

(** Lists that are equal stay equal with the same values behind them. *)
Lemma enc_list_extend vs ws zs :
  len (enc (VList vs)) < 2 ^ 64 -> enc (VList vs) = enc (VList ws) -> enc (VList (vs ++ zs)) = enc (VList (ws ++ zs)).
Proof.
  intros Hl Heq. assert (concat (map enc vs) = concat (map enc ws)) as Hc.
  { pose proof (content_lt _ Hl). pose proof Hl as Hl'. rewrite Heq in Hl'. apply content_lt in Hl'.
    apply (f_equal (fun l => l ++ [])) in Heq. change (enc_list (concat (map enc vs)) ++ [] = enc_list (concat (map enc ws)) ++ []) in Heq.
    by apply enc_list_prefix in Heq as [? _]. }
  cbn [enc]. by rewrite !map_app, !concat_app, Hc.
Qed.

(** A transaction without its signature, for a chain.  The sidecar of a blob
    transaction is not signed, the hashes of its blobs are. *)
Definition unsigned (tx : TxData) (c : Z) : TxData :=
  match tx with
  | Legacy t => Legacy (mkLegacyTx (lt_Nonce t) (lt_GasPrice t) (lt_Gas t) (lt_To t) (lt_Value t) (lt_Data t) c 0 0)
  | AccessList t =>
      AccessList (mkAccessListTx c (al_Nonce t) (al_GasPrice t) (al_Gas t) (al_To t) (al_Value t) (al_Data t)
                    (al_AccessList t) 0 0 0)
  | DynamicFee t =>
      DynamicFee (mkDynamicFeeTx c (df_Nonce t) (df_GasTipCap t) (df_GasFeeCap t) (df_Gas t) (df_To t) (df_Value t)
                    (df_Data t) (df_AccessList t) 0 0 0)
  | Blob t =>
      Blob (mkBlobTx c (bl_Nonce t) (bl_GasTipCap t) (bl_GasFeeCap t) (bl_Gas t) (bl_To t) (bl_Value t) (bl_Data t)
              (bl_AccessList t) (bl_BlobFeeCap t) (bl_BlobHashes t) None 0 0 0)
  | SetCode t =>
      SetCode (mkSetCodeTx c (sct_Nonce t) (sct_GasTipCap t) (sct_GasFeeCap t) (sct_Gas t) (sct_To t) (sct_Value t)
                 (sct_Data t) (sct_AccessList t) (sct_AuthList t) 0 0 0)
  | FeeDelegate t =>
      let s := fd_SenderTx t in
      FeeDelegate (mkFeeDelegateTx
        (mkDynamicFeeTx c (df_Nonce s) (df_GasTipCap s) (df_GasFeeCap s) (df_Gas s) (df_To s) (df_Value s) (df_Data s)
           (df_AccessList s) (df_V s) (df_R s) (df_S s)) (fd_FeePayer t) 0 0 0)
  end.

Lemma unsigned_chain tx c tx' c' : unsigned tx c = unsigned tx' c' -> c = c'.
Proof. destruct tx, tx'; try discriminate; intros Heq; by injection Heq. Qed.

(** Its encoding is what is signed, and zeros. *)
Definition zeros (tx : TxData) : list val := match tx with Legacy _ => [] | _ => [bigInt 0; bigInt 0; bigInt 0] end.

Lemma val_ok_prefix vs zs : val_ok (VList (vs ++ zs)) -> val_ok (VList vs).
Proof.
  intros [Hl Hv]. rewrite map_app, concat_app, length_app in Hl. split; [lia|]. clear Hl.
  induction vs as [|v vs IH]; [done|]. destruct Hv as [Hv Hvs]. split; [done|by apply IH].
Qed.

Lemma payload_list tx c : exists vs, sigPayload tx c = VList vs /\ enc (inner_val (unsigned tx c)) = enc (VList (vs ++ zeros tx)) /\
  (val_ok (inner_val (unsigned tx c)) -> val_ok (VList vs)).
Proof.
  destruct tx; eexists; (split; [reflexivity|]); (split; [reflexivity|]); intros Hv;
    [|match goal with |- val_ok (VList ?vs) => exact (val_ok_prefix vs [bigInt 0; bigInt 0; bigInt 0] Hv) end..]. destruct Hv as [Hl Hv]. split; [exact Hl|].
  cbn in *. naive_solver lia.
Qed.

Definition chain_ok (c : Z) : Prop := 0 <= c < 2 ^ 256.

Lemma unsigned_ok tx c : tx_ok tx -> chain_ok c -> tx_ok (unsigned tx c).
Proof.
  intros Hok [Hc Hc'].
  destruct tx; unfold legacy_ok, accessListTx_ok, feeDelegate_ok, dynamicFee_ok, blob_ok, setCode_ok in *; cbn in *;
    unfold legacy_ok, accessListTx_ok, feeDelegate_ok, dynamicFee_ok, blob_ok, setCode_ok in *; cbn;
    destruct_and!; split_and!; try done; unfold big_ok, uint256_ok; lia.
Qed.

(** Everything that is signed with an account's key: a transaction by the rules
    before EIP-155, a transaction for a chain, an authorization to set code. *)
Inductive SignedContent :=
  | ForHomestead (tx : LegacyTx)
  | ForChain (c : Z) (tx : TxData)
  | ForCode (a : SetCodeAuthorization).

Definition signedBytes (x : SignedContent) : bytes :=
  match x with
  | ForHomestead tx => FrontierSigner_data (Legacy tx)
  | ForChain c tx => sigData tx c
  | ForCode a => authorization_sigData a
  end.

Definition signedPayload (x : SignedContent) : val :=
  match x with
  | ForHomestead tx => homesteadPayload (Legacy tx)
  | ForChain c tx => sigPayload tx c
  | ForCode a => authorization_payload a
  end.

(** Values of the Go types that can be encoded. *)
Definition content_ok (x : SignedContent) : Prop :=
  len (enc (signedPayload x)) < 2 ^ 63 /\
  match x with
  | ForHomestead tx => legacy_ok tx
  | ForChain c tx => tx_ok tx /\ chain_ok c
  | ForCode a => authorization_ok a
  end.

(** The content without signatures. *)
Definition content_of (x : SignedContent) : SignedContent :=
  match x with
  | ForHomestead t => ForHomestead (mkLegacyTx (lt_Nonce t) (lt_GasPrice t) (lt_Gas t) (lt_To t) (lt_Value t) (lt_Data t) 0 0 0)
  | ForChain c tx => ForChain c (unsigned tx c)
  | ForCode a => ForCode (mkAuthorization (au_ChainID a) (au_Address a) (au_Nonce a) 0 0 0)
  end.

Definition signedPrefix (x : SignedContent) : bytes :=
  match x with
  | ForHomestead _ => []
  | ForChain _ tx => if tx_Type tx =? LegacyTxType then [] else [tx_Type tx]
  | ForCode _ => [0x05]
  end.

Lemma list_first vs : exists b l, enc (VList vs) = b :: l /\ 0xC0 <= b.
Proof.
  cbn [enc]. unfold puthead. set (n := len (concat (map enc vs))). destruct (Z.ltb_spec n 56).
  - eexists _, _. split; [reflexivity|]. rewrite (u8_small n), u8_small; lia.
  - eexists _, _. split; [reflexivity|]. pose proof (length_putint n). rewrite (u8_small (len (putint n))), u8_small; lia.
Qed.

Lemma len_more vs zs : len (concat (map enc zs)) <= 3 -> len (enc (VList vs)) < 2 ^ 63 -> len (enc (VList (vs ++ zs))) < 2 ^ 64.
Proof.
  intros Hz Hl. assert (len (concat (map enc vs)) < 2 ^ 63) as Hc by (cbn [enc] in Hl; rewrite length_app in Hl; lia).
  cbn [enc]. rewrite length_app. pose proof (length_puthead_le 0xC0 0xF7 (len (concat (map enc (vs ++ zs))))).
  rewrite map_app, concat_app, length_app in *. lia.
Qed.

Lemma zeros_short tx : len (concat (map enc (zeros tx))) <= 3.
Proof. by destruct tx. Qed.

Lemma content_view x : content_ok x ->
  exists vs, signedPayload x = VList vs /\ val_ok (VList vs).
Proof.
  intros [Hl Hok]. destruct x as [t|c tx|a]; cbn [signedPayload] in *.
  - set (vs := [VUint (lt_Nonce t); bigInt (lt_GasPrice t); VUint (lt_Gas t); addressPtr (lt_To t); bigInt (lt_Value t); VBytes (lt_Data t)]).
    assert (len (enc (VList (vs ++ [bigInt 0; bigInt 0; bigInt 0]))) < 2 ^ 64) as Hl' by (by apply len_more).
    exists vs. split; [done|]. apply (val_ok_prefix vs [bigInt 0; bigInt 0; bigInt 0]).
    apply (inner_valid (unsigned (Legacy t) 0)); [|done]. by apply unsigned_ok.
  - destruct Hok as [Hok Hc]. destruct (payload_list tx c) as (vs & Hp & He & Hvv). rewrite Hp in *.
    assert (len (enc (VList (vs ++ zeros tx))) < 2 ^ 64) as Hl' by (apply len_more; [apply zeros_short|done]).
    exists vs. split; [done|]. apply Hvv, inner_valid; [by apply unsigned_ok|]. by rewrite He.
  - set (vs := [bigInt (au_ChainID a); address_val (au_Address a); VUint (au_Nonce a)]).
    assert (len (enc (VList (vs ++ [VUint 0; bigInt 0; bigInt 0]))) < 2 ^ 64) as Hl' by (by apply len_more).
    exists vs. split; [done|]. apply (val_ok_prefix vs [VUint 0; bigInt 0; bigInt 0]).
    apply (co_valid _ _ _ codec_authorization (mkAuthorization (au_ChainID a) (au_Address a) (au_Nonce a) 0 0 0)); [|done].
    unfold authorization_ok in *; cbn. destruct_and!. split_and!; try done.
Qed.

Lemma signedBytes_enc x : content_ok x -> signedBytes x = signedPrefix x ++ enc (signedPayload x).
Proof.
  intros Hx. destruct (content_view x Hx) as (vs & Hp & Hv). destruct Hx as [Hlx _].
  assert (rlp_written (signedPayload x) = enc (signedPayload x)) as Hw.
  { apply rlp_written_enc; [by rewrite Hp|lia]. }
  destruct x as [t|c tx|a]; cbn [signedBytes signedPrefix signedPayload] in *.
  - exact Hw.
  - unfold sigData. rewrite Hw. cbv zeta. by destruct (_ =? _).
  - unfold authorization_sigData. by rewrite Hw.
Qed.

(** The prefix tells the kinds apart: a list starts with a larger byte. *)
Lemma signedBytes_split x y : content_ok x -> content_ok y -> signedBytes x = signedBytes y ->
  signedPrefix x = signedPrefix y /\ enc (signedPayload x) = enc (signedPayload y).
Proof.
  intros Hx Hy. rewrite !signedBytes_enc by done.
  destruct (content_view x Hx) as (vs & -> & _), (content_view y Hy) as (ws & -> & _).
  destruct (list_first vs) as (b1 & l1 & -> & Hb1), (list_first ws) as (b2 & l2 & -> & Hb2).
  assert (forall z, signedPrefix z = [] \/ exists p, signedPrefix z = [p] /\ p < 0x80) as Hpre.
  { intros [t|c tx|a]; cbn; [by left| |right; by exists 5]. destruct tx; cbn; [by left|right; eexists; (split; [reflexivity|done])..]. }
  destruct (Hpre x) as [->|(p & -> & Hp)], (Hpre y) as [->|(q & -> & Hq)]; cbn [app]; intros Heq; injection Heq as ? ?; subst; try done; lia.
Qed.

(** Equal lists with zeros behind them. *)
Lemma extend_inj {A} (f : A -> val) P d x y vs ws zs :
  codec_ok f P d -> P x -> P y -> enc (f x) = enc (VList (vs ++ zs)) -> enc (f y) = enc (VList (ws ++ zs)) ->
  len (concat (map enc zs)) <= 3 -> len (enc (VList vs)) < 2 ^ 63 -> enc (VList vs) = enc (VList ws) -> x = y.
Proof.
  intros Hd Hx Hy Hfx Hfy Hz Hl Heq. apply (codec_inj f P d); [apply Hd|done|done| |].
  - rewrite Hfx. by apply len_more.
  - rewrite Hfx, Hfy. apply enc_list_extend; [lia|done].
Qed.

Lemma field_peel {A} (f : A -> val) P d x y r r' :
  field_ok f P d -> P x -> P y -> len (enc (f x)) < 2 ^ 64 -> len (enc (f y)) < 2 ^ 64 ->
  enc (f x) ++ r = enc (f y) ++ r' -> r = r'.
Proof.
  intros Hd Hx Hy Hlx Hly Heq. assert (forall n, fits n 0 [] false) as Hf by (by split).
  pose proof (co_reads _ _ _ Hd x Hx Hlx r 0 [] false (Hf _)) as H1'.
  rewrite Heq, (co_reads _ _ _ Hd y Hy Hly r' 0 [] false (Hf _)) in H1'. by injection H1' as _ ->.
Qed.

Lemma list_contents vs ws : len (enc (VList vs)) < 2 ^ 64 -> enc (VList vs) = enc (VList ws) -> concat (map enc vs) = concat (map enc ws).
Proof.
  intros Hl Heq. pose proof (content_lt _ Hl). pose proof Hl as Hl'. rewrite Heq in Hl'. apply content_lt in Hl'.
  apply (f_equal (fun l => l ++ [])) in Heq. change (enc_list (concat (map enc vs)) ++ [] = enc_list (concat (map enc ws)) ++ []) in Heq.
  by apply enc_list_prefix in Heq as [? _].
Qed.

(** A transaction of the old kind has six fields, one for a chain nine. *)
Lemma six_or_nine t t' c : legacy_ok t -> legacy_ok t' -> len (enc (homesteadPayload (Legacy t))) < 2 ^ 63 ->
  enc (homesteadPayload (Legacy t)) <> enc (sigPayload (Legacy t') c).
Proof.
  intros Hok Hok' Hl Heq. assert (len (enc (homesteadPayload (Legacy t))) < 2 ^ 64) as Hl1 by lia. pose proof Hl1 as Hl2. rewrite Heq in Hl2.
  apply list_contents in Heq; [|done]. cbn [map concat tx_Nonce tx_GasPrice tx_Gas tx_To tx_Value tx_Data] in Heq.
  pose proof (fun v => elem_lt v _ Hl1) as He1. pose proof (fun v => elem_lt v _ Hl2) as He2.
  cbn [tx_Nonce tx_GasPrice tx_Gas tx_To tx_Value tx_Data] in He1. unfold legacy_ok in *. destruct_and!.
  apply (field_peel _ _ _ _ _ _ _ field_uint64) in Heq; [|done|done|apply He1; in_list|apply He2; in_list].
  apply (field_peel _ _ _ _ _ _ _ field_big) in Heq; [|done|done|apply He1; in_list|apply He2; in_list].
  apply (field_peel _ _ _ _ _ _ _ field_uint64) in Heq; [|done|done|apply He1; in_list|apply He2; in_list].
  apply (field_peel _ _ _ _ _ _ _ field_addressPtr) in Heq; [|done|done|apply He1; in_list|apply He2; in_list].
  apply (field_peel _ _ _ _ _ _ _ field_big) in Heq; [|done|done|apply He1; in_list|apply He2; in_list].
  apply (field_peel _ _ _ _ _ _ _ field_bytes) in Heq; [|done|done|apply He1; in_list|apply He2; in_list].
  apply (f_equal length) in Heq. rewrite !length_app in Heq. change (length (enc (VUint 0))) with 1%nat in Heq. cbn [length] in Heq. lia.
Qed.

(** Both sides of an equation of payloads as lists, with [zs] behind them. *)
Ltac by_codec codec zs HP HP' Hl Heq :=
  match type of Heq with enc (VList ?vs) = enc (VList ?ws) =>
    apply (extend_inj _ _ _ _ _ vs ws zs codec HP HP'); [reflexivity|reflexivity|done|exact Hl|exact Heq] end.

Lemma content_unique (x y : SignedContent) : content_ok x -> content_ok y -> signedBytes x = signedBytes y -> content_of x = content_of y.
Proof.
  intros Hx Hy Heq. apply signedBytes_split in Heq as [Hpre Heq]; [|done..]. destruct Hx as [Hlx Hx], Hy as [Hly Hy].
  destruct x as [t|c tx|a], y as [t'|c' tx'|a']; cbn [content_of signedPayload signedPrefix] in *.
  - f_equal. unfold homesteadPayload in *. pose proof (unsigned_ok (Legacy t) 0 Hx ltac:(done)) as Hu.
    pose proof (unsigned_ok (Legacy t') 0 Hy ltac:(done)) as Hu'. by_codec codec_legacy [bigInt 0; bigInt 0; bigInt 0] Hu Hu' Hlx Heq.
  - destruct tx' as [tx'| | | | |]; try done. by destruct (six_or_nine t tx' c' Hx (proj1 Hy) Hlx Heq).
  - done.
  - destruct tx as [tx| | | | |]; try done. by destruct (six_or_nine t' tx c Hy (proj1 Hx) Hly (eq_sym Heq)).
  - destruct Hx as [Hx Hc], Hy as [Hy Hc']. pose proof (unsigned_ok tx c Hx Hc) as Hu. pose proof (unsigned_ok tx' c' Hy Hc') as Hu'.
    assert (unsigned tx c = unsigned tx' c') as Hun; [|by rewrite Hun, (unsigned_chain _ _ _ _ Hun)].
    destruct tx, tx'; try done; cbn [unsigned]; f_equal; cbn [sigPayload] in Hlx, Heq.
    + by_codec codec_legacy (@nil val) Hu Hu' Hlx Heq.
    + by_codec codec_accessListTx [bigInt 0; bigInt 0; bigInt 0] Hu Hu' Hlx Heq.
    + by_codec codec_dynamicFee [bigInt 0; bigInt 0; bigInt 0] Hu Hu' Hlx Heq.
    + assert (forall b, tx_ok (Blob b) -> bl_Sidecar b = None -> blobStruct_ok b) as Hb by (intros b [? _]; done).
      by_codec codec_blobStruct [bigInt 0; bigInt 0; bigInt 0] (Hb _ Hu eq_refl) (Hb _ Hu' eq_refl) Hlx Heq.
    + by_codec codec_setCode [bigInt 0; bigInt 0; bigInt 0] Hu Hu' Hlx Heq.
    + by_codec codec_feeDelegate [bigInt 0; bigInt 0; bigInt 0] Hu Hu' Hlx Heq.
  - by destruct tx.
  - done.
  - by destruct tx'.
  - f_equal. unfold authorization_payload in *.
    assert (forall b, authorization_ok b -> authorization_ok (mkAuthorization (au_ChainID b) (au_Address b) (au_Nonce b) 0 0 0)) as Hz.
    { intros b Hb. unfold authorization_ok in *; cbn; destruct_and!; split_and!; done. }
    by_codec codec_authorization [VUint 0; bigInt 0; bigInt 0] (Hz a Hx) (Hz a' Hy) Hlx Heq.
Qed.

(** The sender's part of a fee-delegated transaction: [londonSigner] hashes it as
    the dynamic-fee transaction that it is. *)
Inductive SignedMessage :=
  | Whole (x : SignedContent)
  | SenderPart (c : Z) (t : FeeDelegateDynamicFeeTx).

Definition messageBytes (m : SignedMessage) : bytes :=
  match m with Whole x => signedBytes x | SenderPart c t => sigData (DynamicFee (fd_SenderTx t)) c end.
Definition asContent (m : SignedMessage) : SignedContent :=
  match m with Whole x => x | SenderPart c t => ForChain c (DynamicFee (fd_SenderTx t)) end.


(** * Who signed *)

(** The curve's library: a signature has R, S and a recovery id of 0 or 1, S in
    the lower half, and the signer's key is recovered from it. *)
Class SecpLaws `{Secp256k1} : Prop := {
  sign_format h k sig : crypto_Sign h k = Some sig ->
    length sig = 65%nat /\ Forall is_byte sig /\ 1 <= be_value (take 32 sig) < secp256k1N /\
    1 <= be_value (take 32 (drop 32 sig)) <= secp256k1halfN /\ (nth 64 sig 0 = 0 \/ nth 64 sig 0 = 1);
  sign_recovers h k sig : crypto_Sign h k = Some sig -> Ecrecover h sig = Some (publicKey k);
  public_format k : exists xy, publicKey k = 4 :: xy;
}.

Section senders.
Context `{Crypto} `{SecpLaws}.

Definition keyAddress (k : PrivateKey) : Address := pubAddress (publicKey k).

Lemma be_bytes_take n sig m : Forall is_byte sig -> length (take n (drop m sig)) = n -> be_bytes n (be_value (take n (drop m sig))) = take n (drop m sig).
Proof. intros Hb Hl. rewrite <- Hl at 1. apply be_bytes_be_value. by apply Forall_take, Forall_drop. Qed.

Lemma signature_parts sig : length sig = 65%nat -> Forall is_byte sig ->
  be_bytes 32 (be_value (take 32 sig)) ++ be_bytes 32 (be_value (take 32 (drop 32 sig))) ++ [nth 64 sig 0] = sig.
Proof.
  intros Hl Hb. pose proof (be_bytes_take 32 sig 0 Hb) as H0'. rewrite drop_0 in H0'.
  rewrite H0', (be_bytes_take 32 sig 32 Hb); [|rewrite length_take, ?length_drop; lia..].
  rewrite <- (take_drop 32 sig) at 4. f_equal. rewrite <- (take_drop 32 (drop 32 sig)) at 2. f_equal.
  rewrite drop_drop. cbn [Nat.add]. destruct (drop 64 sig) as [|x l] eqn:Hd.
  - apply (f_equal length) in Hd. rewrite length_drop in Hd. cbn in Hd. lia.
  - pose proof Hd as Hd'. apply (f_equal length) in Hd. rewrite length_drop, Hl in Hd. destruct l; [|cbn in Hd; lia].
    rewrite <- (take_drop 64 sig), Hd', app_nth2; rewrite length_take, Hl; [done|lia].
Qed.

Lemma recover_signature h k sig :
  crypto_Sign (hashBytes h) k = Some sig -> recoverSender h sig = inr (keyAddress k).
Proof.
  intros Hs. unfold recoverSender. rewrite (sign_recovers _ _ _ Hs). unfold keyAddress. destruct (public_format k) as [xy ->]. done.
Qed.

Lemma signature_valid v r s homestead :
  1 <= r < secp256k1N -> 1 <= s <= secp256k1halfN -> v = 0 \/ v = 1 -> ValidateSignatureValues v r s homestead = true.
Proof.
  intros Hr Hs Hv. assert (secp256k1halfN < secp256k1N) by done. unfold ValidateSignatureValues.
  destruct (Z.ltb_spec r 1), (Z.ltb_spec s 1), (Z.ltb_spec secp256k1halfN s); try lia. rewrite andb_false_r. cbn [orb].
  rewrite (proj2 (Z.ltb_lt _ _)), (proj2 (Z.ltb_lt _ _)) by lia. by destruct Hv as [-> | ->].
Qed.

Lemma recoverPlain_signature h k sig Vb homestead :
  crypto_Sign (hashBytes h) k = Some sig -> Vb = nth 64 sig 0 + 27 ->
  recoverPlain h (be_value (take 32 sig)) (be_value (take 32 (drop 32 sig))) Vb homestead = inr (keyAddress k).
Proof.
  intros Hs ->. destruct (sign_format _ _ _ Hs) as (Hl & Hb & Hr & Hss & Hv).
  assert (secp256k1halfN < secp256k1N) by done. unfold recoverPlain.
  assert (BitLen (Z.abs (nth 64 sig 0 + 27)) = 5) as -> by (destruct Hv as [-> | ->]; done). cbn [Z.ltb Z.compare Pos.compare Pos.compare_cont].
  assert (u8 (u64 (Z.abs (nth 64 sig 0 + 27)) - 27) = nth 64 sig 0) as -> by (destruct Hv as [-> | ->]; done).
  rewrite signature_valid by done. cbn [negb]. rewrite signature_parts by done. by apply recover_signature.
Qed.

Lemma BitLen_lt x n : 0 < x -> 0 <= n -> (BitLen x <=? n) = (x <? 2 ^ n).
Proof.
  intros Hx Hn. unfold BitLen. destruct (Z.eqb_spec x 0); [lia|]. destruct (Z.ltb_spec x (2 ^ n)) as [Hl|Hl].
  - apply Z.leb_le. apply Z.log2_lt_pow2 in Hl; lia.
  - apply Z.leb_gt. apply Z.log2_le_pow2 in Hl; lia.
Qed.

Lemma protected_chain c v : 0 < c -> v = 0 \/ v = 1 -> deriveChainId (v + 35 + c * 2) = c /\ isProtectedV (v + 35 + c * 2) = true.
Proof.
  intros Hc Hv. assert ((v + 35 + c * 2 - 35) / 2 = c) as Hd.
  { replace (v + 35 + c * 2 - 35) with (v + c * 2) by lia. rewrite Z.div_add by lia. rewrite Z.div_small by lia. lia. }
  split.
  - unfold deriveChainId. rewrite BitLen_lt by lia. destruct (Z.ltb_spec (v + 35 + c * 2) (2 ^ 64)); [|done].
    rewrite (u64_small (v + 35 + c * 2)) by lia. destruct (Z.eqb_spec (v + 35 + c * 2) 27), (Z.eqb_spec (v + 35 + c * 2) 28); [lia..|].
    cbn [orb]. by rewrite u64_small by lia.
  - unfold isProtectedV. rewrite BitLen_lt by lia. destruct (Z.ltb_spec (v + 35 + c * 2) (2 ^ 8)); [|done].
    rewrite (u64_small (v + 35 + c * 2)) by lia. repeat match goal with |- context [?a =? ?b] => destruct (Z.eqb_spec a b); [lia|] end. done.
Qed.

(** What a chain ID must be, and what a fee-delegated transaction must name. *)
Definition signable (s : Signer) (tx : TxData) : Prop :=
  match signer_ChainID s with Some c => 0 < c < 2 ^ 256 | None => True end /\
  match tx with FeeDelegate t => df_ChainID (fd_SenderTx t) <> 0 | _ => True end.

Lemma decodeSignature_sign h k sig : crypto_Sign h k = Some sig ->
  decodeSignature sig = Some (be_value (take 32 sig), be_value (take 32 (drop 32 sig)), nth 64 sig 0 + 27).
Proof.
  intros Hs. destruct (sign_format _ _ _ Hs) as (Hl & _ & _ & _ & Hv). unfold decodeSignature. rewrite Hl. cbn [Z.of_nat Z.eqb].
  destruct Hv as [-> | ->]; done.
Qed.

Lemma u256_small x : 0 <= x < 2 ^ 256 -> u256 x = x.
Proof. apply Z.mod_small. Qed.

Lemma u256_sig x : 1 <= x < secp256k1N -> u256 x = x.
Proof. intros Hx. apply u256_small. assert (secp256k1N < 2 ^ 256) by done. lia. Qed.

Lemma legacy_chain_sender c t k sig :
  0 < c -> crypto_Sign (hashBytes (EIP155Signer_Hash c (Legacy t))) k = Some sig ->
  EIP155Signer_Sender c (Legacy (mkLegacyTx (lt_Nonce t) (lt_GasPrice t) (lt_Gas t) (lt_To t) (lt_Value t) (lt_Data t)
    (u8 (nth 64 sig 0 + 35) + c * 2) (be_value (take 32 sig)) (be_value (take 32 (drop 32 sig))))) = inr (keyAddress k).
Proof.
  intros Hc Hs. destruct (sign_format _ _ _ Hs) as (_ & _ & _ & _ & Hv). unfold EIP155Signer_Sender. cbn [tx_Type negb Z.eqb LegacyTxType].
  assert (u8 (nth 64 sig 0 + 35) = nth 64 sig 0 + 35) as -> by (destruct Hv as [-> | ->]; done).
  destruct (protected_chain c (nth 64 sig 0) Hc Hv) as [Hd Hp]. unfold Protected, tx_ChainId. cbn [lt_V]. rewrite Hp, Hd, Z.eqb_refl. cbn [negb].
  cbn [RawSignatureValues lt_V lt_R lt_S]. apply recoverPlain_signature; [exact Hs|lia].
Qed.

(** What a recovered sender stands for: a public key recovered from R, S and the
    recovery id over the hash. *)
Definition recovered (h : Hash) (R S : Z) (homestead : bool) (a : Address) : Prop :=
  1 <= R < secp256k1N /\ 1 <= S < secp256k1N /\ (homestead = true -> S <= secp256k1halfN) /\
  exists v pub, (v = 0 \/ v = 1) /\ Ecrecover (hashBytes h) (be_bytes 32 R ++ be_bytes 32 S ++ [v]) = Some pub /\ a = pubAddress pub.

Lemma recoverSender_inv h sig a : recoverSender h sig = inr a -> exists pub, Ecrecover (hashBytes h) sig = Some pub /\ a = pubAddress pub.
Proof.
  unfold recoverSender. destruct (Ecrecover _ _) as [pub|] eqn:He; [|done].
  destruct (_ || _); [done|]. intros [= <-]. by exists pub.
Qed.

Lemma signature_valid_inv v r s homestead : ValidateSignatureValues v r s homestead = true ->
  1 <= r < secp256k1N /\ 1 <= s < secp256k1N /\ (homestead = true -> s <= secp256k1halfN) /\ (v = 0 \/ v = 1).
Proof.
  unfold ValidateSignatureValues. destruct (Z.ltb_spec r 1) as [|Hr], (Z.ltb_spec s 1) as [|Hs]; try discriminate 1. cbn [orb].
  destruct (homestead && _) eqn:Hlow; [discriminate 1|]. intros [[HrN HsN]%andb_prop Hv]%andb_prop. apply Z.ltb_lt in HrN, HsN.
  split_and!; try assumption.
  - intros ->. cbn [andb] in Hlow. by apply Z.ltb_ge in Hlow.
  - by apply orb_prop in Hv as [->%Z.eqb_eq | ->%Z.eqb_eq]; [left|right].
Qed.

Lemma recoverPlain_inv h R S Vb homestead a : recoverPlain h R S Vb homestead = inr a ->
  (Z.abs Vb = 27 \/ Z.abs Vb = 28) /\ recovered h R S homestead a.
Proof.
  unfold recoverPlain. destruct (Z.ltb_spec 8 (BitLen (Z.abs Vb))) as [|Hb]; [done|].
  destruct (ValidateSignatureValues _ _ _ _) eqn:Hv; [|done]. cbn [negb].
  intros Hr. apply recoverSender_inv in Hr as (pub & He & ->). apply signature_valid_inv in Hv as (HR & HS & Hlow & Hv).
  assert (0 <= Z.abs Vb < 256) as Ha.
  { split; [lia|]. destruct (Z.eq_dec (Z.abs Vb) 0) as [->|]; [lia|].
    assert ((BitLen (Z.abs Vb) <=? 8) = true) as Hl by (by apply Z.leb_le). rewrite BitLen_lt in Hl by lia. by apply Z.ltb_lt in Hl. }
  split; [|repeat split; try lia; [done|]; eexists _, pub; by split].
  rewrite u64_small in Hv by lia. unfold u8 in Hv. change (2 ^ 8) with 256 in Hv. clear - Ha Hv.
  Z.to_euclidean_division_equations; lia.
Qed.

(** The layers of signers differ only in the kinds they know. *)
Ltac layers := cbn [signer_Hash signer_Sender signer_ChainID WithSignature signer_SignatureValues FrontierSigner_SignatureValues
  EIP155Signer_SignatureValues eip2930Signer_SignatureValues londonSigner_SignatureValues anzeonSigner_SignatureValues
  cancunSigner_SignatureValues feeDelegateSigner_SignatureValues cancunSigner_Hash anzeonSigner_Hash londonSigner_Hash eip2930Signer_Hash
  feeDelegateSigner_Hash FrontierSigner_Sender HomesteadSigner_Sender eip2930Signer_Sender londonSigner_Sender anzeonSigner_Sender
  cancunSigner_Sender feeDelegateSigner_Sender setSignatureValues tx_Type negb andb Z.eqb Pos.eqb LegacyTxType AccessListTxType
  DynamicFeeTxType BlobTxType SetCodeTxType FeeDelegateDynamicFeeTxType default RawSignatureValues RawFeePayerSignatureValues].

(** C15. Signing and recovering are inverse: what [SignTx] makes with a key, any
    signer and any kind the signer knows, the same signer attributes to the address
    of the key, whether V holds a chain ID or a recovery id and whether the numbers
    are big integers or 256-bit words.  The chain ID of a signer that has one is
    between 1 and 2^256 - 1, and a fee-delegated transaction names a chain other than
    zero ([signable]): with the chain ID zero [EIP155Signer] signs one hash and
    recovers from another, and a fee payer cannot sign at all ([zero_chain_fee_payer]). *)
Theorem signed_sender (s : Signer) (tx : TxData) (k : PrivateKey) (tx' : TxData) (Hok : signable s tx) (Hsign : SignTx tx s k = Signed tx') :
  signer_Sender s tx' = inr (keyAddress k).
Proof.
  destruct Hok as [Hc Hfd]. revert Hsign. unfold SignTx. destruct (crypto_Sign _ k) as [sig|] eqn:Hs; [|done].
  destruct (sign_format _ _ _ Hs) as (_ & _ & Hr & Hss & Hv). pose proof (decodeSignature_sign _ _ _ Hs) as Hd.
  assert (secp256k1halfN < secp256k1N) by done. unfold WithSignature.
  assert (forall tx, id tx = tx :> Z) as Hid by done.
  destruct s, tx; cbn [signer_ChainID] in Hc; layers; unfold FrontierSigner_SignatureValues, typedValues; cbn [tx_Type]; rewrite ?Hd; layers;
    try discriminate 1; rewrite ?Hid.
  (* the old rules *)
  1,2: intros [= <-]; by apply recoverPlain_signature.
  (* legacy transactions for a chain *)
  all: try (destruct (Z.eqb_spec chainId 0); [lia|]; intros [= <-]; exact (legacy_chain_sender chainId tx k sig (proj1 Hc) Hs)).
  (* typed transactions *)
  all: match goal with |- context [negb (?x =? 0) && negb (?x =? ?y)] => destruct (negb (x =? 0) && negb (x =? y)) eqn:Hcid end;
    [done|]; cbv iota beta.
  all: try (destruct (Z.leb_spec (2 ^ 256) chainId); [lia|]).
  all: intros [= <-]; unfold eip2930Signer_Sender, londonSigner_Sender, anzeonSigner_Sender, cancunSigner_Sender, feeDelegateSigner_Sender;
    layers; unfold tx_ChainId; cbn [al_ChainID df_ChainID bl_ChainID sct_ChainID fd_SenderTx al_V al_R al_S df_V df_R df_S bl_V bl_R bl_S
      sct_V sct_R sct_S fd_FV fd_FR fd_FS].
  all: rewrite ?Hid. all: rewrite ?(u256_sig (be_value (take 32 sig))), ?(u256_sig (be_value (take 32 (drop 32 sig)))) by lia.
  all: rewrite ?(u256_small (nth 64 sig 0)), ?(u256_small chainId) by lia. all: rewrite ?Z.eqb_refl; cbn [negb].
  all: try (apply recoverPlain_signature; [exact Hs|done]).
  destruct (Z.eqb_spec (df_ChainID (fd_SenderTx tx)) 0); [by destruct Hfd|]. destruct (Z.eqb_spec (df_ChainID (fd_SenderTx tx)) chainId); [|discriminate].
  apply recoverPlain_signature; [exact Hs|done].
Qed.

(** A fee payer cannot sign for a transaction that names no chain.
    [feeDelegateSigner.SignatureValues] accepts the chain ID zero, since the
    signer's is to be set; [FeeDelegateDynamicFeeTx.setSignatureValues] does not set
    it.  The transaction that [SignTx] returns is one that every fee-delegation
    signer for a chain other than zero rejects. *)
Theorem zero_chain_fee_payer (c c' : Z) (t : FeeDelegateDynamicFeeTx) (k : PrivateKey) (tx' : TxData)
  (Hz : df_ChainID (fd_SenderTx t) = 0) (Hc : c' <> 0) (Hs : SignTx (FeeDelegate t) (feeDelegateSigner c) k = Signed tx') :
  signer_Sender (feeDelegateSigner c') tx' = inl ErrInvalidChainId.
Proof.
  revert Hs. unfold SignTx. destruct (crypto_Sign _ k) as [sig|] eqn:Hs; [|done]. unfold WithSignature. layers. unfold typedValues.
  rewrite (decodeSignature_sign _ _ _ Hs), Hz. cbn [negb andb Z.eqb]. intros [= <-]. layers.
  unfold tx_ChainId. cbn [fd_SenderTx]. rewrite Hz. by destruct (Z.eqb_spec 0 c'); [congruence|].
Qed.

(** Authorizations. *)
Lemma signed_authority k auth auth' :
  SignSetCode k auth = Signed auth' -> Authority auth' = inr (keyAddress k) /\ authorization_sigData auth' = authorization_sigData auth.
Proof.
  unfold SignSetCode. destruct (crypto_Sign _ k) as [sig|] eqn:Hs; [|done]. rewrite (decodeSignature_sign _ _ _ Hs). intros [= <-].
  destruct (sign_format _ _ _ Hs) as (Hl & Hb & Hr & Hss & Hv). assert (secp256k1halfN < secp256k1N) by done.
  split; [|done]. unfold Authority. cbn [au_V au_R au_S]. rewrite signature_valid by done. cbn [negb].
  rewrite signature_parts by done. by apply recover_signature.
Qed.

(** What a sender is recovered over: transactions without a chain by the old rules. *)
Definition senderHash (s : Signer) (tx : TxData) : Hash := if Protected tx then signer_Hash s tx else FrontierSigner_Hash tx.

(** R and S of the signature that a signer looks at. *)
Definition signerRS (s : Signer) (tx : TxData) : Z * Z :=
  match s, tx with
  | feeDelegateSigner _, FeeDelegate t => (fd_FR t, fd_FS t)
  | _, _ => let '(_, r, s) := RawSignatureValues tx in (r, s)
  end.

Lemma plain_unprotected t h R S hs a : 0 <= lt_V t -> recoverPlain h R S (lt_V t) hs = inr a -> isProtectedV (lt_V t) = false.
Proof.
  intros HV Hr. apply recoverPlain_inv in Hr as [Habs _]. rewrite Z.abs_eq in Habs by done.
  unfold isProtectedV. by destruct Habs as [-> | ->].
Qed.

Lemma typed_inv c c' h R S V a :
  (if negb (c =? c') then inl ErrInvalidChainId else recoverPlain h R S V true) = inr a -> c = c' /\ recovered h R S true a.
Proof. destruct (Z.eqb_spec c c'); [|done]. cbn [negb]. intros Hr. by apply recoverPlain_inv in Hr as [_ ?]. Qed.

(** C14. A transaction is executed for nobody but who signed it, and on no other
    chain: where a signer gives a sender, that sender's key was recovered from R and
    S, both in range and S in the lower half from Homestead on, over the hash of this
    content; and a transaction that names a chain is accepted by signers for that
    chain only. *)
Theorem sender_authentic (s : Signer) (tx : TxData) (a : Address)
  (HV : match tx with Legacy t => 0 <= lt_V t | _ => True end) (Hs : signer_Sender s tx = inr a) :
  recovered (senderHash s tx) (fst (signerRS s tx)) (snd (signerRS s tx)) (negb (bool_decide (s = FrontierSigner))) a /\
  (Protected tx = true -> signer_ChainID s = Some (tx_ChainId tx)).
Proof.
  destruct tx as [t|t|t|t|t|t].
  2-6: destruct s; try discriminate Hs; apply typed_inv in Hs as [Hc Hr]; (split; [exact Hr|intros _; by rewrite <- Hc]).
  assert (forall c, EIP155Signer_Sender c (Legacy t) = inr a ->
      recovered (if isProtectedV (lt_V t) then EIP155Signer_Hash c (Legacy t) else FrontierSigner_Hash (Legacy t)) (lt_R t) (lt_S t) true a /\
      (isProtectedV (lt_V t) = true -> Some c = Some (tx_ChainId (Legacy t)))) as Hl.
  { intros c. unfold EIP155Signer_Sender, HomesteadSigner_Sender. cbn [tx_Type Z.eqb LegacyTxType negb RawSignatureValues Protected].
    destruct (isProtectedV (lt_V t)); cbn [negb].
    - destruct (Z.eqb_spec (tx_ChainId (Legacy t)) c) as [->|]; [|done]. cbn [negb]. intros Hr. by apply recoverPlain_inv in Hr as [_ ?].
    - intros Hr. by apply recoverPlain_inv in Hr as [_ ?]. }
  destruct s; try exact (Hl _ Hs); cbn in Hs; pose proof (plain_unprotected t _ _ _ _ _ HV Hs) as Hp;
    apply recoverPlain_inv in Hs as [_ Hs]; unfold senderHash; cbn [Protected]; rewrite Hp; (split; [exact Hs|done]).
Qed.

(** * The caches *)

(** What the caches of a transaction hold is what would be computed. *)
Definition caches_ok (tx : Transaction) : Prop :=
  (forall s a, t_from tx = Some (s, a) -> signer_Sender s (t_inner tx) = inr a) /\
  (forall s a, t_feePayer tx = Some (s, a) -> signer_Sender s (t_inner tx) = inr a).

Lemma Sender_cached s tx : caches_ok tx ->
  fst (Sender s tx) = signer_Sender s (t_inner tx) /\ t_inner (snd (Sender s tx)) = t_inner tx /\ caches_ok (snd (Sender s tx)).
Proof.
  intros Hok. pose proof Hok as [Hf Hp]. unfold Sender. destruct (t_from tx) as [[s' a]|] eqn:Hc;
    [case_bool_decide; subst; [by rewrite (Hf _ _ eq_refl)|]|]; (destruct (signer_Sender s (t_inner tx)) eqn:Hr; [done|]); (split; [done|]; split; [done|]; by split; [intros ?? [= <- <-]|]).
Qed.

Lemma FeePayer_cached s tx : caches_ok tx ->
  fst (FeePayer s tx) = signer_Sender s (t_inner tx) /\ t_inner (snd (FeePayer s tx)) = t_inner tx /\ caches_ok (snd (FeePayer s tx)).
Proof.
  intros Hok. pose proof Hok as [Hf Hp]. unfold FeePayer. destruct (t_feePayer tx) as [[s' a]|] eqn:Hc;
    [case_bool_decide; subst; [by rewrite (Hp _ _ eq_refl)|]|]; (destruct (signer_Sender s (t_inner tx)) eqn:Hr; [done|]); (split; [done|]; split; [done|]; by split; [|intros ?? [= <- <-]]).
Qed.

(** A transaction without its blobs has the same senders. *)
Definition stripped (tx : TxData) : TxData := match tx with Blob t => Blob (withoutSidecar t) | _ => tx end.

Lemma stripped_sender s tx : signer_Sender s (stripped tx) = signer_Sender s tx.
Proof. by destruct tx, s. Qed.

Lemma Without_state tx : caches_ok tx -> (t_inner (WithoutBlobTxSidecar tx) = t_inner tx \/
  t_inner (WithoutBlobTxSidecar tx) = stripped (t_inner tx)) /\ caches_ok (WithoutBlobTxSidecar tx).
Proof.
  intros Hok. unfold WithoutBlobTxSidecar. destruct (t_inner tx) as [t|t|t|t|t|t] eqn:Hi; try (split; [by left|done]).
  destruct (bl_Sidecar t); [|split; [by left|done]]. split; [by right|]. destruct Hok as [Hf _]. split; [|done].
  intros s a Ha. rewrite Hi in Hf. cbn [t_inner]. rewrite <- (Hf s a Ha). apply (stripped_sender s (Blob t)).
Qed.

(** The calls that fill or copy the caches, and a transaction after any of them. *)
Inductive TxCall := CallSender (s : Signer) | CallFeePayer (s : Signer) | CallRecover (chainID : Z) | CallWithoutSidecar.

Definition txCall (tx : Transaction) (c : TxCall) : Transaction :=
  match c with
  | CallSender s => snd (Sender s tx)
  | CallFeePayer s => snd (FeePayer s tx)
  | CallRecover c => snd (RecoverFeePayer c tx)
  | CallWithoutSidecar => WithoutBlobTxSidecar tx
  end.

Definition used (inner : TxData) (calls : list TxCall) : Transaction := fold_left txCall calls (NewTx inner).

Lemma Recover_state c tx : caches_ok tx -> t_inner (snd (RecoverFeePayer c tx)) = t_inner tx /\ caches_ok (snd (RecoverFeePayer c tx)).
Proof.
  intros Hok. unfold RecoverFeePayer. destruct (tx_FeePayer _); [|done]. destruct (FeePayer_cached (feeDelegateSigner c) tx Hok) as (_ & Hi & Hok').
  destruct (FeePayer _ tx) as [[e|p] tx']; [done|]. by destruct (_ =? _).
Qed.

Lemma used_ok inner calls :
  (t_inner (used inner calls) = inner \/ t_inner (used inner calls) = stripped inner) /\ caches_ok (used inner calls).
Proof.
  unfold used. assert ((t_inner (NewTx inner) = inner \/ t_inner (NewTx inner) = stripped inner) /\ caches_ok (NewTx inner)) as Hn by (split; [by left|done]).
  revert Hn. generalize (NewTx inner) as tx. induction calls as [|c calls IH]; intros tx [Hi Hok]; [done|]. apply IH.
  assert (stripped (stripped inner) = stripped inner) as Hss by (by destruct inner).
  destruct c; cbn [txCall]; [destruct (Sender_cached s tx Hok) as (_ & Hi' & ?)|destruct (FeePayer_cached s tx Hok) as (_ & Hi' & ?)
    |destruct (Recover_state chainID tx Hok) as (Hi' & ?)|destruct (Without_state tx Hok) as ([Hi'|Hi'] & ?)];
    (split; [rewrite Hi'|done]); destruct Hi as [-> | ->]; rewrite ?Hss; auto.
Qed.

(** C13. Nobody pays the fees of a transaction without having signed for it: however
    the transaction was used before and whatever its caches hold, where
    [RecoverFeePayer] gives a payer, the transaction is fee-delegated, names this
    payer, is for this chain, and the payer's key was recovered from the payer's
    signature over the sender's transaction with its signature and the payer. *)
Theorem fee_payer_authentic (inner : TxData) (calls : list TxCall) (c : Z) (p : Address) (tx' : Transaction)
  (Hr : RecoverFeePayer c (used inner calls) = (inr p, tx')) :
  exists t, inner = FeeDelegate t /\ fd_FeePayer t = Some p /\ df_ChainID (fd_SenderTx t) = c /\
    recovered (dataHash (sigData (FeeDelegate t) c)) (fd_FR t) (fd_FS t) true p.
Proof.
  destruct (used_ok inner calls) as [Hstr Hok]. unfold RecoverFeePayer in Hr.
  assert (t_inner (used inner calls) = inner) as Hi.
  { destruct Hstr as [Hi|Hi]; [done|]. rewrite Hi in Hr |- *. by destruct inner. }
  rewrite Hi in Hr.
  destruct (tx_FeePayer inner) as [q|] eqn:Hq; [|done].
  destruct (FeePayer_cached (feeDelegateSigner c) (used inner calls) Hok) as (Hs & _). rewrite Hi in Hs.
  destruct (FeePayer _ _) as [[e|p'] tx'']; [done|]. destruct (Z.eqb_spec p' q) as [->|]; [|done]. injection Hr as <- _.
  destruct inner as [t|t|t|t|t|t]; try discriminate Hq. exists t. apply eq_sym, typed_inv in Hs as [Hc Hr]. by split_and!.
Qed.
End senders.
