(* ===== verification/MessageCodec.v ===== *)
(** The wire format of the consensus messages (src/consensus/wbft/messages):
    what is signed, what is sent and what [Decode] accepts. *)
From S2P Require Import Prelude Validators Messages CoreState CoreHandlers Network Rlp RlpStream RlpSpec RlpLists Extra ExtraProps RlpCodec Header Blocks.

(** The RLP form of a block, which messages carry. *)
Class BlockCodec (B : Type) : Type := {
  block_val : B -> val;
  decodeBlock : Dec B;
}.

#[global] Instance blockCodec : BlockCodec Block := {|
  block_val := block_EncodeRLP;
  decodeBlock := block_DecodeRLP;
|}.

(** * What is signed *)

Definition common_vals (c : CommonPayload) : list val :=
  [VBigIntPtr (Some (cp_Sequence c)); VBigIntPtr (Some (cp_Round c))].

Definition prepare_payload (p : Prepare) : val :=
  VList (common_vals (pr_common p) ++ [VByteArray (hashBytes (pr_Digest p)); VBytes (pr_PrepareSeal p)]).
Definition Prepare_EncodePayloadForSigning (p : Prepare) : option bytes :=
  marshal (VList [VUint (cp_code (pr_common p)); prepare_payload p]).

Definition commit_payload (m : Commit) : val :=
  VList (common_vals (cm_common m) ++ [VByteArray (hashBytes (cm_Digest m)); VBytes (cm_CommitSeal m)]).
Definition Commit_EncodePayloadForSigning (m : Commit) : option bytes :=
  marshal (VList [VUint (cp_code (cm_common m)); commit_payload m]).

(** The lock is only part of the payload when it has a round and a digest. *)
Definition encodePayloadInternal (p : SignedRoundChangePayload) : option bytes :=
  let prepared :=
    match sr_PreparedRound p with
    | Some r => if sr_PreparedDigest p =? zeroHash then [] else [VBigIntPtr (Some r); VByteArray (hashBytes (sr_PreparedDigest p))]
    | None => []
    end in
  marshal (VList (common_vals (sr_common p) ++ [VList prepared])).
Definition RoundChange_EncodePayloadForSigning (p : SignedRoundChangePayload) : option bytes :=
  encodedPayload ← encodePayloadInternal p;
  marshal (VList [VUint (cp_code (sr_common p)); VRaw encodedPayload]).

(** * What is sent *)

Definition prepare_val (p : Prepare) : val := VList [prepare_payload p; VBytes (cp_signature (pr_common p))].
Definition commit_val (m : Commit) : val := VList [commit_payload m; VBytes (cp_signature (cm_common m))].

(** [SignedRoundChangePayload.EncodeRLP]. *)
Definition src_val (p : SignedRoundChangePayload) : option val :=
  encodedPayload ← encodePayloadInternal p;
  Some (VList [VRaw encodedPayload; VBytes (cp_signature (sr_common p))]).

(** * What is accepted *)

(** The payload of [Prepare.DecodeRLP] and [Commit.DecodeRLP]. *)
Definition decodeVote : Dec (Z * Z * Hash * bytes * bytes) :=
  decodeStruct
    (payload ← field (decodeStruct
       (sequence ← field BigInt;
        round ← field BigInt;
        digest ← field (ByteArray 32);
        seal ← field Bytes;
        mret (sequence, round, be_value digest, seal)));
     signature ← field Bytes;
     mret (payload, signature)).

Definition decodePrepare : Dec Prepare :=
  '(sequence, round, digest, seal, signature) ← decodeVote;
  mret (mkPrepare (mkCommon PrepareCode zeroAddress sequence round signature) digest seal).

Definition decodeCommit : Dec Commit :=
  '(sequence, round, digest, seal, signature) ← decodeVote;
  mret (mkCommit (mkCommon CommitCode zeroAddress sequence round signature) digest seal).

(** [List], the body, [ListEnd]. *)
Definition withinList {A} (body : Dec A) : Dec A := _ ← openList; a ← body; _ ← ListEnd; mret a.

(** A stream over a [bytes.Reader] takes its limit from the reader. *)
Definition onReader {A} (d : Dec A) (b : bytes) : Dec A := fun s =>
  ((d (MkStream b (Z.of_nat (length b)) None [] true)).1, s).

(** The payload of a ROUND-CHANGE. *)
Definition decodeRCPayload : Dec (Z * Z * option Z * Hash) :=
  withinList
    (sequence ← BigInt;
     round ← BigInt;
     prepared ←
       (size ← openList;
        prepared ← (if 0 <? size then
                      preparedRound ← BigInt;
                      preparedDigest ← ByteArray 32;
                      mret (Some preparedRound, be_value preparedDigest)
                    else mret (None, zeroHash));
        _ ← ListEnd;
        mret prepared);
     mret (sequence, round, prepared.1, prepared.2)).

(** [SignedRoundChangePayload.DecodeRLP]. *)
Definition decodeSRC : Dec SignedRoundChangePayload :=
  withinList
    (encodedPayload ← Raw;
     '(sequence, round, preparedRound, preparedDigest) ← onReader decodeRCPayload encodedPayload;
     signature ← Bytes;
     mret (mkSRC (mkCommon RoundChangeCode zeroAddress sequence round signature) preparedRound preparedDigest)).

Fixpoint decodeRaws (raws : list bytes) : Dec (list SignedRoundChangePayload) :=
  match raws with
  | [] => mret []
  | rawItem :: raws =>
      match DecodeBytes decodeSRC rawItem with
      | inl OutOfFuel => raise OutOfFuel
      | inl _ => raise DecoderError
      | inr rc => rcs ← decodeRaws raws; mret (rc :: rcs)
      end
  end.

(** The errors of [Decode]. *)
Inductive DecodeError :=
  | ErrFailedDecodePreprepare | ErrFailedDecodePrepare | ErrFailedDecodeCommit | ErrFailedDecodeRoundChange | ErrInvalidMessage.

Section codec.
Context {B : Type} `{Proposal B} `{BlockCodec B}.

Definition Preprepare_EncodePayloadForSigning (m : Preprepare B) : option bytes :=
  marshal (VList [VUint (cp_code (pp_common m)); VList (common_vals (pp_common m) ++ [block_val (pp_Proposal m)])]).

Definition preprepare_val (m : Preprepare B) : option val :=
  rcs ← mapM src_val (pp_JustificationRoundChanges m);
  Some (VList [ VList [ VList (common_vals (pp_common m) ++ [block_val (pp_Proposal m)]);
                        VBytes (cp_signature (pp_common m)) ];
                VList [ VList rcs; VList (map prepare_val (pp_JustificationPrepares m)) ] ]).

Definition roundchange_val (m : RoundChange B) : option val :=
  encodedPayload ← encodePayloadInternal (rc_payload m);
  Some (VList [ VList [ VRaw encodedPayload; VBytes (cp_signature (sr_common (rc_payload m))) ];
                ptr_val block_val (rc_PreparedBlock m);
                VList (map prepare_val (rc_Justification m)) ]).

Definition message_val (m : WBFTMessage B) : option val :=
  match m with
  | MPreprepare m => preprepare_val m
  | MPrepare m => Some (prepare_val m)
  | MCommit m => Some (commit_val m)
  | MRoundChange m => roundchange_val m
  end.

Definition encodeMessage (m : WBFTMessage B) : option bytes := v ← message_val m; marshal v.

Definition decodePreprepare : Dec (Preprepare B) :=
  '(sequence, round, proposal, signature, raws, prepares) ←
    decodeStruct
      (signed ← field (decodeStruct
         (payload ← field (decodeStruct
            (sequence ← field BigInt;
             round ← field BigInt;
             proposal ← field decodeBlock;
             mret (sequence, round, proposal)));
          signature ← field Bytes;
          mret (payload, signature)));
       justification ← field (decodeStruct
         (roundChanges ← field (decodeListSlice Raw);
          prepares ← field (decodeListSlice decodePrepare);
          mret (roundChanges, prepares)));
       mret (signed, justification.1, justification.2));
  rcs ← decodeRaws raws;
  mret (mkPreprepare (mkCommon PreprepareCode zeroAddress sequence round signature) proposal rcs prepares).

(** [RoundChange.DecodeRLP]: an empty value stands for a missing block and for a
    missing justification; a block must have the signed digest. *)
Definition decodeRoundChange : Dec (RoundChange B) :=
  withinList
    (p ← decodeSRC;
     block ←
       (a ← kind;
        if a_size a =? 0 then _ ← Raw; mret None
        else b ← decodeBlock; if BHash b =? sr_PreparedDigest p then mret (Some b) else raise DecoderError);
     justification ←
       (a ← kind; if a_size a =? 0 then _ ← Raw; mret [] else decodeListSlice decodePrepare);
     mret (mkRoundChange p block justification)).

(** [Decode].  A malformed PREPARE is reported with the error of COMMIT. *)
Definition DecodeMessage (code : Z) (data : bytes) : DecodeError + WBFTMessage B :=
  if code =? PreprepareCode then
    match DecodeBytes decodePreprepare data with inl _ => inl ErrFailedDecodePreprepare | inr m => inr (MPreprepare m) end
  else if code =? PrepareCode then
    match DecodeBytes decodePrepare data with inl _ => inl ErrFailedDecodeCommit | inr m => inr (MPrepare m) end
  else if code =? CommitCode then
    match DecodeBytes decodeCommit data with inl _ => inl ErrFailedDecodeCommit | inr m => inr (MCommit m) end
  else if code =? RoundChangeCode then
    match DecodeBytes decodeRoundChange data with inl _ => inl ErrFailedDecodeRoundChange | inr m => inr (MRoundChange m) end
  else inl ErrInvalidMessage.
End codec.

(** * Codes of decoded messages *)

(** Whatever [d] returns satisfies [P]. *)
Definition yields {A} (d : Dec A) (P : A -> Prop) : Prop := forall s a s', d s = (inr a, s') -> P a.

Lemma yields_ret {A} (a : A) (P : A -> Prop) : P a -> yields (mret a) P.
Proof. intros HP s x s' [=]. by subst. Qed.

Lemma yields_raise {A} e (P : A -> Prop) : yields (raise e) P.
Proof. intros s x s' [=]. Qed.

Lemma yields_bind {A A'} (d : Dec A) (f : A -> Dec A') Q P :
  yields d Q -> (forall a, Q a -> yields (f a) P) -> yields (d ≫= f) P.
Proof.
  intros Hd Hf s x s'. unfold mbind, Dec_bind. destruct (d s) as [[e|a] s1] eqn:Hrun; [done|].
  intros Hx. eapply Hf; [by eapply Hd|done].
Qed.

Lemma yields_any {A} (d : Dec A) : yields d (fun _ => True).
Proof. done. Qed.

Lemma yields_field {A} (d : Dec A) P : yields d P -> yields (field d) P.
Proof. intros Hd s a s'. unfold field. destruct (d s) as [[[]|x] s1] eqn:Hx; try done. intros [=]; subst. by eapply Hd. Qed.

Lemma yields_struct {A} (body : Dec A) P : yields body P -> yields (decodeStruct body) P.
Proof.
  intros Hb. eapply yields_bind; [apply yields_any|]. intros _ _. eapply yields_bind; [exact Hb|]. intros a Ha.
  eapply yields_bind; [apply yields_any|]. intros _ _. by apply yields_ret.
Qed.

Lemma yields_slice {A} (d : Dec A) P : yields d P -> yields (decodeListSlice d) (Forall P).
Proof.
  intros Hd. assert (forall fuel, yields (decodeSliceElems d fuel) (Forall P)) as Hel.
  { induction fuel as [|fuel IH]; intros s l s'; cbn; [done|]. destruct (d s) as [[e|a] s1] eqn:Hrun; [destruct e; intros [=]; by subst|].
    apply (yields_bind _ _ (Forall P) (Forall P)); [exact IH|]. intros x Hx. apply yields_ret. constructor; [by eapply Hd|done]. }
  eapply yields_bind; [apply yields_any|]. intros n _. destruct (n =? 0).
  - eapply yields_bind; [apply yields_any|]. intros _ _. by apply yields_ret.
  - eapply (yields_bind _ _ (Forall P)); [intros s; apply Hel|]. intros l Hl. eapply yields_bind; [apply yields_any|].
    intros _ _. by apply yields_ret.
Qed.

Lemma yields_DecodeBytes {A} (d : Dec A) P b a : yields d P -> DecodeBytes d b = inr a -> P a.
Proof.
  intros Hd. unfold DecodeBytes. destruct (d _) as [[e|x] s] eqn:Hrun; [done|]. destruct (s_r s); [|done].
  intros [=]; subst. by eapply Hd.
Qed.

Ltac yields_any := eapply yields_bind; [apply yields_any|]; intros ? _.

Lemma yields_prepare : yields decodePrepare (fun p => cp_code (pr_common p) = PrepareCode).
Proof. yields_any. repeat case_match. by apply yields_ret. Qed.

Lemma yields_commit : yields decodeCommit (fun m => cp_code (cm_common m) = CommitCode).
Proof. yields_any. repeat case_match. by apply yields_ret. Qed.

Lemma yields_src : yields decodeSRC (fun p => cp_code (sr_common p) = RoundChangeCode).
Proof. apply yields_struct. do 2 yields_any. repeat case_match. yields_any. by apply yields_ret. Qed.

Lemma yields_raws raws : yields (decodeRaws raws) (Forall (fun p => cp_code (sr_common p) = RoundChangeCode)).
Proof.
  induction raws as [|raw raws IH]; cbn; [by apply yields_ret|]. destruct (DecodeBytes _ _) as [e|rc] eqn:Hrc.
  - destruct e; apply yields_raise.
  - eapply yields_bind; [exact IH|]. intros l Hl. apply yields_ret. constructor; [|done]. exact (yields_DecodeBytes _ _ _ _ yields_src Hrc).
Qed.

Section codes.
Context {B : Type} `{Proposal B} `{BlockCodec B}.

Lemma yields_preprepare : yields decodePreprepare (fun m : Preprepare B => Forall msg_wf (pieces (MPreprepare m))).
Proof.
  eapply (yields_bind _ _ (fun x => Forall (fun p => cp_code (pr_common p) = PrepareCode) x.2)).
  - apply yields_struct. yields_any. eapply (yields_bind _ _ (fun x => Forall (fun p => cp_code (pr_common p) = PrepareCode) x.2)).
    + apply yields_field, yields_struct. yields_any.
      eapply yields_bind; [apply yields_field, yields_slice, yields_prepare|]. intros l Hl. by apply yields_ret.
    + intros x Hx. by apply yields_ret.
  - intros x Hx. repeat case_match. cbn in Hx. eapply yields_bind; [apply yields_raws|]. intros rcs Hrcs. apply yields_ret.
    constructor; [done|]. apply Forall_app. by split; apply Forall_map.
Qed.

Lemma yields_roundChange : yields decodeRoundChange (fun m : RoundChange B => Forall msg_wf (pieces (MRoundChange m))).
Proof.
  apply yields_struct. eapply yields_bind; [apply yields_src|]. intros p Hp. yields_any.
  eapply (yields_bind _ _ (Forall (fun p => cp_code (pr_common p) = PrepareCode))).
  - yields_any. case_match; [yields_any; by apply yields_ret|]. apply yields_slice, yields_prepare.
  - intros l Hl. apply yields_ret. constructor; [done|]. by apply Forall_map.
Qed.

Lemma DecodeMessage_wf code data (m : WBFTMessage B) :
  DecodeMessage code data = inr m -> msg_Code m = code /\ Forall msg_wf (pieces m).
Proof.
  unfold DecodeMessage. intros Hm. repeat case_match; zify_bools; simplify_eq.
  - pose proof (yields_DecodeBytes _ _ _ _ yields_preprepare ltac:(eassumption)) as Hw. split; [by apply Forall_cons in Hw as [? _]|done].
  - pose proof (yields_DecodeBytes _ _ _ _ yields_prepare ltac:(eassumption)) as Hw. by split; [|constructor].
  - pose proof (yields_DecodeBytes _ _ _ _ yields_commit ltac:(eassumption)) as Hw. by split; [|constructor].
  - pose proof (yields_DecodeBytes _ _ _ _ yields_roundChange ltac:(eassumption)) as Hw. split; [by apply Forall_cons in Hw as [? _]|done].
Qed.

(** The codec that the core is run with. *)
#[export] Program Instance messageCodec : Codec B := {|
  payload_Preprepare := Preprepare_EncodePayloadForSigning;
  payload_Prepare := Prepare_EncodePayloadForSigning;
  payload_Commit := Commit_EncodePayloadForSigning;
  payload_RoundChange := RoundChange_EncodePayloadForSigning;
  EncodeMessage := encodeMessage;
  Decode code data := match DecodeMessage code data with inl _ => None | inr m => Some m end;
|}.
Next Obligation.
  intros code data m Hm. cbn in Hm. destruct (DecodeMessage code data) as [e|x] eqn:Hd; [done|]. injection Hm as ->.
  apply DecodeMessage_wf in Hd as [? Hw]. split; [done|]. by apply Forall_cons in Hw as [? _].
Qed.
End codes.

(** * Signed payloads determine the content of a message *)

Lemma hash_prefix h h' x y :
  enc_string (hashBytes h) ++ x = enc_string (hashBytes h') ++ y -> hash_eq h h' /\ x = y.
Proof.
  intros Heq. unfold hashBytes in Heq.
  apply enc_string_prefix in Heq as [Hb ->]; [|by apply be_bytes_byte|by apply be_bytes_byte|by rewrite length_be_bytes..].
  split; [|done]. unfold hash_eq. change (2 ^ 256) with (256 ^ Z.of_nat 32). by rewrite <- !be_value_mod, Hb.
Qed.

(** The start of every signed payload. *)
Definition common_bytes (c : CommonPayload) : bytes :=
  enc_string (big_Bytes (cp_Sequence c)) ++ enc_string (big_Bytes (cp_Round c)).

Lemma common_prefix c c' x y :
  0 <= cp_Sequence c -> 0 <= cp_Round c -> 0 <= cp_Sequence c' -> 0 <= cp_Round c' ->
  len (common_bytes c) < 2 ^ 64 -> len (common_bytes c') < 2 ^ 64 ->
  common_bytes c ++ x = common_bytes c' ++ y -> cp_View c = cp_View c' /\ x = y.
Proof.
  unfold common_bytes. rewrite !length_app, <- !app_assoc. intros. edestruct big_prefix as [Hs Heq]; [| | | |eassumption|]; [lia..|].
  apply big_prefix in Heq as [Hr ->]; [|lia..]. unfold cp_View. by rewrite Hs, Hr.
Qed.

(** A payload that was marshalled: its code, and what follows the code. *)
Lemma signed_inv code rest b :
  marshal (VList [VUint code; rest]) = Some b ->
  b = enc_list (enc_string (big_Bytes code) ++ enc rest) /\ len (enc_string (big_Bytes code) ++ enc rest) < 2 ^ 64 /\
  val_ok rest.
Proof.
  intros Hm. apply marshal_inv in Hm as (-> & [Hl Hs] & _). cbn in Hl |- *.
  rewrite app_nil_r in *. split_and!; [done|done|]. apply Hs.
Qed.

Lemma signed_codes code code' rest rest' :
  0 <= code < 128 -> 0 <= code' < 128 ->
  len (enc_string (big_Bytes code) ++ rest) < 2 ^ 64 -> len (enc_string (big_Bytes code') ++ rest') < 2 ^ 64 ->
  enc_list (enc_string (big_Bytes code) ++ rest) = enc_list (enc_string (big_Bytes code') ++ rest') -> code = code' /\ rest = rest'.
Proof.
  intros Hc Hc' Hl Hl' Heq. apply (f_equal (fun l => l ++ [])), enc_list_prefix in Heq as [Heq _]; [|done..].
  rewrite length_app in Hl, Hl'. apply big_prefix in Heq; [done|lia..].
Qed.

Lemma vote_payload_inv c d seal :
  enc (VList (common_vals c ++ [VByteArray (hashBytes d); VBytes seal])) =
  enc_list (common_bytes c ++ enc_string (hashBytes d) ++ enc_string seal).
Proof. unfold common_bytes, enc_list. cbn. rewrite app_nil_r, <- !app_assoc. done. Qed.

(** PREPARE and COMMIT. *)
Lemma vote_signed c c' d d' seal seal' code b :
  0 <= code < 128 ->
  marshal (VList [VUint code; VList (common_vals c ++ [VByteArray (hashBytes d); VBytes seal])]) = Some b ->
  marshal (VList [VUint code; VList (common_vals c' ++ [VByteArray (hashBytes d'); VBytes seal'])]) = Some b ->
  cp_View c = cp_View c' /\ hash_eq d d'.
Proof.
  intros Hc H1' H2'. apply signed_inv in H1' as (-> & Hl & Hs), H2' as (Heq & Hl' & Hs'); [|done..].
  apply signed_codes in Heq as [_ Heq]; [|done..]. rewrite !vote_payload_inv in *.
  apply (f_equal (fun l => l ++ [])), enc_list_prefix in Heq as [Heq _];
    [|rewrite length_app in Hl; unfold enc_list in Hl; rewrite length_app in Hl; lia
     |rewrite length_app in Hl'; unfold enc_list in Hl'; rewrite length_app in Hl'; lia].
  cbn in Hs, Hs'. unfold enc_list in Hl, Hl'. rewrite !length_app in Hl, Hl'.
  apply common_prefix in Heq as [Hv Heq]; [|lia..]. apply hash_prefix in Heq as [Hd _]. done.
Qed.

Definition prepared_vals (p : SignedRoundChangePayload) : list val :=
  match prepared_content p with
  | Some (r, d) => [VBigIntPtr (Some r); VByteArray (hashBytes d)]
  | None => []
  end.

Lemma hashBytes_mod d : hashBytes (d mod 2 ^ 256) = hashBytes d.
Proof.
  unfold hashBytes. rewrite (Z.div_mod d (2 ^ 256)) at 2 by lia. rewrite (Z.mul_comm (2 ^ 256)). symmetry.
  by apply (be_bytes_add 32 32 (d / 2 ^ 256)).
Qed.

Definition rc_bytes (p : SignedRoundChangePayload) : bytes :=
  common_bytes (sr_common p) ++ enc_list (concat (map enc (prepared_vals p))).

Lemma encodePayloadInternal_eq p :
  encodePayloadInternal p = marshal (VList (common_vals (sr_common p) ++ [VList (prepared_vals p)])).
Proof.
  unfold encodePayloadInternal, prepared_vals, prepared_content. destruct (sr_PreparedRound p); [|done].
  destruct (_ =? _); [done|]. by rewrite hashBytes_mod.
Qed.

(** An encoded payload, and what its success says. *)
Lemma encodePayloadInternal_inv p b :
  encodePayloadInternal p = Some b ->
  b = enc_list (rc_bytes p) /\ len (rc_bytes p) < 2 ^ 64 /\ 0 <= cp_Sequence (sr_common p) /\ 0 <= cp_Round (sr_common p) /\
  (forall r d, prepared_content p = Some (r, d) -> 0 <= r).
Proof.
  rewrite encodePayloadInternal_eq. intros Hm. apply marshal_inv in Hm as (-> & [Hl Hs] & _).
  assert (concat (map enc (common_vals (sr_common p) ++ [VList (prepared_vals p)])) = rc_bytes p) as Heq.
  { unfold rc_bytes, common_bytes. cbn. by rewrite app_nil_r, <- !app_assoc. }
  rewrite Heq in Hl. cbn in Hs. destruct Hs as (? & ? & [_ Hs] & _).
  split_and!; [cbn [enc]; by rewrite Heq|done..|]. intros r d Hc. unfold prepared_vals in Hs. rewrite Hc in Hs. apply Hs.
Qed.

Lemma prepared_nonempty i x : enc_string (big_Bytes i) ++ x <> [].
Proof. intros [Hn _]%app_nil. by apply (enc_nonempty (VUint i)) in Hn. Qed.

Lemma rc_signed p p' b :
  cp_code (sr_common p) = RoundChangeCode -> cp_code (sr_common p') = RoundChangeCode ->
  RoundChange_EncodePayloadForSigning p = Some b -> RoundChange_EncodePayloadForSigning p' = Some b ->
  sr_View p = sr_View p' /\ prepared_content p = prepared_content p'.
Proof.
  intros Hc Hc' (e & He & H1')%bind_Some (e' & He' & H2')%bind_Some. rewrite Hc in H1'. rewrite Hc' in H2'.
  apply signed_inv in H1' as (-> & Hl & _), H2' as (Heq & Hl' & _); [|done..]. cbn [enc] in Hl, Hl', Heq.
  apply signed_codes in Heq as [_ Heq]; [|done..].
  apply encodePayloadInternal_inv in He as (-> & Hr & ? & ? & Hp), He' as (-> & Hr' & ? & ? & Hp').
  apply (f_equal (fun l => l ++ [])), enc_list_prefix in Heq as [Heq _]; [|done..].
  unfold rc_bytes in *. rewrite length_app in Hr, Hr'. apply common_prefix in Heq as [Hv Heq]; [|lia..]. split; [done|].
  unfold enc_list in Hr, Hr'. rewrite length_app in Hr, Hr'.
  apply (f_equal (fun l => l ++ [])), enc_list_prefix in Heq as [Heq _]; [|lia..]. unfold prepared_vals in *.
  destruct (prepared_content p) as [[r d]|] eqn:Hpc, (prepared_content p') as [[r' d']|] eqn:Hpc'; cbn in Heq, Hr, Hr'; [..|done].
  - rewrite !length_app in Hr, Hr'. apply big_prefix in Heq as [-> Heq]; [|by eapply Hp|by eapply Hp'|lia..].
    apply hash_prefix in Heq as [Hd _]. unfold hash_eq in Hd.
    assert (forall q x y, prepared_content q = Some (x, y) -> y mod 2 ^ 256 = y) as Hmod.
    { intros q x y. unfold prepared_content. destruct (sr_PreparedRound q); [|done]. destruct (_ =? _); [done|].
      intros [=]; subst. by rewrite Z.mod_mod by lia. }
    rewrite (Hmod _ _ _ Hpc), (Hmod _ _ _ Hpc') in Hd. by subst.
  - by apply prepared_nonempty in Heq.
  - symmetry in Heq. by apply prepared_nonempty in Heq.
Qed.

Section signing.
Context {B : Type} `{Proposal B} `{BlockCodec B}.

Lemma payload_code (m : WBFTMessage B) b :
  msg_wf m -> payload_of m = Some b -> exists rest,
  b = enc_list (enc_string (big_Bytes (code_of m)) ++ rest) /\ len (enc_string (big_Bytes (code_of m)) ++ rest) < 2 ^ 64.
Proof.
  intros Hwf Hm. enough (exists v, marshal (VList [VUint (code_of m); v]) = Some b) as (v & (-> & Hl & _)%signed_inv) by eauto.
  rewrite <- Hwf. destruct m as [m|m|m|m]; cbn in Hm; [by eexists..|].
  apply bind_Some in Hm as (e & _ & He). by eexists.
Qed.

#[export] Instance messageSigningLaws : SigningLaws (B := B).
Proof.
  split.
  - intros m m' data Hm Hm' Hd Hd'.
    destruct (payload_code m data Hm Hd) as (rest & -> & Hl). destruct (payload_code m' _ Hm' Hd') as (rest' & Heq & Hl').
    assert (forall x : WBFTMessage B, 0 <= code_of x < 128) as Hc by (by intros []).
    apply signed_codes in Heq as [Hcode _]; [|done..]. unfold msg_wf, msg_Code in Hm, Hm'.
    destruct m as [m|m|m|m], m' as [m'|m'|m'|m']; cbn in *; try done.
    + unfold Prepare_EncodePayloadForSigning in *. rewrite Hm in Hd. rewrite Hm' in Hd'. by apply (vote_signed _ _ _ _ _ _ _ _ (Hc (MPrepare m)) Hd Hd').
    + unfold Commit_EncodePayloadForSigning in *. rewrite Hm in Hd. rewrite Hm' in Hd'. by apply (vote_signed _ _ _ _ _ _ _ _ (Hc (MCommit m)) Hd Hd').
    + by eapply rc_signed.
  - intros code data m. cbn. destruct (DecodeMessage code data) as [e|x] eqn:Hx; [done|]. intros [= ->].
    by apply DecodeMessage_wf in Hx as [_ ?].
Qed.
End signing.
