(* ===== verification/MessageProps.v ===== *)
(** Round trips of the consensus messages: what a node sends is what the others
    decode, and [Decode] always comes to an end. *)
From S2P Require Import Prelude Validators Messages CoreState Network Rlp RlpStream RlpSpec RlpLists Extra ExtraProps RlpCodec Header TxProps Blocks BlockProps MessageCodec.

(** What the codec of messages needs of the codec of blocks. *)
Class BlockCodecLaws (B : Type) `{BlockCodec B} : Type := {
  proposal_ok : B -> Prop;
  block_reads b : proposal_ok b -> len (enc (block_val b)) < 2 ^ 64 -> reads decodeBlock (enc (block_val b)) b;
  block_list b : exists content, enc (block_val b) = enc_list content /\ 0 < len content;
  block_starts : starts decodeBlock;
  block_total : total decodeBlock;
}.

#[global] Program Instance blockCodecLaws : BlockCodecLaws Block := {| proposal_ok := block_ok |}.
Next Obligation. intros b. apply (co_reads _ _ _ codec_block). Qed.
Next Obligation.
  intros b. eexists (concat (map enc (header_val (b_header b) :: _))). split; [reflexivity|]. cbn [map concat].
  pose proof (enc_nonempty (header_val (b_header b))) as Hne. rewrite length_app.
  destruct (enc (header_val (b_header b))); [by destruct Hne|]. cbn [length]. lia.
Qed.
Next Obligation. apply codec_block. Qed.
Next Obligation. apply codec_block. Qed.

(** * Messages with values of the Go types *)

Definition common_fits (c : CommonPayload) : Prop := 0 <= cp_Sequence c /\ 0 <= cp_Round c /\ bytes_ok (cp_signature c).
Definition prepare_fits (p : Prepare) : Prop :=
  common_fits (pr_common p) /\ 0 <= pr_Digest p < 2 ^ 256 /\ bytes_ok (pr_PrepareSeal p).
Definition commit_fits (p : Commit) : Prop :=
  common_fits (cm_common p) /\ 0 <= cm_Digest p < 2 ^ 256 /\ bytes_ok (cm_CommitSeal p).
Definition src_fits (p : SignedRoundChangePayload) : Prop :=
  common_fits (sr_common p) /\ 0 <= sr_PreparedDigest p < 2 ^ 256 /\ ptr_ok (fun r => 0 <= r) (sr_PreparedRound p).

(** What comes back: the sender is not sent, and half a lock is no lock. *)
Definition wire_common (code : Z) (c : CommonPayload) : CommonPayload :=
  mkCommon code zeroAddress (cp_Sequence c) (cp_Round c) (cp_signature c).
Definition wire_prepare (p : Prepare) : Prepare := mkPrepare (wire_common PrepareCode (pr_common p)) (pr_Digest p) (pr_PrepareSeal p).
Definition wire_commit (p : Commit) : Commit := mkCommit (wire_common CommitCode (cm_common p)) (cm_Digest p) (cm_CommitSeal p).
Definition wire_src (p : SignedRoundChangePayload) : SignedRoundChangePayload :=
  let c := wire_common RoundChangeCode (sr_common p) in
  match prepared_content p with Some (r, d) => mkSRC c (Some r) d | None => mkSRC c None zeroHash end.

(** Membership in a list of fields. *)
Ltac in_list := cbn [common_vals]; Prelude.in_list.

(** * Votes *)

Lemma hash_roundtrip d : 0 <= d < 2 ^ 256 -> be_value (hashBytes d) = d.
Proof. intros Hd. unfold hashBytes. rewrite be_value_mod. apply Z.mod_small. done. Qed.

Lemma reads_hash d : reads (ByteArray 32) (enc_string (hashBytes d)) (hashBytes d).
Proof. apply reads_ByteArray; [done|]. unfold hashBytes. by rewrite length_be_bytes. Qed.

Lemma reads_big i : 0 <= i -> len (enc (VBigIntPtr (Some i))) < 2 ^ 64 -> reads BigInt (enc (VBigIntPtr (Some i))) i.
Proof. intros Hi Hl%string_lt. by apply reads_BigInt. Qed.

Lemma reads_vote c d seal :
  common_fits c -> 0 <= d < 2 ^ 256 -> bytes_ok seal ->
  let v := VList [VList (common_vals c ++ [VByteArray (hashBytes d); VBytes seal]); VBytes (cp_signature c)] in
  len (enc v) < 2 ^ 64 -> reads decodeVote (enc v) (cp_Sequence c, cp_Round c, d, seal, cp_signature c).
Proof.
  intros (Hs & Hr & Hsig) Hd Hseal v Hl. pose proof (fun v => elem_lt v _ Hl) as He.
  apply reads_struct; [by apply content_lt|].
  eapply reads_bind; [apply reads_field|].
  2:{ eapply reads_bind; [apply reads_field, reads_string; [done|apply He; in_list]|apply reads_ret]. }
  assert (len (enc (VList (common_vals c ++ [VByteArray (hashBytes d); VBytes seal]))) < 2 ^ 64) as Hl' by (apply He; in_list).
  pose proof (fun v => elem_lt v _ Hl') as He'. apply reads_struct; [by apply content_lt|].
  eapply reads_bind; [apply reads_field, reads_big; [done|apply He'; in_list]|].
  eapply reads_bind; [apply reads_field, reads_big; [done|apply He'; in_list]|].
  eapply reads_bind; [apply reads_field, reads_hash|].
  eapply reads_bind; [apply reads_field, reads_string; [done|apply He'; in_list]|].
  rewrite hash_roundtrip by done. apply reads_ret.
Qed.

Lemma reads_prepare p :
  prepare_fits p -> len (enc (prepare_val p)) < 2 ^ 64 -> reads decodePrepare (enc (prepare_val p)) (wire_prepare p).
Proof.
  intros (Hc & Hd & Hs) Hl. rewrite <- (app_nil_r (enc _)). eapply reads_bind; [by apply reads_vote|]. apply reads_ret.
Qed.

Lemma reads_commit p :
  commit_fits p -> len (enc (commit_val p)) < 2 ^ 64 -> reads decodeCommit (enc (commit_val p)) (wire_commit p).
Proof.
  intros (Hc & Hd & Hs) Hl. rewrite <- (app_nil_r (enc _)). eapply reads_bind; [by apply reads_vote|]. apply reads_ret.
Qed.

(** * ROUND-CHANGE payloads *)

Lemma reads_Raw content : len content < 2 ^ 64 -> reads Raw (enc_list content) (enc_list content).
Proof.
  intros Hl. apply (reads_kind _ (listAhead (len content))); [apply listAhead_ok; lia|done|].
  intros r rem st lim Hf. cbn [a_kind a_size listAhead]. unfold mbind, Dec_bind. by rewrite readFull_ok.
Qed.

Lemma reads_onReader {A} (d : Dec A) b a : reads d b a -> reads (onReader d b) [] a.
Proof.
  intros Hd r rem st lim Hf. unfold onReader. rewrite <- (app_nil_r b) at 1. rewrite Hd by (split; [done|lia]).
  exact (reads_ret a r rem st lim Hf).
Qed.

Lemma reads_rcPayload p :
  src_fits p -> len (rc_bytes p) < 2 ^ 64 ->
  reads decodeRCPayload (enc_list (rc_bytes p))
    (cp_Sequence (sr_common p), cp_Round (sr_common p), sr_PreparedRound (wire_src p), sr_PreparedDigest (wire_src p)).
Proof.
  intros ((Hs & Hr & _) & Hd & Hp) Hl. apply reads_struct; [done|]. unfold rc_bytes, common_bytes in *. rewrite <- app_assoc.
  rewrite !length_app in Hl. unfold enc_list in Hl. rewrite length_app in Hl.
  eapply reads_bind; [apply reads_BigInt; [done|apply string_lt; lia]|]. eapply reads_bind; [apply reads_BigInt; [done|apply string_lt; lia]|].
  rewrite <- (app_nil_r (enc_list _)). eapply (reads_bind _ _ _ _ (sr_PreparedRound (wire_src p), sr_PreparedDigest (wire_src p)));
    [|apply reads_ret].
  apply (reads_list (fun size => if 0 <? size then _ else _)); [lia|]. apply reads_reads_in; [lia|].
  unfold wire_src, prepared_vals, prepared_content in *. destruct (sr_PreparedRound p) as [r|]; [|apply reads_ret].
  destruct (_ =? _); [apply reads_ret|]. cbn [sr_PreparedRound sr_PreparedDigest]. rewrite hashBytes_mod, Z.mod_small by done.
  cbn [map concat] in *. rewrite app_nil_r in *. destruct (Z.ltb_spec 0 (len (enc (VBigIntPtr (Some r)) ++ enc (VByteArray (hashBytes (sr_PreparedDigest p)))))) as [_|Hz].
  - rewrite length_app in Hl. eapply reads_bind; [apply reads_big; [done|lia]|].
    rewrite <- (app_nil_r (enc _)). eapply reads_bind; [apply reads_hash|]. rewrite hash_roundtrip by done. apply reads_ret.
  - pose proof (enc_nonempty (VBigIntPtr (Some r)) ltac:(done)) as Hne. rewrite length_app in Hz. destruct (enc (VBigIntPtr _)); [done|cbn in Hz; lia].
Qed.

Lemma reads_src p v :
  src_fits p -> src_val p = Some v -> len (enc v) < 2 ^ 64 -> reads decodeSRC (enc v) (wire_src p).
Proof.
  intros Hp (e & He & [= <-])%bind_Some Hl. pose proof (fun v => elem_lt v _ Hl) as Hel. pose proof Hp as ((Hs & Hr & Hsig) & _).
  apply encodePayloadInternal_inv in He as (-> & Hlen & _). apply reads_struct; [by apply content_lt|].
  eapply reads_bind; [by apply reads_Raw|]. 
  eapply (reads_bind _ _ [] (enc (VBytes (cp_signature (sr_common p))) ++ [])); [by apply reads_onReader, reads_rcPayload|].
  eapply reads_bind; [apply reads_string; [done|apply Hel; in_list]|].
  unfold wire_src. destruct (prepared_content p) as [[]|]; apply reads_ret.
Qed.

(** * Lists of messages *)

(** A slice whose elements come back as [g x]. *)
Lemma reads_elems_map {A A'} (d : Dec A') (f : A -> val) (g : A -> A') (P : A -> Prop) (xs : list A) :
  starts d -> (forall x b, f x <> VRaw b) ->
  (forall x, P x -> len (enc (f x)) < 2 ^ 64 -> reads d (enc (f x)) (g x)) ->
  Forall P xs -> len (enc (VList (map f xs))) < 2 ^ 64 ->
  reads (decodeListSlice d) (enc (VList (map f xs))) (map g xs).
Proof.
  intros Hst Hraw Hd HP Hl. pose proof (content_lt _ Hl) as Hc. pose proof (fun v => elem_lt v _ Hl) as He. clear Hl.
  apply reads_slice; [done| | |done].
  - clear Hc. induction HP as [|x xs Hx _ IH]; constructor; [apply Hd; [done|apply He; in_list]|].
    apply IH. intros v Hv. apply He. set_solver.
  - apply Forall_map, Forall_map, Forall_forall. intros x _. apply enc_nonempty, Hraw.
Qed.

Lemma starts_Raw : starts Raw.
Proof. apply starts_kind. auto 8 with rlp. Qed.

Lemma starts_prepare : starts decodePrepare.
Proof.
  apply starts_bind; [apply starts_struct; auto 8 with rlp|]. intros [[[[? ?] ?] ?] ?]. auto with rlp.
Qed.

Lemma reads_prepares ps :
  Forall prepare_fits ps -> len (enc (VList (map prepare_val ps))) < 2 ^ 64 ->
  reads (decodeListSlice decodePrepare) (enc (VList (map prepare_val ps))) (map wire_prepare ps).
Proof. apply (reads_elems_map _ _ _ prepare_fits); [apply starts_prepare|done|apply reads_prepare]. Qed.

Lemma reads_raws ps vs :
  Forall src_fits ps -> mapM src_val ps = Some vs -> len (enc (VList vs)) < 2 ^ 64 ->
  reads (decodeListSlice Raw) (enc (VList vs)) (map enc vs) /\ forall s, decodeRaws (map enc vs) s = (inr (map wire_src ps), s).
Proof.
  intros Hps Hvs%mapM_Some Hl. pose proof (content_lt _ Hl) as Hc. pose proof (fun v => elem_lt v _ Hl) as He. clear Hl.
  assert (Forall (fun v => exists c, enc v = enc_list c /\ len c < 2 ^ 64 /\ 0 < len (enc v)) vs) as Hlist.
  { clear Hps Hc. induction Hvs as [|p v ps vs Hv _ IH]; constructor; [|apply IH; intros w Hw; apply He; set_solver].
    apply bind_Some in Hv as (e & _ & [= <-]). eexists. split; [reflexivity|]. split; [apply content_lt, He; in_list|].
    match goal with |- 0 < len ?b => destruct b eqn:Hb; [by apply enc_nonempty in Hb|cbn [length]; lia] end. }
  split.
  - apply reads_slice; [apply starts_Raw| | |done].
    + change (Forall2 (reads Raw) (map enc vs) (map enc vs)). clear -Hlist.
      induction Hlist as [|v vs (c & Heq & Hc & _) _ IH]; constructor; [|done]. rewrite Heq. by apply reads_Raw.
    + change (Forall (fun bs => bs <> []) (map enc vs)). apply Forall_map. eapply Forall_impl; [exact Hlist|].
      intros v (_ & _ & _ & Hp) Hn. rewrite Hn in Hp. cbn in Hp. lia.
  - clear Hc. induction Hvs as [|p v ps vs Hv _ IH]; intros s; [done|]. apply Forall_cons in Hps as [Hp Hps].
    apply Forall_cons in Hlist as [(c & _ & _ & Hpos) Hlist]. cbn [map decodeRaws].
    rewrite (DecodeBytes_reads decodeSRC _ _ (reads_src p v Hp Hv (He v ltac:(in_list))) Hpos).
    unfold mbind, Dec_bind. rewrite IH; [done|done|set_solver|done].
Qed.

(** * Whole messages *)

Section messages.
Context {B : Type} `{Proposal B} `{BlockCodec B} `{!BlockCodecLaws B}.

Definition preprepare_fits (m : Preprepare B) : Prop :=
  common_fits (pp_common m) /\ proposal_ok (pp_Proposal m) /\
  Forall src_fits (pp_JustificationRoundChanges m) /\ Forall prepare_fits (pp_JustificationPrepares m).

(** A prepared block comes with its round and its digest. *)
Definition rc_fits (m : RoundChange B) : Prop :=
  src_fits (rc_payload m) /\ Forall prepare_fits (rc_Justification m) /\
  ptr_ok (fun b => proposal_ok b /\ sr_PreparedRound (rc_payload m) <> None /\
                   BHash b = sr_PreparedDigest (rc_payload m) /\ BHash b <> zeroHash) (rc_PreparedBlock m).

Definition message_fits (m : WBFTMessage B) : Prop :=
  match m with
  | MPreprepare m => preprepare_fits m
  | MPrepare m => prepare_fits m
  | MCommit m => commit_fits m
  | MRoundChange m => rc_fits m
  end.

Definition wire_preprepare (m : Preprepare B) : Preprepare B :=
  mkPreprepare (wire_common PreprepareCode (pp_common m)) (pp_Proposal m)
    (map wire_src (pp_JustificationRoundChanges m)) (map wire_prepare (pp_JustificationPrepares m)).
Definition wire_roundChange (m : RoundChange B) : RoundChange B :=
  mkRoundChange (wire_src (rc_payload m)) (rc_PreparedBlock m) (map wire_prepare (rc_Justification m)).
Definition wire_message (m : WBFTMessage B) : WBFTMessage B :=
  match m with
  | MPreprepare m => MPreprepare (wire_preprepare m)
  | MPrepare m => MPrepare (wire_prepare m)
  | MCommit m => MCommit (wire_commit m)
  | MRoundChange m => MRoundChange (wire_roundChange m)
  end.

Lemma reads_preprepare m v :
  preprepare_fits m -> preprepare_val m = Some v -> len (enc v) < 2 ^ 64 -> reads decodePreprepare (enc v) (wire_preprepare m).
Proof.
  intros ((Hs & Hr & Hsig) & Hb & Hrcs & Hps) Hv Hl. unfold preprepare_val in Hv.
  apply bind_Some in Hv as (vs & Hvs & Heq). injection Heq as <-. pose proof (fun v => elem_lt v _ Hl) as He.
  assert (len (enc (VList [VList (common_vals (pp_common m) ++ [block_val (pp_Proposal m)]); VBytes (cp_signature (pp_common m))])) < 2 ^ 64) as Hl1 by (apply He; in_list).
  assert (len (enc (VList [VList vs; VList (map prepare_val (pp_JustificationPrepares m))])) < 2 ^ 64) as Hl2 by (apply He; in_list).
  pose proof (fun v => elem_lt v _ Hl1) as He1. pose proof (fun v => elem_lt v _ Hl2) as He2.
  assert (len (enc (VList (common_vals (pp_common m) ++ [block_val (pp_Proposal m)]))) < 2 ^ 64) as Hl3 by (apply He1; in_list). pose proof (fun v => elem_lt v _ Hl3) as He3.
  destruct (reads_raws _ _ Hrcs Hvs (He2 (VList vs) ltac:(in_list))) as [Hraws Hdec].
  rewrite <- (app_nil_r (enc _)).
  eapply (reads_bind _ _ _ _ (cp_Sequence (pp_common m), cp_Round (pp_common m), pp_Proposal m, cp_signature (pp_common m),
    map enc vs, map wire_prepare (pp_JustificationPrepares m))).
  2:{ intros r rem st lim Hf. unfold mbind, Dec_bind. rewrite Hdec. exact (reads_ret _ r rem st lim Hf). }
  apply reads_struct; [by apply content_lt|]. eapply reads_bind.
  { apply reads_field, reads_struct; [by apply content_lt|]. eapply reads_bind.
    { apply reads_field, reads_struct; [by apply content_lt|].
      eapply reads_bind; [apply reads_field, reads_big; [done|apply He3; in_list]|].
      eapply reads_bind; [apply reads_field, reads_big; [done|apply He3; in_list]|].
      eapply reads_bind; [apply reads_field, block_reads; [done|apply He3; in_list]|]. apply reads_ret. }
    eapply reads_bind; [apply reads_field, reads_string; [done|apply He1; in_list]|]. apply reads_ret. }
  eapply (reads_bind _ _ _ _ (map enc vs, map wire_prepare (pp_JustificationPrepares m))); [|apply reads_ret].
  apply reads_field, reads_struct; [by apply content_lt|]. eapply reads_bind; [apply reads_field, Hraws|].
  eapply reads_bind; [apply reads_field, reads_prepares; [done|apply He2; in_list]|]. apply reads_ret.
Qed.

Lemma starts_if {A} (b : bool) (d d' : Dec A) : starts d -> starts d' -> starts (if b then d else d').
Proof. by destruct b. Qed.

Lemma reads_block digest (o : option B) :
  ptr_ok (fun b => proposal_ok b /\ BHash b = digest) o -> len (enc (ptr_val block_val o)) < 2 ^ 64 ->
  reads (a ← kind;
         if a_size a =? 0 then _ ← Raw; mret None
         else b ← decodeBlock; if BHash b =? digest then mret (Some b) else raise DecoderError)
    (enc (ptr_val block_val o)) o.
Proof.
  intros Ho Hl. destruct o as [b|].
  - destruct Ho as [Hb Hd]. cbn [ptr_val] in *. pose proof (block_reads b Hb Hl) as Hread.
    destruct (block_list b) as (c & Hc & Hpos). rewrite Hc in *. assert (len c < 2 ^ 64).
    { unfold enc_list in Hl. rewrite length_app in Hl. lia. }
    apply reads_peek_list; [done| |]; cbn [a_size listAhead]; (destruct (Z.eqb_spec (len c) 0); [lia|]).
    + apply starts_bind; [apply block_starts|]. intros x. case_match; auto with rlp.
    + rewrite <- (app_nil_r (enc_list c)). eapply reads_bind; [exact Hread|]. rewrite (proj2 (Z.eqb_eq _ _) Hd). apply reads_ret.
  - change (enc (ptr_val block_val None)) with (enc_list []). apply reads_peek_list; [done| |]; cbn.
    + apply starts_bind; [apply starts_Raw|auto with rlp].
    + rewrite <- (app_nil_r (enc_list [])). eapply reads_bind; [by apply reads_Raw|apply reads_ret].
Qed.

Lemma reads_justification ps :
  Forall prepare_fits ps -> len (enc (VList (map prepare_val ps))) < 2 ^ 64 ->
  reads (a ← kind; if a_size a =? 0 then _ ← Raw; mret [] else decodeListSlice decodePrepare)
    (enc (VList (map prepare_val ps))) (map wire_prepare ps).
Proof.
  intros Hps Hl. pose proof (content_lt _ Hl) as Hc. pose proof (reads_prepares ps Hps Hl) as Hread.
  change (enc (VList (map prepare_val ps))) with (enc_list (concat (map enc (map prepare_val ps)))) in *.
  apply reads_peek_list; [done| |]; cbn [a_size listAhead].
  - apply starts_if; [apply starts_bind; [apply starts_Raw|auto with rlp]|apply starts_slice].
  - destruct (Z.eqb_spec (len (concat (map enc (map prepare_val ps)))) 0) as [Hz|]; [|done].
    destruct ps as [|p ps].
    + rewrite <- (app_nil_r (enc_list _)). eapply reads_bind; [by apply reads_Raw|apply reads_ret].
    + pose proof (len_concat_elem (prepare_val p) (map prepare_val (p :: ps)) ltac:(left)) as Hle.
      pose proof (enc_nonempty (prepare_val p) ltac:(done)). destruct (enc (prepare_val p)); [done|cbn [length] in Hle; lia].
Qed.

Lemma reads_roundChange m v :
  rc_fits m -> roundchange_val m = Some v -> len (enc v) < 2 ^ 64 -> reads decodeRoundChange (enc v) (wire_roundChange m).
Proof.
  intros (Hp & Hj & Hb) Hv Hl. unfold roundchange_val in Hv. apply bind_Some in Hv as (e & He & Heq). injection Heq as <-.
  pose proof (fun v => elem_lt v _ Hl) as Hel. apply reads_struct; [by apply content_lt|].
  pose proof (reads_src (rc_payload m) (VList [VRaw e; VBytes (cp_signature (sr_common (rc_payload m)))]) Hp) as Hsrc.
  unfold src_val in Hsrc. rewrite He in Hsrc.
  eapply (reads_bind decodeSRC _ (enc (VList [VRaw e; VBytes (cp_signature (sr_common (rc_payload m)))]))
    (enc (ptr_val block_val (rc_PreparedBlock m)) ++ enc (VList (map prepare_val (rc_Justification m))) ++ []));
    [apply Hsrc; [done|apply Hel; in_list]|].
  eapply reads_bind; [apply reads_block; [|apply Hel; in_list]|].
  - destruct (rc_PreparedBlock m) as [b|]; [|done]. destruct Hb as (Hok & Hr & Hd & Hn). split; [done|]. rewrite Hd in *.
    unfold wire_src, prepared_content. destruct (sr_PreparedRound (rc_payload m)); [|done].
    rewrite (proj2 (Z.eqb_neq _ _) Hn). cbn. rewrite Z.mod_small; [done|apply Hp].
  - eapply reads_bind; [apply reads_justification; [done|apply Hel; in_list]|]. apply reads_ret.
Qed.

Lemma decode_wire {A} (d : Dec A) vs a : reads d (enc (VList vs)) a -> DecodeBytes d (enc (VList vs)) = inr a.
Proof.
  intros Hd. apply DecodeBytes_reads; [done|]. destruct (enc (VList vs)) eqn:Hv; [|cbn [length]; lia].
  by apply enc_nonempty in Hv.
Qed.

Lemma message_val_list (m : WBFTMessage B) v : message_val m = Some v -> exists vs, v = VList vs.
Proof.
  destruct m as [m|m|m|m]; cbn [message_val]; unfold preprepare_val, roundchange_val, prepare_val, commit_val.
  - intros (? & _ & Heq)%bind_Some. injection Heq as <-. eauto.
  - intros [= <-]. eauto.
  - intros [= <-]. eauto.
  - intros (? & _ & Heq)%bind_Some. injection Heq as <-. eauto.
Qed.

Lemma message_decodes (m : WBFTMessage B) data :
  msg_wf m -> message_fits m -> encodeMessage m = Some data -> DecodeMessage (msg_Code m) data = inr (wire_message m).
Proof.
  intros Hwf Hfit (v & Hv & Hm)%bind_Some. apply marshal_inv in Hm as (-> & _ & Hl). unfold msg_wf in Hwf. rewrite Hwf.
  destruct (message_val_list m v Hv) as [vs ->]. destruct m as [m|m|m|m]; cbn [message_val message_fits] in Hv, Hfit.
  - pose proof (decode_wire _ _ _ (reads_preprepare m _ Hfit Hv Hl)) as Hd. unfold DecodeMessage. cbn [code_of]. by rewrite Z.eqb_refl, Hd.
  - injection Hv as <-. pose proof (decode_wire _ _ _ (reads_prepare m Hfit Hl) : DecodeBytes decodePrepare (enc (prepare_val m)) = _) as Hd.
    change (DecodeMessage _ _) with (match DecodeBytes decodePrepare (enc (prepare_val m)) with
      inl _ => inl ErrFailedDecodeCommit | inr x => inr (MPrepare x : WBFTMessage B) end). by rewrite Hd.
  - injection Hv as <-. pose proof (decode_wire _ _ _ (reads_commit m Hfit Hl) : DecodeBytes decodeCommit (enc (commit_val m)) = _) as Hd.
    change (DecodeMessage _ _) with (match DecodeBytes decodeCommit (enc (commit_val m)) with
      inl _ => inl ErrFailedDecodeCommit | inr x => inr (MCommit x : WBFTMessage B) end). by rewrite Hd.
  - pose proof (decode_wire _ _ _ (reads_roundChange m _ Hfit Hv Hl)) as Hd.
    change (DecodeMessage _ _) with (match DecodeBytes decodeRoundChange (enc (VList vs)) with
      inl _ => inl ErrFailedDecodeRoundChange | inr x => inr (MRoundChange x : WBFTMessage B) end). by rewrite Hd.
Qed.
End messages.

(** * Votes have one encoding *)

Lemma canon_vote :
  canon decodeVote (fun '(s, r, d, seal, sig) bs =>
    let c := mkCommon 0 0 s r sig in common_fits c /\ 0 <= d < 2 ^ 256 /\ bytes_ok seal /\
    bs = enc (VList [VList (common_vals c ++ [VByteArray (hashBytes d); VBytes seal]); VBytes sig])).
Proof.
  eapply canon_weaken; [apply canon_struct; canon_fields;
    [apply canon_struct; canon_fields; [apply canon_BigInt|apply canon_BigInt|apply (canon_ByteArray 32); lia|apply canon_Bytes|apply canon_ret]
    |apply canon_Bytes|apply canon_ret]|].
  intros [[[[s r] d] seal] sig] bs (c & Hc & Hl & ->).
  repeat match goal with H : exists _, _ |- _ => destruct H | H : _ /\ _ |- _ => destruct H end. simplify_eq.
  match goal with H : len ?x = 32, Hb : Forall is_byte ?x |- _ =>
    pose proof (be_value_range x Hb) as Hr; pose proof (be_bytes_be_value x Hb) as Hx; assert (length x = 32%nat) as Hn by lia;
    rewrite Hn in Hr, Hx end.
  intros c. unfold hashBytes. rewrite Hx. split_and!; try done; lia.
Qed.

Lemma canon_prepare : canon decodePrepare (fun p bs => cp_code (pr_common p) = PrepareCode /\ cp_source (pr_common p) = zeroAddress /\
  prepare_fits p /\ bs = enc (prepare_val p)).
Proof.
  eapply canon_weaken; [apply (canon_bind decodeVote _ _ (fun '(s, r, d, seal, sig) p bs => p = mkPrepare (mkCommon PrepareCode 0 s r sig) d seal /\ bs = []) canon_vote);
    intros [[[[s r] d] seal] sig]; apply canon_ret|].
  intros p bs ([[[[s r] d] seal] sig] & b1 & b2 & (Hc & Hd & Hs & ->) & [-> ->] & ->). rewrite app_nil_r. done.
Qed.

Lemma canon_commit : canon decodeCommit (fun p bs => cp_code (cm_common p) = CommitCode /\ cp_source (cm_common p) = zeroAddress /\
  commit_fits p /\ bs = enc (commit_val p)).
Proof.
  eapply canon_weaken; [apply (canon_bind decodeVote _ _ (fun '(s, r, d, seal, sig) p bs => p = mkCommit (mkCommon CommitCode 0 s r sig) d seal /\ bs = []) canon_vote);
    intros [[[[s r] d] seal] sig]; apply canon_ret|].
  intros p bs ([[[[s r] d] seal] sig] & b1 & b2 & (Hc & Hd & Hs & ->) & [-> ->] & ->). rewrite app_nil_r. done.
Qed.

(** * Decoding stops *)

Lemma canon_Raw : canon Raw (fun raw bs => raw = bs /\ bs <> []).
Proof.
  apply canon_kind. intros a r rem st lim x s' Ha Hr Hl Hst Hrun.
  destruct a as [k n bv e]. pose proof Ha as (He & Hn & Hk). cbn in He, Hn, Hk. subst e.
  destruct k; cbn [a_kind a_size a_byteval] in Hrun.
  - destruct Hk as [-> Hbv]. injection Hrun as <- <-. exists [], r. cbn. rewrite adv_0 by done. done.
  - unfold mbind, Dec_bind in Hrun. destruct (readFull _ _) as [[e|b] s1] eqn:Hf; [done|]. injection Hrun as <- <-.
    apply readFull_inv in Hf as (r' & -> & Hb & ->); [|lia]. exists b, r'. rewrite Hb. split_and!; [done| |done|done].
    unfold header; cbn. intros [Hp _]%app_nil. unfold puthead in Hp. by destruct (_ <? _).
  - unfold mbind, Dec_bind in Hrun. destruct (readFull _ _) as [[e|b] s1] eqn:Hf; [done|]. injection Hrun as <- <-.
    apply readFull_inv in Hf as (r' & -> & Hb & ->); [|lia]. exists b, r'. rewrite Hb. split_and!; [done| |done|done].
    unfold header; cbn. intros [Hp _]%app_nil. unfold puthead in Hp. by destruct (_ <? _).
Qed.

Lemma total_Raw : total Raw.
Proof. apply total_kind. auto 8 with total. Qed.

Lemma total_vote : total decodeVote.
Proof.
  apply total_struct, total_bind; [apply total_field, total_struct|eauto using total_bind, total_field, total_Bytes, total_ret].
  repeat (apply total_bind; [apply total_field; auto using total_BigInt, total_ByteArray, total_Bytes|intros ?]). apply total_ret.
Qed.

Lemma total_prepare : total decodePrepare.
Proof. apply total_bind; [apply total_vote|]. intros [[[[? ?] ?] ?] ?]. apply total_ret. Qed.

Lemma total_commit : total decodeCommit.
Proof. apply total_bind; [apply total_vote|]. intros [[[[? ?] ?] ?] ?]. apply total_ret. Qed.

(** Decoders without loops need no fuel, whatever the stream. *)
Definition no_fuel_ahead (ah : option Ahead) : Prop := match ah with Some a => a_err a <> Some OutOfFuel | None => True end.
Definition fuelless {A} (d : Dec A) : Prop :=
  forall s, no_fuel_ahead (s_ahead s) -> (d s).1 <> inl OutOfFuel /\ no_fuel_ahead (s_ahead (d s).2).

Lemma fuelless_ret {A} (a : A) : fuelless (mret a).
Proof. by intros s Hs. Qed.

Lemma fuelless_raise {A} e : e <> OutOfFuel -> fuelless (raise (A := A) e).
Proof. intros He s Hs. split; [cbn; naive_solver|done]. Qed.

Lemma fuelless_bind {A A'} (d : Dec A) (f : A -> Dec A') : fuelless d -> (forall a, fuelless (f a)) -> fuelless (d ≫= f).
Proof.
  intros Hd Hf s Hs. destruct (Hd s Hs) as [H1 H2]. unfold mbind, Dec_bind.
  destruct (d s) as [[e|a] s1]; cbn in *; [split; [naive_solver|done]|]. by apply Hf.
Qed.

Lemma fuelless_readFull n : fuelless (readFull n).
Proof.
  apply fuelless_bind; [|intros _ s Hs; unfold takeBytes; by case_match].
  intros s _. unfold willRead. repeat case_match; done.
Qed.

Lemma fuelless_kind {A} (f : Ahead -> Dec A) : (forall a, fuelless (f a)) -> fuelless (kind ≫= f).
Proof.
  apply fuelless_bind. intros s Hs. unfold kind. destruct (s_ahead s) as [a|] eqn:Ha.
  - unfold getAhead. destruct (a_err a) eqn:He; cbn; rewrite Ha; cbn in *; [|done]. rewrite He in *. split; [naive_solver|done].
  - assert (forall tl : Ahead -> bool, let r := match readKind s with
        | (inl e, s') => (inl e, s')
        | (inr a, s') => let err := match a_err a with Some e => Some e | None => if tl a then Some ErrElemTooLarge
              else if s_limited s' && (s_remaining s' <? a_size a) then Some ErrValueTooLarge else None end in
            let a := MkAhead (a_kind a) (a_size a) (a_byteval a) err in
            getAhead a (MkStream (s_r s') (s_remaining s') (Some a) (s_stack s') (s_limited s')) end in
        r.1 <> inl OutOfFuel /\ no_fuel_ahead (s_ahead r.2)) as Hread.
    { intros tl. destruct (readKind s) as [[e|a] s1] eqn:Hk; [by destruct (readKind_no_error _ _ _ Hk)|].
      pose proof (readKind_err OutOfFuel (or_intror eq_refl) _ _ _ Hk) as Hne. unfold getAhead. cbn.
      destruct (a_err a); [cbn; split; naive_solver|]. repeat case_match; cbn; simplify_eq; split; naive_solver. }
    destruct (s_stack s) as [|[|l|l] st]; [apply (Hread (fun _ => false))| |
      apply (Hread (fun a => Z.pos l <? a_size a))|apply (Hread (fun a => Z.neg l <? a_size a))].
    cbn. by rewrite Ha.
Qed.

Lemma fuelless_ListEnd : fuelless ListEnd.
Proof. intros s Hs. unfold ListEnd. repeat case_match; done. Qed.

Create HintDb fuelless.
#[export] Hint Resolve fuelless_ret fuelless_bind fuelless_readFull fuelless_ListEnd : fuelless.
#[export] Hint Extern 1 (fuelless (raise _)) => (apply fuelless_raise; discriminate) : fuelless.
#[export] Hint Extern 1 (fuelless rearm) => (intros ? ?; done) : fuelless.
#[export] Hint Extern 1 (fuelless (pushList _)) => (intros ? ?; done) : fuelless.
#[export] Hint Extern 2 (fuelless (if ?b then _ else _)) => destruct b : fuelless.
#[export] Hint Extern 2 (fuelless (match ?b with _ => _ end)) => destruct b : fuelless.

Lemma fuelless_Bytes : fuelless Bytes.
Proof. apply fuelless_kind. auto 8 with fuelless. Qed.
Lemma fuelless_BigInt : fuelless BigInt.
Proof. apply fuelless_kind. intros a. unfold setBytes. auto 9 with fuelless. Qed.
Lemma fuelless_ByteArray n : fuelless (ByteArray n).
Proof. apply fuelless_kind. auto 9 with fuelless. Qed.
Lemma fuelless_Raw : fuelless Raw.
Proof. apply fuelless_kind. auto 8 with fuelless. Qed.
Lemma fuelless_openList : fuelless openList.
Proof. apply fuelless_kind. auto 8 with fuelless. Qed.
#[export] Hint Resolve fuelless_Bytes fuelless_BigInt fuelless_ByteArray fuelless_Raw fuelless_openList : fuelless.

Lemma fuelless_onReader {A} (d : Dec A) b : fuelless d -> fuelless (onReader d b).
Proof. intros Hd s Hs. split; [by apply Hd|done]. Qed.

Lemma fuelless_src : fuelless decodeSRC.
Proof.
  assert (fuelless decodeRCPayload) as Hp by (unfold decodeRCPayload, withinList; auto 20 with fuelless).
  unfold decodeSRC, withinList. apply fuelless_bind; [auto with fuelless|]. intros _. apply fuelless_bind; [|auto with fuelless].
  apply fuelless_bind; [auto with fuelless|]. intros raw. apply fuelless_bind; [by apply fuelless_onReader|].
  intros [[[? ?] ?] ?]. auto with fuelless.
Qed.

Lemma total_src : total decodeSRC.
Proof.
  assert (fuelless decodeRCPayload) as Hp by (unfold decodeRCPayload, withinList; auto 20 with fuelless).
  apply total_struct, total_bind; [apply total_Raw|]. intros raw. apply total_bind.
  - intros s Hs. split; [|done]. apply fuelless_onReader; [done|]. destruct Hs as (_ & _ & _ & Ha).
    destruct (s_ahead s); [apply Ha|done].
  - intros [[[? ?] ?] ?]. apply total_bind; [apply total_Bytes|]. intros. apply total_ret.
Qed.

Lemma total_raws raws : total (decodeRaws raws).
Proof.
  induction raws as [|raw raws IH]; [apply total_ret|]. cbn [decodeRaws].
  assert (DecodeBytes decodeSRC raw <> inl OutOfFuel) as Hd.
  { unfold DecodeBytes. destruct (fuelless_src (NewStream raw (len raw)) I) as [Hn _].
    destruct (decodeSRC _) as [[e|x] s]; cbn in Hn; [naive_solver|]. by destruct (s_r s). }
  destruct (DecodeBytes decodeSRC raw) as [e|rc]; [destruct e; apply total_raise; done|].
  apply total_bind; [done|]. intros l. apply total_ret.
Qed.

Lemma total_prepares : total (decodeListSlice decodePrepare).
Proof.
  apply (total_slice _ _ starts_prepare total_prepare canon_prepare). intros p bs (_ & _ & _ & ->). by apply enc_nonempty.
Qed.

Section total.
Context {B : Type} `{Proposal B} `{BlockCodec B} `{!BlockCodecLaws B}.

Lemma total_preprepare : total decodePreprepare.
Proof.
  apply total_bind; [apply total_struct|intros [[[[[? ?] ?] ?] ?] ?]; apply total_bind; [apply total_raws|intros; apply total_ret]].
  apply total_bind; [apply total_field, total_struct|intros signed; apply total_bind; [apply total_field, total_struct|intros; apply total_ret]].
  - apply total_bind; [apply total_field, total_struct|eauto using total_bind, total_field, total_Bytes, total_ret].
    repeat (apply total_bind; [apply total_field; auto using total_BigInt, block_total|intros ?]). apply total_ret.
  - apply total_bind; [apply total_field, (total_slice _ _ starts_Raw total_Raw canon_Raw); by intros ? ? [_ ?]|intros raws].
    apply total_bind; [apply total_field, total_prepares|intros; apply total_ret].
Qed.

Lemma total_roundChange : total decodeRoundChange.
Proof.
  apply total_struct, total_bind; [apply total_src|]. intros p. apply total_bind; [|intros b; apply total_bind; [|intros; apply total_ret]].
  - apply total_kind. intros a _. case_match; [apply total_bind; [apply total_Raw|intros; apply total_ret]|].
    apply total_bind; [apply block_total|]. intros b. case_match; [apply total_ret|by apply total_raise].
  - apply total_kind. intros a _. case_match; [apply total_bind; [apply total_Raw|intros; apply total_ret]|apply total_prepares].
Qed.
End total.

(** C20. A message that a node sends, with the block, the round changes and the
    prepares it carries, is decoded by the others to the same message; only the
    address of the sender, which is recovered from the signature, is missing. *)
Theorem message_roundtrip `{Crypto} (m : WBFTMessage Block) (data : bytes)
    (Hwf : msg_wf m) (Hfit : message_fits m) (Henc : encodeMessage m = Some data) :
  DecodeMessage (msg_Code m) data = inr (wire_message m).
Proof. by apply message_decodes. Qed.

Lemma vote_valid c d seal :
  common_fits c -> bytes_ok seal -> let v := VList [VList (common_vals c ++ [VByteArray (hashBytes d); VBytes seal]); VBytes (cp_signature c)] in
  len (enc v) < 2 ^ 64 -> val_ok v.
Proof.
  intros (Hs & Hr & Hsig) Hseal v Hl. pose proof (content_lt _ Hl) as Hc. cbn [common_vals app] in *.
  pose proof (content_lt _ (elem_lt _ _ Hl ltac:(left))) as Hc1. cbn. split_and!; done.
Qed.

(** A vote has one encoding: [Decode] accepts a PREPARE or COMMIT only in the
    form in which it is sent, so the bytes of a vote cannot be altered without
    altering the vote. *)
Theorem votes_canonical `{Crypto} (code : Z) (data : bytes) (m : WBFTMessage Block)
    (Hb : Forall is_byte data) (Hl : Z.of_nat (length data) < 2 ^ 64)
    (Hcode : code = PrepareCode \/ code = CommitCode) (Hdec : DecodeMessage code data = inr m) :
  encodeMessage m = Some data /\ wire_message m = m /\ msg_Code m = code.
Proof.
  destruct Hcode as [-> | ->]; cbn in Hdec.
  - destruct (DecodeBytes decodePrepare data) as [e|p] eqn:Hd; [done|]. injection Hdec as <-.
    apply (DecodeBytes_canon _ _ _ _ canon_prepare Hb Hl) in Hd as (Hc & Hs & (Hf & _ & Hseal) & ->).
    split_and!; [|by destruct p as [[] ? ?]; cbn in *; subst|done].
    apply (marshal_enc (prepare_val p)); [|done]. by apply (vote_valid (pr_common p)).
  - destruct (DecodeBytes decodeCommit data) as [e|p] eqn:Hd; [done|]. injection Hdec as <-.
    apply (DecodeBytes_canon _ _ _ _ canon_commit Hb Hl) in Hd as (Hc & Hs & (Hf & _ & Hseal) & ->).
    split_and!; [|by destruct p as [[] ? ?]; cbn in *; subst|done].
    apply (marshal_enc (commit_val p)); [|done]. by apply (vote_valid (cm_common p)).
Qed.

(** Decoding a message comes to an end whatever the peer sent: none of the
    decoders runs out of the fuel that the length of the input gives it. *)
Theorem message_decode_total `{Crypto} (data : bytes) (Hb : Forall is_byte data) (Hl : Z.of_nat (length data) < 2 ^ 64) :
  DecodeBytes (decodePreprepare (B := Block)) data <> inl OutOfFuel /\ DecodeBytes decodePrepare data <> inl OutOfFuel /\
  DecodeBytes decodeCommit data <> inl OutOfFuel /\ DecodeBytes (decodeRoundChange (B := Block)) data <> inl OutOfFuel.
Proof.
  split_and!; apply DecodeBytes_total; try done;
    [apply total_preprepare|apply total_prepare|apply total_commit|apply total_roundChange].
Qed.
