(* ===== verification/CodecWitness.v ===== *)
(** Concrete blocks, transactions, messages and keys, at which the theorems on
    encodings, signatures and configurations apply. *)
From S2P Require Import Prelude Validators Messages Rlp RlpStream RlpCodec Extra ChainConfig Forks ForkProps Header Transactions TxProps Blocks BlockProps TxSigning TxSigningProps MessageCodec MessageProps.

Module Wire.
(** A hash that keeps 32 bytes of its input. *)
#[export] Instance crypto : Crypto := {|
  Keccak256 data := be_bytes 32 (be_value data mod 2 ^ 256);
  SigToPub _ sig := Some sig;
  PubkeyToAddress pub := hd 0 pub;
  blsPublicKey := bytes;
  blsSignature := bytes;
  PublicKeyFromBytes := Some;
  SignatureFromBytes := Some;
  blsVerify sig key data := bool_decide (sig = key ++ data);
|}.

(** A signature shows its key: R is the key. *)
#[export] Instance curve : Secp256k1 := {|
  PrivateKey := Z;
  publicKey k := 4 :: be_bytes 64 k;
  crypto_Sign h k := if (1 <=? k) && (k <? secp256k1N) then Some (be_bytes 32 k ++ be_bytes 32 1 ++ [1]) else None;
  Ecrecover h sig := Some (4 :: be_bytes 64 (be_value (take 32 sig)));
|}.

#[export] Instance curveLaws : SecpLaws.
Proof.
  assert (secp256k1N < 256 ^ Z.of_nat 32) as HN by done.
  assert (forall k, be_value (take 32 (be_bytes 32 k ++ be_bytes 32 1 ++ [1])) = be_value (be_bytes 32 k)) as Ht.
  { intros k. rewrite take_app_length'; [done|]. by rewrite length_be_bytes. }
  split.
  - intros h k sig Hs. unfold crypto_Sign, curve in Hs. destruct (Z.leb_spec 1 k), (Z.ltb_spec k secp256k1N); try done. cbn [andb] in Hs. apply Some_inj in Hs as <-.
    rewrite Ht, be_value_be_bytes, Z.mod_small by lia. rewrite drop_app_length' by (by rewrite length_be_bytes).
    split_and!; try lia; try done; [|by right].
    apply Forall_app; split; [apply be_bytes_byte|]. apply Forall_app; split; [apply be_bytes_byte|]. by repeat constructor.
  - intros h k sig Hs. unfold crypto_Sign, curve in Hs. unfold Ecrecover, publicKey, curve. destruct (Z.leb_spec 1 k), (Z.ltb_spec k secp256k1N); try done. cbn [andb] in Hs. apply Some_inj in Hs as <-.
    by rewrite Ht, be_value_be_bytes, Z.mod_small by lia.
  - intros k. by eexists.
Qed.

(** The sender 7 lets the account of key 5 pay. *)
Definition senderTx : DynamicFeeTx :=
  mkDynamicFeeTx 8283 3 1 100 21000 (Some 0xb0b) 500 [1; 2; 3] [mkAccessTuple 0xaaa [1; 2]] 0 0 0.
Definition delegated : TxData := FeeDelegate (mkFeeDelegateTx senderTx (Some (keyAddress 5)) 0 0 0).
Definition signedTx (s : Signer) (tx : TxData) (k : Z) : TxData := match SignTx tx s k with Signed tx => tx | _ => tx end.
Definition tx1 : TxData := Eval vm_compute in signedTx (londonSigner 8283) (DynamicFee senderTx) 7.
Definition tx2 : TxData := Eval vm_compute in
  match tx1 with
  | DynamicFee t => signedTx (feeDelegateSigner 8283) (FeeDelegate (mkFeeDelegateTx t (Some (keyAddress 5)) 0 0 0)) 5
  | tx => tx
  end.
Definition tx3 : TxData := SetCode (mkSetCodeTx 8283 0 1 2 90000 0xaaa 0 [] [] [mkAuthorization 8283 0xccc 1 0 1 1] 1 2 3).
Definition tx4 : TxData := Legacy (mkLegacyTx 9 1000 21000 None 0 [96; 0] 27 1 1).

Definition txBytes (tx : TxData) : bytes := match MarshalBinary tx with Some b => b | None => [] end.
Definition tx2_bytes : bytes := Eval vm_compute in txBytes tx2.

Lemma bytes_by_eval (b : bytes) : forallb (fun x => (0 <=? x) && (x <? 256)) b = true -> Forall is_byte b.
Proof.
  intros Hb. induction b as [|x b IH]; constructor; cbn [forallb] in Hb; apply andb_prop in Hb as [Hx Hb]; [|by apply IH].
  apply andb_prop in Hx as [?%Z.leb_le ?%Z.ltb_lt]. by split.
Qed.

(** Ranges of numbers in a concrete value. *)
Ltac ranges := repeat first [split | apply Forall_nil | apply Forall_cons | by vm_compute | by right | by left | lia].

Lemma tx_binary_unique_witness : UnmarshalBinary tx2_bytes = inr tx2.
Proof.
  apply (tx_binary_unique tx2_bytes tx2); [by apply bytes_by_eval|done|].
  split; [|by vm_compute]. ranges.
Defined.

Definition block : Block :=
  MkBlock (MkHeader 1 2 3 4 5 6 7 (Some 1) (Some 12) 30000000 84000 1000 [1; 2; 3] 8 9 (Some 20) None None None None) [] [tx1; tx2; tx3; tx4] None.
Definition block_bytes : bytes := Eval vm_compute in match marshal (block_EncodeRLP block) with Some b => b | None => [] end.

Lemma block_fits : block_ok block.
Proof. unfold block_ok. split_and!; [|repeat constructor|constructor|done]; ranges; try discriminate 1; by eexists. Qed.

Lemma block_encoding_unique_witness : DecodeBytes block_DecodeRLP block_bytes = inr block.
Proof.
  apply (block_encoding_unique block_bytes block); [by apply bytes_by_eval|done|].
  split; [apply block_fits|by vm_compute].
Defined.

(** A ROUND-CHANGE of round 2 at height 12 with the block, prepared in round 1. *)
Definition digest : Hash := Eval vm_compute in BHash block.
Definition prepare : Prepare := mkPrepare (mkCommon PrepareCode 3 12 1 [9; 9]) digest [4; 5; 6].
Definition roundChange : WBFTMessage Block :=
  MRoundChange (mkRoundChange (mkSRC (mkCommon RoundChangeCode 7 12 2 [8; 8; 8]) (Some 1) digest) (Some block) [prepare; prepare]).
Definition roundChange_bytes : bytes := Eval vm_compute in match encodeMessage roundChange with Some b => b | None => [] end.

Lemma prepare_ok : prepare_fits prepare.
Proof. ranges. Qed.

Lemma message_roundtrip_witness : DecodeMessage RoundChangeCode roundChange_bytes = inr (wire_message roundChange).
Proof.
  apply (message_roundtrip roundChange roundChange_bytes); [done| |by vm_compute].
  split; [ranges|]. split; [repeat constructor; apply prepare_ok|]. split; [apply block_fits|]. split; [done|]. split; vm_compute; [reflexivity|discriminate].
Defined.

Definition prepare_bytes : bytes := Eval vm_compute in match encodeMessage (B := Block) (MPrepare prepare) with Some b => b | None => [] end.
Definition sentPrepare : WBFTMessage Block := MPrepare (wire_prepare prepare).

Lemma votes_canonical_witness : encodeMessage sentPrepare = Some prepare_bytes /\ wire_message sentPrepare = sentPrepare /\ msg_Code sentPrepare = PrepareCode.
Proof. apply (votes_canonical PrepareCode prepare_bytes sentPrepare); [by apply bytes_by_eval|done|by left|by vm_compute]. Defined.

Lemma message_decode_total_witness :
  DecodeBytes (decodePreprepare (B := Block)) roundChange_bytes <> inl OutOfFuel /\ DecodeBytes decodePrepare roundChange_bytes <> inl OutOfFuel /\
  DecodeBytes decodeCommit roundChange_bytes <> inl OutOfFuel /\ DecodeBytes (decodeRoundChange (B := Block)) roundChange_bytes <> inl OutOfFuel.
Proof. apply (message_decode_total roundChange_bytes); [by apply bytes_by_eval|done]. Defined.

(** * Signatures *)


Lemma signed_sender_witness : signer_Sender (londonSigner 8283) tx1 = inr (keyAddress 7).
Proof. apply (signed_sender (londonSigner 8283) (DynamicFee senderTx) (7 : @PrivateKey curve) tx1); [by split|by vm_compute]. Defined.

Definition noChain : FeeDelegateDynamicFeeTx :=
  mkFeeDelegateTx (mkDynamicFeeTx 0 3 1 100 21000 (Some 0xb0b) 500 [] [] 0 1 1) (Some (keyAddress 5)) 0 0 0.
Lemma zero_chain_fee_payer_witness :
  signer_Sender (feeDelegateSigner 8283) (signedTx (feeDelegateSigner 8283) (FeeDelegate noChain) 5) = inl ErrInvalidChainId.
Proof. apply (zero_chain_fee_payer 8283 8283 noChain (5 : @PrivateKey curve)); [done|done|by vm_compute]. Defined.

Lemma sender_authentic_witness : signer_ChainID (cancunSigner 8283) = Some (tx_ChainId tx1).
Proof. apply (sender_authentic (cancunSigner 8283) tx1 (keyAddress (7 : @PrivateKey curve))); [done|by vm_compute|done]. Defined.

Lemma fee_payer_authentic_witness :
  exists t, tx2 = FeeDelegate t /\ fd_FeePayer t = Some (keyAddress 5) /\ df_ChainID (fd_SenderTx t) = 8283 /\
    recovered (dataHash (sigData (FeeDelegate t) 8283)) (fd_FR t) (fd_FS t) true (keyAddress 5).
Proof.
  apply (fee_payer_authentic tx2 [CallSender (cancunSigner 8283); CallRecover 1] 8283 (keyAddress (5 : @PrivateKey curve))
           (snd (RecoverFeePayer 8283 (used tx2 [CallSender (cancunSigner 8283)])))). by vm_compute.
Defined.

(** * Configurations *)

Definition london : ChainConfig := londonConfig 8283 (Some (mkAnzeon [1; 2; 3; 4] [] None)).

(** With Boho at block 100 and Shanghai at time 5000. *)
Definition upgraded : ChainConfig :=
  mkChainConfig (Some 8283) (Some 0) None false (Some 0) (Some 0) (Some 0) (Some 0) (Some 0) (Some 0) (Some 0) None
    (Some 0) (Some 0) None None None (Some 0) (Some 100) (Some 5000) None None None (Anzeon london) (Anzeon london).

Lemma compat_search_ends_witness :
  exists r, CheckCompatible london upgraded (Z.to_nat 5252) 150 5100 = Some r /\ (r = None <-> checkCompatible london upgraded 150 5100 = None).
Proof. apply (compat_search_ends london upgraded 150 5100); [ranges..|done|done|done]. Defined.

Lemma compatible_rules_witness :
  let r := config_Rules london (Some 40) false 1000 in
  let r' := config_Rules upgraded (Some 40) false 1000 in
  commonRules r = commonRules r' /\
  (IsEIP158 london (Some 50) = true -> r_ChainID r = r_ChainID r') /\
  (PetersburgBlock london = ConstantinopleBlock london -> r_IsPetersburg r = r_IsPetersburg r').
Proof. apply (compatible_rules london upgraded 2 50 4000 40 1000 false); [by vm_compute|lia|lia]. Defined.

Lemma anzeon_conflict_dropped_witness :
  CheckCompatible london (set_Anzeon None london) 2 1000 9000 = Some (Some newAnzeonCompatError) /\
  conflictReturned 1000 9000 (Some newAnzeonCompatError) = false.
Proof. apply (anzeon_conflict_dropped london 2 1000 9000); [done|lia]. Defined.

Lemma fork_order_monotone_witness : isBlockForked (BohoBlock upgraded) (Some 100) = true -> isBlockForked (LondonBlock upgraded) (Some 100) = true.
Proof. apply (fork_order_monotone upgraded 100). by vm_compute. Defined.
End Wire.
