(* ===== verification/NetworkRun.v ===== *)
(** Concrete networks: a simulator of [Network.reach], a run in which two nodes
    decide, and a run in which a timer that outlives its height makes two correct
    nodes decide different blocks. *)
From S2P Require Import Prelude Float64 Validators Messages Config Justification CoreState CoreLogic CoreHandlers CoreInvariant CoreEvents CoreAuth CoreRuns Network Rlp RlpStream MessageCodec.

(** * A simulator *)

Section simulator.
Context `{MapOrder} {B : Type} `{Proposal B} `{Crypto} `{Codec B}.
Context (config : Config) (vs0 : ValidatorSet) (correct : gset Address).
Context (env : Address -> B -> Backend B).
Context (Henv : forall a last, backend_ok (env a last) /\ backend_fixed (env a last) (vs_validators vs0)).
Context (sched : Backend B -> Core B -> @Event B -> Prop) (schedb : Backend B -> Core B -> @Event B -> bool).
Context (Hsched : forall be s ev, schedb be s ev = true -> sched be s ev).

Abbreviation Net := (gmap Address (Core B * list (Output B))).

(** The messages a node has broadcast. *)
Definition broadcasts (es : list (Output B)) : list (WBFTMessage B * bytes) :=
  omap (fun o => match o with OBroadcast _ m payload => Some (m, payload) | _ => None end) es.

Definition signedb (N : Net) (a : Address) (data : bytes) : bool :=
  match N !! a with
  | Some (_, es) => existsb (fun '(m, _) => bool_decide (payload_of m = Some data)) (broadcasts es)
  | None => false
  end.

(** [deliverable] of messages and timers as a test. *)
Definition deliverableb (N : Net) (s : Core B) (ev : @Event B) : bool :=
  match ev with
  | MessageEvent code data =>
      match Decode code data with
      | Some m => forallb (fun p =>
          match payload_of p with
          | Some d =>
              match GetSignatureAddress d (cp_signature (msg_common p)) with
              | Some a => negb (bool_decide (a ∈ correct)) || signedb N a d
              | None => true
              end
          | None => true
          end) (pieces m)
      | None => true
      end
  | BacklogEvent _ _ => false
  | TimeoutEvent _ => match c_current s with Some r => rs_round r + 1 <? 2 ^ 64 | None => true end
  | _ => true
  end.

(** One step of a node whose chain has the head [last]: it starts, something
    happens, or the [k]-th message that [from] has sent arrives. *)
Inductive Step :=
  | Start (a : Address) (last : B)
  | Fire (a : Address) (last : B) (ev : @Event B)
  | Deliver (a : Address) (last : B) (from : Address) (k : nat).

Definition fire (N : Net) (a : Address) (last : B) (ev : @Event B) : option Net :=
  match N !! a with
  | Some (s, es) =>
      if deliverableb N s ev && schedb (env a last) s ev then
        match handleEvent (env a last) ev s with
        | Some (_, s', es') => Some (<[a := (s', es ++ es')]> N)
        | None => None
        end
      else None
  | None => None
  end.

Definition simulate_step (N : Net) (st : Step) : option Net :=
  match st with
  | Start a last =>
      if bool_decide (a ∈ correct) && bool_decide (N !! a = None) then
        match startNewRound (env a last) 0 (NewCore config a) with
        | Some (_, s, es) => Some (<[a := (s, es)]> N)
        | None => None
        end
      else None
  | Fire a last ev => fire N a last ev
  | Deliver a last from k =>
      match N !! from with
      | Some (_, es) =>
          match broadcasts es !! k with
          | Some (m, payload) => fire N a last (MessageEvent (msg_Code m) payload)
          | None => None
          end
      | None => None
      end
  end.

Fixpoint simulate (N : Net) (steps : list Step) : option Net :=
  match steps with
  | [] => Some N
  | st :: steps => match simulate_step N st with Some N' => simulate N' steps | None => None end
  end.

Lemma signedb_signed N a data : signedb N a data = true -> signed N a data.
Proof.
  unfold signedb. destruct (N !! a) as [[s es]|] eqn:Ha; [|done]. intros ([m payload] & Hin & Hm)%existsb_exists.
  apply bool_decide_eq_true in Hm. exists m. split; [|done]. apply list_elem_of_In, list_elem_of_omap in Hin as (o & Ho & Heq).
  destruct o as [ovs ? ?| | | | | | | | | | |]; try done. injection Heq as -> ->. by exists s, es, ovs, payload.
Qed.

Lemma deliverableb_deliverable N s es ev : deliverableb N s ev = true -> deliverable correct N s es ev.
Proof.
  destruct ev as [b|code data|src m|id| |round]; cbn [deliverableb deliverable]; try done.
  - intros Hall m p d a Hdec Hp Hd Ha Hc. rewrite Hdec in Hall. rewrite forallb_forall in Hall.
    specialize (Hall p (proj1 (list_elem_of_In _ _) Hp)). rewrite Hd, Ha in Hall.
    rewrite (bool_decide_eq_true_2 _ Hc) in Hall. by apply signedb_signed.
  - intros Ht r Hr. rewrite Hr in Ht. by apply Z.ltb_lt in Ht.
Qed.

Lemma fire_reach N a last ev N' :
  reach config vs0 correct sched N -> fire N a last ev = Some N' -> reach config vs0 correct sched N'.
Proof.
  intros HN. unfold fire. destruct (N !! a) as [[s es]|] eqn:Ha; [|done]. destruct (_ && _) eqn:Hok; [|done].
  apply andb_true_iff in Hok as [Hd Hs]. destruct (handleEvent _ ev s) as [[[[] s'] es']|] eqn:Hev; [|done]. intros [= <-].
  destruct (Henv a last). eapply reach_event; eauto using deliverableb_deliverable.
Qed.

Lemma simulate_reach steps N N' :
  reach config vs0 correct sched N -> simulate N steps = Some N' -> reach config vs0 correct sched N'.
Proof.
  revert N. induction steps as [|st steps IH]; intros N HN; cbn; [by intros [= <-]|].
  destruct (simulate_step N st) as [N1|] eqn:Hst; [|done]. apply IH. destruct st as [a last|a last ev|a last from k]; cbn in Hst.
  - destruct (_ && _) eqn:Hok; [|done]. apply andb_true_iff in Hok as [Hc%bool_decide_eq_true Hn%bool_decide_eq_true].
    destruct (startNewRound _ _ _) as [[[[] s] es]|] eqn:Hstart; [|done]. injection Hst as <-. destruct (Henv a last).
    by eapply reach_start.
  - by eapply fire_reach.
  - destruct (N !! from) as [[s es]|]; [|done]. destruct (broadcasts es !! k) as [[m payload]|]; [|done]. by eapply fire_reach.
Qed.

(** What has been decided. *)
Definition decisions (N : Net) (a : Address) : list (B * Z) :=
  match N !! a with
  | Some (_, es) => omap (fun o => match o with OCommit b _ _ round => Some (b, round) | _ => None end) es
  | None => []
  end.

Lemma decisions_decided N a b round : (b, round) ∈ decisions N a -> decided N a b round.
Proof.
  unfold decisions. destruct (N !! a) as [[s es]|] eqn:Ha; [|by intros ?%not_elem_of_nil].
  intros (o & Ho & Heq)%list_elem_of_omap. destruct o; try done. injection Heq as -> ->. unfold decided. eauto 6.
Qed.
End simulator.

(** * Four validators, one of them faulty *)

Module Four.
Inductive Blk := Block9 | Block10 | BlockA | BlockB.

#[export] Instance Blk_proposal : Proposal Blk := {|
  Number b := match b with Block9 => 9 | Block10 => 10 | _ => 11 end;
  BHash b := match b with Block9 => 9 | Block10 => 10 | BlockA => 21 | BlockB => 22 end;
  PrepareSeal b round st :=
    [match b with BlockA => 21 | BlockB => 22 | _ => 0 end; round; match st with SealTypePrepare => 0 | SealTypeCommit => 1 end];
|}.

#[export] Instance Blk_codec : BlockCodec Blk := {|
  block_val b := VList [VUint (BHash b)];
  decodeBlock := decodeStruct (h ← field (uint_ 64);
    if h =? 9 then mret Block9 else if h =? 10 then mret Block10 else if h =? 21 then mret BlockA
    else if h =? 22 then mret BlockB else raise DecoderError);
|}.

(** A signature is the address of its signer. *)
#[export] Instance crypto : Crypto := {|
  Keccak256 data := data;
  SigToPub _ sig := Some sig;
  PubkeyToAddress pub := hd 0 pub;
  blsPublicKey := bytes;
  blsSignature := bytes;
  PublicKeyFromBytes := Some;
  SignatureFromBytes := Some;
  blsVerify sig key data := bool_decide (sig = key ++ data);
|}.

#[export] Instance Blk_laws : HashLaws (B := Blk).
Proof. split; [by intros []|by intros [] []]. Qed.

Definition config : Config := mkConfig 1000 1 0 10 0 8 [] [].
Definition correct : gset Address := {[1; 2; 3]}.
Definition byz : list Address := [4].

(** Node [a] on a chain whose head is [last], made by node 1. *)
Definition env (a : Address) (last : Blk) : Backend Blk := {|
  be_Address := a;
  be_Validators _ := four;
  be_LastProposal := (Some last, 1);
  be_HasBadProposal _ := false;
  be_Verify _ := VerifyOk;
  be_CommitFails _ _ _ _ := false;
  be_Sign _ := Some [a];
  be_SignWithoutHashing data := a * 11 :: data;
  be_BroadcastFails _ := false;
|}.

Lemma env_ok a last : backend_ok (env a last) /\ backend_fixed (env a last) (vs_validators four).
Proof. split; [split; [by eexists|intros b; apply four_ok]|by split]. Qed.

Definition simulation (schedb : Backend Blk -> Core Blk -> @Event Blk -> bool) (steps : list Step) :=
  simulate config correct env schedb ∅ steps.

(** ** A round in which nodes 1 and 2 decide *)

(** Timers and ROUND-CHANGE messages are left out. *)
Definition plain (be : Backend Blk) (s : Core Blk) (ev : @Event Blk) : bool :=
  match ev with
  | MessageEvent code _ => negb (code =? RoundChangeCode)
  | RequestEvent _ | FinalCommittedEvent => true
  | _ => false
  end.

Lemma plain_sync be s ev : plain be s ev = true -> sync_event be s ev.
Proof. destruct ev; cbn; try done. intros Hc ->. done. Qed.

Definition to_all (from : Address) (k : nat) : list (@Step Blk) := [Deliver 1 Block10 from k; Deliver 2 Block10 from k; Deliver 3 Block10 from k].

Definition round0 : list (@Step Blk) :=
  [Start 1 Block10; Start 2 Block10; Start 3 Block10; Fire 2 Block10 (RequestEvent (Some BlockA))] ++
  to_all 2 0 ++ to_all 1 0 ++ to_all 2 1 ++ to_all 3 0 ++ to_all 1 1 ++ to_all 2 2 ++ to_all 3 1.

(** ** A fork *)

(** What node 4 sends. *)
Definition common4 (code round : Z) : CommonPayload := mkCommon code 4 11 round [4].
Definition seal4 (b : Blk) (round : Z) (st : SealType) : bytes := 44 :: PrepareSeal b round st.
Definition prepare4 (b : Blk) (round : Z) : WBFTMessage Blk :=
  MPrepare (mkPrepare (common4 PrepareCode round) (BHash b) (seal4 b round SealTypePrepare)).
Definition commit4 (b : Blk) (round : Z) : WBFTMessage Blk :=
  MCommit (mkCommit (common4 CommitCode round) (BHash b) (seal4 b round SealTypeCommit)).
Definition roundChange4 (round : Z) : WBFTMessage Blk :=
  MRoundChange (mkRoundChange (mkSRC (common4 RoundChangeCode round) None zeroHash) None []).
Definition faulty_msg (a : Address) (m : WBFTMessage Blk) : @Step Blk :=
  Fire a Block10 (MessageEvent (msg_Code m) (default [] (encodeMessage m))).

Definition forking : list (@Step Blk) :=
  (* node 1 waits for block 10 when its timer fires; block 10 is its head by then *)
  [Start 1 Block9; Start 2 Block10; Start 3 Block10; Fire 1 Block10 (TimeoutEvent 0);
  (* round 0: nodes 1, 2 and 4 lock block A, node 2 decides it *)
   Fire 2 Block10 (RequestEvent (Some BlockA)); Deliver 1 Block10 2 0; Deliver 2 Block10 2 0;
   Deliver 1 Block10 1 1; Deliver 1 Block10 2 1; faulty_msg 1 (prepare4 BlockA 0);
   Deliver 2 Block10 1 1; Deliver 2 Block10 2 1; faulty_msg 2 (prepare4 BlockA 0);
   Deliver 2 Block10 1 2; Deliver 2 Block10 2 2; faulty_msg 2 (commit4 BlockA 0);
  (* round 1: the ROUND-CHANGE messages of nodes 1, 3 and 4 report no lock *)
   Fire 3 Block10 (TimeoutEvent 0); Fire 3 Block10 (RequestEvent (Some BlockB));
   Deliver 3 Block10 1 0; Deliver 3 Block10 3 0; faulty_msg 3 (roundChange4 1);
   Deliver 1 Block10 3 0; faulty_msg 1 (roundChange4 1); Deliver 1 Block10 3 1; Deliver 3 Block10 3 1;
  (* nodes 1, 3 and 4 lock block B, node 3 decides it *)
   Deliver 1 Block10 1 4; Deliver 1 Block10 3 2; faulty_msg 1 (prepare4 BlockB 1);
   Deliver 3 Block10 1 4; Deliver 3 Block10 3 2; faulty_msg 3 (prepare4 BlockB 1);
   Deliver 3 Block10 1 5; Deliver 3 Block10 3 3; faulty_msg 3 (commit4 BlockB 1)].

(** Only timers may be handled by a node whose chain has moved on. *)
Definition late_timers (be : Backend Blk) (s : Core Blk) (ev : @Event Blk) : Prop :=
  match ev with TimeoutEvent _ => True | _ => sync_event be s ev end.

Definition late_timersb (be : Backend Blk) (s : Core Blk) (ev : @Event Blk) : bool :=
  match ev with
  | TimeoutEvent _ | RequestEvent _ | FinalCommittedEvent => true
  | MessageEvent code _ => negb (code =? RoundChangeCode) ||
      match (be_LastProposal be).1, c_current s with
      | Some last, Some r => (Number last =? rs_sequence r - 1) && (0 <=? rs_sequence r) && (rs_sequence r <? 2 ^ 63)
      | _, _ => false
      end
  | _ => false
  end.

Lemma late_timersb_spec be s ev : late_timersb be s ev = true -> late_timers be s ev.
Proof.
  destruct ev as [b|code data|src m|id| |round]; cbn [late_timersb late_timers]; try done. intros Hs Hc. rewrite Hc in Hs. cbn [negb orb] in Hs.
  change (RoundChangeCode =? RoundChangeCode) with true in Hs. cbn [negb orb] in Hs.
  destruct (be_LastProposal be) as [[last|] lp] eqn:Hlp; [|done]. cbn [fst] in Hs. destruct (c_current s) as [r|] eqn:Hr; [|done].
  zify_bools. exists last, lp. split; [done|]. intros x Hx. rewrite Hr in Hx. injection Hx as <-. lia.
Qed.

Lemma simulation_reach (sched : Backend Blk -> Core Blk -> @Event Blk -> Prop) schedb steps N :
  (forall be s ev, schedb be s ev = true -> sched be s ev) -> simulation schedb steps = Some N ->
  reach config four correct sched N.
Proof. intros Hs. apply (simulate_reach config four correct env env_ok sched schedb Hs). apply reach_init. Qed.
End Four.
Import Four.

Lemma correct_members a : a ∈ AddressList four -> a ∉ byz -> a ∈ Four.correct.
Proof. intros Ha Hb. apply (bool_decide_unpack _). vm_compute in Ha. set_solver. Qed.

Lemma decided_simulation schedb steps a b round N :
  simulation schedb steps = Some N ->
  (match simulation schedb steps with Some N => decisions N a | None => [] end) = [(b, round)] -> decided N a b round.
Proof. intros -> Hd. apply decisions_decided. rewrite Hd. by left. Qed.

(** C37. The timer of a finished height can break agreement.  One faulty validator
    of four; messages, ROUND-CHANGE messages and requests are handled by nodes
    whose height follows their chain, but a round-change timer may still fire
    after the chain has moved on, before [FinalCommittedEvent] is handled.  Then
    [handleTimeoutMsg] moves the node to round 0 of the new height and broadcasts
    a ROUND-CHANGE for round 1 of that height which reports no lock; it stays
    valid after the node has locked a block in round 0, and it justifies another
    block in round 1.  Two correct nodes decide different blocks of height 11. *)
Theorem late_timer_forks :
  valset_ok four /\ Z.of_nat (length byz) <= faulty four /\
  (forall a, a ∈ AddressList four -> a ∉ byz -> a ∈ Four.correct) /\
  exists N, reach Four.config four Four.correct late_timers N /\
    decided N 2 BlockA 0 /\ decided N 3 BlockB 1 /\ Number BlockA = Number BlockB /\ BHash BlockA <> BHash BlockB.
Proof.
  split_and!; [apply four_ok|by vm_compute|exact correct_members|].
  destruct (simulation late_timersb forking) as [N|] eqn:HN; [|by vm_compute in HN]. exists N. split_and!; [..|done|done].
  - eapply simulation_reach; [exact late_timersb_spec|exact HN].
  - apply (decided_simulation late_timersb forking); [exact HN|by vm_compute].
  - apply (decided_simulation late_timersb forking); [exact HN|by vm_compute].
Qed.

(** * Witnesses *)

