(* ===== verification/Seals.v ===== *)
(** Aggregated seals (src/consensus/wbft/engine/engine.go): the engine packs the
    seals that the core collected into a header, merges late seals into the next
    one, and verifies both. *)
From S2P Require Import Prelude Validators Messages Rlp RlpStream Extra Header.

(** The aggregation functions of the BLS package. *)
Class BlsAggregate `{Crypto} : Type := {
  AggregatePublicKeys : list bytes -> option blsPublicKey;
  AggregateCompressedSignatures : list bytes -> option blsSignature;
  sigMarshal : blsSignature -> bytes;
}.

Section seals.
Context `{Cr : Crypto} `{!BlsAggregate}.

(** The loop of [aggregateSeal]: the bitmap, the seals, or the error for a seal
    of the wrong length. *)
Fixpoint collectSealData (sealDatas : list SealData) (sealers : SealerSet) (seals : list bytes)
  : Outcome EngineError (SealerSet * list bytes) :=
  match sealDatas with
  | [] => Ret (sealers, seals)
  | seal :: sealDatas =>
      _ ← reject (negb (Z.of_nat (length (sd_Seal seal)) =? IstanbulExtraSeal)) ErrInvalidSeal;
      collectSealData sealDatas (SetSealer sealers (sd_Sealer seal)) (seals ++ [sd_Seal seal])
  end.

Definition aggregateSeal (sealDatas : list SealData) : Outcome EngineError WBFTAggregatedSeal :=
  '(sealers, seals) ← collectSealData sealDatas [] [];
  aggregatedSeal ← orFail (AggregateCompressedSignatures seals) ErrBls;
  mret (AggregatedSeal sealers (sigMarshal aggregatedSeal)).

Definition writePreparedSeals (preparedSeals : list SealData) : ApplyWBFTExtra := fun x =>
  _ ← reject (Z.of_nat (length preparedSeals) =? 0) ErrInvalidPreparedSeals;
  aggregatedSeal ← aggregateSeal preparedSeals;
  mret (set_we_PreparedSeal (Some aggregatedSeal) x).

Definition writeCommittedSeals (committedSeals : list SealData) : ApplyWBFTExtra := fun x =>
  _ ← reject (Z.of_nat (length committedSeals) =? 0) ErrInvalidCommittedSeals;
  aggregatedSeal ← aggregateSeal committedSeals;
  mret (set_we_CommittedSeal (Some aggregatedSeal) x).

Definition CommitHeader (header : Header) (preparedSeals committedSeals : list SealData) (round : Z)
  : Outcome EngineError Header :=
  r ← ApplyHeaderWBFTExtra header
        [writePreparedSeals preparedSeals; writeCommittedSeals committedSeals; writeRoundNumber round];
  mret (snd r).

(** The loop of [mergeSeals]: late seals of sealers that are not in yet. *)
Fixpoint addExtraSeals (extraSeals : list SealData) (sealers : SealerSet) (seals : list bytes)
  : SealerSet * list bytes :=
  match extraSeals with
  | [] => (sealers, seals)
  | extraSeal :: extraSeals =>
      if IsSealer sealers (sd_Sealer extraSeal) then addExtraSeals extraSeals sealers seals
      else addExtraSeals extraSeals (SetSealer sealers (sd_Sealer extraSeal)) (seals ++ [sd_Seal extraSeal])
  end.

Definition mergeSeals (seal : WBFTAggregatedSeal) (extraSeals : list SealData) : WBFTAggregatedSeal :=
  match extraSeals with
  | [] => seal
  | _ =>
      let '(sealers, seals) := addExtraSeals extraSeals (as_Sealers seal) [as_Signature seal] in
      match AggregateCompressedSignatures seals with
      | None => seal
      | Some aggregatedSeal => AggregatedSeal sealers (sigMarshal aggregatedSeal)
      end
  end.

(** The keys of the sealers, or the error for an index that no validator has. *)
Fixpoint sealerKeys (valSet : ValidatorSet) (sealers : list Z) : Outcome EngineError (list bytes) :=
  match sealers with
  | [] => Ret []
  | sealer :: sealers =>
      val ← orFail (GetByIndex valSet sealer) ErrSealerNotValidator;
      keys ← sealerKeys valSet sealers;
      mret (val_blsPublicKey val :: keys)
  end.

Definition verifyAggregatedSeal (valSet : ValidatorSet) (header : Header) (round : Z)
    (signedSeal : WBFTAggregatedSeal) (sealType : SealType) : Outcome EngineError unit :=
  let sealers := GetSealers (as_Sealers signedSeal) in
  _ ← reject (Z.of_nat (length sealers) <? QuorumSize valSet) ErrLackOfSealCount;
  blsPubKeys ← sealerKeys valSet sealers;
  let sealData := header_PrepareSeal header round sealType in
  aggregatedPubKey ← orFail (AggregatePublicKeys blsPubKeys) ErrBls;
  signature ← orFail (SignatureFromBytes (as_Signature signedSeal)) ErrBls;
  reject (negb (blsVerify signature aggregatedPubKey sealData)) ErrInvalidSeal.

(** A missing seal, and the check of a present one with its error replaced. *)
Definition presentSeal (seal : option WBFTAggregatedSeal) (e : EngineError) : Outcome EngineError WBFTAggregatedSeal :=
  match seal with
  | None => Fail e
  | Some s => if Z.of_nat (length (as_Signature s)) =? 0 then Fail e else Ret s
  end.
Definition mapError {A} (m : Outcome EngineError A) (e : EngineError) : Outcome EngineError A :=
  match m with Fail _ => Fail e | r => r end.

Definition verifySeals (header : Header) (validators : ValidatorSet) (extra : WBFTExtra) : Outcome EngineError unit :=
  num ← must (h_Number header);
  if big_Uint64 num =? 0 then Ret tt
  else
    preparedSeal ← presentSeal (we_PreparedSeal extra) ErrEmptyPreparedSeals;
    _ ← mapError (verifyAggregatedSeal validators header (we_Round extra) preparedSeal SealTypePrepare)
          ErrInvalidPreparedSeals;
    committedSeal ← presentSeal (we_CommittedSeal extra) ErrEmptyCommittedSeals;
    mapError (verifyAggregatedSeal validators header (we_Round extra) committedSeal SealTypeCommit)
      ErrInvalidCommittedSeals.

Definition verifyPrevSeals (parent : Header) (prevValidators : ValidatorSet) (extra : WBFTExtra)
  : Outcome EngineError unit :=
  num ← must (h_Number parent);
  if num =? 0 then Ret tt
  else
    prevPreparedSeal ← presentSeal (we_PrevPreparedSeal extra) ErrEmptyPrevPreparedSeals;
    _ ← mapError (verifyAggregatedSeal prevValidators parent (we_PrevRound extra) prevPreparedSeal SealTypePrepare)
          ErrInvalidPrevPreparedSeals;
    prevCommittedSeal ← presentSeal (we_PrevCommittedSeal extra) ErrEmptyPrevCommittedSeals;
    mapError (verifyAggregatedSeal prevValidators parent (we_PrevRound extra) prevCommittedSeal SealTypeCommit)
      ErrInvalidPrevCommittedSeals.

(** [getSignerAddress]; [epochInfo.Validators[idx]] panics out of range. *)
Fixpoint signersOf (epochInfo : EpochInfo) (sealers : list Z) : Outcome EngineError (list Address) :=
  match sealers with
  | [] => Ret []
  | idx :: sealers =>
      c ← must (ei_Validators epochInfo !! Z.to_nat idx);
      let v := GetCandidate (Some epochInfo) c in
      _ ← reject (v =? zeroAddress) ErrZeroValidatorAddress;
      signers ← signersOf epochInfo sealers;
      mret (v :: signers)
  end.
Definition getSignerAddress (epochInfo : EpochInfo) (signedSeal : option WBFTAggregatedSeal)
  : Outcome EngineError (list Address) :=
  match signedSeal with
  | None => Fail ErrEmptySeals
  | Some s => signersOf epochInfo (GetSealers (as_Sealers s))
  end.
End seals.
