(* ===== verification/SealProps.v ===== *)
(** Properties of header hashes and aggregated seals. *)
From S2P Require Import Prelude Validators Messages Rlp RlpStream RlpSpec RlpLists Extra ExtraProps Header Seals.

(** * Sealer sets that grow *)

Lemma elem_of_GetSealers s j :
  len s <= 2 ^ 29 -> j ∈ GetSealers s <-> 0 <= j /\ IsSealer s j = true.
Proof.
  intros Hs. rewrite GetSealers_spec, list_elem_of_filter, elem_of_seqZ by done.
  split; [naive_solver lia|]. intros [Hj Hb]. split; [done|].
  rewrite IsSealer_bit in Hb. unfold sealer_bit in Hb. destruct (s !! Z.to_nat (j / 8)) eqn:Hl; [|done].
  apply lookup_lt_Some in Hl. pose proof (Z.div_mod j 8 ltac:(lia)).
  pose proof (Z.mod_pos_bound j 8 ltac:(lia)). lia.
Qed.

Lemma NoDup_GetSealers s : len s <= 2 ^ 29 -> NoDup (GetSealers s).
Proof. intros Hs. rewrite GetSealers_spec by done. apply NoDup_filter, NoDup_seqZ. Qed.

Lemma length_SetSealer s i : 0 <= i < 2 ^ 32 -> len s <= 2 ^ 29 -> len (SetSealer s i) <= 2 ^ 29.
Proof.
  intros Hi Hs. unfold SetSealer. rewrite length_alter.
  pose proof (Z.div_lt_upper_bound i 8 (2 ^ 29) ltac:(lia) ltac:(lia)).
  case_match eqn:Hc; [|done]. apply Nat.leb_le in Hc. rewrite length_app, length_replicate. lia.
Qed.

Lemma GetSealers_SetSealer s i :
  0 <= i < 2 ^ 32 -> len s <= 2 ^ 29 -> IsSealer s i = false -> GetSealers (SetSealer s i) ≡ₚ i :: GetSealers s.
Proof.
  intros Hi Hs Hn. pose proof (length_SetSealer s i Hi Hs).
  apply NoDup_Permutation; [by apply NoDup_GetSealers|constructor; [|by apply NoDup_GetSealers]|].
  - rewrite elem_of_GetSealers by done. intros [_ Hb]. congruence.
  - intros j. rewrite elem_of_cons, !elem_of_GetSealers by done. split.
    + intros [Hj Hb]. rewrite IsSealer_SetSealer in Hb by lia. destruct (decide (j = i)); [by left|].
      right. rewrite bool_decide_eq_false_2, orb_false_r in Hb by done. done.
    + intros [->|[Hj Hb]]; (split; [lia|]); rewrite IsSealer_SetSealer by lia.
      * by rewrite bool_decide_eq_true_2, orb_true_r.
      * by rewrite Hb.
Qed.

(** * What the hash covers *)

Section hash.
Context `{Cr : Crypto} `{Ag : !BlsAggregate}.

Lemma CopyHeader_idemp h : CopyHeader (CopyHeader h) = CopyHeader h.
Proof. done. Qed.

Lemma filtered_Copy h r : WBFTFilteredHeaderWithRound (CopyHeader h) r = WBFTFilteredHeaderWithRound h r.
Proof. done. Qed.

(** Headers that differ in the seals and the round only. *)
Lemma filtered_same h h' r x x' :
  CopyHeader (set_h_Extra [] h') = CopyHeader (set_h_Extra [] h) ->
  ExtractWBFTExtra h = inr x -> ExtractWBFTExtra h' = inr x' ->
  (forall r, set_we_filtered r x' = set_we_filtered r x) ->
  WBFTFilteredHeaderWithRound h' r = WBFTFilteredHeaderWithRound h r.
Proof.
  intros Heq Hx Hx' Hf. unfold WBFTFilteredHeaderWithRound.
  change (ExtractWBFTExtra (CopyHeader h)) with (ExtractWBFTExtra h).
  change (ExtractWBFTExtra (CopyHeader h')) with (ExtractWBFTExtra h').
  rewrite Hx, Hx', Hf. destruct (EncodeExtra _) as [e|b]; [done|]. f_equal.
  change (set_h_Extra b (CopyHeader (set_h_Extra [] h')) = set_h_Extra b (CopyHeader (set_h_Extra [] h))).
  by rewrite Heq.
Qed.

(** The extra-data that [CommitHeader] writes. *)
Definition committed (x : WBFTExtra) (p c : WBFTAggregatedSeal) (round : Z) : WBFTExtra :=
  set_we_Round (u32 (big_Uint64 round)) (set_we_CommittedSeal (Some c) (set_we_PreparedSeal (Some p) x)).

Lemma CommitHeader_inv h ps cs round h' :
  CommitHeader h ps cs round = Ret h' ->
  exists x p c b, getExtra h = Ret x /\ aggregateSeal ps = Ret p /\ aggregateSeal cs = Ret c /\
    ps <> [] /\ cs <> [] /\ EncodeExtra (committed x p c round) = inr b /\ h' = set_h_Extra b h.
Proof.
  unfold CommitHeader, ApplyHeaderWBFTExtra, setExtra, writePreparedSeals, writeCommittedSeals, writeRoundNumber.
  intros Hrun. outcome_inv. subst. cbn [Combine] in *. outcome_inv. subst. cbn [snd].
  match goal with H : rlp_result ?m = Ret _ |- _ => destruct m as [e|b] eqn:Hb; [discriminate H|injection H as <-] end.
  eexists _, _, _, _. split_and!; try done; intros ->; done.
Qed.

(** Bitmaps and signatures are byte strings. *)
Lemma SetSealer_bytes s i : 0 <= i -> bytes_ok s -> bytes_ok (SetSealer s i).
Proof.
  intros Hi Hs. unfold SetSealer, bytes_ok. pose proof (Z.mod_pos_bound i 8 ltac:(lia)).
  assert (forall b, is_byte b -> is_byte (Z.lor b (u8 (Z.shiftl 1 (i mod 8))))) as Hor.
  { intros b [Hb0 Hb1]. rewrite bit_mask, Z.shiftl_1_l by lia. split; [apply Z.lor_nonneg; lia|].
    assert (2 ^ (i mod 8) < 2 ^ 8) by (apply Z.pow_lt_mono_r; lia).
    apply Z.log2_lt_cancel. rewrite Z.log2_lor by lia. change (Z.log2 256) with 8.
    apply Z.max_lub_lt; [|rewrite Z.log2_pow2; lia].
    destruct (decide (b = 0)) as [->|]; [cbn; lia|]. apply Z.log2_lt_pow2; lia. }
  apply Forall_alter; [|naive_solver].
  case_match; [|done]. apply Forall_app. split; [done|]. apply Forall_replicate. split; lia.
Qed.

Lemma collectSealData_bytes ds s l s' l' :
  Forall (fun d => 0 <= sd_Sealer d) ds -> bytes_ok s -> collectSealData ds s l = Ret (s', l') -> bytes_ok s'.
Proof.
  intros Hds. revert s l. induction Hds as [|d ds Hd _ IH]; intros s l Hs Hrun; [by injection Hrun as <- <-|].
  cbn [collectSealData] in Hrun. outcome_inv. eapply IH; [|done]. by apply SetSealer_bytes.
Qed.

Lemma collectSealData_length ds s l s' l' :
  Forall (fun d => 0 <= sd_Sealer d < 2 ^ 32) ds -> len s <= 2 ^ 29 -> collectSealData ds s l = Ret (s', l') -> len s' <= 2 ^ 29.
Proof.
  intros Hds. revert s l. induction Hds as [|d ds Hd _ IH]; intros s l Hs Hrun; cbn [collectSealData] in Hrun.
  { by injection Hrun as <- <-. }
  outcome_inv. eapply IH; [|eassumption]. by apply length_SetSealer.
Qed.

(** Signatures marshal to 96 bytes, sealers are 32-bit indices. *)
Definition marshal_ok : Prop := forall s, bytes_ok (sigMarshal s) /\ Z.of_nat (length (sigMarshal s)) = IstanbulExtraSeal.

Lemma aggregateSeal_length ds a :
  marshal_ok -> Forall (fun d => 0 <= sd_Sealer d < 2 ^ 32) ds -> aggregateSeal ds = Ret a ->
  len (as_Sealers a) <= 2 ^ 29 /\ len (as_Signature a) = IstanbulExtraSeal.
Proof.
  intros Hm Hds Hrun. unfold aggregateSeal in Hrun. apply bind_Ret in Hrun as ([s l] & Hc & Hrun). outcome_inv. subst. cbn.
  split; [|apply Hm]. eapply collectSealData_length; [exact Hds| |exact Hc]. cbn. lia.
Qed.

Lemma aggregateSeal_ok ds a :
  (forall s, bytes_ok (sigMarshal s)) -> Forall (fun d => 0 <= sd_Sealer d) ds ->
  aggregateSeal ds = Ret a -> seal_ok a.
Proof.
  intros Hm Hds Hrun. unfold aggregateSeal in Hrun. outcome_inv.
  destruct x as [s l]. outcome_inv. subst. split; cbn; [|apply Hm].
  eapply collectSealData_bytes; [exact Hds|constructor|done].
Qed.

Lemma committed_shape x p c round : extra_ok x -> val_shape (extra_val (committed x p c round)).
Proof.
  intros (_ & _ & Hpr & _ & _ & _ & _ & _ & Htip & Hep).
  assert (extra_ok (MkExtra [] [] (we_PrevRound x) None None (u32 (big_Uint64 round)) None None (we_GasTip x) (we_EpochInfo x))) as Hok.
  { refine (conj _ (conj _ (conj Hpr (conj I (conj I (conj _ (conj I (conj I (conj Htip Hep))))))))); try constructor.
    all: cbn; unfold u32; apply Z.mod_pos_bound; lia. }
  pose proof (extra_shape _ Hok) as Hs. cbn in Hs |- *. split_and!; try done; try tauto.
  1,2: by destruct (we_PrevPreparedSeal x), (we_PrevCommittedSeal x).
Qed.

Lemma CommitHeader_Ret h x p c b ps cs round :
  getExtra h = Ret x -> ps <> [] -> cs <> [] -> aggregateSeal ps = Ret p -> aggregateSeal cs = Ret c ->
  EncodeExtra (committed x p c round) = inr b -> CommitHeader h ps cs round = Ret (set_h_Extra b h).
Proof.
  intros Hx Hps Hcs Hp Hc Hb. unfold CommitHeader, ApplyHeaderWBFTExtra, setExtra, writePreparedSeals, writeCommittedSeals.
  rewrite Hx. cbn [mbind Outcome_bind Combine]. destruct ps as [|d ps]; [done|]. destruct cs as [|d' cs]; [done|].
  assert (forall l (y : SealData), (len (y :: l) =? 0) = false) as Hne.
  { intros l y. cbn [length]. by destruct (Z.eqb_spec (Z.of_nat (S (length l))) 0); [lia|]. }
  rewrite !Hne, Hp, Hc. unfold writeRoundNumber. outcome_run.
  fold (committed x p c round). rewrite Hb. by cbn [rlp_result]; outcome_run.
Qed.

Lemma getExtra_long h x :
  IstanbulExtraVanity <= len (h_Extra h) -> ExtractWBFTExtra h = inr x -> getExtra h = Ret x.
Proof. intros Hl Hx. unfold getExtra. destruct (Z.ltb_spec (len (h_Extra h)) IstanbulExtraVanity); [lia|]. by rewrite Hx. Qed.

Lemma filtered_Some h x r :
  extra_ok x -> ExtractWBFTExtra h = inr x -> 0 <= r < 2 ^ 32 ->
  exists f, WBFTFilteredHeaderWithRound h r = Some f.
Proof.
  intros Hok Hx Hr. unfold WBFTFilteredHeaderWithRound.
  change (ExtractWBFTExtra (CopyHeader h)) with (ExtractWBFTExtra h). rewrite Hx.
  destruct (EncodeToBytes_total (extra_val (set_we_filtered r x))) as [b Hb].
  { apply extra_shape. destruct Hok as (H1 & H2 & H3 & H4 & H5 & _ & _ & _ & H9 & H10).
    refine (conj H1 (conj H2 (conj H3 (conj H4 (conj H5 (conj Hr (conj I (conj I (conj H9 H10))))))))). }
  unfold EncodeExtra. rewrite Hb. eauto.
Qed.
End hash.

(** * Sizes on the wire *)

Lemma enc_string_length b : len (enc_string b) <= len b + 9.
Proof.
  assert (len (puthead 0x80 0xB7 (len b) ++ b) <= len b + 9) as Hlong.
  { rewrite length_app. pose proof (length_puthead_le 0x80 0xB7 (len b)). lia. }
  unfold enc_string. destruct b as [|y [|z b]]; [done| |done]. case_match; cbn [length]; lia.
Qed.

Lemma enc_list_length vs :
  len (concat (map enc vs)) <= len (enc (VList vs)) <= len (concat (map enc vs)) + 9.
Proof.
  cbn [enc]. rewrite length_app. pose proof (length_puthead_le 0xC0 0xF7 (len (concat (map enc vs)))). lia.
Qed.

Lemma enc_uint_length i : 0 <= i < 2 ^ 64 -> len (enc (VUint i)) <= 17.
Proof.
  intros Hi. cbn [enc]. pose proof (enc_string_length (big_Bytes i)). pose proof (length_big_Bytes i 8 Hi). lia.
Qed.

Lemma enc_seal_length s : len (enc (seal_val s)) <= len (as_Sealers s) + len (as_Signature s) + 27.
Proof.
  pose proof (enc_list_length [VBytes (as_Sealers s); VBytes (as_Signature s)]) as Hl.
  change (enc (seal_val s)) with (enc (VList [VBytes (as_Sealers s); VBytes (as_Signature s)])).
  cbn [map concat] in Hl. rewrite app_nil_r, length_app in Hl. cbn [enc] in *.
  pose proof (enc_string_length (as_Sealers s)). pose proof (enc_string_length (as_Signature s)). lia.
Qed.

(** The length of extra-data is the sum of its fields' and of one header. *)
Definition fieldsLength (x : WBFTExtra) : Z :=
  len (enc (VBytes (we_VanityData x))) + len (enc (VBytes (we_RandaoReveal x))) + len (enc (VUint (we_PrevRound x))) +
  len (enc (ptr_val seal_val (we_PrevPreparedSeal x))) + len (enc (ptr_val seal_val (we_PrevCommittedSeal x))) +
  len (enc (VUint (we_Round x))) + len (enc (ptr_val seal_val (we_PreparedSeal x))) +
  len (enc (ptr_val seal_val (we_CommittedSeal x))) + len (enc (VBigIntPtr (we_GasTip x))) + len (enc (ptr_val epoch_val (we_EpochInfo x))).

Lemma extra_length x : fieldsLength x <= len (enc (extra_val x)) <= fieldsLength x + 9.
Proof.
  unfold extra_val. set (vs := _ :: _). pose proof (enc_list_length vs) as Hl. subst vs.
  cbn [map concat] in Hl. rewrite !length_app in Hl. unfold fieldsLength. cbn [length] in Hl. lia.
Qed.

Lemma committed_length x p c round :
  len (as_Sealers p) <= 2 ^ 29 -> len (as_Signature p) = IstanbulExtraSeal ->
  len (as_Sealers c) <= 2 ^ 29 -> len (as_Signature c) = IstanbulExtraSeal ->
  len (enc (extra_val (committed x p c round))) <= len (enc (extra_val x)) + 2 ^ 31.
Proof.
  unfold IstanbulExtraSeal. intros Hp1 Hp2 Hc1 Hc2. pose proof (extra_length x) as H1. pose proof (extra_length (committed x p c round)) as H2.
  assert (0 <= u32 (big_Uint64 round) < 2 ^ 32) as Hr by (unfold u32; apply Z.mod_pos_bound; lia).
  pose proof (enc_uint_length (u32 (big_Uint64 round)) ltac:(lia)). pose proof (enc_seal_length p). pose proof (enc_seal_length c).
  unfold fieldsLength in *. cbn [committed set_we_Round set_we_CommittedSeal set_we_PreparedSeal we_VanityData we_RandaoReveal we_PrevRound
    we_PrevPreparedSeal we_PrevCommittedSeal we_Round we_PreparedSeal we_CommittedSeal we_GasTip we_EpochInfo ptr_val] in *. lia.
Qed.

(** * Sealed headers *)

Section commit.
Context `{Cr : Crypto} `{Ag : !BlsAggregate} (h : Header) (x : WBFTExtra).
Context (Hbytes : Forall is_byte (h_Extra h)) (Hlong : IstanbulExtraVanity <= len (h_Extra h) < 2 ^ 63).
Context (Hx : ExtractWBFTExtra h = inr x).

Lemma commit_extra_ok : extra_ok x /\ wire x = x.
Proof. by destruct (ExtractExtra_inv (h_Extra h) x Hbytes ltac:(lia) Hx) as (_ & _ & Hok & Hwire). Qed.

Lemma committed_size ps cs round p c :
  marshal_ok -> Forall (fun d => 0 <= sd_Sealer d < 2 ^ 32) (ps ++ cs) ->
  aggregateSeal ps = Ret p -> aggregateSeal cs = Ret c -> len (enc (extra_val (committed x p c round))) < 2 ^ 64.
Proof.
  intros Hm [Hi1 Hi2]%Forall_app Hp Hc.
  destruct (ExtractExtra_inv (h_Extra h) x Hbytes ltac:(lia) Hx) as (Henc & _).
  destruct (aggregateSeal_length ps p Hm Hi1 Hp) as [H1 H2]. destruct (aggregateSeal_length cs c Hm Hi2 Hc) as [H3 H4].
  pose proof (committed_length x p c round H1 H2 H3 H4) as Hl. rewrite <- Henc in Hl. lia.
Qed.

Lemma CommitHeader_extra ps cs round p c b :
  marshal_ok -> Forall (fun d => 0 <= sd_Sealer d < 2 ^ 32) (ps ++ cs) ->
  aggregateSeal ps = Ret p -> aggregateSeal cs = Ret c ->
  EncodeExtra (committed x p c round) = inr b -> ExtractWBFTExtra (set_h_Extra b h) = inr (committed x p c round).
Proof.
  intros Hmarshal Hi Hp Hc Henc. pose proof (committed_size ps cs round p c Hmarshal Hi Hp Hc) as Hsize.
  destruct commit_extra_ok as [Hok Hwire].
  assert (Forall (fun d => 0 <= sd_Sealer d) (ps ++ cs)) as [Hi1 Hi2]%Forall_app by (eapply Forall_impl; [exact Hi|]; cbn; lia).
  assert (extra_ok (committed x p c round)) as Hok'.
  { destruct Hok as (H1 & H2 & H3 & H4 & H5 & _ & _ & _ & H9 & H10).
    refine (conj H1 (conj H2 (conj H3 (conj H4 (conj H5 (conj _ (conj _ (conj _ (conj H9 H10))))))))).
    - cbn. unfold u32. apply Z.mod_pos_bound. lia.
    - apply (aggregateSeal_ok ps); [apply Hmarshal|done|done].
    - apply (aggregateSeal_ok cs); [apply Hmarshal|done|done]. }
  destruct (EncodeExtra_ok _ Hok' Hsize) as [Henc' Hdec]. rewrite Henc in Henc'. apply (inj inr) in Henc' as ->.
  unfold ExtractWBFTExtra; cbn [set_h_Extra h_Extra]. rewrite Hdec. f_equal. rewrite <- Hwire. by destruct x.
Qed.

Lemma committed_not_hashed b p c round :
  ExtractWBFTExtra (set_h_Extra b h) = inr (committed x p c round) ->
  (forall r st, header_PrepareSeal (set_h_Extra b h) r st = header_PrepareSeal h r st) /\
  (h_Difficulty h = Some WBFTDefaultDifficulty -> header_Hash (set_h_Extra b h) = header_Hash h).
Proof.
  intros Hx'. assert (forall r, WBFTFilteredHeaderWithRound (set_h_Extra b h) r = WBFTFilteredHeaderWithRound h r) as Hf
    by (intros r; by eapply filtered_same).
  split.
  - intros r st. unfold header_PrepareSeal, WBFTHashWithRoundNumber. by rewrite !filtered_Copy, Hf.
  - intros Hdiff. unfold header_Hash, WBFTFilteredHeader. rewrite Hf. cbn [set_h_Extra h_Difficulty].
    rewrite bool_decide_eq_true_2 by done.
    by destruct (filtered_Some h x 0 (proj1 commit_extra_ok) Hx ltac:(lia)) as [f ->].
Qed.
End commit.

(** Sealing a block does not change it: [CommitHeader] puts the aggregated
    prepare and commit seals and the round into the header's extra-data, and
    neither the block hash nor what validators sign for any round depends on
    them.  The extra-data read back from the sealed header is the old one with
    exactly these three fields replaced. *)
Theorem commit_keeps_hash `{Crypto} `{!BlsAggregate} (h h' : Header) (x : WBFTExtra)
    (preparedSeals committedSeals : list SealData) (round : Z)
    (Hbytes : Forall is_byte (h_Extra h)) (Hlong : IstanbulExtraVanity <= Z.of_nat (length (h_Extra h)) < 2 ^ 63)
    (Hdiff : h_Difficulty h = Some WBFTDefaultDifficulty) (Hx : ExtractWBFTExtra h = inr x)
    (Hmarshal : marshal_ok)
    (Hidx : Forall (fun d => 0 <= sd_Sealer d < 2 ^ 32) (preparedSeals ++ committedSeals))
    (Hcommit : CommitHeader h preparedSeals committedSeals round = Ret h') :
  header_Hash h' = header_Hash h /\
  (forall r st, header_PrepareSeal h' r st = header_PrepareSeal h r st) /\
  exists p c, aggregateSeal preparedSeals = Ret p /\ aggregateSeal committedSeals = Ret c /\
    ExtractWBFTExtra h' = inr (committed x p c round).
Proof.
  apply CommitHeader_inv in Hcommit as (x0 & p & c & b & Hget & Hp & Hc & _ & _ & Henc & ->).
  rewrite (getExtra_long h x) in Hget by (done || lia). injection Hget as <-.
  pose proof (CommitHeader_extra h x Hbytes Hlong Hx _ _ _ p c b Hmarshal Hidx Hp Hc Henc) as Hx'.
  destruct (committed_not_hashed h x Hbytes Hlong Hx b p c round Hx') as [Hseal Hhash].
  split_and!; [by apply Hhash|done|by exists p, c].
Qed.
