(* ===== verification/SealVerify.v ===== *)
(** Verification of aggregated seals: what the engine writes it accepts, what it
    accepts carries a quorum. *)
From S2P Require Import Prelude Float64 Validators Messages Rlp RlpStream RlpSpec RlpLists Extra ExtraProps Header Seals SealProps.

(** * Contract of the BLS package *)

Section validity.
Context `{Cr : Crypto} `{Ag : !BlsAggregate}.

(** A signature that verifies for a message under the aggregate of keys. *)
Definition validFor (m : bytes) (keys : list bytes) (seal : bytes) : Prop :=
  exists pk sig, AggregatePublicKeys keys = Some pk /\ SignatureFromBytes seal = Some sig /\ blsVerify sig pk m = true.
End validity.

(** Signatures over one message add up: the aggregate of signatures verifies
    under the aggregate of all their keys, in any order; an aggregate marshals
    to 96 bytes that parse to it; a single key is its own aggregate.  Keys or
    signatures that cancel to the point at infinity are left out of account. *)
Class BlsLaws `{Cr : Crypto} `{Ag : !BlsAggregate} : Prop := {
  aggregate_one : forall k, AggregatePublicKeys [k] = PublicKeyFromBytes k;
  aggregate_valid : forall m (parts : list (list bytes * bytes)) keys,
    parts <> [] -> Forall (fun p => validFor m (fst p) (snd p)) parts ->
    keys ≡ₚ concat (map fst parts) ->
    exists a pk, AggregateCompressedSignatures (map snd parts) = Some a /\
      SignatureFromBytes (sigMarshal a) = Some a /\
      AggregatePublicKeys keys = Some pk /\ blsVerify a pk m = true;
  marshal_length : forall a, Z.of_nat (length (sigMarshal a)) = IstanbulExtraSeal;
  marshal_bytes : forall a, Forall is_byte (sigMarshal a);
}.

(** * Keys of sealers *)

Section verify.
Context `{Cr : Crypto} `{Ag : !BlsAggregate} `{Laws : !BlsLaws}.
Implicit Types (vs : ValidatorSet) (h : Header).

Definition indexed vs (i : Z) : Prop := 0 <= i < Size vs.
Definition keyOf vs (i : Z) : bytes :=
  match GetByIndex vs i with Some v => val_blsPublicKey v | None => [] end.

Lemma sealerKeys_Ret vs is_ : Forall (indexed vs) is_ -> sealerKeys vs is_ = Ret (map (keyOf vs) is_).
Proof.
  induction 1 as [|i l Hi _ IH]; [done|]. cbn. unfold keyOf at 1.
  destruct (GetByIndex_Some vs i Hi) as [v ->]. cbn. by rewrite IH.
Qed.

Lemma sealerKeys_inv vs is_ keys :
  Forall (fun i => 0 <= i) is_ -> sealerKeys vs is_ = Ret keys ->
  Forall (indexed vs) is_ /\ keys = map (keyOf vs) is_.
Proof.
  intros Hpos. revert keys. induction Hpos as [|i l Hi _ IH]; intros keys Hk.
  { cbn in Hk. injection Hk as <-. done. }
  cbn [sealerKeys] in Hk. outcome_inv. subst. destruct (IH _ ltac:(eassumption)) as [Hf ->]. cbn [map].
  match goal with H : GetByIndex _ _ = Some ?v |- _ =>
    rename H into Hg; assert (keyOf vs i = val_blsPublicKey v) as -> by (unfold keyOf; by rewrite Hg) end.
  split; [|done]. constructor; [|done]. unfold GetByIndex in Hg. unfold indexed.
  destruct (Z.ltb_spec i (Size vs)); [lia|done].
Qed.

(** A seal over the keys of the validators at [is_]. *)
Definition sealed vs h round st (is_ : list Z) (seal : bytes) : Prop :=
  Forall (indexed vs) is_ /\ validFor (header_PrepareSeal h round st) (map (keyOf vs) is_) seal.

Lemma verify_sealed vs h round st s :
  len (as_Sealers s) <= 2 ^ 29 ->
  verifyAggregatedSeal vs h round s st = Ret tt <->
  QuorumSize vs <= len (GetSealers (as_Sealers s)) /\
  sealed vs h round st (GetSealers (as_Sealers s)) (as_Signature s).
Proof.
  intros Hl. assert (Forall (fun i => 0 <= i) (GetSealers (as_Sealers s))) as Hpos.
  { apply Forall_forall. intros i Hi%elem_of_GetSealers; [lia|done]. }
  unfold verifyAggregatedSeal. split.
  - intros Hrun. outcome_inv. zify_bools. split; [done|].
    match goal with H : sealerKeys _ _ = _ |- _ => apply sealerKeys_inv in H as [Hf ->]; [|done] end.
    split; [done|]. by eexists _, _.
  - intros (Hq & Hf & pk & sig & Hpk & Hsig & Hv).
    destruct (Z.ltb_spec (len (GetSealers (as_Sealers s))) (QuorumSize vs)); [lia|].
    unfold mbind, Outcome_bind. cbn [reject]. rewrite sealerKeys_Ret by done. cbv zeta.
    rewrite Hpk. cbn [orFail]. rewrite Hsig. cbn [orFail]. by rewrite Hv.
Qed.

(** * Aggregation *)

Lemma concat_keys vs (parts : list (list Z * bytes)) :
  concat (map fst (map (fun p => (map (keyOf vs) p.1, p.2)) parts)) = map (keyOf vs) (concat (map fst parts)).
Proof. induction parts as [|[is_ s] parts IH]; [done|]. cbn. by rewrite IH, map_app. Qed.

Lemma aggregate_sealed vs h round st (parts : list (list Z * bytes)) is_ :
  parts <> [] -> Forall (fun p => sealed vs h round st p.1 p.2) parts -> is_ ≡ₚ concat (map fst parts) ->
  exists a, AggregateCompressedSignatures (map snd parts) = Some a /\ sealed vs h round st is_ (sigMarshal a).
Proof.
  intros Hne Hparts Hperm. set (kparts := map (fun p => (map (keyOf vs) p.1, p.2)) parts).
  destruct (aggregate_valid (header_PrepareSeal h round st) kparts (map (keyOf vs) is_)) as (a & pk & Ha & Hs & Hpk & Hv).
  - unfold kparts. by destruct parts.
  - unfold kparts. apply Forall_map. eapply Forall_impl; [exact Hparts|]. intros p [_ Hp]. done.
  - unfold kparts. rewrite concat_keys. by rewrite Hperm.
  - exists a. unfold kparts in Ha. rewrite map_map in Ha. split; [done|]. split; [|by exists pk, a].
    rewrite Hperm. apply Forall_concat, Forall_map. eapply Forall_impl; [exact Hparts|]. by intros p [Hp _].
Qed.

(** The seal that one validator contributes. *)
Definition good_seal vs h round st (d : SealData) : Prop :=
  sealed vs h round st [sd_Sealer d] (sd_Seal d).

Lemma good_seal_index vs h round st d : good_seal vs h round st d -> indexed vs (sd_Sealer d).
Proof. intros [Hf _]. by apply Forall_cons in Hf as [Hf _]. Qed.

Lemma collectSealData_spec vs ds s l :
  Size vs <= 2 ^ 32 ->
  Forall (fun d => indexed vs (sd_Sealer d) /\ Z.of_nat (length (sd_Seal d)) = IstanbulExtraSeal) ds ->
  len s <= 2 ^ 29 -> NoDup (map sd_Sealer ds) -> (forall d, d ∈ ds -> IsSealer s (sd_Sealer d) = false) ->
  exists s', collectSealData ds s l = Ret (s', l ++ map sd_Seal ds) /\ len s' <= 2 ^ 29 /\
    GetSealers s' ≡ₚ map sd_Sealer ds ++ GetSealers s.
Proof.
  intros Hsz Hds. revert s l. induction Hds as [|d ds [Hd1 Hd2] Hds IH]; intros s l Hs Hnd Hfresh.
  { exists s. cbn. by rewrite app_nil_r. }
  cbn in Hnd. apply NoDup_cons in Hnd as [Hnin Hnd]. cbn [collectSealData]. rewrite Hd2.
  assert (0 <= sd_Sealer d < 2 ^ 32) as Hr by (unfold indexed in Hd1; lia).
  assert (forall d', d' ∈ ds -> 0 <= sd_Sealer d') as Hpos.
  { intros d' Hd'. rewrite Forall_forall in Hds. destruct (Hds d' Hd') as [[] _]. lia. }
  destruct (IH (SetSealer s (sd_Sealer d)) (l ++ [sd_Seal d])) as (s' & Hrun & Hl' & Hperm);
    [by apply length_SetSealer|done| |].
  - intros d' Hd'. rewrite IsSealer_SetSealer; [|lia|by apply Hpos]. rewrite Hfresh by set_solver. cbn.
    apply bool_decide_eq_false. intros Heq. apply Hnin. rewrite <- Heq. apply list_elem_of_fmap. eauto.
  - exists s'. cbn. rewrite Hrun, <- app_assoc. split_and!; [done|done|].
    rewrite Hperm, GetSealers_SetSealer by (done || apply Hfresh; set_solver). cbn.
    by rewrite Permutation_middle.
Qed.

Lemma flat_seals (ds : list SealData) :
  concat (map fst (map (fun d => ([sd_Sealer d], sd_Seal d)) ds)) = map sd_Sealer ds /\
  map snd (map (fun d => ([sd_Sealer d], sd_Seal d)) ds) = map sd_Seal ds.
Proof. induction ds as [|d ds [IH1 IH2]]; [done|]. cbn. by rewrite IH1, IH2. Qed.

(** Seals of distinct validators aggregate to a seal that verifies. *)
Lemma aggregateSeal_verifies vs h round st ds :
  Size vs <= 2 ^ 32 -> ds <> [] -> NoDup (map sd_Sealer ds) -> QuorumSize vs <= len ds ->
  Forall (fun d => good_seal vs h round st d /\ Z.of_nat (length (sd_Seal d)) = IstanbulExtraSeal) ds ->
  exists a, aggregateSeal ds = Ret a /\ verifyAggregatedSeal vs h round a st = Ret tt /\
    Z.of_nat (length (as_Signature a)) = IstanbulExtraSeal.
Proof.
  intros Hsz Hne Hnd Hq Hds.
  destruct (collectSealData_spec vs ds [] [] Hsz) as (s' & Hrun & Hl & Hperm); [|by vm_compute|done|done|].
  { eapply Forall_impl; [exact Hds|]. intros d [Hd ?]. split; [by eapply good_seal_index|done]. }
  rewrite app_nil_r in Hperm. destruct (flat_seals ds) as [Hf1 Hf2].
  destruct (aggregate_sealed vs h round st (map (fun d => ([sd_Sealer d], sd_Seal d)) ds) (GetSealers s'))
    as (a & Ha & Hs).
  - by destruct ds.
  - apply Forall_map. eapply Forall_impl; [exact Hds|]. by intros d [Hd _].
  - by rewrite Hf1.
  - rewrite Hf2 in Ha. exists (AggregatedSeal s' (sigMarshal a)). unfold aggregateSeal. rewrite Hrun.
    unfold mbind, Outcome_bind. cbn [app]. rewrite Ha. split_and!; [done| |apply marshal_length].
    apply verify_sealed; [done|]. split; [|done]. cbn. rewrite Hperm, length_map. done.
Qed.

(** * Merging late seals *)

Lemma addExtraSeals_spec vs h round st ds s (parts : list (list Z * bytes)) :
  Size vs <= 2 ^ 32 -> Forall (good_seal vs h round st) ds -> len s <= 2 ^ 29 ->
  Forall (fun p => sealed vs h round st p.1 p.2) parts -> GetSealers s ≡ₚ concat (map fst parts) ->
  exists s' parts', addExtraSeals ds s (map snd parts) = (s', map snd parts') /\ len s' <= 2 ^ 29 /\
    parts' = parts ++ drop (length parts) parts' /\
    Forall (fun p => sealed vs h round st p.1 p.2) parts' /\ GetSealers s' ≡ₚ concat (map fst parts') /\
    (forall j, j ∈ GetSealers s' <-> j ∈ GetSealers s \/ j ∈ map sd_Sealer ds).
Proof.
  intros Hsz Hds. revert s parts. induction Hds as [|d ds Hd _ IH]; intros s parts Hs Hparts Hperm.
  { exists s, parts. rewrite drop_all, app_nil_r. split_and!; try done. set_solver. }
  pose proof (good_seal_index _ _ _ _ _ Hd) as Hidx. unfold indexed in Hidx. cbn [addExtraSeals].
  destruct (IsSealer s (sd_Sealer d)) eqn:Hin.
  { destruct (IH s parts Hs Hparts Hperm) as (s' & parts' & Hrun & Hl & Hpre & Hall & Hp & Hsub).
    exists s', parts'. split_and!; try done. intros j. rewrite Hsub. cbn. rewrite elem_of_cons.
    assert (sd_Sealer d ∈ GetSealers s) as Hd' by (apply elem_of_GetSealers; split_and?; done || lia).
    split; [tauto|]. intros [?|[->|?]]; tauto. }
  pose proof (GetSealers_SetSealer s (sd_Sealer d) ltac:(lia) Hs Hin) as Hset.
  destruct (IH (SetSealer s (sd_Sealer d)) (parts ++ [([sd_Sealer d], sd_Seal d)]))
    as (s' & parts' & Hrun & Hl & Hpre & Hall & Hp & Hsub).
  - apply length_SetSealer; [lia|done].
  - apply Forall_app. split; [done|]. by constructor.
  - rewrite Hset, Hperm, map_app, concat_app. cbn. apply Permutation_cons_append.
  - rewrite map_app in Hrun. exists s', parts'. split_and!; [done|done| |done|done|].
    + rewrite Hpre at 1 2. rewrite <- app_assoc, drop_app_length. done.
    + intros j. rewrite Hsub, Hset. cbn. rewrite !elem_of_cons. tauto.
Qed.

Lemma mergeSeals_verifies vs h round st s ds :
  Size vs <= 2 ^ 32 -> len (as_Sealers s) <= 2 ^ 29 -> Forall (good_seal vs h round st) ds ->
  verifyAggregatedSeal vs h round s st = Ret tt ->
  verifyAggregatedSeal vs h round (mergeSeals s ds) st = Ret tt /\
  (forall j, j ∈ GetSealers (as_Sealers (mergeSeals s ds)) <-> j ∈ GetSealers (as_Sealers s) \/ j ∈ map sd_Sealer ds).
Proof.
  intros Hsz Hl Hds Hv. destruct ds as [|d ds]; [split; [done|set_solver]|]. unfold mergeSeals.
  set (all := d :: ds) in *. apply verify_sealed in Hv as [Hq Hsealed]; [|done].
  destruct (addExtraSeals_spec vs h round st all (as_Sealers s) [(GetSealers (as_Sealers s), as_Signature s)])
    as (s' & parts & Hrun & Hl' & Hpre & Hall & Hperm & Hsub); [done|done|done|by constructor|by cbn; rewrite app_nil_r|].
  cbn [map snd] in Hrun. rewrite Hrun.
  destruct (aggregate_sealed vs h round st parts (GetSealers s')) as (a & Ha & Hs'); [|done|done|].
  { intros ->. by cbn in Hpre. }
  rewrite Ha. split; [|done]. apply verify_sealed; [done|]. split; [|done]. cbn.
  etransitivity; [exact Hq|]. apply inj_le, NoDup_subseteq_length; [by apply NoDup_GetSealers|]. intros j Hj. apply Hsub. by left.
Qed.

(** * The two seals of a header *)

Lemma presentSeal_Some s e : len (as_Signature s) <> 0 -> presentSeal (Some s) e = Ret s.
Proof. intros Hl. cbn. by destruct (Z.eqb_spec (len (as_Signature s)) 0). Qed.

Lemma mapError_Ret {A} (m : Outcome EngineError A) e a : mapError m e = Ret a <-> m = Ret a.
Proof. by destruct m. Qed.

Lemma presentSeal_Ret o e s : presentSeal o e = Ret s -> o = Some s /\ len (as_Signature s) <> 0.
Proof.
  destruct o as [s'|]; cbn; [|done]. destruct (Z.eqb_spec (len (as_Signature s')) 0); [done|].
  by intros [= ->].
Qed.

Lemma verifySeals_Ret h vs x num :
  h_Number h = Some num -> big_Uint64 num <> 0 ->
  verifySeals h vs x = Ret tt <-> exists p c,
    we_PreparedSeal x = Some p /\ we_CommittedSeal x = Some c /\
    len (as_Signature p) <> 0 /\ len (as_Signature c) <> 0 /\
    verifyAggregatedSeal vs h (we_Round x) p SealTypePrepare = Ret tt /\
    verifyAggregatedSeal vs h (we_Round x) c SealTypeCommit = Ret tt.
Proof.
  intros Hnum Hne. unfold verifySeals. rewrite Hnum. cbn [must mbind Outcome_bind].
  destruct (Z.eqb_spec (big_Uint64 num) 0); [done|]. split.
  - intros Hrun. outcome_inv.
    repeat match goal with H : presentSeal _ _ = Ret _ |- _ => apply presentSeal_Ret in H as [? ?] end.
    repeat match goal with H : mapError _ _ = Ret _ |- _ => apply mapError_Ret in H end.
    by eexists _, _.
  - intros (p & c & -> & -> & Hp & Hc & Hvp & Hvc). rewrite !presentSeal_Some by done.
    unfold mbind, Outcome_bind. by rewrite Hvp, Hvc.
Qed.

(** * Quorums behind verified seals *)

Definition signers vs (s : WBFTAggregatedSeal) : list Address :=
  omap (fun i => val_address <$> GetByIndex vs i) (GetSealers (as_Sealers s)).

Lemma signers_quorum vs is_ :
  valset_ok vs -> NoDup is_ -> Forall (indexed vs) is_ -> QuorumSize vs <= len is_ ->
  is_quorum vs (omap (fun i => val_address <$> GetByIndex vs i) is_).
Proof.
  intros Hok Hnd Hf Hq.
  assert (omap (fun i => val_address <$> GetByIndex vs i) is_ = map (fun i => default 0 (val_address <$> GetByIndex vs i)) is_) as ->.
  { clear Hnd Hq. induction Hf as [|i l Hi _ IH]; [done|]. cbn.
    destruct (GetByIndex_Some vs i Hi) as [v Hv]. by rewrite Hv, IH. }
  split_and!; [| |by rewrite length_map].
  - apply NoDup_fmap_2_strong; [|done]. intros i j Hi Hj Heq.
    rewrite Forall_forall in Hf. pose proof (Hf i Hi) as Hi'. pose proof (Hf j Hj) as Hj'.
    destruct (GetByIndex_Some vs i Hi') as [v Hv]. destruct (GetByIndex_Some vs j Hj') as [w Hw].
    rewrite Hv, Hw in Heq. cbn in Heq. apply GetByIndex_lookup in Hv, Hw.
    pose proof (vs_nodup _ Hok) as Hnodup. unfold AddressList in Hnodup.
    assert (Z.to_nat i = Z.to_nat j) as Hij.
    { eapply (NoDup_lookup _ _ _ (val_address v)); [exact Hnodup|..]; rewrite list_lookup_fmap; [by rewrite Hv|by rewrite Hw, Heq]. }
    destruct Hi', Hj'. lia.
  - intros a (i & -> & Hi)%list_elem_of_fmap. rewrite Forall_forall in Hf.
    destruct (GetByIndex_Some vs i (Hf i Hi)) as [v Hv]. rewrite Hv. cbn.
    apply GetByIndex_lookup in Hv. apply list_elem_of_fmap. exists v. split; [done|]. by eapply list_elem_of_lookup_2.
Qed.

(** The seals that an accepted header carries. *)
Definition bitmaps_short (x : WBFTExtra) : Prop :=
  forall s, we_PreparedSeal x = Some s \/ we_CommittedSeal x = Some s -> len (as_Sealers s) <= 2 ^ 29.

Definition carries vs h (x : WBFTExtra) (p c : WBFTAggregatedSeal) : Prop :=
  we_PreparedSeal x = Some p /\ we_CommittedSeal x = Some c /\
  sealed vs h (we_Round x) SealTypePrepare (GetSealers (as_Sealers p)) (as_Signature p) /\
  sealed vs h (we_Round x) SealTypeCommit (GetSealers (as_Sealers c)) (as_Signature c) /\
  is_quorum vs (signers vs p) /\ is_quorum vs (signers vs c).

Lemma verifySeals_carries vs h x num :
  valset_ok vs -> h_Number h = Some num /\ 0 < num < 2 ^ 64 -> bitmaps_short x ->
  verifySeals h vs x = Ret tt -> exists p c, carries vs h x p c.
Proof.
  intros Hok [Hnum Hpos] Hshort Hv.
  apply (verifySeals_Ret h vs x num Hnum) in Hv as (p & c & Hp & Hc & _ & _ & Hvp & Hvc);
    [|rewrite big_Uint64_small; lia].
  pose proof (Hshort p (or_introl Hp)) as Hlp. pose proof (Hshort c (or_intror Hc)) as Hlc.
  apply verify_sealed in Hvp as [Hqp Hsp]; [|done]. apply verify_sealed in Hvc as [Hqc Hsc]; [|done].
  exists p, c. split_and!; try done; apply signers_quorum; try done; try (apply NoDup_GetSealers; done).
  - apply Hsp.
  - apply Hsc.
Qed.
End verify.

(** * Properties *)

(** C33. Seal round trip.  When the core hands the engine prepare and commit
    seals of a quorum of distinct validators, each valid for the proposed header
    and round, [CommitHeader] succeeds and every node that checks the resulting
    header against the same validator set accepts its seals; the block hash is
    still the one that was voted on. *)
Theorem commit_then_verify `{Cr : Crypto} `{Ag : !BlsAggregate} `{Laws : !BlsLaws}
    (vs : ValidatorSet) (h : Header) (x : WBFTExtra) (num round : Z) (ps cs : list SealData)
    (Hvs : Size vs <= 2 ^ 32) (Hnum : h_Number h = Some num) (Hpos : 0 < num < 2 ^ 64)
    (Hdiff : h_Difficulty h = Some WBFTDefaultDifficulty)
    (Hbytes : Forall is_byte (h_Extra h)) (Hlong : IstanbulExtraVanity <= Z.of_nat (length (h_Extra h)) < 2 ^ 63)
    (Hx : ExtractWBFTExtra h = inr x)
    (Hps : Forall (fun d => good_seal vs h (u32 (big_Uint64 round)) SealTypePrepare d /\
       Z.of_nat (length (sd_Seal d)) = IstanbulExtraSeal) ps)
    (Hcs : Forall (fun d => good_seal vs h (u32 (big_Uint64 round)) SealTypeCommit d /\
       Z.of_nat (length (sd_Seal d)) = IstanbulExtraSeal) cs)
    (Hdistinct : NoDup (map sd_Sealer ps) /\ NoDup (map sd_Sealer cs))
    (Hquorum : 0 < QuorumSize vs /\ QuorumSize vs <= Z.of_nat (length ps) /\ QuorumSize vs <= Z.of_nat (length cs)) :
  exists h' x', CommitHeader h ps cs round = Ret h' /\ ExtractWBFTExtra h' = inr x' /\
    verifySeals h' vs x' = Ret tt /\ header_Hash h' = header_Hash h.
Proof.
  destruct Hquorum as (Hq0 & Hq1 & Hq2). destruct Hdistinct as [Hnd1 Hnd2].
  destruct (aggregateSeal_verifies vs h _ _ ps Hvs ltac:(intros ->; cbn in Hq1; lia) Hnd1 Hq1 Hps) as (p & Hp & Hvp & Hlp).
  destruct (aggregateSeal_verifies vs h _ _ cs Hvs ltac:(intros ->; cbn in Hq2; lia) Hnd2 Hq2 Hcs) as (c & Hc & Hvc & Hlc).
  assert (Forall (fun d => 0 <= sd_Sealer d < 2 ^ 32) (ps ++ cs)) as Hidx.
  { apply Forall_app. split; (eapply Forall_impl; [eassumption|]); intros d [Hd%good_seal_index _]; unfold indexed in Hd; lia. }
  assert marshal_ok as Hm by (intros s; split; [apply marshal_bytes|apply marshal_length]).
  destruct (EncodeToBytes_total (extra_val (committed x p c round))) as [b Hb].
  { eapply committed_shape, (proj1 (commit_extra_ok h x Hbytes Hlong Hx)). }
  pose proof (CommitHeader_extra h x Hbytes Hlong Hx ps cs round p c b Hm Hidx Hp Hc Hb) as Hx'.
  destruct (committed_not_hashed h x Hbytes Hlong Hx b p c round Hx') as [Hseal Hhash].
  exists (set_h_Extra b h), (committed x p c round). split_and!; [|done| |by apply Hhash].
  - apply (CommitHeader_Ret h x p c b); try done; [apply getExtra_long; done || lia|..]; intros ->; cbn in *; lia.
  - apply (verifySeals_Ret _ _ _ num); [done|rewrite big_Uint64_small; lia|]. exists p, c.
    split_and!; try done; [by rewrite Hlp|by rewrite Hlc|..]; unfold verifyAggregatedSeal in *; by rewrite Hseal.
Qed.

(** C8. A sealed header carries two quorums.  Whatever header a node accepts the
    seals of, the prepare and the commit seal each verify for the header and its
    round under the aggregated keys of a quorum of the validator set; so of any
    two accepted headers of that set (two rounds, two forks), some correct
    validator signed the commit seal of both, for as long as at most
    [faulty] validators are not correct. *)
Theorem sealed_headers_share_signer `{Cr : Crypto} `{Ag : !BlsAggregate}
    (vs : ValidatorSet) (byz : list Address) (h1 h2 : Header) (x1 x2 : WBFTExtra) (n1 n2 : Z)
    (Hok : valset_ok vs) (Hbyz : Z.of_nat (length byz) <= faulty vs)
    (Hn1 : h_Number h1 = Some n1 /\ 0 < n1 < 2 ^ 64) (Hn2 : h_Number h2 = Some n2 /\ 0 < n2 < 2 ^ 64)
    (Hb1 : bitmaps_short x1) (Hb2 : bitmaps_short x2)
    (Hv1 : verifySeals h1 vs x1 = Ret tt) (Hv2 : verifySeals h2 vs x2 = Ret tt) :
  exists p1 c1 p2 c2,
    carries vs h1 x1 p1 c1 /\ carries vs h2 x2 p2 c2 /\
    exists a, a ∈ signers vs c1 /\ a ∈ signers vs c2 /\ a ∉ byz.
Proof.
  destruct (verifySeals_carries vs h1 x1 n1 Hok Hn1 Hb1 Hv1) as (p1 & c1 & H1).
  destruct (verifySeals_carries vs h2 x2 n2 Hok Hn2 Hb2 Hv2) as (p2 & c2 & H2).
  exists p1, c1, p2, c2. split_and!; [done|done|].
  apply (quorum_common vs byz); [done|done|apply H1|apply H2].
Qed.

(** Late seals.  Merging the prepare or commit seals that arrived after the
    decision into the aggregated seal of the parent keeps it valid and keeps
    every sealer; what is added are exactly the sealers of the seals handed in. *)
Theorem mergeSeals_sound `{Cr : Crypto} `{Ag : !BlsAggregate} `{Laws : !BlsLaws}
    (vs : ValidatorSet) (h : Header) (round : Z) (st : SealType) (s : WBFTAggregatedSeal) (ds : list SealData)
    (Hvs : Size vs <= 2 ^ 32) (Hs : Z.of_nat (length (as_Sealers s)) <= 2 ^ 29)
    (Hds : Forall (good_seal vs h round st) ds) (Hv : verifyAggregatedSeal vs h round s st = Ret tt) :
  verifyAggregatedSeal vs h round (mergeSeals s ds) st = Ret tt /\
  (forall i, i ∈ GetSealers (as_Sealers (mergeSeals s ds)) <->
     i ∈ GetSealers (as_Sealers s) \/ i ∈ map sd_Sealer ds).
Proof. by apply mergeSeals_verifies. Qed.
