(* ===== verification/SealWitness.v ===== *)
(** A concrete signature scheme that satisfies the contract of the BLS package,
    and sealed headers under it: instances of the theorems about seals. *)
From S2P Require Import Prelude Float64 Validators Messages Rlp RlpStream RlpSpec RlpLists Extra ExtraProps Header Seals SealProps SealVerify.

(** * A linear scheme

    Keys and signatures are numbers modulo [order]; the signature of a message
    is the product of the key and the message.  It is not secure, but it adds up
    the way BLS signatures do. *)
Module Linear.
Definition order : Z := 256 ^ 96.

Definition keysum (keys : list bytes) : Z := foldr Z.add 0 (map be_value keys).

Definition hash (b : bytes) : bytes := be_bytes 32 (fold_left (fun acc x => Z.land (acc * 31 + x) 0xffffffff) b 7).

#[export] Instance crypto : Crypto := {|
  Keccak256 := hash;
  SigToPub := fun _ sig => Some sig;
  PubkeyToAddress := be_value;
  blsPublicKey := Z;
  blsSignature := Z;
  PublicKeyFromBytes := fun k => Some (be_value k);
  SignatureFromBytes := fun s => if Nat.eqb (length s) 96 then Some (be_value s) else None;
  blsVerify := fun s pk m => (s - pk * be_value m) mod order =? 0;
|}.

#[export] Instance aggregate : BlsAggregate := {|
  AggregatePublicKeys := fun keys => match keys with [] => None | _ => Some (keysum keys) end;
  AggregateCompressedSignatures := fun seals =>
    match seals with
    | [] => None
    | _ => if forallb (fun s => Nat.eqb (length s) 96) seals then Some (keysum seals mod order) else None
    end;
  sigMarshal := fun s : blsSignature => be_bytes 96 s;
|}.

(** The seal of the holder of a key. *)
Definition sign (key : bytes) (m : bytes) : bytes := be_bytes 96 (be_value key * be_value m).

Lemma keysum_app l k : keysum (l ++ k) = keysum l + keysum k.
Proof. unfold keysum. induction l as [|x l IH]; [done|]. cbn in *. lia. Qed.

Lemma keysum_perm l k : l ≡ₚ k -> keysum l = keysum k.
Proof. unfold keysum. induction 1; cbn in *; lia. Qed.

Lemma valid_inv m keys s :
  validFor m keys s -> keys <> [] /\ length s = 96%nat /\ (order | be_value s - keysum keys * be_value m).
Proof.
  intros (pk & sig & Hpk & Hsig & Hv). cbn in *. destruct keys as [|k keys]; [done|].
  destruct (Nat.eqb_spec (length s) 96); [|done]. simplify_eq. apply Z.eqb_eq in Hv.
  split_and!; try done. apply Z.mod_divide; [unfold order; lia|done].
Qed.

Lemma valid_sum m (parts : list (list bytes * bytes)) :
  Forall (fun p => validFor m p.1 p.2) parts ->
  forallb (fun s => Nat.eqb (length s) 96) (map snd parts) = true /\
  (order | keysum (map snd parts) - keysum (concat (map fst parts)) * be_value m).
Proof.
  induction 1 as [|[keys s] parts Hp _ [IH1 IH2]]; [split; [done|by exists 0]|].
  apply valid_inv in Hp as (_ & Hl & Hd). cbn [map concat snd fst forallb] in *. rewrite Hl, IH1. split; [done|].
  rewrite keysum_app. change (keysum (s :: map snd parts)) with (be_value s + keysum (map snd parts)).
  replace (_ - _) with ((be_value s - keysum keys * be_value m) +
    (keysum (map snd parts) - keysum (concat (map fst parts)) * be_value m)) by ring.
  by apply Z.divide_add_r.
Qed.

#[export] Instance laws : BlsLaws.
Proof.
  split.
  - intros k. cbn. unfold keysum. cbn. by rewrite Z.add_0_r.
  - intros m parts keys Hne Hall Hperm. destruct (valid_sum m parts Hall) as [Hlen Hdiv].
    assert (keys <> []) as Hkeys.
    { intros ->. apply Permutation_nil in Hperm. destruct parts as [|[ks s] parts]; [done|].
      apply Forall_cons in Hall as [(Hks & _)%valid_inv _]. cbn in Hperm. by apply app_eq_nil in Hperm as [-> _]. }
    exists (keysum (map snd parts) mod order), (keysum keys).
    cbn [AggregateCompressedSignatures AggregatePublicKeys SignatureFromBytes sigMarshal blsVerify crypto aggregate].
    rewrite Hlen, length_be_bytes. split_and!; [by destruct parts| |by destruct keys|].
    + rewrite be_value_be_bytes by (apply Z.mod_pos_bound; unfold order; lia).
      by rewrite Z.mod_mod by (unfold order; lia).
    + apply Z.eqb_eq. rewrite (keysum_perm keys _ Hperm). rewrite Zminus_mod_idemp_l.
      apply Z.mod_divide; [unfold order; lia|done].
  - intros a. cbn [sigMarshal aggregate]. by rewrite length_be_bytes.
  - intros a. apply be_bytes_byte.
Qed.

Lemma sign_valid key m :
  Forall is_byte key -> Forall is_byte m -> validFor m [key] (sign key m).
Proof.
  intros [Hk _]%be_value_range [Hm _]%be_value_range. exists (be_value key), (be_value (sign key m)).
  cbn [AggregatePublicKeys SignatureFromBytes blsVerify crypto aggregate].
  unfold sign. rewrite length_be_bytes. split_and!; [unfold keysum; cbn; by rewrite Z.add_0_r|done|].
  rewrite be_value_be_bytes by lia. apply Z.eqb_eq. rewrite Zminus_mod_idemp_l, Z.sub_diag. done.
Qed.
End Linear.
Import Linear.

(** * A sealed header *)

Definition demo_vals : ValidatorSet := NewSetByValidators (map (fun i => mkValidator (100 + i) [i; 2 * i]) [1; 2; 3; 4]) 0.

Definition demo_header : Header :=
  MkHeader 1 2 103 4 5 6 7 (Some WBFTDefaultDifficulty) (Some 12) 1000 21000 1700000000 sample_extra_bytes
    8 0 (Some 20000000000000) None None None None.

Definition demo_seal (st : SealType) (round i : Z) : SealData :=
  mkSealData i (sign (keyOf demo_vals i) (header_PrepareSeal demo_header round st)).
Definition demo_seals (st : SealType) (round : Z) : list SealData := map (demo_seal st round) [3; 0; 2].

Lemma demo_key i : 0 <= i < 4 -> Forall is_byte (keyOf demo_vals i).
Proof.
  intros Hi. assert (i = 0 \/ i = 1 \/ i = 2 \/ i = 3) as Hcases by lia.
  destruct Hcases as [->|[->|[->| ->]]]; apply (bool_decide_unpack _); vm_compute; exact I.
Qed.

Lemma demo_seal_good st round i : 0 <= i < 4 -> good_seal demo_vals demo_header round st (demo_seal st round i).
Proof.
  intros Hi. split; [by apply Forall_singleton|]. cbn [map demo_seal sd_Sealer sd_Seal].
  apply sign_valid; [by apply demo_key|apply be_bytes_byte].
Qed.

Lemma demo_seals_good st round :
  Forall (fun d => good_seal demo_vals demo_header round st d /\ Z.of_nat (length (sd_Seal d)) = IstanbulExtraSeal)
    (demo_seals st round).
Proof.
  apply Forall_forall. intros d (i & -> & Hi)%list_elem_of_fmap. split.
  - apply demo_seal_good. rewrite !elem_of_cons in Hi. destruct Hi as [->|[->|[->|Hi]]]; [lia..|by apply elem_of_nil in Hi].
  - cbn [demo_seal sd_Seal]. unfold sign. by rewrite length_be_bytes.
Qed.

Lemma demo_NoDup st round : NoDup (map sd_Sealer (demo_seals st round)).
Proof. apply (bool_decide_unpack (NoDup [3; 0; 2])). vm_compute. exact I. Qed.

Lemma commit_then_verify_witness :
  exists h' x', CommitHeader demo_header (demo_seals SealTypePrepare 2) (demo_seals SealTypeCommit 2) 2 = Ret h' /\
    ExtractWBFTExtra h' = inr x' /\ verifySeals h' demo_vals x' = Ret tt /\ header_Hash h' = header_Hash demo_header.
Proof.
  apply (commit_then_verify demo_vals demo_header sample_extra 12 2).
  - vm_compute. discriminate.
  - reflexivity.
  - lia.
  - reflexivity.
  - apply (bool_decide_unpack _). vm_compute. exact I.
  - vm_compute. split; [discriminate|reflexivity].
  - vm_compute. reflexivity.
  - apply demo_seals_good.
  - apply demo_seals_good.
  - split; apply demo_NoDup.
  - vm_compute. repeat split; discriminate.
Defined.

Definition demo_sealed (round : Z) : Header :=
  match CommitHeader demo_header (demo_seals SealTypePrepare round) (demo_seals SealTypeCommit round) round with
  | Ret h => h
  | _ => demo_header
  end.
Definition demo_extra (round : Z) : WBFTExtra :=
  match ExtractWBFTExtra (demo_sealed round) with inr x => x | inl _ => sample_extra end.

Lemma commit_keeps_hash_witness :
  header_Hash (demo_sealed 2) = header_Hash demo_header /\
  (forall r st, header_PrepareSeal (demo_sealed 2) r st = header_PrepareSeal demo_header r st) /\
  exists p c, aggregateSeal (demo_seals SealTypePrepare 2) = Ret p /\ aggregateSeal (demo_seals SealTypeCommit 2) = Ret c /\
    ExtractWBFTExtra (demo_sealed 2) = inr (committed sample_extra p c 2).
Proof.
  apply (commit_keeps_hash demo_header (demo_sealed 2) sample_extra (demo_seals SealTypePrepare 2) (demo_seals SealTypeCommit 2) 2).
  - apply (bool_decide_unpack _). vm_compute. exact I.
  - vm_compute. split; [discriminate|reflexivity].
  - reflexivity.
  - vm_compute. reflexivity.
  - intros s. split; [apply be_bytes_byte|]. cbn [sigMarshal aggregate]. rewrite length_be_bytes. reflexivity.
  - apply (bool_decide_unpack _). vm_compute. exact I.
  - vm_compute. reflexivity.
Defined.

Lemma demo_bitmaps round :
  match we_PreparedSeal (demo_extra round), we_CommittedSeal (demo_extra round) with
  | Some p, Some c => (len (as_Sealers p) <=? 2 ^ 29) && (len (as_Sealers c) <=? 2 ^ 29)
  | _, _ => false
  end = true -> bitmaps_short (demo_extra round).
Proof.
  intros H s [Hs|Hs]; rewrite Hs in H; [destruct (we_CommittedSeal _)|destruct (we_PreparedSeal _)]; try discriminate H;
    apply andb_true_iff in H as [H1 H2]; by apply Z.leb_le.
Qed.

Lemma sealed_headers_share_signer_witness :
  exists p1 c1 p2 c2,
    carries demo_vals (demo_sealed 2) (demo_extra 2) p1 c1 /\ carries demo_vals (demo_sealed 5) (demo_extra 5) p2 c2 /\
    exists a, a ∈ signers demo_vals c1 /\ a ∈ signers demo_vals c2 /\ a ∉ [104].
Proof.
  apply (sealed_headers_share_signer demo_vals [104] (demo_sealed 2) (demo_sealed 5) (demo_extra 2) (demo_extra 5) 12 12).
  - split; [by vm_compute|by vm_compute|apply (bool_decide_unpack _); vm_compute; exact I].
  - vm_compute. discriminate.
  - split; [vm_compute; reflexivity|lia].
  - split; [vm_compute; reflexivity|lia].
  - apply demo_bitmaps. vm_compute. reflexivity.
  - apply demo_bitmaps. vm_compute. reflexivity.
  - vm_compute. reflexivity.
  - vm_compute. reflexivity.
Defined.

Definition demo_aggregate : WBFTAggregatedSeal :=
  match aggregateSeal (demo_seals SealTypeCommit 2) with Ret s => s | _ => AggregatedSeal [] [] end.

Lemma mergeSeals_sound_witness :
  verifyAggregatedSeal demo_vals demo_header 2 (mergeSeals demo_aggregate [demo_seal SealTypeCommit 2 1]) SealTypeCommit = Ret tt /\
  (forall i, i ∈ GetSealers (as_Sealers (mergeSeals demo_aggregate [demo_seal SealTypeCommit 2 1])) <->
     i ∈ GetSealers (as_Sealers demo_aggregate) \/ i ∈ map sd_Sealer [demo_seal SealTypeCommit 2 1]).
Proof.
  apply (mergeSeals_sound demo_vals demo_header 2 SealTypeCommit demo_aggregate [demo_seal SealTypeCommit 2 1]).
  - vm_compute. discriminate.
  - vm_compute. discriminate.
  - apply Forall_singleton, demo_seal_good. lia.
  - vm_compute. reflexivity.
Defined.
