(* ===== verification/BaseFee.v ===== *)
(** Base fee and gas limit rules (src/consensus/misc/eip1559/eip1559.go,
    src/consensus/misc/gaslimit.go). *)
From S2P Require Import Prelude Validators Messages Rlp RlpStream Extra Config ChainConfig Header.

(** [big.Int.Div] panics for a zero divisor; divisors here are not negative. *)
Definition bigDiv (x y : Z) : Outcome EngineError Z := if y =? 0 then Panic else Ret (x / y).

Definition VerifyGaslimit (parentGasLimit headerGasLimit : Z) : Outcome EngineError unit :=
  let diff := i64 (i64 parentGasLimit - i64 headerGasLimit) in
  let diff := if diff <? 0 then i64 (diff * -1) else diff in
  let limit := parentGasLimit / GasLimitBoundDivisor in
  _ ← reject (limit <=? u64 diff) ErrGasLimitBound;
  reject (headerGasLimit <? MinGasLimit) ErrGasLimitMin.

Definition calcBaseFeeDelta (parentBaseFee rate : Z) : Z :=
  let delta := parentBaseFee * rate / 100 in
  if delta =? 0 then 1 else delta.

(** The two branches of [CalcBaseFee]. *)
Definition anzeonBaseFee (parent : Header) : Outcome EngineError Z :=
  let increasingTarget := u64 (h_GasLimit parent * IncreasingThreshold) / 100 in
  let decreasingTarget := u64 (h_GasLimit parent * DecreasingThreshold) / 100 in
  baseFee ← must (h_BaseFee parent);
  if increasingTarget <? h_GasUsed parent then
    let baseFee := baseFee + calcBaseFeeDelta baseFee BaseFeeChangeRate in
    Ret (if negb (MaxBaseFee =? 0) && (MaxBaseFee <? baseFee) then MaxBaseFee else baseFee)
  else if h_GasUsed parent <? decreasingTarget then
    let baseFee := baseFee - calcBaseFeeDelta baseFee BaseFeeChangeRate in
    Ret (if baseFee <? MinBaseFee then MinBaseFee else baseFee)
  else Ret baseFee.

Definition londonBaseFee (parent : Header) : Outcome EngineError Z :=
  let parentGasTarget := h_GasLimit parent / ElasticityMultiplier in
  baseFee ← must (h_BaseFee parent);
  if h_GasUsed parent =? parentGasTarget then Ret baseFee
  else if parentGasTarget <? h_GasUsed parent then
    num ← bigDiv ((h_GasUsed parent - parentGasTarget) * baseFee) parentGasTarget;
    num ← bigDiv num BaseFeeChangeDenominator;
    if num <? 1 then Ret (baseFee + 1) else Ret (baseFee + num)
  else
    num ← bigDiv ((parentGasTarget - h_GasUsed parent) * baseFee) parentGasTarget;
    num ← bigDiv num BaseFeeChangeDenominator;
    let baseFee := baseFee - num in
    Ret (if baseFee <? 0 then 0 else baseFee).

Definition CalcBaseFee (config : ChainConfig) (parent : Header) : Outcome EngineError Z :=
  if negb (IsLondon config (h_Number parent)) then Ret InitialBaseFee
  else if AnzeonEnabled config then anzeonBaseFee parent
  else londonBaseFee parent.

Definition VerifyEIP1559Header (config : ChainConfig) (parent header : Header) : Outcome EngineError unit :=
  let parentGasLimit :=
    if negb (IsLondon config (h_Number parent)) then u64 (h_GasLimit parent * ElasticityMultiplier)
    else h_GasLimit parent in
  _ ← VerifyGaslimit parentGasLimit (h_GasLimit header);
  baseFee ← orFail (h_BaseFee header) ErrMissingBaseFee;
  expectedBaseFee ← CalcBaseFee config parent;
  reject (negb (baseFee =? expectedBaseFee)) ErrInvalidBaseFee.

(** * Gas limit *)

(** Between limits below 2^63 the signed difference does not wrap. *)
Lemma VerifyGaslimit_spec p g :
  0 <= p <= MaxGasLimit -> 0 <= g <= MaxGasLimit ->
  VerifyGaslimit p g = Ret tt <-> Z.abs (p - g) < p / 1024 /\ MinGasLimit <= g.
Proof.
  unfold MaxGasLimit. intros Hp Hg. unfold VerifyGaslimit, GasLimitBoundDivisor.
  rewrite (i64_small p), (i64_small g), (i64_small (p - g)) by lia. split.
  - intros Hrun. outcome_inv. zify_bools.
    destruct (Z.ltb_spec (p - g) 0); [rewrite (i64_small (_ * -1)) in * by lia|]; rewrite u64_small in * by lia; lia.
  - intros [Hd Hm]. destruct (Z.ltb_spec g MinGasLimit); [lia|].
    assert (u64 (if p - g <? 0 then i64 ((p - g) * -1) else p - g) = Z.abs (p - g)) as ->.
    { destruct (Z.ltb_spec (p - g) 0); [rewrite (i64_small (_ * -1)) by lia|]; rewrite u64_small by lia; lia. }
    by destruct (Z.leb_spec (p / 1024) (Z.abs (p - g))); [lia|].
Qed.

(** * Base fee *)

Definition fee_in_range (fee : Z) : Prop := MinBaseFee <= fee <= MaxBaseFee.

Lemma calcBaseFeeDelta_range fee : fee_in_range fee -> calcBaseFeeDelta fee BaseFeeChangeRate = fee / 50 /\ 0 < fee / 50.
Proof.
  unfold fee_in_range, MinBaseFee, MaxBaseFee, calcBaseFeeDelta, BaseFeeChangeRate. intros Hfee.
  assert (fee * 2 / 100 = fee / 50) as ->.
  { replace 100 with (50 * 2) by lia. by rewrite Z.div_mul_cancel_r. }
  assert (0 < fee / 50) by (apply Z.div_str_pos; lia). by destruct (Z.eqb_spec (fee / 50) 0); [lia|].
Qed.

(** What the rule does to a fee in range, for a fee [fee] and the next one [n]. *)
Definition fee_rule (parent : Header) (fee n : Z) : Prop :=
  let up := u64 (h_GasLimit parent * IncreasingThreshold) / 100 in
  let down := u64 (h_GasLimit parent * DecreasingThreshold) / 100 in
  (up < h_GasUsed parent -> n = Z.min MaxBaseFee (fee + fee / 50)) /\
  (h_GasUsed parent <= up -> h_GasUsed parent < down -> n = Z.max MinBaseFee (fee - fee / 50)) /\
  (h_GasUsed parent <= up -> down <= h_GasUsed parent -> n = fee).

Lemma anzeonBaseFee_spec parent fee :
  h_BaseFee parent = Some fee -> fee_in_range fee ->
  exists n, anzeonBaseFee parent = Ret n /\ fee_in_range n /\ fee_rule parent fee n.
Proof.
  intros Hfee Hr. destruct (calcBaseFeeDelta_range fee Hr) as [Hd Hpos].
  unfold anzeonBaseFee, fee_rule. rewrite Hfee. outcome_run. cbv zeta. rewrite Hd.
  set (up := _ / 100). set (down := u64 (_ * DecreasingThreshold) / 100).
  unfold fee_in_range, MinBaseFee, MaxBaseFee in *. assert (0 <= fee / 50 <= fee) by (split; [lia|apply Z.div_le_upper_bound; lia]).
  destruct (Z.ltb_spec up (h_GasUsed parent)); [|destruct (Z.ltb_spec (h_GasUsed parent) down)]; eexists; (split; [done|]).
  - cbn [Z.eqb negb andb]. destruct (Z.ltb_spec 20000000000000000 (fee + fee / 50)); split_and!; lia.
  - destruct (Z.ltb_spec (fee - fee / 50) 20000000000000); split_and!; lia.
  - split_and!; lia.
Qed.

(** Headers in which each follows the EIP-1559 rules from the one before. *)
Fixpoint follows (config : ChainConfig) (parent : Header) (headers : list Header) : Prop :=
  match headers with
  | [] => True
  | h :: headers => VerifyEIP1559Header config parent h = Ret tt /\ follows config h headers
  end.

Lemma VerifyEIP1559Header_fee config parent header fee :
  AnzeonEnabled config = true -> IsLondon config (h_Number parent) = true ->
  h_BaseFee parent = Some fee -> fee_in_range fee -> VerifyEIP1559Header config parent header = Ret tt ->
  exists n, h_BaseFee header = Some n /\ fee_in_range n /\ fee_rule parent fee n /\
    VerifyGaslimit (h_GasLimit parent) (h_GasLimit header) = Ret tt.
Proof.
  intros Ha Hl Hfee Hr Hv. destruct (anzeonBaseFee_spec parent fee Hfee Hr) as (n & Hn & Hrange & Hrule).
  unfold VerifyEIP1559Header, CalcBaseFee in Hv. rewrite Hl, Ha, Hn in Hv. cbn [negb] in Hv.
  outcome_inv. zify_bools. simplify_eq. by eexists.
Qed.

(** * Properties *)

(** C35. Base fee of a StableNet chain.  From a London block whose base fee is
    within the protocol's bounds, every block that the EIP-1559 check accepts,
    however long the chain, again has a base fee within the bounds: 2% more than
    its parent's when the parent used more than the increasing threshold of its
    gas limit (or the maximum), 2% less when it used less than the decreasing
    threshold (or the minimum), and the same otherwise.  The thresholds are computed
    in 64 bits, as the code does. *)
Theorem baseFee_bounded (config : ChainConfig) (parent : Header) (fee : Z) (headers : list Header)
    (Ha : AnzeonEnabled config = true) (Hfee : h_BaseFee parent = Some fee) (Hrange : fee_in_range fee)
    (Hl : Forall (fun h => IsLondon config (h_Number h) = true) (parent :: headers))
    (Hv : follows config parent headers) :
  Forall (fun h => exists n, h_BaseFee h = Some n /\ fee_in_range n) headers /\
  (forall i p h, (parent :: headers) !! i = Some p -> headers !! i = Some h ->
     exists m n, h_BaseFee p = Some m /\ h_BaseFee h = Some n /\ fee_rule p m n).
Proof.
  revert parent fee Hfee Hrange Hl Hv. induction headers as [|h headers IH]; intros parent fee Hfee Hrange Hl Hv; [done|].
  destruct Hv as [Hv Hvs]. apply Forall_cons in Hl as [Hp Hl].
  destruct (VerifyEIP1559Header_fee config parent h fee Ha Hp Hfee Hrange Hv) as (n & Hn & Hnr & Hrule & _).
  destruct (IH h n Hn Hnr Hl Hvs) as [IH1 IH2]. split; [constructor; eauto|].
  intros [|i] p h' Hp' Hh'; [|by apply (IH2 i)]. injection Hp' as <-. injection Hh' as <-. eauto.
Qed.

Definition demo_config : ChainConfig := londonConfig 8283 (Some (mkAnzeon [] [] None)).
Definition demo_block (num used fee : Z) : Header :=
  MkHeader 0 0 0 0 0 0 0 (Some 1) (Some num) 105000000 used 0 [] 0 0 (Some fee) None None None None.

Lemma baseFee_bounded_witness :
  let headers := [demo_block 2 0 20400000000000; demo_block 3 10000000 20000000000000; demo_block 4 1 20000000000000] in
  Forall (fun h => exists n, h_BaseFee h = Some n /\ fee_in_range n) headers /\
  (forall i p h, (demo_block 1 30000000 20000000000000 :: headers) !! i = Some p -> headers !! i = Some h ->
     exists m n, h_BaseFee p = Some m /\ h_BaseFee h = Some n /\ fee_rule p m n).
Proof.
  apply (baseFee_bounded demo_config (demo_block 1 30000000 20000000000000) 20000000000000).
  - reflexivity.
  - reflexivity.
  - vm_compute. split; discriminate.
  - repeat constructor.
  - vm_compute. repeat split.
Defined.

(** Gas limits.  A London header that the EIP-1559 check accepts has a gas
    limit of at least the minimum that differs from its parent's by less than one
    1024th of it: the 64-bit difference does not wrap for limits that
    [verifyHeader] admits. *)
Theorem gasLimit_bounded (config : ChainConfig) (parent header : Header)
    (Hl : IsLondon config (h_Number parent) = true)
    (Hp : 0 <= h_GasLimit parent <= MaxGasLimit) (Hh : 0 <= h_GasLimit header <= MaxGasLimit)
    (Hv : VerifyEIP1559Header config parent header = Ret tt) :
  Z.abs (h_GasLimit parent - h_GasLimit header) < h_GasLimit parent / 1024 /\ MinGasLimit <= h_GasLimit header.
Proof.
  apply VerifyGaslimit_spec; [done|done|]. unfold VerifyEIP1559Header in Hv. rewrite Hl in Hv. cbn [negb] in Hv.
  outcome_inv. done.
Qed.

Lemma gasLimit_bounded_witness :
  Z.abs (105000000 - 105000000) < 105000000 / 1024 /\ MinGasLimit <= 105000000.
Proof.
  apply (gasLimit_bounded demo_config (demo_block 1 30000000 20000000000000) (demo_block 2 0 20400000000000)).
  - reflexivity.
  - vm_compute. split; discriminate.
  - vm_compute. split; discriminate.
  - vm_compute. reflexivity.
Defined.

(** The products [GasLimit * threshold] are computed in 64 bits.  For a gas limit
    that the checks admit they can wrap: with a limit of 2^62, a block that used
    one unit of gas counts as above the increasing threshold. *)
Theorem gasTarget_wraps :
  let parent := MkHeader 0 0 0 0 0 0 0 (Some 1) (Some 1) (2 ^ 62) 1 0 [] 0 0 (Some MinBaseFee) None None None None in
  h_GasLimit parent <= MaxGasLimit /\ CalcBaseFee demo_config parent = Ret (MinBaseFee + MinBaseFee / 50).
Proof. by vm_compute. Qed.
