(* ===== verification/StateUtil.v ===== *)
(** Contract storage (src/systemcontracts/stateutil.go and the readers of
    src/systemcontracts/gov_validator.go): where Solidity keeps mappings, arrays,
    enumerable sets and byte strings. *)
From S2P Require Import Prelude Validators Messages Rlp RlpStream RlpSpec Extra Config ChainConfig Header.

(** [common.BytesToHash], [common.BigToHash] and [common.BytesToAddress]: cropped
    from the left. *)
Definition BytesToHash (b : bytes) : Hash := be_value (drop (length b - 32) b).
Definition BigToHash (b : Z) : Hash := BytesToHash (big_Bytes (Z.abs b)).
Definition BytesToAddress (b : bytes) : Address := be_value (drop (length b - 20) b).
Definition LeftPadBytes (slice : bytes) (l : nat) : bytes :=
  if (l <=? length slice)%nat then slice else replicate (l - length slice) 0 ++ slice.

(** [StateReader.GetState], and [StateDB.SetState]. *)
Abbreviation StateReader := (Address -> Hash -> Hash).
Definition SetState (state : StateReader) (addr : Address) (key value : Hash) : StateReader :=
  fun a k => if bool_decide (a = addr /\ k = key) then value else state a k.

(** [params.StateParam] and the loop over [st.States] of [processFinalize]. *)
Record StateParam := mkStateParam { sp_Address : Address; sp_Key : Hash; sp_Value : Hash }.
Definition applyStates (state : StateReader) (sp : list StateParam) : StateReader :=
  fold_left (fun st s => SetState st (sp_Address s) (sp_Key s) (sp_Value s)) sp state.

Definition SLOT_VALIDATOR_validators : Hash := 0x33.
Definition SLOT_VALIDATOR_validatorToBlsKey : Hash := 0x37.
Definition SLOT_VALIDATOR_gasTip : Hash := 0x39.

Section slots.
Context `{Crypto}.

Definition CalculateMappingSlot (baseSlot : Hash) (key : bytes) : Hash :=
  BytesToHash (Keccak256 (LeftPadBytes key 32 ++ hashBytes baseSlot)).

Definition CalculateDynamicSlot (baseSlot : bytes) (index : Z) : Hash :=
  let arrayStartSlot := be_value (Keccak256 (LeftPadBytes baseSlot 32)) in
  BigToHash (arrayStartSlot + index).

Definition IncrementHash (baseSlot : Hash) (increment : Z) : Hash := BigToHash (baseSlot + increment).

(** * Enumerable sets of addresses *)

Record EnumerableSet := mkEnumerableSet { indexSlot : Hash; valueSlot : Hash }.
Definition NewEnumerableSet (baseSlot : Hash) : EnumerableSet :=
  mkEnumerableSet (IncrementHash baseSlot 1) baseSlot.
Definition HashToAddress (hash : Hash) : Address := BytesToAddress (hashBytes hash).

Definition es_Length (es : EnumerableSet) (state : StateReader) (address : Address) : Z :=
  big_Uint64 (state address (valueSlot es)).
Definition es_Contains (es : EnumerableSet) (state : StateReader) (address : Address) (value : bytes) : bool :=
  0 <? state address (CalculateMappingSlot (indexSlot es) value).
Definition es_At (es : EnumerableSet) (state : StateReader) (address : Address) (index : Z) : Address :=
  HashToAddress (state address (CalculateDynamicSlot (hashBytes (valueSlot es)) index)).
Definition es_Values (es : EnumerableSet) (state : StateReader) (address : Address) : list Address :=
  map (es_At es state address) (seqZ 0 (es_Length es state address)).

(** * Byte strings *)

(** The loop of [GetBytes]; [None] when the fuel is used up. *)
Fixpoint getChunks (fuel : nat) (state : StateReader) (contractAddress : Address) (baseSlot : Hash)
    (bytesLength i : Z) (bytesData : bytes) : option bytes :=
  match fuel with
  | O => None
  | S fuel =>
      let currentSlot := CalculateDynamicSlot (hashBytes baseSlot) i in
      let slotData := state contractAddress currentSlot in
      let bytesData := bytesData ++ hashBytes slotData in
      if bytesLength <=? Z.of_nat (length bytesData) then Some bytesData
      else getChunks fuel state contractAddress baseSlot bytesLength (i + 1) bytesData
  end.

(** One iteration per 32 bytes, and one at least. *)
Definition chunkFuel (bytesLength : Z) : nat := S (Z.to_nat ((bytesLength + 31) / 32)).

(** [None] is the panic of slicing out of range. *)
Definition GetBytes (stateDB : StateReader) (contractAddress : Address) (baseSlot : Hash) : option bytes :=
  let storageValue := stateDB contractAddress baseSlot in
  if storageValue =? 0 then Some []
  else
    let last := Z.land storageValue 0xff in
    if Z.land last 1 =? 0 then
      let bytesLength := Z.shiftr last 1 in
      if bytesLength <=? 32 then Some (take (Z.to_nat bytesLength) (hashBytes storageValue)) else None
    else
      let bytesLength := big_Int64 (Z.shiftr storageValue 1) in
      bytesData ← getChunks (chunkFuel bytesLength) stateDB contractAddress baseSlot bytesLength 0 [];
      if bytesLength <? 0 then None else Some (take (Z.to_nat bytesLength) bytesData).

Definition chunkHash (data : bytes) (i : nat) : Hash :=
  let chunk := take 32 (drop (i * 32) data) in
  be_value (chunk ++ replicate (32 - length chunk) 0).

Definition VarLenBytesToMultipleHash (data : bytes) : list Hash :=
  match data with
  | [] => [0]
  | _ =>
      if Z.of_nat (length data) <=? 31 then
        [be_value (data ++ replicate (31 - length data) 0 ++ [u8 (Z.shiftl (Z.of_nat (length data)) 1)])]
      else
        let lengthHash := Z.lor (Z.shiftl (Z.of_nat (length data)) 1) 1 in
        let numSlots := ((length data + 31) / 32)%nat in
        lengthHash :: map (chunkHash data) (seq 0 numSlots)
  end.

(** [value[0]] panics for an empty slice, which no encoding is. *)
Definition MakeMultipleParam (govValidatorAddress : Address) (baseSlot : Hash) (value : list Hash) : list StateParam :=
  match value with
  | [] => []
  | v :: value =>
      mkStateParam govValidatorAddress baseSlot v ::
      imap (fun i v => mkStateParam govValidatorAddress (CalculateDynamicSlot (hashBytes baseSlot) (Z.of_nat i)) v) value
  end.

(** The chunk loop of [EncodeBytesToSlots] fills a map. *)
Definition EncodeBytesToSlots (baseSlot : Hash) (data : bytes) : gmap Hash Hash :=
  match data with
  | [] => {[ baseSlot := 0 ]}
  | _ =>
      if Z.of_nat (length data) <=? 31 then
        {[ baseSlot := BytesToHash (data ++ replicate (31 - length data) 0 ++ [u8 (Z.shiftl (Z.of_nat (length data)) 1)]) ]}
      else
        let numChunks := ((length data + 31) / 32)%nat in
        fold_left (fun slots i =>
          <[CalculateDynamicSlot (hashBytes baseSlot) (Z.of_nat i) :=
            let chunk := take 32 (drop (i * 32) data) in BytesToHash (chunk ++ replicate (32 - length chunk) 0)]> slots)
          (seq 0 numChunks)
          {[ baseSlot := BigToHash (Z.shiftl (Z.of_nat (length data)) 1 + 1) ]}
  end.

(** * The GovValidator contract *)

Definition ValidatorList (govValidatorAddress : Address) (state : StateReader) : list Address :=
  es_Values (NewEnumerableSet SLOT_VALIDATOR_validators) state govValidatorAddress.

Definition GetBLSPublicKey (govValidatorAddress : Address) (state : StateReader) (val : Address) : option bytes :=
  GetBytes state govValidatorAddress (CalculateMappingSlot SLOT_VALIDATOR_validatorToBlsKey (addressBytes val)).

Definition GetGasTip (govValidatorAddress : Address) (state : StateReader) : Z :=
  state govValidatorAddress SLOT_VALIDATOR_gasTip.
End slots.

(** * Numbers and bytes *)

Lemma be_value_zeros n bs : be_value (replicate n 0 ++ bs) = be_value bs.
Proof. induction n as [|n IH]; [done|]. cbn [replicate app]. rewrite be_value_cons. lia. Qed.

Lemma be_value_app a b : be_value (a ++ b) = be_value a * 256 ^ Z.of_nat (length b) + be_value b.
Proof.
  induction a as [|x a IH]; [done|]. cbn [app]. rewrite !be_value_cons, IH, length_app, Nat2Z.inj_add, Z.pow_add_r by lia. ring.
Qed.

Lemma be_value_drop b n : Forall is_byte b -> be_value (drop (length b - n) b) = be_value b mod 256 ^ Z.of_nat n.
Proof.
  intros Hb. rewrite <- (take_drop (length b - n) b) at 3. rewrite be_value_app, length_drop.
  pose proof (be_value_range _ (Forall_drop _ (length b - n) _ Hb)) as Hr. rewrite length_drop in Hr.
  destruct (decide (n <= length b)%nat).
  - replace (length b - (length b - n))%nat with n in * by lia. rewrite Z.add_comm, Z.mod_add by lia. by rewrite Z.mod_small.
  - replace (length b - n)%nat with 0%nat in * by lia. cbn [take drop] in *. rewrite Z.mul_0_l, Z.add_0_l, Z.mod_small; [done|].
    split; [lia|]. eapply Z.lt_le_trans; [apply Hr|]. apply Z.pow_le_mono_r; lia.
Qed.

Lemma BytesToHash_spec b : Forall is_byte b -> BytesToHash b = be_value b mod 2 ^ 256.
Proof. intros Hb. unfold BytesToHash. by rewrite be_value_drop. Qed.

Lemma BigToHash_spec x : 0 <= x -> BigToHash x = x mod 2 ^ 256.
Proof.
  intros Hx. unfold BigToHash. rewrite BytesToHash_spec by apply big_Bytes_byte.
  by rewrite Z.abs_eq, big_Bytes_value by done.
Qed.

Lemma hashBytes_be_value b : Forall is_byte b -> length b = 32%nat -> hashBytes (be_value b) = b.
Proof. intros Hb Hl. unfold hashBytes. rewrite <- Hl. by apply be_bytes_be_value. Qed.

Lemma zeros_byte n : Forall is_byte (replicate n 0).
Proof. apply Forall_replicate. unfold is_byte. lia. Qed.

(** * Slots of a byte string *)

Section strings.
Context `{Crypto} (Hkeccak : forall b, Forall is_byte (Keccak256 b)).
Context (addr : Address) (base : Hash).

Abbreviation dyn := (fun i => CalculateDynamicSlot (hashBytes base) i).

Lemma dyn_spec i : 0 <= i -> dyn i = (be_value (Keccak256 (LeftPadBytes (hashBytes base) 32)) + i) mod 2 ^ 256.
Proof.
  intros Hi. unfold CalculateDynamicSlot. apply BigToHash_spec.
  pose proof (be_value_range _ (Hkeccak (LeftPadBytes (hashBytes base) 32))). lia.
Qed.

Lemma dyn_inj i j : 0 <= i < 2 ^ 256 -> 0 <= j < 2 ^ 256 -> dyn i = dyn j -> i = j.
Proof.
  intros Hi Hj. rewrite !dyn_spec by lia. set (k := be_value _). intros Heq.
  apply (f_equal (fun x => (x - k) mod 2 ^ 256)) in Heq. rewrite !Zminus_mod_idemp_l in Heq.
  replace (k + i - k) with i in Heq by ring. replace (k + j - k) with j in Heq by ring.
  by rewrite !Z.mod_small in Heq.
Qed.

Lemma chunk_bytes data i :
  Forall is_byte data -> hashBytes (chunkHash data i) =
  take 32 (drop (i * 32) data) ++ replicate (32 - length (take 32 (drop (i * 32) data))) 0.
Proof.
  intros Hd. unfold chunkHash. apply hashBytes_be_value.
  - apply Forall_app. split; [by apply Forall_take, Forall_drop|apply zeros_byte].
  - rewrite length_app, length_replicate, length_take. lia.
Qed.

(** The loop collects the whole string, with its fuel. *)
Lemma getChunks_spec (state : StateReader) data fuel i :
  Forall is_byte data ->
  (forall j, (j * 32 < length data)%nat -> state addr (dyn (Z.of_nat j)) = chunkHash data j) ->
  (i * 32 < length data)%nat -> (length data <= (fuel + i) * 32)%nat ->
  exists out, getChunks fuel state addr base (Z.of_nat (length data)) (Z.of_nat i) (take (i * 32) data) = Some out /\
    take (length data) out = data.
Proof.
  intros Hd Hst. revert i. induction fuel as [|fuel IH]; intros i Hi Hf; [lia|].
  cbn [getChunks]. rewrite Hst, chunk_bytes by done. set (chunk := take 32 _).
  assert (take (i * 32) data ++ chunk = take (S i * 32) data) as Htake.
  { unfold chunk. rewrite take_take_drop. f_equal. lia. }
  rewrite app_assoc, Htake, length_app, length_replicate.
  assert (length chunk = Nat.min 32 (length data - i * 32)) as Hc by (unfold chunk; by rewrite length_take, length_drop).
  assert (length (take (S i * 32) data) = Nat.min (S i * 32) (length data)) as Ht by apply length_take.
  destruct (Z.leb_spec (Z.of_nat (length data)) (Z.of_nat (length (take (S i * 32) data) + (32 - length chunk)))).
  - eexists. split; [done|]. rewrite (take_ge data (S i * 32)) by lia. by rewrite take_app_length.
  - replace (32 - length chunk)%nat with 0%nat by lia. cbn [replicate]. rewrite app_nil_r.
    replace (Z.of_nat i + 1) with (Z.of_nat (S i)) by lia. apply IH; lia.
Qed.

(** A state that holds what the parameters say. *)
Definition holds (state : StateReader) (sp : list StateParam) : Prop :=
  Forall (fun s => state (sp_Address s) (sp_Key s) = sp_Value s) sp.

Lemma short_slot data :
  Forall is_byte data -> (0 < length data <= 31)%nat ->
  let v := be_value (data ++ replicate (31 - length data) 0 ++ [u8 (Z.shiftl (Z.of_nat (length data)) 1)]) in
  v <> 0 /\ Z.land v 0xff = 2 * Z.of_nat (length data) /\ take (length data) (hashBytes v) = data.
Proof.
  intros Hd Hl. cbv zeta. rewrite Z.shiftl_mul_pow2, u8_small by lia. change (2 ^ 1) with 2.
  set (b := data ++ _). assert (Forall is_byte b) as Hb.
  { unfold b. apply Forall_app. split; [done|]. apply Forall_app. split; [apply zeros_byte|].
    apply Forall_singleton. unfold is_byte. lia. }
  assert (length b = 32%nat) as Hb32.
  { unfold b. rewrite !length_app, length_replicate. cbn [length]. lia. }
  assert (Z.land (be_value b) 0xff = 2 * Z.of_nat (length data)) as Hland.
  { change 0xff with (Z.ones 8). rewrite Z.land_ones by lia. unfold b. rewrite app_assoc, be_value_app.
    change (256 ^ Z.of_nat (length [Z.of_nat (length data) * 2])) with (2 ^ 8).
    change (be_value [Z.of_nat (length data) * 2]) with (0 * 256 + Z.of_nat (length data) * 2).
    rewrite Z.add_comm, Z.mod_add, Z.mod_small by lia. lia. }
  split_and!; [|done|by rewrite hashBytes_be_value; [apply take_app_length|..]].
  intros H0. rewrite H0 in Hland. rewrite Z.land_0_l in Hland. lia.
Qed.

Lemma long_slot n :
  31 < n < 2 ^ 62 -> let v := Z.lor (Z.shiftl n 1) 1 in
  v <> 0 /\ Z.land (Z.land v 0xff) 1 = 1 /\ big_Int64 (Z.shiftr v 1) = n.
Proof.
  intros Hn. cbv zeta. assert (Z.lor (Z.shiftl n 1) 1 = 2 * n + 1) as ->.
  { destruct n as [|p|p]; [lia|done|lia]. }
  split_and!; [lia| |].
  - rewrite <- Z.land_assoc. change (Z.land 0xff 1) with (Z.ones 1). rewrite Z.land_ones by lia.
    rewrite Z.add_comm, Z.mul_comm, Z.mod_add; done.
  - rewrite Z.shiftr_div_pow2 by lia. change (2 ^ 1) with 2. replace ((2 * n + 1) / 2) with n
      by (apply Z.div_unique with 1; lia).
    unfold big_Int64. destruct (Z.ltb_spec n 0); [lia|]. by rewrite Z.abs_eq, i64_small by lia.
Qed.

Lemma GetBytes_holds state data :
  Forall is_byte data -> Z.of_nat (length data) < 2 ^ 62 ->
  holds state (MakeMultipleParam addr base (VarLenBytesToMultipleHash data)) -> GetBytes state addr base = Some data.
Proof.
  intros Hd Hl Hst. unfold VarLenBytesToMultipleHash in Hst. destruct data as [|x data']; [|set (data := x :: data') in *].
  { apply Forall_cons in Hst as [Hst _]. cbn in Hst. unfold GetBytes. by rewrite Hst. }
  assert (0 < length data)%nat as Hpos by (unfold data; cbn; lia). unfold GetBytes.
  destruct (Z.leb_spec (Z.of_nat (length data)) 31) as [Hs|Hs].
  - apply Forall_cons in Hst as [Hst _]. cbn [sp_Address sp_Key sp_Value] in Hst. rewrite Hst.
    destruct (short_slot data Hd ltac:(lia)) as (H0 & H1 & H2). set (v := be_value _) in *.
    destruct (Z.eqb_spec v 0); [done|]. rewrite H1. rewrite Z.shiftr_div_pow2 by lia. change (2 ^ 1) with 2.
    rewrite (Z.mul_comm 2), Z.div_mul by lia. change 1 with (Z.ones 1). rewrite Z.land_ones by lia.
    change (2 ^ 1) with 2. rewrite Z.mod_mul by lia. cbn [Z.eqb].
    destruct (Z.leb_spec (Z.of_nat (length data)) 32); [|lia]. by rewrite Nat2Z.id, H2.
  - cbn [MakeMultipleParam] in Hst. apply Forall_cons in Hst as [Hbase Hst]. cbn [sp_Address sp_Key sp_Value] in Hbase.
    destruct (long_slot (Z.of_nat (length data)) ltac:(lia)) as (H0 & H1 & H2). rewrite Hbase. set (v := Z.lor _ 1) in *.
    destruct (Z.eqb_spec v 0); [done|]. rewrite H1, H2. cbn [Z.eqb].
    destruct (getChunks_spec state data (chunkFuel (Z.of_nat (length data))) 0) as (out & Hrun & Hout); [done| |lia| |].
    + intros j Hj. rewrite Forall_lookup in Hst.
      eapply (Hst j (mkStateParam addr (dyn (Z.of_nat j)) (chunkHash data j))).
      rewrite list_lookup_imap, list_lookup_fmap, lookup_seq_lt; [done|]. apply Nat.div_le_lower_bound; lia.
    + unfold chunkFuel. pose proof (Z.div_mod (Z.of_nat (length data) + 31) 32 ltac:(lia)).
      pose proof (Z.mod_pos_bound (Z.of_nat (length data) + 31) 32 ltac:(lia)). lia.
    + change (Z.of_nat 0) with 0 in Hrun. change (take (0 * 32) data) with (@nil Z) in Hrun. rewrite Hrun. cbn [mbind option_bind].
      destruct (Z.ltb_spec (Z.of_nat (length data)) 0); [lia|]. by rewrite Nat2Z.id, Hout.
Qed.

(** The parameters of a byte string have different keys. *)
Lemma MakeMultipleParam_NoDup value :
  Z.of_nat (length value) <= 2 ^ 256 ->
  (forall i, 0 <= i < Z.of_nat (length value) - 1 -> dyn i <> base) ->
  NoDup (map (fun s => (sp_Address s, sp_Key s)) (MakeMultipleParam addr base value)).
Proof.
  intros Hlen Hbase. destruct value as [|v value]; [by constructor|]. cbn [MakeMultipleParam map].
  cbn [length] in *. rewrite fmap_imap. unfold compose. cbn [sp_Address sp_Key]. apply NoDup_cons. split.
  - intros (i & Hi)%list_elem_of_lookup. rewrite list_lookup_imap in Hi.
    destruct (value !! i) as [w|] eqn:Hw; [|done]. injection Hi as Hi. apply lookup_lt_Some in Hw.
    by apply (Hbase (Z.of_nat i)); [lia|].
  - apply NoDup_alt. intros i j k. rewrite !list_lookup_imap.
    destruct (value !! i) eqn:Hi, (value !! j) eqn:Hj; try done. cbn. intros [= <-] [= Heq].
    apply lookup_lt_Some in Hi, Hj. apply dyn_inj in Heq; lia.
Qed.
End strings.

Lemma applyStates_other sp state a k :
  (a, k) ∉ map (fun s => (sp_Address s, sp_Key s)) sp -> applyStates state sp a k = state a k.
Proof.
  unfold applyStates. revert state. induction sp as [|s sp IH]; intros state Hn; [done|].
  cbn in *. apply not_elem_of_cons in Hn as [Hn1 Hn2]. rewrite IH by done. unfold SetState.
  rewrite bool_decide_eq_false_2; [done|]. intros [-> ->]. done.
Qed.

Lemma applyStates_holds sp state :
  NoDup (map (fun s => (sp_Address s, sp_Key s)) sp) -> holds (applyStates state sp) sp.
Proof.
  revert state. induction sp as [|s sp IH]; intros state; [constructor|]. cbn [map].
  intros [Hn Hnd]%NoDup_cons. constructor; [|by apply IH].
  change (applyStates state (s :: sp)) with (applyStates (SetState state (sp_Address s) (sp_Key s) (sp_Value s)) sp).
  rewrite (applyStates_other sp) by done. unfold SetState. by rewrite bool_decide_eq_true_2.
Qed.

Lemma length_VarLen data :
  VarLenBytesToMultipleHash data <> [] /\
  (length (VarLenBytesToMultipleHash data) <= S ((length data + 31) / 32))%nat.
Proof.
  unfold VarLenBytesToMultipleHash. destruct data as [|x data]; [split; [done|cbn [length]; lia]|].
  destruct (_ <=? 31); [split; [done|cbn [length]; lia]|]. split; [done|].
  cbn [length]. rewrite length_map, length_seq. cbn [length]. lia.
Qed.

(** * The two encoders *)

Lemma fold_insert_lookup {A} (f : A -> Hash) (g : A -> Hash) (l : list A) (m : gmap Hash Hash) k v :
  NoDup (map f l) ->
  fold_left (fun m i => <[f i := g i]> m) l m !! k = Some v <->
  (exists i, i ∈ l /\ f i = k /\ g i = v) \/ (k ∉ map f l /\ m !! k = Some v).
Proof.
  revert m. induction l as [|x l IH]; intros m Hnd; cbn [fold_left map].
  { split; [|by intros [(i & []%elem_of_nil & _)|[_ ?]]]. intros ?. right. split; [apply not_elem_of_nil|done]. }
  cbn [map] in Hnd. apply NoDup_cons in Hnd as [Hx Hnd]. rewrite IH by done. split.
  - intros [(i & Hi & <- & <-)|[Hk Hm]]; [left; exists i; split; [by right|done]|].
    destruct (decide (f x = k)) as [<-|Hne].
    + rewrite lookup_insert_eq in Hm. injection Hm as <-. left. exists x. split; [by left|done].
    + rewrite lookup_insert_ne in Hm by done. right. split; [|done]. by apply not_elem_of_cons.
  - intros [(i & [->|Hi]%elem_of_cons & <- & <-)|[[Hne Hk]%not_elem_of_cons Hm]].
    + right. split; [done|]. by rewrite lookup_insert_eq.
    + left. by exists i.
    + right. split; [done|]. by rewrite lookup_insert_ne.
Qed.

Lemma BytesToHash_32 b : Forall is_byte b -> length b = 32%nat -> BytesToHash b = be_value b.
Proof. intros Hb Hl. unfold BytesToHash. by rewrite Hl. Qed.

Lemma chunk_BytesToHash data i :
  Forall is_byte data ->
  (let chunk := take 32 (drop (i * 32) data) in BytesToHash (chunk ++ replicate (32 - length chunk) 0)) = chunkHash data i.
Proof.
  intros Hd. cbv zeta. apply BytesToHash_32.
  - apply Forall_app. split; [by apply Forall_take, Forall_drop|apply zeros_byte].
  - rewrite length_app, length_replicate, length_take. lia.
Qed.

Lemma length_BigToHash n : 0 <= n < 2 ^ 62 -> BigToHash (Z.shiftl n 1 + 1) = Z.lor (Z.shiftl n 1) 1.
Proof.
  intros Hn. rewrite Z.shiftl_mul_pow2 by lia. rewrite BigToHash_spec, Z.mod_small by lia.
  rewrite <- (Z.shiftl_mul_pow2 n 1) by lia. destruct n as [|p|p]; [done|done|lia].
Qed.

Lemma elem_of_imap_seq {A B} (f : nat -> A -> B) (g : nat -> A) n x :
  x ∈ imap f (map g (seq 0 n)) <-> exists i, i ∈ seq 0 n /\ x = f i (g i).
Proof.
  rewrite list_elem_of_lookup. setoid_rewrite list_lookup_imap. setoid_rewrite list_lookup_fmap. split.
  - intros (i & Hi). destruct (seq 0 n !! i) as [j|] eqn:Hj; [|done]. apply lookup_seq in Hj as [-> Hj].
    injection Hi as <-. exists i. split; [by apply elem_of_seq; lia|done].
  - intros (i & Hi%elem_of_seq & ->). exists i. rewrite lookup_seq_lt by lia. done.
Qed.

Lemma EncodeBytesToSlots_params `{Crypto} addr base data k v :
  (forall b, Forall is_byte (Keccak256 b)) ->
  Forall is_byte data -> Z.of_nat (length data) < 2 ^ 62 ->
  (forall i, 0 <= i < (Z.of_nat (length data) + 31) / 32 -> CalculateDynamicSlot (hashBytes base) i <> base) ->
  EncodeBytesToSlots base data !! k = Some v <->
  mkStateParam addr k v ∈ MakeMultipleParam addr base (VarLenBytesToMultipleHash data).
Proof.
  intros Hkeccak Hd Hl Hbase. unfold EncodeBytesToSlots, VarLenBytesToMultipleHash.
  destruct data as [|x data']; [|set (data := x :: data') in *].
  { cbn [MakeMultipleParam imap]. rewrite lookup_singleton_Some, list_elem_of_singleton. naive_solver. }
  destruct (Z.leb_spec (Z.of_nat (length data)) 31) as [Hs|Hs].
  - cbn [MakeMultipleParam imap]. rewrite lookup_singleton_Some, list_elem_of_singleton, BytesToHash_32; [naive_solver|..].
    + apply Forall_app. split; [done|]. apply Forall_app. split; [apply zeros_byte|]. apply Forall_singleton.
      unfold is_byte, u8. apply Z.mod_pos_bound. lia.
    + rewrite !length_app, length_replicate. cbn [length]. lia.
  - assert (Z.of_nat ((length data + 31) / 32) = (Z.of_nat (length data) + 31) / 32) as Hdiv.
    { rewrite Nat2Z.inj_div. f_equal. lia. }
    pose proof (Z.div_le_upper_bound (Z.of_nat (length data) + 31) 32 (2 ^ 62)).
    assert (forall i, i ∈ seq 0 ((length data + 31) / 32) -> 0 <= Z.of_nat i < (Z.of_nat (length data) + 31) / 32) as Hseq.
    { intros i Hi%elem_of_seq. lia. }
    rewrite fold_insert_lookup.
    + cbn [MakeMultipleParam]. rewrite elem_of_cons, elem_of_imap_seq, length_BigToHash, lookup_singleton_Some by lia. split.
      * intros [(i & Hi & <- & <-)|(Hk & <- & <-)]; [|by left]. right. exists i. by rewrite chunk_BytesToHash.
      * intros [[= -> ->]|(i & Hi & [= -> ->])]; [right|left; exists i; by rewrite chunk_BytesToHash].
        split; [|done]. intros (i & Hi & Hin)%list_elem_of_fmap. by apply (Hbase (Z.of_nat i)); [apply Hseq|].
    + apply NoDup_fmap_2_strong; [|apply NoDup_seq]. intros i j Hi Hj Heq. apply Hseq in Hi, Hj.
      apply (dyn_inj Hkeccak) in Heq; lia.
Qed.

(** * Properties *)

(** Byte strings in contract storage.  What the genesis writer stores for a
    byte string of any length (BLS keys are 48 bytes) is read back by
    [GetBytes], whatever the storage held before, and the loop over the chunks
    ends within its fuel; the slots are the ones that the second encoder,
    [EncodeBytesToSlots], computes.  The layout assumes, as Solidity does, that
    the hashed slots of the data do not hit the base slot. *)
Theorem storage_bytes_roundtrip `{Crypto} (state : StateReader) (addr : Address) (base : Hash) (data : bytes)
    (Hkeccak : forall b, Forall is_byte (Keccak256 b))
    (Hd : Forall is_byte data) (Hl : Z.of_nat (length data) < 2 ^ 62)
    (Hbase : forall i, 0 <= i < (Z.of_nat (length data) + 31) / 32 -> CalculateDynamicSlot (hashBytes base) i <> base) :
  let sp := MakeMultipleParam addr base (VarLenBytesToMultipleHash data) in
  GetBytes (applyStates state sp) addr base = Some data /\
  (forall k v, EncodeBytesToSlots base data !! k = Some v <-> mkStateParam addr k v ∈ sp).
Proof.
  split; [|intros k v; by apply EncodeBytesToSlots_params].
  destruct (length_VarLen data) as [_ Hlen]. assert (Z.of_nat ((length data + 31) / 32) = (Z.of_nat (length data) + 31) / 32) as Hdiv.
  { rewrite Nat2Z.inj_div. f_equal. lia. }
  pose proof (Z.div_le_upper_bound (Z.of_nat (length data) + 31) 32 (2 ^ 62)).
  apply GetBytes_holds; [done|done|]. apply applyStates_holds, MakeMultipleParam_NoDup; [done|lia|].
  intros i Hi. apply Hbase. lia.
Qed.
