(* ===== verification/StateDB.v ===== *)
(** Accounts (src/core/state/statedb.go, state_object.go;
    src/core/types/state_account.go) as the engine sees them: balances and
    flags.  The engine works between transactions, so an account is looked up in a
    finite map; the state with its journal is in StateJournal. *)
From S2P Require Import Prelude Validators Rlp Config ChainConfig Header Messages StateUtil AccountExtra.

(** * The state *)

(** [types.StateAccount]; the code hash and the storage root are not read here. *)
Record Account := mkAccount { ac_Nonce : Z; ac_Balance : Z; ac_Extra : Z }.
Definition NewEmptyStateAccount : Account := mkAccount 0 0 0.

Record StateDB := mkStateDB {
  sd_accounts : gmap Address Account;
  sd_storage : StateReader;
}.

Definition getStateObject (s : StateDB) (addr : Address) : option Account := sd_accounts s !! addr.
Definition getOrNewStateObject (s : StateDB) (addr : Address) : Account :=
  match getStateObject s addr with Some a => a | None => NewEmptyStateAccount end.
Definition putObject (s : StateDB) (addr : Address) (a : Account) : StateDB :=
  mkStateDB (<[addr := a]> (sd_accounts s)) (sd_storage s).

Definition GetBalance (s : StateDB) (addr : Address) : Z :=
  match getStateObject s addr with Some a => ac_Balance a | None => 0 end.

(** [AddBalance]: the object is created when it is missing; [uint256.Add] wraps. *)
Definition AddBalance (s : StateDB) (addr : Address) (amount : Z) : StateDB :=
  let a := getOrNewStateObject s addr in
  let balance := if amount =? 0 then ac_Balance a else (ac_Balance a + amount) mod 2 ^ 256 in
  putObject s addr (mkAccount (ac_Nonce a) balance (ac_Extra a)).

Definition IsBlacklisted (s : StateDB) (addr : Address) : bool :=
  match getStateObject s addr with Some a => extra_IsBlacklisted (ac_Extra a) | None => false end.

(** * Balances *)

Lemma GetBalance_AddBalance s addr amount a :
  GetBalance (AddBalance s addr amount) a =
  if bool_decide (a = addr) then (if amount =? 0 then GetBalance s addr else (GetBalance s addr + amount) mod 2 ^ 256)
  else GetBalance s a.
Proof.
  unfold GetBalance, AddBalance, getOrNewStateObject, getStateObject, putObject. cbn. case_bool_decide as Ha.
  - subst. rewrite lookup_insert_eq. by destruct (sd_accounts s !! addr).
  - by rewrite lookup_insert_ne by done.
Qed.
