(* ===== verification/Epoch.v ===== *)
(** Epochs (src/consensus/wbft/engine/engine.go): which blocks carry epoch
    information, how the engine finds the epoch of a block, and the validators of
    a block. *)
From S2P Require Import Prelude Validators Messages Rlp RlpStream Extra Config ChainConfig Header Seals StateUtil StateDB.

(** [consensus.ChainHeaderReader]. *)
Record Chain := mkChain {
  ch_Config : ChainConfig;
  GetHeader : Hash -> Z -> option Header;
  GetHeaderByNumber : Z -> option Header;
  GetHeaderByHash : Hash -> option Header;
  StateAt : Hash -> option StateDB;
}.

(** [Engine]: the configuration, the signing address and the two callbacks
    ([None] and [false] are errors). *)
Record Engine := NewEngine {
  eng_cfg : Config;
  eng_signer : Address;
  eng_sign : bytes -> option bytes;
  eng_checkSig : bytes -> Address -> bytes -> bool;
}.

Abbreviation Eng := (Outcome EngineError).

(** The loop of [IsEpochBlockNumber]: the first block and the length of the
    epochs that [number] belongs to. *)
Fixpoint epochStart (transitions : list Transition) (number firstNewEpoch epochLength : Z) : Z * Z :=
  match transitions with
  | [] => (firstNewEpoch, epochLength)
  | t :: transitions =>
      if number <? tr_Block t then (firstNewEpoch, epochLength)
      else if tr_EpochLength t =? 0 then epochStart transitions number firstNewEpoch epochLength
      else epochStart transitions number (tr_Block t) (tr_EpochLength t)
  end.

(** [big.Int.Rem] is truncated and panics for 0. *)
Definition IsEpochBlockNumber (e : Engine) (number : Z) : Eng (bool * Z) :=
  let '(firstNewEpoch, epochLength) := epochStart (Transitions (eng_cfg e)) number 0 (Epoch (eng_cfg e)) in
  if epochLength =? 0 then Panic
  else let rem := Z.rem (number - firstNewEpoch) epochLength in Ret (rem =? 0, number - rem).

Definition extractEpochInfo (epochHeader : Header) : Eng (option Z * EpochInfo) :=
  epochExtra ← rlp_result (ExtractWBFTExtra epochHeader);
  info ← orFail (we_EpochInfo epochExtra) ErrEpochInfoIsNil;
  mret (h_Number epochHeader, info).

(** The loop of [getEpochInfo] once the hint [parents] is used up ... *)
Fixpoint walkChain (fuel : nat) (chain : Chain) (epochNum : Z) (parentHash : Hash) (parentNumber : Z) : Eng Header :=
  match fuel with
  | O => Fail OutOfFuelWalk
  | S fuel =>
      block ← orFail (GetHeader chain parentHash parentNumber) ErrUnknownAncestor;
      num ← must (h_Number block);
      if epochNum =? num then Ret block
      else walkChain fuel chain epochNum (h_ParentHash block) (u64 (big_Uint64 num - 1))
  end.
(** ... and before, from the last parent to the first. *)
Fixpoint walkParents (chain : Chain) (epochNum : Z) (rparents : list Header) (parentHash : Hash) (parentNumber : Z) : Eng Header :=
  match rparents with
  | [] => walkChain (S (S (Z.to_nat parentNumber))) chain epochNum parentHash parentNumber
  | block :: rparents =>
      num ← must (h_Number block);
      if epochNum =? num then Ret block
      else walkParents chain epochNum rparents (h_ParentHash block) (u64 (big_Uint64 num - 1))
  end.

Definition getEpochInfo (e : Engine) (chain : Chain) (blockNumber : Z) (parentHash : Hash) (parents : list Header)
  : Eng (option Z * EpochInfo) :=
  let parentNumber := u64 (big_Uint64 blockNumber - 1) in
  '(_, epochNum) ← IsEpochBlockNumber e parentNumber;
  match GetHeaderByNumber chain (big_Uint64 epochNum) with
  | Some epochHeader => extractEpochInfo epochHeader
  | None =>
      block ← walkParents chain epochNum (rev parents) parentHash parentNumber;
      extractEpochInfo block
  end.

Definition GetEpochInfo (e : Engine) (chain : Chain) (header : Header) (parents : list Header)
  : Eng (option Z * EpochInfo) :=
  num ← must (h_Number header);
  if num =? 0 then extractEpochInfo header
  else getEpochInfo e chain num (h_ParentHash header) parents.

Definition GetValidators (e : Engine) (chain : Chain) (blockNumber : Z) (parentHash : Hash) (parents : list Header)
  : Eng ValidatorSet :=
  if blockNumber =? 0 then
    anzeon ← must (Anzeon (ch_Config chain));
    keys ← must (GetInitialBLSPublicKeys anzeon);
    must (NewSet (init_Validators anzeon) keys (ProposerPolicy (eng_cfg e)))
  else
    '(_, epochInfo) ← getEpochInfo e chain blockNumber parentHash parents;
    must (NewSet (epoch_GetValidators (Some epochInfo)) (ei_BLSPublicKeys epochInfo)
            (ProposerPolicy (GetConfig (eng_cfg e) blockNumber))).

Definition PrepareSigners (e : Engine) (chain : Chain) (header : Header) : Eng (list Address) :=
  extra ← rlp_result (ExtractWBFTExtra header);
  '(_, epochInfo) ← GetEpochInfo e chain header [];
  getSignerAddress epochInfo (we_PreparedSeal extra).

Definition CommitSigners (e : Engine) (chain : Chain) (header : Header) : Eng (list Address) :=
  extra ← rlp_result (ExtractWBFTExtra header);
  '(_, epochInfo) ← GetEpochInfo e chain header [];
  getSignerAddress epochInfo (we_CommittedSeal extra).
