(* ===== verification/EpochProps.v ===== *)
(** Every block has one epoch, found along the chain in finitely many steps. *)
From Stdlib Require Import Sorted.
From S2P Require Import Prelude Validators Messages Rlp RlpStream Extra Config ChainConfig Header Seals StateUtil StateDB Epoch.

(** * Epoch boundaries *)

(** What the configuration check and the construction of the engine ensure. *)
Record epochs_ok (cfg : Config) : Prop := {
  ep_positive : 0 < Epoch cfg;
  ep_blocks : Forall (fun t => 0 <= tr_Block t /\ 0 <= tr_EpochLength t) (Transitions cfg);
  ep_sorted : StronglySorted (fun a b => tr_Block a <= tr_Block b) (Transitions cfg);
}.

Lemma epochStart_source ts n f l f' l' :
  epochStart ts n f l = (f', l') -> (f', l') = (f, l) \/ exists t, t ∈ ts /\ f' = tr_Block t.
Proof.
  revert f l. induction ts as [|t ts IH]; intros f l Hs; cbn in Hs; [by left|].
  destruct (n <? tr_Block t); [by left|]. destruct (tr_EpochLength t =? 0).
  - destruct (IH _ _ Hs) as [?|(u & Hu & ->)]; [by left|]. right. exists u. split; [by right|done].
  - destruct (IH _ _ Hs) as [[= -> ->]|(u & Hu & ->)]; right; [exists t; split; [by left|done]|exists u; split; [by right|done]].
Qed.

Lemma epochStart_stable ts n f l f' l' :
  Forall (fun t => 0 <= tr_EpochLength t) ts -> Forall (fun t => f <= tr_Block t) ts ->
  StronglySorted (fun a b => tr_Block a <= tr_Block b) ts ->
  f <= n -> 0 < l -> epochStart ts n f l = (f', l') ->
  f <= f' <= n /\ 0 < l' /\ forall m, f' <= m <= n -> epochStart ts m f l = (f', l').
Proof.
  intros Hlen. revert f l. induction Hlen as [|t ts Ht Hts IH]; intros f l Hf Hsort Hn Hl Hs; cbn in Hs |- *.
  { injection Hs as <- <-. split_and!; try lia. done. }
  apply Forall_cons in Hf as [Hft Hfs]. apply StronglySorted_inv in Hsort as [Hsort Hle].
  destruct (Z.ltb_spec n (tr_Block t)).
  { injection Hs as <- <-. split_and!; try lia. intros m Hm. by destruct (Z.ltb_spec m (tr_Block t)); [|lia]. }
  destruct (Z.eqb_spec (tr_EpochLength t) 0) as [H0|H0].
  - destruct (IH f l Hfs Hsort Hn Hl Hs) as (H1 & H2 & H3). split_and!; try lia. intros m Hm.
    destruct (Z.ltb_spec m (tr_Block t)); [|by apply H3].
    destruct (epochStart_source _ _ _ _ _ _ Hs) as [?|(u & Hu & ->)]; [done|].
    rewrite Forall_forall in Hle. specialize (Hle u Hu). lia.
  - destruct (IH (tr_Block t) (tr_EpochLength t)) as (H1 & H2 & H3); try done; try lia.
    split_and!; try lia. intros m Hm. destruct (Z.ltb_spec m (tr_Block t)); [lia|]. by apply H3.
Qed.

(** The epoch block of a height, as [IsEpochBlockNumber] computes it. *)
Lemma IsEpochBlockNumber_spec e n :
  epochs_ok (eng_cfg e) -> 0 <= n ->
  exists last, IsEpochBlockNumber e n = Ret (last =? n, last) /\ 0 <= last <= n /\
    forall m, last <= m <= n -> IsEpochBlockNumber e m = Ret (last =? m, last).
Proof.
  intros [Hpos Hts Hsort] Hn.
  destruct (epochStart (Transitions (eng_cfg e)) n 0 (Epoch (eng_cfg e))) as [f l] eqn:Hs.
  assert (Forall (fun t => 0 <= tr_EpochLength t) (Transitions (eng_cfg e)) /\
          Forall (fun t => 0 <= tr_Block t) (Transitions (eng_cfg e))) as [Hlen Hblk].
  { split; (eapply Forall_impl; [exact Hts|]); cbn; lia. }
  destruct (epochStart_stable _ _ _ _ _ _ Hlen Hblk Hsort Hn Hpos Hs) as (Hf & Hl & Hst).
  pose proof (Z.mod_pos_bound (n - f) l Hl) as Hrem. pose proof (Z.mod_le (n - f) l ltac:(lia) Hl) as Hrle.
  assert (forall m, n - (n - f) mod l <= m <= n -> IsEpochBlockNumber e m = Ret (n - (n - f) mod l =? m, n - (n - f) mod l)) as Hall.
  { intros m Hm. unfold IsEpochBlockNumber. rewrite Hst by lia. destruct (Z.eqb_spec l 0); [lia|].
    rewrite Z.rem_mod_nonneg by lia. assert ((m - f) mod l = m - (n - (n - f) mod l)) as ->.
    { symmetry. apply (Z.mod_unique _ _ ((n - f) / l)); [lia|]. pose proof (Z.div_mod (n - f) l ltac:(lia)). lia. }
    f_equal. f_equal; [|lia]. destruct (Z.eqb_spec (m - (n - (n - f) mod l)) 0), (Z.eqb_spec (n - (n - f) mod l) m); done || lia. }
  exists (n - (n - f) mod l). split_and!; [apply Hall; lia|lia|lia|done].
Qed.

(** * Walking to the epoch block *)

(** [GetHeader] and [GetHeaderByNumber] return headers of the given number. *)
Record chain_ok (chain : Chain) : Prop := {
  ck_header : forall hash n h, GetHeader chain hash n = Some h -> h_Number h = Some n;
  ck_canonical : forall n h, GetHeaderByNumber chain n = Some h -> h_Number h = Some n;
}.

Lemma walkChain_spec chain epochNum fuel hash n :
  chain_ok chain -> 0 <= epochNum <= n -> n < 2 ^ 64 -> n - epochNum < Z.of_nat fuel ->
  (exists b, walkChain fuel chain epochNum hash n = Ret b /\ h_Number b = Some epochNum) \/
  walkChain fuel chain epochNum hash n = Fail ErrUnknownAncestor.
Proof.
  intros Hok. revert hash n. induction fuel as [|fuel IH]; intros hash n Hn Hn64 Hf; [lia|]. cbn [walkChain].
  destruct (GetHeader chain hash n) as [b|] eqn:Hb; [|by right].
  pose proof (ck_header _ Hok _ _ _ Hb) as Hnum. outcome_run. rewrite Hnum. outcome_run.
  destruct (Z.eqb_spec epochNum n) as [->|Hne]; [left; by exists b|].
  rewrite big_Uint64_small, u64_small by lia. apply IH; lia.
Qed.

(** The heights whose epoch block is [last]. *)
Definition epochOf (e : Engine) (last n : Z) : Prop :=
  0 <= last <= n /\ IsEpochBlockNumber e last = Ret (true, last) /\
  forall m, last < m <= n -> IsEpochBlockNumber e m = Ret (false, last).

Lemma epochOf_exists e n :
  epochs_ok (eng_cfg e) -> 0 <= n -> exists last, IsEpochBlockNumber e n = Ret (last =? n, last) /\ epochOf e last n.
Proof.
  intros Hok Hn. destruct (IsEpochBlockNumber_spec e n Hok Hn) as (last & Hrun & Hr & Hall). exists last.
  split; [done|]. split_and!; [lia|lia|rewrite Hall, Z.eqb_refl by lia; done|].
  intros m Hm. rewrite Hall by lia. by destruct (Z.eqb_spec last m); [lia|].
Qed.

Lemma getEpochInfo_header e chain n hash last :
  chain_ok chain -> 0 < n < 2 ^ 64 -> epochOf e last (n - 1) ->
  IsEpochBlockNumber e (n - 1) = Ret (last =? n - 1, last) ->
  (exists b, getEpochInfo e chain n hash [] = extractEpochInfo b /\ h_Number b = Some last) \/
  getEpochInfo e chain n hash [] = Fail ErrUnknownAncestor.
Proof.
  intros Hok Hn [Hlast _] Hrun. unfold getEpochInfo. rewrite big_Uint64_small, u64_small, Hrun by lia. outcome_run.
  rewrite big_Uint64_small by lia. destruct (GetHeaderByNumber chain last) as [b|] eqn:Hb.
  { left. exists b. split; [done|]. by eapply ck_canonical. }
  cbn [rev walkParents].
  destruct (walkChain_spec chain last (S (S (Z.to_nat (n - 1)))) hash (n - 1)) as [(b & -> & Hnum)| ->]; try done; try lia.
  - left. by exists b.
  - by right.
Qed.

Lemma epochOf_number e last n m :
  epochOf e last n -> last <= m <= n -> IsEpochBlockNumber e m = Ret (last =? m, last).
Proof.
  intros (_ & Hlast & Hrest) Hm. destruct (Z.eqb_spec last m) as [->|Hne]; [done|]. apply Hrest. lia.
Qed.

Lemma getEpochInfo_canonical e chain last n hash b :
  epochOf e last (n - 1) -> last < n < 2 ^ 64 -> GetHeaderByNumber chain last = Some b ->
  getEpochInfo e chain n hash [] = extractEpochInfo b.
Proof.
  intros Hep Hn Hb. pose proof (proj1 Hep). unfold getEpochInfo. rewrite big_Uint64_small, u64_small by lia.
  rewrite (epochOf_number e last (n - 1) (n - 1) Hep) by lia. outcome_run. rewrite big_Uint64_small by lia. by rewrite Hb.
Qed.

(** * Properties *)

(** The epoch of a block.  Every block after genesis has one epoch block, the
    last block at or below its parent that [IsEpochBlockNumber] accepts (across
    changes of the epoch length); the search for it returns the epoch
    information of a header of that number or reports an unknown ancestor, and
    never runs on; and all blocks of the epoch get the same answer once the epoch
    block is canonical. *)
Theorem epoch_of_block (e : Engine) (chain : Chain) (header : Header) (n : Z)
    (Hcfg : epochs_ok (eng_cfg e)) (Hchain : chain_ok chain)
    (Hnum : h_Number header = Some n) (Hn : 0 < n < 2 ^ 64) :
  exists last, epochOf e last (n - 1) /\
    ((exists b, h_Number b = Some last /\ GetEpochInfo e chain header [] = extractEpochInfo b) \/
     GetEpochInfo e chain header [] = Fail ErrUnknownAncestor) /\
    (forall h' m, h_Number h' = Some m -> last < m <= n -> GetHeaderByNumber chain last <> None ->
       GetEpochInfo e chain h' [] = GetEpochInfo e chain header []).
Proof.
  destruct (epochOf_exists e (n - 1) Hcfg ltac:(lia)) as (last & Hrun & Hep). exists last.
  assert (forall h m, h_Number h = Some m -> 0 < m -> GetEpochInfo e chain h [] = getEpochInfo e chain m (h_ParentHash h) []) as Hget.
  { intros h m Hh Hm. unfold GetEpochInfo. rewrite Hh. outcome_run. by destruct (Z.eqb_spec m 0); [lia|]. }
  rewrite (Hget header n) by (done || lia). split_and!; [done| |].
  - destruct (getEpochInfo_header e chain n (h_ParentHash header) last Hchain Hn Hep Hrun) as [(b & Hb & Hbn)|Hfail];
      [left; by exists b|by right].
  - intros h' m Hm Hrange Hcanon. destruct (GetHeaderByNumber chain last) as [b|] eqn:Hb; [|done].
    pose proof (proj1 Hep). rewrite (Hget h' m) by (done || lia).
    rewrite (getEpochInfo_canonical e chain last n _ b) by (done || lia).
    apply (getEpochInfo_canonical e chain last); [|lia|done]. destruct Hep as (H1 & H2 & H3). split_and!; [lia|lia|done|].
    intros k Hk. apply H3. lia.
Qed.
