(* ===== verification/Rewards.v ===== *)
(** Base fee rewards ([distributeBaseFee] of src/consensus/wbft/engine/engine.go):
    the fee of a block is shared among the validators in proportion to their
    diligence, the rest goes to the proposer. *)
From S2P Require Import Prelude Validators Messages Rlp RlpStream Extra Config ChainConfig Header StateUtil StateDB Epoch.

(** [uint256.FromBig]: [None] is overflow. *)
Definition u256_FromBig (x : Z) : option Z := if 2 ^ 256 <=? Z.abs x then None else Some (x mod 2 ^ 256).

(** The first pass: every index is in range; the sum of the diligence. *)
Fixpoint sumDiligence (candidates : list Candidate) (validators : list Z) (diligenceSum : Z) : Eng Z :=
  match validators with
  | [] => Ret diligenceSum
  | candidateIdx :: validators =>
      _ ← reject (Z.of_nat (length candidates) <=? candidateIdx) ErrCandidateIndex;
      candidate ← must (candidates !! Z.to_nat candidateIdx);
      sumDiligence candidates validators (u64 (diligenceSum + cd_Diligence candidate))
  end.

(** The second pass pays the shares. *)
Fixpoint payShares (candidates : list Candidate) (validators : list Z) (totalBaseFee totalDiligence : Z)
    (dust : Z) (state : StateDB) : Eng (Z * StateDB) :=
  match validators with
  | [] => Ret (dust, state)
  | candidateIdx :: validators =>
      candidate ← must (candidates !! Z.to_nat candidateIdx);
      let share := totalBaseFee * cd_Diligence candidate / totalDiligence in
      if share =? 0 then payShares candidates validators totalBaseFee totalDiligence dust state
      else
        let dust := dust - share in
        shareU256 ← orFail (u256_FromBig share) ErrShareOverflow;
        payShares candidates validators totalBaseFee totalDiligence dust (AddBalance state (cd_Addr candidate) shareU256)
  end.

Definition distributeBaseFee (e : Engine) (chain : Chain) (header : Header) (state : StateDB) : Eng StateDB :=
  if h_GasUsed header =? 0 then Ret state
  else
    num ← must (h_Number header);
    if num =? 0 then Ret state
    else
      baseFee ← orFail (h_BaseFee header) ErrNilBaseFee;
      '(_, epochInfo) ← GetEpochInfo e chain header [];
      let totalBaseFee := baseFee * h_GasUsed header in
      let candidates := ei_Candidates epochInfo in
      let validators := ei_Validators epochInfo in
      diligenceSum ← sumDiligence candidates validators 0;
      '(dust, state) ←
        (if negb (diligenceSum =? 0) then payShares candidates validators totalBaseFee diligenceSum totalBaseFee state
         else Ret (totalBaseFee, state));
      _ ← reject (dust <? 0) ErrNegativeDust;
      if negb (dust =? 0) then
        dustU256 ← orFail (u256_FromBig dust) ErrDustOverflow;
        mret (AddBalance state (h_Coinbase header) dustU256)
      else Ret state.

(** * Money supply *)

Definition supply (s : StateDB) : Z := map_fold (fun _ a acc => ac_Balance a + acc) 0 (sd_accounts s).

Definition solvent (s : StateDB) : Prop := map_Forall (fun _ a => 0 <= ac_Balance a) (sd_accounts s).

Definition sumBalances (m : gmap Address Account) : Z := map_fold (fun _ a acc => ac_Balance a + acc) 0 m.

Lemma sumBalances_insert m a acct : m !! a = None -> sumBalances (<[a := acct]> m) = ac_Balance acct + sumBalances m.
Proof. intros Hm. unfold sumBalances. rewrite map_fold_insert_L; [done|intros; lia|done]. Qed.

Lemma supply_put s a acct : supply (putObject s a acct) = supply s - GetBalance s a + ac_Balance acct.
Proof.
  change (sumBalances (<[a := acct]> (sd_accounts s)) = sumBalances (sd_accounts s) - GetBalance s a + ac_Balance acct).
  unfold GetBalance, getStateObject. destruct (sd_accounts s !! a) as [old|] eqn:Ha.
  - rewrite <- insert_delete_eq, sumBalances_insert by apply lookup_delete_eq.
    rewrite <- (insert_delete_id (sd_accounts s) a old) at 2 by done.
    rewrite sumBalances_insert by apply lookup_delete_eq. lia.
  - rewrite sumBalances_insert by done. lia.
Qed.

Lemma supply_nonneg s : solvent s -> 0 <= supply s.
Proof.
  unfold solvent. change (supply s) with (sumBalances (sd_accounts s)). generalize (sd_accounts s) as m. intros m.
  induction m as [|i x m Hi IH] using map_ind; intros Hs.
  - done.
  - apply map_Forall_insert in Hs as [Hx Hs]; [|done].
    rewrite sumBalances_insert by done. specialize (IH Hs). lia.
Qed.

Lemma GetBalance_le_supply s a : solvent s -> 0 <= GetBalance s a <= supply s.
Proof.
  intros Hs. unfold GetBalance, getStateObject. destruct (sd_accounts s !! a) as [x|] eqn:Ha.
  - pose proof (Hs a x Ha) as Hx. split; [done|].
    pose proof (supply_put s a (mkAccount 0 0 0)) as Hput. unfold GetBalance, getStateObject in Hput. rewrite Ha in Hput.
    assert (solvent (putObject s a (mkAccount 0 0 0))) as Hs'.
    { unfold solvent, putObject. cbn. by apply map_Forall_insert_2. }
    apply supply_nonneg in Hs'. cbn in Hput. lia.
  - pose proof (supply_nonneg s Hs). lia.
Qed.

Lemma AddBalance_money s a x :
  solvent s -> 0 <= x -> supply s + x < 2 ^ 256 ->
  solvent (AddBalance s a x) /\ supply (AddBalance s a x) = supply s + x /\
  forall b, GetBalance (AddBalance s a x) b = GetBalance s b + (if bool_decide (b = a) then x else 0).
Proof.
  intros Hs Hx Hsup. pose proof (GetBalance_le_supply s a Hs) as Hb.
  assert (ac_Balance (getOrNewStateObject s a) = GetBalance s a) as Hbal.
  { unfold getOrNewStateObject, GetBalance. by destruct (getStateObject s a). }
  assert ((if x =? 0 then GetBalance s a else (GetBalance s a + x) mod 2 ^ 256) = GetBalance s a + x) as Hnew.
  { destruct (Z.eqb_spec x 0); [lia|]. apply Z.mod_small. lia. }
  split_and!.
  - unfold AddBalance, solvent, putObject. cbn [sd_accounts]. apply map_Forall_insert_2; [|done].
    cbn [ac_Balance]. rewrite Hbal, Hnew. lia.
  - unfold AddBalance. rewrite supply_put. cbn [ac_Balance]. rewrite Hbal, Hnew. lia.
  - intros b. rewrite GetBalance_AddBalance, Hnew. case_bool_decide; [by subst|lia].
Qed.

(** * Shares *)

Definition diligenceOf (cs : list Candidate) (i : Z) : Z := default 0 (cd_Diligence <$> cs !! Z.to_nat i).
Definition total (l : list Z) : Z := foldr Z.add 0 l.

(** What a validator set pays to an address. *)
Definition shareOf (cs : list Candidate) (fee D i : Z) : Z := fee * diligenceOf cs i / D.
Definition paidTo (cs : list Candidate) (fee D : Z) (vs : list Z) (a : Address) : Z :=
  total (map (fun i => if bool_decide (cd_Addr <$> cs !! Z.to_nat i = Some a) then shareOf cs fee D i else 0) vs).

Lemma sumDiligence_spec cs vs acc :
  Forall (fun i => 0 <= i < Z.of_nat (length cs) /\ 0 <= diligenceOf cs i) vs -> 0 <= acc ->
  acc + total (map (diligenceOf cs) vs) < 2 ^ 64 ->
  sumDiligence cs vs acc = Ret (acc + total (map (diligenceOf cs) vs)).
Proof.
  intros Hvs. revert acc. induction Hvs as [|i vs [Hi Hd] Hvs IH]; intros acc Ha Hlt; cbn [sumDiligence map total foldr] in *.
  { f_equal. lia. }
  destruct (Z.leb_spec (Z.of_nat (length cs)) i); [lia|]. outcome_run.
  destruct (lookup_lt_is_Some_2 cs (Z.to_nat i) ltac:(lia)) as [c Hc]. rewrite Hc. outcome_run.
  assert (diligenceOf cs i = cd_Diligence c) as Hdi by (unfold diligenceOf; by rewrite Hc). rewrite Hdi in *.
  assert (0 <= total (map (diligenceOf cs) vs)) as Htot.
  { clear -Hvs. induction Hvs as [|j vs [_ Hj] _ IH]; cbn; [done|]. unfold total in IH. lia. }
  unfold total in *. rewrite u64_small by lia. rewrite IH by lia. f_equal. lia.
Qed.

Definition in_range (cs : list Candidate) (i : Z) : Prop := 0 <= i < Z.of_nat (length cs) /\ 0 <= diligenceOf cs i.

Lemma total_shares cs fee D vs :
  0 < D ->
  D * total (map (shareOf cs fee D) vs) <= fee * total (map (diligenceOf cs) vs) <=
  D * total (map (shareOf cs fee D) vs) + D * Z.of_nat (length vs) - Z.of_nat (length vs).
Proof.
  intros HD. induction vs as [|i vs IH]; [cbn; lia|]. cbn [map total foldr length] in *. unfold total in IH.
  pose proof (Z.div_mod (fee * diligenceOf cs i) D ltac:(lia)) as Hdm.
  pose proof (Z.mod_pos_bound (fee * diligenceOf cs i) D HD) as Hm. unfold shareOf at 1 3.
  rewrite Nat2Z.inj_succ. nia.
Qed.

Lemma share_nonneg cs fee D i : 0 <= fee -> 0 < D -> 0 <= diligenceOf cs i -> 0 <= shareOf cs fee D i.
Proof. intros Hf HD Hd. unfold shareOf. apply Z.div_pos; nia. Qed.

Lemma total_nonneg (f : Z -> Z) l : Forall (fun i => 0 <= f i) l -> 0 <= total (map f l).
Proof. induction 1 as [|i l Hi _ IH]; cbn; [done|]. unfold total in IH. lia. Qed.

Lemma payShares_spec cs fee D vs dust s :
  0 <= fee -> 0 < D -> Forall (in_range cs) vs -> solvent s ->
  supply s + total (map (shareOf cs fee D) vs) < 2 ^ 256 ->
  exists s', payShares cs vs fee D dust s = Ret (dust - total (map (shareOf cs fee D) vs), s') /\ solvent s' /\
    supply s' = supply s + total (map (shareOf cs fee D) vs) /\
    forall a, GetBalance s' a = GetBalance s a + paidTo cs fee D vs a.
Proof.
  intros Hf HD Hvs. revert dust s. induction Hvs as [|i vs [Hi Hd] Hvs IH]; intros dust s Hs Hsup.
  { exists s. cbn. split_and!; try done; try lia. f_equal. f_equal. lia. }
  destruct (lookup_lt_is_Some_2 cs (Z.to_nat i) ltac:(lia)) as [c Hc].
  assert (diligenceOf cs i = cd_Diligence c) as Hdi by (unfold diligenceOf; by rewrite Hc).
  pose proof (share_nonneg cs fee D i Hf HD Hd) as Hsh. pose proof (supply_nonneg s Hs) as Hs0.
  assert (0 <= total (map (shareOf cs fee D) vs)) as Hrest.
  { apply total_nonneg. eapply Forall_impl; [exact Hvs|]. intros j [_ Hj]. by apply share_nonneg. }
  unfold paidTo. cbn [payShares map total foldr] in *. unfold total in Hrest. rewrite Hc. outcome_run. cbn [fmap option_fmap option_map].
  rewrite <- Hdi. fold (shareOf cs fee D i).
  destruct (Z.eqb_spec (shareOf cs fee D i) 0) as [H0|H0].
  - rewrite H0. destruct (IH dust s Hs ltac:(unfold total; lia)) as (s' & Hrun & Hs' & Hsup' & Hbal). exists s'. rewrite Hrun.
    unfold total in *. split_and!; [f_equal; f_equal; lia|done|lia|]. intros a. rewrite (Hbal a). unfold paidTo, total.
    case_bool_decide; lia.
  - unfold u256_FromBig. rewrite Z.abs_eq by done. destruct (Z.leb_spec (2 ^ 256) (shareOf cs fee D i)); [lia|]. outcome_run.
    rewrite Z.mod_small by lia.
    destruct (AddBalance_money s (cd_Addr c) (shareOf cs fee D i) Hs Hsh ltac:(lia)) as (Hs1 & Hsup1 & Hbal1).
    destruct (IH (dust - shareOf cs fee D i) _ Hs1 ltac:(unfold total; lia)) as (s' & Hrun & Hs' & Hsup' & Hbal). exists s'. rewrite Hrun.
    unfold total in *. split_and!; [f_equal; f_equal; lia|done|lia|]. intros a. rewrite Hbal, Hbal1. unfold paidTo, total.
    destruct (decide (a = cd_Addr c)) as [->|Hne]; [rewrite !bool_decide_eq_true_2 by done; lia|].
    rewrite !bool_decide_eq_false_2 by congruence. lia.
Qed.

(** Both branches of the distribution: what is paid, and what is left. *)
Lemma payout_spec cs vs T s :
  0 <= T -> Forall (in_range cs) vs -> solvent s -> supply s + T < 2 ^ 256 ->
  let D := total (map (diligenceOf cs) vs) in
  exists S s1, (if negb (D =? 0) then payShares cs vs T D T s else Ret (T, s)) = Ret (T - S, s1) /\ solvent s1 /\
    supply s1 = supply s + S /\ 0 <= S <= T /\ (0 < D -> T - S < Z.of_nat (length vs)) /\ (D = 0 -> S = 0) /\
    forall a, GetBalance s1 a = GetBalance s a + (if D =? 0 then 0 else paidTo cs T D vs a).
Proof.
  intros HT Hvals Hs Hsupply D. assert (0 <= D) as HD0.
  { apply total_nonneg. eapply Forall_impl; [exact Hvals|]. by intros i [_ Hi]. }
  destruct (Z.eqb_spec D 0) as [H0|H0]; cbn [negb].
  { exists 0, s. rewrite Z.sub_0_r. split_and!; try done; try lia. }
  pose proof (total_shares cs T D vs ltac:(lia)) as Hsum. fold D in Hsum.
  assert (0 <= total (map (shareOf cs T D) vs)) as HS0.
  { apply total_nonneg. eapply Forall_impl; [exact Hvals|]. intros j [_ Hj]. apply share_nonneg; lia. }
  assert (0 < length vs)%nat by (unfold D in HD0, H0; destruct vs; [done|cbn; lia]).
  assert (total (map (shareOf cs T D) vs) <= T) by nia.
  destruct (payShares_spec cs T D vs T s) as (s1 & Hrun & Hs1 & Hsup1 & Hbal); try done; try lia.
  exists (total (map (shareOf cs T D) vs)), s1. split_and!; try done; try lia. intros _. nia.
Qed.

(** * Properties *)

(** C26. Base fees are conserved.  When a block with base fee is finalized, the
    distribution succeeds; the money supply grows by exactly base fee times gas
    used; every address gets the shares of its validators, the fee times the
    diligence divided by the total diligence and rounded down, and the proposer
    in addition the remainder, which is never negative and smaller than the
    number of validators (all of the fee when no validator has diligence). *)
Theorem baseFee_conserved (e : Engine) (chain : Chain) (h : Header) (s : StateDB)
    (n fee : Z) (ep : option Z) (info : EpochInfo)
    (Hn : h_Number h = Some n /\ n <> 0) (Hfee : h_BaseFee h = Some fee /\ 0 <= fee) (Hused : 0 < h_GasUsed h)
    (Hep : GetEpochInfo e chain h [] = Ret (ep, info))
    (Hvals : Forall (in_range (ei_Candidates info)) (ei_Validators info))
    (HD : total (map (diligenceOf (ei_Candidates info)) (ei_Validators info)) < 2 ^ 64)
    (Hs : solvent s) (Hsupply : supply s + fee * h_GasUsed h < 2 ^ 256) :
  let T := fee * h_GasUsed h in
  let D := total (map (diligenceOf (ei_Candidates info)) (ei_Validators info)) in
  exists s' dust, distributeBaseFee e chain h s = Ret s' /\ solvent s' /\ supply s' = supply s + T /\
    0 <= dust /\ (0 < D -> dust < Z.of_nat (length (ei_Validators info))) /\ (D = 0 -> dust = T) /\
    forall a, GetBalance s' a = GetBalance s a +
      (if D =? 0 then 0 else paidTo (ei_Candidates info) T D (ei_Validators info) a) +
      (if bool_decide (a = h_Coinbase h) then dust else 0).
Proof.
  intros T D. destruct Hn as [Hn Hn0], Hfee as [Hfee Hfee0]. set (cs := ei_Candidates info) in *. set (vs := ei_Validators info) in *.
  assert (0 <= T) as HT by (unfold T; nia).
  destruct (payout_spec cs vs T s HT Hvals Hs Hsupply) as (S & s1 & Hpay & Hs1 & Hsup1 & HS & Hdust & HS0 & Hbal).
  fold D in Hpay, Hdust, HS0, Hbal.
  unfold distributeBaseFee. destruct (Z.eqb_spec (h_GasUsed h) 0); [lia|]. rewrite Hn. outcome_run.
  destruct (Z.eqb_spec n 0); [done|]. rewrite Hfee. outcome_run. rewrite Hep. outcome_run.
  rewrite sumDiligence_spec, Z.add_0_l by (done || lia). outcome_run. fold cs vs D T. rewrite Hpay. outcome_run.
  destruct (Z.ltb_spec (T - S) 0); [lia|]. outcome_run. destruct (Z.eqb_spec (T - S) 0) as [H0|H0]; cbn [negb].
  - exists s1, 0. split_and!; try done; try lia. intros a. rewrite Hbal. case_bool_decide; lia.
  - unfold u256_FromBig. pose proof (supply_nonneg s Hs). rewrite Z.abs_eq by lia.
    destruct (Z.leb_spec (2 ^ 256) (T - S)); [unfold T in *; lia|]. outcome_run. rewrite Z.mod_small by lia.
    destruct (AddBalance_money s1 (h_Coinbase h) (T - S) Hs1 ltac:(lia) ltac:(unfold T in *; lia)) as (Hs2 & Hsup2 & Hbal2).
    exists (AddBalance s1 (h_Coinbase h) (T - S)), (T - S). split_and!; try done; try lia. intros a. by rewrite Hbal2, Hbal.
Qed.
