(* ===== verification/EpochBuild.v ===== *)
(** Building and checking epoch information ([buildEpochInfo], [writeEpoch],
    [verifyEpoch] of src/consensus/wbft/engine/engine.go): the diligence of the
    candidates and the validators of the next epoch. *)
From S2P Require Import Prelude Float64 Validators Messages Rlp RlpStream Extra Shuffle Config ChainConfig Header Seals StateUtil StateDB Epoch.

(** Go maps from addresses to [int]: a missing key counts as 0. *)
Abbreviation Counter := (gmap Address Z).
Definition count (m : Counter) (a : Address) : Z := default 0 (m !! a).
Definition add (m : Counter) (a : Address) (k : Z) : Counter := <[a := count m a + k]> m.

(** The variables of the backward walk. *)
Record Walk := mkWalk {
  wk_proposedSeals : Counter;
  wk_submittedSeals : Counter;
  wk_beingProposer : Counter;
  wk_proposers : list Address;
  wk_epochLength : Z;
  wk_firstProposer : Address;
  wk_lastProposer : Address;
  wk_validatorsDiff : Z;
  wk_it : Header;
}.

Record candidateInfo := mkCandidateInfo {
  ci_isValidator : bool;
  ci_wasValidator : bool;
  ci_candidate : Candidate;
}.

Section build.
Context `{Cr : Crypto} `{SortSlice} (e : Engine) (chain : Chain).

(** Seal counts of one block, taken from the seals that its successor carries. *)
Definition countSeals (epochInfo : EpochInfo) (extra : WBFTExtra) (proposer : Address)
    (proposed submitted : Counter) : Eng (Counter * Counter) :=
  prepareSigners ← getSignerAddress epochInfo (we_PrevPreparedSeal extra);
  let proposed := add proposed proposer (Z.of_nat (length prepareSigners)) in
  let submitted := fold_left (fun m addr => add m addr 1) prepareSigners submitted in
  commitSigners ← getSignerAddress epochInfo (we_PrevCommittedSeal extra);
  let proposed := add proposed proposer (Z.of_nat (length commitSigners)) in
  let submitted := fold_left (fun m addr => add m addr 1) commitSigners submitted in
  mret (proposed, submitted).

(** One iteration of the walk. *)
Definition walkStep (latestEpoch : Z) (latestEpochInfo : EpochInfo) (num : Z) (w : Walk) : Eng Walk :=
  let it := wk_it w in
  extra ← rlp_result (ExtractWBFTExtra it);
  let proposer := h_Coinbase it in
  let proposers := wk_proposers w ++ [proposer] in
  parent ← must (GetHeader chain (h_ParentHash it) (u64 (big_Uint64 num - 1)));
  parentNumber ← must (h_Number parent);
  '(epochInfo, firstProposer, lastProposer, validatorsDiff) ←
    (if latestEpoch =? parentNumber then
       '(_, info) ← GetEpochInfo e chain parent [];
       mret (info, h_Coinbase it, h_Coinbase parent,
         Z.of_nat (length (ei_Validators latestEpochInfo)) - Z.of_nat (length (ei_Validators info)))
     else Ret (latestEpochInfo, wk_firstProposer w, wk_lastProposer w, wk_validatorsDiff w));
  '(proposed, submitted, being) ←
    (if parentNumber =? 0 then
       Ret (wk_proposedSeals w, wk_submittedSeals w, add (wk_beingProposer w) proposer (-1))
     else
       '(proposed, submitted) ← countSeals epochInfo extra proposer (wk_proposedSeals w) (wk_submittedSeals w);
       mret (proposed, submitted, wk_beingProposer w));
  mret (mkWalk proposed submitted being proposers (u64 (wk_epochLength w + 1)) firstProposer lastProposer validatorsDiff parent).

Fixpoint walkBack (fuel : nat) (latestEpoch : Z) (latestEpochInfo : EpochInfo) (w : Walk) : Eng Walk :=
  match fuel with
  | O => Fail OutOfFuelWalk
  | S fuel =>
      num ← must (h_Number (wk_it w));
      if latestEpoch =? num then Ret w
      else w ← walkStep latestEpoch latestEpochInfo num w; walkBack fuel latestEpoch latestEpochInfo w
  end.

(** Candidates and validators of the latest epoch. *)
Definition candidateMap0 (info : EpochInfo) : gmap Address candidateInfo :=
  fold_left (fun m candi => <[cd_Addr candi := mkCandidateInfo false false candi]> m) (ei_Candidates info) ∅.

Fixpoint markValidators (info : EpochInfo) (vals : list Z) (m : gmap Address candidateInfo) (validators : list Address)
  : Eng (gmap Address candidateInfo * list Address) :=
  match vals with
  | [] => Ret (m, validators)
  | val :: vals =>
      let addr := GetCandidate (Some info) val in
      ci ← must (m !! addr);
      markValidators info vals (<[addr := mkCandidateInfo true (ci_wasValidator ci) (ci_candidate ci)]> m) (validators ++ [addr])
  end.

(** Validators of the epoch before, if they are candidates still. *)
Definition markPrior (info : EpochInfo) (m : gmap Address candidateInfo) : gmap Address candidateInfo :=
  fold_left (fun m val =>
    alter (fun ci => mkCandidateInfo (ci_isValidator ci) true (ci_candidate ci)) (GetCandidate (Some info) val) m)
    (ei_Validators info) m.

(** The rounds until [proposer] is selected; one round per validator at most. *)
Fixpoint countRounds (fuel : nat) (valSet : ValidatorSet) (lastProposer proposer : Address) (round : Z) (being : Counter)
  : Eng (ValidatorSet * Counter) :=
  match fuel with
  | O => Fail ErrProposerNotFound
  | S fuel =>
      let valSet := CalcProposer valSet lastProposer round in
      p ← must (GetProposer valSet);
      let currP := val_address p in
      let being := add being currP 1 in
      if currP =? proposer then Ret (valSet, being) else countRounds fuel valSet lastProposer proposer (round + 1) being
  end.

Fixpoint countProposers (n : nat) (valSet : ValidatorSet) (lastProposer : Address) (rproposers : list Address) (being : Counter)
  : Eng Counter :=
  match rproposers with
  | [] => Ret being
  | proposer :: rproposers =>
      '(valSet, being) ← countRounds n valSet lastProposer proposer 0 being;
      countProposers n valSet proposer rproposers being
  end.

(** Division of unsigned numbers. *)
Definition udiv (x y : Z) : Eng Z := if y =? 0 then Panic else Ret (x / y).

(** The diligence of a candidate of the latest epoch: the rate at which the epoch
    applies and the part for submitted seals, ... *)
Definition sealDiligence (ci : candidateInfo) (epochLength submitted : Z) : Eng (Z * Z) :=
  let s := u64 submitted in
  d ← udiv (u64 (s * DiligenceDenominator)) (u64 (2 * epochLength));
  if negb (ci_isValidator ci) then Ret (1, u64 (s * DiligenceDenominator) / 2)
  else if negb (ci_wasValidator ci) then
    _ ← reject (u64 (2 * u64 (epochLength - 1)) <? s) ErrSealCountRange;
    d ← udiv (u64 (s * DiligenceDenominator)) (u64 (2 * u64 (epochLength - 1)));
    mret (u64 (epochLength - 1), d)
  else Ret (epochLength, d).

(** ... the part for proposed blocks, ... *)
Definition proposerDiligence (ci : candidateInfo) (isFirst : bool) (d proposed being nValidators validatorsDiff : Z) : Eng Z :=
  if 0 <? being then
    let maxProposedSeals := 2 * nValidators * being in
    let maxProposedSeals := if isFirst && ci_wasValidator ci then maxProposedSeals - 2 * validatorsDiff else maxProposedSeals in
    q ← udiv (u64 (u64 proposed * DiligenceDenominator)) (u64 maxProposedSeals);
    mret (u64 (d + q))
  else Ret (u64 (d + DiligenceDenominator)).

(** ... and the average with the past. *)
Definition nextDiligence (ci : candidateInfo) (isFirst : bool) (epochLength submitted proposed being nValidators validatorsDiff : Z) : Eng Z :=
  '(applyingRate, d) ← sealDiligence ci epochLength submitted;
  d ← proposerDiligence ci isFirst d proposed being nValidators validatorsDiff;
  udiv (u64 (u64 (cd_Diligence (ci_candidate ci) * u64 (u64 (10 * epochLength) - applyingRate)) + u64 (d * applyingRate)) / 10) epochLength.

Fixpoint newCandidates (m : gmap Address candidateInfo) (w : Walk) (being : Counter) (nValidators : Z) (addrs : list Address)
  : Eng (list Candidate) :=
  match addrs with
  | [] => Ret []
  | candidate :: addrs =>
      d ←
        match m !! candidate with
        | None => Ret DefaultDiligence
        | Some ci =>
            nextDiligence ci (candidate =? wk_firstProposer w) (wk_epochLength w) (count (wk_submittedSeals w) candidate)
              (count (wk_proposedSeals w) candidate) (count being candidate) nValidators (wk_validatorsDiff w)
        end;
      _ ← reject (2 * DiligenceDenominator <? d) ErrDiligenceRange;
      cs ← newCandidates m w being nValidators addrs;
      mret (MkCandidate candidate d :: cs)
  end.

(** The validators that have a BLS key. *)
Fixpoint withKeys (gov : Address) (state : StateReader) (candidates : list Candidate) (vals : list Z)
  : Eng (list Z * list bytes) :=
  match vals with
  | [] => Ret ([], [])
  | newVal :: vals =>
      c ← must (candidates !! Z.to_nat newVal);
      pk ← must (GetBLSPublicKey gov state (cd_Addr c));
      '(vs, pks) ← withKeys gov state candidates vals;
      if Z.of_nat (length pk) =? 0 then Ret (vs, pks) else Ret (newVal :: vs, pk :: pks)
  end.

(** [systemContracts.GovValidator.Address]. *)
Definition govValidator (num : Z) : Eng Address :=
  sc ← must (GetSystemContracts (eng_cfg e) num (anzeon ← Anzeon (ch_Config chain); SystemContracts_ anzeon));
  gv ← must (GovValidator sc);
  mret (sc_Address gv).

Definition GetGovCandidates (state : StateReader) (num : Z) : Eng (list Address) :=
  gov ← govValidator num; mret (ValidatorList gov state).

(** Marks of the validators of the epoch before the latest one; [it] is the
    epoch block. *)
Definition priorMarks (it : Header) (m : gmap Address candidateInfo) : Eng (gmap Address candidateInfo) :=
  num ← must (h_Number it);
  if 0 <? num then
    parent ← must (GetHeader chain (h_ParentHash it) (u64 (big_Uint64 num - 1)));
    '(_, priorEpochInfo) ← GetEpochInfo e chain parent [];
    mret (markPrior priorEpochInfo m)
  else Ret m.

(** The validators chosen from the new candidates. *)
Definition assembleEpoch (header : Header) (num : Z) (state : StateReader) (candidates : list Candidate) : Eng EpochInfo :=
  govValidatorAddress ← govValidator num;
  let powered := map (fun c => MkPowered (cd_Addr c) 1 (cd_Diligence c)) candidates in
  newValidators ← orFail (decideValidators Keccak256 (hashBytes (h_MixDigest header)) powered) ErrShuffledIndex;
  '(vals, keys) ← withKeys govValidatorAddress state candidates newValidators;
  mret (MkEpochInfo candidates vals keys).

(** The walk visits at most [num] parents and then sees that it arrived. *)
Definition buildEpochInfo (header : Header) (state : StateReader) : Eng (option EpochInfo) :=
  num ← must (h_Number header);
  '(isEpoch, _) ← IsEpochBlockNumber e num;
  if negb isEpoch then Ret None
  else if num =? 0 then
    anzeon ← must (Anzeon (ch_Config chain));
    info ← must (CreateInitialEpochInfo anzeon);
    mret (Some info)
  else
    '(latestEpoch, latestEpochInfo) ← GetEpochInfo e chain header [];
    latestEpoch ← must latestEpoch;
    w ← walkBack (S (S (Z.to_nat num))) latestEpoch latestEpochInfo (mkWalk ∅ ∅ ∅ [] 0 zeroAddress zeroAddress 0 header);
    '(m, validators) ← markValidators latestEpochInfo (ei_Validators latestEpochInfo) (candidateMap0 latestEpochInfo) [];
    m ← priorMarks (wk_it w) m;
    valSet ← must (NewSet validators (ei_BLSPublicKeys latestEpochInfo) (ProposerPolicy (GetConfig (eng_cfg e) num)));
    being ← countProposers (length validators) valSet (wk_lastProposer w) (rev (wk_proposers w)) (wk_beingProposer w);
    addrs ← GetGovCandidates state num;
    candidates ← newCandidates m w being (Z.of_nat (length (ei_Validators latestEpochInfo))) addrs;
    info ← assembleEpoch header num state candidates;
    mret (Some info).

(** * Writing and checking *)

Definition writeEpoch (header : Header) (state : StateReader) : Eng Header :=
  num ← must (h_Number header);
  valSet ← GetValidators e chain num (h_ParentHash header) [];
  if fst (GetByAddress valSet (eng_signer e)) <? 0 then Ret header
  else
    newEpoch ← buildEpochInfo header state;
    r ← ApplyHeaderWBFTExtra header [WriteEpochInfo newEpoch];
    mret (snd r).

(** The element-wise comparisons of [verifyEpoch]; [epoch.Candidates[i]] against
    the header's at the same index, the sizes are equal. *)
Fixpoint checkCandidates (expected got : list Candidate) : Eng unit :=
  match expected, got with
  | c :: expected, g :: got =>
      _ ← reject (negb (cd_Addr c =? cd_Addr g)) ErrCandidateMismatch;
      _ ← reject (negb (cd_Diligence c =? cd_Diligence g)) ErrDiligenceMismatch;
      checkCandidates expected got
  | _, _ => Ret tt
  end.

Definition verifyEpoch (header : Header) (state : StateReader) : Eng unit :=
  let bHeader := CopyHeader header in
  epoch ← buildEpochInfo bHeader state;
  extra ← rlp_result (ExtractWBFTExtra header);
  got ← orFail (we_EpochInfo extra) ErrEpochInfoIsNil;
  epoch ← must epoch;
  _ ← reject (negb (Z.of_nat (length (ei_Candidates epoch)) =? Z.of_nat (length (ei_Candidates got)))) ErrCandidateSizes;
  _ ← checkCandidates (ei_Candidates epoch) (ei_Candidates got);
  _ ← reject (negb (Z.of_nat (length (ei_Validators epoch)) =? Z.of_nat (length (ei_Validators got)))) ErrValidatorSizes;
  _ ← reject (negb (bool_decide (ei_Validators epoch = ei_Validators got))) ErrValidatorMismatch;
  _ ← reject (negb (Z.of_nat (length (ei_BLSPublicKeys epoch)) =? Z.of_nat (length (ei_BLSPublicKeys got)))) ErrBLSKeySizes;
  reject (negb (bool_decide (ei_BLSPublicKeys epoch = ei_BLSPublicKeys got))) ErrBLSKeyMismatch.
End build.
