(* ===== verification/EpochBuildProps.v ===== *)
(** Epoch information that is built is well formed, and accepted by the other
    nodes; diligence stays within its range. *)
From S2P Require Import Prelude Float64 Validators Messages Rlp RlpStream RlpSpec RlpLists Extra ExtraProps Shuffle Config ChainConfig Header Seals SealProps StateUtil StateDB Epoch EpochBuild.

(** Also through the binds of pairs. *)
Ltac outcome_inv_pairs :=
  outcome_inv; repeat (match goal with x : _ * _ |- _ => destruct x end; outcome_inv).

(** * Well-formed epochs *)

Lemma udiv_Ret x y z : udiv x y = Ret z <-> y <> 0 /\ z = x / y.
Proof. unfold udiv. destruct (Z.eqb_spec y 0); split; [done|tauto|by intros [= <-]|by intros [_ ->]]. Qed.

Lemma nextDiligence_nonneg ci first_ e s p b n diff d :
  0 <= e -> nextDiligence ci first_ e s p b n diff = Ret d -> 0 <= d.
Proof.
  intros He Hrun. unfold nextDiligence in Hrun. outcome_inv_pairs.
  match goal with H : udiv _ e = Ret d |- _ => apply udiv_Ret in H as [Hne ->] end.
  apply Z.div_pos; [apply Z.div_pos; [apply u64_range|lia]|lia].
Qed.

Section wf.
Context `{Cr : Crypto} `{Sort : SortSlice} (e : Engine) (chain : Chain).

Lemma walkStep_length le li num w w' : walkStep e chain le li num w = Ret w' -> 0 <= wk_epochLength w'.
Proof.
  unfold walkStep. intros Hrun. outcome_inv_pairs. subst. cbn. apply u64_range.
Qed.

Lemma walkBack_length fuel le li w w' : 0 <= wk_epochLength w -> walkBack e chain fuel le li w = Ret w' -> 0 <= wk_epochLength w'.
Proof.
  revert w. induction fuel as [|fuel IH]; intros w Hw Hrun; cbn [walkBack] in Hrun; [done|].
  apply bind_Ret in Hrun as (num & _ & Hrun).
  destruct (le =? num); [by injection Hrun as <-|]. outcome_inv. eapply IH; [|eassumption]. by eapply walkStep_length.
Qed.

Definition diligence_ok (c : Candidate) : Prop := 0 <= cd_Diligence c <= 2 * DiligenceDenominator.

Lemma newCandidates_spec m w being n addrs cs :
  0 <= wk_epochLength w -> newCandidates m w being n addrs = Ret cs ->
  map cd_Addr cs = addrs /\ Forall diligence_ok cs.
Proof.
  intros Hw. revert cs. induction addrs as [|a addrs IH]; intros cs Hrun; cbn [newCandidates] in Hrun.
  { injection Hrun as <-. done. }
  outcome_inv. subst. destruct (IH _ ltac:(eassumption)) as [Haddr Hf]. split; [cbn; by rewrite Haddr|]. constructor; [|done].
  zify_bools. split; [|done]. cbn [cd_Diligence]. destruct (m !! a) as [ci|].
  - eapply nextDiligence_nonneg; eassumption.
  - match goal with H : Ret DefaultDiligence = Ret _ |- _ => injection H as <- end. by vm_compute.
Qed.

Lemma withKeys_spec gov state cs vals vs ks :
  withKeys gov state cs vals = Ret (vs, ks) ->
  vs `sublist_of` vals /\
  Forall2 (fun i k => k <> [] /\ exists c, cs !! Z.to_nat i = Some c /\ GetBLSPublicKey gov state (cd_Addr c) = Some k) vs ks /\
  (forall i c k, i ∈ vals -> cs !! Z.to_nat i = Some c -> GetBLSPublicKey gov state (cd_Addr c) = Some k -> k <> [] -> i ∈ vs).
Proof.
  revert vs ks. induction vals as [|v vals IH]; intros vs ks Hrun; cbn [withKeys] in Hrun.
  { injection Hrun as <- <-. split_and!; [constructor|constructor|]. by intros i c k Hi%elem_of_nil. }
  apply bind_Ret in Hrun as (c0 & Hc & Hrun). apply must_Ret in Hc.
  apply bind_Ret in Hrun as (k0 & Hk & Hrun). apply must_Ret in Hk.
  apply bind_Ret in Hrun as ([vs' ks'] & Hrest & Hrun).
  destruct (IH _ _ Hrest) as (H1 & H2 & H3).
  destruct (Z.eqb_spec (Z.of_nat (length k0)) 0) as [H0|H0]; injection Hrun as <- <-.
  - split_and!; [by constructor|done|]. intros i c k [->|Hi]%elem_of_cons Hc' Hk' Hne; [|by eapply H3].
    simplify_eq. destruct k0; [done|cbn in H0; lia].
  - split_and!; [by constructor| |].
    + constructor; [|done]. split; [|by exists c0]. intros ->. done.
    + intros i c k [->|Hi]%elem_of_cons Hc' Hk' Hne; [by left|right; by eapply H3].
Qed.

(** What an epoch block promises about the next epoch. *)
Record epoch_wf (gov : Address) (state : StateReader) (info : EpochInfo) : Prop := {
  ew_candidates : map cd_Addr (ei_Candidates info) = ValidatorList gov state;
  ew_diligence : Forall diligence_ok (ei_Candidates info);
  ew_distinct : NoDup (ei_Validators info);
  ew_keys : Forall2 (fun i k => k <> [] /\ exists c, ei_Candidates info !! Z.to_nat i = Some c /\
    GetBLSPublicKey gov state (cd_Addr c) = Some k) (ei_Validators info) (ei_BLSPublicKeys info);
  ew_range : Forall (fun i => 0 <= i < Z.of_nat (length (ei_Candidates info))) (ei_Validators info);
  ew_all : forall i c k, ei_Candidates info !! i = Some c -> GetBLSPublicKey gov state (cd_Addr c) = Some k ->
    k <> [] -> Z.of_nat i ∈ ei_Validators info;
}.

Lemma assembleEpoch_wf header num state cs info gov :
  govValidator e chain num = Ret gov -> Z.of_nat (length cs) < 2 ^ 32 ->
  map cd_Addr cs = ValidatorList gov state -> Forall diligence_ok cs ->
  assembleEpoch e chain header num state cs = Ret info -> epoch_wf gov state info.
Proof.
  intros Hgov Hlen Haddr Hd Hrun. unfold assembleEpoch in Hrun. rewrite Hgov, ret_bind in Hrun. cbv zeta in Hrun.
  apply bind_Ret in Hrun as (vals & Hv & Hrun). apply orFail_Ret in Hv.
  apply bind_Ret in Hrun as ([vs ks] & Hkeys & Hrun). injection Hrun as <-.
  match type of Hv with decideValidators _ ?s ?p = _ =>
    destruct (decideValidators_perm Keccak256 s p) as (vals' & Hv' & Hperm); [by rewrite length_map|] end.
  rewrite Hv in Hv'. injection Hv' as <-. rewrite length_map in Hperm. apply withKeys_spec in Hkeys as (Hsub & Hkeys & Hall).
  assert (NoDup vals) as Hnd. { rewrite Hperm. apply (NoDup_fmap_2 Z.of_nat), NoDup_seq. }
  assert (forall i, i ∈ vals <-> exists k, i = Z.of_nat k /\ (k < length cs)%nat) as Hin.
  { intros i. rewrite Hperm, list_elem_of_fmap. setoid_rewrite elem_of_seq. naive_solver lia. }
  split; cbn; try done.
  - by eapply sublist_NoDup.
  - apply Forall_forall. intros i Hi. eapply elem_of_sublist in Hi; [|done]. apply Hin in Hi as (k & -> & Hk). lia.
  - intros i c k Hc Hk Hne. eapply (Hall _ c k); [|by rewrite Nat2Z.id|done|done]. apply Hin. exists i.
    split; [done|]. by eapply lookup_lt_Some.
Qed.

Lemma buildEpochInfo_inv header state num info :
  h_Number header = Some num -> num <> 0 -> buildEpochInfo e chain header state = Ret (Some info) ->
  exists gov w m being n cs, govValidator e chain num = Ret gov /\ 0 <= wk_epochLength w /\
    newCandidates m w being n (ValidatorList gov state) = Ret cs /\ assembleEpoch e chain header num state cs = Ret info.
Proof.
  intros Hnum Hne Hrun. unfold buildEpochInfo in Hrun. rewrite Hnum in Hrun. cbn [must] in Hrun. rewrite ret_bind in Hrun.
  apply bind_Ret in Hrun as ([isEpoch last] & _ & Hrun). destruct isEpoch; cbn [negb] in Hrun; [|discriminate Hrun].
  destruct (Z.eqb_spec num 0); [done|].
  apply bind_Ret in Hrun as ([le li] & _ & Hrun). apply bind_Ret in Hrun as (le' & _ & Hrun).
  apply bind_Ret in Hrun as (w & Hw & Hrun). apply bind_Ret in Hrun as ([m0 validators] & _ & Hrun).
  apply bind_Ret in Hrun as (m & _ & Hrun). apply bind_Ret in Hrun as (valSet & _ & Hrun).
  apply bind_Ret in Hrun as (being & _ & Hrun). apply bind_Ret in Hrun as (addrs & Haddrs & Hrun).
  apply bind_Ret in Hrun as (cs & Hcs & Hrun). apply bind_Ret in Hrun as (info' & Hinfo & Hrun). injection Hrun as ->.
  unfold GetGovCandidates in Haddrs. apply bind_Ret in Haddrs as (gov & Hgov & Haddrs). injection Haddrs as <-.
  eexists gov, w, m, being, _, cs. split_and!; try done. eapply walkBack_length; [|exact Hw]. done.
Qed.

Lemma buildEpochInfo_ok header state num info :
  h_Number header = Some num -> num <> 0 -> buildEpochInfo e chain header state = Ret (Some info) ->
  (forall gov, govValidator e chain num = Ret gov -> Z.of_nat (length (ValidatorList gov state)) < 2 ^ 32) ->
  exists gov, govValidator e chain num = Ret gov /\ epoch_wf gov state info.
Proof.
  intros Hnum Hne Hrun Hlen.
  destruct (buildEpochInfo_inv _ _ _ _ Hnum Hne Hrun) as (gov & w & m & being & n & cs & Hgov & Hw & Hcs & Hinfo).
  destruct (newCandidates_spec _ _ _ _ _ _ Hw Hcs) as [Haddr Hd]. exists gov. split; [done|].
  eapply assembleEpoch_wf; try done. specialize (Hlen gov Hgov). by rewrite <- Haddr, length_map in Hlen.
Qed.

(** * Headers that build the same epoch *)

(** What [buildEpochInfo] reads of a header. *)
Record same_for_epoch (h1 h2 : Header) : Prop := {
  sf_number : h_Number h1 = h_Number h2;
  sf_parent : h_ParentHash h1 = h_ParentHash h2;
  sf_coinbase : h_Coinbase h1 = h_Coinbase h2;
  sf_mix : h_MixDigest h1 = h_MixDigest h2;
  sf_seals : exists x1 x2, ExtractWBFTExtra h1 = inr x1 /\ ExtractWBFTExtra h2 = inr x2 /\
    we_PrevPreparedSeal x1 = we_PrevPreparedSeal x2 /\ we_PrevCommittedSeal x1 = we_PrevCommittedSeal x2;
}.

Definition start (h : Header) : Walk := mkWalk ∅ ∅ ∅ [] 0 zeroAddress zeroAddress 0 h.

Lemma walkStep_same h1 h2 le li num :
  same_for_epoch h1 h2 -> walkStep e chain le li num (start h1) = walkStep e chain le li num (start h2).
Proof.
  intros [Hn Hp Hc Hm (x1 & x2 & Hx1 & Hx2 & Hs1 & Hs2)]. unfold walkStep, start. cbn.
  rewrite Hx1, Hx2. cbn. rewrite Hp, Hc. unfold countSeals. by rewrite Hs1, Hs2.
Qed.

(** The walk passes its first header, or is at its end already. *)
Lemma walkBack_same fuel h1 h2 le li :
  same_for_epoch h1 h2 ->
  walkBack e chain fuel le li (start h1) = walkBack e chain fuel le li (start h2) \/
  walkBack e chain fuel le li (start h1) = Ret (start h1) /\ walkBack e chain fuel le li (start h2) = Ret (start h2).
Proof.
  intros Hs. destruct fuel as [|fuel]; [by left|]. cbn [walkBack start wk_it]. rewrite <- (sf_number _ _ Hs).
  destruct (h_Number h1) as [num|]; [|by left]. cbn [must]. rewrite !ret_bind. destruct (le =? num); [by right|left].
  fold (start h1) (start h2). by rewrite (walkStep_same h1 h2).
Qed.

Lemma newCandidates_same m h1 h2 being n addrs :
  newCandidates m (start h1) being n addrs = newCandidates m (start h2) being n addrs.
Proof. induction addrs as [|a addrs IH]; [done|]. cbn [newCandidates]. by rewrite IH. Qed.

Lemma buildEpochInfo_same h1 h2 state :
  same_for_epoch h1 h2 -> buildEpochInfo e chain h1 state = buildEpochInfo e chain h2 state.
Proof.
  intros Hs. unfold buildEpochInfo, GetEpochInfo, assembleEpoch. rewrite <- (sf_number _ _ Hs), <- (sf_parent _ _ Hs), <- (sf_mix _ _ Hs).
  destruct (h_Number h1) as [num|] eqn:Hnum; [|done]. cbn [must]. rewrite !ret_bind.
  destruct (IsEpochBlockNumber e num) as [[isEpoch last]| |]; [|done|done]. rewrite !ret_bind.
  destruct isEpoch; [|done]. cbn [negb]. destruct (num =? 0); [done|].
  destruct (getEpochInfo _ _ _ _ _) as [[[le|] li]| |]; [|done..]. rewrite !ret_bind. cbn [must]. rewrite !ret_bind.
  fold (start h1) (start h2).
  destruct (walkBack_same (S (S (Z.to_nat num))) h1 h2 le li Hs) as [->|[-> ->]]; [done|]. rewrite !ret_bind.
  assert (forall m, priorMarks e chain (wk_it (start h1)) m = priorMarks e chain (wk_it (start h2)) m) as Hprior.
  { intros m. unfold priorMarks. cbn [start wk_it]. by rewrite <- (sf_number _ _ Hs), <- (sf_parent _ _ Hs). }
  destruct (markValidators _ _ _ _) as [[m0 validators]| |]; [|done..]. rewrite !ret_bind, Hprior.
  destruct (priorMarks _ _ _ _) as [m| |]; [|done..]. rewrite !ret_bind.
  destruct (must (NewSet _ _ _)) as [valSet| |]; [|done..]. rewrite !ret_bind. cbn [start wk_lastProposer wk_proposers wk_beingProposer].
  destruct (countProposers _ _ _ _ _) as [being| |]; [|done..]. rewrite !ret_bind.
  destruct (GetGovCandidates _ _ _ _) as [addrs| |]; [|done..]. rewrite !ret_bind. fold (start h1) (start h2).
  by rewrite (newCandidates_same m h1 h2).
Qed.
End wf.

(** * Epochs on the wire *)

Lemma HashToAddress_range h : 0 <= HashToAddress h < 2 ^ 160.
Proof.
  unfold HashToAddress, BytesToAddress. assert (length (hashBytes h) = 32%nat) as Hl by apply length_be_bytes.
  pose proof (be_value_range _ (Forall_drop _ (length (hashBytes h) - 20) _ (be_bytes_byte 32 h))) as Hr.
  rewrite length_drop in Hr. fold (hashBytes h) in Hr. rewrite Hl in Hr at 3 4. exact Hr.
Qed.

Lemma getChunks_bytes `{Crypto} fuel state a b l i acc out :
  bytes_ok acc -> getChunks fuel state a b l i acc = Some out -> bytes_ok out.
Proof.
  revert i acc. induction fuel as [|fuel IH]; intros i acc Hacc Hrun; cbn in Hrun; [done|].
  assert (bytes_ok (acc ++ hashBytes (state a (CalculateDynamicSlot (hashBytes b) i)))) as Hnew
    by (apply Forall_app; split; [done|apply be_bytes_byte]).
  destruct (_ <=? _); [by injection Hrun as <-|by eapply IH].
Qed.

Lemma GetBytes_bytes `{Crypto} state a b d : GetBytes state a b = Some d -> bytes_ok d.
Proof.
  unfold GetBytes. destruct (_ =? 0); [intros [= <-]; constructor|]. destruct (Z.land _ 1 =? 0).
  - destruct (_ <=? 32); [|done]. intros [= <-]. apply Forall_take, be_bytes_byte.
  - destruct (getChunks _ _ _ _ _ _ _) as [out|] eqn:Hc; [|done]. cbn. destruct (_ <? 0); [done|]. intros [= <-].
    eapply Forall_take, getChunks_bytes; [|exact Hc]. constructor.
Qed.

Lemma epoch_wf_ok `{Crypto} gov state info :
  Z.of_nat (length (ei_Candidates info)) < 2 ^ 32 -> epoch_wf gov state info -> epoch_ok info.
Proof.
  intros Hlen [Haddr Hd _ Hkeys Hrange _]. split_and!.
  - apply Forall_forall. intros c Hc. rewrite Forall_forall in Hd. pose proof (Hd c Hc) as Hdc.
    unfold diligence_ok, DiligenceDenominator in Hdc. split; [|lia].
    assert (cd_Addr c ∈ ValidatorList gov state) as Hin by (rewrite <- Haddr; apply list_elem_of_fmap; eauto).
    unfold ValidatorList, es_Values in Hin. apply list_elem_of_fmap in Hin as (i & -> & _). apply HashToAddress_range.
  - eapply Forall_impl; [exact Hrange|]. cbn. lia.
  - clear Hrange. induction Hkeys as [|i k vs ks (_ & c & _ & Hk) _ IH]; constructor; [|done]. by eapply GetBytes_bytes.
Qed.

(** * Agreement *)

Lemma buildEpochInfo_engine `{Crypto} `{SortSlice} chain cfg s1 f1 g1 s2 f2 g2 h state :
  buildEpochInfo (NewEngine cfg s1 f1 g1) chain h state = buildEpochInfo (NewEngine cfg s2 f2 g2) chain h state.
Proof. reflexivity. Qed.

Lemma checkCandidates_refl cs : checkCandidates cs cs = Ret tt.
Proof. induction cs as [|c cs IH]; [done|]. cbn. by rewrite !Z.eqb_refl. Qed.

Lemma verifyEpoch_Ret `{Crypto} `{SortSlice} e chain h state x info :
  buildEpochInfo e chain (CopyHeader h) state = Ret (Some info) -> ExtractWBFTExtra h = inr x ->
  we_EpochInfo x = Some info -> verifyEpoch e chain h state = Ret tt.
Proof.
  intros Hb Hx Hi. unfold verifyEpoch. rewrite Hb, Hx. cbn [rlp_result]. rewrite !ret_bind, Hi. cbn [orFail must].
  rewrite !ret_bind, !Z.eqb_refl, checkCandidates_refl. cbn [negb reject]. rewrite !ret_bind.
  rewrite !bool_decide_eq_true_2 by done. done.
Qed.

Lemma writeEpoch_inv `{Crypto} `{SortSlice} e chain h h' state num vs x :
  h_Number h = Some num -> GetValidators e chain num (h_ParentHash h) [] = Ret vs ->
  0 <= fst (GetByAddress vs (eng_signer e)) -> getExtra h = Ret x -> writeEpoch e chain h state = Ret h' ->
  exists epoch b, buildEpochInfo e chain h state = Ret epoch /\ EncodeExtra (set_we_EpochInfo epoch x) = inr b /\ h' = set_h_Extra b h.
Proof.
  intros Hnum Hvs Hidx Hx Hrun. unfold writeEpoch in Hrun. rewrite Hnum in Hrun. cbn [must] in Hrun.
  rewrite ret_bind, Hvs, ret_bind in Hrun. destruct (Z.ltb_spec (fst (GetByAddress vs (eng_signer e))) 0); [lia|].
  apply bind_Ret in Hrun as (epoch & Hb & Hrun). unfold ApplyHeaderWBFTExtra, setExtra in Hrun. rewrite Hx, ret_bind in Hrun.
  unfold WriteEpochInfo in Hrun. cbn [Combine] in Hrun. rewrite !ret_bind in Hrun.
  destruct (EncodeExtra (set_we_EpochInfo epoch x)) as [er|b] eqn:Hb'; [discriminate Hrun|]. cbn [rlp_result] in Hrun.
  rewrite !ret_bind in Hrun. injection Hrun as <-. by exists epoch, b.
Qed.

Lemma epoch_extra_ok x info : extra_ok x -> epoch_ok info -> extra_ok (set_we_EpochInfo (Some info) x).
Proof. intros (H1 & H2 & H3 & H4 & H5 & H6 & H7 & H8 & H9 & _) Hi. by refine (conj H1 (conj H2 (conj H3 (conj H4 (conj H5 (conj H6 (conj H7 (conj H8 (conj H9 Hi))))))))). Qed.

(** * Properties *)

(** C34. The next epoch.  Whenever the engine builds epoch information after
    genesis, its candidates are exactly the validators registered in the
    GovValidator contract, in the contract's order; each has a diligence of at
    most twice the denominator; and the validators are exactly the candidates
    with a BLS key, each once, by an index in range and with its key of the
    contract at the same position. *)
Theorem nextEpoch_wellformed `{Crypto} `{SortSlice} (e : Engine) (chain : Chain) (header : Header) (state : StateReader)
    (num : Z) (info : EpochInfo) (Hnum : h_Number header = Some num) (Hne : num <> 0)
    (Hlen : forall gov, govValidator e chain num = Ret gov -> Z.of_nat (length (ValidatorList gov state)) < 2 ^ 32)
    (Hbuild : buildEpochInfo e chain header state = Ret (Some info)) :
  exists gov, govValidator e chain num = Ret gov /\ epoch_wf gov state info.
Proof. by eapply buildEpochInfo_ok. Qed.

(** C25. Proposer and validators agree on the epoch.  The epoch information that
    a validating proposer writes into its epoch block is accepted by every node
    with the same configuration, chain and state, although it is recomputed from
    the finished header. *)
Theorem writtenEpoch_accepted `{Crypto} `{SortSlice} (e e2 : Engine) (chain : Chain) (h h' : Header) (state : StateReader)
    (num : Z) (vs : ValidatorSet) (x : WBFTExtra)
    (Hcfg : eng_cfg e2 = eng_cfg e) (Hnum : h_Number h = Some num) (Hne : num <> 0)
    (Hepoch : exists last, IsEpochBlockNumber e num = Ret (true, last))
    (Hvs : GetValidators e chain num (h_ParentHash h) [] = Ret vs) (Hidx : 0 <= fst (GetByAddress vs (eng_signer e)))
    (Hbytes : Forall is_byte (h_Extra h)) (Hlong : IstanbulExtraVanity <= Z.of_nat (length (h_Extra h)) < 2 ^ 64)
    (Hx : ExtractWBFTExtra h = inr x)
    (Hlen : forall gov, govValidator e chain num = Ret gov -> Z.of_nat (length (ValidatorList gov state)) < 2 ^ 32)
    (Hsize : forall info, buildEpochInfo e chain h state = Ret (Some info) ->
       Z.of_nat (length (enc (extra_val (set_we_EpochInfo (Some info) x)))) < 2 ^ 64)
    (Hwrite : writeEpoch e chain h state = Ret h') :
  verifyEpoch e2 chain h' state = Ret tt /\
  exists info, ExtractWBFTExtra h' = inr (set_we_EpochInfo (Some info) x) /\ epoch_ok info.
Proof.
  pose proof (getExtra_long h x ltac:(lia) Hx) as Hget.
  destruct (writeEpoch_inv e chain h h' state num vs x Hnum Hvs Hidx Hget Hwrite) as (epoch & b & Hb & Henc & ->).
  destruct epoch as [info|].
  2:{ unfold buildEpochInfo in Hb. rewrite Hnum in Hb. destruct Hepoch as [last Hep]. cbn [must] in Hb. rewrite ret_bind, Hep, ret_bind in Hb.
      cbn [negb] in Hb. destruct (Z.eqb_spec num 0); [done|].
      repeat (apply bind_Ret in Hb as (? & _ & Hb); repeat case_match). discriminate Hb. }
  destruct (ExtractExtra_inv (h_Extra h) x Hbytes ltac:(lia) Hx) as (_ & _ & Hok & Hwire).
  destruct (buildEpochInfo_ok e chain h state num info Hnum Hne Hb Hlen) as (gov & Hgov & Hwf).
  assert (epoch_ok info) as Hiok.
  { eapply epoch_wf_ok; [|exact Hwf]. specialize (Hlen gov Hgov). by rewrite <- (ew_candidates _ _ _ Hwf), length_map in Hlen. }
  pose proof (epoch_extra_ok x info Hok Hiok) as Hok'.
  destruct (EncodeExtra_ok _ Hok' (Hsize info Hb)) as [Henc' Hdec]. rewrite Henc in Henc'. injection Henc' as ->.
  assert (wire (set_we_EpochInfo (Some info) x) = set_we_EpochInfo (Some info) x) as Hw.
  { destruct x. unfold wire, set_we_EpochInfo in *. cbn in *. by injection Hwire as <-. }
  rewrite Hw in Hdec. split; [|by exists info].
  eapply (verifyEpoch_Ret _ _ _ _ (set_we_EpochInfo (Some info) x) info); [|exact Hdec|done].
  destruct e as [cfg s1 f1 g1], e2 as [cfg2 s2 f2 g2]. cbn [eng_cfg] in Hcfg. subst cfg2.
  rewrite (buildEpochInfo_engine chain cfg s2 f2 g2 s1 f1 g1), <- Hb. apply buildEpochInfo_same.
  split; try done; [cbn; by rewrite Hnum|]. exists (set_we_EpochInfo (Some info) x), x. by split_and!.
Qed.

(** The weight of an epoch in the cumulative diligence of a candidate: the blocks
    of the epoch whose seals it could contribute. *)
Definition applyingRate (ci : candidateInfo) (e : Z) : Z :=
  if negb (ci_isValidator ci) then 1 else if negb (ci_wasValidator ci) then e - 1 else e.
Definition maxProposed (ci : candidateInfo) (first_ : bool) (n being diff : Z) : Z :=
  2 * n * being - (if first_ && ci_wasValidator ci then 2 * diff else 0).
(** The diligence of one epoch, [d(h) = p / (2*v*w) + s / (2*e)]. *)
Definition epochDiligence (ci : candidateInfo) (first_ : bool) (e s p being n diff : Z) : Z :=
  s * DiligenceDenominator / (2 * applyingRate ci e) +
  (if 0 <? being then p * DiligenceDenominator / maxProposed ci first_ n being diff else DiligenceDenominator).

Lemma ratio_range x y : 0 <= x <= y -> 0 < y -> 0 <= x * DiligenceDenominator / y <= DiligenceDenominator.
Proof.
  unfold DiligenceDenominator. intros Hx Hy. split; [apply Z.div_pos; lia|]. apply Z.div_le_upper_bound; nia.
Qed.

Lemma epochDiligence_range ci first_ e s p being n diff :
  0 < applyingRate ci e -> 0 <= s <= 2 * applyingRate ci e ->
  (0 < being -> 0 < maxProposed ci first_ n being diff /\ 0 <= p <= maxProposed ci first_ n being diff) ->
  0 <= epochDiligence ci first_ e s p being n diff <= 2 * DiligenceDenominator.
Proof.
  intros Hr Hs Hp. pose proof (ratio_range s (2 * applyingRate ci e) ltac:(lia) ltac:(lia)). unfold epochDiligence.
  destruct (Z.ltb_spec 0 being) as [Hb|Hb]; [|unfold DiligenceDenominator in *; lia].
  destruct (Hp Hb) as [Hm Hpm]. pose proof (ratio_range p _ Hpm Hm). lia.
Qed.

Lemma sealDiligence_exact ci e s :
  0 < e < 2 ^ 32 -> 0 < applyingRate ci e -> 0 <= s <= 2 * applyingRate ci e ->
  sealDiligence ci e s = Ret (applyingRate ci e, s * DiligenceDenominator / (2 * applyingRate ci e)).
Proof.
  intros He Hr Hs. assert (applyingRate ci e <= e) by (unfold applyingRate in *; repeat case_match; lia).
  unfold sealDiligence, DiligenceDenominator. rewrite (u64_small s), (u64_small (s * _)), (u64_small (2 * e)) by lia.
  rewrite (proj2 (udiv_Ret _ (2 * e) _)) by (split; [lia|done]). rewrite ret_bind.
  unfold applyingRate in *. destruct (ci_isValidator ci); cbn [negb] in *; [|done].
  destruct (ci_wasValidator ci); cbn [negb] in *; [done|]. rewrite !(u64_small (e - 1)), !(u64_small (2 * (e - 1))) by lia.
  destruct (Z.ltb_spec (2 * (e - 1)) s); [lia|]. cbn [reject].
  rewrite (proj2 (udiv_Ret _ (2 * (e - 1)) _)) by (split; [lia|done]). done.
Qed.

Lemma proposerDiligence_exact ci first_ d p being n diff :
  0 <= d <= DiligenceDenominator ->
  (0 < being -> 0 < maxProposed ci first_ n being diff < 2 ^ 40 /\ 0 <= p <= maxProposed ci first_ n being diff) ->
  proposerDiligence ci first_ d p being n diff =
  Ret (d + (if 0 <? being then p * DiligenceDenominator / maxProposed ci first_ n being diff else DiligenceDenominator)).
Proof.
  intros Hd Hp. unfold proposerDiligence. cbv zeta.
  assert ((if first_ && ci_wasValidator ci then 2 * n * being - 2 * diff else 2 * n * being) = maxProposed ci first_ n being diff) as ->
    by (unfold maxProposed; case_match; lia).
  destruct (Z.ltb_spec 0 being) as [Hb|Hb]; [|unfold DiligenceDenominator in *; by rewrite u64_small by lia].
  destruct (Hp Hb) as [Hm Hpm]. pose proof (ratio_range p _ Hpm ltac:(lia)) as Hq. unfold DiligenceDenominator in *.
  rewrite (u64_small p), (u64_small (p * _)), (u64_small (maxProposed _ _ _ _ _)) by lia.
  rewrite (proj2 (udiv_Ret _ (maxProposed ci first_ n being diff) _)) by (split; [lia|done]). rewrite ret_bind, u64_small by lia. done.
Qed.

(** Diligence.  For a candidate of the current epoch whose counts are those
    of a real epoch (it contributed at most two seals to each block it could seal,
    and its blocks carry no more seals than there were validators), the 64-bit
    computation does not wrap, divide by zero or fail: it is the documented
    weighted average of the old diligence and the epoch's, and stays within twice
    the denominator, so the block is never rejected for it. *)
Theorem nextDiligence_exact (ci : candidateInfo) (first_ : bool) (e s p being n diff : Z)
    (He : 0 < e < 2 ^ 32) (Hr : 0 < applyingRate ci e) (Hs : 0 <= s <= 2 * applyingRate ci e)
    (Hp : 0 < being -> 0 < maxProposed ci first_ n being diff < 2 ^ 40 /\ 0 <= p <= maxProposed ci first_ n being diff)
    (HD : diligence_ok (ci_candidate ci)) :
  let r := applyingRate ci e in
  let d := epochDiligence ci first_ e s p being n diff in
  let d' := (cd_Diligence (ci_candidate ci) * (10 * e - r) + d * r) / 10 / e in
  nextDiligence ci first_ e s p being n diff = Ret d' /\ 0 <= d' <= 2 * DiligenceDenominator.
Proof.
  intros r d d'. unfold diligence_ok in HD. set (D := cd_Diligence (ci_candidate ci)) in *.
  assert (r <= e) as Hre by (unfold r, applyingRate in *; repeat case_match; lia).
  assert (0 <= d <= 2 * DiligenceDenominator) as Hd.
  { apply epochDiligence_range; [done|done|]. intros Hb. destruct (Hp Hb). lia. }
  assert (0 <= D * (10 * e - r) + d * r <= 2 * DiligenceDenominator * (10 * e)) as Hsum by (unfold r in *; nia).
  split.
  2:{ unfold d'. split; [apply Z.div_pos; [apply Z.div_pos; lia|lia]|].
      apply Z.div_le_upper_bound; [lia|]. apply Z.div_le_upper_bound; [lia|]. nia. }
  unfold nextDiligence. rewrite (sealDiligence_exact ci e s He Hr Hs), ret_bind.
  rewrite (proposerDiligence_exact ci first_ _ p being n diff (ratio_range s (2 * applyingRate ci e) ltac:(lia) ltac:(lia)) Hp), ret_bind.
  fold (epochDiligence ci first_ e s p being n diff). fold r d D. unfold DiligenceDenominator in *.
  rewrite (u64_small (10 * e)), (u64_small (10 * e - r)), (u64_small (D * _)), (u64_small (d * r)), u64_small by nia.
  apply udiv_Ret. split; [lia|done].
Qed.

Lemma nextDiligence_exact_witness :
  nextDiligence (mkCandidateInfo true true (MkCandidate 7 1900000)) false 10 20 12 2 4 0 = Ret 1885000 /\
  0 <= 1885000 <= 2 * DiligenceDenominator.
Proof.
  apply (nextDiligence_exact (mkCandidateInfo true true (MkCandidate 7 1900000)) false 10 20 12 2 4 0).
  - lia.
  - vm_compute. reflexivity.
  - vm_compute. split; discriminate.
  - intros _. vm_compute. repeat split; discriminate.
  - vm_compute. split; discriminate.
Defined.
