(* ===== verification/HeaderCheck.v ===== *)
(** Checking and preparing headers (src/consensus/wbft/engine/engine.go). *)
From S2P Require Import Prelude Float64 Validators Messages Rlp RlpStream Extra Config ChainConfig Header Seals BaseFee StateUtil StateDB Epoch EpochBuild.

Definition mustHavePrevSeals (number : Z) : bool := 1 <? number.

Section check.
Context `{Cr : Crypto} `{!BlsAggregate} (e : Engine) (chain : Chain).

(** [nilUncleHash] is [types.EmptyUncleHash], the hash of an empty list. *)
Definition nilUncleHash : Hash := be_value (Keccak256 [0xC0]).

(** * Randao *)

(** The chain ID is set; a nil one would panic. *)
Definition makeRandaoData (config : ChainConfig) (number : Z) : bytes :=
  Keccak256 (big_Bytes (Z.abs (default 0 (ChainID config))) ++ big_Bytes 1 ++ big_Bytes (Z.abs number)).

Definition CalculateRandaoMix (prevRandaoMix : Hash) (randaoReveal : bytes) : Hash :=
  let bigA := be_value (hashBytes prevRandaoMix) in
  let bigB := be_value (hashBytes (BytesToHash (Keccak256 randaoReveal))) in
  BigToHash (Z.lxor bigA bigB).

Definition WriteRandao (config : ChainConfig) (number : Z) : ApplyWBFTExtra := fun x =>
  randaoReveal ← orFail (eng_sign e (makeRandaoData config number)) ErrSign;
  mret (set_we_RandaoReveal randaoReveal x).

(** * Gas tip *)

Definition getGasTip (header : Header) : Eng Z :=
  anzeon ← must (Anzeon (ch_Config chain));
  sc ← orFail (SystemContracts_ anzeon) ErrGovValidatorDisabled;
  num ← must (h_Number header);
  parent ← orFail (GetHeader chain (h_ParentHash header) (u64 (big_Uint64 num - 1))) ErrUnknownAncestor;
  _ ← reject (h_Root parent =? 0) ErrEmptyStateRoot;
  parentState ← orFail (StateAt chain (h_Root parent)) ErrStateUnavailable;
  gv ← must (GovValidator sc);
  mret (GetGasTip (sc_Address gv) (sd_storage parentState)).

Definition verifyGasTip (header : Header) : Eng unit :=
  extra ← rlp_result (ExtractWBFTExtra header);
  gastip ← getGasTip header;
  match we_GasTip extra with
  | Some t => reject (negb (t =? gastip)) GasTipMismatchError
  | None => Fail GasTipMismatchError
  end.

(** * Headers *)

Definition Author (header : Header) : Address := h_Coinbase header.

Definition verifySigner (header parent : Header) (validators : ValidatorSet) : Eng unit :=
  num ← must (h_Number header);
  _ ← reject (big_Uint64 num =? 0) ErrUnknownBlock;
  let signer := Author header in
  _ ← orFail (snd (GetByAddress validators signer)) ErrUnauthorized;
  state ← orFail (StateAt chain (h_Root parent)) ErrStateUnavailable;
  reject (IsBlacklisted state signer) ErrBlacklistedSigner.

(** [err != nil && !errors.Is(err, ErrStateUnavailable)]. *)
Definition unlessStateUnavailable (r : Eng unit) : Eng unit :=
  match r with Fail ErrStateUnavailable => Ret tt | r => r end.

(** Gas tip errors other than the two critical ones are skipped. *)
Definition criticalGasTip (r : Eng unit) : Eng unit :=
  match r with
  | Fail ErrGasTipContractUnavailable => Fail ErrGasTipContractUnavailable
  | Fail GasTipMismatchError => Fail GasTipMismatchError
  | Fail _ => Ret tt
  | r => r
  end.

Definition verifyCascadingFields (header : Header) (validators prevValidators : ValidatorSet) (parents : list Header)
    (checkSeal : bool) : Eng unit :=
  num ← must (h_Number header);
  let number := big_Uint64 num in
  if number =? 0 then Ret tt
  else
    parent ← orFail (match last parents with
                     | Some p => Some p
                     | None => GetHeader chain (h_ParentHash header) (u64 (number - 1))
                     end) ErrUnknownAncestor;
    parentNumber ← must (h_Number parent);
    _ ← reject (negb (parentNumber + 1 =? num)) ErrUnknownAncestor;
    _ ← reject (negb (header_Hash parent =? h_ParentHash header)) ErrUnknownAncestor;
    _ ← reject (h_Time header <? u64 (h_Time parent + BlockPeriod (GetConfig (eng_cfg e) num))) ErrInvalidTimestamp;
    _ ← reject (h_GasLimit header <? h_GasUsed header) ErrGasUsed;
    _ ← (if negb (IsLondon (ch_Config chain) (Some num)) then
           _ ← reject (bool_decide (h_BaseFee header <> None)) ErrBaseFeeBeforeFork;
           VerifyGaslimit (h_GasLimit parent) (h_GasLimit header)
         else VerifyEIP1559Header (ch_Config chain) parent header);
    _ ← unlessStateUnavailable (verifySigner header parent validators);
    currentExtra ← mapError (rlp_result (ExtractWBFTExtra header)) ErrInvalidExtraDataFormat;
    _ ← (if checkSeal then verifySeals header validators currentExtra else Ret tt);
    _ ← reject (negb (eng_checkSig e (makeRandaoData (ch_Config chain) num) (h_Coinbase header) (we_RandaoReveal currentExtra)))
          ErrRandaoReveal;
    _ ← reject (negb (CalculateRandaoMix (h_MixDigest parent) (we_RandaoReveal currentExtra) =? h_MixDigest header)) ErrRandaoMix;
    _ ← (if mustHavePrevSeals num then verifyPrevSeals parent prevValidators currentExtra else Ret tt);
    criticalGasTip (verifyGasTip header).

(** [now] is the clock in nanoseconds; [time.Duration] is an [int64]. *)
Definition adjustedTimeNow (now : Z) : Z :=
  u64 ((now + i64 (i64 (AllowedFutureBlockTime (eng_cfg e)) * Second)) / Second).

Definition verifyHeader (now : Z) (header : Header) (parents : list Header) (validators prevValidators : ValidatorSet)
    (checkSeals : bool) : Eng unit :=
  num ← orFail (h_Number header) ErrUnknownBlock;
  _ ← reject (negb ((0 <=? num) && (num <? 2 ^ 64))) ErrInvalidBlockNumber;
  _ ← reject (adjustedTimeNow now <? h_Time header) ErrFutureBlockTime;
  _ ← reject (negb (h_UncleHash header =? nilUncleHash)) ErrInvalidUncleHash;
  _ ← reject (negb (bool_decide (h_Difficulty header = Some WBFTDefaultDifficulty))) ErrInvalidDifficulty;
  _ ← reject (MaxGasLimit <? h_GasLimit header) ErrGasLimitTooHigh;
  _ ← reject (IsShanghai (ch_Config chain) (Some num) (h_Time header)) ErrShanghai;
  _ ← reject (bool_decide (h_WithdrawalsHash header <> None)) ErrWithdrawalsHash;
  _ ← reject (IsCancun (ch_Config chain) (Some num) (h_Time header)) ErrCancun;
  _ ← reject (bool_decide (h_ExcessBlobGas header <> None)) ErrExcessBlobGas;
  _ ← reject (bool_decide (h_BlobGasUsed header <> None)) ErrBlobGasUsed;
  _ ← reject (bool_decide (h_ParentBeaconRoot header <> None)) ErrParentBeaconRoot;
  verifyCascadingFields header validators prevValidators parents checkSeals.

Definition VerifySeal (header : Header) (validators : ValidatorSet) : Eng unit :=
  num ← must (h_Number header);
  _ ← reject (big_Uint64 num =? 0) ErrUnknownBlock;
  diff ← must (h_Difficulty header);
  _ ← reject (negb (diff =? WBFTDefaultDifficulty)) ErrInvalidDifficulty;
  parent ← orFail (GetHeader chain (h_ParentHash header) (u64 (big_Uint64 num - 1))) ErrUnknownAncestor;
  verifySigner header parent validators.

Definition PeriodToNextBlock (blockNumber : Z) : Z := BlockPeriod (GetConfig (eng_cfg e) blockNumber).

(** * Preparing a header *)

Definition EmptyBlockNonce : Z := 0.

(** The fields that [Prepare] sets before it writes extra-data, and the mix
    digest afterwards. *)
Definition preparedHeader (header : Header) (time : Z) : Header :=
  MkHeader (h_ParentHash header) (h_UncleHash header) (eng_signer e) (h_Root header) (h_TxHash header) (h_ReceiptHash header)
    (h_Bloom header) (Some WBFTDefaultDifficulty) (h_Number header) (h_GasLimit header) (h_GasUsed header) time
    (h_Extra header) (h_MixDigest header) EmptyBlockNonce (h_BaseFee header) (h_WithdrawalsHash header)
    (h_BlobGasUsed header) (h_ExcessBlobGas header) (h_ParentBeaconRoot header).
Definition set_h_MixDigest (mix : Hash) (h : Header) : Header :=
  MkHeader (h_ParentHash h) (h_UncleHash h) (h_Coinbase h) (h_Root h) (h_TxHash h) (h_ReceiptHash h)
    (h_Bloom h) (h_Difficulty h) (h_Number h) (h_GasLimit h) (h_GasUsed h) (h_Time h) (h_Extra h) mix
    (h_Nonce h) (h_BaseFee h) (h_WithdrawalsHash h) (h_BlobGasUsed h) (h_ExcessBlobGas h) (h_ParentBeaconRoot h).

(** The previous seals of the header, with the late seals merged in. *)
Definition prevSeals (header : Header) (num : Z) (extraPreparedSeal extraCommittedSeal : list SealData) : Eng (list ApplyWBFTExtra) :=
  if mustHavePrevSeals num then
    lastCanonicalHeader ← must (GetHeaderByNumber chain (u64 (big_Uint64 num - 1)));
    lastNumber ← must (h_Number lastCanonicalHeader);
    if lastNumber =? 0 then Ret []
    else
      extra ← rlp_result (ExtractWBFTExtra lastCanonicalHeader);
      preparedSeal ← orFail (we_PreparedSeal extra) ErrEmptyPreparedSeals;
      committedSeal ← orFail (we_CommittedSeal extra) ErrEmptyCommittedSeals;
      let prevPreparedSeal := mergeSeals preparedSeal extraPreparedSeal in
      let prevCommittedSeal := mergeSeals committedSeal extraCommittedSeal in
      mret [WritePrevSeals (we_Round extra) (Some prevPreparedSeal) (Some prevCommittedSeal)]
  else Ret [].

(** [now] and [now'] are the two readings of the clock, in seconds. *)
Definition Prepare (now now' : Z) (header : Header) (extraPreparedSeal extraCommittedSeal : list SealData) : Eng Header :=
  num ← must (h_Number header);
  parent ← orFail (GetHeader chain (h_ParentHash header) (u64 (big_Uint64 num - 1))) ErrUnknownAncestor;
  let time := u64 (h_Time parent + BlockPeriod (GetConfig (eng_cfg e) num)) in
  let time := if time <? u64 now then u64 now' else time in
  let header := preparedHeader header time in
  gasTip ← getGasTip header;
  applies ← prevSeals header num extraPreparedSeal extraCommittedSeal;
  '(madeExtra, header) ← ApplyHeaderWBFTExtra header (WriteRandao (ch_Config chain) num :: applies ++ [WriteGasTip gasTip]);
  mret (set_h_MixDigest (CalculateRandaoMix (h_MixDigest parent) (we_RandaoReveal madeExtra)) header).
End check.
