(* ===== verification/HeaderProps.v ===== *)
(** What an accepted header guarantees, and that an honest proposal is accepted. *)
From S2P Require Import Prelude Float64 Validators Messages Rlp RlpStream RlpSpec RlpLists Extra ExtraProps Config ChainConfig Header Seals SealProps SealVerify BaseFee StateUtil StateDB Epoch EpochBuild HeaderCheck.

(** * Accepted headers *)

Section accepted.
Context `{Cr : Crypto} `{Ag : !BlsAggregate} (e : Engine) (chain : Chain).

(** With an allowance whose nanoseconds fit [int64], the limit is the clock's
    second plus the allowance. *)
Lemma adjustedTimeNow_exact now :
  0 <= AllowedFutureBlockTime (eng_cfg e) -> AllowedFutureBlockTime (eng_cfg e) * Second < 2 ^ 63 ->
  adjustedTimeNow e now = u64 (now / Second + AllowedFutureBlockTime (eng_cfg e)).
Proof.
  intros Ha Hb. unfold adjustedTimeNow. unfold Second in *. rewrite (i64_small (AllowedFutureBlockTime _)) by lia.
  rewrite i64_small, Z.div_add by lia. done.
Qed.

(** The rules between a header and its parent. *)
Record follows_parent (now : Z) (header parent : Header) (num : Z) (x : WBFTExtra) (vs pvs : ValidatorSet) : Prop := {
  fp_number : h_Number parent = Some (num - 1);
  fp_hash : header_Hash parent = h_ParentHash header;
  fp_extra : ExtractWBFTExtra header = inr x;
  fp_time : u64 (h_Time parent + PeriodToNextBlock e num) <= h_Time header <= adjustedTimeNow e now;
  fp_gas : h_GasUsed header <= h_GasLimit header <= MaxGasLimit;
  fp_fee : IsLondon (ch_Config chain) (Some num) = true -> VerifyEIP1559Header (ch_Config chain) parent header = Ret tt;
  fp_signer : h_Coinbase header ∈ AddressList vs;
  fp_blacklist : forall s, StateAt chain (h_Root parent) = Some s -> IsBlacklisted s (h_Coinbase header) = false;
  fp_seals : verifySeals header vs x = Ret tt;
  fp_prev : 1 < num -> verifyPrevSeals parent pvs x = Ret tt;
  fp_reveal : eng_checkSig e (makeRandaoData (ch_Config chain) num) (h_Coinbase header) (we_RandaoReveal x) = true;
  fp_mix : h_MixDigest header = CalculateRandaoMix (h_MixDigest parent) (we_RandaoReveal x);
  fp_tip : forall t, getGasTip chain header = Ret t -> we_GasTip x = Some t;
  fp_forks : h_WithdrawalsHash header = None /\ h_ExcessBlobGas header = None /\ h_BlobGasUsed header = None /\
    h_ParentBeaconRoot header = None /\ h_Difficulty header = Some WBFTDefaultDifficulty /\ h_UncleHash header = nilUncleHash;
}.

Lemma verifySigner_ok header parent vs num :
  h_Number header = Some num -> unlessStateUnavailable (verifySigner chain header parent vs) = Ret tt ->
  h_Coinbase header ∈ AddressList vs /\
  forall s, StateAt chain (h_Root parent) = Some s -> IsBlacklisted s (h_Coinbase header) = false.
Proof.
  intros Hnum Hrun. unfold verifySigner, Author in Hrun. rewrite Hnum in Hrun. cbn [must] in Hrun. rewrite ret_bind in Hrun.
  destruct (big_Uint64 num =? 0); [discriminate Hrun|]. cbn [reject] in Hrun. rewrite ret_bind in Hrun.
  destruct (GetByAddress vs (h_Coinbase header)) as [i [v|]] eqn:Hget; [|discriminate Hrun]. cbn [snd orFail] in Hrun. rewrite ret_bind in Hrun.
  split.
  - apply GetByAddress_elem. by exists i, v.
  - intros s Hs. rewrite Hs in Hrun. cbn [orFail] in Hrun. rewrite ret_bind in Hrun. by destruct (IsBlacklisted s _).
Qed.

Lemma criticalGasTip_ok header x :
  ExtractWBFTExtra header = inr x -> criticalGasTip (verifyGasTip chain header) = Ret tt ->
  forall t, getGasTip chain header = Ret t -> we_GasTip x = Some t.
Proof.
  intros Hx Hrun t Ht. unfold verifyGasTip in Hrun. rewrite Hx in Hrun. cbn [rlp_result] in Hrun. rewrite ret_bind, Ht, ret_bind in Hrun.
  destruct (we_GasTip x) as [t'|]; [|discriminate Hrun]. destruct (Z.eqb_spec t' t) as [Heq|Hne]; [by rewrite Heq|discriminate Hrun].
Qed.

Lemma mapError_rlp {A} (r : RlpError + A) err a : mapError (rlp_result r) err = Ret a -> r = inr a.
Proof. destruct r; cbn; congruence. Qed.

Lemma verifyHeader_follows now header parents vs pvs num :
  h_Number header = Some num -> 0 < num < 2 ^ 64 -> verifyHeader e chain now header parents vs pvs true = Ret tt ->
  exists parent x, follows_parent now header parent num x vs pvs /\
    match last parents with Some p => parent = p | None => GetHeader chain (h_ParentHash header) (num - 1) = Some parent end.
Proof.
  intros Hnum Hn Hrun. unfold verifyHeader in Hrun. rewrite Hnum in Hrun. cbn [orFail] in Hrun. rewrite ret_bind in Hrun.
  outcome_inv. zify_bools.
  match goal with H : verifyCascadingFields _ _ _ _ _ _ _ = _ |- _ => rename H into Hcas end.
  unfold verifyCascadingFields in Hcas. rewrite Hnum in Hcas. cbn [must] in Hcas. rewrite ret_bind in Hcas.
  rewrite big_Uint64_small, u64_small in Hcas by lia. destruct (Z.eqb_spec num 0); [lia|].
  apply bind_Ret in Hcas as (parent & Hparent & Hcas). apply orFail_Ret in Hparent.
  apply bind_Ret in Hcas as (pn & Hpn & Hcas). apply must_Ret in Hpn.
  outcome_inv. zify_bools.
  match goal with H : mapError _ _ = Ret ?y |- _ => rename y into x; apply mapError_rlp in H; rename H into Hx end.
  match goal with H : unlessStateUnavailable _ = _ |- _ => destruct (verifySigner_ok header parent vs num Hnum H) as [Hsigner Hblack] end.
  match goal with H : criticalGasTip _ = _ |- _ => pose proof (criticalGasTip_ok header x Hx H) as Htip end.
  exists parent, x. split; [|by destruct (last parents); congruence].
  assert (forall A (o : option A), ~ o <> None -> o = None) as Hnone.
  { intros A [a|]; [|done]. intros Hn'. by destruct Hn'. }
  split; try done.
  - rewrite Hpn. f_equal. lia.
  - intros Hl. match goal with H : (if negb (IsLondon _ _) then _ else _) = _ |- _ => by rewrite Hl in H end.
  - intros Hgt. match goal with H : (if mustHavePrevSeals num then _ else _) = _ |- _ => unfold mustHavePrevSeals in H; destruct (Z.ltb_spec 1 num); [done|lia] end.
  - split_and!; (by apply Hnone) || done.
Qed.
End accepted.

(** * The extra-data of a proposal *)

Lemma enc_string_length_ge b : len b <= len (enc_string b).
Proof.
  unfold enc_string. destruct b as [|y [|z b]]; rewrite ?length_app; [lia| |lia]. case_match; cbn [length]; lia.
Qed.

Lemma seal_length_le s : len (as_Sealers s) + len (as_Signature s) <= len (enc (seal_val s)).
Proof.
  change (enc (seal_val s)) with (enc (VList [VBytes (as_Sealers s); VBytes (as_Signature s)])).
  pose proof (enc_list_length [VBytes (as_Sealers s); VBytes (as_Signature s)]) as Hl.
  cbn [map concat] in Hl. rewrite app_nil_r, length_app in Hl.
  pose proof (enc_string_length_ge (as_Sealers s)). pose proof (enc_string_length_ge (as_Signature s)).
  cbn [enc] in *. lia.
Qed.

Section merge.
Context `{Cr : Crypto} `{Ag : !BlsAggregate} `{Laws : !BlsLaws}.

Lemma addExtraSeals_bytes ds s l s' l' :
  Forall (fun d => 0 <= sd_Sealer d < 2 ^ 32) ds -> bytes_ok s -> len s <= 2 ^ 29 ->
  addExtraSeals ds s l = (s', l') -> bytes_ok s' /\ len s' <= 2 ^ 29.
Proof.
  intros Hds. revert s l. induction Hds as [|d ds Hd _ IH]; intros s l Hs Hl Hrun; cbn [addExtraSeals] in Hrun.
  { by injection Hrun as <- <-. }
  destruct (IsSealer s (sd_Sealer d)); [by eapply IH|].
  eapply IH; [|by apply length_SetSealer|exact Hrun]. apply SetSealer_bytes; [lia|done].
Qed.

Lemma mergeSeals_ok s ds :
  Forall (fun d => 0 <= sd_Sealer d < 2 ^ 32) ds -> seal_ok s -> len (as_Sealers s) <= 2 ^ 29 ->
  seal_ok (mergeSeals s ds) /\ len (as_Sealers (mergeSeals s ds)) <= 2 ^ 29 /\
  len (as_Signature (mergeSeals s ds)) <= len (as_Signature s) + 96 /\
  (len (as_Signature s) <> 0 -> len (as_Signature (mergeSeals s ds)) <> 0).
Proof.
  intros Hds [Hs1 Hs2] Hl. unfold mergeSeals. destruct ds as [|d ds]; [split_and!; try done; lia|].
  destruct (addExtraSeals _ _ _) as [s' l'] eqn:Hadd.
  destruct (addExtraSeals_bytes _ _ _ _ _ Hds Hs1 Hl Hadd) as [Hb Hlen].
  destruct (AggregateCompressedSignatures l') as [a|]; [|split_and!; try done; lia].
  pose proof (marshal_length a) as Hm. unfold IstanbulExtraSeal in Hm. cbn [as_Sealers as_Signature].
  split_and!; try done; [split; [done|apply marshal_bytes]|lia|lia].
Qed.
End merge.

Definition proposalExtra (vanity reveal : bytes) (prevRound : Z) (p c : option WBFTAggregatedSeal) (tip : Z) : WBFTExtra :=
  MkExtra vanity reveal prevRound p c 0 None None (Some tip) None.

Definition seal_small (o : option WBFTAggregatedSeal) : Prop :=
  ptr_ok (fun s => seal_ok s /\ len (as_Sealers s) <= 2 ^ 29 /\ len (as_Signature s) < 2 ^ 61) o.

Lemma ptr_seal_length o : seal_small o -> len (enc (ptr_val seal_val o)) <= 2 ^ 61 + 2 ^ 30.
Proof.
  destruct o as [s|]; [|cbn; lia]. intros (_ & H1 & H2). cbn [ptr_val]. pose proof (enc_seal_length s). lia.
Qed.

Lemma proposalExtra_ok vanity reveal r p c tip :
  bytes_ok vanity -> len vanity = 32 -> bytes_ok reveal -> len reveal < 2 ^ 32 -> 0 <= r < 2 ^ 32 ->
  seal_small p -> seal_small c -> 0 <= tip < 2 ^ 256 ->
  extra_ok (proposalExtra vanity reveal r p c tip) /\
  len (enc (extra_val (proposalExtra vanity reveal r p c tip))) < 2 ^ 64.
Proof.
  intros Hv Hvl Hr Hrl Hround Hp Hc Ht. split.
  - assert (forall o, seal_small o -> ptr_ok seal_ok o) as Hs by (intros [s|]; [by intros []|done]).
    refine (conj Hv (conj Hr (conj Hround (conj (Hs _ Hp) (conj (Hs _ Hc) (conj _ (conj I (conj I (conj _ I))))))))); cbn; lia.
  - pose proof (extra_length (proposalExtra vanity reveal r p c tip)) as Hl.
    pose proof (ptr_seal_length p Hp). pose proof (ptr_seal_length c Hc).
    pose proof (enc_uint_length r ltac:(lia)). pose proof (enc_uint_length 0 ltac:(lia)).
    pose proof (enc_string_length vanity). pose proof (enc_string_length reveal). pose proof (enc_string_length (big_Bytes tip)).
    pose proof (length_big_Bytes tip 32 ltac:(change (256 ^ Z.of_nat 32) with (2 ^ 256); lia)).
    unfold fieldsLength, proposalExtra in *. cbn [we_VanityData we_RandaoReveal we_PrevRound we_PrevPreparedSeal
      we_PrevCommittedSeal we_Round we_PreparedSeal we_CommittedSeal we_GasTip we_EpochInfo] in *.
    change (len (enc (VBytes vanity))) with (len (enc_string vanity)) in *.
    change (len (enc (VBytes reveal))) with (len (enc_string reveal)) in *.
    change (len (enc (VBigIntPtr (Some tip)))) with (len (enc_string (big_Bytes tip))) in *.
    change (len (enc (ptr_val seal_val None))) with 1 in *. change (len (enc (ptr_val epoch_val None))) with 1 in *. lia.
Qed.

(** * Proposals are accepted *)

Section proposal.
Context `{Cr : Crypto} `{Ag : !BlsAggregate} `{Laws : !BlsLaws} (e : Engine) (chain : Chain).

(** What the proposer's node knows about the parent of the new block: it is the
    canonical head, and sealed by the previous validators unless it is genesis;
    the late seals are seals of the parent. *)
Record proposal_parent (h parent : Header) (num : Z) (pvs : ValidatorSet) (ps cs : list SealData) : Prop := {
  pp_number : h_Number h = Some num /\ 0 < num < 2 ^ 64;
  pp_parent : GetHeader chain (h_ParentHash h) (num - 1) = Some parent;
  pp_canonical : GetHeaderByNumber chain (num - 1) = Some parent;
  pp_parentNumber : h_Number parent = Some (num - 1);
  pp_hash : header_Hash parent = h_ParentHash h;
  pp_small : Size pvs <= 2 ^ 32 /\ Forall is_byte (h_Extra parent) /\ Z.of_nat (length (h_Extra parent)) < 2 ^ 60;
  pp_sealed : 1 < num -> exists xp, ExtractWBFTExtra parent = inr xp /\ bitmaps_short xp /\ verifySeals parent pvs xp = Ret tt /\
    Forall (good_seal pvs parent (we_Round xp) SealTypePrepare) ps /\ Forall (good_seal pvs parent (we_Round xp) SealTypeCommit) cs;
}.

(** The previous seals that the proposal carries verify for the parent. *)
Definition carriesPrev (parent : Header) (num : Z) (pvs : ValidatorSet) (r : Z) (p c : option WBFTAggregatedSeal) : Prop :=
  0 <= r < 2 ^ 32 /\ seal_small p /\ seal_small c /\
  forall x, we_PrevRound x = r -> we_PrevPreparedSeal x = p -> we_PrevCommittedSeal x = c ->
    (if mustHavePrevSeals num then verifyPrevSeals parent pvs x else Ret tt) = Ret tt.

Definition prevApplies (num r : Z) (p c : option WBFTAggregatedSeal) : list ApplyWBFTExtra :=
  if mustHavePrevSeals num then [WritePrevSeals r p c] else [].

Lemma good_seals_index vs h r st ds : Size vs <= 2 ^ 32 -> Forall (good_seal vs h r st) ds -> Forall (fun d => 0 <= sd_Sealer d < 2 ^ 32) ds.
Proof. intros Hs Hf. eapply Forall_impl; [exact Hf|]. intros d Hd%good_seal_index. unfold indexed in Hd. lia. Qed.

Lemma prevSeals_ok h h' parent num pvs ps cs :
  proposal_parent h parent num pvs ps cs ->
  exists r p c, prevSeals chain h' num ps cs = Ret (prevApplies num r p c) /\ carriesPrev parent num pvs r p c /\
    (num = 1 -> r = 0 /\ p = None /\ c = None).
Proof.
  intros [[Hnum Hn] _ Hcan Hpn _ (Hsz & Hb & Hlen) Hsealed]. unfold prevSeals, prevApplies, carriesPrev, mustHavePrevSeals.
  destruct (Z.ltb_spec 1 num) as [Hgt|Hle].
  2:{ exists 0, None, None. split_and!; try done; lia. }
  rewrite big_Uint64_small, u64_small, Hcan by lia. cbn [must]. rewrite ret_bind, Hpn. cbn [must]. rewrite ret_bind.
  destruct (Z.eqb_spec (num - 1) 0); [lia|]. destruct (Hsealed Hgt) as (xp & Hxp & Hshort & Hv & Hps & Hcs).
  destruct (ExtractExtra_inv _ _ Hb ltac:(lia) Hxp) as (Henc & _ & Hok & _).
  apply (verifySeals_Ret _ _ _ (num - 1) Hpn) in Hv as (p & c & Hp & Hc & Hp0 & Hc0 & Hvp & Hvc); [|rewrite big_Uint64_small; lia].
  rewrite Hxp. cbn [rlp_result]. rewrite ret_bind, Hp, Hc. cbn [orFail]. rewrite !ret_bind.
  pose proof (Hshort p (or_introl Hp)) as Hlp. pose proof (Hshort c (or_intror Hc)) as Hlc.
  destruct Hok as (_ & _ & _ & _ & _ & Hround & Hokp & Hokc & _). rewrite Hp in Hokp. rewrite Hc in Hokc.
  assert (len (as_Signature p) < 2 ^ 60 /\ len (as_Signature c) < 2 ^ 60) as [Hsp Hsc].
  { pose proof (extra_length xp) as Hl. unfold fieldsLength in Hl. rewrite Hp, Hc in Hl. cbn [ptr_val] in Hl.
    pose proof (seal_length_le p). pose proof (seal_length_le c). rewrite <- Henc in Hl. lia. }
  destruct (mergeSeals_ok p ps (good_seals_index _ _ _ _ _ Hsz Hps) Hokp Hlp) as (M1 & M2 & M3 & M4).
  destruct (mergeSeals_ok c cs (good_seals_index _ _ _ _ _ Hsz Hcs) Hokc Hlc) as (N1 & N2 & N3 & N4).
  exists (we_Round xp), (Some (mergeSeals p ps)), (Some (mergeSeals c cs)). split; [done|]. split; [|lia].
  split_and!; try lia; [split_and!; try done; lia..|]. intros x Hx1 Hx2 Hx3. unfold verifyPrevSeals. rewrite Hpn, Hx1, Hx2, Hx3. cbn [must].
  rewrite ret_bind. destruct (Z.eqb_spec (num - 1) 0); [lia|]. rewrite !presentSeal_Some by auto. unfold mbind, Outcome_bind.
  destruct (mergeSeals_verifies pvs parent (we_Round xp) SealTypePrepare p ps Hsz Hlp Hps Hvp) as [-> _].
  destruct (mergeSeals_verifies pvs parent (we_Round xp) SealTypeCommit c cs Hsz Hlc Hcs Hvc) as [-> _]. done.
Qed.

Definition proposalTime (now now' num : Z) (parent : Header) : Z :=
  let t := u64 (h_Time parent + PeriodToNextBlock e num) in if t <? u64 now then u64 now' else t.

(** The miner's header: short client data as extra-data. *)
Definition short_extra (h : Header) : Prop := Forall is_byte (h_Extra h) /\ Z.of_nat (length (h_Extra h)) < IstanbulExtraVanity.

Lemma getExtra_short h :
  short_extra h -> exists v, getExtra h = Ret (MkExtra v [] 0 None None 0 None None None None) /\ bytes_ok v /\ len v = 32.
Proof.
  unfold short_extra, IstanbulExtraVanity. intros [Hb Hl]. unfold getExtra, IstanbulExtraVanity.
  destruct (Z.ltb_spec (Z.of_nat (length (h_Extra h))) 32); [|lia]. eexists. split; [done|]. split.
  - apply Forall_app. split; [done|apply zeros_byte].
  - rewrite length_app, length_replicate. lia.
Qed.

Lemma Prepare_run now now' h parent num pvs ps cs tip reveal :
  proposal_parent h parent num pvs ps cs -> short_extra h ->
  getGasTip chain h = Ret tip -> 0 <= tip < 2 ^ 256 ->
  eng_sign e (makeRandaoData (ch_Config chain) num) = Some reveal -> bytes_ok reveal -> len reveal < 2 ^ 32 ->
  exists x, Prepare e chain now now' h ps cs = Ret (set_h_MixDigest (CalculateRandaoMix (h_MixDigest parent) reveal)
      (set_h_Extra (enc (extra_val x)) (preparedHeader e h (proposalTime now now' num parent)))) /\
    ExtractExtra (enc (extra_val x)) = inr x /\ we_RandaoReveal x = reveal /\ we_GasTip x = Some tip /\
    (if mustHavePrevSeals num then verifyPrevSeals parent pvs x else Ret tt) = Ret tt.
Proof.
  intros Hpp Hshort Htip Ht Hsign Hrb Hrl. set (time := proposalTime now now' num parent).
  destruct (prevSeals_ok h (preparedHeader e h time) _ _ _ _ _ Hpp) as (r & p & c & Hprev & (Hr & Hp & Hc & Hver) & H1).
  destruct (getExtra_short (preparedHeader e h time) Hshort) as (v & Hget & Hvb & Hvl).
  destruct (proposalExtra_ok v reveal r p c tip Hvb Hvl Hrb Hrl Hr Hp Hc Ht) as [Hok Hlen].
  destruct (EncodeExtra_ok _ Hok Hlen) as [Henc Hdec]. exists (proposalExtra v reveal r p c tip).
  split_and!; try done; [|by apply Hver]. destruct (pp_number _ _ _ _ _ _ Hpp) as [Hnum Hn].
  assert (getGasTip chain (preparedHeader e h time) = Ret tip) as Htip' by exact Htip.
  assert (forall y, Combine (WriteRandao e (ch_Config chain) num :: prevApplies num r p c ++ [WriteGasTip tip])
    (MkExtra y [] 0 None None 0 None None None None) = Ret (proposalExtra y reveal r p c tip)) as Hcomb.
  { intros y. unfold WriteRandao, WriteGasTip, WritePrevSeals, prevApplies, mustHavePrevSeals in *. cbn [Combine]. rewrite Hsign. outcome_run.
    destruct (Z.ltb_spec 1 num) as [Hgt|Hle]; cbn [app Combine]; outcome_run; [done|]. destruct (H1 ltac:(lia)) as (-> & -> & ->). done. }
  unfold Prepare. rewrite Hnum. outcome_run. rewrite big_Uint64_small by lia. rewrite (u64_small (num - 1)), (pp_parent _ _ _ _ _ _ Hpp) by lia. outcome_run.
  fold (PeriodToNextBlock e num). cbv zeta. fold (proposalTime now now' num parent). fold time. rewrite Htip'. outcome_run. rewrite Hprev. outcome_run.
  unfold ApplyHeaderWBFTExtra, setExtra. rewrite Hget. outcome_run. rewrite Hcomb. outcome_run. rewrite Henc. cbn [rlp_result]. by outcome_run.
Qed.
End proposal.

(** The static rules of a header: no uncles, no fields of other forks, gas within
    its limits. *)
Record header_static `{Crypto} (chain : Chain) (h : Header) : Prop := {
  hs_uncle : h_UncleHash h = nilUncleHash;
  hs_gas : h_GasUsed h <= h_GasLimit h <= MaxGasLimit;
  hs_forks : h_WithdrawalsHash h = None /\ h_ExcessBlobGas h = None /\ h_BlobGasUsed h = None /\ h_ParentBeaconRoot h = None;
  hs_config : ShanghaiTime (ch_Config chain) = None /\ CancunTime (ch_Config chain) = None;
}.

Lemma verifySigner_accepts `{Crypto} chain h parent vs num :
  h_Number h = Some num -> 0 < num < 2 ^ 64 -> h_Coinbase h ∈ AddressList vs ->
  (forall s, StateAt chain (h_Root parent) = Some s -> IsBlacklisted s (h_Coinbase h) = false) ->
  unlessStateUnavailable (verifySigner chain h parent vs) = Ret tt.
Proof.
  intros Hnum Hn Hin Hblack. unfold verifySigner, Author. rewrite Hnum. outcome_run. rewrite big_Uint64_small by lia.
  destruct (Z.eqb_spec num 0); [lia|]. outcome_run. apply GetByAddress_elem in Hin as (j & v & ->). cbn [snd]. outcome_run.
  destruct (StateAt chain (h_Root parent)) as [s|] eqn:Hs; [|done]. outcome_run. by rewrite (Hblack s eq_refl).
Qed.

Lemma verifyGasTip_accepts chain h x tip :
  ExtractWBFTExtra h = inr x -> getGasTip chain h = Ret tip -> we_GasTip x = Some tip -> verifyGasTip chain h = Ret tt.
Proof. intros Hx Htip Hg. unfold verifyGasTip. rewrite Hx. cbn [rlp_result]. outcome_run. rewrite Htip. outcome_run. by rewrite Hg, Z.eqb_refl. Qed.

Lemma cascading_accepts `{Crypto} `{!BlsAggregate} e chain h parent num x vs pvs :
  h_Number h = Some num -> 0 < num < 2 ^ 64 -> GetHeader chain (h_ParentHash h) (num - 1) = Some parent ->
  h_Number parent = Some (num - 1) -> header_Hash parent = h_ParentHash h ->
  u64 (h_Time parent + PeriodToNextBlock e num) <= h_Time h -> h_GasUsed h <= h_GasLimit h ->
  IsLondon (ch_Config chain) (Some num) = true -> VerifyEIP1559Header (ch_Config chain) parent h = Ret tt ->
  unlessStateUnavailable (verifySigner chain h parent vs) = Ret tt -> ExtractWBFTExtra h = inr x ->
  eng_checkSig e (makeRandaoData (ch_Config chain) num) (h_Coinbase h) (we_RandaoReveal x) = true ->
  CalculateRandaoMix (h_MixDigest parent) (we_RandaoReveal x) = h_MixDigest h ->
  (if mustHavePrevSeals num then verifyPrevSeals parent pvs x else Ret tt) = Ret tt ->
  criticalGasTip (verifyGasTip chain h) = Ret tt ->
  verifyCascadingFields e chain h vs pvs [] false = Ret tt.
Proof.
  intros Hnum Hn Hp Hpn Hph Ht Hg Hl Hfee Hs Hx Hsig Hmix Hprev Htip. unfold verifyCascadingFields. rewrite Hnum. outcome_run.
  rewrite big_Uint64_small by lia. destruct (Z.eqb_spec num 0); [lia|]. cbn [last]. rewrite (u64_small (num - 1)), Hp by lia. outcome_run.
  rewrite Hpn. outcome_run. apply reject_ok; [apply negb_false_iff, Z.eqb_eq; lia|]. apply reject_ok; [by rewrite Hph, Z.eqb_refl|].
  apply reject_ok; [by apply Z.ltb_ge|]. apply reject_ok; [by apply Z.ltb_ge|]. rewrite Hl. cbn [negb].
  eapply bind_ok; [exact Hfee|]. eapply bind_ok; [exact Hs|]. rewrite Hx. cbn [rlp_result mapError]. outcome_run.
  apply reject_ok; [by rewrite Hsig|]. apply reject_ok; [by rewrite Hmix, Z.eqb_refl|]. eapply bind_ok; [exact Hprev|]. exact Htip.
Qed.

(** * Properties *)

(** C11. Accepted headers.  A header that [verifyHeader] accepts with its seals
    extends a known parent by number and hash, keeps the block period and is not
    from the future, obeys the gas and base fee rules, is proposed by a validator
    that is not blacklisted, continues the randao mix with a reveal its proposer
    signed, states the gas tip of the GovValidator contract whenever the parent
    state is available, and carries prepare and commit seals of a quorum, and
    those of the parent's validators for the parent. *)
Theorem accepted_header `{Crypto} `{!BlsAggregate} (e : Engine) (chain : Chain) (now : Z) (header : Header)
    (parents : list Header) (vs pvs : ValidatorSet) (num : Z)
    (Hnum : h_Number header = Some num) (Hn : 0 < num < 2 ^ 64)
    (Hrun : verifyHeader e chain now header parents vs pvs true = Ret tt) :
  exists parent x, follows_parent e chain now header parent num x vs pvs /\
    match last parents with Some p => parent = p | None => GetHeader chain (h_ParentHash header) (num - 1) = Some parent end /\
    (valset_ok vs -> bitmaps_short x -> exists p c, carries vs header x p c).
Proof.
  destruct (verifyHeader_follows e chain now header parents vs pvs num Hnum Hn Hrun) as (parent & x & Hf & Hp).
  exists parent, x. split_and!; [done|done|]. intros Hok Hshort.
  eapply verifySeals_carries; [done|by split|done|]. by apply (fp_seals _ _ _ _ _ _ _ _ _ Hf).
Qed.

