(* ===== verification/EngineWitness.v ===== *)
(** A small chain run through the engine's own functions: a genesis block, a
    sealed first block, and the proposal of an epoch block.  Its blocks are
    instances of the theorems about the engine. *)
From S2P Require Import Prelude Float64 Validators Messages Rlp RlpStream RlpSpec RlpLists Extra ExtraProps Shuffle Config ChainConfig Header Seals SealProps SealVerify SealWitness BaseFee StateUtil StateDB Epoch EpochProps Rewards EpochBuild EpochBuildProps HeaderCheck HeaderProps.
Import Linear.

(** * The demonstration chain *)

Module Demo.
Definition gov : Address := 0x1001.
Definition addrs : list Address := [101; 102; 103; 104].
Definition key (i : Z) : bytes := [i; 2 * i; 7].

(** The storage of the GovValidator contract. *)
Definition storage : StateReader :=
  applyStates (fun _ _ => 0)
    ([mkStateParam gov SLOT_VALIDATOR_validators 4; mkStateParam gov SLOT_VALIDATOR_gasTip InitialGasTip] ++
     imap (fun i a => mkStateParam gov (CalculateDynamicSlot (hashBytes SLOT_VALIDATOR_validators) (Z.of_nat i)) a) addrs ++
     concat (map (fun a => MakeMultipleParam gov (CalculateMappingSlot SLOT_VALIDATOR_validatorToBlsKey (addressBytes a))
       (VarLenBytesToMultipleHash (key (a - 100)))) addrs)).

Definition state : StateDB := mkStateDB ∅ storage.

Definition contracts : SystemContracts := mkContracts (Some (mkContract gov [118; 49] ∅)) None None None None.
Definition config : ChainConfig := londonConfig 8283 (Some (mkAnzeon addrs [] (Some contracts))).
Definition cfg : Config := mkConfig 1000 1 0 2 0 8 [] [].

Definition genesis_info : EpochInfo :=
  MkEpochInfo (map (fun a => MkCandidate a DefaultDiligence) addrs) [0; 1; 2; 3] (map (fun a => key (a - 100)) addrs).
Definition genesis : Header :=
  MkHeader 0 nilUncleHash 0 1 0 0 0 (Some 1) (Some 0) 105000000 0 1700000000
    (enc (extra_val (MkExtra [] [] 0 None None 0 None None (Some InitialGasTip) (Some genesis_info)))) 0 0 (Some MinBaseFee) None None None None.

Definition chainOf (headers : list Header) : Chain :=
  mkChain config
    (fun hash n => List.find (fun h => bool_decide (h_Number h = Some n) && (header_Hash h =? hash)) headers)
    (fun n => List.find (fun h => bool_decide (h_Number h = Some n)) headers)
    (fun hash => List.find (fun h => header_Hash h =? hash) headers)
    (fun _ => Some state).

Definition engine (signer : Address) : Engine := NewEngine cfg signer (fun m => Some m) (fun m _ s => bool_decide (s = m)).

(** What a miner hands to [Prepare]. *)
Definition template (parent : Header) (num : Z) : Header :=
  MkHeader (header_Hash parent) nilUncleHash 0 1 0 0 0 None (Some num) 105000000 21000 0 [1; 2; 3] 0 0 (Some MinBaseFee) None None None None.

Definition vals : ValidatorSet := NewSetByValidators (map (fun a => mkValidator a (key (a - 100))) addrs) 0.
Definition seal (h : Header) (st : SealType) (i : Z) : SealData := mkSealData i (sign (keyOf vals i) (header_PrepareSeal h 0 st)).
Definition unwrap (r : Eng Header) (d : Header) : Header := match r with Ret h => h | _ => d end.

(** Block 1, proposed by validator 101 and sealed by three of four. *)
Definition proposal1 : Header := unwrap (Prepare (engine 101) (chainOf [genesis]) 1700000005 1700000005 (template genesis 1) [] []) genesis.
Definition block1 : Header := Eval vm_compute in
  unwrap (CommitHeader proposal1 (map (seal proposal1 SealTypePrepare) [0; 1; 3]) (map (seal proposal1 SealTypeCommit) [0; 1; 3]) 0) genesis.

Definition chain1 : Chain := chainOf [genesis; block1].

(** Block 2, an epoch block proposed by validator 102, with one late seal. *)
Definition template2 : Header := Eval vm_compute in template block1 2.
Definition late (st : SealType) : list SealData := [seal block1 st 2].
Definition proposal2 : Header := Eval vm_compute in
  unwrap (Prepare (engine 102) chain1 1700000009 1700000009 template2 (late SealTypePrepare) (late SealTypeCommit)) genesis.
Definition block2 : Header := Eval vm_compute in unwrap (writeEpoch (engine 102) chain1 proposal2 storage) genesis.
End Demo.
Import Demo.

Lemma chainOf_ok headers : chain_ok (chainOf headers).
Proof.
  split.
  - intros hash n h Hf. apply List.find_some in Hf as [_ Hf]. apply andb_true_iff in Hf as [Hf _]. by apply bool_decide_eq_true in Hf.
  - intros n h Hf. apply List.find_some in Hf as [_ Hf]. by apply bool_decide_eq_true in Hf.
Qed.

Lemma cfg_ok : epochs_ok cfg.
Proof. split; [by vm_compute|constructor|constructor]. Qed.

Lemma vals_key i : 0 <= i < 4 -> Forall is_byte (keyOf vals i).
Proof.
  intros Hi. assert (i = 0 \/ i = 1 \/ i = 2 \/ i = 3) as Hcases by lia.
  destruct Hcases as [->|[->|[->| ->]]]; apply (bool_decide_unpack _); vm_compute; exact I.
Qed.

Lemma seal_good h st i : 0 <= i < 4 -> good_seal vals h 0 st (seal h st i).
Proof.
  intros Hi. split; [by apply Forall_singleton|]. cbn [map seal sd_Sealer sd_Seal].
  apply sign_valid; [by apply vals_key|apply be_bytes_byte].
Qed.

(** * Instances *)

Lemma storage_bytes_roundtrip_witness :
  let base := CalculateMappingSlot SLOT_VALIDATOR_validatorToBlsKey (addressBytes 101) in
  let sp := MakeMultipleParam gov base (VarLenBytesToMultipleHash (seqZ 1 48)) in
  GetBytes (applyStates storage sp) gov base = Some (seqZ 1 48) /\
  (forall k v, EncodeBytesToSlots base (seqZ 1 48) !! k = Some v <-> mkStateParam gov k v ∈ sp).
Proof.
  apply (storage_bytes_roundtrip storage gov).
  - intros b. apply be_bytes_byte.
  - apply (bool_decide_unpack _). vm_compute. exact I.
  - vm_compute. reflexivity.
  - intros i Hi. assert (i = 0 \/ i = 1) as [->| ->] by (change ((Z.of_nat (length (seqZ 1 48)) + 31) / 32) with 2 in Hi; lia);
      vm_compute; discriminate.
Defined.

Lemma epoch_of_block_witness :
  exists last, epochOf (engine 104) last (2 - 1) /\
    ((exists b, h_Number b = Some last /\ GetEpochInfo (engine 104) chain1 block2 [] = extractEpochInfo b) \/
     GetEpochInfo (engine 104) chain1 block2 [] = Fail ErrUnknownAncestor) /\
    (forall h' m, h_Number h' = Some m -> last < m <= 2 -> GetHeaderByNumber chain1 last <> None ->
       GetEpochInfo (engine 104) chain1 h' [] = GetEpochInfo (engine 104) chain1 block2 []).
Proof.
  apply (epoch_of_block (engine 104) chain1 block2 2).
  - apply cfg_ok.
  - apply chainOf_ok.
  - reflexivity.
  - lia.
Defined.

Lemma baseFee_conserved_witness :
  let T := MinBaseFee * 21000 in
  let D := total (map (diligenceOf (ei_Candidates genesis_info)) (ei_Validators genesis_info)) in
  exists s' dust, distributeBaseFee (engine 104) chain1 block2 state = Ret s' /\ solvent s' /\ supply s' = supply state + T /\
    0 <= dust /\ (0 < D -> dust < 4) /\ (D = 0 -> dust = T) /\
    forall a, GetBalance s' a = GetBalance state a +
      (if D =? 0 then 0 else paidTo (ei_Candidates genesis_info) T D (ei_Validators genesis_info) a) +
      (if bool_decide (a = h_Coinbase block2) then dust else 0).
Proof.
  apply (baseFee_conserved (engine 104) chain1 block2 state 2 MinBaseFee (Some 0) genesis_info).
  - split; [reflexivity|lia].
  - split; [reflexivity|vm_compute; discriminate].
  - vm_compute. reflexivity.
  - vm_compute. reflexivity.
  - repeat constructor; vm_compute; discriminate || reflexivity.
  - vm_compute. reflexivity.
  - apply map_Forall_empty.
  - vm_compute. reflexivity.
Defined.

Definition info2 : EpochInfo :=
  MkEpochInfo (map (fun a => MkCandidate a 1905000) addrs) [0; 1; 2; 3] (map (fun a => key (a - 100)) addrs).

Lemma few_validators g : govValidator (engine 102) chain1 2 = Ret g -> Z.of_nat (length (ValidatorList g storage)) < 2 ^ 32.
Proof. intros Hg. assert (g = gov) as -> by (vm_compute in Hg; by injection Hg as <-). vm_compute. reflexivity. Qed.

Lemma nextEpoch_wellformed_witness :
  exists g, govValidator (engine 102) chain1 2 = Ret g /\ epoch_wf g storage info2.
Proof.
  apply (nextEpoch_wellformed (engine 102) chain1 proposal2 storage 2 info2).
  - reflexivity.
  - lia.
  - exact few_validators.
  - vm_compute. reflexivity.
Defined.

Definition extra2 : WBFTExtra := Eval vm_compute in match ExtractWBFTExtra proposal2 with inr x => x | inl _ => sample_extra end.

Lemma built_info2 info : buildEpochInfo (engine 102) chain1 proposal2 storage = Ret (Some info) -> info = info2.
Proof.
  assert (buildEpochInfo (engine 102) chain1 proposal2 storage = Ret (Some info2)) as -> by (vm_compute; reflexivity). by intros [= <-].
Qed.

Lemma writtenEpoch_accepted_witness :
  verifyEpoch (engine 104) chain1 block2 storage = Ret tt /\
  exists info, ExtractWBFTExtra block2 = inr (set_we_EpochInfo (Some info) extra2) /\ epoch_ok info.
Proof.
  apply (writtenEpoch_accepted (engine 102) (engine 104) chain1 proposal2 block2 storage 2 vals extra2).
  - reflexivity.
  - reflexivity.
  - lia.
  - exists 2. vm_compute. reflexivity.
  - vm_compute. reflexivity.
  - vm_compute. discriminate.
  - apply (bool_decide_unpack _). vm_compute. exact I.
  - vm_compute. split; [discriminate|reflexivity].
  - vm_compute. reflexivity.
  - exact few_validators.
  - intros info ->%built_info2. vm_compute. reflexivity.
  - vm_compute. reflexivity.
Defined.

Definition extra1 : WBFTExtra := Eval vm_compute in match ExtractWBFTExtra block1 with inr x => x | inl _ => sample_extra end.

Lemma accepted_header_witness :
  exists parent x, follows_parent (engine 104) (chainOf [genesis]) (1700000005 * Second) block1 parent 1 x vals vals /\
    GetHeader (chainOf [genesis]) (h_ParentHash block1) (1 - 1) = Some parent /\
    (valset_ok vals -> bitmaps_short x -> exists p c, carries vals block1 x p c).
Proof.
  apply (accepted_header (engine 104) (chainOf [genesis]) (1700000005 * Second) block1 [] vals vals 1).
  - reflexivity.
  - lia.
  - vm_compute. reflexivity.
Defined.

Lemma block1_bitmaps : bitmaps_short extra1.
Proof. intros s [Hs|Hs]; vm_compute in Hs; injection Hs as <-; vm_compute; discriminate. Qed.

Lemma block1_parent : proposal_parent chain1 template2 block1 2 vals (late SealTypePrepare) (late SealTypeCommit).
Proof.
  split.
  - split; [reflexivity|lia].
  - vm_compute. reflexivity.
  - vm_compute. reflexivity.
  - reflexivity.
  - vm_compute. reflexivity.
  - split_and!; [vm_compute; discriminate|apply (bool_decide_unpack _); vm_compute; exact I|vm_compute; reflexivity].
  - intros _. exists extra1. split_and!; [vm_compute; reflexivity|apply block1_bitmaps|vm_compute; reflexivity|..];
      (apply Forall_singleton, seal_good; lia).
Qed.


(** * An epoch of one block *)

Module OneBlockEpoch.
(** The demonstration chain, with a transition to epochs of 20 blocks at block 3,
    right behind the epoch block 2. *)
Definition cfg : Config := mkConfig 1000 1 0 2 0 8 [mkTransition 3 0 0 20 None None] [].
Definition engine (signer : Address) : Engine := NewEngine cfg signer (fun m => Some m) (fun m _ s => bool_decide (s = m)).

(** A fifth validator has joined in the GovValidator contract. *)
Definition joined : StateReader :=
  applyStates storage
    ([mkStateParam gov SLOT_VALIDATOR_validators 5;
      mkStateParam gov (CalculateDynamicSlot (hashBytes SLOT_VALIDATOR_validators) 4) 105] ++
     MakeMultipleParam gov (CalculateMappingSlot SLOT_VALIDATOR_validatorToBlsKey (addressBytes 105))
       (VarLenBytesToMultipleHash (key 5))).

(** Block 2, proposed by validator 102 and sealed, and the header that validator
    103 prepares for block 3. *)
Definition block2 : Header := Eval vm_compute in
  let p := unwrap (Prepare (engine 102) chain1 1700000009 1700000009 template2 (late SealTypePrepare) (late SealTypeCommit)) genesis in
  let p := unwrap (writeEpoch (engine 102) chain1 p joined) genesis in
  unwrap (CommitHeader p (map (seal p SealTypePrepare) [0; 1; 3]) (map (seal p SealTypeCommit) [0; 1; 3]) 0) genesis.
Definition chain2 : Chain := chainOf [genesis; block1; block2].
Definition template3 : Header := Eval vm_compute in template block2 3.
Definition proposal3 : Header := Eval vm_compute in
  unwrap (Prepare (engine 103) chain2 1700000012 1700000012 template3 [] []) genesis.
End OneBlockEpoch.

(** C40. A transition block is always an epoch block, so a transition right behind
    an epoch block makes an epoch of one block, and nothing excludes such a
    configuration.  A validator that joined with that epoch cannot have sealed in
    it, and its diligence is divided by [2*(epochLength-1)], which is zero.  On a
    chain whose epoch block 2, accepted by every node with its seals and its epoch
    information, takes in a fifth validator, and with a transition at block 3: the
    proposer of block 3 prepares its header without an error and panics in
    [writeEpoch], and whoever checks the epoch information of that header
    panics. *)
Theorem oneBlockEpoch_panics :
  (forall a, let e := OneBlockEpoch.engine a in
     IsEpochBlockNumber e 2 = Ret (true, 2) /\ IsEpochBlockNumber e 3 = Ret (true, 3) /\
     GetValidators e chain1 2 (h_ParentHash OneBlockEpoch.block2) [] = Ret vals /\
     verifyHeader e chain1 (1700000009 * Second) OneBlockEpoch.block2 [] vals vals true = Ret tt /\
     verifyEpoch e chain1 OneBlockEpoch.block2 OneBlockEpoch.joined = Ret tt) /\
  Prepare (OneBlockEpoch.engine 103) OneBlockEpoch.chain2 1700000012 1700000012 OneBlockEpoch.template3 [] []
    = Ret OneBlockEpoch.proposal3 /\
  writeEpoch (OneBlockEpoch.engine 103) OneBlockEpoch.chain2 OneBlockEpoch.proposal3 OneBlockEpoch.joined = Panic /\
  forall a, verifyEpoch (OneBlockEpoch.engine a) OneBlockEpoch.chain2 OneBlockEpoch.proposal3 OneBlockEpoch.joined = Panic.
Proof. split_and!; [intros a e; split_and!| | |intros a]; vm_compute; reflexivity. Qed.
