(* ===== verification/StateJournal.v ===== *)
(** The state of accounts with its journal (src/core/state/statedb.go,
    state_object.go, journal.go, access_list.go, transient_storage.go): every change
    during a transaction is recorded so that it can be undone.

    The database below is a finite map; it is read lazily, and the objects that were
    read are kept.  Reads are functions: the object that a read would load is the one
    the next read finds.  What is collected for writing to the database at the end of
    a block ([accounts], [storages] and their origins), the tries, the prefetcher and
    database errors are not modelled. *)
From S2P Require Import Prelude Validators Messages Rlp AccountExtra.

Notation Storage := (gmap Hash Hash).

(** * Accounts and their objects *)

Record StateAccount := mkStateAccount {
  sa_Nonce : Z;
  sa_Balance : Z;
  sa_Root : Hash;
  sa_CodeHash : Hash;
  sa_Extra : Z;
}.

(** What is stored at the root of the block: accounts with their storage, and code
    by its hash. *)
Record Database := mkDatabase {
  db_accounts : gmap Address (StateAccount * Storage);
  db_code : gmap Hash bytes;
}.
Definition GetAccount (db : Database) (addr : Address) : option StateAccount := fst <$> db_accounts db !! addr.
Definition GetStorage (db : Database) (addr : Address) (key : Hash) : Hash :=
  match db_accounts db !! addr with Some (_, st) => default 0 (st !! key) | None => 0 end.
Definition ContractCode (db : Database) (codeHash : Hash) : bytes := default [] (db_code db !! codeHash).

Record stateObject := mkObject {
  so_address : Address;
  so_origin : option StateAccount;
  so_data : StateAccount;
  so_code : option bytes;
  so_originStorage : Storage;
  so_pendingStorage : Storage;
  so_dirtyStorage : Storage;
  so_dirtyCode : bool;
  so_selfDestructed : bool;
  so_deleted : bool;
  so_created : bool;
}.

Definition set_so_address (x : Address) (o : stateObject) : stateObject :=
  mkObject x (so_origin o) (so_data o) (so_code o) (so_originStorage o) (so_pendingStorage o) (so_dirtyStorage o) (so_dirtyCode o) (so_selfDestructed o) (so_deleted o) (so_created o).
Definition set_so_origin (x : option StateAccount) (o : stateObject) : stateObject :=
  mkObject (so_address o) x (so_data o) (so_code o) (so_originStorage o) (so_pendingStorage o) (so_dirtyStorage o) (so_dirtyCode o) (so_selfDestructed o) (so_deleted o) (so_created o).
Definition set_so_data (x : StateAccount) (o : stateObject) : stateObject :=
  mkObject (so_address o) (so_origin o) x (so_code o) (so_originStorage o) (so_pendingStorage o) (so_dirtyStorage o) (so_dirtyCode o) (so_selfDestructed o) (so_deleted o) (so_created o).
Definition set_so_code (x : option bytes) (o : stateObject) : stateObject :=
  mkObject (so_address o) (so_origin o) (so_data o) x (so_originStorage o) (so_pendingStorage o) (so_dirtyStorage o) (so_dirtyCode o) (so_selfDestructed o) (so_deleted o) (so_created o).
Definition set_so_originStorage (x : Storage) (o : stateObject) : stateObject :=
  mkObject (so_address o) (so_origin o) (so_data o) (so_code o) x (so_pendingStorage o) (so_dirtyStorage o) (so_dirtyCode o) (so_selfDestructed o) (so_deleted o) (so_created o).
Definition set_so_pendingStorage (x : Storage) (o : stateObject) : stateObject :=
  mkObject (so_address o) (so_origin o) (so_data o) (so_code o) (so_originStorage o) x (so_dirtyStorage o) (so_dirtyCode o) (so_selfDestructed o) (so_deleted o) (so_created o).
Definition set_so_dirtyStorage (x : Storage) (o : stateObject) : stateObject :=
  mkObject (so_address o) (so_origin o) (so_data o) (so_code o) (so_originStorage o) (so_pendingStorage o) x (so_dirtyCode o) (so_selfDestructed o) (so_deleted o) (so_created o).
Definition set_so_dirtyCode (x : bool) (o : stateObject) : stateObject :=
  mkObject (so_address o) (so_origin o) (so_data o) (so_code o) (so_originStorage o) (so_pendingStorage o) (so_dirtyStorage o) x (so_selfDestructed o) (so_deleted o) (so_created o).
Definition set_so_selfDestructed (x : bool) (o : stateObject) : stateObject :=
  mkObject (so_address o) (so_origin o) (so_data o) (so_code o) (so_originStorage o) (so_pendingStorage o) (so_dirtyStorage o) (so_dirtyCode o) x (so_deleted o) (so_created o).
Definition set_so_deleted (x : bool) (o : stateObject) : stateObject :=
  mkObject (so_address o) (so_origin o) (so_data o) (so_code o) (so_originStorage o) (so_pendingStorage o) (so_dirtyStorage o) (so_dirtyCode o) (so_selfDestructed o) x (so_created o).
Definition set_so_created (x : bool) (o : stateObject) : stateObject :=
  mkObject (so_address o) (so_origin o) (so_data o) (so_code o) (so_originStorage o) (so_pendingStorage o) (so_dirtyStorage o) (so_dirtyCode o) (so_selfDestructed o) (so_deleted o) x.

Definition set_sa_Nonce (x : Z) (a : StateAccount) : StateAccount := mkStateAccount x (sa_Balance a) (sa_Root a) (sa_CodeHash a) (sa_Extra a).
Definition set_sa_Balance (x : Z) (a : StateAccount) : StateAccount := mkStateAccount (sa_Nonce a) x (sa_Root a) (sa_CodeHash a) (sa_Extra a).
Definition set_sa_CodeHash (x : Hash) (a : StateAccount) : StateAccount := mkStateAccount (sa_Nonce a) (sa_Balance a) (sa_Root a) x (sa_Extra a).
Definition set_sa_Extra (x : Z) (a : StateAccount) : StateAccount := mkStateAccount (sa_Nonce a) (sa_Balance a) (sa_Root a) (sa_CodeHash a) x.

(** * The journal *)

Inductive journalEntry :=
  | createObjectChange (account : Address)
  | resetObjectChange (account : Address) (prev : stateObject) (prevdestruct : bool)
  | selfDestructChange (account : Address) (prev : bool) (prevbalance : Z)
  | balanceChange (account : Address) (prev : Z)
  | nonceChange (account : Address) (prev : Z)
  | storageChange (account : Address) (key prevalue : Hash)
  | codeChange (account : Address) (prevcode : bytes) (prevhash : Hash)
  | extraChange (account : Address) (prev : Z)
  | refundChange (prev : Z)
  | addLogChange (txhash : Hash)
  | addPreimageChange (hash : Hash)
  | touchChange (account : Address)
  | accessListAddAccountChange (address : Address)
  | accessListAddSlotChange (address : Address) (slot : Hash)
  | transientStorageChange (account : Address) (key prevalue : Hash).

Definition dirtied (e : journalEntry) : option Address :=
  match e with
  | createObjectChange a | resetObjectChange a _ _ | selfDestructChange a _ _ | balanceChange a _ | nonceChange a _
  | storageChange a _ _ | codeChange a _ _ | extraChange a _ | touchChange a => Some a
  | refundChange _ | addLogChange _ | addPreimageChange _ | accessListAddAccountChange _ | accessListAddSlotChange _ _
  | transientStorageChange _ _ _ => None
  end.

(** The newest entry comes first. *)
Record journal := mkJournal { j_entries : list journalEntry; j_dirties : gmap Address Z }.
Definition newJournal : journal := mkJournal [] ∅.

Definition count_up (addr : Address) (d : gmap Address Z) : gmap Address Z := <[addr := default 0 (d !! addr) + 1]> d.
Definition count_down (addr : Address) (d : gmap Address Z) : gmap Address Z :=
  let n := default 0 (d !! addr) - 1 in if n =? 0 then delete addr d else <[addr := n]> d.

Definition journal_append (e : journalEntry) (j : journal) : journal :=
  mkJournal (e :: j_entries j) (match dirtied e with Some a => count_up a (j_dirties j) | None => j_dirties j end).
Definition journal_dirty (addr : Address) (j : journal) : journal := mkJournal (j_entries j) (count_up addr (j_dirties j)).

(** * The access list *)

(** The index of an address is -1 as long as it has no slots; otherwise it is in
    range ([al_ok] below). *)
Record accessList := mkAccessList { al_addresses : gmap Address Z; al_slots : list (gset Hash) }.
Definition newAccessList : accessList := mkAccessList ∅ [].

Definition ContainsAddress (al : accessList) (address : Address) : bool := bool_decide (is_Some (al_addresses al !! address)).
Definition al_Contains (al : accessList) (address : Address) (slot : Hash) : bool * bool :=
  match al_addresses al !! address with
  | None => (false, false)
  | Some idx =>
      if idx =? -1 then (true, false)
      else (true, bool_decide (slot ∈ default ∅ (al_slots al !! Z.to_nat idx)))
  end.
Definition AddAddress (al : accessList) (address : Address) : bool * accessList :=
  match al_addresses al !! address with
  | Some _ => (false, al)
  | None => (true, mkAccessList (<[address := -1]> (al_addresses al)) (al_slots al))
  end.
Definition AddSlot (al : accessList) (address : Address) (slot : Hash) : bool * bool * accessList :=
  let fresh := mkAccessList (<[address := Z.of_nat (length (al_slots al))]> (al_addresses al)) (al_slots al ++ [{[slot]}]) in
  match al_addresses al !! address with
  | None => (true, true, fresh)
  | Some idx =>
      if idx =? -1 then (false, true, fresh)
      else
        let slotmap := default ∅ (al_slots al !! Z.to_nat idx) in
        if bool_decide (slot ∈ slotmap) then (false, false, al)
        else (false, true, mkAccessList (al_addresses al) (<[Z.to_nat idx := {[slot]} ∪ slotmap]> (al_slots al)))
  end.
(** [DeleteSlot] panics for an address that is not there or has no slots. *)
Definition DeleteSlot (al : accessList) (address : Address) (slot : Hash) : option accessList :=
  idx ← al_addresses al !! address;
  if idx <? 0 then None
  else
    slotmap ← al_slots al !! Z.to_nat idx;
    let slotmap : gset Hash := slotmap ∖ {[slot]} in
    if bool_decide (slotmap = ∅) then Some (mkAccessList (<[address := -1]> (al_addresses al)) (take (Z.to_nat idx) (al_slots al)))
    else Some (mkAccessList (al_addresses al) (<[Z.to_nat idx := slotmap]> (al_slots al))).
Definition DeleteAddress (al : accessList) (address : Address) : accessList :=
  mkAccessList (delete address (al_addresses al)) (al_slots al).

(** * Transient storage *)

Definition transient_Set (t : gmap Address Storage) (addr : Address) (key value : Hash) : gmap Address Storage :=
  <[addr := <[key := value]> (default ∅ (t !! addr))]> t.
Definition transient_Get (t : gmap Address Storage) (addr : Address) (key : Hash) : Hash :=
  match t !! addr with Some st => default 0 (st !! key) | None => 0 end.

(** * The state *)

Record Log := mkLog {
  log_Address : Address;
  log_Topics : list Hash;
  log_Data : bytes;
  log_BlockNumber : Z;
  log_TxHash : Hash;
  log_TxIndex : Z;
  log_Index : Z;
}.

Record revision := mkRevision { rev_id : Z; rev_journalIndex : nat }.

Record StateDB := mkStateDB {
  sdb_db : Database;
  sdb_stateObjects : gmap Address stateObject;
  sdb_pending : gset Address;
  sdb_dirty : gset Address;
  sdb_destruct : gmap Address (option StateAccount);
  sdb_refund : Z;
  sdb_thash : Hash;
  sdb_txIndex : Z;
  sdb_logs : gmap Hash (list Log);
  sdb_logSize : Z;
  sdb_preimages : gmap Hash bytes;
  sdb_accessList : accessList;
  sdb_transientStorage : gmap Address Storage;
  sdb_journal : journal;
  sdb_validRevisions : list revision;
  sdb_nextRevisionId : Z;
}.

Definition set_sdb_db (x : Database) (s : StateDB) : StateDB :=
  mkStateDB x (sdb_stateObjects s) (sdb_pending s) (sdb_dirty s) (sdb_destruct s) (sdb_refund s) (sdb_thash s) (sdb_txIndex s) (sdb_logs s) (sdb_logSize s) (sdb_preimages s) (sdb_accessList s) (sdb_transientStorage s) (sdb_journal s) (sdb_validRevisions s) (sdb_nextRevisionId s).
Definition set_sdb_stateObjects (x : gmap Address stateObject) (s : StateDB) : StateDB :=
  mkStateDB (sdb_db s) x (sdb_pending s) (sdb_dirty s) (sdb_destruct s) (sdb_refund s) (sdb_thash s) (sdb_txIndex s) (sdb_logs s) (sdb_logSize s) (sdb_preimages s) (sdb_accessList s) (sdb_transientStorage s) (sdb_journal s) (sdb_validRevisions s) (sdb_nextRevisionId s).
Definition set_sdb_pending (x : gset Address) (s : StateDB) : StateDB :=
  mkStateDB (sdb_db s) (sdb_stateObjects s) x (sdb_dirty s) (sdb_destruct s) (sdb_refund s) (sdb_thash s) (sdb_txIndex s) (sdb_logs s) (sdb_logSize s) (sdb_preimages s) (sdb_accessList s) (sdb_transientStorage s) (sdb_journal s) (sdb_validRevisions s) (sdb_nextRevisionId s).
Definition set_sdb_dirty (x : gset Address) (s : StateDB) : StateDB :=
  mkStateDB (sdb_db s) (sdb_stateObjects s) (sdb_pending s) x (sdb_destruct s) (sdb_refund s) (sdb_thash s) (sdb_txIndex s) (sdb_logs s) (sdb_logSize s) (sdb_preimages s) (sdb_accessList s) (sdb_transientStorage s) (sdb_journal s) (sdb_validRevisions s) (sdb_nextRevisionId s).
Definition set_sdb_destruct (x : gmap Address (option StateAccount)) (s : StateDB) : StateDB :=
  mkStateDB (sdb_db s) (sdb_stateObjects s) (sdb_pending s) (sdb_dirty s) x (sdb_refund s) (sdb_thash s) (sdb_txIndex s) (sdb_logs s) (sdb_logSize s) (sdb_preimages s) (sdb_accessList s) (sdb_transientStorage s) (sdb_journal s) (sdb_validRevisions s) (sdb_nextRevisionId s).
Definition set_sdb_refund (x : Z) (s : StateDB) : StateDB :=
  mkStateDB (sdb_db s) (sdb_stateObjects s) (sdb_pending s) (sdb_dirty s) (sdb_destruct s) x (sdb_thash s) (sdb_txIndex s) (sdb_logs s) (sdb_logSize s) (sdb_preimages s) (sdb_accessList s) (sdb_transientStorage s) (sdb_journal s) (sdb_validRevisions s) (sdb_nextRevisionId s).
Definition set_sdb_thash (x : Hash) (s : StateDB) : StateDB :=
  mkStateDB (sdb_db s) (sdb_stateObjects s) (sdb_pending s) (sdb_dirty s) (sdb_destruct s) (sdb_refund s) x (sdb_txIndex s) (sdb_logs s) (sdb_logSize s) (sdb_preimages s) (sdb_accessList s) (sdb_transientStorage s) (sdb_journal s) (sdb_validRevisions s) (sdb_nextRevisionId s).
Definition set_sdb_txIndex (x : Z) (s : StateDB) : StateDB :=
  mkStateDB (sdb_db s) (sdb_stateObjects s) (sdb_pending s) (sdb_dirty s) (sdb_destruct s) (sdb_refund s) (sdb_thash s) x (sdb_logs s) (sdb_logSize s) (sdb_preimages s) (sdb_accessList s) (sdb_transientStorage s) (sdb_journal s) (sdb_validRevisions s) (sdb_nextRevisionId s).
Definition set_sdb_logs (x : gmap Hash (list Log)) (s : StateDB) : StateDB :=
  mkStateDB (sdb_db s) (sdb_stateObjects s) (sdb_pending s) (sdb_dirty s) (sdb_destruct s) (sdb_refund s) (sdb_thash s) (sdb_txIndex s) x (sdb_logSize s) (sdb_preimages s) (sdb_accessList s) (sdb_transientStorage s) (sdb_journal s) (sdb_validRevisions s) (sdb_nextRevisionId s).
Definition set_sdb_logSize (x : Z) (s : StateDB) : StateDB :=
  mkStateDB (sdb_db s) (sdb_stateObjects s) (sdb_pending s) (sdb_dirty s) (sdb_destruct s) (sdb_refund s) (sdb_thash s) (sdb_txIndex s) (sdb_logs s) x (sdb_preimages s) (sdb_accessList s) (sdb_transientStorage s) (sdb_journal s) (sdb_validRevisions s) (sdb_nextRevisionId s).
Definition set_sdb_preimages (x : gmap Hash bytes) (s : StateDB) : StateDB :=
  mkStateDB (sdb_db s) (sdb_stateObjects s) (sdb_pending s) (sdb_dirty s) (sdb_destruct s) (sdb_refund s) (sdb_thash s) (sdb_txIndex s) (sdb_logs s) (sdb_logSize s) x (sdb_accessList s) (sdb_transientStorage s) (sdb_journal s) (sdb_validRevisions s) (sdb_nextRevisionId s).
Definition set_sdb_accessList (x : accessList) (s : StateDB) : StateDB :=
  mkStateDB (sdb_db s) (sdb_stateObjects s) (sdb_pending s) (sdb_dirty s) (sdb_destruct s) (sdb_refund s) (sdb_thash s) (sdb_txIndex s) (sdb_logs s) (sdb_logSize s) (sdb_preimages s) x (sdb_transientStorage s) (sdb_journal s) (sdb_validRevisions s) (sdb_nextRevisionId s).
Definition set_sdb_transientStorage (x : gmap Address Storage) (s : StateDB) : StateDB :=
  mkStateDB (sdb_db s) (sdb_stateObjects s) (sdb_pending s) (sdb_dirty s) (sdb_destruct s) (sdb_refund s) (sdb_thash s) (sdb_txIndex s) (sdb_logs s) (sdb_logSize s) (sdb_preimages s) (sdb_accessList s) x (sdb_journal s) (sdb_validRevisions s) (sdb_nextRevisionId s).
Definition set_sdb_journal (x : journal) (s : StateDB) : StateDB :=
  mkStateDB (sdb_db s) (sdb_stateObjects s) (sdb_pending s) (sdb_dirty s) (sdb_destruct s) (sdb_refund s) (sdb_thash s) (sdb_txIndex s) (sdb_logs s) (sdb_logSize s) (sdb_preimages s) (sdb_accessList s) (sdb_transientStorage s) x (sdb_validRevisions s) (sdb_nextRevisionId s).
Definition set_sdb_validRevisions (x : list revision) (s : StateDB) : StateDB :=
  mkStateDB (sdb_db s) (sdb_stateObjects s) (sdb_pending s) (sdb_dirty s) (sdb_destruct s) (sdb_refund s) (sdb_thash s) (sdb_txIndex s) (sdb_logs s) (sdb_logSize s) (sdb_preimages s) (sdb_accessList s) (sdb_transientStorage s) (sdb_journal s) x (sdb_nextRevisionId s).
Definition set_sdb_nextRevisionId (x : Z) (s : StateDB) : StateDB :=
  mkStateDB (sdb_db s) (sdb_stateObjects s) (sdb_pending s) (sdb_dirty s) (sdb_destruct s) (sdb_refund s) (sdb_thash s) (sdb_txIndex s) (sdb_logs s) (sdb_logSize s) (sdb_preimages s) (sdb_accessList s) (sdb_transientStorage s) (sdb_journal s) (sdb_validRevisions s) x.

Section state.
Context `{Crypto}.

Definition EmptyCodeHash : Hash := be_value (Keccak256 []).
Definition EmptyRootHash : Hash := 0x56e81f171bcc55a6ff8345e692c0f86e5b48e01b996cadc001622fb5e363b421.
Definition NewEmptyStateAccount : StateAccount := mkStateAccount 0 0 EmptyRootHash EmptyCodeHash 0.

(** ** Objects *)

Definition obj_empty (o : stateObject) : bool :=
  let d := so_data o in (sa_Nonce d =? 0) && (sa_Balance d =? 0) && (sa_CodeHash d =? EmptyCodeHash) && (sa_Extra d =? 0).

Definition newObject (address : Address) (acct : option StateAccount) : stateObject :=
  mkObject address acct (default NewEmptyStateAccount acct) None ∅ ∅ ∅ false false false (bool_decide (acct = None)).

(** [GetCommittedState]: the value, and the object with the value in its cache. *)
Definition committedState (s : StateDB) (o : stateObject) (key : Hash) : Hash :=
  match so_pendingStorage o !! key with
  | Some value => value
  | None =>
      match so_originStorage o !! key with
      | Some value => value
      | None =>
          match sdb_destruct s !! so_address o with
          | Some _ => 0
          | None => GetStorage (sdb_db s) (so_address o) key
          end
      end
  end.
Definition obj_GetCommittedState (s : StateDB) (o : stateObject) (key : Hash) : Hash * stateObject :=
  let value := committedState s o key in
  let cached := bool_decide (is_Some (so_pendingStorage o !! key)) || bool_decide (is_Some (so_originStorage o !! key))
                || bool_decide (is_Some (sdb_destruct s !! so_address o)) in
  (value, if cached then o else set_so_originStorage (<[key := value]> (so_originStorage o)) o).
Definition obj_GetState (s : StateDB) (o : stateObject) (key : Hash) : Hash * stateObject :=
  match so_dirtyStorage o !! key with Some value => (value, o) | None => obj_GetCommittedState s o key end.

(** [Code]: loaded by the hash on the first use. *)
Definition obj_Code (s : StateDB) (o : stateObject) : bytes :=
  match so_code o with
  | Some code => code
  | None => if sa_CodeHash (so_data o) =? EmptyCodeHash then [] else ContractCode (sdb_db s) (sa_CodeHash (so_data o))
  end.

Definition obj_setBalance (amount : Z) (o : stateObject) : stateObject := set_so_data (set_sa_Balance amount (so_data o)) o.
Definition obj_setNonce (nonce : Z) (o : stateObject) : stateObject := set_so_data (set_sa_Nonce nonce (so_data o)) o.
Definition obj_setExtra (extra : Z) (o : stateObject) : stateObject := set_so_data (set_sa_Extra extra (so_data o)) o.
Definition obj_setCode (codeHash : Hash) (code : bytes) (o : stateObject) : stateObject :=
  set_so_dirtyCode true (set_so_data (set_sa_CodeHash codeHash (so_data o)) (set_so_code (Some code) o)).
Definition obj_setState (key value : Hash) (o : stateObject) : stateObject :=
  set_so_dirtyStorage (<[key := value]> (so_dirtyStorage o)) o.

(** [finalise] of an object: the changes of the transaction become pending. *)
Definition obj_finalise (o : stateObject) : stateObject :=
  set_so_dirtyStorage ∅ (set_so_pendingStorage (so_dirtyStorage o ∪ so_pendingStorage o) o).

(** ** Finding objects *)

Definition getDeletedStateObject (s : StateDB) (addr : Address) : option stateObject :=
  match sdb_stateObjects s !! addr with
  | Some obj => Some obj
  | None => (fun data => newObject addr (Some data)) <$> GetAccount (sdb_db s) addr
  end.
Definition getStateObject (s : StateDB) (addr : Address) : option stateObject :=
  match getDeletedStateObject s addr with Some obj => if so_deleted obj then None else Some obj | None => None end.
Definition setStateObject (o : stateObject) (s : StateDB) : StateDB :=
  set_sdb_stateObjects (<[so_address o := o]> (sdb_stateObjects s)) s.

Definition append (e : journalEntry) (s : StateDB) : StateDB := set_sdb_journal (journal_append e (sdb_journal s)) s.

(** [createObject]: the new object, and the one that it replaces. *)
Definition createObject (addr : Address) (s : StateDB) : stateObject * option stateObject * StateDB :=
  let newobj := newObject addr None in
  match getDeletedStateObject s addr with
  | None => (newobj, None, setStateObject newobj (append (createObjectChange addr) s))
  | Some prev =>
      let prevdestruct := bool_decide (is_Some (sdb_destruct s !! so_address prev)) in
      let s := if prevdestruct then s else set_sdb_destruct (<[so_address prev := so_origin prev]> (sdb_destruct s)) s in
      let s := append (resetObjectChange addr prev prevdestruct) s in
      (newobj, if so_deleted prev then None else Some prev, setStateObject newobj s)
  end.
(** An object that was loaded from the database is kept. *)
Definition getOrNewStateObject (addr : Address) (s : StateDB) : stateObject * StateDB :=
  match getStateObject s addr with
  | Some obj => (obj, setStateObject obj s)
  | None => let '(obj, _, s) := createObject addr s in (obj, s)
  end.
Definition CreateAccount (addr : Address) (s : StateDB) : StateDB :=
  match createObject addr s with
  | (newobj, Some prev, s) => setStateObject (obj_setBalance (sa_Balance (so_data prev)) newobj) s
  | (_, None, s) => s
  end.

(** ** Reading *)

Definition read {A} (s : StateDB) (addr : Address) (default : A) (f : stateObject -> A) : A :=
  match getStateObject s addr with Some o => f o | None => default end.

Definition Exist (s : StateDB) (addr : Address) : bool := read s addr false (fun _ => true).
Definition Empty (s : StateDB) (addr : Address) : bool := read s addr true obj_empty.
Definition GetBalance (s : StateDB) (addr : Address) : Z := read s addr 0 (fun o => sa_Balance (so_data o)).
Definition GetNonce (s : StateDB) (addr : Address) : Z := read s addr 0 (fun o => sa_Nonce (so_data o)).
Definition GetExtra (s : StateDB) (addr : Address) : Z := read s addr 0 (fun o => sa_Extra (so_data o)).
Definition IsBlacklisted (s : StateDB) (addr : Address) : bool := read s addr false (fun o => extra_IsBlacklisted (sa_Extra (so_data o))).
Definition IsAuthorized (s : StateDB) (addr : Address) : bool := read s addr false (fun o => extra_IsAuthorized (sa_Extra (so_data o))).
Definition GetCode (s : StateDB) (addr : Address) : bytes := read s addr [] (obj_Code s).
Definition GetCodeHash (s : StateDB) (addr : Address) : Hash := read s addr 0 (fun o => sa_CodeHash (so_data o)).
Definition GetState (s : StateDB) (addr : Address) (key : Hash) : Hash := read s addr 0 (fun o => fst (obj_GetState s o key)).
Definition GetCommittedState (s : StateDB) (addr : Address) (key : Hash) : Hash := read s addr 0 (fun o => committedState s o key).
Definition HasSelfDestructed (s : StateDB) (addr : Address) : bool := read s addr false so_selfDestructed.
Definition GetCodeSize (s : StateDB) (addr : Address) : Z := read s addr 0 (fun o => Z.of_nat (length (obj_Code s o))).
Definition GetRefund (s : StateDB) : Z := sdb_refund s.
Definition AddressInAccessList (s : StateDB) (addr : Address) : bool := ContainsAddress (sdb_accessList s) addr.
Definition SlotInAccessList (s : StateDB) (addr : Address) (slot : Hash) : bool * bool := al_Contains (sdb_accessList s) addr slot.
Definition GetTransientState (s : StateDB) (addr : Address) (key : Hash) : Hash := transient_Get (sdb_transientStorage s) addr key.

(** ** Writing *)

(** A journalled change of an object. *)
Definition change (e : journalEntry) (o : stateObject) (s : StateDB) : StateDB := setStateObject o (append e s).

Definition ripemd : Address := 3.
Definition touch (o : stateObject) (s : StateDB) : StateDB :=
  let s := append (touchChange (so_address o)) s in
  if so_address o =? ripemd then set_sdb_journal (journal_dirty (so_address o) (sdb_journal s)) s else s.

Definition obj_SetBalance (amount : Z) (o : stateObject) (s : StateDB) : StateDB :=
  change (balanceChange (so_address o) (sa_Balance (so_data o))) (obj_setBalance amount o) s.
Definition obj_AddBalance (amount : Z) (o : stateObject) (s : StateDB) : StateDB :=
  if amount =? 0 then if obj_empty o then touch o s else s
  else obj_SetBalance ((sa_Balance (so_data o) + amount) mod 2 ^ 256) o s.
Definition obj_SubBalance (amount : Z) (o : stateObject) (s : StateDB) : StateDB :=
  if amount =? 0 then s else obj_SetBalance ((sa_Balance (so_data o) - amount) mod 2 ^ 256) o s.
Definition obj_SetNonce (nonce : Z) (o : stateObject) (s : StateDB) : StateDB :=
  change (nonceChange (so_address o) (sa_Nonce (so_data o))) (obj_setNonce nonce o) s.
Definition obj_SetExtra (extra : Z) (o : stateObject) (s : StateDB) : StateDB :=
  change (extraChange (so_address o) (sa_Extra (so_data o))) (obj_setExtra extra o) s.
Definition obj_SetBlacklisted (o : stateObject) (s : StateDB) : StateDB :=
  let extra := sa_Extra (so_data o) in
  if extra_IsBlacklisted extra then s else obj_SetExtra (extra_SetBlacklisted extra) o s.
Definition obj_ClearBlacklisted (o : stateObject) (s : StateDB) : StateDB :=
  let extra := sa_Extra (so_data o) in
  if negb (extra_IsBlacklisted extra) then if obj_empty o then touch o s else s
  else obj_SetExtra (extra_ClearBlacklisted extra) o s.
Definition obj_SetAuthorized (o : stateObject) (s : StateDB) : StateDB :=
  let extra := sa_Extra (so_data o) in
  if extra_IsAuthorized extra then s else obj_SetExtra (extra_SetAuthorized extra) o s.
Definition obj_ClearAuthorized (o : stateObject) (s : StateDB) : StateDB :=
  let extra := sa_Extra (so_data o) in
  if negb (extra_IsAuthorized extra) then if obj_empty o then touch o s else s
  else obj_SetExtra (extra_ClearAuthorized extra) o s.
Definition obj_SetCode (codeHash : Hash) (code : bytes) (o : stateObject) (s : StateDB) : StateDB :=
  change (codeChange (so_address o) (obj_Code s o) (sa_CodeHash (so_data o))) (obj_setCode codeHash code o) s.
Definition obj_SetState (key value : Hash) (o : stateObject) (s : StateDB) : StateDB :=
  let '(prev, o) := obj_GetState s o key in
  if prev =? value then s else change (storageChange (so_address o) key prev) (obj_setState key value o) s.

Definition withObject (addr : Address) (f : stateObject -> StateDB -> StateDB) (s : StateDB) : StateDB :=
  let '(o, s) := getOrNewStateObject addr s in f o s.

Definition AddBalance (addr : Address) (amount : Z) : StateDB -> StateDB := withObject addr (obj_AddBalance amount).
Definition SubBalance (addr : Address) (amount : Z) : StateDB -> StateDB := withObject addr (obj_SubBalance amount).
Definition SetBalance (addr : Address) (amount : Z) : StateDB -> StateDB := withObject addr (obj_SetBalance amount).
Definition SetNonce (addr : Address) (nonce : Z) : StateDB -> StateDB := withObject addr (obj_SetNonce nonce).
Definition SetBlacklisted (addr : Address) : StateDB -> StateDB := withObject addr obj_SetBlacklisted.
Definition ClearBlacklisted (addr : Address) : StateDB -> StateDB := withObject addr obj_ClearBlacklisted.
Definition SetAuthorized (addr : Address) : StateDB -> StateDB := withObject addr obj_SetAuthorized.
Definition ClearAuthorized (addr : Address) : StateDB -> StateDB := withObject addr obj_ClearAuthorized.
Definition SetExtra (addr : Address) (extra : Z) : StateDB -> StateDB := withObject addr (obj_SetExtra extra).
Definition SetCode (addr : Address) (code : bytes) : StateDB -> StateDB := withObject addr (obj_SetCode (be_value (Keccak256 code)) code).
Definition SetState (addr : Address) (key value : Hash) : StateDB -> StateDB := withObject addr (obj_SetState key value).

Definition SelfDestruct (addr : Address) (s : StateDB) : StateDB :=
  match getStateObject s addr with
  | None => s
  | Some o =>
      change (selfDestructChange addr (so_selfDestructed o) (sa_Balance (so_data o))) (obj_setBalance 0 (set_so_selfDestructed true o)) s
  end.
Definition Selfdestruct6780 (addr : Address) (s : StateDB) : StateDB :=
  match getStateObject s addr with Some o => if so_created o then SelfDestruct addr s else s | None => s end.

Definition SetTransientState (addr : Address) (key value : Hash) (s : StateDB) : StateDB :=
  let prev := GetTransientState s addr key in
  if prev =? value then s
  else
    let s := append (transientStorageChange addr key prev) s in
    set_sdb_transientStorage (transient_Set (sdb_transientStorage s) addr key value) s.

Definition AddLog (log : Log) (s : StateDB) : StateDB :=
  let s := append (addLogChange (sdb_thash s)) s in
  let log := mkLog (log_Address log) (log_Topics log) (log_Data log) (log_BlockNumber log) (sdb_thash s) (sdb_txIndex s) (sdb_logSize s) in
  set_sdb_logSize (u64 (sdb_logSize s + 1))
    (set_sdb_logs (<[sdb_thash s := default [] (sdb_logs s !! sdb_thash s) ++ [log]]> (sdb_logs s)) s).

Definition AddPreimage (hash : Hash) (preimage : bytes) (s : StateDB) : StateDB :=
  match sdb_preimages s !! hash with
  | Some _ => s
  | None => set_sdb_preimages (<[hash := preimage]> (sdb_preimages s)) (append (addPreimageChange hash) s)
  end.

Definition AddRefund (gas : Z) (s : StateDB) : StateDB :=
  let s := append (refundChange (sdb_refund s)) s in set_sdb_refund (u64 (sdb_refund s + gas)) s.
(** [SubRefund] panics below zero. *)
Definition SubRefund (gas : Z) (s : StateDB) : option StateDB :=
  let s := append (refundChange (sdb_refund s)) s in
  if sdb_refund s <? gas then None else Some (set_sdb_refund (sdb_refund s - gas) s).

Definition AddAddressToAccessList (addr : Address) (s : StateDB) : StateDB :=
  let '(changed, al) := AddAddress (sdb_accessList s) addr in
  let s := set_sdb_accessList al s in
  if changed then append (accessListAddAccountChange addr) s else s.
Definition AddSlotToAccessList (addr : Address) (slot : Hash) (s : StateDB) : StateDB :=
  let '(addrMod, slotMod, al) := AddSlot (sdb_accessList s) addr slot in
  let s := set_sdb_accessList al s in
  let s := if addrMod then append (accessListAddAccountChange addr) s else s in
  if slotMod then append (accessListAddSlotChange addr slot) s else s.

(** ** Undoing *)

Definition updateObject (addr : Address) (f : stateObject -> stateObject) (s : StateDB) : option StateDB :=
  o ← getStateObject s addr; Some (setStateObject (f o) s).

(** [revert] of an entry; [None] stands for a panic. *)
Definition revert (e : journalEntry) (s : StateDB) : option StateDB :=
  match e with
  | createObjectChange account =>
      Some (set_sdb_dirty (sdb_dirty s ∖ {[account]}) (set_sdb_stateObjects (delete account (sdb_stateObjects s)) s))
  | resetObjectChange _ prev prevdestruct =>
      let s := setStateObject prev s in
      Some (if prevdestruct then s else set_sdb_destruct (delete (so_address prev) (sdb_destruct s)) s)
  | selfDestructChange account prev prevbalance =>
      match getStateObject s account with
      | Some o => Some (setStateObject (obj_setBalance prevbalance (set_so_selfDestructed prev o)) s)
      | None => Some s
      end
  | balanceChange account prev => updateObject account (obj_setBalance prev) s
  | nonceChange account prev => updateObject account (obj_setNonce prev) s
  | storageChange account key prevalue => updateObject account (obj_setState key prevalue) s
  | codeChange account prevcode prevhash => updateObject account (obj_setCode prevhash prevcode) s
  | extraChange account prev => updateObject account (obj_setExtra prev) s
  | refundChange prev => Some (set_sdb_refund prev s)
  | addLogChange txhash =>
      match default [] (sdb_logs s !! txhash) with
      | [] => None
      | [_] => Some (set_sdb_logSize (u64 (sdb_logSize s - 1)) (set_sdb_logs (delete txhash (sdb_logs s)) s))
      | logs => Some (set_sdb_logSize (u64 (sdb_logSize s - 1)) (set_sdb_logs (<[txhash := removelast logs]> (sdb_logs s)) s))
      end
  | addPreimageChange hash => Some (set_sdb_preimages (delete hash (sdb_preimages s)) s)
  | touchChange _ => Some s
  | accessListAddAccountChange address => Some (set_sdb_accessList (DeleteAddress (sdb_accessList s) address) s)
  | accessListAddSlotChange address slot => al ← DeleteSlot (sdb_accessList s) address slot; Some (set_sdb_accessList al s)
  | transientStorageChange account key prevalue =>
      Some (set_sdb_transientStorage (transient_Set (sdb_transientStorage s) account key prevalue) s)
  end.

(** The last entry of the journal is undone and dropped. *)
Definition revertLast (s : StateDB) : option StateDB :=
  match j_entries (sdb_journal s) with
  | [] => None
  | e :: es =>
      s ← revert e s;
      let d := j_dirties (sdb_journal s) in
      Some (set_sdb_journal (mkJournal es (match dirtied e with Some a => count_down a d | None => d end)) s)
  end.
(** The loop of [journal.revert], from the newest entry down. *)
Fixpoint revertEntries (n : nat) (s : StateDB) : option StateDB :=
  match n with
  | O => Some s
  | S n => s ← revertLast s; revertEntries n s
  end.
Definition journal_length (s : StateDB) : nat := length (j_entries (sdb_journal s)).
Definition journal_revert (snapshot : nat) (s : StateDB) : option StateDB := revertEntries (journal_length s - snapshot) s.

Definition Snapshot (s : StateDB) : Z * StateDB :=
  let id := sdb_nextRevisionId s in
  (id, set_sdb_validRevisions (sdb_validRevisions s ++ [mkRevision id (journal_length s)]) (set_sdb_nextRevisionId (id + 1) s)).

(** [sort.Search]: the first index from which the identifiers are large enough. *)
Fixpoint searchRevision (revid : Z) (revisions : list revision) : nat :=
  match revisions with
  | [] => 0
  | r :: revisions => if revid <=? rev_id r then 0 else S (searchRevision revid revisions)
  end.

(** [RevertToSnapshot] panics for an identifier that is no longer valid. *)
Definition RevertToSnapshot (revid : Z) (s : StateDB) : option StateDB :=
  let idx := searchRevision revid (sdb_validRevisions s) in
  match sdb_validRevisions s !! idx with
  | None => None
  | Some r =>
      if negb (rev_id r =? revid) then None
      else
        s ← journal_revert (rev_journalIndex r) s;
        Some (set_sdb_validRevisions (take idx (sdb_validRevisions s)) s)
  end.

(** ** The end of a transaction *)

Definition finaliseObject (deleteEmptyObjects : bool) (addr : Address) (s : StateDB) : StateDB :=
  match sdb_stateObjects s !! addr with
  | None => s
  | Some obj =>
      let gone := so_selfDestructed obj || deleteEmptyObjects && obj_empty obj in
      let s :=
        if gone then
          match sdb_destruct s !! so_address obj with
          | Some _ => s
          | None => set_sdb_destruct (<[so_address obj := so_origin obj]> (sdb_destruct s)) s
          end
        else s in
      let obj := if gone then set_so_deleted true obj else obj_finalise obj in
      let s := set_sdb_stateObjects (<[addr := set_so_created false obj]> (sdb_stateObjects s)) s in
      set_sdb_dirty ({[addr]} ∪ sdb_dirty s) (set_sdb_pending ({[addr]} ∪ sdb_pending s) s)
  end.

Definition clearJournalAndRefund (s : StateDB) : StateDB :=
  let s := match j_entries (sdb_journal s) with [] => s | _ => set_sdb_refund 0 (set_sdb_journal newJournal s) end in
  set_sdb_validRevisions [] s.

(** The order in which Go visits the map does not matter: an object is finalised
    on its own. *)
Definition Finalise (deleteEmptyObjects : bool) (s : StateDB) : StateDB :=
  clearJournalAndRefund (foldr (finaliseObject deleteEmptyObjects) s (elements (dom (j_dirties (sdb_journal s))))).

Definition SetTxContext (thash : Hash) (ti : Z) (s : StateDB) : StateDB := set_sdb_txIndex ti (set_sdb_thash thash s).

(** [New]: the state at a root. *)
Definition New (db : Database) : StateDB := mkStateDB db ∅ ∅ ∅ ∅ 0 0 0 ∅ 0 ∅ newAccessList ∅ newJournal [] 0.
End state.
