(* ===== verification/JournalProps.v ===== *)
(** The journal undoes what was done: after any operations on the state, with any
    snapshots taken and returned to in between, returning to a snapshot gives a
    state that no operation can tell from the one at the snapshot. *)
From S2P Require Import Prelude Validators Messages Rlp AccountExtra StateJournal.

Section same.
Context `{Crypto}.

(** * States that cannot be told apart *)

(** The value of a slot. *)
Definition stateOf (s : StateDB) (o : stateObject) (k : Hash) : Hash :=
  match so_dirtyStorage o !! k with Some v => v | None => committedState s o k end.
Lemma obj_GetState_value s o k : fst (obj_GetState s o k) = stateOf s o k.
Proof. unfold obj_GetState, stateOf. by destruct (so_dirtyStorage o !! k). Qed.

(** Two objects show the same; what they have cached may differ. *)
Record obj_sim (s t : StateDB) (o o' : stateObject) : Prop := {
  sim_address : so_address o = so_address o';
  sim_origin : so_origin o = so_origin o';
  sim_data : so_data o = so_data o';
  sim_selfDestructed : so_selfDestructed o = so_selfDestructed o';
  sim_deleted : so_deleted o = so_deleted o';
  sim_created : so_created o = so_created o';
  sim_code : obj_Code s o = obj_Code t o';
  sim_committed k : committedState s o k = committedState t o' k;
  sim_state k : stateOf s o k = stateOf t o' k;
}.

Notation entries s := (j_entries (sdb_journal s)).
Notation dirties s := (j_dirties (sdb_journal s)).

Record same (s t : StateDB) : Prop := {
  same_db : sdb_db s = sdb_db t;
  same_destruct : sdb_destruct s = sdb_destruct t;
  same_objects a : option_Forall2 (obj_sim s t) (getDeletedStateObject s a) (getDeletedStateObject t a);
  same_refund : sdb_refund s = sdb_refund t;
  same_thash : sdb_thash s = sdb_thash t;
  same_txIndex : sdb_txIndex s = sdb_txIndex t;
  same_logs h : default [] (sdb_logs s !! h) = default [] (sdb_logs t !! h);
  same_logSize : sdb_logSize s = sdb_logSize t;
  same_preimages : sdb_preimages s = sdb_preimages t;
  same_accessList : sdb_accessList s = sdb_accessList t;
  same_transient a k : transient_Get (sdb_transientStorage s) a k = transient_Get (sdb_transientStorage t) a k;
  same_entries : entries s = entries t;
  same_dirties a : a <> ripemd -> dirties s !! a = dirties t !! a;
}.

(** The state below an object matters only through the database and the marks of
    destruction. *)
Definition same_env (s s' : StateDB) (a : Address) : Prop :=
  sdb_db s = sdb_db s' /\ sdb_destruct s !! a = sdb_destruct s' !! a.

Lemma committed_env s s' o k : same_env s s' (so_address o) -> committedState s o k = committedState s' o k.
Proof. intros [Hd Ha]. unfold committedState. by rewrite Hd, Ha. Qed.
Lemma state_env s s' o k : same_env s s' (so_address o) -> stateOf s o k = stateOf s' o k.
Proof. intros He. unfold stateOf. destruct (so_dirtyStorage o !! k); [done|]. by apply committed_env. Qed.
Lemma code_env s s' o a : same_env s s' a -> obj_Code s o = obj_Code s' o.
Proof. intros [Hd _]. unfold obj_Code. by rewrite Hd. Qed.

Lemma obj_sim_env s s' t t' o o' :
  same_env s s' (so_address o) -> same_env t t' (so_address o') -> obj_sim s t o o' -> obj_sim s' t' o o'.
Proof.
  intros Hs Ht []. split; try done; [| |intros k; rewrite <- (state_env s s'), <- (state_env t t') by done; done].
  - by rewrite <- (code_env s s' _ _ Hs), <- (code_env t t' _ _ Ht).
  - intros k. by rewrite <- (committed_env s s'), <- (committed_env t t').
Qed.

Lemma obj_sim_refl s t o : same_env s t (so_address o) -> obj_sim s t o o.
Proof. intros He. split; try done; [by eapply code_env|intros; by apply committed_env|intros; by apply state_env]. Qed.
Lemma obj_sim_sym s t o o' : obj_sim s t o o' -> obj_sim t s o' o.
Proof. intros []. by split. Qed.
Lemma obj_sim_trans s t u o o' o'' : obj_sim s t o o' -> obj_sim t u o' o'' -> obj_sim s u o o''.
Proof. intros [] []. split; try congruence; intros k; etrans; eauto. Qed.

#[export] Instance same_equivalence : Equivalence same.
Proof.
  split.
  - intros s. split; try done. intros a. destruct (getDeletedStateObject s a); constructor. by apply obj_sim_refl.
  - intros s t Hst. split; intros; try (symmetry; by apply Hst).
    pose proof (same_objects _ _ Hst a) as Ho. inversion Ho; constructor. by apply obj_sim_sym.
  - intros s t u Hst Htu. split; intros; try (etrans; [by apply Hst|by apply Htu]).
    pose proof (same_objects _ _ Hst a) as H1. pose proof (same_objects _ _ Htu a) as H2.
    destruct (getDeletedStateObject t a); inversion H1; subst; inversion H2; subst; constructor. by eapply obj_sim_trans.
Qed.

(** * Well-formed states *)

Definition al_ok (al : accessList) : Prop :=
  forall a idx, al_addresses al !! a = Some idx -> idx = -1 \/ 0 <= idx /\ exists slots, al_slots al !! Z.to_nat idx = Some slots /\ slots <> ∅.

(** A replaced object is one of the account that it was replaced in. *)
Definition entry_ok (e : journalEntry) : Prop :=
  match e with resetObjectChange account prev _ => so_address prev = account | _ => True end.

Record wf (s : StateDB) : Prop := {
  wf_address a o : getDeletedStateObject s a = Some o -> so_address o = a;
  wf_accessList : al_ok (sdb_accessList s);
  wf_dirties a n : a <> ripemd -> dirties s !! a = Some n -> 0 < n;
  wf_logSize : 0 <= sdb_logSize s < 2 ^ 64;
  wf_entries : Forall entry_ok (entries s);
}.

Lemma wf_same s t : same s t -> wf t -> wf s.
Proof.
  intros Hst [Ha Hal Hd Hl He]. split.
  - intros a o Ho. pose proof (same_objects _ _ Hst a) as Hs. rewrite Ho in Hs. inversion Hs as [x y Hxy Hx Hy|]; subst.
    rewrite (sim_address _ _ _ _ Hxy). by apply Ha.
  - by rewrite (same_accessList _ _ Hst).
  - intros a n Hn. rewrite (same_dirties _ _ Hst a Hn). by apply Hd.
  - by rewrite (same_logSize _ _ Hst).
  - by rewrite (same_entries _ _ Hst).
Qed.

(** * Objects in a state *)

Lemma getDeleted_set s o a :
  getDeletedStateObject (setStateObject o s) a = if bool_decide (a = so_address o) then Some o else getDeletedStateObject s a.
Proof.
  unfold getDeletedStateObject, setStateObject. cbn. case_bool_decide as Ha; subst.
  - by rewrite lookup_insert_eq.
  - by rewrite lookup_insert_ne.
Qed.

Lemma getStateObject_some s a o : getStateObject s a = Some o <-> getDeletedStateObject s a = Some o /\ so_deleted o = false.
Proof.
  unfold getStateObject. destruct (getDeletedStateObject s a) as [o'|]; [|by split; [|intros []]].
  destruct (so_deleted o') eqn:Hd; split; try done; [intros [[= <-] ?]; congruence|by intros [= <-]|by intros [[= <-] ?]].
Qed.

Lemma getStateObject_same s t a : same s t -> option_Forall2 (obj_sim s t) (getStateObject s a) (getStateObject t a).
Proof.
  intros Hst. pose proof (same_objects _ _ Hst a) as Ho. unfold getStateObject. inversion Ho as [x y Hxy|]; [|constructor].
  rewrite (sim_deleted _ _ _ _ Hxy). destruct (so_deleted y); by constructor.
Qed.

Lemma env_all s s' a : sdb_db s = sdb_db s' -> sdb_destruct s = sdb_destruct s' -> same_env s s' a.
Proof. intros Hd He. split; [done|by rewrite He]. Qed.

Lemma same_setObject s t o o' : same s t -> obj_sim s t o o' -> same (setStateObject o s) (setStateObject o' t).
Proof.
  intros Hst Ho. split; try apply Hst. intros a. rewrite !getDeleted_set, (sim_address _ _ _ _ Ho).
  case_bool_decide; [constructor; by eapply obj_sim_env; [apply env_all..|exact Ho]|].
  pose proof (same_objects _ _ Hst a) as Hx. inversion Hx as [x y Hxy|]; constructor. by eapply obj_sim_env; [apply env_all..|exact Hxy].
Qed.

(** Changes elsewhere do not concern the objects. *)
Definition same_below (s s' : StateDB) : Prop :=
  sdb_db s = sdb_db s' /\ sdb_destruct s = sdb_destruct s' /\ sdb_stateObjects s = sdb_stateObjects s'.

Lemma objects_elsewhere s t s' t' : same s t -> same_below s s' -> same_below t t' ->
  forall a, option_Forall2 (obj_sim s' t') (getDeletedStateObject s' a) (getDeletedStateObject t' a).
Proof.
  intros Hst (Hd & He & Ho) (Hd' & He' & Ho') a. pose proof (same_objects _ _ Hst a) as Hx. unfold getDeletedStateObject in *.
  rewrite <- Ho, <- Ho', <- Hd, <- Hd'. inversion Hx as [x y Hxy|]; constructor. by eapply obj_sim_env; [apply env_all..|exact Hxy].
Qed.

Ltac elsewhere Hst := split; [..|]; try apply Hst; try (by eapply objects_elsewhere; [exact Hst|..]); cbn.

(** * Undoing respects sameness *)

Lemma stateOf_setState s o k v k' :
  stateOf s (obj_setState k v o) k' = if bool_decide (k' = k) then v else stateOf s o k'.
Proof. unfold stateOf. cbn. case_bool_decide; subst; [by rewrite lookup_insert_eq|by rewrite lookup_insert_ne]. Qed.

(** The changes of objects that undoing makes. *)
Inductive objUpdate : (stateObject -> stateObject) -> Prop :=
  | upd_balance x : objUpdate (obj_setBalance x)
  | upd_nonce x : objUpdate (obj_setNonce x)
  | upd_extra x : objUpdate (obj_setExtra x)
  | upd_code h c : objUpdate (obj_setCode h c)
  | upd_state k v : objUpdate (obj_setState k v)
  | upd_destructed b x : objUpdate (fun o => obj_setBalance x (set_so_selfDestructed b o)).

Lemma update_sim f s t o o' : objUpdate f -> obj_sim s t o o' -> obj_sim s t (f o) (f o').
Proof.
  intros Hf Ho. destruct Hf; split; try apply Ho; try done;
    try (intros; rewrite !stateOf_setState; by rewrite (sim_state _ _ _ _ Ho)); cbn; by rewrite (sim_data _ _ _ _ Ho).
Qed.
Lemma update_keeps f o : objUpdate f -> so_address (f o) = so_address o /\ so_deleted (f o) = so_deleted o.
Proof. by intros []. Qed.

(** Related results, a panic on neither side or on both. *)
Notation "s ~~ t" := (option_Forall2 same s t) (at level 70).

Lemma updateObject_same a f s t : objUpdate f -> same s t -> updateObject a f s ~~ updateObject a f t.
Proof.
  intros Hf Hst. unfold updateObject. pose proof (getStateObject_same s t a Hst) as Ho. inversion Ho as [x y Hxy|]; cbn; constructor.
  apply same_setObject; [done|]. by apply update_sim.
Qed.

Lemma delete_same s t a d d' : same s t ->
  same (set_sdb_dirty d (set_sdb_stateObjects (delete a (sdb_stateObjects s)) s))
       (set_sdb_dirty d' (set_sdb_stateObjects (delete a (sdb_stateObjects t)) t)).
Proof.
  intros Hst. split; try apply Hst. intros b. unfold getDeletedStateObject. cbn. destruct (decide (a = b)) as [<-|Hab].
  - rewrite !lookup_delete_eq, (same_db _ _ Hst). destruct (GetAccount (sdb_db t) a); cbn; constructor.
    apply obj_sim_refl, env_all; apply Hst.
  - rewrite !lookup_delete_ne by done. pose proof (same_objects _ _ Hst b) as Ho. unfold getDeletedStateObject in Ho.
    inversion Ho as [x y Hxy|]; constructor. by eapply obj_sim_env; [apply env_all..|exact Hxy].
Qed.

Lemma forget_same s t prev : wf s -> wf t -> same s t ->
  same (set_sdb_destruct (delete (so_address prev) (sdb_destruct s)) (setStateObject prev s))
       (set_sdb_destruct (delete (so_address prev) (sdb_destruct t)) (setStateObject prev t)).
Proof.
  intros Hs Ht Hst. split; try apply Hst; [cbn; by rewrite (same_destruct _ _ Hst)|]. intros a.
  change (option_Forall2 (obj_sim (set_sdb_destruct (delete (so_address prev) (sdb_destruct s)) (setStateObject prev s))
    (set_sdb_destruct (delete (so_address prev) (sdb_destruct t)) (setStateObject prev t)))
    (getDeletedStateObject (setStateObject prev s) a) (getDeletedStateObject (setStateObject prev t) a)).
  rewrite !getDeleted_set. case_bool_decide as Ha.
  - constructor. apply obj_sim_refl, env_all; cbn; [apply Hst|by rewrite (same_destruct _ _ Hst)].
  - pose proof (same_objects _ _ Hst a) as Ho. inversion Ho as [x y Hxy Hx Hy|]; constructor.
    symmetry in Hx, Hy. apply (wf_address _ Hs) in Hx. apply (wf_address _ Ht) in Hy. subst a.
    eapply obj_sim_env; [| |exact Hxy]; (split; [done|]); cbn; rewrite lookup_delete_ne; congruence.
Qed.

Lemma transient_Get_Set m a k v b j :
  transient_Get (transient_Set m a k v) b j = if bool_decide (b = a /\ j = k) then v else transient_Get m b j.
Proof.
  unfold transient_Get, transient_Set. destruct (decide (b = a)) as [->|Hb].
  - rewrite lookup_insert_eq. destruct (decide (j = k)) as [->|Hk].
    + by rewrite lookup_insert_eq, bool_decide_eq_true_2.
    + rewrite lookup_insert_ne, bool_decide_eq_false_2 by naive_solver. by destruct (m !! a).
  - rewrite lookup_insert_ne, bool_decide_eq_false_2 by naive_solver. done.
Qed.

Lemma revert_same e s t : wf s -> wf t -> same s t -> revert e s ~~ revert e t.
Proof.
  intros Hs Ht Hst. destruct e; cbn [revert].
  - constructor. by apply delete_same.
  - constructor. destruct prevdestruct.
    + apply same_setObject; [done|]. apply obj_sim_refl, env_all; apply Hst.
    + by apply (forget_same s t prev).
  - pose proof (getStateObject_same s t account Hst) as Ho. inversion Ho as [x y Hxy|]; constructor; [|done].
    apply same_setObject; [done|]. by apply (update_sim (fun o => obj_setBalance prevbalance (set_so_selfDestructed prev o))); [constructor|].
  - apply updateObject_same; [constructor|done].
  - apply updateObject_same; [constructor|done].
  - apply updateObject_same; [constructor|done].
  - apply updateObject_same; [constructor|done].
  - apply updateObject_same; [constructor|done].
  - constructor. by elsewhere Hst.
  - rewrite (same_logs _ _ Hst). assert (forall (l : list Log) h, default [] ((<[txhash := l]> (sdb_logs s)) !! h) = default [] ((<[txhash := l]> (sdb_logs t)) !! h)) as Hl.
    { intros l h. destruct (decide (txhash = h)) as [<-|]; [by rewrite !lookup_insert_eq|]. rewrite !lookup_insert_ne by done. apply Hst. }
    destruct (default [] (sdb_logs t !! txhash)) as [|x [|y l]]; constructor; elsewhere Hst; try (by rewrite (same_logSize _ _ Hst)); [|apply Hl].
    intros h. destruct (decide (txhash = h)) as [<-|]; [by rewrite !lookup_delete_eq|]. rewrite !lookup_delete_ne by done. apply Hst.
  - constructor. elsewhere Hst. by rewrite (same_preimages _ _ Hst).
  - by constructor.
  - constructor. elsewhere Hst. by rewrite (same_accessList _ _ Hst).
  - rewrite (same_accessList _ _ Hst). destruct (DeleteSlot _ _ _); cbn; constructor. by elsewhere Hst.
  - constructor. elsewhere Hst. intros a k. rewrite !transient_Get_Set. case_bool_decide; [done|]. apply Hst.
Qed.

Lemma revert_journal e s r : revert e s = Some r -> sdb_journal r = sdb_journal s.
Proof.
  unfold revert, updateObject. intros Hr. repeat (case_match; simplify_option_eq); done.
Qed.

Lemma count_down_lookup a d b : count_down a d !! b = if bool_decide (b = a) then (let n := default 0 (d !! a) - 1 in if n =? 0 then None else Some n) else d !! b.
Proof.
  unfold count_down. cbv zeta. case_bool_decide; subst.
  - case_match; [by rewrite lookup_delete_eq|by rewrite lookup_insert_eq].
  - case_match; [by rewrite lookup_delete_ne|by rewrite lookup_insert_ne].
Qed.

Lemma revertLast_same s t s' : wf s -> wf t -> same s t -> revertLast s = Some s' -> exists t', revertLast t = Some t' /\ same s' t'.
Proof.
  intros Hs Ht Hst. unfold revertLast. rewrite (same_entries _ _ Hst). destruct (entries t) as [|e es]; [done|].
  intros (r & Hr & [= <-])%bind_Some. pose proof (revert_same e s t Hs Ht Hst) as Hrt. rewrite Hr in Hrt.
  inversion Hrt as [x r' Hrr Hx Hr'|]; subst. cbn. eexists. split; [reflexivity|].
  elsewhere Hrr; [done|]. intros a Ha. rewrite (revert_journal _ _ _ Hr), (revert_journal _ _ _ (eq_sym Hr')).
  destruct (dirtied e) as [b|]; [|by apply Hst]. rewrite !count_down_lookup. case_bool_decide; subst; [|by apply Hst].
  by rewrite (same_dirties _ _ Hst).
Qed.

(** * Histories *)

(** [s] came from [base] by journalled changes: undoing them one by one leads back
    through well-formed states. *)
Inductive above (base : StateDB) : StateDB -> Prop :=
  | above_base s : same s base -> wf s -> above base s
  | above_step s p r : above base p -> wf s -> revertLast s = Some r -> same r p -> above base s.

Lemma above_wf base s : above base s -> wf s.
Proof. by intros []. Qed.

Lemma above_same base s t : above base s -> same s t -> above base t.
Proof.
  intros Hs Hst. assert (wf t) as Hwt by (eapply wf_same; [by symmetry|by eapply above_wf]).
  destruct Hs as [s Hb Hw|s p r Hp Hw Hr Hrp].
  - apply above_base; [|done]. etrans; [by symmetry|done].
  - destruct (revertLast_same s t r Hw Hwt Hst Hr) as (r' & Hr' & Hrr). apply (above_step base t p r'); [done..|]. etrans; [by symmetry|done].
Qed.

Lemma revertLast_length s r : revertLast s = Some r -> journal_length s = S (journal_length r).
Proof.
  unfold revertLast, journal_length. destruct (entries s) as [|e es]; [done|]. by intros (x & _ & [= <-])%bind_Some.
Qed.
Lemma same_length s t : same s t -> journal_length s = journal_length t.
Proof. intros Hst. unfold journal_length. by rewrite (same_entries _ _ Hst). Qed.

Lemma above_length base s : above base s -> (journal_length base <= journal_length s)%nat.
Proof.
  induction 1 as [s Hb _|s p r _ IH _ Hr Hrp]; [by rewrite (same_length _ _ Hb)|].
  apply revertLast_length in Hr. apply same_length in Hrp. lia.
Qed.

(** Undoing some of the changes stays above the base, undoing all of them is back. *)
Lemma above_undo base n s : above base s -> (n <= journal_length s - journal_length base)%nat ->
  exists r, revertEntries n s = Some r /\ above base r /\ journal_length s = (n + journal_length r)%nat.
Proof.
  revert s. induction n as [|n IH]; intros s Hs Hn; [by exists s|].
  destruct Hs as [s Hb Hw|s p r Hp Hw Hr Hrp]; [apply same_length in Hb; lia|].
  pose proof (above_same base p r Hp (symmetry Hrp)) as Hr'. pose proof (revertLast_length _ _ Hr) as Hl.
  destruct (IH r Hr') as (x & Hx & Hbx & Hlx); [lia|]. exists x. cbn [revertEntries]. rewrite Hr. cbn. split_and!; [done|done|lia].
Qed.

Lemma above_back base s r : above base s -> journal_revert (journal_length base) s = Some r -> same r base.
Proof.
  intros Hs Hr. destruct (above_undo base (journal_length s - journal_length base) s Hs) as (x & Hx & Hbx & Hl); [lia|].
  unfold journal_revert in Hr. rewrite Hx in Hr. injection Hr as ->. pose proof (above_length _ _ Hs).
  destruct Hbx as [|s' p' r' Hp Hw Hr Hrp]; [done|]. apply above_length in Hp. apply revertLast_length in Hr. apply same_length in Hrp. lia.
Qed.

(** One change, or none that shows. *)
Definition undone (s s' : StateDB) : Prop := wf s' /\ exists r, revertLast s' = Some r /\ same r s.
Inductive steps (s : StateDB) : StateDB -> Prop :=
  | steps_same t : same s t -> steps s t
  | steps_change t u : steps s t -> undone t u -> steps s u.

Lemma above_steps base s s' : above base s -> steps s s' -> above base s'.
Proof.
  intros Hs. induction 1 as [t Hst|t u Ht IH (Hw & r & Hr & Hrt)]; [by eapply above_same|]. by eapply above_step.
Qed.
Lemma steps_wf s s' : wf s -> steps s s' -> wf s'.
Proof. intros Hw Hs. apply (above_wf s), (above_steps s s s'); [by apply above_base|done]. Qed.
Lemma steps_refl s : steps s s.
Proof. by apply steps_same. Qed.
Lemma undone_steps s s' : undone s s' -> steps s s'.
Proof. apply steps_change, steps_refl. Qed.
Lemma steps_trans s t u : wf s -> steps s t -> steps t u -> steps s u.
Proof.
  intros Hw Hst Htu. revert Hst. induction Htu as [u Hu|u v _ IH Hv]; intros Hst; [|by eapply steps_change; [apply IH|]].
  destruct Hst as [t Hs|t' t Hs (Hwt & r & Hr & Hrt)]; [apply steps_same; by etrans|].
  apply (steps_change s t' u Hs). assert (wf u) as Hwu by (eapply wf_same; [by symmetry|done]). split; [done|].
  destruct (revertLast_same t u r Hwt Hwu Hu Hr) as (r' & Hr' & Hrr). exists r'. split; [done|]. etrans; [by symmetry|done].
Qed.

(** * Operations *)

Lemma count_up_lookup a d b : count_up a d !! b = if bool_decide (b = a) then Some (default 0 (d !! a) + 1) else d !! b.
Proof. unfold count_up. case_bool_decide; subst; [by rewrite lookup_insert_eq|by rewrite lookup_insert_ne]. Qed.

Lemma append_dirties e s a n : wf s -> a <> ripemd -> dirties (append e s) !! a = Some n -> 0 < n.
Proof.
  intros Hw Ha. cbn. destruct (dirtied e) as [b|]; [|by apply Hw]. rewrite count_up_lookup. case_bool_decide; [subst|by apply Hw].
  intros [= <-]. destruct (dirties s !! b) eqn:Hb; cbn; [|lia]. apply (wf_dirties _ Hw) in Hb; [lia|done].
Qed.

Lemma dirties_back e s a : wf s -> a <> ripemd ->
  (match dirtied e with Some b => count_down b (dirties (append e s)) | None => dirties (append e s) end) !! a = dirties s !! a.
Proof.
  intros Hw Ha. cbn. destruct (dirtied e) as [b|]; [|done]. rewrite count_down_lookup, !count_up_lookup.
  rewrite (bool_decide_eq_true_2 (b = b)) by done. case_bool_decide; [subst|done]. cbn. rewrite Z.add_simpl_r. destruct (dirties s !! b) as [n|] eqn:Hb; [|done].
  apply (wf_dirties _ Hw) in Hb; [|done]. cbn. by destruct (Z.eqb_spec n 0); [lia|].
Qed.

(** A journalled change is undone if its entry undoes it. *)
Lemma undone_intro e s s' x : wf s -> wf s' -> entries s' = e :: entries s ->
  (forall a, a <> ripemd -> dirties s' !! a = dirties (append e s) !! a) ->
  revert e s' = Some x -> same (set_sdb_journal (sdb_journal s) x) s -> undone s s'.
Proof.
  intros Hw Hw' He Hd Hx Hs. split; [done|]. unfold revertLast. rewrite He, Hx. eexists. split; [reflexivity|].
  elsewhere Hs; try done. intros a Ha. rewrite (revert_journal _ _ _ Hx), <- (dirties_back e s a Hw Ha).
  destruct (dirtied e) as [b|]; [|by apply Hd]. rewrite !count_down_lookup. case_bool_decide; subst; [by rewrite Hd|by apply Hd].
Qed.

Lemma wf_append e s : entry_ok e -> wf s -> wf (append e s).
Proof. intros He Hw. split; try apply Hw; [|constructor; [done|apply Hw]]. intros a n Ha. by apply append_dirties. Qed.
Lemma wf_setObject o s : wf s -> wf (setStateObject o s).
Proof.
  intros Hw. split; try apply Hw. intros a o'. rewrite getDeleted_set. case_bool_decide; [by intros [= <-]|apply Hw].
Qed.
Lemma wf_destruct d s : wf s -> wf (set_sdb_destruct d s).
Proof. intros Hw. split; apply Hw. Qed.

(** A change of an object that is there. *)
Lemma change_undone e a o o' f s : wf s -> getStateObject s a = Some o -> dirtied e = Some a -> entry_ok e ->
  so_address o' = a -> so_address (f o') = a -> revert e (change e o' s) = Some (setStateObject (f o') (change e o' s)) ->
  obj_sim s s (f o') o -> undone s (change e o' s).
Proof.
  intros Hw Ho He Hok Ha Hfa Hr Hsim. eapply undone_intro; [done|by apply wf_setObject, wf_append|done|done|exact Hr|].
  assert (same s s) as Hss by done. apply getStateObject_some in Ho as [Ho _]. split; try done. intros b.
  change (option_Forall2 (obj_sim (set_sdb_journal (sdb_journal s) (setStateObject (f o') (change e o' s))) s)
    (getDeletedStateObject (setStateObject (f o') (setStateObject o' s)) b) (getDeletedStateObject s b)).
  rewrite !getDeleted_set, Ha, Hfa. case_bool_decide as Hb; [subst b; rewrite Ho; constructor|].
  - by eapply obj_sim_env; [apply env_all..|exact Hsim].
  - destruct (getDeletedStateObject s b); constructor. by apply obj_sim_refl.
Qed.

Lemma getDeleted_live s a o : sdb_stateObjects s !! a = Some o -> getDeletedStateObject s a = Some o.
Proof. intros Ho. unfold getDeletedStateObject. by rewrite Ho. Qed.

Lemma created_undone a s : wf s -> getDeletedStateObject s a = None ->
  undone s (setStateObject (newObject a None) (append (createObjectChange a) s)).
Proof.
  intros Hw Hn. eapply undone_intro; [done|by apply wf_setObject, wf_append|done|done|reflexivity|].
  assert (same s s) as Hss by done. split; try done. intros b. unfold getDeletedStateObject in *. cbn. destruct (decide (a = b)) as [<-|Hab].
  - rewrite lookup_delete_eq. destruct (sdb_stateObjects s !! a); [done|]. destruct (GetAccount (sdb_db s) a); [done|constructor].
  - rewrite lookup_delete_ne, lookup_insert_ne by done. pose proof (same_objects _ _ Hss b) as Ho. unfold getDeletedStateObject in Ho.
    inversion Ho as [x y Hxy|]; constructor. by eapply obj_sim_env; [apply env_all..|exact Hxy].
Qed.

Lemma reset_undone a prev o' s d : so_address o' = a -> d = bool_decide (is_Some (sdb_destruct s !! so_address prev)) -> wf s -> getDeletedStateObject s a = Some prev ->
  undone s (setStateObject (o') (append (resetObjectChange a prev d)
    (if d then s else set_sdb_destruct (<[so_address prev := so_origin prev]> (sdb_destruct s)) s))).
Proof.
  intros Ho' Hdd Hw Hp. assert (so_address prev = a) as Ha by (by apply (wf_address _ Hw)).
  eapply undone_intro; [done| |by destruct d|by destruct d|reflexivity|].
  { apply wf_setObject, wf_append; [done|]. destruct d; [done|by apply wf_destruct]. }
  assert (sdb_destruct (if d then s else set_sdb_destruct (delete (so_address prev) (<[so_address prev := so_origin prev]> (sdb_destruct s))) s) = sdb_destruct s) as Hd.
  { destruct d; [done|]. symmetry in Hdd. apply bool_decide_eq_false, eq_None_not_Some in Hdd. cbn. by rewrite delete_insert_eq, delete_id. }
  assert (forall x, x = set_sdb_journal (sdb_journal s) (if d then setStateObject prev (setStateObject (o') s)
      else set_sdb_destruct (delete (so_address prev) (<[so_address prev := so_origin prev]> (sdb_destruct s))) (setStateObject prev (setStateObject (o') s))) ->
      same x s) as Hsame.
  { intros x ->. assert (same s s) as Hss by done. split; try (by destruct d); try (by destruct d; exact Hd). intros b.
    assert (forall y, sdb_db y = sdb_db s -> sdb_destruct y = sdb_destruct s -> sdb_stateObjects y = <[so_address prev := prev]> (<[so_address o' := o']> (sdb_stateObjects s)) ->
      option_Forall2 (obj_sim y s) (getDeletedStateObject y b) (getDeletedStateObject s b)) as Hy.
    { intros y Hyd Hye Hyo. unfold getDeletedStateObject at 1. rewrite Hyo, Hyd, Ha, Ho'. destruct (decide (a = b)) as [<-|Hab].
      - rewrite lookup_insert_eq, Hp. constructor. by apply obj_sim_refl, env_all.
      - rewrite !lookup_insert_ne by done. fold (getDeletedStateObject s b). destruct (getDeletedStateObject s b); constructor. by apply obj_sim_refl, env_all. }
    apply Hy; destruct d; first [done|exact Hd]. }
  apply Hsame. by destruct d.
Qed.

Lemma set_set o o' s : so_address o = so_address o' -> setStateObject o (setStateObject o' s) = setStateObject o s.
Proof. intros Ha. unfold setStateObject. cbn. by rewrite Ha, insert_insert_eq. Qed.

Lemma getState_set o s : so_deleted o = false -> getStateObject (setStateObject o s) (so_address o) = Some o.
Proof. intros Hd. apply getStateObject_some. by rewrite getDeleted_set, bool_decide_eq_true_2. Qed.

Lemma createObject_undone a s : wf s ->
  undone s (createObject a s).2 /\ getStateObject (createObject a s).2 a = Some (createObject a s).1.1 /\ (createObject a s).1.1 = newObject a None.
Proof.
  intros Hw. unfold createObject. destruct (getDeletedStateObject s a) as [prev|] eqn:Hp; cbn [fst snd].
  - split; [by apply reset_undone|]. split; [|done]. by apply (getState_set (newObject a None)).
  - split; [by apply created_undone|]. split; [|done]. by apply (getState_set (newObject a None)).
Qed.

Lemma CreateAccount_steps a s : wf s -> steps s (CreateAccount a s).
Proof.
  intros Hw. apply undone_steps. unfold CreateAccount. pose proof (createObject_undone a s Hw) as (Hu & _ & _). revert Hu.
  unfold createObject. destruct (getDeletedStateObject s a) as [prev|] eqn:Hp; cbn [fst snd]; [|done]. intros Hu.
  destruct (so_deleted prev); [done|]. rewrite set_set by done. by apply reset_undone.
Qed.

(** Keeping an object that was loaded does not show. *)
Lemma keep_same s a o : wf s -> getStateObject s a = Some o -> same s (setStateObject o s).
Proof.
  intros Hw [Ho Hd]%getStateObject_some. pose proof (wf_address _ Hw _ _ Ho) as <-. assert (same s s) as Hss by done.
  split; try apply Hss. intros b. rewrite getDeleted_set. case_bool_decide as Hb.
  - subst. rewrite Ho. constructor. by apply obj_sim_refl.
  - destruct (getDeletedStateObject s b); constructor. by apply obj_sim_refl.
Qed.

Lemma withObject_steps a f s :
  (forall s o, wf s -> getStateObject s a = Some o -> steps s (f o s)) -> wf s -> steps s (withObject a f s).
Proof.
  intros Hf Hw. unfold withObject, getOrNewStateObject. destruct (getStateObject s a) as [o|] eqn:Ho.
  { pose proof (keep_same s a o Hw Ho) as Hk. assert (wf (setStateObject o s)) as Hw' by (eapply wf_same; [by symmetry|done]).
    apply (steps_trans s (setStateObject o s)); [done|by apply steps_same|]. apply Hf; [done|].
    apply getStateObject_some in Ho as [Ho Hd]. rewrite <- (wf_address _ Hw _ _ Ho). by apply getState_set. }
  pose proof (createObject_undone a s Hw) as (Hu & Hg & _). destruct (createObject a s) as [[o p] s']. cbn [fst snd] in *.
  apply (steps_trans s s'); [done|by apply undone_steps|]. apply Hf; [apply Hu|done].
Qed.

Lemma object_at s a o : wf s -> getStateObject s a = Some o -> so_address o = a /\ so_deleted o = false.
Proof. intros Hw [Ho Hd]%getStateObject_some. split; [by apply (wf_address _ Hw)|done]. Qed.

(** A change that [updateObject] undoes. *)
Lemma update_undone e a o o' f s : wf s -> getStateObject s a = Some o -> dirtied e = Some a -> entry_ok e ->
  (forall t, revert e t = updateObject a f t) -> objUpdate f -> so_address o' = a -> so_deleted o' = false ->
  obj_sim s s (f o') o -> steps s (change e o' s).
Proof.
  intros Hw Ho He Hok Hr Hf Ha Hd Hsim. apply undone_steps. apply (change_undone e a o o' f); try done.
  - by rewrite (proj1 (update_keeps f o' Hf)).
  - rewrite Hr. unfold updateObject, change. pose proof (getState_set o' (append e s) Hd) as Hg. rewrite Ha in Hg. by rewrite Hg.
Qed.

Lemma SetBalance_steps s a o x : wf s -> getStateObject s a = Some o -> steps s (obj_SetBalance x o s).
Proof.
  intros Hw Ho. destruct (object_at s a o Hw Ho) as [Ha Hd]. unfold obj_SetBalance. rewrite Ha.
  apply (update_undone _ a o _ (obj_setBalance (sa_Balance (so_data o)))); try done; [constructor|].
  assert (obj_setBalance (sa_Balance (so_data o)) (obj_setBalance x o) = o) as -> by (by destruct o as [? ? [] ? ? ? ? ? ? ? ?]).
  by apply obj_sim_refl.
Qed.
Lemma SetNonce_steps s a o x : wf s -> getStateObject s a = Some o -> steps s (obj_SetNonce x o s).
Proof.
  intros Hw Ho. destruct (object_at s a o Hw Ho) as [Ha Hd]. unfold obj_SetNonce. rewrite Ha.
  apply (update_undone _ a o _ (obj_setNonce (sa_Nonce (so_data o)))); try done; [constructor|].
  assert (obj_setNonce (sa_Nonce (so_data o)) (obj_setNonce x o) = o) as -> by (by destruct o as [? ? [] ? ? ? ? ? ? ? ?]).
  by apply obj_sim_refl.
Qed.
Lemma SetExtra_steps s a o x : wf s -> getStateObject s a = Some o -> steps s (obj_SetExtra x o s).
Proof.
  intros Hw Ho. destruct (object_at s a o Hw Ho) as [Ha Hd]. unfold obj_SetExtra. rewrite Ha.
  apply (update_undone _ a o _ (obj_setExtra (sa_Extra (so_data o)))); try done; [constructor|].
  assert (obj_setExtra (sa_Extra (so_data o)) (obj_setExtra x o) = o) as -> by (by destruct o as [? ? [] ? ? ? ? ? ? ? ?]).
  by apply obj_sim_refl.
Qed.
Lemma SetCode_steps s a o h c : wf s -> getStateObject s a = Some o -> steps s (obj_SetCode h c o s).
Proof.
  intros Hw Ho. destruct (object_at s a o Hw Ho) as [Ha Hd]. unfold obj_SetCode. rewrite Ha.
  apply (update_undone _ a o _ (obj_setCode (sa_CodeHash (so_data o)) (obj_Code s o))); try done; [constructor|].
  split; try done. by destruct o as [? ? [] ? ? ? ? ? ? ? ?].
Qed.

Lemma committed_cached s o k k' : committedState s (snd (obj_GetCommittedState s o k)) k' = committedState s o k'.
Proof.
  unfold obj_GetCommittedState. cbn [snd]. destruct (_ || _ || _) eqn:Hc; [done|]. apply orb_false_elim in Hc as [Hc _].
  apply orb_false_elim in Hc as [Hp%bool_decide_eq_false%eq_None_not_Some Ho%bool_decide_eq_false%eq_None_not_Some].
  destruct (decide (k = k')) as [<-|Hk]; unfold committedState; cbn; [|by rewrite lookup_insert_ne]. by rewrite lookup_insert_eq, Hp, Ho.
Qed.

Lemma obj_GetState_keeps s o k o' : snd (obj_GetState s o k) = o' ->
  so_address o' = so_address o /\ so_deleted o' = so_deleted o /\ obj_sim s s o' o.
Proof.
  intros <-. unfold obj_GetState. destruct (so_dirtyStorage o !! k); cbn [snd]; [split_and!; [done|done|by apply obj_sim_refl]|].
  assert (forall o', o' = snd (obj_GetCommittedState s o k) -> so_dirtyStorage o' = so_dirtyStorage o) as Hds.
  { intros o' ->. unfold obj_GetCommittedState. cbn [snd]. by case_match. }
  split_and!; [unfold obj_GetCommittedState; cbn [snd]; by case_match..|].
  split; try (unfold obj_GetCommittedState; cbn [snd]; by case_match); intros k'; [apply committed_cached|].
  unfold stateOf. rewrite (Hds _ eq_refl), committed_cached. done.
Qed.

Lemma SetState_steps s a o k v : wf s -> getStateObject s a = Some o -> steps s (obj_SetState k v o s).
Proof.
  intros Hw Ho. destruct (object_at s a o Hw Ho) as [Ha Hd]. unfold obj_SetState.
  pose proof (obj_GetState_value s o k) as Hv. destruct (obj_GetState s o k) as [prev o1] eqn:Hg. cbn [fst] in Hv. subst prev.
  destruct (obj_GetState_keeps s o k o1) as (Ha1 & Hd1 & Hsim); [by rewrite Hg|]. destruct (_ =? v); [apply steps_refl|].
  rewrite Ha1, Ha. apply (update_undone _ a o _ (obj_setState k (stateOf s o k))); try done; [constructor|by rewrite <- Ha|by rewrite <- Hd|].
  split; try apply Hsim. intros k'. rewrite !stateOf_setState. case_bool_decide; [by subst|]. apply Hsim.
Qed.

Lemma touch_steps s a o : wf s -> getStateObject s a = Some o -> steps s (touch o s).
Proof.
  intros Hw Ho. destruct (object_at s a o Hw Ho) as [Ha Hd]. apply undone_steps. unfold touch. rewrite Ha.
  set (s' := if a =? ripemd then _ else _). assert (entries s' = touchChange a :: entries s) as He by (unfold s'; by destruct (a =? ripemd)).
  assert (forall b, b <> ripemd -> dirties s' !! b = dirties (append (touchChange a) s) !! b) as Hds.
  { intros b Hb. unfold s'. destruct (Z.eqb_spec a ripemd) as [->|]; [|done]. cbn -[count_up]. by rewrite count_up_lookup, bool_decide_eq_false_2. }
  assert (same s s) as Hss by done. apply (undone_intro (touchChange a) s s' s'); try done.
  - split.
    + intros b o' Ho'. apply (wf_address _ Hw). revert Ho'. unfold s'. by destruct (a =? ripemd).
    + unfold s'. destruct (a =? ripemd); apply Hw.
    + intros b n Hb Hn. rewrite (Hds b Hb) in Hn. by apply (append_dirties (touchChange a) s b).
    + unfold s'. destruct (a =? ripemd); apply Hw.
    + rewrite He. constructor; [done|apply Hw].
  - unfold s'. destruct (a =? ripemd); by elsewhere Hss.
Qed.

Lemma AddBalance_steps a x s : wf s -> steps s (AddBalance a x s).
Proof.
  apply withObject_steps. clear s. intros s o Hw Ho. unfold obj_AddBalance. destruct (x =? 0); [|by eapply SetBalance_steps].
  destruct (obj_empty o); [by eapply touch_steps|apply steps_refl].
Qed.
Lemma SubBalance_steps a x s : wf s -> steps s (SubBalance a x s).
Proof.
  apply withObject_steps. clear s. intros s o Hw Ho. unfold obj_SubBalance. destruct (x =? 0); [apply steps_refl|by eapply SetBalance_steps].
Qed.
Lemma flag_steps a f s : f ∈ [obj_SetBlacklisted; obj_ClearBlacklisted; obj_SetAuthorized; obj_ClearAuthorized] -> wf s -> steps s (withObject a f s).
Proof.
  intros Hf. apply withObject_steps. clear s. intros s o Hw Ho. rewrite !elem_of_cons in Hf.
  destruct Hf as [->|[->|[->|[->|[]%elem_of_nil]]]];
    unfold obj_SetBlacklisted, obj_ClearBlacklisted, obj_SetAuthorized, obj_ClearAuthorized;
    repeat case_match; first [apply steps_refl|by eapply SetExtra_steps|by eapply touch_steps].
Qed.

Lemma SelfDestruct_steps a s : wf s -> steps s (SelfDestruct a s).
Proof.
  intros Hw. unfold SelfDestruct. destruct (getStateObject s a) as [o|] eqn:Ho; [|apply steps_refl].
  destruct (object_at s a o Hw Ho) as [Ha Hd]. apply undone_steps.
  apply (change_undone _ a o _ (fun o' => obj_setBalance (sa_Balance (so_data o)) (set_so_selfDestructed (so_selfDestructed o) o'))); try done.
  - cbn [revert]. unfold change at 1. set (o' := obj_setBalance 0 _). pose proof (getState_set o' (append (selfDestructChange a (so_selfDestructed o) (sa_Balance (so_data o))) s) Hd) as Hg.
    change (so_address o') with (so_address o) in Hg. rewrite Ha in Hg. by rewrite Hg.
  - match goal with |- obj_sim s s ?x o => assert (x = o) as -> by (by destruct o as [? ? [] ? ? ? ? ? ? ? ?]) end. by apply obj_sim_refl.
Qed.
Lemma Selfdestruct6780_steps a s : wf s -> steps s (Selfdestruct6780 a s).
Proof.
  intros Hw. unfold Selfdestruct6780. destruct (getStateObject s a) as [o|]; [|apply steps_refl].
  destruct (so_created o); [by apply SelfDestruct_steps|apply steps_refl].
Qed.

(** ** Changes that concern no object *)

(** What [undone_intro] asks of a change outside the objects. *)
Lemma elsewhere_undone e s s' x : wf s -> same_below s s' -> sdb_journal s' = journal_append e (sdb_journal s) /\ entry_ok e ->
  al_ok (sdb_accessList s') -> 0 <= sdb_logSize s' < 2 ^ 64 ->
  revert e s' = Some x -> same (set_sdb_journal (sdb_journal s) x) s -> steps s s'.
Proof.
  intros Hw Hb [Hj He] Hal Hl Hr Hs. apply undone_steps. apply (undone_intro e s s' x); try done; [|by rewrite Hj..].
  split; [|done| |done|rewrite Hj; constructor; [done|apply Hw]].
  - intros a o. destruct Hb as (Hd & _ & Ho). unfold getDeletedStateObject. rewrite <- Hd, <- Ho. apply (wf_address _ Hw).
  - intros a n Ha. rewrite Hj. by apply (append_dirties e s).
Qed.

Lemma AddLog_steps l s : wf s -> steps s (AddLog l s).
Proof.
  intros Hw. set (x := mkLog (log_Address l) (log_Topics l) (log_Data l) (log_BlockNumber l) (sdb_thash s) (sdb_txIndex s) (sdb_logSize s)).
  remember (default [] (sdb_logs s !! sdb_thash s)) as ls eqn:Hls. pose proof (wf_logSize _ Hw) as Hn.
  assert (u64 (u64 (sdb_logSize s + 1) - 1) = sdb_logSize s) as Hu.
  { unfold u64. rewrite Zminus_mod_idemp_l, Z.add_simpl_r. by apply Z.mod_small. }
  assert (exists r, revert (addLogChange (sdb_thash s)) (AddLog l s) = Some r /\ same (set_sdb_journal (sdb_journal s) r) s) as (r & Hr & Hs).
  { assert (same s s) as Hss by done. cbn [revert]. unfold AddLog. cbn [sdb_logs append set_sdb_logSize set_sdb_logs set_sdb_journal sdb_thash sdb_logSize].
    rewrite lookup_insert_eq. match goal with |- context [default [] (Some ?l)] => change (default [] (Some l)) with (default [] (sdb_logs s !! sdb_thash s) ++ [x]) end.
    rewrite <- Hls. destruct ls as [|y ls'].
    - eexists. split; [reflexivity|]. elsewhere Hss; [|done]. intros h. destruct (decide (sdb_thash s = h)) as [<-|].
      + rewrite lookup_delete_eq. exact Hls.
      + by rewrite lookup_delete_ne, lookup_insert_ne.
    - cbn [app]. destruct (ls' ++ [x]) as [|z zs] eqn:Hz; [by destruct ls'|].
      assert (removelast (y :: z :: zs) = y :: ls') as Hrm by (rewrite <- Hz; apply (removelast_last (y :: ls'))).
      eexists. split; [reflexivity|]. elsewhere Hss; [|done].
      intros h. destruct (decide (sdb_thash s = h)) as [<-|]; [|by rewrite !lookup_insert_ne].
      rewrite lookup_insert_eq, <- Hls. exact Hrm. }
  eapply elsewhere_undone; [done|done|done|apply Hw|apply u64_range|exact Hr|exact Hs].
Qed.

Lemma AddPreimage_steps h b s : wf s -> steps s (AddPreimage h b s).
Proof.
  intros Hw. unfold AddPreimage. destruct (sdb_preimages s !! h) eqn:Hp; [apply steps_refl|].
  eapply elsewhere_undone; [done|done|done|apply Hw|apply Hw|reflexivity|]. assert (same s s) as Hss by done. elsewhere Hss.
  by rewrite delete_insert_id.
Qed.

Lemma AddRefund_steps g s : wf s -> steps s (AddRefund g s).
Proof.
  intros Hw. eapply elsewhere_undone; [done|done|done|apply Hw|apply Hw|reflexivity|]. assert (same s s) as Hss by done. by elsewhere Hss.
Qed.
Lemma SubRefund_steps g s s' : wf s -> SubRefund g s = Some s' -> steps s s'.
Proof.
  intros Hw. unfold SubRefund. destruct (_ <? g); [done|]. intros [= <-].
  eapply elsewhere_undone; [done|done|done|apply Hw|apply Hw|reflexivity|]. assert (same s s) as Hss by done. by elsewhere Hss.
Qed.

Lemma SetTransient_steps a k v s : wf s -> steps s (SetTransientState a k v s).
Proof.
  intros Hw. unfold SetTransientState. destruct (_ =? v); [apply steps_refl|].
  eapply elsewhere_undone; [done|done|done|apply Hw|apply Hw|reflexivity|]. assert (same s s) as Hss by done. elsewhere Hss.
  intros b j. rewrite !transient_Get_Set. case_bool_decide as Hb; [by destruct Hb as [-> ->]|done].
Qed.

(** ** The access list *)

Lemma al_ok_mark al a : al_ok al -> al_ok (mkAccessList (<[a := -1]> (al_addresses al)) (al_slots al)).
Proof.
  intros Hal b idx. cbn. destruct (decide (a = b)) as [<-|]; [rewrite lookup_insert_eq; intros [= <-]; by left|].
  rewrite lookup_insert_ne by done. apply Hal.
Qed.

Definition al_fresh (al : accessList) (a : Address) (slot : Hash) : accessList :=
  mkAccessList (<[a := Z.of_nat (length (al_slots al))]> (al_addresses al)) (al_slots al ++ [{[slot]}]).

Lemma al_ok_fresh al a slot : al_ok al -> al_ok (al_fresh al a slot).
Proof.
  intros Hal b idx. cbn. destruct (decide (a = b)) as [<-|].
  - rewrite lookup_insert_eq. intros [= <-]. right. split; [lia|]. exists {[slot]}. split; [|set_solver].
    rewrite Nat2Z.id, lookup_app_r, Nat.sub_diag by lia. done.
  - rewrite lookup_insert_ne by done. intros [->|(Hi & m & Hm & Hne)]%Hal; [by left|right]. split; [done|]. exists m. split; [|done].
    by apply lookup_app_l_Some.
Qed.

Lemma DeleteSlot_fresh al a slot :
  DeleteSlot (al_fresh al a slot) a slot = Some (mkAccessList (<[a := -1]> (al_addresses al)) (al_slots al)).
Proof.
  unfold DeleteSlot, al_fresh. cbn. rewrite lookup_insert_eq. cbn. destruct (Z.ltb_spec (Z.of_nat (length (al_slots al))) 0); [lia|].
  rewrite Nat2Z.id, lookup_app_r, Nat.sub_diag by lia. cbn. rewrite bool_decide_eq_true_2 by set_solver.
  rewrite insert_insert_eq, take_app_length. done.
Qed.

Lemma AddSlot_more al a slot idx m : al_ok al -> al_addresses al !! a = Some idx -> idx <> -1 -> al_slots al !! Z.to_nat idx = Some m -> slot ∉ m ->
  let al' := mkAccessList (al_addresses al) (<[Z.to_nat idx := {[slot]} ∪ m]> (al_slots al)) in
  al_ok al' /\ DeleteSlot al' a slot = Some al.
Proof.
  intros Hal Ha Hidx Hm Hs al'. pose proof (lookup_lt_Some _ _ _ Hm) as Hlt. destruct (Hal a idx Ha) as [|(Hi & m' & Hm' & Hne)]; [done|].
  rewrite Hm in Hm'. injection Hm' as <-. split.
  - intros b j Hb. cbn in Hb. destruct (Hal b j Hb) as [|(Hj & m' & Hm' & Hne')]; [by left|right]. split; [done|]. cbn.
    destruct (decide (Z.to_nat j = Z.to_nat idx)) as [->|Hji].
    + exists ({[slot]} ∪ m). rewrite list_lookup_insert_eq by done. split; [done|set_solver].
    + exists m'. by rewrite list_lookup_insert_ne.
  - unfold DeleteSlot, al'. cbn. rewrite Ha. cbn. destruct (Z.ltb_spec idx 0); [lia|]. rewrite list_lookup_insert_eq by done. cbn.
    assert (({[slot]} ∪ m) ∖ {[slot]} = m) as -> by set_solver. rewrite bool_decide_eq_false_2 by done.
    rewrite list_insert_insert_eq, list_insert_id by done. by destruct al.
Qed.

Lemma AddAddress_steps a s : wf s -> steps s (AddAddressToAccessList a s).
Proof.
  intros Hw. unfold AddAddressToAccessList, AddAddress. destruct (al_addresses (sdb_accessList s) !! a) eqn:Ha.
  - apply steps_same. assert (same s s) as Hss by done. by elsewhere Hss.
  - eapply elsewhere_undone; [done|done|done|apply al_ok_mark, Hw|apply Hw|reflexivity|]. assert (same s s) as Hss by done. elsewhere Hss.
    unfold DeleteAddress. cbn. rewrite delete_insert_id by done. by destruct (sdb_accessList s).
Qed.

Lemma slot_undone a slot p : wf p -> al_addresses (sdb_accessList p) !! a = Some (-1) ->
  steps p (append (accessListAddSlotChange a slot) (set_sdb_accessList (al_fresh (sdb_accessList p) a slot) p)).
Proof.
  intros Hw Ha. assert (same p p) as Hss by done.
  eapply elsewhere_undone; [done|done|done|apply al_ok_fresh, Hw|apply Hw|cbn [revert]; cbn [sdb_accessList append set_sdb_journal set_sdb_accessList];
    rewrite DeleteSlot_fresh; reflexivity|].
  elsewhere Hss. rewrite insert_id by done. by destruct (sdb_accessList p).
Qed.

Lemma AddSlot_steps a slot s : wf s -> steps s (AddSlotToAccessList a slot s).
Proof.
  intros Hw. unfold AddSlotToAccessList, AddSlot. fold (al_fresh (sdb_accessList s) a slot).
  assert (same s s) as Hss by done. destruct (al_addresses (sdb_accessList s) !! a) as [idx|] eqn:Ha.
  - destruct (Z.eqb_spec idx (-1)) as [->|Hidx]; [by apply slot_undone|].
    destruct (wf_accessList _ Hw a idx Ha) as [|(Hi & m & Hm & Hne)]; [done|]. rewrite Hm. cbn [default from_option id].
    case_bool_decide as Hin; [apply steps_same; by elsewhere Hss|].
    destruct (AddSlot_more (sdb_accessList s) a slot idx m (wf_accessList _ Hw) Ha Hidx Hm Hin) as [Hok Hdel].
    eapply elsewhere_undone; [done|done|done|exact Hok|apply Hw|cbn [revert]; cbn [sdb_accessList append set_sdb_journal set_sdb_accessList];
      rewrite Hdel; reflexivity|]. by elsewhere Hss.
  - set (p := append (accessListAddAccountChange a) (set_sdb_accessList (mkAccessList (<[a := -1]> (al_addresses (sdb_accessList s))) (al_slots (sdb_accessList s))) s)).
    assert (steps s p) as Hp.
    { pose proof (AddAddress_steps a s Hw) as Hp. unfold AddAddressToAccessList, AddAddress in Hp. by rewrite Ha in Hp. }
    apply (steps_trans s p); [done|done|]. pose proof (slot_undone a slot p (steps_wf s p Hw Hp)) as Hu.
    assert (al_fresh (sdb_accessList p) a slot = al_fresh (sdb_accessList s) a slot) as Hf.
    { unfold al_fresh, p. cbn. by rewrite insert_insert_eq. }
    rewrite Hf in Hu. apply Hu. cbn. by rewrite lookup_insert_eq.
Qed.
End same.
