(* ===== verification/JournalRuns.v ===== *)
(** Runs of state operations: any sequence of them during a transaction, with
    snapshots and returns to them at any depth.

    The end of a transaction: [Finalise] removes the accounts that destructed
    themselves or were left empty, makes the values of the others the committed
    ones, and leaves alone the accounts that the transaction did not change. *)
From S2P Require Import Prelude Validators AccountExtra Messages Rlp StateJournal JournalProps.

(** * Operations *)

(** What the virtual machine does to a state during a transaction
    ([vm.StateDB]). *)
Inductive StateOp :=
  | OpCreateAccount (a : Address)
  | OpSubBalance (a : Address) (x : Z)
  | OpAddBalance (a : Address) (x : Z)
  | OpSetNonce (a : Address) (x : Z)
  | OpSetCode (a : Address) (code : bytes)
  | OpSetState (a : Address) (k v : Hash)
  | OpSetTransientState (a : Address) (k v : Hash)
  | OpSelfDestruct (a : Address)
  | OpSelfdestruct6780 (a : Address)
  | OpSetBlacklisted (a : Address)
  | OpClearBlacklisted (a : Address)
  | OpSetAuthorized (a : Address)
  | OpClearAuthorized (a : Address)
  | OpAddRefund (g : Z)
  | OpSubRefund (g : Z)
  | OpAddAddress (a : Address)
  | OpAddSlot (a : Address) (k : Hash)
  | OpAddLog (l : Log)
  | OpAddPreimage (h : Hash) (b : bytes)
  | OpSnapshot
  | OpRevert (id : Z).

Section runs.
Context `{Crypto}.

(** [None] for a panic. *)
Definition exec (op : StateOp) (s : StateDB) : option StateDB :=
  match op with
  | OpCreateAccount a => Some (CreateAccount a s)
  | OpSubBalance a x => Some (SubBalance a x s)
  | OpAddBalance a x => Some (AddBalance a x s)
  | OpSetNonce a x => Some (SetNonce a x s)
  | OpSetCode a code => Some (SetCode a code s)
  | OpSetState a k v => Some (SetState a k v s)
  | OpSetTransientState a k v => Some (SetTransientState a k v s)
  | OpSelfDestruct a => Some (SelfDestruct a s)
  | OpSelfdestruct6780 a => Some (Selfdestruct6780 a s)
  | OpSetBlacklisted a => Some (SetBlacklisted a s)
  | OpClearBlacklisted a => Some (ClearBlacklisted a s)
  | OpSetAuthorized a => Some (SetAuthorized a s)
  | OpClearAuthorized a => Some (ClearAuthorized a s)
  | OpAddRefund g => Some (AddRefund g s)
  | OpSubRefund g => SubRefund g s
  | OpAddAddress a => Some (AddAddressToAccessList a s)
  | OpAddSlot a k => Some (AddSlotToAccessList a k s)
  | OpAddLog l => Some (AddLog l s)
  | OpAddPreimage h b => Some (AddPreimage h b s)
  | OpSnapshot => Some (Snapshot s).2
  | OpRevert id => RevertToSnapshot id s
  end.

Fixpoint execs (ops : list StateOp) (s : StateDB) : option StateDB :=
  match ops with
  | [] => Some s
  | op :: ops => s ← exec op s; execs ops s
  end.

Lemma execs_app ops ops' s : execs (ops ++ ops') s = s ← execs ops s; execs ops' s.
Proof. revert s. induction ops as [|op ops IH]; intros s; [done|]. cbn. destruct (exec op s); [apply IH|done]. Qed.

(** * Revisions *)

(** An operation other than taking and returning to snapshots leaves the revisions
    alone. *)
Definition plain (op : StateOp) : bool := match op with OpSnapshot | OpRevert _ => false | _ => true end.

Notation revisions s := (sdb_validRevisions s, sdb_nextRevisionId s).

Lemma withObject_revisions a f s :
  (forall o s, revisions (f o s) = revisions s) -> revisions (withObject a f s) = revisions s.
Proof.
  intros Hf. unfold withObject, getOrNewStateObject, createObject. destruct (getStateObject s a); [by rewrite Hf|].
  destruct (getDeletedStateObject s a); rewrite Hf; [|done]. by case_match.
Qed.

Lemma touch_revisions o s : revisions (touch o s) = revisions s.
Proof. unfold touch. by case_match. Qed.

Lemma plain_revisions op s s' : plain op = true -> exec op s = Some s' -> revisions s' = revisions s.
Proof.
  destruct op; try done; intros _; cbn [exec]; try (intros [= <-]); try (apply withObject_revisions; intros o t).
  - unfold CreateAccount, createObject. destruct (getDeletedStateObject s a); [|done]. by repeat case_match.
  - unfold obj_SubBalance. by case_match.
  - unfold obj_AddBalance. repeat case_match; try done. apply touch_revisions.
  - done.
  - done.
  - unfold obj_SetState. destruct (obj_GetState t o k). by case_match.
  - unfold SetTransientState. by case_match.
  - unfold SelfDestruct. by case_match.
  - unfold Selfdestruct6780, SelfDestruct. by repeat case_match.
  - unfold obj_SetBlacklisted. by case_match.
  - unfold obj_ClearBlacklisted. repeat case_match; try done. apply touch_revisions.
  - unfold obj_SetAuthorized. by case_match.
  - unfold obj_ClearAuthorized. repeat case_match; try done. apply touch_revisions.
  - done.
  - unfold SubRefund. case_match; [done|]. by intros [= <-].
  - unfold AddAddressToAccessList. destruct (AddAddress _ _) as [[] ?]; done.
  - unfold AddSlotToAccessList. destruct (AddSlot _ _ _) as [[[] []] ?]; done.
  - done.
  - unfold AddPreimage. by case_match.
Qed.

Lemma plain_steps op s s' : plain op = true -> wf s -> exec op s = Some s' -> steps s s'.
Proof.
  destruct op; try done; intros _ Hw; cbn [exec]; try (intros [= <-]).
  - by apply CreateAccount_steps.
  - by apply SubBalance_steps.
  - by apply AddBalance_steps.
  - apply withObject_steps; [|done]. intros. by eapply SetNonce_steps.
  - apply withObject_steps; [|done]. intros. by eapply SetCode_steps.
  - apply withObject_steps; [|done]. intros. by eapply SetState_steps.
  - by apply SetTransient_steps.
  - by apply SelfDestruct_steps.
  - by apply Selfdestruct6780_steps.
  - apply flag_steps; [in_list|done].
  - apply flag_steps; [in_list|done].
  - apply flag_steps; [in_list|done].
  - apply flag_steps; [in_list|done].
  - by apply AddRefund_steps.
  - by apply SubRefund_steps.
  - by apply AddAddress_steps.
  - by apply AddSlot_steps.
  - by apply AddLog_steps.
  - by apply AddPreimage_steps.
Qed.

(** * States within a transaction *)

(** The revisions that are known: taken since [base], with identifiers given out
    before. *)
Definition revision_ok (base : nat) (next : Z) (r : revision) : Prop := rev_id r < next /\ (base <= rev_journalIndex r)%nat.
Definition tx_state (base s : StateDB) : Prop :=
  above base s /\ Forall (revision_ok (journal_length base) (sdb_nextRevisionId s)) (sdb_validRevisions s).

Lemma snapshot_same s : same s (Snapshot s).2.
Proof. assert (same s s) as Hss by done. split; try apply Hss. eapply objects_elsewhere; [done|done|done]. Qed.

Lemma search_app revid l l' : Forall (fun r => rev_id r < revid) l -> searchRevision revid (l ++ l') = (length l + searchRevision revid l')%nat.
Proof.
  induction 1 as [|r l Hr _ IH]; [done|]. cbn. destruct (Z.leb_spec revid (rev_id r)); [lia|]. by rewrite IH.
Qed.

(** Returning to a snapshot undoes part of the journal. *)
Lemma RevertToSnapshot_inv id s s' : RevertToSnapshot id s = Some s' ->
  exists r t, sdb_validRevisions s !! searchRevision id (sdb_validRevisions s) = Some r /\ rev_id r = id /\
    revertEntries (journal_length s - rev_journalIndex r) s = Some t /\ 
    s' = set_sdb_validRevisions (take (searchRevision id (sdb_validRevisions s)) (sdb_validRevisions t)) t.
Proof.
  unfold RevertToSnapshot. destruct (_ !! _) as [r|] eqn:Hr; [|done]. destruct (Z.eqb_spec (rev_id r) id); [|done]. cbn [negb].
  intros (t & Ht & [= <-])%bind_Some. by exists r, t.
Qed.

Lemma revert_revisions e s r : revert e s = Some r -> revisions r = revisions s.
Proof. unfold revert, updateObject. intros Hr. repeat (case_match; simplify_option_eq); done. Qed.
Lemma revertEntries_revisions n s r : revertEntries n s = Some r -> revisions r = revisions s.
Proof.
  revert s. induction n as [|n IH]; intros s; cbn [revertEntries]; [by intros [= <-]|]. intros (t & Ht & Hr)%bind_Some.
  rewrite (IH _ Hr). unfold revertLast in Ht. destruct (j_entries _); [done|]. apply bind_Some in Ht as (x & Hx & [= <-]).
  by apply revert_revisions in Hx.
Qed.

Lemma set_revisions_same l s : same s (set_sdb_validRevisions l s).
Proof. assert (same s s) as Hss by done. split; try apply Hss. eapply objects_elsewhere; [done|done|done]. Qed.

Lemma exec_tx_state base op s s' : tx_state base s -> exec op s = Some s' -> tx_state base s'.
Proof.
  intros [Ha Hr] Hx. destruct (plain op) eqn:Hp.
  - pose proof (plain_revisions op s s' Hp Hx) as Hrev. apply plain_steps in Hx; [|done|by eapply above_wf].
    split; [by eapply above_steps|]. by injection Hrev as -> ->.
  - destruct op; try done; cbn [exec] in Hx.
    + injection Hx as <-. split; [eapply above_same; [done|apply snapshot_same]|]. cbn. apply Forall_app. split.
      * eapply Forall_impl; [exact Hr|]. intros r []. split; [lia|done].
      * repeat constructor; cbn; [lia|]. by apply above_length.
    + apply RevertToSnapshot_inv in Hx as (r & t & Hl & _ & Ht & ->). pose proof (revertEntries_revisions _ _ _ Ht) as Hrev. injection Hrev as Hv Hn.
      pose proof (Forall_lookup_1 _ _ _ _ Hr Hl) as [_ Hbase]. pose proof (above_length _ _ Ha).
      destruct (above_undo base (journal_length s - rev_journalIndex r) s Ha) as (t' & Ht' & Hab & _); [lia|].
      rewrite Ht in Ht'. injection Ht' as <-. split; [eapply above_same; [done|apply set_revisions_same]|].
      cbn. rewrite Hv, Hn. by apply Forall_take.
Qed.

Lemma execs_tx_state base ops s s' : tx_state base s -> execs ops s = Some s' -> tx_state base s'.
Proof.
  revert s. induction ops as [|op ops IH]; intros s Hs; cbn [execs]; [by intros [= <-]|].
  intros (t & Ht & Hx)%bind_Some. eapply IH; [|exact Hx]. by eapply exec_tx_state.
Qed.

(** ** One snapshot followed through a run *)

Notation ids s := (rev_id <$> sdb_validRevisions s).

(** Either the snapshot [id] of [s] is gone for good, or everything since is above
    [s] and the later snapshots are of later states. *)
Definition followed (s : StateDB) (id : Z) (s' : StateDB) : Prop :=
  id < sdb_nextRevisionId s' /\
  (id ∉ ids s' \/
   above s s' /\ exists more, sdb_validRevisions s' = sdb_validRevisions s ++ mkRevision id (journal_length s) :: more /\
     Forall (fun r => id < rev_id r /\ (journal_length s <= rev_journalIndex r)%nat) more).

Lemma followed_step s id op s' s'' : Forall (fun r => rev_id r < id) (sdb_validRevisions s) ->
  followed s id s' -> exec op s' = Some s'' -> followed s id s''.
Proof.
  intros Hold [Hid Hf] Hx. destruct (plain op) eqn:Hp.
  - pose proof (plain_revisions op s' s'' Hp Hx) as Hrev. injection Hrev as Hv Hn. split; [by rewrite Hn|]. rewrite Hv.
    destruct Hf as [|(Ha & more & Hm)]; [by left|right]. split; [|by exists more].
    eapply above_steps; [done|]. eapply plain_steps; [done|by eapply above_wf|done].
  - destruct op; try done; cbn [exec] in Hx.
    + injection Hx as <-. split; [cbn; lia|]. destruct Hf as [Hf|(Ha & more & Hrv & Hm)].
      * left. cbn. rewrite fmap_app, elem_of_app. intros [|Hi%list_elem_of_singleton]; [done|]. cbn in Hi. lia.
      * right. split; [eapply above_same; [done|apply snapshot_same]|]. exists (more ++ [mkRevision (sdb_nextRevisionId s') (journal_length s')]).
        cbn. rewrite Hrv, <- app_assoc. cbn. split; [done|]. apply Forall_app. split; [done|]. repeat constructor; cbn; [lia|by apply above_length].
    + apply RevertToSnapshot_inv in Hx as (r & t & Hl & Hri & Ht & ->). pose proof (revertEntries_revisions _ _ _ Ht) as Hrev. injection Hrev as Hv Hn.
      split; [cbn; by rewrite Hn|]. cbn. rewrite Hv. destruct Hf as [Hf|(Ha & more & Hrv & Hm)].
      { left. intros Hi. apply Hf. apply list_elem_of_fmap in Hi as (x & -> & Hx). apply list_elem_of_fmap. exists x. split; [done|].
        apply elem_of_take in Hx as (i & Hx & _). by eapply list_elem_of_lookup_2. }
      destruct (Z.ltb_spec id id0) as [Hlt|Hge].
      * right. rewrite Hrv in Hl |- *. rewrite search_app in Hl |- * by (eapply Forall_impl; [exact Hold|]; cbn; lia).
        cbn [searchRevision rev_id] in Hl |- *. destruct (Z.leb_spec id0 id); [lia|].
        rewrite lookup_app_r in Hl by lia. replace (_ + _ - _)%nat with (S (searchRevision id0 more)) in Hl by lia. cbn in Hl.
        pose proof (Forall_lookup_1 _ _ _ _ Hm Hl) as [_ Hbase]. pose proof (above_length _ _ Ha).
        destruct (above_undo s (journal_length s' - rev_journalIndex r) s' Ha) as (t' & Ht' & Hab & _); [lia|].
        rewrite Ht in Ht'. injection Ht' as <-. split; [eapply above_same; [done|apply set_revisions_same]|].
        exists (take (searchRevision id0 more) more). rewrite take_app_add. cbn. split; [done|]. by apply Forall_take.
      * left. intros Hi. apply list_elem_of_fmap in Hi as (x & -> & Hx). rewrite Hrv in Hx.
        assert (searchRevision id0 (sdb_validRevisions s ++ mkRevision (rev_id x) (journal_length s) :: more) <= length (sdb_validRevisions s))%nat as Hle.
        { clear - Hge. induction (sdb_validRevisions s) as [|y l IH]; cbn; [destruct (Z.leb_spec id0 (rev_id x)); lia|]. case_match; lia. }
        rewrite take_app_le in Hx by done. apply elem_of_take in Hx as (i & Hx & _).
        pose proof (Forall_lookup_1 _ _ _ _ Hold Hx) as Hlt. cbn in Hlt. lia.
Qed.

(** * Transactions *)

(** A transaction starts with an empty journal and no snapshots, and every slot has
    its committed value; the third precompile is the exception that the code makes. *)
Definition settled (s : StateDB) : Prop := forall a k, a <> ripemd -> GetState s a k = GetCommittedState s a k.
Record tx_start (s : StateDB) : Prop := {
  start_wf : wf s;
  start_entries : j_entries (sdb_journal s) = [];
  start_revisions : sdb_validRevisions s = [];
  start_settled : settled s;
}.

Lemma start_tx_state s : tx_start s -> tx_state s s.
Proof. intros []. split; [by apply above_base|]. rewrite start_revisions0. constructor. Qed.

Lemma New_start db : tx_start (New db).
Proof.
  split; try done.
  - split; try done. intros a o Ho. unfold getDeletedStateObject in Ho. cbn in Ho. apply fmap_Some in Ho as (d & _ & ->). done.
  - intros a k _. unfold GetState, GetCommittedState, read. destruct (getStateObject (New db) a) as [o|] eqn:Ho; [|done].
    apply getStateObject_some in Ho as [Ho _]. unfold getDeletedStateObject in Ho. cbn in Ho. by apply fmap_Some in Ho as (d & _ & ->).
Qed.

(** C16. What a snapshot was taken for: whatever is done after it, and whatever snapshots
    are taken and returned to, the return to it succeeds while it is valid and gives
    back a state that cannot be told from the one it was taken of. *)
Theorem revert_restores s0 before s ops s1 :
  tx_start s0 -> execs before s0 = Some s ->
  execs ops (Snapshot s).2 = Some s1 -> (Snapshot s).1 ∈ ids s1 ->
  exists r, RevertToSnapshot (Snapshot s).1 s1 = Some r /\ same r s /\ sdb_validRevisions r = sdb_validRevisions s.
Proof.
  intros Hs0 Hb Hops Hin. pose proof (execs_tx_state s0 before s0 s (start_tx_state _ Hs0) Hb) as [Ha Hr].
  pose proof (above_wf _ _ Ha) as Hw.
  assert (Forall (fun r => rev_id r < (Snapshot s).1) (sdb_validRevisions s)) as Hold.
  { eapply Forall_impl; [exact Hr|]. by intros r []. }
  assert (followed s (Snapshot s).1 s1) as [_ Hf].
  { assert (followed s (Snapshot s).1 (Snapshot s).2) as Hf.
    { split; [cbn; lia|right]. split; [apply above_base; [symmetry; apply snapshot_same|eapply wf_same; [symmetry; apply snapshot_same|done]]|].
      exists []. by split. }
    clear Hin. revert Hf Hops. generalize (Snapshot s).2 at 1 2. induction ops as [|op ops IH]; intros t Hf; cbn [execs]; [by intros [= <-]|].
    intros (u & Hu & Hx)%bind_Some. eapply IH; [|exact Hx]. by eapply followed_step. }
  destruct Hf as [|(Hab & more & Hrv & _)]; [done|]. unfold RevertToSnapshot. rewrite Hrv, search_app by done.
  cbn [searchRevision rev_id]. rewrite Z.leb_refl, Nat.add_0_r, list_lookup_middle by done. cbn [rev_id rev_journalIndex]. rewrite Z.eqb_refl. cbn [negb].
  destruct (above_undo s (journal_length s1 - journal_length s) s1 Hab) as (r & Hr1 & _); [lia|]. unfold journal_revert. rewrite Hr1. cbn.
  pose proof (revertEntries_revisions _ _ _ Hr1) as Hrev. injection Hrev as Hv _. eexists. split; [done|]. split.
  - etrans; [symmetry; apply set_revisions_same|]. by eapply above_back.
  - cbn. by rewrite Hv, Hrv, take_app_length.
Qed.
End runs.

Section final.
Context `{Crypto}.
Notation entries s := (j_entries (sdb_journal s)).
Notation dirties s := (j_dirties (sdb_journal s)).

(** * Accounts that were not changed *)

Lemma set_elsewhere o s a : a <> so_address o ->
  getDeletedStateObject (setStateObject o s) a = getDeletedStateObject s a.
Proof. intros Ha. by rewrite getDeleted_set, bool_decide_eq_false_2. Qed.

Lemma update_elsewhere b f s r a : objUpdate f -> wf s -> updateObject b f s = Some r -> a <> b ->
  getDeletedStateObject r a = getDeletedStateObject s a /\ same_env s r a.
Proof.
  intros Hf Hw. unfold updateObject. intros (o & Ho & [= <-])%bind_Some Ha. split; [|done].
  destruct (object_at s b o Hw Ho) as [Hb _]. apply set_elsewhere. by rewrite (proj1 (update_keeps f o Hf)), Hb.
Qed.

(** Undoing an entry leaves the other accounts alone. *)
Lemma revert_elsewhere e s r a : wf s -> entry_ok e -> revert e s = Some r -> dirtied e <> Some a ->
  getDeletedStateObject r a = getDeletedStateObject s a /\ same_env s r a.
Proof.
  intros Hw Hok Hr Ha. destruct e; cbn [revert dirtied entry_ok] in *;
    try (eapply update_elsewhere; [|exact Hw|exact Hr|congruence]; constructor).
  - injection Hr as <-. split; [|done]. unfold getDeletedStateObject. cbn. by rewrite lookup_delete_ne by congruence.
  - assert (a <> so_address prev) as Ha' by congruence. injection Hr as <-. split.
    + rewrite <- (set_elsewhere prev s a Ha'). by destruct prevdestruct.
    + destruct prevdestruct; [done|]. split; [done|]. cbn. by rewrite lookup_delete_ne.
  - destruct (getStateObject s account) as [o|] eqn:Ho; injection Hr as <-; [|done]. split; [|done].
    destruct (object_at s account o Hw Ho) as [Hb _]. apply set_elsewhere. cbn. congruence.
  - by injection Hr as <-.
  - repeat case_match; try done; by injection Hr as <-.
  - by injection Hr as <-.
  - by injection Hr as <-.
  - by injection Hr as <-.
  - apply bind_Some in Hr as (al & _ & [= <-]). done.
  - by injection Hr as <-.
Qed.

(** An account without a mark in the journal is as it was. *)
Lemma untouched base s a : above base s -> a <> ripemd -> dirties s !! a = None ->
  option_Forall2 (obj_sim s base) (getDeletedStateObject s a) (getDeletedStateObject base a).
Proof.
  intros Hs Ha. induction Hs as [s Hb _|s p r Hp IH Hw Hr Hrp]; intros Hd; [apply Hb|].
  unfold revertLast in Hr. destruct (entries s) as [|e es] eqn:He; [done|]. apply bind_Some in Hr as (x & Hx & Hr).
  apply Some_inj in Hr. pose proof (same_dirties _ _ Hrp a Ha) as Hda. rewrite <- Hr in Hda. cbn in Hda. rewrite (revert_journal _ _ _ Hx) in Hda.
  pose proof (wf_entries _ Hw) as Hok. rewrite He in Hok. apply Forall_cons in Hok as [Hok _].
  destruct (decide (dirtied e = Some a)) as [Hea|Hea].
  { rewrite Hea, count_down_lookup, bool_decide_eq_true_2, Hd in Hda by done. cbn in Hda.
    symmetry in Hda. apply (wf_dirties _ (above_wf _ _ Hp)) in Hda; [lia|done]. }
  assert (dirties p !! a = None) as Hpd.
  { rewrite <- Hda. destruct (dirtied e) as [b|]; [|done]. rewrite count_down_lookup, bool_decide_eq_false_2; [done|congruence]. }
  destruct (revert_elsewhere e s x a Hw Hok Hx Hea) as [Hg Henv].
  pose proof (same_objects _ _ Hrp a) as Hsim. assert (getDeletedStateObject r a = getDeletedStateObject s a) as Hrs by (rewrite <- Hg, <- Hr; done).
  rewrite Hrs in Hsim. specialize (IH Hpd). destruct (getDeletedStateObject s a) as [o|] eqn:Ho; inversion Hsim as [? y Hy|]; subst.
  - match goal with H : Some _ = getDeletedStateObject p a |- _ => rewrite <- H in IH end. inversion IH as [? z Hz|]; subst. constructor.
    eapply obj_sim_trans; [|exact Hz]. eapply obj_sim_env; [| |exact Hy]; [|done].
    rewrite (wf_address _ Hw a o Ho). by destruct Henv.
  - match goal with H : None = getDeletedStateObject p a |- _ => rewrite <- H in IH end. inversion IH. constructor.
Qed.

(** * What [Finalise] does to one account *)

(** The account goes away. *)
Definition removed (d : bool) (o : stateObject) : bool := so_selfDestructed o || d && obj_empty o.
Definition finalised (d : bool) (o : stateObject) : stateObject :=
  set_so_created false (if removed d o then set_so_deleted true o else obj_finalise o).
Definition addressed (s : StateDB) : Prop := forall a o, sdb_stateObjects s !! a = Some o -> so_address o = a.

Lemma finalised_address d o : so_address (finalised d o) = so_address o.
Proof. unfold finalised. by destruct (removed d o). Qed.

(** What finalising objects does not touch. *)
Definition rest (s : StateDB) :=
  (sdb_db s, sdb_refund s, sdb_thash s, sdb_txIndex s, sdb_logs s, sdb_logSize s, sdb_preimages s, sdb_accessList s,
   sdb_transientStorage s, sdb_journal s).

Lemma finaliseObject_at d b s : addressed s ->
  let t := finaliseObject d b s in
  addressed t /\ rest t = rest s /\
  (forall a, sdb_stateObjects t !! a = if bool_decide (a = b) then finalised d <$> sdb_stateObjects s !! a else sdb_stateObjects s !! a) /\
  (forall a, (forall o, a = b -> sdb_stateObjects s !! a = Some o -> removed d o = false) -> sdb_destruct t !! a = sdb_destruct s !! a).
Proof.
  intros Hs. unfold finaliseObject. destruct (sdb_stateObjects s !! b) as [o|] eqn:Ho; cbn zeta.
  2:{ split_and!; try done. intros a. case_bool_decide; [subst; by rewrite Ho|done]. }
  fold (removed d o). fold (finalised d o). pose proof (Hs _ _ Ho) as Hb. split_and!.
  - intros a o'. cbn. destruct (removed d o); [destruct (sdb_destruct s !! so_address o)|];
      cbn; (destruct (decide (b = a)) as [<-|Hab]; [rewrite lookup_insert_eq; intros [= <-]; by rewrite finalised_address|rewrite lookup_insert_ne by done; apply Hs]).
  - destruct (removed d o); [destruct (sdb_destruct s !! so_address o)|]; done.
  - intros a. case_bool_decide as Hab; [subst a; rewrite Ho|].
    + destruct (removed d o); [destruct (sdb_destruct s !! so_address o)|]; cbn; by rewrite lookup_insert_eq.
    + destruct (removed d o); [destruct (sdb_destruct s !! so_address o)|]; cbn; by rewrite lookup_insert_ne by done.
  - intros a Hk. destruct (removed d o) eqn:Hr; [|done]. destruct (sdb_destruct s !! so_address o) eqn:Hd; [done|]. cbn.
    rewrite Hb. destruct (decide (b = a)) as [<-|Hab]; [|by rewrite lookup_insert_ne]. by rewrite (Hk o eq_refl Ho) in Hr.
Qed.

Lemma finalise_fold d l s : addressed s -> NoDup l ->
  let t := foldr (finaliseObject d) s l in
  addressed t /\ rest t = rest s /\
  (forall a, sdb_stateObjects t !! a = if bool_decide (a ∈ l) then finalised d <$> sdb_stateObjects s !! a else sdb_stateObjects s !! a) /\
  (forall a, (forall o, a ∈ l -> sdb_stateObjects s !! a = Some o -> removed d o = false) -> sdb_destruct t !! a = sdb_destruct s !! a).
Proof.
  intros Hs. induction 1 as [|b l Hb Hl IH]; cbn [foldr].
  { split_and!; try done. }
  destruct IH as (Ha & Hr & Ho & Hd). pose proof (finaliseObject_at d b _ Ha) as (Ha' & Hr' & Ho' & Hd'). split_and!.
  - done.
  - by rewrite Hr'.
  - intros a. rewrite Ho', Ho. destruct (decide (a = b)) as [->|Hab].
    + rewrite (bool_decide_eq_true_2 (b = b)), (bool_decide_eq_false_2 (b ∈ l)), bool_decide_eq_true_2 by (done || in_list). done.
    + rewrite (bool_decide_eq_false_2 (a = b)) by done. by rewrite (bool_decide_ext (a ∈ b :: l) (a ∈ l)) by (rewrite elem_of_cons; naive_solver).
  - intros a Hk. rewrite Hd'; [apply Hd; intros o Hal; apply Hk; by right|]. intros o -> Hbo.
    rewrite Ho, bool_decide_eq_false_2 in Hbo by done. apply Hk; [by left|done].
Qed.

Lemma wf_addressed s : wf s -> addressed s.
Proof. intros Hw a o Ho. apply (wf_address _ Hw). by apply getDeleted_live. Qed.

Lemma Finalise_at d s a : wf s ->
  sdb_stateObjects (Finalise d s) !! a =
    (if bool_decide (is_Some (dirties s !! a)) then finalised d <$> sdb_stateObjects s !! a else sdb_stateObjects s !! a) /\
  ((forall o, is_Some (dirties s !! a) -> sdb_stateObjects s !! a = Some o -> removed d o = false) ->
   sdb_destruct (Finalise d s) !! a = sdb_destruct s !! a) /\
  sdb_db (Finalise d s) = sdb_db s.
Proof.
  intros Hw. unfold Finalise, clearJournalAndRefund.
  destruct (finalise_fold d (elements (dom (dirties s))) s (wf_addressed s Hw) (NoDup_elements _)) as (_ & Hr & Ho & Hd).
  set (t := foldr _ _ _) in *. injection Hr as Hdb _ _ _ _ _ _ _ _ _.
  assert (forall b, b ∈ elements (dom (dirties s)) <-> is_Some (dirties s !! b)) as Hin by (intros b; by rewrite elem_of_elements, elem_of_dom).
  split_and!.
  - rewrite <- (bool_decide_ext _ _ (Hin a)), <- Ho. by destruct (entries t).
  - intros Hk. rewrite <- (Hd a) by (intros o Hi%Hin; by apply Hk). by destruct (entries t).
  - rewrite <- Hdb. by destruct (entries t).
Qed.

(** An account that is not removed keeps its values, and they are committed. *)
Definition values_of (s' s : StateDB) (a : Address) : Prop :=
  Exist s' a = Exist s a /\ GetBalance s' a = GetBalance s a /\ GetNonce s' a = GetNonce s a /\ GetExtra s' a = GetExtra s a /\
  GetCode s' a = GetCode s a /\ GetCodeHash s' a = GetCodeHash s a /\
  forall k, GetState s' a k = GetState s a k.

Lemma sim_values s' s a : option_Forall2 (obj_sim s' s) (getDeletedStateObject s' a) (getDeletedStateObject s a) ->
  values_of s' s a /\ forall k, GetCommittedState s' a k = GetCommittedState s a k.
Proof.
  intros Ho. unfold values_of, Exist, GetBalance, GetNonce, GetExtra, GetCode, GetCodeHash, GetState, GetCommittedState, read, getStateObject.
  inversion Ho as [x y Hxy|]; [|done]. rewrite (sim_deleted _ _ _ _ Hxy). destruct (so_deleted y); [done|].
  rewrite (sim_data _ _ _ _ Hxy), (sim_code _ _ _ _ Hxy). split_and!; try done; intros k; [|apply Hxy].
  rewrite !obj_GetState_value. apply Hxy.
Qed.

Lemma finalised_values d s a o : wf s -> sdb_stateObjects s !! a = Some o -> is_Some (dirties s !! a) -> removed d o = false ->
  values_of (Finalise d s) s a /\ forall k, GetCommittedState (Finalise d s) a k = GetState s a k.
Proof.
  intros Hw Ho Hd Hr. destruct (Finalise_at d s a Hw) as (Hl & Hds & Hdb). revert Hl Hds Hdb. generalize (Finalise d s) as t. intros t Hl Hds Hdb.
  rewrite bool_decide_eq_true_2, Ho in Hl by done. cbn in Hl.
  assert (sdb_destruct t !! a = sdb_destruct s !! a) as Hdd by (apply Hds; intros ? _ Ho'; rewrite Ho in Ho'; by injection Ho' as <-).
  pose proof (wf_address _ Hw _ _ (getDeleted_live _ _ _ Ho)) as Ha.
  unfold values_of, Exist, GetBalance, GetNonce, GetExtra, GetCode, GetCodeHash, GetState, GetCommittedState, read, getStateObject.
  rewrite (getDeleted_live _ _ _ Hl), (getDeleted_live _ _ _ Ho). unfold finalised. rewrite Hr. cbn [so_deleted set_so_created obj_finalise set_so_dirtyStorage set_so_pendingStorage].
  destruct (so_deleted o); [done|]. unfold obj_Code. cbn [so_code so_data set_so_created obj_finalise set_so_dirtyStorage set_so_pendingStorage]. rewrite Hdb.
  assert (forall k, committedState t (set_so_created false (obj_finalise o)) k = stateOf s o k) as Hc.
  { intros k. unfold stateOf, committedState. cbn. rewrite lookup_union, Ha, Hdd, Hdb.
    destruct (so_dirtyStorage o !! k) as [v|]; destruct (so_pendingStorage o !! k); done. }
  split_and!; try done; intros k; rewrite !obj_GetState_value; [|apply Hc].
  unfold stateOf at 1. cbn [so_dirtyStorage set_so_created obj_finalise set_so_dirtyStorage]. rewrite lookup_empty. apply Hc.
Qed.

Lemma kept_same d s a : wf s -> (is_Some (dirties s !! a) -> sdb_stateObjects s !! a = None) ->
  option_Forall2 (obj_sim (Finalise d s) s) (getDeletedStateObject (Finalise d s) a) (getDeletedStateObject s a).
Proof.
  intros Hw Hn. destruct (Finalise_at d s a Hw) as (Hl & Hds & Hdb).
  assert (sdb_destruct (Finalise d s) !! a = sdb_destruct s !! a) as Hdd by (apply Hds; intros o Hi Ho; rewrite (Hn Hi) in Ho; done).
  assert (getDeletedStateObject (Finalise d s) a = getDeletedStateObject s a) as ->.
  { unfold getDeletedStateObject. rewrite Hl, Hdb. case_bool_decide as Hi; [|done]. by rewrite (Hn Hi). }
  destruct (getDeletedStateObject s a) as [o|] eqn:Ho; constructor. apply obj_sim_refl. rewrite (wf_address _ Hw _ _ Ho). by split.
Qed.

Lemma settled_fresh s a k : sdb_stateObjects s !! a = None -> GetState s a k = GetCommittedState s a k.
Proof.
  intros Hn. unfold GetState, GetCommittedState, read, getStateObject, getDeletedStateObject. rewrite Hn.
  by destruct (GetAccount (sdb_db s) a).
Qed.

Lemma removed_gone d s a o : wf s -> sdb_stateObjects s !! a = Some o -> is_Some (dirties s !! a) -> removed d o = true ->
  getStateObject (Finalise d s) a = None.
Proof.
  intros Hw Ho Hd Hr. destruct (Finalise_at d s a Hw) as (Hl & _). rewrite bool_decide_eq_true_2, Ho in Hl by done.
  unfold getStateObject. rewrite (getDeleted_live _ _ _ Hl). unfold finalised. by rewrite Hr.
Qed.

Lemma Finalise_wf d s : wf s -> wf (Finalise d s) /\ entries (Finalise d s) = [] /\ sdb_validRevisions (Finalise d s) = [].
Proof.
  intros Hw. unfold Finalise, clearJournalAndRefund.
  destruct (finalise_fold d (elements (dom (dirties s))) s (wf_addressed s Hw) (NoDup_elements _)) as (Had & Hr & _).
  set (t := foldr _ _ _) in *. injection Hr as Hdb _ _ _ _ Hls _ Hal _ Hj.
  split; [|destruct (entries t) eqn:He; [by rewrite <- He|done]].
  assert (forall u, sdb_stateObjects u = sdb_stateObjects t -> sdb_db u = sdb_db t -> forall a o, getDeletedStateObject u a = Some o -> so_address o = a) as Haddr.
  { intros u Hu Hub a o. unfold getDeletedStateObject. rewrite Hu. destruct (sdb_stateObjects t !! a) eqn:Ha; [intros [= <-]; by apply Had|].
    by intros (x & _ & ->)%fmap_Some. }
  split.
  - apply Haddr; by destruct (entries t).
  - replace (sdb_accessList _) with (sdb_accessList s) by (rewrite <- Hal; by destruct (entries t)). apply Hw.
  - intros a n Ha. destruct (entries t) eqn:He; [|done]. cbn. rewrite Hj. by apply Hw.
  - replace (sdb_logSize _) with (sdb_logSize s) by (rewrite <- Hls; by destruct (entries t)). apply Hw.
  - destruct (entries t) eqn:He; [|constructor]. cbn. rewrite He. constructor.
Qed.

(** C17. At the end of a transaction the next one can start: the accounts that the
    transaction did not change are as they were before it, the ones that destructed
    themselves or were touched and are empty are gone, and the others have the values
    that the transaction left, which are now the committed ones. *)
Theorem finalise_settles d s0 ops s : tx_start s0 -> execs ops s0 = Some s ->
  tx_start (Finalise d s) /\
  forall a, a <> ripemd ->
    (dirties s !! a = None -> values_of (Finalise d s) s0 a /\ forall k, GetCommittedState (Finalise d s) a k = GetCommittedState s0 a k) /\
    (forall o, sdb_stateObjects s !! a = Some o -> is_Some (dirties s !! a) ->
       if removed d o then getStateObject (Finalise d s) a = None
       else values_of (Finalise d s) s a /\ forall k, GetCommittedState (Finalise d s) a k = GetState s a k).
Proof.
  intros Hs0 Hx. pose proof (execs_tx_state s0 ops s0 s (start_tx_state _ Hs0) Hx) as [Hab _]. pose proof (above_wf _ _ Hab) as Hw.
  assert (forall a, a <> ripemd -> dirties s !! a = None ->
    option_Forall2 (obj_sim (Finalise d s) s0) (getDeletedStateObject (Finalise d s) a) (getDeletedStateObject s0 a)) as Hun.
  { intros a Ha Hd. pose proof (untouched s0 s a Hab Ha Hd) as Hu. pose proof (kept_same d s a Hw) as Hk. rewrite Hd in Hk.
    specialize (Hk (fun Hi => match is_Some_None Hi with end)).
    destruct (getDeletedStateObject s a); inversion Hk; subst; inversion Hu; subst; constructor. by eapply obj_sim_trans. }
  assert (forall a o, sdb_stateObjects s !! a = Some o -> is_Some (dirties s !! a) ->
       if removed d o then getStateObject (Finalise d s) a = None
       else values_of (Finalise d s) s a /\ forall k, GetCommittedState (Finalise d s) a k = GetState s a k) as Hch.
  { intros a o Ho Hd. destruct (removed d o) eqn:Hr; [by eapply removed_gone|by eapply finalised_values]. }
  split; [|intros a Ha; split; [intros Hd; by apply sim_values, Hun|apply Hch]].
  destruct (Finalise_wf d s Hw) as (Hfw & Hfe & Hfr). split; try done. intros a k Ha.
  destruct (dirties s !! a) as [n|] eqn:Hd.
  - destruct (sdb_stateObjects s !! a) as [o|] eqn:Ho.
    + specialize (Hch a o Ho ltac:(by rewrite Hd)). destruct (removed d o).
      * unfold GetState, GetCommittedState, read. by rewrite Hch.
      * destruct Hch as [(_ & _ & _ & _ & _ & _ & Hst) Hc]. by rewrite Hst, Hc.
    + apply settled_fresh. destruct (Finalise_at d s a Hw) as (Hl & _). rewrite Hl, Ho. by case_match.
  - destruct (sim_values _ _ _ (Hun a Ha Hd)) as [(_ & _ & _ & _ & _ & _ & Hst) Hc]. rewrite Hst, Hc. by apply Hs0.
Qed.
End final.
