(* ===== verification/JournalFrames.v ===== *)
(** The journaled state across a call: what a callee leaves behind, and what is kept
    whatever it does.

    A call takes a snapshot, and returns to it when the callee fails.  [grows] is what
    every run of operations between the two is an instance of; returning is possible
    after it.  [state_ok] is what the machine relies on.

    What each operation of the journaled state does to balances and to the logs of
    the transaction: exactly, on every branch. *)
From S2P Require Import Prelude Validators AccountExtra Messages Rlp StateJournal JournalProps JournalRuns.

(** * Growing *)

Section grows.
Context `{Crypto}.
Notation revisions s := (sdb_validRevisions s, sdb_nextRevisionId s).

(** The snapshots that are valid were given out before. *)
Definition sane (s : StateDB) : Prop := wf s /\ Forall (fun r => rev_id r < sdb_nextRevisionId s) (sdb_validRevisions s).

Record grows (s s' : StateDB) : Prop := {
  grows_above : above s s';
  grows_next : sdb_nextRevisionId s <= sdb_nextRevisionId s';
  grows_revisions : exists more, sdb_validRevisions s' = sdb_validRevisions s ++ more /\
    Forall (fun r => sdb_nextRevisionId s <= rev_id r < sdb_nextRevisionId s' /\ (journal_length s <= rev_journalIndex r)%nat) more;
  grows_warm a : AddressInAccessList s a = true -> AddressInAccessList s' a = true;
}.

Lemma grows_sane s s' : sane s -> grows s s' -> sane s'.
Proof.
  intros [Hw Hr] []. split; [by eapply above_wf|]. destruct grows_revisions0 as (more & -> & Hm). apply Forall_app. split.
  - eapply Forall_impl; [exact Hr|]. cbn. lia.
  - eapply Forall_impl; [exact Hm|]. cbn. lia.
Qed.

Lemma above_trans s t u : above s t -> above t u -> above s u.
Proof.
  intros Hst. induction 1 as [u Hb Hw|u p r Hp IH Hw Hr Hrp].
  - eapply above_same; [exact Hst|by symmetry].
  - by eapply above_step.
Qed.

Lemma grows_trans s t u : grows s t -> grows t u -> grows s u.
Proof.
  intros [Ha Hn (m & Hm & Hmf) Hw] [Ha' Hn' (m' & Hm' & Hmf') Hw']. pose proof (above_length _ _ Ha). split.
  - by eapply above_trans.
  - lia.
  - exists (m ++ m'). rewrite Hm', Hm, <- app_assoc. split; [done|]. apply Forall_app. split.
    + eapply Forall_impl; [exact Hmf|]. cbn. intros r ?. lia.
    + eapply Forall_impl; [exact Hmf'|]. cbn. intros r ?. lia.
  - intros a Hs. by apply Hw', Hw.
Qed.

Lemma grows_steps s s' : wf s -> steps s s' -> revisions s' = revisions s ->
  (forall a, AddressInAccessList s a = true -> AddressInAccessList s' a = true) -> grows s s'.
Proof.
  intros Hw Hs [= Hv Hn] Hal. split; [by eapply above_steps; [apply above_base|]|lia| |done].
  exists []. by rewrite Hv, app_nil_r.
Qed.

Lemma grows_refl s : wf s -> grows s s.
Proof. intros Hw. apply grows_steps; try done. apply steps_refl. Qed.

(** Only the access list may gain something. *)
Lemma plain_warm op s s' : plain op = true -> exec op s = Some s' ->
  forall a, AddressInAccessList s a = true -> AddressInAccessList s' a = true.
Proof.
  intros Hp Hx a. assert (sdb_accessList s' = sdb_accessList s \/ exists b, op = OpAddAddress b \/ exists k, op = OpAddSlot b k) as Hc.
  { destruct op; try (by right; eauto); left; cbn in Hx; try injection Hx as <-; try done;
      try (unfold AddBalance, SubBalance, SetNonce, SetCode, SetState, SetBlacklisted, ClearBlacklisted, SetAuthorized, ClearAuthorized, withObject,
        getOrNewStateObject, CreateAccount, SelfDestruct, Selfdestruct6780, SetTransientState, AddPreimage, createObject, obj_AddBalance, obj_SubBalance, obj_SetState,
        obj_SetBlacklisted, obj_ClearBlacklisted, obj_SetAuthorized, obj_ClearAuthorized, SelfDestruct, touch;
        repeat (case_match; simplify_eq); done).
    unfold SubRefund in Hx. case_match; [done|]. by injection Hx as <-. }
  unfold AddressInAccessList, ContainsAddress. destruct Hc as [->|(b & [->|(k & ->)])]; [done| |]; cbn in Hx; injection Hx as <-;
    rewrite !bool_decide_eq_true; intros [x Hx].
  - unfold AddAddressToAccessList, AddAddress. destruct (al_addresses (sdb_accessList s) !! b) eqn:Hb; cbn; [by exists x|].
    destruct (decide (b = a)) as [<-|]; [by rewrite lookup_insert_eq|]. by rewrite lookup_insert_ne by done; exists x.
  - unfold AddSlotToAccessList, AddSlot. destruct (al_addresses (sdb_accessList s) !! b) eqn:Hb; cbn; repeat case_match; simplify_eq; cbn in *;
      try (by exists x); (destruct (decide (b = a)) as [<-|]; [by rewrite lookup_insert_eq|by rewrite lookup_insert_ne by done; exists x]).
Qed.

Lemma warmed a s : AddressInAccessList (AddAddressToAccessList a s) a = true.
Proof.
  unfold AddAddressToAccessList, AddAddress, AddressInAccessList, ContainsAddress.
  destruct (al_addresses (sdb_accessList s) !! a) eqn:Ha; cbn; [by rewrite Ha|by rewrite lookup_insert_eq].
Qed.

Lemma plain_grows op s s' : plain op = true -> wf s -> exec op s = Some s' -> grows s s'.
Proof.
  intros Hp Hw Hx. apply grows_steps; [done|by eapply plain_steps|by eapply plain_revisions|by eapply plain_warm].
Qed.

Lemma snapshot_grows s : wf s -> grows s (Snapshot s).2.
Proof.
  intros Hw. split.
  - apply above_base; [symmetry; apply snapshot_same|eapply wf_same; [symmetry; apply snapshot_same|done]].
  - cbn. lia.
  - eexists. split; [reflexivity|]. repeat constructor; cbn; lia.
  - done.
Qed.

(** Whatever happened since, the return to a snapshot succeeds. *)
Lemma revert_grows s t : sane s -> grows (Snapshot s).2 t ->
  exists r, RevertToSnapshot (Snapshot s).1 t = Some r /\ same r s /\ grows s r /\ sane r.
Proof.
  intros Hsane [Ha Hn (more & Hm & _) _]. pose proof Hsane as [Hw Hr].
  assert (above s t) as Hab by (eapply above_trans; [apply snapshot_grows, Hw|exact Ha]).
  cbn in Hm. rewrite <- app_assoc in Hm. cbn in Hm. unfold RevertToSnapshot. rewrite Hm, search_app by exact Hr.
  cbn [searchRevision rev_id Snapshot fst]. rewrite Z.leb_refl, Nat.add_0_r, list_lookup_middle by done.
  cbn [rev_id rev_journalIndex]. rewrite Z.eqb_refl. cbn [negb].
  destruct (above_undo s (journal_length t - journal_length s) t Hab) as (r & Hr1 & _); [lia|].
  unfold journal_revert. rewrite Hr1. cbn. pose proof (revertEntries_revisions _ _ _ Hr1) as [= Hv Hnx].
  rewrite Hv, Hm, take_app_length. eexists. split; [done|].
  assert (same (set_sdb_validRevisions (sdb_validRevisions s) r) s) as Hsame.
  { etrans; [symmetry; apply set_revisions_same|]. by eapply above_back. }
  assert (grows s (set_sdb_validRevisions (sdb_validRevisions s) r)) as Hg.
  { split.
    - apply above_base; [done|by eapply wf_same].
    - cbn in Hn |- *. lia.
    - exists []. cbn. by rewrite app_nil_r.
    - intros a. unfold AddressInAccessList. by rewrite (same_accessList _ _ Hsame). }
  split_and!; [done|done|by eapply grows_sane].
Qed.
End grows.

(** * What the machine relies on *)

Section invariant.
Context `{Crypto}.

(** The code of an object is the one its hash is of, unless it is not in the
    database; a length fits the integers of Go. *)
Definition code_fine (s : StateDB) (o : stateObject) : Prop :=
  (obj_Code s o = [] \/ be_value (Keccak256 (obj_Code s o)) = sa_CodeHash (so_data o)) /\ Z.of_nat (length (obj_Code s o)) < 2 ^ 62.
Definition code_ok (s : StateDB) : Prop := forall a o, getDeletedStateObject s a = Some o -> code_fine s o.

(** A slot that was cleared in this transaction: the refund for it may be taken back. *)
Definition owed (s : StateDB) (a : Address) (k : Hash) : Prop := GetCommittedState s a k <> 0 /\ GetState s a k = 0.
(** The counter covers every refund that may be taken back. *)
Definition refund_ok (c : Z) (s : StateDB) : Prop :=
  0 <= sdb_refund s /\
  forall X : gset (Address * Hash), (forall p, p ∈ X -> owed s p.1 p.2) -> c * Z.of_nat (size X) <= sdb_refund s.

Record state_ok (c : Z) (s : StateDB) : Prop := {
  ok_sane : sane s;
  ok_code : code_ok s;
  ok_refund : refund_ok c s;
}.

Lemma owed_object s a k : owed s a k <-> exists o, getStateObject s a = Some o /\ committedState s o k <> 0 /\ stateOf s o k = 0.
Proof.
  unfold owed, GetCommittedState, GetState, read. destruct (getStateObject s a) as [o|]; [|naive_solver].
  rewrite obj_GetState_value. naive_solver.
Qed.

(** A database whose code is stored under its hash. *)
Definition db_fine (db : Database) : Prop := forall a acct, GetAccount db a = Some acct ->
  let code := ContractCode db (sa_CodeHash acct) in (code = [] \/ be_value (Keccak256 code) = sa_CodeHash acct) /\ Z.of_nat (length code) < 2 ^ 62.
(** What a transaction starts from. *)
Lemma New_ok c db : db_fine db -> state_ok c (New db).
Proof.
  intros Hdb. assert (forall a o, getDeletedStateObject (New db) a = Some o -> exists acct, GetAccount db a = Some acct /\ o = newObject a (Some acct)) as Hobj.
  { intros a o Ho. unfold getDeletedStateObject in Ho. cbn [New sdb_stateObjects sdb_db] in Ho. rewrite lookup_empty in Ho. apply fmap_Some in Ho as (d & Hd & ->). by exists d. }
  split; [split; [apply New_start|constructor]| |split; [done|]].
  - intros a o (acct & Ha & ->)%Hobj. unfold code_fine, obj_Code. cbn [newObject so_code so_data default from_option id]. destruct (_ =? EmptyCodeHash).
    + split; [by left|done].
    + exact (Hdb a acct Ha).
  - intros X HX. destruct (decide (X = ∅)) as [->|Hne]; [rewrite size_empty; cbn; lia|]. apply set_choose_L in Hne as [p Hp].
    destruct (HX p Hp) as [Hc Hv]. exfalso. apply Hc. rewrite <- Hv. unfold GetState, GetCommittedState, read. destruct (getStateObject (New db) p.1) as [o|] eqn:Ho; [|done].
    apply getStateObject_some in Ho as [(acct & _ & ->)%Hobj _]. done.
Qed.

Lemma owed_same s t a k : same s t -> owed s a k -> owed t a k.
Proof.
  intros Hst. rewrite !owed_object. intros (o & Ho & Hc & Hv). pose proof (getStateObject_same s t a Hst) as Hs. rewrite Ho in Hs.
  inversion Hs as [? o' Hsim|]; subst. exists o'. by rewrite <- (sim_committed _ _ _ _ Hsim), <- (sim_state _ _ _ _ Hsim).
Qed.
Lemma refund_same c s t : same s t -> refund_ok c t -> refund_ok c s.
Proof.
  intros Hst [H0 Hx]. rewrite <- (same_refund _ _ Hst) in H0, Hx. split; [done|]. intros X HX. apply Hx. intros p Hp. by eapply owed_same, HX.
Qed.
Lemma code_same s t : same s t -> code_ok t -> code_ok s.
Proof.
  intros Hst Ht a o Ho. pose proof (same_objects _ _ Hst a) as Hs. rewrite Ho in Hs. inversion Hs as [? o' Hsim Hx Hy|]; subst.
  unfold code_fine. rewrite (sim_code _ _ _ _ Hsim), (sim_data _ _ _ _ Hsim). by eapply Ht.
Qed.

(** * Changes that leave the storage alone *)

(** Nothing becomes owed, and code stays fine. *)
Definition calm_at (s s' : StateDB) (a : Address) : Prop := forall o', getDeletedStateObject s' a = Some o' ->
  ((forall o, getDeletedStateObject s a = Some o -> code_fine s o) -> code_fine s' o') /\
  (so_deleted o' = false -> forall k, committedState s' o' k <> 0 -> stateOf s' o' k = 0 -> owed s a k).
Definition calm (s s' : StateDB) : Prop := sdb_refund s' = sdb_refund s /\ forall a, calm_at s s' a.

Lemma calm_owed s s' a k : calm_at s s' a -> owed s' a k -> owed s a k.
Proof. intros Hc (o & (Ho & Hd)%getStateObject_some & Hk)%owed_object. destruct (Hc o Ho) as [_ Hx]. apply Hx; [done|apply Hk..]. Qed.

Lemma calmly_trans s t u : calm s t -> calm t u -> calm s u.
Proof.
  intros [Hr Hst] [Hr' Htu]. split; [congruence|]. intros a o Ho. destruct (Htu a o Ho) as [Hc Hx]. split.
  - intros Hs. apply Hc. intros o' Ho'. by apply (Hst a o' Ho').
  - intros Hd k Hk Hv. eapply calm_owed; [apply Hst|by apply Hx].
Qed.

Lemma calm_object s s' a o : getDeletedStateObject s a = Some o ->
  same_env s s' (so_address o) -> getDeletedStateObject s' a = Some o -> calm_at s s' a.
Proof.
  intros Ho He Ho' o' Hx. rewrite Ho' in Hx. injection Hx as <-. split.
  - intros Hc. unfold code_fine. rewrite <- (code_env s s' o _ He). by apply Hc.
  - intros Hd k. rewrite <- (committed_env s s' o k He), <- (state_env s s' o k He). intros. apply owed_object. exists o.
    split; [by apply getStateObject_some|done].
Qed.
Lemma calm_env s s' a : wf s -> same_env s s' a -> getDeletedStateObject s' a = getDeletedStateObject s a -> calm_at s s' a.
Proof.
  intros Hw He Ho. destruct (getDeletedStateObject s a) as [o|] eqn:Hs; [|intros o' Ho'; congruence].
  apply (calm_object s s' a o); [done| |done]. by rewrite (wf_address _ Hw a o Hs).
Qed.
Lemma calm_below s s' : wf s -> same_below s s' -> sdb_refund s' = sdb_refund s -> calm s s'.
Proof.
  intros Hw (Hd & He & Ho) Hr. split; [done|]. intros a. apply calm_env; [done|by apply env_all|].
  unfold getDeletedStateObject. by rewrite Ho, Hd.
Qed.
Lemma calmly_refl s : wf s -> calm s s.
Proof. intros Hw. by apply calm_below. Qed.

(** An object that shows the same storage, with fine code. *)
Lemma calm_change s s' o o' : wf s -> same_below (setStateObject o' s) s' -> sdb_refund s' = sdb_refund s ->
  getDeletedStateObject s (so_address o') = Some o -> so_deleted o' = so_deleted o ->
  (code_fine s o -> code_fine s o') -> (forall k, committedState s o' k = committedState s o k) ->
  (forall k, stateOf s o' k = stateOf s o k) -> calm s s'.
Proof.
  intros Hw (Hd & He & Hob) Hr Ho Hdel Hcode Hcom Hst. split; [done|]. intros a. cbn in Hd, He.
  assert (same_env s s' a) as Henv by (split; [done|by rewrite <- He]).
  assert (getDeletedStateObject s' a = getDeletedStateObject (setStateObject o' s) a) as Hg by (unfold getDeletedStateObject; by rewrite <- Hob, <- Hd).
  rewrite getDeleted_set in Hg. case_bool_decide as Ha; [|by apply calm_env].
  intros x Hx. rewrite Hg in Hx. injection Hx as <-. subst a. split.
  - intros Hc. specialize (Hc _ Ho). apply Hcode in Hc. unfold code_fine in *. by rewrite <- (code_env s s' o' _ Henv).
  - intros Hx k. rewrite <- (committed_env s s' o' k Henv), <- (state_env s s' o' k Henv), Hcom, Hst. intros. apply owed_object.
    exists o. split; [apply getStateObject_some; split; [done|congruence]|done].
Qed.

Lemma newObject_committed s a k : (sdb_destruct s !! a <> None \/ db_accounts (sdb_db s) !! a = None) -> committedState s (newObject a None) k = 0.
Proof.
  unfold committedState, newObject. cbn. rewrite !lookup_empty. intros [Hd|Hd]; [by destruct (sdb_destruct s !! a)|].
  destruct (sdb_destruct s !! a); [done|]. unfold GetStorage. by rewrite Hd.
Qed.

Lemma calm_new s s' a o' : wf s -> sdb_refund s' = sdb_refund s -> sdb_db s = sdb_db s' ->
  (forall b, b <> a -> sdb_destruct s !! b = sdb_destruct s' !! b) ->
  getDeletedStateObject s' a = Some o' -> (forall b, b <> a -> getDeletedStateObject s' b = getDeletedStateObject s b) ->
  (sdb_destruct s' !! a <> None \/ db_accounts (sdb_db s') !! a = None) ->
  (exists x, o' = obj_setBalance x (newObject a None)) -> calm s s'.
Proof.
  intros Hw Hr Hdb Hdes Ho Hb Hn (x & ->). split; [done|]. intros b. destruct (decide (b = a)) as [->|Hba].
  - intros o Ho'. rewrite Ho in Ho'. injection Ho' as <-. split.
    + intros _. unfold code_fine, obj_Code. cbn. rewrite Z.eqb_refl. split; [by left|cbn; lia].
    + intros _ k Hk. exfalso. apply Hk. by apply newObject_committed.
  - apply calm_env; [done|split; [done|by apply Hdes]|by apply Hb].
Qed.

Lemma created_at a s : wf s ->
  let s' := (createObject a s).2 in
  sdb_refund s' = sdb_refund s /\ sdb_db s = sdb_db s' /\ (forall b, b <> a -> sdb_destruct s !! b = sdb_destruct s' !! b) /\
  (forall b, b <> a -> getDeletedStateObject s' b = getDeletedStateObject s b) /\
  (sdb_destruct s' !! a <> None \/ db_accounts (sdb_db s') !! a = None).
Proof.
  intros Hw. unfold createObject. destruct (getDeletedStateObject s a) as [prev|] eqn:Hp; cbn [fst snd].
  - pose proof (wf_address _ Hw _ _ Hp) as Ha. rewrite Ha. case_bool_decide as Hd; cbn; split_and!; try done.
    + intros b Hb. unfold getDeletedStateObject. cbn. by rewrite lookup_insert_ne.
    + left. by apply not_eq_None_Some.
    + intros b Hb. by rewrite lookup_insert_ne.
    + intros b Hb. unfold getDeletedStateObject. cbn. by rewrite lookup_insert_ne.
    + left. by rewrite lookup_insert_eq.
  - cbn. split_and!; try done.
    + intros b Hb. unfold getDeletedStateObject. cbn. by rewrite lookup_insert_ne.
    + right. unfold getDeletedStateObject, GetAccount in Hp. destruct (sdb_stateObjects s !! a); [done|]. by destruct (db_accounts (sdb_db s) !! a).
Qed.

Lemma createObject_calm a s : wf s -> calm s (createObject a s).2.
Proof.
  intros Hw. destruct (created_at a s Hw) as (Hr & Hdb & Hdes & Hb & Hn). destruct (createObject_undone a s Hw) as (_ & Ho & Hnew).
  apply getStateObject_some in Ho as [Ho _]. rewrite Hnew in Ho. eapply (calm_new s _ a); [done..|].
  exists 0. by destruct (newObject a None) as [? ? [] ? ? ? ? ? ? ? ?] eqn:Hx; injection Hx as <- <- <- <- <- <- <- <- <- <- <- <- <- <- <-.
Qed.

Lemma CreateAccount_calm a s : wf s -> calm s (CreateAccount a s).
Proof.
  intros Hw. pose proof (created_at a s Hw) as Hc. pose proof (createObject_calm a s Hw) as Hcalm. pose proof (createObject_undone a s Hw) as (_ & _ & Hnew).
  unfold CreateAccount. destruct (createObject a s) as [[o [prev|]] s'] eqn:He; cbn [fst snd] in *; [|done]. subst o.
  destruct Hc as (Hr & Hdb & Hdes & Hb & Hn). set (o' := obj_setBalance _ _).
  apply (calm_new s _ a o'); try done.
  - by rewrite getDeleted_set, bool_decide_eq_true_2.
  - intros b Hba. rewrite getDeleted_set, bool_decide_eq_false_2 by done. by apply Hb.
  - by eexists.
Qed.

Lemma withObject_calm a f s :
  (forall s o, wf s -> getStateObject s a = Some o -> calm s (f o s)) -> wf s -> calm s (withObject a f s).
Proof.
  intros Hf Hw. unfold withObject, getOrNewStateObject. destruct (getStateObject s a) as [o|] eqn:Ho.
  - pose proof (keep_same s a o Hw Ho) as Hk. assert (wf (setStateObject o s)) as Hw' by (eapply wf_same; [by symmetry|done]).
    destruct (object_at s a o Hw Ho) as [Ha Hd]. pose proof Ho as [Hg _]%getStateObject_some.
    apply (calmly_trans s (setStateObject o s)).
    + by apply (calm_change s _ o o); rewrite ?Ha.
    + apply Hf; [done|]. rewrite <- Ha. by apply getState_set.
  - pose proof (createObject_calm a s Hw) as Hc. destruct (createObject_undone a s Hw) as ((Hw' & _) & Ho' & _).
    destruct (createObject a s) as [[o ?] s']. cbn [fst snd] in *. apply (calmly_trans s s'); [done|]. by apply Hf.
Qed.

(** A journalled change of the data of an object. *)
Lemma data_calm s a o o' e : wf s -> getStateObject s a = Some o -> so_address o' = a -> so_deleted o' = false ->
  so_pendingStorage o' = so_pendingStorage o -> so_originStorage o' = so_originStorage o -> so_dirtyStorage o' = so_dirtyStorage o ->
  (code_fine s o -> code_fine s o') -> calm s (change e o' s).
Proof.
  intros Hw Ho Ha Hd Hp Hori Hdi Hc. destruct (object_at s a o Hw Ho) as [Hao Hdo]. pose proof Ho as [Hg _]%getStateObject_some.
  assert (forall k, committedState s o' k = committedState s o k) as Hcom by (intros k; unfold committedState; by rewrite Hp, Hori, Ha, Hao).
  apply (calm_change s _ o o'); try done.
  - by rewrite Ha.
  - by rewrite Hd, Hdo.
  - intros k. unfold stateOf. by rewrite Hdi, Hcom.
Qed.

Lemma touch_calm s o : wf s -> calm s (touch o s).
Proof. intros Hw. unfold touch. apply calm_below; [done|by case_match..]. Qed.

(** The operations that leave the storage and the counter alone. *)
Definition calm_op (op : StateOp) : Prop :=
  match op with
  | OpSetState _ _ _ | OpAddRefund _ | OpSubRefund _ | OpRevert _ => False
  | OpSetCode _ code => Z.of_nat (length code) < 2 ^ 62
  | _ => True
  end.

Lemma exec_calm op s s' : calm_op op -> wf s -> exec op s = Some s' -> calm s s'.
Proof.
  intros Hop Hw. destruct op; cbn in Hop |- *; try done; try (intros [= <-]);
    try (apply withObject_calm; [clear - Hop; intros s o Hw Ho; destruct (object_at s a o Hw Ho) as [Ha Hd]|done]).
  - by apply CreateAccount_calm.
  - unfold obj_SubBalance. case_match; [by apply calmly_refl|]. by eapply data_calm.
  - unfold obj_AddBalance. repeat case_match; [by apply touch_calm|by apply calmly_refl|by eapply data_calm].
  - by eapply data_calm.
  - eapply data_calm; try done. intros _. unfold code_fine, obj_Code. cbn. split; [by right|done].
  - unfold SetTransientState. case_match; [by apply calmly_refl|by apply calm_below].
  - unfold SelfDestruct. destruct (getStateObject s a) as [o|] eqn:Ho; [|by apply calmly_refl].
    destruct (object_at s a o Hw Ho) as [Ha Hd]. by eapply data_calm.
  - unfold Selfdestruct6780, SelfDestruct. destruct (getStateObject s a) as [o|] eqn:Ho; [|by apply calmly_refl].
    case_match; [|by apply calmly_refl]. destruct (object_at s a o Hw Ho) as [Ha Hd]. by eapply data_calm.
  - unfold obj_SetBlacklisted. case_match; [by apply calmly_refl|by eapply data_calm].
  - unfold obj_ClearBlacklisted. repeat case_match; [by apply touch_calm|by apply calmly_refl|by eapply data_calm].
  - unfold obj_SetAuthorized. case_match; [by apply calmly_refl|by eapply data_calm].
  - unfold obj_ClearAuthorized. repeat case_match; [by apply touch_calm|by apply calmly_refl|by eapply data_calm].
  - unfold AddAddressToAccessList. destruct (AddAddress _ _) as [[] ?]; by apply calm_below.
  - unfold AddSlotToAccessList. destruct (AddSlot _ _ _) as [[[] []] ?]; by apply calm_below.
  - by apply calm_below.
  - unfold AddPreimage. case_match; [by apply calmly_refl|by apply calm_below].
  - by apply calm_below.
Qed.

(** What an operation of the machine does to a state that is fine. *)
Record advances (c : Z) (s s' : StateDB) : Prop := {
  advances_grows : grows s s';
  advances_ok : state_ok c s';
  advances_refund : sdb_refund s' = sdb_refund s;
}.

Lemma calm_ok c s s' : state_ok c s -> grows s s' -> calm s s' -> advances c s s'.
Proof.
  intros [Hs Hc [H0 Hx]] Hg [Hr Ha]. split; [done| |done]. split.
  - by eapply grows_sane.
  - intros a o Ho. apply (Ha a o Ho). apply Hc.
  - split; [by rewrite Hr|]. intros X HX. rewrite Hr. apply Hx. intros p Hp. eapply calm_owed; [apply Ha|by apply HX].
Qed.

Lemma advances_trans c s t u : advances c s t -> advances c t u -> advances c s u.
Proof. intros [] []. split; [by eapply grows_trans|done|congruence]. Qed.
Lemma advances_refl c s : state_ok c s -> advances c s s.
Proof. intros Hs. split; [|done|done]. apply grows_refl, Hs. Qed.

Lemma exec_advances c op s s' : calm_op op -> state_ok c s -> exec op s = Some s' -> advances c s s'.
Proof.
  intros Hop Hs Hx. assert (wf s) as Hw by apply Hs. apply calm_ok; [done| |by eapply exec_calm].
  destruct (plain op) eqn:Hp; [by eapply plain_grows|]. destruct op; try done. injection Hx as <-. by apply snapshot_grows.
Qed.

Lemma revert_ok c s t : state_ok c s -> grows (Snapshot s).2 t ->
  exists r, RevertToSnapshot (Snapshot s).1 t = Some r /\ same r s /\ advances c s r.
Proof.
  intros [Hs Hc Hr] Hg. destruct (revert_grows s t Hs Hg) as (r & Hrev & Hsame & Hgr & Hsane). exists r. split_and!; [done|done|].
  split; [done| |apply Hsame]. split; [done|by eapply code_same|by eapply refund_same].
Qed.

(** * Storing *)

(** How much a slot counts. *)
Definition owes (committed value : Hash) : Z := if negb (committed =? 0) && (value =? 0) then 1 else 0.

Lemma objSetState_owed s a o k v j b : wf s -> getStateObject s a = Some o -> owed (obj_SetState k v o s) b j ->
  if bool_decide ((b, j) = (a, k)) then owes (committedState s o k) v = 1 else owed s b j.
Proof.
  intros Hw Ho. destruct (object_at s a o Hw Ho) as [Ha Hd]. unfold obj_SetState.
  pose proof (obj_GetState_value s o k) as Hval. destruct (obj_GetState s o k) as [prev o1] eqn:Hg. cbn [fst] in Hval.
  destruct (obj_GetState_keeps s o k o1) as (Ha1 & Hd1 & Hsim); [by rewrite Hg|]. destruct (Z.eqb_spec prev v) as [->|Hne].
  - intros Hb. case_bool_decide as Heq; [|done]. injection Heq as -> ->. apply owed_object in Hb as (x & Hx & Hc & Hv). rewrite Ho in Hx. injection Hx as <-.
    unfold owes. rewrite Hval, Hv. by destruct (Z.eqb_spec (committedState s o k) 0).
  - intros (x & (Hx & Hxd)%getStateObject_some & Hc & Hv)%owed_object. unfold change in Hx. rewrite getDeleted_set in Hx. cbn in Hx.
    rewrite Ha1, Ha in Hx. case_bool_decide as Hba.
    + injection Hx as <-. subst b. change (stateOf s (obj_setState k v o1) j = 0) in Hv. change (committedState s o1 j <> 0) in Hc.
      rewrite stateOf_setState in Hv. case_bool_decide as Hjk.
      * subst j. rewrite bool_decide_eq_true_2 by done. unfold owes. subst v. rewrite <- (sim_committed _ _ _ _ Hsim). by destruct (Z.eqb_spec (committedState s o1 k) 0).
      * rewrite bool_decide_eq_false_2 by congruence. apply owed_object. exists o. rewrite <- (sim_committed _ _ _ _ Hsim), <- (sim_state _ _ _ _ Hsim). done.
    + rewrite bool_decide_eq_false_2 by congruence. apply owed_object. exists x. split; [by apply getStateObject_some|done].
Qed.

Lemma SetState_owed s a k v j b : wf s -> owed (SetState a k v s) b j ->
  if bool_decide ((b, j) = (a, k)) then owes (GetCommittedState s a k) v = 1 else owed s b j.
Proof.
  intros Hw. unfold SetState, withObject, getOrNewStateObject, GetCommittedState, read. destruct (getStateObject s a) as [o|] eqn:Ho.
  - destruct (object_at s a o Hw Ho) as [Ha Hd]. pose proof (keep_same s a o Hw Ho) as Hk.
    assert (wf (setStateObject o s)) as Hw' by (eapply wf_same; [by symmetry|done]). intros Hx.
    apply (objSetState_owed (setStateObject o s) a o) in Hx; [|done|rewrite <- Ha; by apply getState_set]. case_bool_decide; [done|]. eapply owed_same; [by symmetry|done].
  - pose proof (createObject_calm a s Hw) as [_ Hc]. destruct (createObject_undone a s Hw) as ((Hw' & _) & Ho' & Hnew).
    destruct (created_at a s Hw) as (_ & _ & _ & _ & Hn). destruct (createObject a s) as [[o ?] s']. cbn [fst snd] in *. intros Hx.
    eapply objSetState_owed in Hx; [|done|done]. subst o. case_bool_decide; [|by eapply calm_owed].
    rewrite newObject_committed in Hx by done. done.
Qed.

(** Storing a value for which the counter was adjusted. *)
Lemma SetState_refund c s s1 a k v : 0 <= c -> refund_ok c s -> wf s1 -> 0 <= sdb_refund s1 ->
  (forall b j, owed s1 b j -> owed s b j) ->
  GetCommittedState s1 a k = GetCommittedState s a k ->
  sdb_refund s + c * (owes (GetCommittedState s a k) v - owes (GetCommittedState s a k) (GetState s a k)) <= sdb_refund s1 ->
  forall s2, s2 = SetState a k v s1 -> sdb_refund s2 = sdb_refund s1 -> refund_ok c s2.
Proof.
  intros Hc [_ Hx] Hw1 H0 Hsub Hcom Hle s2 -> Hr. split; [by rewrite Hr|]. intros X HX. rewrite Hr. set (w := owes _ v) in *. set (w0 := owes _ (GetState s a k)) in *.
  assert (forall p, p ∈ X -> p <> (a, k) -> owed s p.1 p.2) as Helse.
  { intros [b j] Hp Hne. apply HX in Hp. apply SetState_owed in Hp; [|done]. cbn in *. rewrite bool_decide_eq_false_2 in Hp by done. by apply Hsub. }
  assert (w0 = 1 <-> owed s a k) as Hw0.
  { unfold w0, owes, owed. destruct (Z.eqb_spec (GetCommittedState s a k) 0), (Z.eqb_spec (GetState s a k) 0); cbn; naive_solver. }
  assert (0 <= w <= 1 /\ 0 <= w0 <= 1) as Hb by (unfold w, w0, owes; repeat case_match; lia).
  assert (bool_decide ((a, k) ∈ X) = true -> w = 1) as Hin.
  { intros Hin%bool_decide_eq_true. apply HX in Hin. apply SetState_owed in Hin; [|done]. cbn in Hin. by rewrite bool_decide_eq_true_2, Hcom in Hin by done. }
  assert (Z.of_nat (size X) <= Z.of_nat (size (X ∖ {[(a, k)]})) + (if bool_decide ((a, k) ∈ X) then 1 else 0)) as Hsize.
  { case_bool_decide as Hm; [rewrite size_difference, size_singleton by set_solver; lia|]. rewrite Z.add_0_r. apply Nat2Z.inj_le, subseteq_size. set_solver. }
  destruct (decide (w0 = 1)) as [He|He].
  - specialize (Hx ({[(a, k)]} ∪ X ∖ {[(a, k)]})). rewrite size_union, size_singleton in Hx by set_solver.
    assert (c * Z.of_nat (1 + size (X ∖ {[(a, k)]})) <= sdb_refund s) as Hall.
    { apply Hx. intros p [->%elem_of_singleton|[Hp Hne]%elem_of_difference]%elem_of_union; [by apply Hw0|apply Helse; [done|set_solver]]. }
    case_bool_decide; nia.
  - specialize (Hx (X ∖ {[(a, k)]})). assert (c * Z.of_nat (size (X ∖ {[(a, k)]})) <= sdb_refund s) as Hall.
    { apply Hx. intros p [Hp Hne]%elem_of_difference. apply Helse; [done|set_solver]. }
    case_bool_decide; nia.
Qed.

Lemma SetState_counter a k v s : wf s -> sdb_refund (SetState a k v s) = sdb_refund s.
Proof.
  intros Hw. unfold SetState, withObject, getOrNewStateObject. destruct (created_at a s Hw) as (Hr & _).
  destruct (getStateObject s a) as [o|]; [|destruct (createObject a s) as [[o ?] s']; cbn in Hr; rewrite <- Hr];
    unfold obj_SetState; destruct (obj_GetState _ o k); by case_match.
Qed.

Lemma objSetState_code s a o k v : wf s -> getStateObject s a = Some o -> code_ok s -> code_ok (obj_SetState k v o s).
Proof.
  intros Hw Ho Hc. destruct (object_at s a o Hw Ho) as [Ha Hd]. unfold obj_SetState. destruct (obj_GetState s o k) as [prev o1] eqn:Hg.
  destruct (obj_GetState_keeps s o k o1) as (Ha1 & Hd1 & Hsim); [by rewrite Hg|]. destruct (_ =? v); [done|].
  apply getStateObject_some in Ho as [Ho _]. intros b x. unfold change. rewrite getDeleted_set. case_bool_decide.
  - intros [= <-]. unfold code_fine. change (obj_Code _ _) with (obj_Code s o1). rewrite (sim_code _ _ _ _ Hsim). cbn. rewrite (sim_data _ _ _ _ Hsim). by eapply Hc.
  - intros Hx. by apply (Hc b x).
Qed.
Lemma SetState_code a k v s : wf s -> code_ok s -> code_ok (SetState a k v s).
Proof.
  intros Hw Hc. unfold SetState, withObject, getOrNewStateObject. destruct (getStateObject s a) as [o|] eqn:Ho.
  - destruct (object_at s a o Hw Ho) as [Ha Hd]. pose proof (keep_same s a o Hw Ho) as Hk. 
    apply (objSetState_code _ a); [by eapply wf_same; [symmetry|]|rewrite <- Ha; by apply getState_set|eapply code_same; [by symmetry|done]].
  - pose proof (createObject_calm a s Hw) as [_ Hcalm]. destruct (createObject_undone a s Hw) as ((Hw' & _) & Ho' & _).
    destruct (createObject a s) as [[o ?] s']. cbn [fst snd] in *. apply (objSetState_code _ a); [done|done|].
    intros b x Hx. apply (Hcalm b x Hx). apply Hc.
Qed.

(** The whole of a store: the slot is marked, the counter is adjusted, the value is
    written. *)
Lemma SetState_advances c s s1 a k v : 0 <= c -> state_ok c s -> grows s s1 -> code_ok s1 -> 0 <= sdb_refund s1 ->
  (forall b j, owed s1 b j -> owed s b j) -> GetCommittedState s1 a k = GetCommittedState s a k ->
  sdb_refund s + c * (owes (GetCommittedState s a k) v - owes (GetCommittedState s a k) (GetState s a k)) <= sdb_refund s1 ->
  grows s (SetState a k v s1) /\ state_ok c (SetState a k v s1) /\ sdb_refund (SetState a k v s1) = sdb_refund s1.
Proof.
  intros Hc0 Hs Hg Hc H0 Hsub Hcom Hle. assert (sane s1) as Hs1 by (eapply grows_sane; [apply Hs|done]). pose proof (proj1 Hs1) as Hw1.
  assert (grows s1 (SetState a k v s1)) as Hg2 by (by apply (plain_grows (OpSetState a k v))).
  pose proof (SetState_counter a k v s1 Hw1) as Hr. split_and!; [by eapply grows_trans| |done]. split.
  - by eapply grows_sane.
  - by apply SetState_code.
  - eapply (SetState_refund c s s1 a k v); [done|apply Hs|done..].
Qed.
End invariant.

Section balances.
Context `{Crypto}.

(** The balance of [a] becomes [y], and no other one changes. *)
Definition sets (s s' : StateDB) (a : Address) (y : Z) : Prop := forall b, GetBalance s' b = if b =? a then y else GetBalance s b.

Lemma sets_refl s a : sets s s a (GetBalance s a).
Proof. intros b. by destruct (Z.eqb_spec b a) as [->|]. Qed.
Lemma sets_below s s' a : same_below s s' -> sets s s' a (GetBalance s a).
Proof.
  intros (Hd & _ & Ho) b. assert (GetBalance s' b = GetBalance s b) as ->.
  { unfold GetBalance, read, getStateObject, getDeletedStateObject. by rewrite Ho, Hd. }
  by destruct (Z.eqb_spec b a) as [->|].
Qed.
Lemma sets_object s s' o : same_below (setStateObject o s) s' -> so_deleted o = false -> sets s s' (so_address o) (sa_Balance (so_data o)).
Proof.
  intros Hb Hd b. rewrite (sets_below _ _ b Hb b), Z.eqb_refl. unfold GetBalance, read, getStateObject. rewrite getDeleted_set.
  destruct (Z.eqb_spec b (so_address o)); [|by rewrite bool_decide_eq_false_2]. rewrite bool_decide_eq_true_2 by done. by rewrite Hd.
Qed.
Lemma balance_at s a o : getStateObject s a = Some o -> GetBalance s a = sa_Balance (so_data o).
Proof. unfold GetBalance, read. by intros ->. Qed.

Lemma createObject_sets a s : wf s -> sets s (createObject a s).2 a 0.
Proof.
  intros Hw b. destruct (created_at a s Hw) as (_ & _ & _ & Hb & _). destruct (createObject_undone a s Hw) as (_ & Ho & Hn).
  destruct (Z.eqb_spec b a) as [->|Hba].
  - rewrite (balance_at _ _ _ Ho), Hn. done.
  - unfold GetBalance, read, getStateObject. by rewrite (Hb b Hba).
Qed.
Lemma CreateAccount_sets a s : wf s -> sets s (CreateAccount a s) a (GetBalance s a).
Proof.
  intros Hw. pose proof (createObject_sets a s Hw) as Hc. unfold CreateAccount. unfold createObject in *. unfold GetBalance at 1, read, getStateObject.
  destruct (getDeletedStateObject s a) as [prev|] eqn:Hp; cbn [fst snd] in *; [|done]. destruct (so_deleted prev); [done|].
  set (o' := obj_setBalance _ _). intros b. rewrite (sets_object _ _ o' ltac:(done) eq_refl b). change (so_address o') with a.
  rewrite (Hc b). by destruct (b =? a).
Qed.

(** An operation on an object that is created when it does not exist. *)
Lemma withObject_sets a f g s :
  (forall s o, wf s -> getStateObject s a = Some o -> sets s (f o s) a (g (sa_Balance (so_data o)))) -> wf s -> sets s (withObject a f s) a (g (GetBalance s a)).
Proof.
  intros Hf Hw b. unfold withObject, getOrNewStateObject. destruct (getStateObject s a) as [o|] eqn:Ho.
  - pose proof (keep_same s a o Hw Ho) as Hk. assert (wf (setStateObject o s)) as Hw' by (eapply wf_same; [by symmetry|done]).
    destruct (object_at s a o Hw Ho) as [Ha Hd]. rewrite (Hf (setStateObject o s) o Hw'), (balance_at s a o Ho); [|rewrite <- Ha; by apply getState_set].
    rewrite (sets_object s _ o ltac:(done) Hd b), Ha. by destruct (b =? a).
  - pose proof (createObject_sets a s Hw) as Hc. destruct (createObject_undone a s Hw) as ((Hw' & _) & Ho' & Hn).
    destruct (createObject a s) as [[o p] s']. cbn [fst snd] in *. rewrite (Hf s' o Hw' Ho' b), (Hc b), Hn. unfold GetBalance at 2, read. rewrite Ho.
    by destruct (b =? a).
Qed.
(** Operations on objects that leave the balance alone. *)
Definition id_sets (f : stateObject -> StateDB -> StateDB) : Prop :=
  forall s a o, wf s -> getStateObject s a = Some o -> sets s (f o s) a (sa_Balance (so_data o)).
Lemma keep_sets s a o : getStateObject s a = Some o -> sets s s a (sa_Balance (so_data o)).
Proof. intros Ho. rewrite <- (balance_at _ _ _ Ho). apply sets_refl. Qed.
Lemma touch_sets s a o : getStateObject s a = Some o -> sets s (touch o s) a (sa_Balance (so_data o)).
Proof. intros Ho. rewrite <- (balance_at _ _ _ Ho). apply sets_below. unfold touch. by case_match. Qed.
Lemma change_sets e s a o o' : wf s -> getStateObject s a = Some o -> so_address o' = so_address o -> so_deleted o' = so_deleted o ->
  sets s (change e o' s) a (sa_Balance (so_data o')).
Proof. intros Hw Ho Ha Hd. destruct (object_at s a o Hw Ho) as [Hao Hdo]. rewrite <- Hao, <- Ha. apply sets_object; [done|congruence]. Qed.

(** What a balance is after an operation. *)
Definition balanceAfter (op : StateOp) (s : StateDB) (b : Address) : Z :=
  let x := GetBalance s b in
  match op with
  | OpAddBalance a y => if (b =? a) && negb (y =? 0) then (x + y) mod 2 ^ 256 else x
  | OpSubBalance a y => if (b =? a) && negb (y =? 0) then (x - y) mod 2 ^ 256 else x
  | OpSelfDestruct a => if b =? a then 0 else x
  | OpSelfdestruct6780 a => if (b =? a) && read s a false so_created then 0 else x
  | _ => x
  end.

Lemma SelfDestruct_sets a s : wf s -> sets s (SelfDestruct a s) a 0.
Proof.
  intros Hw. unfold SelfDestruct. destruct (getStateObject s a) as [o|] eqn:Ho; [|].
  - by eapply (change_sets _ s a o (obj_setBalance 0 (set_so_selfDestructed true o))).
  - intros b. destruct (Z.eqb_spec b a) as [->|]; [|done]. unfold GetBalance, read. by rewrite Ho.
Qed.

Lemma flag_sets a f s : f ∈ [obj_SetBlacklisted; obj_ClearBlacklisted; obj_SetAuthorized; obj_ClearAuthorized] -> wf s -> sets s (withObject a f s) a (GetBalance s a).
Proof.
  intros Hf. apply (withObject_sets a f (fun x => x)). clear s. intros s o Hw Ho. rewrite !elem_of_cons in Hf.
  destruct Hf as [->|[->|[->|[->|[]%elem_of_nil]]]];
    unfold obj_SetBlacklisted, obj_ClearBlacklisted, obj_SetAuthorized, obj_ClearAuthorized;
    repeat case_match; first [by apply keep_sets|by apply touch_sets|by eapply (change_sets _ s a o (obj_setExtra _ o))].
Qed.
Lemma SetState_sets a k v s : wf s -> sets s (SetState a k v s) a (GetBalance s a).
Proof.
  apply (withObject_sets a _ (fun x => x)). clear s. intros s o Hw Ho. unfold obj_SetState. destruct (obj_GetState s o k) as [prev o1] eqn:Hg.
  destruct (obj_GetState_keeps s o k o1) as (Ha1 & Hd1 & Hsim); [by rewrite Hg|]. destruct (_ =? v); [by apply keep_sets|].
  rewrite <- (sim_data _ _ _ _ Hsim). eapply (change_sets _ s a o (obj_setState k v o1)); [done|done| |done]. done.
Qed.

Lemma keeps_balance s s' a b : sets s s' a (GetBalance s a) -> GetBalance s' b = GetBalance s b.
Proof. intros Hs. rewrite (Hs b). by destruct (Z.eqb_spec b a) as [->|]. Qed.

Lemma exec_balance op s s' b : (forall id, op <> OpRevert id) -> wf s -> exec op s = Some s' -> GetBalance s' b = balanceAfter op s b.
Proof.
  intros Hop Hw. destruct op; cbn [exec balanceAfter]; try (intros [= <-]).
  - by eapply keeps_balance, CreateAccount_sets.
  - unfold SubBalance. rewrite (withObject_sets a _ (fun y => if negb (x =? 0) then (y - x) mod 2 ^ 256 else y)); [|clear; intros s o Hw Ho|done].
    + destruct (Z.eqb_spec b a) as [->|]; done.
    + unfold obj_SubBalance. destruct (x =? 0); [by apply keep_sets|]. by eapply (change_sets _ s a o (obj_setBalance _ o)).
  - unfold AddBalance. rewrite (withObject_sets a _ (fun y => if negb (x =? 0) then (y + x) mod 2 ^ 256 else y)); [|clear; intros s o Hw Ho|done].
    + destruct (Z.eqb_spec b a) as [->|]; done.
    + unfold obj_AddBalance. destruct (x =? 0); [destruct (obj_empty o); [by apply touch_sets|by apply keep_sets]|]. by eapply (change_sets _ s a o (obj_setBalance _ o)).
  - eapply keeps_balance, (withObject_sets a _ (fun x => x)); [|done]. intros. by eapply (change_sets _ _ _ _ (obj_setNonce _ _)).
  - eapply keeps_balance, (withObject_sets a _ (fun x => x)); [|done]. intros. by eapply (change_sets _ _ _ _ (obj_setCode _ _ _)).
  - by eapply keeps_balance, SetState_sets.
  - unfold SetTransientState. by case_match.
  - apply SelfDestruct_sets. done.
  - unfold Selfdestruct6780, read. destruct (getStateObject s a) as [o|] eqn:Ho; [|by rewrite andb_false_r].
    destruct (so_created o); [|by rewrite andb_false_r]. rewrite andb_true_r. by apply SelfDestruct_sets.
  - eapply keeps_balance, flag_sets; [in_list|done].
  - eapply keeps_balance, flag_sets; [in_list|done].
  - eapply keeps_balance, flag_sets; [in_list|done].
  - eapply keeps_balance, flag_sets; [in_list|done].
  - done.
  - unfold SubRefund. case_match; [done|]. by intros [= <-].
  - unfold AddAddressToAccessList. by destruct (AddAddress _ _) as [[] ?].
  - unfold AddSlotToAccessList. by destruct (AddSlot _ _ _) as [[[] []] ?].
  - done.
  - unfold AddPreimage. by case_match.
  - done.
  - by destruct (Hop id).
Qed.

(** * Logs *)

Definition txLogs (s : StateDB) : list Log := default [] (sdb_logs s !! sdb_thash s).
(** A log as it is kept. *)
Definition stamped (l : Log) (s : StateDB) : Log :=
  mkLog (log_Address l) (log_Topics l) (log_Data l) (log_BlockNumber l) (sdb_thash s) (sdb_txIndex s) (sdb_logSize s).
Definition logsAfter (op : StateOp) (s : StateDB) : list Log := txLogs s ++ (match op with OpAddLog l => [stamped l s] | _ => [] end).

Notation logs s := (sdb_logs s, sdb_thash s).
Lemma logs_tx s s' : logs s' = logs s -> txLogs s' = txLogs s.
Proof. intros [= Hl Ht]. unfold txLogs. by rewrite Hl, Ht. Qed.
Lemma withObject_logs a f s : (forall o s, logs (f o s) = logs s) -> logs (withObject a f s) = logs s.
Proof.
  intros Hf. unfold withObject, getOrNewStateObject, createObject. destruct (getStateObject s a); [by rewrite Hf|].
  destruct (getDeletedStateObject s a); rewrite Hf; [|done]. by case_match.
Qed.
Lemma touch_logs o s : logs (touch o s) = logs s.
Proof. unfold touch. by case_match. Qed.

Lemma quiet_logs op s s' : (forall id, op <> OpRevert id) -> (forall l, op <> OpAddLog l) -> exec op s = Some s' -> logs s' = logs s.
Proof.
  intros Hr Hl. destruct op; cbn [exec]; try (intros [= <-]); try (apply withObject_logs; intros o t); try done.
  - unfold CreateAccount, createObject. destruct (getDeletedStateObject s a); [|done]. by repeat case_match.
  - unfold obj_SubBalance. by case_match.
  - unfold obj_AddBalance. repeat case_match; try done. apply touch_logs.
  - unfold obj_SetState. destruct (obj_GetState t o k). by case_match.
  - unfold SetTransientState. by case_match.
  - unfold SelfDestruct. by case_match.
  - unfold Selfdestruct6780, SelfDestruct. by repeat case_match.
  - unfold obj_SetBlacklisted. by case_match.
  - unfold obj_ClearBlacklisted. repeat case_match; try done. apply touch_logs.
  - unfold obj_SetAuthorized. by case_match.
  - unfold obj_ClearAuthorized. repeat case_match; try done. apply touch_logs.
  - unfold SubRefund. case_match; [done|]. by intros [= <-].
  - unfold AddAddressToAccessList. destruct (AddAddress _ _) as [[] ?]; done.
  - unfold AddSlotToAccessList. destruct (AddSlot _ _ _) as [[[] []] ?]; done.
  - by destruct (Hl l).
  - unfold AddPreimage. by case_match.
  - by destruct (Hr id).
Qed.
Lemma exec_logs op s s' : (forall id, op <> OpRevert id) -> exec op s = Some s' -> txLogs s' = logsAfter op s.
Proof.
  intros Hr Hx. assert ((exists l, op = OpAddLog l) \/ forall l, op <> OpAddLog l) as [(l & ->)|Hl] by (destruct op; first [by right|left; by eexists]).
  - injection Hx as <-. unfold AddLog, logsAfter, txLogs. cbn. by rewrite lookup_insert_eq.
  - rewrite (logs_tx s s'); [|by apply (quiet_logs op)]. unfold logsAfter. destruct op; try by rewrite app_nil_r. by destruct (Hl l).
Qed.
End balances.
