(* ===== verification/VmAnalysis.v ===== *)
(** Which bytes of a contract are instructions (src/core/vm/analysis.go): the bit
    vector that the analysis computes, and that it marks exactly the data of the
    PUSH instructions. *)
From S2P Require Import Prelude Validators Messages Rlp.

Definition PUSH1 : Z := 0x60.
Definition PUSH32 : Z := 0x7f.

(** * The bit vector *)

Definition set2BitsMask : Z := 0x3.
Definition set3BitsMask : Z := 0x7.
Definition set4BitsMask : Z := 0xf.
Definition set5BitsMask : Z := 0x1f.
Definition set6BitsMask : Z := 0x3f.
Definition set7BitsMask : Z := 0x7f.

(** One bit per byte of the code, eight in a byte. *)
Abbreviation bitvec := (list Z).

Definition u16 (x : Z) : Z := x mod 2 ^ 16.
Definition int8 (x : Z) : Z := (x + 2 ^ 7) mod 2 ^ 8 - 2 ^ 7.

(** [bits[i]] and [bits[i] = x]: [None] stands for an index out of range. *)
Definition bits_at (bits : bitvec) (i : Z) : option Z := if i <? 0 then None else bits !! Z.to_nat i.
Definition bits_store (bits : bitvec) (i x : Z) : option bitvec := _ ← bits_at bits i; Some (<[Z.to_nat i := x]> bits).
Definition bits_or (bits : bitvec) (i x : Z) : option bitvec := b ← bits_at bits i; bits_store bits i (Z.lor b x).

Definition set1 (pos : Z) (bits : bitvec) : option bitvec := bits_or bits (pos / 8) (Z.shiftl 1 (pos mod 8)).
Definition setN (flag pos : Z) (bits : bitvec) : option bitvec :=
  let a := u16 (Z.shiftl flag (pos mod 8)) in
  bits ← bits_or bits (pos / 8) (u8 a);
  let b := u8 (Z.shiftr a 8) in
  if negb (b =? 0) then bits_store bits (pos / 8 + 1) b else Some bits.
(** [^a] of a byte is [255 - a]. *)
Definition set8 (pos : Z) (bits : bitvec) : option bitvec :=
  let a := u8 (Z.shiftl 0xff (pos mod 8)) in
  bits ← bits_or bits (pos / 8) a;
  bits_store bits (pos / 8 + 1) (255 - a).
Definition set16 (pos : Z) (bits : bitvec) : option bitvec :=
  let a := u8 (Z.shiftl 0xff (pos mod 8)) in
  bits ← bits_or bits (pos / 8) a;
  bits ← bits_store bits (pos / 8 + 1) 0xff;
  bits_store bits (pos / 8 + 2) (255 - a).

Definition codeSegment (bits : bitvec) (pos : Z) : option bool :=
  b ← bits_at bits (pos / 8); Some (Z.land (Z.shiftr b (pos mod 8)) 1 =? 0).

(** * The analysis *)

(** The loops over [numbits]: the numbers of bits fit a byte, two rounds of sixteen
    and three of eight are more than enough. *)
Fixpoint set16s (fuel : nat) (numbits pc : Z) (bits : bitvec) : option (Z * Z * bitvec) :=
  match fuel with
  | O => Some (numbits, pc, bits)
  | S fuel => if 16 <=? numbits then bits ← set16 pc bits; set16s fuel (numbits - 16) (pc + 16) bits else Some (numbits, pc, bits)
  end.
Fixpoint set8s (fuel : nat) (numbits pc : Z) (bits : bitvec) : option (Z * Z * bitvec) :=
  match fuel with
  | O => Some (numbits, pc, bits)
  | S fuel => if 8 <=? numbits then bits ← set8 pc bits; set8s fuel (numbits - 8) (pc + 8) bits else Some (numbits, pc, bits)
  end.

(** The [switch] on what is left. *)
Definition setRest (numbits pc : Z) (bits : bitvec) : option (Z * bitvec) :=
  if numbits =? 1 then bits ← set1 pc bits; Some (pc + 1, bits)
  else if numbits =? 2 then bits ← setN set2BitsMask pc bits; Some (pc + 2, bits)
  else if numbits =? 3 then bits ← setN set3BitsMask pc bits; Some (pc + 3, bits)
  else if numbits =? 4 then bits ← setN set4BitsMask pc bits; Some (pc + 4, bits)
  else if numbits =? 5 then bits ← setN set5BitsMask pc bits; Some (pc + 5, bits)
  else if numbits =? 6 then bits ← setN set6BitsMask pc bits; Some (pc + 6, bits)
  else if numbits =? 7 then bits ← setN set7BitsMask pc bits; Some (pc + 7, bits)
  else Some (pc, bits).

(** The body of the loop at [pc]: where the next instruction starts. *)
Definition bitmapStep (code : bytes) (pc : Z) (bits : bitvec) : option (Z * bitvec) :=
  op ← code !! Z.to_nat pc;
  let pc := pc + 1 in
  if int8 op <? int8 PUSH1 then Some (pc, bits)
  else
    let numbits := u8 (u8 (op - PUSH1) + 1) in
    '(numbits, pc, bits) ← (if 8 <=? numbits then
        '(numbits, pc, bits) ← set16s 16 numbits pc bits; set8s 32 numbits pc bits
      else Some (numbits, pc, bits));
    setRest numbits pc bits.

(** Every round moves forward, so the length of the code bounds the rounds. *)
Fixpoint bitmapLoop (fuel : nat) (code : bytes) (pc : Z) (bits : bitvec) : option bitvec :=
  match fuel with
  | O => Some bits
  | S fuel =>
      if pc <? Z.of_nat (length code) then '(pc, bits) ← bitmapStep code pc bits; bitmapLoop fuel code pc bits
      else Some bits
  end.
Definition codeBitmapInternal (code : bytes) (bits : bitvec) : option bitvec := bitmapLoop (length code) code 0 bits.
Definition codeBitmap (code : bytes) : option bitvec := codeBitmapInternal code (replicate (length code / 8 + 1 + 4) 0).

(** * What the analysis is for *)

(** How many bytes of data follow an instruction. *)
Definition pushData (op : Z) : Z := if (PUSH1 <=? op) && (op <=? PUSH32) then op - PUSH1 + 1 else 0.

(** Where the instructions of a program are. *)
Inductive instruction_at (code : bytes) : Z -> Prop :=
  | at_start : instruction_at code 0
  | at_next pc op : instruction_at code pc -> code !! Z.to_nat pc = Some op -> instruction_at code (pc + 1 + pushData op).

(** ** Bits *)

Definition getbit (bits : bitvec) (j : Z) : bool := Z.testbit (default 0 (bits !! Z.to_nat (j / 8))) (j mod 8).
Definition is_bytes (bits : bitvec) : Prop := Forall (fun b => 0 <= b < 256) bits.

Lemma bits_or_spec bits i x : 0 <= i < Z.of_nat (length bits) -> 0 <= x < 256 -> is_bytes bits ->
  exists bits', bits_or bits i x = Some bits' /\ length bits' = length bits /\ is_bytes bits' /\
    forall j, 0 <= j -> getbit bits' j = getbit bits j || (j / 8 =? i) && Z.testbit x (j mod 8).
Proof.
  intros Hi Hx Hb. destruct (lookup_lt_is_Some_2 bits (Z.to_nat i)) as [b Hl]; [lia|].
  assert (bits_at bits i = Some b) as Ha by (unfold bits_at; destruct (Z.ltb_spec i 0); [lia|done]).
  pose proof (Forall_lookup_1 _ _ _ _ Hb Hl) as Hbb. cbn in Hbb.
  unfold bits_or, bits_store. rewrite Ha. cbn. eexists. split; [reflexivity|]. rewrite length_insert. split_and!; [done| |].
  - apply Forall_insert; [done|]. split; [apply Z.lor_nonneg; lia|].
    apply Z.log2_lt_cancel. rewrite Z.log2_lor by lia. change (Z.log2 256) with 8. 
    pose proof (Z.log2_le_mono b 255). pose proof (Z.log2_le_mono x 255). change (Z.log2 255) with 7 in *. lia.
  - intros j Hj. unfold getbit. destruct (Z.eqb_spec (j / 8) i) as [->|Hn].
    + rewrite list_lookup_insert_eq by lia. rewrite Hl. cbn. apply Z.lor_spec.
    + rewrite list_lookup_insert_ne; [by rewrite orb_false_r|]. pose proof (Z.div_pos j 8). lia.
Qed.

Lemma bits_store_spec bits i x : 0 <= i < Z.of_nat (length bits) -> 0 <= x < 256 -> is_bytes bits ->
  exists bits', bits_store bits i x = Some bits' /\ length bits' = length bits /\ is_bytes bits' /\
    forall j, 0 <= j -> getbit bits' j = if j / 8 =? i then Z.testbit x (j mod 8) else getbit bits j.
Proof.
  intros Hi Hx Hb. destruct (lookup_lt_is_Some_2 bits (Z.to_nat i)) as [b Hl]; [lia|].
  assert (bits_at bits i = Some b) as Ha by (unfold bits_at; destruct (Z.ltb_spec i 0); [lia|done]).
  unfold bits_store. rewrite Ha. cbn. eexists. split; [reflexivity|]. rewrite length_insert. split_and!; [done|by apply Forall_insert|].
  intros j Hj. unfold getbit. destruct (Z.eqb_spec (j / 8) i) as [->|Hn].
  - by rewrite list_lookup_insert_eq by lia.
  - rewrite list_lookup_insert_ne; [done|]. pose proof (Z.div_pos j 8). lia.
Qed.

Lemma codeSegment_spec bits pos : 0 <= pos -> pos / 8 < Z.of_nat (length bits) ->
  codeSegment bits pos = Some (negb (getbit bits pos)).
Proof.
  intros Hp Hl. pose proof (Z.div_pos pos 8 Hp ltac:(lia)). destruct (lookup_lt_is_Some_2 bits (Z.to_nat (pos / 8))) as [b Hb]; [lia|].
  unfold codeSegment, bits_at, getbit. destruct (Z.ltb_spec (pos / 8) 0); [lia|]. rewrite Hb. cbn.
  pose proof (Z.mod_pos_bound pos 8 ltac:(lia)). f_equal. rewrite Z.testbit_odd. change 1 with (Z.ones 1) at 1. rewrite Z.land_ones by lia. change (2 ^ 1) with 2.
  rewrite Zmod_odd. by destruct (Z.odd _).
Qed.

(** ** Marking a run of bits *)

(** The bits from [pos] on were clear, and the next [n] are set now. *)
Definition marks (pos n : Z) (bits bits' : bitvec) : Prop :=
  length bits' = length bits /\ is_bytes bits' /\
  forall j, 0 <= j -> getbit bits' j = (getbit bits j || (pos <=? j) && (j <? pos + n)).
Definition clear_from (pos : Z) (bits : bitvec) : Prop := forall j, pos <= j -> getbit bits j = false.

(** A mask of [n] ones, shifted to its place within two bytes. *)
Lemma mask_low n r k : 0 <= n <= 8 -> 0 <= r < 8 -> 0 <= k < 8 ->
  Z.testbit (u8 (Z.shiftl (Z.ones n) r)) k = (r <=? k) && (k <? r + n).
Proof.
  intros Hn Hr Hk. unfold u8. rewrite Z.mod_pow2_bits_low, Z.shiftl_spec by lia.
  destruct (Z.leb_spec r k); cbn; [|apply Z.testbit_neg_r; lia]. destruct (Z.ltb_spec k (r + n)).
  - apply Z.ones_spec_low; lia.
  - apply Z.ones_spec_high; lia.
Qed.
Lemma mask_high n r k : 0 <= n <= 8 -> 0 <= r < 8 -> 0 <= k < 8 ->
  Z.testbit (u8 (Z.shiftr (u16 (Z.shiftl (Z.ones n) r)) 8)) k = (k + 8 <? r + n).
Proof.
  intros Hn Hr Hk. unfold u8, u16. rewrite Z.mod_pow2_bits_low, Z.shiftr_spec, Z.mod_pow2_bits_low, Z.shiftl_spec by lia.
  destruct (Z.ltb_spec (k + 8) (r + n)); [apply Z.ones_spec_low; lia|apply Z.ones_spec_high; lia].
Qed.
Lemma u8_u16 x : u8 (u16 x) = u8 x.
Proof. unfold u8, u16. symmetry. apply Znumtheory.Zmod_div_mod; [lia|lia|]. by exists (2 ^ 8). Qed.
Lemma mask_inverse r k : 0 <= r < 8 -> 0 <= k < 8 -> Z.testbit (255 - u8 (Z.shiftl 255 r)) k = (k <? r).
Proof.
  intros Hr Hk. change 255 with (Z.ones 8). assert (forall x, 0 <= x < 256 -> Z.testbit (Z.ones 8 - x) k = negb (Z.testbit x k)) as Hc.
  { intros x Hx. replace (Z.ones 8 - x) with (Z.lxor (Z.ones 8) x).
    - rewrite Z.lxor_spec, Z.ones_spec_low by lia. by destruct (Z.testbit x k).
    - assert (Z.ldiff x (Z.ones 8) = 0) as Hd by (apply Z.ldiff_ones_r_low; [lia|]; destruct (Z.eq_dec x 0) as [->|]; [cbn; lia|apply Z.log2_lt_pow2; lia]).
      rewrite Z.sub_nocarry_ldiff by done. apply Z.bits_inj'. intros m Hm. rewrite Z.lxor_spec, Z.ldiff_spec.
      assert (Z.testbit (Z.ldiff x (Z.ones 8)) m = false) as Hm' by (rewrite Hd; apply Z.bits_0). rewrite Z.ldiff_spec in Hm'.
      destruct (Z.testbit x m), (Z.testbit (Z.ones 8) m); done. }
  rewrite Hc by (unfold u8; apply Z.mod_pos_bound; lia). rewrite mask_low by lia.
  destruct (Z.leb_spec r k), (Z.ltb_spec k r), (Z.ltb_spec k (r + 8)); cbn; try done; lia.
Qed.

Lemma u8_byte x : 0 <= u8 x < 256.
Proof. apply (Z.mod_pos_bound x (2 ^ 8)). lia. Qed.

(** Reads a position as byte and bit. *)
Ltac bit_position j :=
  pose proof (Z.div_mod j 8 ltac:(lia)); pose proof (Z.mod_pos_bound j 8 ltac:(lia)).

Lemma set1_marks pos bits : 0 <= pos -> pos / 8 < Z.of_nat (length bits) -> is_bytes bits ->
  exists bits', set1 pos bits = Some bits' /\ marks pos 1 bits bits'.
Proof.
  intros Hp Hl Hb. bit_position pos. pose proof (Z.div_pos pos 8 Hp ltac:(lia)).
  assert (Z.shiftl 1 (pos mod 8) = u8 (Z.shiftl (Z.ones 1) (pos mod 8))) as Hs.
  { unfold u8. change (Z.ones 1) with 1. rewrite Z.shiftl_1_l, (Z.mod_small (2 ^ (pos mod 8))); [done|]. split; [lia|]. apply Z.pow_lt_mono_r; lia. }
  unfold set1. rewrite Hs. destruct (bits_or_spec bits (pos / 8) (u8 (Z.shiftl (Z.ones 1) (pos mod 8)))) as (b' & He & Hl' & Hb' & Hg); [lia|apply u8_byte|done|].
  exists b'. split; [done|]. split_and!; [done|done|]. intros j Hj. rewrite Hg by done. f_equal. bit_position j.
  rewrite mask_low by lia. destruct (Z.eqb_spec (j / 8) (pos / 8)); cbn; lia.
Qed.

Lemma setN_marks n pos bits : 2 <= n <= 7 -> 0 <= pos -> pos / 8 + 1 < Z.of_nat (length bits) -> is_bytes bits -> clear_from pos bits ->
  exists bits', setN (Z.ones n) pos bits = Some bits' /\ marks pos n bits bits'.
Proof.
  intros Hn Hp Hl Hb Hc. bit_position pos. pose proof (Z.div_pos pos 8 Hp ltac:(lia)). unfold setN. rewrite u8_u16.
  destruct (bits_or_spec bits (pos / 8) (u8 (Z.shiftl (Z.ones n) (pos mod 8)))) as (b1 & -> & Hl1 & Hb1 & Hg1); [lia|apply u8_byte|done|]. cbn [mbind option_bind].
  set (h := u8 (Z.shiftr _ 8)). destruct (Z.eqb_spec h 0) as [Hh|Hh]; cbn [negb].
  - exists b1. split; [done|]. split_and!; [done|done|]. intros j Hj. rewrite Hg1 by done. bit_position j. rewrite mask_low by lia.
    assert (j / 8 = pos / 8 + 1 -> (j mod 8 + 8 <? pos mod 8 + n) = false) as Hhi.
    { intros _. rewrite <- mask_high by lia. fold h. rewrite Hh. apply Z.bits_0. }
    f_equal. destruct (Z.eqb_spec (j / 8) (pos / 8)); cbn; [lia|]. destruct (Z.eq_dec (j / 8) (pos / 8 + 1)) as [He|]; [specialize (Hhi He)|]; lia.
  - destruct (bits_store_spec b1 (pos / 8 + 1) h) as (b2 & -> & Hl2 & Hb2 & Hg2); [lia|apply u8_byte|done|].
    exists b2. split; [done|]. split_and!; [lia|done|]. intros j Hj. rewrite Hg2, Hg1 by done. bit_position j. rewrite mask_low by lia.
    destruct (Z.eqb_spec (j / 8) (pos / 8 + 1)) as [He|He].
    + unfold h. rewrite mask_high, Hc by lia. cbn. lia.
    + f_equal. destruct (Z.eqb_spec (j / 8) (pos / 8)); cbn; lia.
Qed.

Lemma set8_marks pos bits : 0 <= pos -> pos / 8 + 1 < Z.of_nat (length bits) -> is_bytes bits -> clear_from pos bits ->
  exists bits', set8 pos bits = Some bits' /\ marks pos 8 bits bits'.
Proof.
  intros Hp Hl Hb Hc. bit_position pos. pose proof (Z.div_pos pos 8 Hp ltac:(lia)). unfold set8.
  pose proof (u8_byte (Z.shiftl 255 (pos mod 8))).
  destruct (bits_or_spec bits (pos / 8) (u8 (Z.shiftl 255 (pos mod 8)))) as (b1 & -> & Hl1 & Hb1 & Hg1); [lia|done|done|]. cbn [mbind option_bind].
  destruct (bits_store_spec b1 (pos / 8 + 1) (255 - u8 (Z.shiftl 255 (pos mod 8)))) as (b2 & -> & Hl2 & Hb2 & Hg2); [lia|lia|done|].
  exists b2. split; [done|]. split_and!; [lia|done|]. intros j Hj. rewrite Hg2, Hg1 by done. bit_position j.
  pose proof (mask_low 8 (pos mod 8) (j mod 8)) as Hm. change (Z.ones 8) with 255 in Hm. rewrite Hm by lia.
  destruct (Z.eqb_spec (j / 8) (pos / 8 + 1)) as [He|He].
  - rewrite mask_inverse, Hc by lia. cbn. lia.
  - f_equal. destruct (Z.eqb_spec (j / 8) (pos / 8)); cbn; lia.
Qed.

Lemma set16_marks pos bits : 0 <= pos -> pos / 8 + 2 < Z.of_nat (length bits) -> is_bytes bits -> clear_from pos bits ->
  exists bits', set16 pos bits = Some bits' /\ marks pos 16 bits bits'.
Proof.
  intros Hp Hl Hb Hc. bit_position pos. pose proof (Z.div_pos pos 8 Hp ltac:(lia)). unfold set16.
  pose proof (u8_byte (Z.shiftl 255 (pos mod 8))).
  destruct (bits_or_spec bits (pos / 8) (u8 (Z.shiftl 255 (pos mod 8)))) as (b1 & -> & Hl1 & Hb1 & Hg1); [lia|done|done|]. cbn [mbind option_bind].
  destruct (bits_store_spec b1 (pos / 8 + 1) 255) as (b2 & -> & Hl2 & Hb2 & Hg2); [lia|lia|done|]. cbn [mbind option_bind].
  destruct (bits_store_spec b2 (pos / 8 + 2) (255 - u8 (Z.shiftl 255 (pos mod 8)))) as (b3 & -> & Hl3 & Hb3 & Hg3); [lia|lia|done|].
  exists b3. split; [done|]. split_and!; [lia|done|]. intros j Hj. rewrite Hg3, Hg2, Hg1 by done. bit_position j.
  destruct (Z.eqb_spec (j / 8) (pos / 8 + 2)) as [He|He].
  - rewrite mask_inverse, Hc by lia. cbn. lia.
  - destruct (Z.eqb_spec (j / 8) (pos / 8 + 1)) as [He'|He'].
    + change 255 with (Z.ones 8). rewrite Z.ones_spec_low, Hc by lia. cbn. lia.
    + pose proof (mask_low 8 (pos mod 8) (j mod 8)) as Hm. change (Z.ones 8) with 255 in Hm. rewrite Hm by lia. f_equal. destruct (Z.eqb_spec (j / 8) (pos / 8)); cbn; lia.
Qed.

Lemma marks_clear pos n bits bits' : 0 <= n -> 0 <= pos -> clear_from pos bits -> marks pos n bits bits' -> clear_from (pos + n) bits'.
Proof. intros Hn Hp Hc (_ & _ & Hg) j Hj. rewrite Hg, Hc by lia. cbn. lia. Qed.
Lemma marks_trans pos n m bits bits' bits'' : 0 <= n -> 0 <= m -> marks pos n bits bits' -> marks (pos + n) m bits' bits'' -> marks pos (n + m) bits bits''.
Proof.
  intros Hn Hm (Hl & _ & Hg) (Hl' & Hb' & Hg'). split_and!; [lia|done|]. intros j Hj. rewrite Hg', Hg by done.
  rewrite <- orb_assoc. f_equal. lia.
Qed.
Lemma marks_none pos bits : is_bytes bits -> marks pos 0 bits bits.
Proof. intros Hb. split_and!; [done|done|]. intros j Hj. replace (_ && _) with false by lia. by rewrite orb_false_r. Qed.

(** ** The loops *)

(** The bytes of the vector that the data of an instruction can reach. *)
Definition room (pc numbits : Z) (bits : bitvec) : Prop := pc / 8 + (numbits - 1) / 8 + 1 < Z.of_nat (length bits).

Lemma room_shift k pc numbits bits bits' : length bits' = length bits -> room pc numbits bits -> room (pc + 8 * k) (numbits - 8 * k) bits'.
Proof.
  intros Hl. unfold room. rewrite Hl. replace (pc + 8 * k) with (pc + k * 8) by lia. replace (numbits - 8 * k - 1) with (numbits - 1 + (- k) * 8) by lia.
  rewrite !Z.div_add by lia. lia.
Qed.

Lemma set16s_marks fuel numbits pc bits : 0 <= numbits < 16 * Z.of_nat (S fuel) -> 0 <= pc -> room pc numbits bits -> is_bytes bits -> clear_from pc bits ->
  exists bits', set16s fuel numbits pc bits = Some (numbits mod 16, pc + 16 * (numbits / 16), bits') /\ marks pc (16 * (numbits / 16)) bits bits'.
Proof.
  revert numbits pc bits. induction fuel as [|fuel IH]; intros numbits pc bits Hn Hp Hr Hb Hc; cbn [set16s].
  { rewrite Z.mod_small, Z.div_small by lia. exists bits. rewrite Z.mul_0_r, Z.add_0_r. split; [done|by apply marks_none]. }
  destruct (Z.leb_spec 16 numbits).
  - assert (pc / 8 + 2 < Z.of_nat (length bits)). { unfold room in Hr. pose proof (Z.div_le_lower_bound (numbits - 1) 8 1). lia. }
    destruct (set16_marks pc bits) as (b1 & -> & Hm); [done..|]. cbn [mbind option_bind].
    destruct (IH (numbits - 16) (pc + 16) b1) as (b2 & -> & Hm2); [lia|lia| | | |].
    { apply (room_shift 2 pc numbits bits); [apply Hm|done]. } { apply Hm. } { by eapply marks_clear; [| |exact Hc|]. }
    replace (numbits / 16) with ((numbits - 16) / 16 + 1) by (rewrite <- Z.div_add by lia; f_equal; lia).
    replace (numbits mod 16) with ((numbits - 16) mod 16) by (rewrite <- (Z_mod_plus_full (numbits - 16) 1 16); f_equal; lia).
    exists b2. split; [do 3 f_equal; lia|]. replace (16 * ((numbits - 16) / 16 + 1)) with (16 + 16 * ((numbits - 16) / 16)) by lia.
    pose proof (Z.div_pos (numbits - 16) 16). eapply marks_trans; [lia|lia|done|done].
  - rewrite Z.mod_small, Z.div_small by lia. exists bits. rewrite Z.mul_0_r, Z.add_0_r. split; [done|by apply marks_none].
Qed.

Lemma set8s_marks fuel numbits pc bits : 0 <= numbits < 8 * Z.of_nat (S fuel) -> 0 <= pc -> room pc numbits bits -> is_bytes bits -> clear_from pc bits ->
  exists bits', set8s fuel numbits pc bits = Some (numbits mod 8, pc + 8 * (numbits / 8), bits') /\ marks pc (8 * (numbits / 8)) bits bits'.
Proof.
  revert numbits pc bits. induction fuel as [|fuel IH]; intros numbits pc bits Hn Hp Hr Hb Hc; cbn [set8s].
  { rewrite Z.mod_small, Z.div_small by lia. exists bits. rewrite Z.mul_0_r, Z.add_0_r. split; [done|by apply marks_none]. }
  destruct (Z.leb_spec 8 numbits).
  - assert (pc / 8 + 1 < Z.of_nat (length bits)). { unfold room in Hr. pose proof (Z.div_pos (numbits - 1) 8). lia. }
    destruct (set8_marks pc bits) as (b1 & -> & Hm); [done..|]. cbn [mbind option_bind].
    destruct (IH (numbits - 8) (pc + 8) b1) as (b2 & -> & Hm2); [lia|lia| | | |].
    { apply (room_shift 1 pc numbits bits); [apply Hm|done]. } { apply Hm. } { by eapply marks_clear; [| |exact Hc|]. }
    replace (numbits / 8) with ((numbits - 8) / 8 + 1) by (rewrite <- Z.div_add by lia; f_equal; lia).
    replace (numbits mod 8) with ((numbits - 8) mod 8) by (rewrite <- (Z_mod_plus_full (numbits - 8) 1 8); f_equal; lia).
    exists b2. split; [do 3 f_equal; lia|]. replace (8 * ((numbits - 8) / 8 + 1)) with (8 + 8 * ((numbits - 8) / 8)) by lia.
    pose proof (Z.div_pos (numbits - 8) 8). eapply marks_trans; [lia|lia|done|done].
  - rewrite Z.mod_small, Z.div_small by lia. exists bits. rewrite Z.mul_0_r, Z.add_0_r. split; [done|by apply marks_none].
Qed.

Lemma setRest_marks numbits pc bits : 0 <= numbits < 8 -> 0 <= pc -> room pc numbits bits -> is_bytes bits -> clear_from pc bits ->
  exists bits', setRest numbits pc bits = Some (pc + numbits, bits') /\ marks pc numbits bits bits'.
Proof.
  intros Hn Hp Hr Hb Hc. assert (numbits = 0 \/ 0 < numbits) as [->|Hn'] by lia.
  { exists bits. unfold setRest. cbn. rewrite Z.add_0_r. split; [done|by apply marks_none]. }
  assert (pc / 8 + 1 < Z.of_nat (length bits)). { unfold room in Hr. pose proof (Z.div_pos (numbits - 1) 8). lia. }
  assert (numbits = 1 \/ 2 <= numbits) as [->|Hn2] by lia.
  { destruct (set1_marks pc bits) as (b & Hs & Hm); [lia|lia|done|]. exists b. unfold setRest. cbn. by rewrite Hs. }
  destruct (setN_marks numbits pc bits) as (b & Hs & Hm); [lia|lia|lia|done|done|]. exists b. split; [|done].
  assert (numbits = 2 \/ numbits = 3 \/ numbits = 4 \/ numbits = 5 \/ numbits = 6 \/ numbits = 7) as Hcase by lia.
  unfold setRest. destruct Hcase as [->|[->|[->|[->|[->| ->]]]]]; cbn [Z.eqb Pos.eqb];
    match type of Hs with setN ?f _ _ = _ => let v := eval vm_compute in f in change f with v in Hs end;
    unfold set2BitsMask, set3BitsMask, set4BitsMask, set5BitsMask, set6BitsMask, set7BitsMask; by rewrite Hs.
Qed.

Lemma bitmapStep_marks code pc op bits : code !! Z.to_nat pc = Some op -> 0 <= op < 256 -> 0 <= pc ->
  room (pc + 1) (pushData op) bits -> is_bytes bits -> clear_from pc bits ->
  exists bits', bitmapStep code pc bits = Some (pc + 1 + pushData op, bits') /\ marks (pc + 1) (pushData op) bits bits'.
Proof.
  intros Ho Hop Hp Hr Hb Hc. unfold bitmapStep. rewrite Ho. cbn [mbind option_bind]. unfold pushData in *.
  assert (clear_from (pc + 1) bits) as Hc' by (intros j Hj; apply Hc; lia).
  assert ((int8 op <? int8 PUSH1) = negb ((PUSH1 <=? op) && (op <=? PUSH32))) as ->.
  { unfold int8, PUSH1, PUSH32. change ((0x60 + 2 ^ 7) mod 2 ^ 8 - 2 ^ 7) with 0x60.
    destruct (Z.ltb_spec op 128); [rewrite (Z.mod_small (op + 2 ^ 7)) by lia; lia|].
    replace ((op + 2 ^ 7) mod 2 ^ 8) with (op - 128); [lia|]. apply Z.mod_unique with 1; lia. }
  destruct ((PUSH1 <=? op) && (op <=? PUSH32)) eqn:Hpush; cbn [negb].
  2:{ exists bits. rewrite Z.add_0_r. split; [done|by apply marks_none]. }
  unfold PUSH1, PUSH32 in *. replace (u8 (u8 (op - 96) + 1)) with (op - 96 + 1) by (unfold u8; rewrite (Z.mod_small (op - 96)), Z.mod_small; lia).
  remember (op - 96 + 1) as n eqn:Hn. assert (1 <= n <= 32) as Hnb by lia. clear Hn.
  destruct (Z.leb_spec 8 n).
  - destruct (set16s_marks 16 n (pc + 1) bits) as (b1 & -> & Hm1); [lia|lia|done|done|done|]. cbn [mbind option_bind].
    pose proof (Z.div_mod n 16 ltac:(lia)) as Hdm. pose proof (Z.mod_pos_bound n 16 ltac:(lia)). pose proof (Z.div_pos n 16 ltac:(lia) ltac:(lia)).
    assert (room (pc + 1 + 16 * (n / 16)) (n mod 16) b1) as Hr1.
    { replace (16 * (n / 16)) with (8 * (2 * (n / 16))) by lia. replace (n mod 16) with (n - 8 * (2 * (n / 16))) by lia. eapply room_shift; [apply Hm1|done]. }
    assert (clear_from (pc + 1 + 16 * (n / 16)) b1) as Hc1 by (eapply marks_clear; [lia|lia|exact Hc'|done]).
    destruct (set8s_marks 32 (n mod 16) (pc + 1 + 16 * (n / 16)) b1) as (b2 & -> & Hm2); [lia|lia|done|apply Hm1|done|]. cbn [mbind option_bind].
    set (m := n mod 16) in *. pose proof (Z.div_mod m 8 ltac:(lia)). pose proof (Z.mod_pos_bound m 8 ltac:(lia)). pose proof (Z.div_pos m 8 ltac:(lia) ltac:(lia)).
    destruct (setRest_marks (m mod 8) (pc + 1 + 16 * (n / 16) + 8 * (m / 8)) b2) as (b3 & -> & Hm3); [lia|lia| |apply Hm2| |].
    { replace (m mod 8) with (m - 8 * (m / 8)) by lia. eapply room_shift; [apply Hm2|done]. }
    { eapply marks_clear; [lia|lia|exact Hc1|done]. }
    exists b3. split; [do 2 f_equal; lia|]. replace n with (16 * (n / 16) + (8 * (m / 8) + m mod 8)) at 1 by lia.
    eapply marks_trans; [lia|lia|done|]. eapply marks_trans; [lia|lia|done|done].
  - cbn [mbind option_bind]. destruct (setRest_marks n (pc + 1) bits) as (b & -> & Hm); [lia|lia|done|done|done|]. by exists b.
Qed.

(** Instructions have no gaps: the data of one ends where the next starts. *)
Lemma pushData_nonneg op : 0 <= pushData op <= 32.
Proof. unfold pushData, PUSH1, PUSH32. destruct (_ && _) eqn:H; lia. Qed.

(** The instructions from [pc] on; everything before is settled. *)
Definition settled_below (code : bytes) (pc : Z) (bits : bitvec) : Prop :=
  forall j, 0 <= j < pc -> getbit bits j = false <-> instruction_at code j.

(** Two instructions are on one chain of steps. *)
Inductive from (code : bytes) (p : Z) : Z -> Prop :=
  | from_here : from code p p
  | from_step q op : from code p q -> code !! Z.to_nat q = Some op -> from code p (q + 1 + pushData op).

Lemma from_le code p q : from code p q -> p <= q.
Proof. induction 1 as [|q op _ IH _]; [lia|]. pose proof (pushData_nonneg op). lia. Qed.
Lemma from_inv code p q : from code p q -> q = p \/ exists op, code !! Z.to_nat p = Some op /\ from code (p + 1 + pushData op) q.
Proof.
  induction 1 as [|q op Hq [->|(op' & Ho' & IH)] Ho]; [by left|right; exists op; split; [done|constructor]|].
  right. exists op'. split; [done|]. by econstructor.
Qed.
Lemma from_start code q : instruction_at code q -> from code 0 q.
Proof. induction 1; by econstructor. Qed.
Lemma from_linear code p q : instruction_at code p -> instruction_at code q -> from code p q \/ from code q p.
Proof.
  intros Hp. induction 1 as [|q op Hq IH Ho]; [right; by apply from_start|]. destruct IH as [IH|[->|(op' & Ho' & IH)]%from_inv].
  - left. by econstructor.
  - left. econstructor; [constructor|done].
  - rewrite Ho in Ho'. injection Ho' as <-. by right.
Qed.

Lemma instruction_after code pc op q : instruction_at code pc -> code !! Z.to_nat pc = Some op ->
  instruction_at code q -> pc < q -> pc + 1 + pushData op <= q.
Proof.
  intros Hpc Ho Hq Hlt. destruct (from_linear code pc q Hpc Hq) as [Hf|Hf%from_le]; [|lia].
  apply from_inv in Hf as [->|(op' & Ho' & Hf)]; [lia|]. rewrite Ho in Ho'. injection Ho' as <-. by apply from_le in Hf.
Qed.

Lemma bitmapLoop_spec code fuel pc bits : Forall (fun b => 0 <= b < 256) code ->
  (Z.of_nat (length code) <= pc + Z.of_nat fuel) -> 0 <= pc -> instruction_at code pc -> is_bytes bits ->
  length bits = (length code / 8 + 5)%nat -> clear_from pc bits -> settled_below code pc bits ->
  exists bits', bitmapLoop fuel code pc bits = Some bits' /\ length bits' = length bits /\
    forall j, 0 <= j < Z.of_nat (length code) -> getbit bits' j = false <-> instruction_at code j.
Proof.
  intros Hcode. revert pc bits. induction fuel as [|fuel IH]; intros pc bits Hf Hp Hpc Hb Hl Hc Hs; cbn [bitmapLoop].
  { exists bits. split_and!; [done|done|]. intros j Hj. apply Hs. lia. }
  destruct (Z.ltb_spec pc (Z.of_nat (length code))) as [Hlt|Hge].
  2:{ exists bits. split_and!; [done|done|]. intros j Hj. apply Hs. lia. }
  destruct (lookup_lt_is_Some_2 code (Z.to_nat pc)) as [op Ho]; [lia|]. pose proof (Forall_lookup_1 _ _ _ _ Hcode Ho) as Hop. cbn in Hop.
  pose proof (pushData_nonneg op) as Hn.
  assert (room (pc + 1) (pushData op) bits) as Hr.
  { unfold room. rewrite Hl, Nat2Z.inj_add, Nat2Z.inj_div. pose proof (Z.div_le_mono (pc + 1) (Z.of_nat (length code)) 8).
    pose proof (Z.div_le_mono (pushData op - 1) 31 8). change (31 / 8) with 3 in *. lia. }
  destruct (bitmapStep_marks code pc op bits) as (b1 & -> & (Hl1 & Hb1 & Hg1)); [done..|]. cbn [mbind option_bind].
  destruct (IH (pc + 1 + pushData op) b1) as (b2 & Hb2 & Hl2 & Hg2); [lia|lia|by econstructor|done|lia| | |].
  - intros j Hj. rewrite Hg1, Hc by lia. cbn. lia.
  - intros j Hj. rewrite Hg1 by lia. destruct (Z.lt_trichotomy j pc) as [Hjp|[->|Hjp]].
    + replace (_ && _) with false by lia. rewrite orb_false_r. apply Hs. lia.
    + rewrite Hc by lia. replace (_ && _) with false by lia. done.
    + replace (_ && _) with true by lia. rewrite orb_true_r. split; [done|]. intros Hj'.
      pose proof (instruction_after code pc op j Hpc Ho Hj' Hjp). lia.
  - exists b2. split_and!; [done|lia|done].
Qed.

Lemma codeBitmap_spec code : Forall (fun b => 0 <= b < 256) code ->
  exists bits, codeBitmap code = Some bits /\
    forall pos, 0 <= pos < Z.of_nat (length code) ->
      codeSegment bits pos = Some (negb (getbit bits pos)) /\ (getbit bits pos = false <-> instruction_at code pos).
Proof.
  intros Hcode. unfold codeBitmap, codeBitmapInternal. set (bits := replicate _ _).
  assert (length bits = (length code / 8 + 5)%nat) as Hl by (unfold bits; rewrite length_replicate; lia).
  assert (forall j, getbit bits j = false) as Hz.
  { intros j. unfold getbit, bits. destruct (replicate _ _ !! _) as [x|] eqn:Hx; [|apply Z.bits_0].
    apply lookup_replicate in Hx as [-> _]. apply Z.bits_0. }
  destruct (bitmapLoop_spec code (length code) 0 bits) as (b & Hb & Hlb & Hg); [done|lia|lia|constructor| |done|by intros j _|intros j Hj; lia|].
  { apply Forall_replicate. lia. }
  exists b. split; [done|]. intros pos Hpos. split; [|by apply Hg].
  apply codeSegment_spec; [lia|]. rewrite Hlb, Hl, Nat2Z.inj_add, Nat2Z.inj_div. pose proof (Z.div_le_mono pos (Z.of_nat (length code)) 8). lia.
Qed.

(** Only the low byte of an element matters, so that the analysis of anything ends. *)
Lemma bitmapLoop_bytes fuel code pc bits : bitmapLoop fuel (u8 <$> code) pc bits = bitmapLoop fuel code pc bits.
Proof.
  revert pc bits. induction fuel as [|fuel IH]; intros pc bits; [done|]. cbn [bitmapLoop]. rewrite length_fmap. destruct (pc <? _); [|done].
  assert (bitmapStep (u8 <$> code) pc bits = bitmapStep code pc bits) as ->.
  { unfold bitmapStep. rewrite list_lookup_fmap. destruct (code !! Z.to_nat pc) as [op|]; [|done]. cbn [fmap option_fmap option_map mbind option_bind].
    assert (int8 (u8 op) = int8 op) as -> by (unfold int8, u8; change (2 ^ 8) with 256; by rewrite Zplus_mod_idemp_l).
    by assert (u8 (u8 op - PUSH1) = u8 (op - PUSH1)) as -> by (unfold u8; by rewrite Zminus_mod_idemp_l). }
  destruct (bitmapStep code pc bits) as [[pc' bits']|]; [apply IH|done].
Qed.

Lemma codeBitmap_total code : exists bits, codeBitmap code = Some bits /\
  forall pos, 0 <= pos < Z.of_nat (length code) -> is_Some (codeSegment bits pos).
Proof.
  destruct (codeBitmap_spec (u8 <$> code)) as (bits & Hb & Hs); [apply Forall_fmap, Forall_true; intros; unfold u8; change (2 ^ 8) with 256; by apply Z.mod_pos_bound|].
  unfold codeBitmap, codeBitmapInternal in Hb. rewrite bitmapLoop_bytes, length_fmap in Hb. exists bits. split; [exact Hb|].
  intros pos Hp. rewrite length_fmap in Hs. destruct (Hs pos Hp) as [-> _]. done.
Qed.

(** C27. The analysis never runs out of its vector and tells exactly where the
    instructions of a program are. *)
Theorem analysis_exact code : Forall (fun b => 0 <= b < 256) code ->
  exists bits, codeBitmap code = Some bits /\
    forall pos, 0 <= pos < Z.of_nat (length code) ->
      exists b, codeSegment bits pos = Some b /\ (b = true <-> instruction_at code pos).
Proof.
  intros Hcode. destruct (codeBitmap_spec code Hcode) as (bits & Hb & Hs). exists bits. split; [done|]. intros pos Hpos.
  destruct (Hs pos Hpos) as [Hseg Hi]. eexists. split; [done|]. rewrite <- Hi. by destruct (getbit bits pos).
Qed.
