(* ===== verification/VmState.v ===== *)
(** The machine that runs contracts (src/core/vm): words, memory, stack, contracts,
    the state of the virtual machine, and the monad its functions are written in.

    A function of the machine panics where Go would: an index or slice out of range,
    a nil dereference, an explicit [panic].  The errors it returns are values.  The
    runs of the interpreter have no bound of their own, so they take fuel; running
    out of it is a third outcome that no function produces by itself. *)
From S2P Require Import Prelude Validators Messages Rlp Config ChainConfig Forks AccountExtra StateJournal VmAnalysis.

(** * Words *)

(** A word is a [Z] below 2^256 (github.com/holiman/uint256). *)
Definition u256 (x : Z) : Z := x mod 2 ^ 256.
Definition IsUint64 (x : Z) : bool := x <? 2 ^ 64.
Definition Uint64WithOverflow (x : Z) : Z * bool := (u64 x, negb (IsUint64 x)).
Definition Bytes20 (x : Z) : Address := x mod 2 ^ 160.
Definition SetBytes (b : bytes) : Z := u256 (be_value b).
Definition BitLen (x : Z) : Z := if x =? 0 then 0 else Z.log2 x + 1.
(** A word as a signed number. *)
Definition signed (x : Z) : Z := if x <? 2 ^ 255 then x else x - 2 ^ 256.

(** The functions of the package that are algorithms of their own are an argument of
    the model: whatever they compute, it is a word. *)
Class Uint256 : Type := {
  word_Div : Z -> Z -> Z;
  word_SDiv : Z -> Z -> Z;
  word_Mod : Z -> Z -> Z;
  word_SMod : Z -> Z -> Z;
  word_AddMod : Z -> Z -> Z -> Z;
  word_MulMod : Z -> Z -> Z -> Z;
  word_Exp : Z -> Z -> Z;
  word_ExtendSign : Z -> Z -> Z;
  word_Byte : Z -> Z -> Z;
  word_SRsh : Z -> Z -> Z;
}.

(** [math.SafeAdd] and [math.SafeMul] of common/math. *)
Definition SafeAdd (x y : Z) : Z * bool := (u64 (x + y), 2 ^ 64 <=? x + y).
Definition SafeMul (x y : Z) : Z * bool := (u64 (x * y), 2 ^ 64 <=? x * y).

(** * Errors *)

Inductive VMError :=
  | ErrOutOfGas
  | ErrCodeStoreOutOfGas
  | ErrDepth
  | ErrInsufficientBalance
  | ErrContractAddressCollision
  | ErrExecutionReverted
  | ErrMaxCodeSizeExceeded
  | ErrInvalidJump
  | ErrWriteProtection
  | ErrReturnDataOutOfBounds
  | ErrGasUintOverflow
  | ErrInvalidCode
  | ErrNonceUintOverflow
  | ErrValueTransferToPrecompile
  | ErrZeroAddressTransfer
  | errStopToken
  | ErrStackUnderflow (stackLen required : Z)
  | ErrStackOverflow (stackLen limit : Z)
  | ErrInvalidOpCode (opcode : Z)
  | ErrBlacklistedAccount (addr : Address)
  | ErrUnauthorized
  | ErrInvalidSelectorLength
  | ErrInvalidMethod
  | ErrInvalidInputLength
  | ErrInvalidCallContext (callContext required : Z)
  | ErrSentry
  | ErrPrecompiled.

#[export] Instance VMError_eq_dec : EqDecision VMError.
Proof. solve_decision. Defined.

(** * Outcomes *)

Inductive Outcome (A : Type) :=
  | Done (a : A)
  | Panic
  | NoFuel.
Arguments Done {A} _.
Arguments Panic {A}.
Arguments NoFuel {A}.

Definition VM (S A : Type) : Type := S -> Outcome (A * S).
#[export] Instance VM_ret S : MRet (VM S) := fun A a s => Done (a, s).
#[export] Instance VM_bind S : MBind (VM S) := fun A B f m s =>
  match m s with Done (a, s') => f a s' | Panic => Panic | NoFuel => NoFuel end.

Definition vget {S} : VM S S := fun s => Done (s, s).
Definition vput {S} (s : S) : VM S unit := fun _ => Done (tt, s).
Definition vmodify {S} (f : S -> S) : VM S unit := fun s => Done (tt, f s).
Definition vpanic {S A} : VM S A := fun _ => Panic.
Definition voption {S A} (o : option A) : VM S A := match o with Some a => mret a | None => vpanic end.

(** * Memory *)

Record Memory := mkMemory { mem_store : bytes; mem_lastGasCost : Z }.
Definition NewMemory : Memory := mkMemory [] 0.
Definition mem_Len (m : Memory) : Z := Z.of_nat (length (mem_store m)).

(** [copy(store[offset:...], value)]. *)
Definition overwrite (store : bytes) (offset : nat) (value : bytes) : bytes :=
  take offset store ++ value ++ drop (offset + length value) store.
(** A slice expression [store[lo:hi]]; a slice is only ever taken within its length. *)
Definition slice (store : bytes) (lo hi : Z) : option bytes :=
  if (0 <=? lo) && (lo <=? hi) && (hi <=? Z.of_nat (length store)) then Some (take (Z.to_nat (hi - lo)) (drop (Z.to_nat lo) store)) else None.

Definition mem_Set (offset size : Z) (value : bytes) (m : Memory) : option Memory :=
  if 0 <? size then
    if mem_Len m <? u64 (offset + size) then None
    else
      dst ← slice (mem_store m) offset (u64 (offset + size));
      Some (mkMemory (overwrite (mem_store m) (Z.to_nat offset) (take (length dst) value)) (mem_lastGasCost m))
  else Some m.
Definition mem_Set32 (offset val : Z) (m : Memory) : option Memory :=
  if mem_Len m <? u64 (offset + 32) then None
  else
    dst ← slice (mem_store m) offset (mem_Len m);
    Some (mkMemory (overwrite (mem_store m) (Z.to_nat offset) (take (length dst) (be_bytes 32 val))) (mem_lastGasCost m)).
Definition mem_Resize (size : Z) (m : Memory) : Memory :=
  if mem_Len m <? size then mkMemory (mem_store m ++ replicate (Z.to_nat (size - mem_Len m)) 0) (mem_lastGasCost m) else m.
(** [GetPtr] and [GetCopy] take signed numbers. *)
Definition mem_GetPtr (offset size : Z) (m : Memory) : option bytes :=
  if size =? 0 then Some []
  else if offset <? mem_Len m then slice (mem_store m) offset (i64 (offset + size))
  else Some [].
Definition mem_GetCopy (offset size : Z) (m : Memory) : option bytes :=
  if size =? 0 then Some []
  else if offset <? mem_Len m then if size <? 0 then None else slice (mem_store m) offset (i64 (offset + size))
  else Some [].
Definition mem_Copy (dst src len : Z) (m : Memory) : option Memory :=
  if len =? 0 then Some m
  else
    to ← slice (mem_store m) dst (mem_Len m);
    data ← slice (mem_store m) src (u64 (src + len));
    Some (mkMemory (overwrite (mem_store m) (Z.to_nat dst) (take (length to) data)) (mem_lastGasCost m)).

(** * Contracts *)

Record Contract := mkContract {
  c_CallerAddress : Address;
  c_self : Address;
  c_analysis : option bitvec;
  c_Code : bytes;
  c_CodeHash : Hash;
  c_Input : bytes;
  c_Gas : Z;
  c_value : Z;
}.
Definition set_c_CallerAddress (x : Address) (c : Contract) : Contract :=
  mkContract x (c_self c) (c_analysis c) (c_Code c) (c_CodeHash c) (c_Input c) (c_Gas c) (c_value c).
Definition set_c_self (x : Address) (c : Contract) : Contract :=
  mkContract (c_CallerAddress c) x (c_analysis c) (c_Code c) (c_CodeHash c) (c_Input c) (c_Gas c) (c_value c).
Definition set_c_analysis (x : option bitvec) (c : Contract) : Contract :=
  mkContract (c_CallerAddress c) (c_self c) x (c_Code c) (c_CodeHash c) (c_Input c) (c_Gas c) (c_value c).
Definition set_c_Code (x : bytes) (c : Contract) : Contract :=
  mkContract (c_CallerAddress c) (c_self c) (c_analysis c) x (c_CodeHash c) (c_Input c) (c_Gas c) (c_value c).
Definition set_c_CodeHash (x : Hash) (c : Contract) : Contract :=
  mkContract (c_CallerAddress c) (c_self c) (c_analysis c) (c_Code c) x (c_Input c) (c_Gas c) (c_value c).
Definition set_c_Input (x : bytes) (c : Contract) : Contract :=
  mkContract (c_CallerAddress c) (c_self c) (c_analysis c) (c_Code c) (c_CodeHash c) x (c_Gas c) (c_value c).
Definition set_c_Gas (x : Z) (c : Contract) : Contract :=
  mkContract (c_CallerAddress c) (c_self c) (c_analysis c) (c_Code c) (c_CodeHash c) (c_Input c) x (c_value c).
Definition set_c_value (x : Z) (c : Contract) : Contract :=
  mkContract (c_CallerAddress c) (c_self c) (c_analysis c) (c_Code c) (c_CodeHash c) (c_Input c) (c_Gas c) x.

(** A caller: an account, or a contract that is running. *)
Inductive ContractRef := AccountRef (addr : Address) | ContractOf (c : Contract).
Definition ref_Address (r : ContractRef) : Address := match r with AccountRef a => a | ContractOf c => c_self c end.

(** [NewContract] with [SetCallCode]; the analyses of a parent are shared by all that
    run below it, they are in the state of the machine. *)
Definition NewContract (caller : ContractRef) (object : Address) (value gas : Z) (codeHash : Hash) (code : bytes) : Contract :=
  mkContract (ref_Address caller) object None code codeHash [] gas value.
(** [AsDelegate] panics unless the caller is a contract. *)
Definition AsDelegate (caller : ContractRef) (c : Contract) : option Contract :=
  match caller with
  | ContractOf parent => Some (set_c_CallerAddress (c_CallerAddress parent) (set_c_value (c_value parent) c))
  | AccountRef _ => None
  end.

Definition GetOp (c : Contract) (n : Z) : Z :=
  if n <? Z.of_nat (length (c_Code c)) then default 0 (c_Code c !! Z.to_nat n) else 0.
Definition UseGas (gas : Z) (c : Contract) : bool * Contract :=
  if c_Gas c <? gas then (false, c) else (true, set_c_Gas (c_Gas c - gas) c).

(** * The virtual machine *)

(** [BlockContext] and [TxContext]; [Random] is nil where the chain has none. *)
Record BlockContext := mkBlockContext {
  bc_GetHash : Z -> Hash;
  bc_Coinbase : Address;
  bc_GasLimit : Z;
  bc_BlockNumber : Z;
  bc_Time : Z;
  bc_Difficulty : option Z;
  bc_BaseFee : option Z;
  bc_BlobBaseFee : option Z;
  bc_Random : option Hash;
}.
Record TxContext := mkTxContext {
  tc_Origin : Address;
  tc_GasPrice : Z;
  tc_BlobHashes : list Hash;
  tc_BlobFeeCap : option Z;
}.
(** [vm.Config] without the tracer. *)
Record VMConfig := mkVMConfig {
  vc_NoBaseFee : bool;
  vc_EnablePreimageRecording : bool;
  vc_ExtraEips : list Z;
}.

(** What does not change during a transaction; [env_abort n] is what the n-th look at
    the flag sees that another goroutine may set with [Cancel]. *)
Record Env := mkEnv {
  env_Context : BlockContext;
  env_TxContext : TxContext;
  env_chainConfig : ChainConfig;
  env_chainRules : Rules;
  env_Config : VMConfig;
  env_abort : nat -> bool;
}.

(** What changes: of [EVM], [EVMInterpreter] and the shared map of analyses. *)
Record EVM := mkEVM {
  evm_StateDB : StateDB;
  evm_depth : Z;
  evm_readOnly : bool;
  evm_returnData : bytes;
  evm_callGasTemp : Z;
  evm_jumpdests : gmap Hash bitvec;
  evm_looks : nat;
}.
Definition set_evm_StateDB (x : StateDB) (e : EVM) : EVM :=
  mkEVM x (evm_depth e) (evm_readOnly e) (evm_returnData e) (evm_callGasTemp e) (evm_jumpdests e) (evm_looks e).
Definition set_evm_depth (x : Z) (e : EVM) : EVM :=
  mkEVM (evm_StateDB e) x (evm_readOnly e) (evm_returnData e) (evm_callGasTemp e) (evm_jumpdests e) (evm_looks e).
Definition set_evm_readOnly (x : bool) (e : EVM) : EVM :=
  mkEVM (evm_StateDB e) (evm_depth e) x (evm_returnData e) (evm_callGasTemp e) (evm_jumpdests e) (evm_looks e).
Definition set_evm_returnData (x : bytes) (e : EVM) : EVM :=
  mkEVM (evm_StateDB e) (evm_depth e) (evm_readOnly e) x (evm_callGasTemp e) (evm_jumpdests e) (evm_looks e).
Definition set_evm_callGasTemp (x : Z) (e : EVM) : EVM :=
  mkEVM (evm_StateDB e) (evm_depth e) (evm_readOnly e) (evm_returnData e) x (evm_jumpdests e) (evm_looks e).
Definition set_evm_jumpdests (x : gmap Hash bitvec) (e : EVM) : EVM :=
  mkEVM (evm_StateDB e) (evm_depth e) (evm_readOnly e) (evm_returnData e) (evm_callGasTemp e) x (evm_looks e).
Definition set_evm_looks (x : nat) (e : EVM) : EVM :=
  mkEVM (evm_StateDB e) (evm_depth e) (evm_readOnly e) (evm_returnData e) (evm_callGasTemp e) (evm_jumpdests e) x.

(** [ScopeContext] with the program counter and the machine: the state of an
    operation.  The top of the stack is the head of the list. *)
Record Frame := mkFrame {
  f_pc : Z;
  f_mem : Memory;
  f_stack : list Z;
  f_contract : Contract;
  f_evm : EVM;
}.
Definition set_f_pc (x : Z) (f : Frame) : Frame :=
  mkFrame x (f_mem f) (f_stack f) (f_contract f) (f_evm f).
Definition set_f_mem (x : Memory) (f : Frame) : Frame :=
  mkFrame (f_pc f) x (f_stack f) (f_contract f) (f_evm f).
Definition set_f_stack (x : list Z) (f : Frame) : Frame :=
  mkFrame (f_pc f) (f_mem f) x (f_contract f) (f_evm f).
Definition set_f_contract (x : Contract) (f : Frame) : Frame :=
  mkFrame (f_pc f) (f_mem f) (f_stack f) x (f_evm f).
Definition set_f_evm (x : EVM) (f : Frame) : Frame :=
  mkFrame (f_pc f) (f_mem f) (f_stack f) (f_contract f) x.

Definition f_state (f : Frame) : StateDB := evm_StateDB (f_evm f).
Definition set_f_state (s : StateDB) (f : Frame) : Frame := set_f_evm (set_evm_StateDB s (f_evm f)) f.
Definition f_self (f : Frame) : Address := c_self (f_contract f).
Definition f_gas (f : Frame) : Z := c_Gas (f_contract f).
Definition set_f_gas (g : Z) (f : Frame) : Frame := set_f_contract (set_c_Gas g (f_contract f)) f.

(** ** The stack *)

Abbreviation Op := (VM Frame).

(** The slots hold words. *)
Definition pop : Op Z := fun f => match f_stack f with x :: st => Done (x, set_f_stack st f) | [] => Panic end.
Definition push (x : Z) : Op unit := fun f => Done (tt, set_f_stack (u256 x :: f_stack f) f).
Definition peek : Op Z := fun f => match f_stack f with x :: _ => Done (x, f) | [] => Panic end.
(** Writing through the pointer that [peek] returns. *)
Definition poke (x : Z) : Op unit := fun f => match f_stack f with _ :: st => Done (tt, set_f_stack (u256 x :: st) f) | [] => Panic end.
Definition Back (n : nat) : Op Z := fun f => match f_stack f !! n with Some x => Done (x, f) | None => Panic end.
Definition dup (n : nat) : Op unit := fun f =>
  match n with O => Panic | S k => match f_stack f !! k with Some x => Done (tt, set_f_stack (x :: f_stack f) f) | None => Panic end end.
Definition swap (n : nat) : Op unit := fun f =>
  match n, f_stack f with
  | S k, x :: _ => match f_stack f !! k with Some y => Done (tt, set_f_stack (<[k := x]> (<[0%nat := y]> (f_stack f))) f) | None => Panic end
  | _, _ => Panic
  end.

(** ** Reading and changing the state *)

Definition gets {A} (g : StateDB -> A) : Op A := fun f => Done (g (f_state f), f).
Definition modifies (g : StateDB -> StateDB) : Op unit := fun f => Done (tt, set_f_state (g (f_state f)) f).
Definition useGas (gas : Z) : Op bool := fun f =>
  let '(ok, c) := UseGas gas (f_contract f) in Done (ok, set_f_contract c f).
Definition mem_do (g : Memory -> option Memory) : Op unit := fun f =>
  match g (f_mem f) with Some m => Done (tt, set_f_mem m f) | None => Panic end.
Definition mem_get {A} (g : Memory -> option A) : Op A := fun f => match g (f_mem f) with Some a => Done (a, f) | None => Panic end.
