(* ===== verification/VmGas.v ===== *)
(** What an operation costs and how much memory it needs (src/core/vm/common.go,
    gas.go, gas_table.go, operations_acl.go, memory_table.go). *)
From S2P Require Import Prelude Validators Messages Rlp Config ChainConfig Forks AccountExtra StateJournal VmAnalysis VmState.

(** * Parameters (src/params/protocol_params.go) *)

Definition GasQuickStep : Z := 2.
Definition GasFastestStep : Z := 3.
Definition GasFastStep : Z := 5.
Definition GasMidStep : Z := 8.
Definition GasSlowStep : Z := 10.
Definition GasExtStep : Z := 20.

Definition CallValueTransferGas : Z := 9000.
Definition CallNewAccountGas : Z := 25000.
Definition QuadCoeffDiv : Z := 512.
Definition LogDataGas : Z := 8.
Definition CallStipend : Z := 2300.
Definition Keccak256Gas : Z := 30.
Definition Keccak256WordGas : Z := 6.
Definition InitCodeWordGas : Z := 2.
Definition SstoreSetGas : Z := 20000.
Definition SstoreResetGas : Z := 5000.
Definition SstoreClearGas : Z := 5000.
Definition SstoreRefundGas : Z := 15000.
Definition NetSstoreNoopGas : Z := 200.
Definition NetSstoreInitGas : Z := 20000.
Definition NetSstoreCleanGas : Z := 5000.
Definition NetSstoreDirtyGas : Z := 200.
Definition NetSstoreClearRefund : Z := 15000.
Definition NetSstoreResetRefund : Z := 4800.
Definition NetSstoreResetClearRefund : Z := 19800.
Definition SstoreSentryGasEIP2200 : Z := 2300.
Definition SstoreSetGasEIP2200 : Z := 20000.
Definition SstoreResetGasEIP2200 : Z := 5000.
Definition SstoreClearsScheduleRefundEIP2200 : Z := 15000.
Definition ColdAccountAccessCostEIP2929 : Z := 2600.
Definition ColdSloadCostEIP2929 : Z := 2100.
Definition WarmStorageReadCostEIP2929 : Z := 100.
Definition TxAccessListStorageKeyGas : Z := 1900.
Definition SstoreClearsScheduleRefundEIP3529 : Z := SstoreResetGasEIP2200 - ColdSloadCostEIP2929 + TxAccessListStorageKeyGas.
Definition JumpdestGas : Z := 1.
Definition CreateDataGas : Z := 200.
Definition CallCreateDepth : Z := 1024.
Definition ExpGas : Z := 10.
Definition LogGas : Z := 375.
Definition CopyGas : Z := 3.
Definition StackLimit : Z := 1024.
Definition LogTopicGas : Z := 375.
Definition CreateGas : Z := 32000.
Definition Create2Gas : Z := 32000.
Definition SelfdestructRefundGas : Z := 24000.
Definition MemoryGas : Z := 3.
Definition CallGasFrontier : Z := 40.
Definition CallGasEIP150 : Z := 700.
Definition BalanceGasFrontier : Z := 20.
Definition BalanceGasEIP150 : Z := 400.
Definition BalanceGasEIP1884 : Z := 700.
Definition ExtcodeSizeGasFrontier : Z := 20.
Definition ExtcodeSizeGasEIP150 : Z := 700.
Definition SloadGasFrontier : Z := 50.
Definition SloadGasEIP150 : Z := 200.
Definition SloadGasEIP1884 : Z := 800.
Definition SloadGasEIP2200 : Z := 800.
Definition ExtcodeHashGasConstantinople : Z := 400.
Definition ExtcodeHashGasEIP1884 : Z := 700.
Definition SelfdestructGasEIP150 : Z := 5000.
Definition ExpByteFrontier : Z := 10.
Definition ExpByteEIP158 : Z := 50.
Definition ExtcodeCopyBaseFrontier : Z := 20.
Definition ExtcodeCopyBaseEIP150 : Z := 700.
Definition CreateBySelfdestructGas : Z := 25000.
Definition MaxCodeSize : Z := 253952.
Definition MaxInitCodeSize : Z := MaxCodeSize.
Definition MaxUint64 : Z := 2 ^ 64 - 1.

(** * Sizes (common.go) *)

Definition calcMemSize64WithUint (off length64 : Z) : Z * bool :=
  if length64 =? 0 then (0, false)
  else
    let '(offset64, overflow) := Uint64WithOverflow off in
    if overflow then (0, true)
    else let val := u64 (offset64 + length64) in (val, val <? offset64).
Definition calcMemSize64 (off l : Z) : Z * bool :=
  if negb (IsUint64 l) then (0, true) else calcMemSize64WithUint off (u64 l).

Definition RightPadBytes (b : bytes) (l : nat) : bytes := if (l <=? length b)%nat then b else b ++ replicate (l - length b) 0.
(** [start] and [end] are cut to the length of the data; the slice is out of range only
    where the sum of start and size wraps. *)
Definition getData (data : bytes) (start size : Z) : option bytes :=
  let length := Z.of_nat (length data) in
  let start := if length <? start then length else start in
  let end_ := u64 (start + size) in
  let end_ := if length <? end_ then length else end_ in
  b ← slice data start end_;
  let size := i64 size in
  if size <=? Z.of_nat (List.length b) then Some b else Some (RightPadBytes b (Z.to_nat size)).

Definition toWordSize (size : Z) : Z := if MaxUint64 - 31 <? size then MaxUint64 / 32 + 1 else (size + 31) / 32.

(** * Memory sizes (memory_table.go) *)

Abbreviation memorySizeFunc := (Op (Z * bool)).

Definition memSize (off len : nat) : memorySizeFunc := o ← Back off; l ← Back len; mret (calcMemSize64 o l).
Definition memSizeUint (off : nat) (len : Z) : memorySizeFunc := o ← Back off; mret (calcMemSize64WithUint o len).
(** The larger of two regions. *)
Definition memSizeMax (off1 len1 off2 len2 : nat) : memorySizeFunc :=
  '(x, overflow) ← memSize off1 len1;
  if (overflow : bool) then mret (0, true)
  else
    '(y, overflow) ← memSize off2 len2;
    if (overflow : bool) then mret (0, true) else if y <? x then mret (x, false) else mret (y, false).

Definition memoryKeccak256 : memorySizeFunc := memSize 0 1.
Definition memoryCallDataCopy : memorySizeFunc := memSize 0 2.
Definition memoryReturnDataCopy : memorySizeFunc := memSize 0 2.
Definition memoryCodeCopy : memorySizeFunc := memSize 0 2.
Definition memoryExtCodeCopy : memorySizeFunc := memSize 1 3.
Definition memoryMLoad : memorySizeFunc := memSizeUint 0 32.
Definition memoryMStore8 : memorySizeFunc := memSizeUint 0 1.
Definition memoryMStore : memorySizeFunc := memSizeUint 0 32.
Definition memoryMcopy : memorySizeFunc :=
  dst ← Back 0; src ← Back 1;
  let mStart := if dst <? src then src else dst in
  l ← Back 2; mret (calcMemSize64 mStart l).
Definition memoryCreate : memorySizeFunc := memSize 1 2.
Definition memoryCreate2 : memorySizeFunc := memSize 1 2.
Definition memoryCall : memorySizeFunc := memSizeMax 5 6 3 4.
Definition memoryDelegateCall : memorySizeFunc := memSizeMax 4 5 2 3.
Definition memoryStaticCall : memorySizeFunc := memSizeMax 4 5 2 3.
Definition memoryReturn : memorySizeFunc := memSize 0 1.
Definition memoryRevert : memorySizeFunc := memSize 0 1.
Definition memoryLog : memorySizeFunc := memSize 0 1.

(** * Gas (gas.go, gas_table.go) *)

Abbreviation gasFunc := (Z -> Op (Z * option VMError)).
Abbreviation gasOk := (fun gas => mret (gas, None)).
Abbreviation gasErr := (fun err => mret (0, Some err)).

Definition callGas (isEip150 : bool) (availableGas base callCost : Z) : Z * option VMError :=
  let gas :=
    if isEip150 then
      let availableGas := u64 (availableGas - base) in
      let gas := availableGas - availableGas / 64 in
      if negb (IsUint64 callCost) || (gas <? u64 callCost) then Some gas else None
    else None in
  match gas with
  | Some gas => (gas, None)
  | None => if negb (IsUint64 callCost) then (0, Some ErrGasUintOverflow) else (u64 callCost, None)
  end.

Definition memoryGasCost (newMemSize : Z) : Op (Z * option VMError) := fun f =>
  if newMemSize =? 0 then Done ((0, None), f)
  else if 0x1FFFFFFFE0 <? newMemSize then Done ((0, Some ErrGasUintOverflow), f)
  else
    let newMemSizeWords := toWordSize newMemSize in
    let newMemSize := newMemSizeWords * 32 in
    if mem_Len (f_mem f) <? newMemSize then
      let square := newMemSizeWords * newMemSizeWords in
      let linCoef := newMemSizeWords * MemoryGas in
      let quadCoef := square / QuadCoeffDiv in
      let newTotalFee := linCoef + quadCoef in
      let fee := u64 (newTotalFee - mem_lastGasCost (f_mem f)) in
      Done ((fee, None), set_f_mem (mkMemory (mem_store (f_mem f)) newTotalFee) f)
    else Done ((0, None), f).

(** [if gas, overflow = math.SafeAdd(gas, x); overflow { return 0, ErrGasUintOverflow }]. *)
Definition safeAdd (gas x : Z) (k : Z -> Op (Z * option VMError)) : Op (Z * option VMError) :=
  let '(gas, overflow) := SafeAdd gas x in if (overflow : bool) then gasErr ErrGasUintOverflow else k gas.
Definition safeMul (x y : Z) (k : Z -> Op (Z * option VMError)) : Op (Z * option VMError) :=
  let '(z, overflow) := SafeMul x y in if (overflow : bool) then gasErr ErrGasUintOverflow else k z.
(** [if err != nil { return 0, err }]. *)
Definition gasThen (g : Op (Z * option VMError)) (k : Z -> Op (Z * option VMError)) : Op (Z * option VMError) :=
  '(gas, err) ← g; match err with Some err => gasErr err | None => k gas end.
Definition backUint64 (n : nat) (k : Z -> Op (Z * option VMError)) : Op (Z * option VMError) :=
  x ← Back n;
  let '(x64, overflow) := Uint64WithOverflow x in
  if (overflow : bool) then gasErr ErrGasUintOverflow else k x64.

Definition memoryCopierGas (stackpos : nat) : gasFunc := fun memorySize =>
  gasThen (memoryGasCost memorySize) (fun gas =>
  backUint64 stackpos (fun words =>
  safeMul (toWordSize words) CopyGas (fun words =>
  safeAdd gas words gasOk))).
Definition gasCallDataCopy : gasFunc := memoryCopierGas 2.
Definition gasCodeCopy : gasFunc := memoryCopierGas 2.
Definition gasMcopy : gasFunc := memoryCopierGas 2.
Definition gasExtCodeCopy : gasFunc := memoryCopierGas 3.
Definition gasReturnDataCopy : gasFunc := memoryCopierGas 2.

(** [evm.StateDB.SubRefund] panics below zero. *)
Definition subRefund (gas : Z) : Op unit := fun f =>
  match SubRefund gas (f_state f) with Some s => Done (tt, set_f_state s f) | None => Panic end.

Section gas.
Context `{Crypto} (env : Env).
Let rules := env_chainRules env.

Definition state_at (x : Z) : Op Hash := fun f => Done (GetState (f_state f) (f_self f) x, f).
Definition committed_at (x : Z) : Op Hash := fun f => Done (GetCommittedState (f_state f) (f_self f) x, f).

(** What the three schedules of net metering have in common: the refunds for a slot
    whose value was already changed. *)
Definition dirtyRefunds (original current value clear resetClear reset : Z) : Op unit :=
  (if negb (original =? 0) then
     if current =? 0 then subRefund clear
     else if value =? 0 then modifies (AddRefund clear) else mret tt
   else mret tt);;
  (if original =? value then
     if original =? 0 then modifies (AddRefund resetClear) else modifies (AddRefund reset)
   else mret tt).

Definition gasSStore : gasFunc := fun _ =>
  y ← Back 1; x ← Back 0;
  current ← state_at x;
  if r_IsPetersburg rules || negb (r_IsConstantinople rules) then
    if (current =? 0) && negb (y =? 0) then gasOk SstoreSetGas
    else if negb (current =? 0) && (y =? 0) then modifies (AddRefund SstoreRefundGas);; gasOk SstoreClearGas
    else gasOk SstoreResetGas
  else if current =? y then gasOk NetSstoreNoopGas
  else
    original ← committed_at x;
    if original =? current then
      if original =? 0 then gasOk NetSstoreInitGas
      else
        (if y =? 0 then modifies (AddRefund NetSstoreClearRefund) else mret tt);;
        gasOk NetSstoreCleanGas
    else
      dirtyRefunds original current y NetSstoreClearRefund NetSstoreResetClearRefund NetSstoreResetRefund;;
      gasOk NetSstoreDirtyGas.

Definition gasSStoreEIP2200 : gasFunc := fun _ =>
  f ← vget;
  if f_gas f <=? SstoreSentryGasEIP2200 then gasErr ErrSentry
  else
    y ← Back 1; x ← Back 0;
    current ← state_at x;
    if current =? y then gasOk SloadGasEIP2200
    else
      original ← committed_at x;
      if original =? current then
        if original =? 0 then gasOk SstoreSetGasEIP2200
        else
          (if y =? 0 then modifies (AddRefund SstoreClearsScheduleRefundEIP2200) else mret tt);;
          gasOk SstoreResetGasEIP2200
      else
        dirtyRefunds original current y SstoreClearsScheduleRefundEIP2200
          (SstoreSetGasEIP2200 - SloadGasEIP2200) (SstoreResetGasEIP2200 - SloadGasEIP2200);;
        gasOk SloadGasEIP2200.

Definition makeGasLog (n : Z) : gasFunc := fun memorySize =>
  backUint64 1 (fun requestedSize =>
  gasThen (memoryGasCost memorySize) (fun gas =>
  safeAdd gas LogGas (fun gas =>
  safeAdd gas (n * LogTopicGas) (fun gas =>
  safeMul requestedSize LogDataGas (fun memorySizeGas =>
  safeAdd gas memorySizeGas gasOk))))).

Definition gasKeccak256 : gasFunc := fun memorySize =>
  gasThen (memoryGasCost memorySize) (fun gas =>
  backUint64 1 (fun wordGas =>
  safeMul (toWordSize wordGas) Keccak256WordGas (fun wordGas =>
  safeAdd gas wordGas gasOk))).

Definition pureMemoryGascost : gasFunc := memoryGasCost.
Definition gasReturn : gasFunc := pureMemoryGascost.
Definition gasRevert : gasFunc := pureMemoryGascost.
Definition gasMLoad : gasFunc := pureMemoryGascost.
Definition gasMStore8 : gasFunc := pureMemoryGascost.
Definition gasMStore : gasFunc := pureMemoryGascost.
Definition gasCreate : gasFunc := pureMemoryGascost.

Definition gasCreate2 : gasFunc := fun memorySize =>
  gasThen (memoryGasCost memorySize) (fun gas =>
  backUint64 2 (fun wordGas =>
  safeMul (toWordSize wordGas) Keccak256WordGas (fun wordGas =>
  safeAdd gas wordGas gasOk))).

Definition gasCreateEip3860 : gasFunc := fun memorySize =>
  gasThen (memoryGasCost memorySize) (fun gas =>
  backUint64 2 (fun size =>
  if MaxInitCodeSize <? size then gasErr ErrGasUintOverflow
  else safeAdd gas (InitCodeWordGas * ((size + 31) / 32)) gasOk)).
Definition gasCreate2Eip3860 : gasFunc := fun memorySize =>
  gasThen (memoryGasCost memorySize) (fun gas =>
  backUint64 2 (fun size =>
  if MaxInitCodeSize <? size then gasErr ErrGasUintOverflow
  else safeAdd gas ((InitCodeWordGas + Keccak256WordGas) * ((size + 31) / 32)) gasOk)).

Definition gasExpFrontier : gasFunc := fun _ =>
  exponent ← Back 1; safeAdd ((BitLen exponent + 7) / 8 * ExpByteFrontier) ExpGas gasOk.
Definition gasExpEIP158 : gasFunc := fun _ =>
  exponent ← Back 1; safeAdd ((BitLen exponent + 7) / 8 * ExpByteEIP158) ExpGas gasOk.

(** The end of the four functions: what the callee gets, and it is paid for. *)
Definition withCallGas (gas : Z) : Op (Z * option VMError) :=
  f ← vget;
  requested ← Back 0;
  let '(temp, err) := callGas (r_IsEIP150 rules) (f_gas f) gas requested in
  vmodify (fun f => set_f_evm (set_evm_callGasTemp temp (f_evm f)) f);;
  match err with Some err => gasErr err | None => safeAdd gas temp gasOk end.

Definition gasCall : gasFunc := fun memorySize =>
  value ← Back 2;
  to ← Back 1;
  let transfersValue := negb (value =? 0) in
  let address := Bytes20 to in
  empty ← gets (fun s => Empty s address);
  exist ← gets (fun s => Exist s address);
  let gas :=
    if r_IsEIP158 rules then if transfersValue && (empty : bool) then CallNewAccountGas else 0
    else if negb exist then CallNewAccountGas else 0 in
  let gas := if transfersValue then gas + CallValueTransferGas else gas in
  gasThen (memoryGasCost memorySize) (fun memoryGas =>
  safeAdd gas memoryGas withCallGas).

Definition gasCallCode : gasFunc := fun memorySize =>
  gasThen (memoryGasCost memorySize) (fun memoryGas =>
  value ← Back 2;
  let gas := if negb (value =? 0) then CallValueTransferGas else 0 in
  safeAdd gas memoryGas withCallGas).

Definition gasDelegateCall : gasFunc := fun memorySize => gasThen (memoryGasCost memorySize) withCallGas.
Definition gasStaticCall : gasFunc := fun memorySize => gasThen (memoryGasCost memorySize) withCallGas.

Definition gasSelfdestruct : gasFunc := fun _ =>
  f ← vget;
  gas ← (if r_IsEIP150 rules then
      to ← Back 0;
      let address := Bytes20 to in
      let s := f_state f in
      let new :=
        if r_IsEIP158 rules then Empty s address && negb (GetBalance s (f_self f) =? 0) else negb (Exist s address) in
      mret (if (new : bool) then SelfdestructGasEIP150 + CreateBySelfdestructGas else SelfdestructGasEIP150)
    else mret 0);
  (if HasSelfDestructed (f_state f) (f_self f) then mret tt else modifies (AddRefund SelfdestructRefundGas));;
  gasOk gas.

(** * Access lists (operations_acl.go) *)

(** The operation reads the slot, marks it, and panics if the address itself was not
    in the access list. *)
Definition coldSlot (slot : Hash) : Op Z :=
  f ← vget;
  let '(addrPresent, slotPresent) := SlotInAccessList (f_state f) (f_self f) slot in
  if negb slotPresent then
    modifies (AddSlotToAccessList (f_self f) slot);;
    if negb addrPresent then vpanic else mret ColdSloadCostEIP2929
  else mret 0.

Definition makeGasSStoreFunc (clearingRefund : Z) : gasFunc := fun _ =>
  f ← vget;
  if f_gas f <=? SstoreSentryGasEIP2200 then gasErr ErrSentry
  else
    y ← Back 1; x ← peek;
    current ← state_at x;
    cost ← coldSlot x;
    if current =? y then gasOk (cost + WarmStorageReadCostEIP2929)
    else
      original ← committed_at x;
      if original =? current then
        if original =? 0 then gasOk (cost + SstoreSetGasEIP2200)
        else
          (if y =? 0 then modifies (AddRefund clearingRefund) else mret tt);;
          gasOk (cost + (SstoreResetGasEIP2200 - ColdSloadCostEIP2929))
      else
        dirtyRefunds original current y clearingRefund (SstoreSetGasEIP2200 - WarmStorageReadCostEIP2929)
          ((SstoreResetGasEIP2200 - ColdSloadCostEIP2929) - WarmStorageReadCostEIP2929);;
        gasOk (cost + WarmStorageReadCostEIP2929).
Definition gasSStoreEIP2929 : gasFunc := makeGasSStoreFunc SstoreClearsScheduleRefundEIP2200.
Definition gasSStoreEIP3529 : gasFunc := makeGasSStoreFunc SstoreClearsScheduleRefundEIP3529.

Definition gasSLoadEIP2929 : gasFunc := fun _ =>
  slot ← peek;
  f ← vget;
  let '(_, slotPresent) := SlotInAccessList (f_state f) (f_self f) slot in
  if negb slotPresent then modifies (AddSlotToAccessList (f_self f) slot);; gasOk ColdSloadCostEIP2929
  else gasOk WarmStorageReadCostEIP2929.

(** Whether the address was there; it is now. *)
Definition warm (addr : Address) : Op bool :=
  present ← gets (fun s => AddressInAccessList s addr);
  (if (present : bool) then mret tt else modifies (AddAddressToAccessList addr));;
  mret present.

Definition gasExtCodeCopyEIP2929 : gasFunc := fun memorySize =>
  gasThen (gasExtCodeCopy memorySize) (fun gas =>
  to ← peek;
  present ← warm (Bytes20 to);
  if negb present then safeAdd gas (ColdAccountAccessCostEIP2929 - WarmStorageReadCostEIP2929) gasOk else gasOk gas).

Definition gasEip2929AccountCheck : gasFunc := fun _ =>
  to ← peek;
  present ← warm (Bytes20 to);
  if negb present then gasOk (ColdAccountAccessCostEIP2929 - WarmStorageReadCostEIP2929) else gasOk 0.

(** [contract.Gas += x]. *)
Definition giveBack (x : Z) : Op unit := vmodify (fun f => set_f_gas (u64 (f_gas f + x)) f).

Definition makeCallVariantGasCallEIP2929 (oldCalculator : gasFunc) : gasFunc := fun memorySize =>
  to ← Back 1;
  warmAccess ← warm (Bytes20 to);
  let coldCost := ColdAccountAccessCostEIP2929 - WarmStorageReadCostEIP2929 in
  ok ← (if (warmAccess : bool) then mret true else useGas coldCost);
  if negb ok then gasErr ErrOutOfGas
  else
    '(gas, err) ← oldCalculator memorySize;
    if (warmAccess : bool) || bool_decide (err <> None) then mret (gas, err)
    else giveBack coldCost;; safeAdd gas coldCost gasOk.

Definition gasCallEIP2929 : gasFunc := makeCallVariantGasCallEIP2929 gasCall.
Definition gasDelegateCallEIP2929 : gasFunc := makeCallVariantGasCallEIP2929 gasDelegateCall.
Definition gasStaticCallEIP2929 : gasFunc := makeCallVariantGasCallEIP2929 gasStaticCall.
Definition gasCallCodeEIP2929 : gasFunc := makeCallVariantGasCallEIP2929 gasCallCode.

Definition makeSelfdestructGasFn (refundsEnabled : bool) : gasFunc := fun _ =>
  to ← peek;
  let address := Bytes20 to in
  present ← warm address;
  let gas := if (present : bool) then 0 else ColdAccountAccessCostEIP2929 in
  f ← vget;
  let s := f_state f in
  let gas := if Empty s address && negb (GetBalance s (f_self f) =? 0) then gas + CreateBySelfdestructGas else gas in
  (if refundsEnabled && negb (HasSelfDestructed s (f_self f)) then modifies (AddRefund SelfdestructRefundGas) else mret tt);;
  gasOk gas.
Definition gasSelfdestructEIP2929 : gasFunc := makeSelfdestructGasFn true.
Definition gasSelfdestructEIP3529 : gasFunc := makeSelfdestructGasFn false.

(** [types.ParseDelegation]. *)
Definition DelegationPrefix : bytes := [0xef; 0x01; 0x00].
Definition ParseDelegation (b : bytes) : option Address :=
  if negb (length b =? 23)%nat || negb (bool_decide (take 3 b = DelegationPrefix)) then None else Some (be_value (drop 3 b)).
Definition AddressToDelegation (addr : Address) : bytes := DelegationPrefix ++ be_bytes 20 addr.

Definition makeCallVariantGasCallEIP7702 (oldCalculator : gasFunc) : gasFunc := fun memorySize =>
  to ← Back 1;
  let addr := Bytes20 to in
  present ← warm addr;
  let coldCost := ColdAccountAccessCostEIP2929 - WarmStorageReadCostEIP2929 in
  ok ← (if (present : bool) then mret true else useGas coldCost);
  if negb ok then gasErr ErrOutOfGas
  else
    let total := if (present : bool) then 0 else coldCost in
    code ← gets (fun s => GetCode s addr);
    '(ok, cost) ← (match ParseDelegation code with
        | Some target =>
            present ← warm target;
            let cost := if (present : bool) then WarmStorageReadCostEIP2929 else ColdAccountAccessCostEIP2929 in
            ok ← useGas cost; mret (ok, cost)
        | None => mret (true, 0)
        end);
    if negb ok then gasErr ErrOutOfGas
    else
      let total := total + cost in
      '(old, err) ← oldCalculator memorySize;
      match err with
      | Some err => mret (old, Some err)
      | None => giveBack total;; safeAdd old total gasOk
      end.
Definition gasCallEIP7702 : gasFunc := makeCallVariantGasCallEIP7702 gasCall.
Definition gasDelegateCallEIP7702 : gasFunc := makeCallVariantGasCallEIP7702 gasDelegateCall.
Definition gasStaticCallEIP7702 : gasFunc := makeCallVariantGasCallEIP7702 gasStaticCall.
Definition gasCallCodeEIP7702 : gasFunc := makeCallVariantGasCallEIP7702 gasCallCode.
End gas.
