(* ===== verification/VmOps.v ===== *)
(** The operations of the machine (src/core/vm/instructions.go, and the ones of
    eips.go), and which positions may be jumped to (contract.go). *)
From S2P Require Import Prelude Validators Messages Rlp Config ChainConfig Forks AccountExtra StateJournal VmAnalysis VmState VmGas.

(** * What operations call

    The functions of [EVM] that run other contracts, with what they return. *)
Record Machine := mkMachine {
  vm_Call : ContractRef -> Address -> bytes -> Z -> Z -> VM EVM (bytes * Z * option VMError);
  vm_CallCode : ContractRef -> Address -> bytes -> Z -> Z -> VM EVM (bytes * Z * option VMError);
  vm_DelegateCall : ContractRef -> Address -> bytes -> Z -> VM EVM (bytes * Z * option VMError);
  vm_StaticCall : ContractRef -> Address -> bytes -> Z -> VM EVM (bytes * Z * option VMError);
  vm_Create : ContractRef -> bytes -> Z -> Z -> VM EVM (bytes * Address * Z * option VMError);
  vm_Create2 : ContractRef -> bytes -> Z -> Z -> Z -> VM EVM (bytes * Address * Z * option VMError);
}.

Definition liftEVM {A} (m : VM EVM A) : Op A := fun f =>
  match m (f_evm f) with Done (a, e) => Done (a, set_f_evm e f) | Panic => Panic | NoFuel => NoFuel end.

Abbreviation executionFunc := (Op (bytes * option VMError)).
Definition proceed : executionFunc := mret ([], None).
Definition fails (err : VMError) : executionFunc := mret ([], Some err).

(** * Jumps (contract.go) *)

Definition JUMPDEST : Z := 0x5b.
Definition codeSegmentOp (bits : bitvec) (udest : Z) : Op bool := voption (codeSegment bits udest).

Definition isCode (udest : Z) : Op bool :=
  f ← vget;
  let c := f_contract f in
  match c_analysis c with
  | Some analysis => codeSegmentOp analysis udest
  | None =>
      if negb (c_CodeHash c =? 0) then
        analysis ← (match evm_jumpdests (f_evm f) !! c_CodeHash c with
          | Some analysis => mret analysis
          | None =>
              analysis ← voption (codeBitmap (c_Code c));
              vmodify (fun f => set_f_evm (set_evm_jumpdests (<[c_CodeHash c := analysis]> (evm_jumpdests (f_evm f))) (f_evm f)) f);;
              mret analysis
          end);
        vmodify (fun f => set_f_contract (set_c_analysis (Some analysis) (f_contract f)) f);;
        codeSegmentOp analysis udest
      else
        analysis ← voption (codeBitmap (c_Code c));
        vmodify (fun f => set_f_contract (set_c_analysis (Some analysis) (f_contract f)) f);;
        codeSegmentOp analysis udest
  end.

Definition validJumpdest (dest : Z) : Op bool :=
  f ← vget;
  let code := c_Code (f_contract f) in
  let '(udest, overflow) := Uint64WithOverflow dest in
  if overflow || (Z.of_nat (length code) <=? udest) then mret false
  else
    op ← voption (code !! Z.to_nat udest);
    if negb (op =? JUMPDEST) then mret false else isCode udest.

(** * Operations *)

(** [x, y := pop(), peek()] and the result in place of [y]. *)
Definition binary (g : Z -> Z -> Z) : executionFunc := x ← pop; y ← peek; poke (g x y);; proceed.
Definition unary (g : Z -> Z) : executionFunc := x ← peek; poke (g x);; proceed.
Definition ternary (g : Z -> Z -> Z -> Z) : executionFunc := x ← pop; y ← pop; z ← peek; poke (g x y z);; proceed.
Definition pushes (g : Frame -> Z) : executionFunc := f ← vget; push (g f);; proceed.
Definition bit (b : bool) : Z := if b then 1 else 0.

Section ops.
Context `{Crypto} `{Uint256} (env : Env).
Let rules := env_chainRules env.
Let context := env_Context env.

Definition opAdd : executionFunc := binary (fun x y => u256 (x + y)).
Definition opSub : executionFunc := binary (fun x y => u256 (x - y)).
Definition opMul : executionFunc := binary (fun x y => u256 (x * y)).
Definition opDiv : executionFunc := binary (fun x y => word_Div x y).
Definition opSdiv : executionFunc := binary (fun x y => word_SDiv x y).
Definition opMod : executionFunc := binary (fun x y => word_Mod x y).
Definition opSmod : executionFunc := binary (fun x y => word_SMod x y).
Definition opExp : executionFunc := binary (fun base exponent => word_Exp base exponent).
Definition opSignExtend : executionFunc := binary (fun back num => word_ExtendSign num back).
Definition opNot : executionFunc := unary (fun x => 2 ^ 256 - 1 - x).
Definition opLt : executionFunc := binary (fun x y => bit (x <? y)).
Definition opGt : executionFunc := binary (fun x y => bit (y <? x)).
Definition opSlt : executionFunc := binary (fun x y => bit (signed x <? signed y)).
Definition opSgt : executionFunc := binary (fun x y => bit (signed y <? signed x)).
Definition opEq : executionFunc := binary (fun x y => bit (x =? y)).
Definition opIszero : executionFunc := unary (fun x => bit (x =? 0)).
Definition opAnd : executionFunc := binary Z.land.
Definition opOr : executionFunc := binary Z.lor.
Definition opXor : executionFunc := binary Z.lxor.
Definition opByte : executionFunc := binary (fun th val => word_Byte val th).
Definition opAddmod : executionFunc := ternary (fun x y z => if z =? 0 then 0 else word_AddMod x y z).
Definition opMulmod : executionFunc := ternary (fun x y z => word_MulMod x y z).
Definition opSHL : executionFunc := binary (fun shift value => if shift <? 256 then u256 (Z.shiftl value shift) else 0).
Definition opSHR : executionFunc := binary (fun shift value => if shift <? 256 then Z.shiftr value shift else 0).
Definition opSAR : executionFunc := binary (fun shift value =>
  if 256 <? shift then if 0 <=? signed value then 0 else 2 ^ 256 - 1 else word_SRsh value (u64 shift)).

Definition opKeccak256 : executionFunc :=
  offset ← pop; size ← peek;
  data ← mem_get (mem_GetPtr (i64 (u64 offset)) (i64 (u64 size)));
  let hash := be_value (Keccak256 data) in
  (if vc_EnablePreimageRecording (env_Config env) then modifies (AddPreimage hash data) else mret tt);;
  poke (u256 hash);; proceed.

Definition opAddress : executionFunc := pushes (fun f => f_self f).
Definition opBalance : executionFunc := slot ← peek; b ← gets (fun s => GetBalance s (Bytes20 slot)); poke b;; proceed.
Definition opOrigin : executionFunc := pushes (fun _ => tc_Origin (env_TxContext env)).
Definition opCaller : executionFunc := pushes (fun f => c_CallerAddress (f_contract f)).
Definition opCallValue : executionFunc := pushes (fun f => c_value (f_contract f)).
Definition opCallDataLoad : executionFunc :=
  x ← peek;
  f ← vget;
  let '(offset, overflow) := Uint64WithOverflow x in
  if negb overflow then data ← voption (getData (c_Input (f_contract f)) offset 32); poke (SetBytes data);; proceed
  else poke 0;; proceed.
Definition opCallDataSize : executionFunc := pushes (fun f => Z.of_nat (length (c_Input (f_contract f)))).

(** The three operations that copy from data that may end early. *)
Definition copyData (memOffset dataOffset length : Z) (data : bytes) : executionFunc :=
  let '(dataOffset64, overflow) := Uint64WithOverflow dataOffset in
  let dataOffset64 := if overflow then MaxUint64 else dataOffset64 in
  piece ← voption (getData data dataOffset64 (u64 length));
  mem_do (mem_Set (u64 memOffset) (u64 length) piece);; proceed.
Definition opCallDataCopy : executionFunc :=
  memOffset ← pop; dataOffset ← pop; length ← pop;
  f ← vget; copyData memOffset dataOffset length (c_Input (f_contract f)).
Definition opReturnDataSize : executionFunc := pushes (fun f => Z.of_nat (length (evm_returnData (f_evm f)))).
Definition opReturnDataCopy : executionFunc :=
  memOffset ← pop; dataOffset ← pop; len ← pop;
  f ← vget;
  let returnData := evm_returnData (f_evm f) in
  let '(offset64, overflow) := Uint64WithOverflow dataOffset in
  if overflow then fails ErrReturnDataOutOfBounds
  else
    let '(end64, overflow) := Uint64WithOverflow (u256 (dataOffset + len)) in
    if overflow || (Z.of_nat (length returnData) <? end64) then fails ErrReturnDataOutOfBounds
    else
      piece ← voption (slice returnData offset64 end64);
      mem_do (mem_Set (u64 memOffset) (u64 len) piece);; proceed.
Definition opExtCodeSize : executionFunc := slot ← peek; n ← gets (fun s => GetCodeSize s (Bytes20 slot)); poke n;; proceed.
Definition opCodeSize : executionFunc := pushes (fun f => Z.of_nat (length (c_Code (f_contract f)))).
Definition opCodeCopy : executionFunc :=
  memOffset ← pop; codeOffset ← pop; length ← pop;
  f ← vget; copyData memOffset codeOffset length (c_Code (f_contract f)).
Definition opExtCodeCopy : executionFunc :=
  a ← pop; memOffset ← pop; codeOffset ← pop; length ← pop;
  code ← gets (fun s => GetCode s (Bytes20 a)); copyData memOffset codeOffset length code.
Definition opExtCodeHash : executionFunc :=
  slot ← peek;
  h ← gets (fun s => if Empty s (Bytes20 slot) then 0 else GetCodeHash s (Bytes20 slot));
  poke h;; proceed.
Definition opGasprice : executionFunc := pushes (fun _ => u256 (tc_GasPrice (env_TxContext env))).
Definition opBlockhash : executionFunc :=
  num ← peek;
  let '(num64, overflow) := Uint64WithOverflow num in
  if (overflow : bool) then poke 0;; proceed
  else
    let upper := big_Uint64 (bc_BlockNumber context) in
    let lower := if upper <? 257 then 0 else upper - 256 in
    if (lower <=? num64) && (num64 <? upper) then poke (bc_GetHash context num64);; proceed else poke 0;; proceed.
Definition opCoinbase : executionFunc := pushes (fun _ => bc_Coinbase context).
Definition opTimestamp : executionFunc := pushes (fun _ => bc_Time context).
Definition opNumber : executionFunc := pushes (fun _ => u256 (bc_BlockNumber context)).
Definition opDifficulty : executionFunc := d ← voption (bc_Difficulty context); push (u256 d);; proceed.
Definition opRandom : executionFunc := h ← voption (bc_Random context); push h;; proceed.
Definition opGasLimit : executionFunc := pushes (fun _ => bc_GasLimit context).
Definition opPop : executionFunc := _ ← pop; proceed.
Definition opMload : executionFunc :=
  v ← peek; data ← mem_get (mem_GetPtr (i64 (u64 v)) 32); poke (SetBytes data);; proceed.
Definition opMstore : executionFunc := mStart ← pop; val ← pop; mem_do (mem_Set32 (u64 mStart) val);; proceed.
Definition opMstore8 : executionFunc :=
  off ← pop; val ← pop;
  mem_do (fun m =>
    if u64 off <? mem_Len m then Some (mkMemory (<[Z.to_nat (u64 off) := u8 (u64 val)]> (mem_store m)) (mem_lastGasCost m)) else None);;
  proceed.
Definition opSload : executionFunc := loc ← peek; val ← state_at loc; poke val;; proceed.
Definition readOnly : Op bool := f ← vget; mret (evm_readOnly (f_evm f)).
Definition opSstore : executionFunc :=
  ro ← readOnly;
  if (ro : bool) then fails ErrWriteProtection
  else loc ← pop; val ← pop; f ← vget; modifies (SetState (f_self f) loc val);; proceed.

(** A look at the flag that cancels the run. *)
Definition aborted : Op bool := fun f =>
  Done (env_abort env (evm_looks (f_evm f)), set_f_evm (set_evm_looks (S (evm_looks (f_evm f))) (f_evm f)) f).
Definition jumpTo (pos : Z) : executionFunc :=
  valid ← validJumpdest pos;
  if negb valid then fails ErrInvalidJump else vmodify (set_f_pc (u64 (u64 pos - 1)));; proceed.
Definition opJump : executionFunc :=
  abort ← aborted;
  if (abort : bool) then fails errStopToken else pos ← pop; jumpTo pos.
Definition opJumpi : executionFunc :=
  abort ← aborted;
  if (abort : bool) then fails errStopToken
  else pos ← pop; cond ← pop; if negb (cond =? 0) then jumpTo pos else proceed.
Definition opJumpdest : executionFunc := proceed.
Definition opPc : executionFunc := pushes f_pc.
Definition opMsize : executionFunc := pushes (fun f => mem_Len (f_mem f)).
Definition opGas : executionFunc := pushes f_gas.

Definition opReturn : executionFunc :=
  offset ← pop; size ← pop;
  ret ← mem_get (mem_GetPtr (i64 (u64 offset)) (i64 (u64 size))); mret (ret, Some errStopToken).
Definition opRevert : executionFunc :=
  offset ← pop; size ← pop;
  ret ← mem_get (mem_GetPtr (i64 (u64 offset)) (i64 (u64 size)));
  vmodify (fun f => set_f_evm (set_evm_returnData ret (f_evm f)) f);; mret (ret, Some ErrExecutionReverted).
Definition opUndefined : executionFunc :=
  f ← vget; op ← voption (c_Code (f_contract f) !! Z.to_nat (f_pc f)); fails (ErrInvalidOpCode op).
Definition opStop : executionFunc := fails errStopToken.

(** [makeLog]: the topics are popped after the region. *)
Fixpoint popN (n : nat) : Op (list Z) :=
  match n with O => mret [] | S n => x ← pop; xs ← popN n; mret (x :: xs) end.
Definition makeLog (size : nat) : executionFunc :=
  ro ← readOnly;
  if (ro : bool) then fails ErrWriteProtection
  else
    mStart ← pop; mSize ← pop; topics ← popN size;
    d ← mem_get (mem_GetCopy (i64 (u64 mStart)) (i64 (u64 mSize)));
    f ← vget;
    modifies (AddLog (mkLog (f_self f) topics d (big_Uint64 (bc_BlockNumber context)) 0 0 0));; proceed.

Definition opPush1 : executionFunc :=
  vmodify (fun f => set_f_pc (u64 (f_pc f + 1)) f);;
  f ← vget;
  let code := c_Code (f_contract f) in
  if f_pc f <? Z.of_nat (length code) then b ← voption (code !! Z.to_nat (f_pc f)); push b;; proceed
  else push 0;; proceed.
Definition makePush (size : Z) (pushByteSize : nat) : executionFunc :=
  f ← vget;
  let code := c_Code (f_contract f) in
  let codeLen := Z.of_nat (length code) in
  let start := i64 (u64 (f_pc f + 1)) in
  let startMin := if start <? codeLen then start else codeLen in
  let endMin := if startMin + Z.of_nat pushByteSize <? codeLen then startMin + Z.of_nat pushByteSize else codeLen in
  piece ← voption (slice code startMin endMin);
  push (SetBytes (RightPadBytes piece pushByteSize));;
  vmodify (fun f => set_f_pc (u64 (f_pc f + size)) f);; proceed.
Definition makeDup (size : nat) : executionFunc := dup size;; proceed.
Definition makeSwap (size : nat) : executionFunc := swap (S size);; proceed.

(** ** eips.go *)

Definition opSelfBalance : executionFunc := pushes (fun f => GetBalance (f_state f) (f_self f)).
Definition opChainID : executionFunc := id ← voption (ChainID (env_chainConfig env)); push (u256 id);; proceed.
Definition opTload : executionFunc := loc ← peek; f ← vget; poke (GetTransientState (f_state f) (f_self f) loc);; proceed.
Definition opTstore : executionFunc :=
  ro ← readOnly;
  if (ro : bool) then fails ErrWriteProtection
  else loc ← pop; val ← pop; f ← vget; modifies (SetTransientState (f_self f) loc val);; proceed.
Definition opBaseFee : executionFunc := fee ← voption (bc_BaseFee context); push (u256 fee);; proceed.
Definition opPush0 : executionFunc := push 0;; proceed.
Definition opMcopy : executionFunc :=
  dst ← pop; src ← pop; length ← pop; mem_do (mem_Copy (u64 dst) (u64 src) (u64 length));; proceed.
Definition opBlobHash : executionFunc :=
  index ← peek;
  let hashes := tc_BlobHashes (env_TxContext env) in
  if index <? Z.of_nat (length hashes) then h ← voption (hashes !! Z.to_nat (u64 index)); poke h;; proceed
  else poke 0;; proceed.
Definition opBlobBaseFee : executionFunc := fee ← voption (bc_BlobBaseFee context); push (u256 fee);; proceed.
End ops.
