(* ===== verification/NativeManager.v ===== *)
(** The contracts that the machine itself provides on an Anzeon chain
    (src/core/vm/native_manager.go): the coin manager mints, burns and moves coins for
    the adapter contract, the account manager sets the flags of accounts for the
    council.  With them what the machine needs to move value (src/core/evm.go, and
    parts of src/core/vm/evm.go).

    Who may use the native managers: the coin manager changes the state for the adapter
    contract only, the account manager for the council only, and both only when they
    are called directly. *)
From S2P Require Import Prelude Validators AccountExtra Messages Config Rlp ChainConfig Forks StateJournal VmAnalysis VmState VmGas.

Definition CALL : Z := 0xf1.
Definition CALLCODE : Z := 0xf2.
Definition DELEGATECALL : Z := 0xf4.
Definition STATICCALL : Z := 0xfa.

Definition UpdateBalanceGas : Z := 4500.
Definition UpdateAccountExtraGas : Z := 4500.
Definition NativeCoinManagerAddress : Address := 0xb00002.
Definition AccountManagerAddress : Address := 0xb00003.
Definition TransferEventSig : Hash := 0xddf252ad1be2c89b69c2b068fc378daa952ba7f163c4a11628f55a4df523b3ef.

(** The state of the machine seen by functions of [EVM]. *)
Abbreviation EM := (VM EVM).
Definition egets {A} (g : StateDB -> A) : EM A := fun e => Done (g (evm_StateDB e), e).
Definition emodifies (g : StateDB -> StateDB) : EM unit := fun e => Done (tt, set_evm_StateDB (g (evm_StateDB e)) e).

(** What a method returns: data, the gas that is left, an error. *)
Abbreviation Returned := (bytes * Z * option VMError)%type.

Section native.
Context `{Crypto} (env : Env).
Let rules := env_chainRules env.
Let config := env_chainConfig env.

(** * Moving value *)

Definition CanTransfer (db : StateDB) (addr : Address) (amount : Z) : bool := amount <=? GetBalance db addr.
Definition Transfer (sender recipient : Address) (amount : Z) (db : StateDB) : StateDB :=
  AddBalance recipient amount (SubBalance sender amount db).

Definition systemContract (which : SystemContracts -> option SystemContract) : option Address :=
  anzeon ← Anzeon config; contracts ← SystemContracts_ anzeon; sc_Address <$> which contracts.

Definition transferLog (adapter sender recipient : Address) (amount : Z) : Log :=
  mkLog adapter [TransferEventSig; sender; recipient] (be_bytes 32 amount) (big_Uint64 (bc_BlockNumber (env_Context env))) 0 0 0.
Definition AddTransferLog (sender recipient : Address) (amount : Z) : EM unit :=
  if negb (AnzeonEnabled config) then mret tt
  else
    adapter ← voption (systemContract NativeCoinAdapter);
    emodifies (AddLog (transferLog adapter sender recipient amount)).

Definition checkBlacklisted (from to : Address) (s : StateDB) : option VMError :=
  if negb (r_IsAnzeon rules) then None
  else if IsBlacklisted s from then Some (ErrBlacklistedAccount from)
  else if IsBlacklisted s to then Some (ErrBlacklistedAccount to)
  else None.

(** * Methods *)

Inductive NativeManagerMethod :=
  | coinManagerMint
  | coinManagerBurn
  | coinManagerTransfer
  | accountManagerBlacklist
  | accountManagerUnBlacklist
  | accountManagerIsBlacklisted
  | accountManagerAuthorize
  | accountManagerUnAuthorize
  | accountManagerIsAuthorized.

Definition ParamCount (m : NativeManagerMethod) : nat :=
  match m with coinManagerMint | coinManagerBurn => 2 | coinManagerTransfer => 3 | _ => 1 end.

Definition validateCaller (required : option Address) (caller : Address) : EM (option VMError) :=
  required ← voption required;
  mret (if negb (caller =? required) then Some ErrUnauthorized else None).
Definition validateCallContext (required callContext : Z) : option VMError :=
  if negb (callContext =? required) then Some (ErrInvalidCallContext callContext required) else None.
Definition canRunCoinManger (op : Z) (caller : Address) : EM (option VMError) :=
  match validateCallContext CALL op with
  | Some err => mret (Some err)
  | None => validateCaller (systemContract NativeCoinAdapter) caller
  end.
Definition canRunAccountManager (op : Z) (caller : Address) : EM (option VMError) :=
  match validateCallContext CALL op with
  | Some err => mret (Some err)
  | None => validateCaller (systemContract GovCouncil) caller
  end.
Definition CanRun (m : NativeManagerMethod) (op : Z) (caller : Address) : EM (option VMError) :=
  match m with
  | coinManagerMint | coinManagerBurn | coinManagerTransfer => canRunCoinManger op caller
  | accountManagerIsBlacklisted | accountManagerIsAuthorized => mret None
  | _ => canRunAccountManager op caller
  end.

(** The [i]-th parameter, as an address or as an amount. *)
Definition param (input : bytes) (i : nat) : bytes := take 32 (drop (4 + 32 * i) input).
Definition paramAddress (input : bytes) (i : nat) : Address := be_value (drop 12 (param input i)).
Definition paramAmount (input : bytes) (i : nat) : Z := SetBytes (param input i).

Definition nativeTransfer (from to : Address) (amount suppliedGas : Z) : EM (Z * option VMError) :=
  if negb (amount =? 0) then
    exist ← egets (fun s => Exist s to);
    let transfer := negb (from =? 0) in
    let gasCost := UpdateBalanceGas + (if transfer then UpdateBalanceGas else 0) + (if negb exist then CallNewAccountGas else 0) in
    if suppliedGas <? gasCost then mret (0, Some ErrOutOfGas)
    else
      (if transfer then emodifies (SubBalance from amount) else mret tt);;
      emodifies (AddBalance to amount);;
      AddTransferLog from to amount;;
      mret (suppliedGas - gasCost, None)
  else
    AddTransferLog from to amount;;
    mret (suppliedGas, None).

Definition runMint (input : bytes) (suppliedGas : Z) : EM Returned :=
  let to := paramAddress input 0 in
  let amount := paramAmount input 1 in
  '(gas, err) ← nativeTransfer 0 to amount suppliedGas;
  mret ([], gas, err).
Definition runBurn (input : bytes) (suppliedGas : Z) : EM Returned :=
  let from := paramAddress input 0 in
  let amount := paramAmount input 1 in
  can ← egets (fun s => CanTransfer s from amount);
  if negb can then mret ([], suppliedGas, Some ErrInsufficientBalance)
  else if suppliedGas <? UpdateBalanceGas then mret ([], 0, Some ErrOutOfGas)
  else
    emodifies (SubBalance from amount);;
    AddTransferLog from 0 amount;;
    mret ([], suppliedGas - UpdateBalanceGas, None).
Definition runTransfer (input : bytes) (suppliedGas : Z) : EM Returned :=
  let from := paramAddress input 0 in
  let to := paramAddress input 1 in
  let amount := paramAmount input 2 in
  can ← egets (fun s => CanTransfer s from amount);
  if negb can then mret ([], suppliedGas, Some ErrInsufficientBalance)
  else
    '(gas, err) ← nativeTransfer from to amount suppliedGas;
    mret ([], gas, err).

(** Setting a flag may create the account, clearing one is charged the same always. *)
Definition runSetFlag (set : Address -> StateDB -> StateDB) (input : bytes) (suppliedGas : Z) : EM Returned :=
  let address := paramAddress input 0 in
  exist ← egets (fun s => Exist s address);
  let gasCost := UpdateAccountExtraGas + (if negb exist then CallNewAccountGas else 0) in
  if suppliedGas <? gasCost then mret ([], 0, Some ErrOutOfGas)
  else emodifies (set address);; mret ([], suppliedGas - gasCost, None).
Definition runClearFlag (clear : Address -> StateDB -> StateDB) (input : bytes) (suppliedGas : Z) : EM Returned :=
  let address := paramAddress input 0 in
  if suppliedGas <? UpdateAccountExtraGas then mret ([], 0, Some ErrOutOfGas)
  else emodifies (clear address);; mret ([], suppliedGas - UpdateAccountExtraGas, None).
Definition runReadFlag (get : StateDB -> Address -> bool) (input : bytes) (suppliedGas : Z) : EM Returned :=
  b ← egets (fun s => get s (paramAddress input 0));
  mret (replicate 31 0 ++ [if (b : bool) then 1 else 0], suppliedGas, None).

Definition method_Run (m : NativeManagerMethod) : bytes -> Z -> EM Returned :=
  match m with
  | coinManagerMint => runMint
  | coinManagerBurn => runBurn
  | coinManagerTransfer => runTransfer
  | accountManagerBlacklist => runSetFlag SetBlacklisted
  | accountManagerUnBlacklist => runClearFlag ClearBlacklisted
  | accountManagerIsBlacklisted => runReadFlag IsBlacklisted
  | accountManagerAuthorize => runSetFlag SetAuthorized
  | accountManagerUnAuthorize => runClearFlag ClearAuthorized
  | accountManagerIsAuthorized => runReadFlag IsAuthorized
  end.

(** * Managers *)

Abbreviation NativeManagerContract := (gmap (list Z) NativeManagerMethod).

(** "mint(address,uint256)" and the others, as bytes. *)
Definition sig_mint : bytes := [109;105;110;116;40;97;100;100;114;101;115;115;44;117;105;110;116;50;53;54;41].
Definition sig_burn : bytes := [98;117;114;110;40;97;100;100;114;101;115;115;44;117;105;110;116;50;53;54;41].
Definition sig_transfer : bytes :=
  [116;114;97;110;115;102;101;114;40;97;100;100;114;101;115;115;44;97;100;100;114;101;115;115;44;117;105;110;116;50;53;54;41].
Definition sig_blacklist : bytes := [98;108;97;99;107;108;105;115;116;40;97;100;100;114;101;115;115;41].
Definition sig_unBlacklist : bytes := [117;110;66;108;97;99;107;108;105;115;116;40;97;100;100;114;101;115;115;41].
Definition sig_isBlacklisted : bytes := [105;115;66;108;97;99;107;108;105;115;116;101;100;40;97;100;100;114;101;115;115;41].
Definition sig_authorize : bytes := [97;117;116;104;111;114;105;122;101;40;97;100;100;114;101;115;115;41].
Definition sig_unAuthorize : bytes := [117;110;65;117;116;104;111;114;105;122;101;40;97;100;100;114;101;115;115;41].
Definition sig_isAuthorized : bytes := [105;115;65;117;116;104;111;114;105;122;101;100;40;97;100;100;114;101;115;115;41].

Definition bytesToManagerMethodSelector (b : bytes) : bytes := take 4 b.
Definition selector (signature : bytes) : bytes := bytesToManagerMethodSelector (Keccak256 signature).

Definition coinManager : NativeManagerContract :=
  <[selector sig_transfer := coinManagerTransfer]> (<[selector sig_burn := coinManagerBurn]> (<[selector sig_mint := coinManagerMint]> ∅)).
Definition accountManager : NativeManagerContract :=
  <[selector sig_isAuthorized := accountManagerIsAuthorized]> (<[selector sig_unAuthorize := accountManagerUnAuthorize]>
  (<[selector sig_authorize := accountManagerAuthorize]> (<[selector sig_isBlacklisted := accountManagerIsBlacklisted]>
  (<[selector sig_unBlacklist := accountManagerUnBlacklist]> (<[selector sig_blacklist := accountManagerBlacklist]> ∅))))).
Definition nativeManager (addr : Address) : option NativeManagerContract :=
  if negb (r_IsAnzeon rules) then None
  else if addr =? NativeCoinManagerAddress then Some coinManager
  else if addr =? AccountManagerAddress then Some accountManager
  else None.
Definition ActiveNativeManagers (rules : Rules) : list Address :=
  if r_IsAnzeon rules then [NativeCoinManagerAddress; AccountManagerAddress] else [].

Definition runNativeManager (m : NativeManagerContract) (op : Z) (caller : Address) (input : bytes) (suppliedGas : Z) : EM Returned :=
  if (length input <? 4)%nat then mret ([], suppliedGas, Some ErrInvalidSelectorLength)
  else
    match m !! bytesToManagerMethodSelector input with
    | None => mret ([], suppliedGas, Some ErrInvalidMethod)
    | Some method =>
        err ← CanRun method op caller;
        match err with
        | Some err => mret ([], suppliedGas, Some err)
        | None =>
            if negb (length input - 4 =? ParamCount method * 32)%nat then mret ([], suppliedGas, Some ErrInvalidInputLength)
            else method_Run method input suppliedGas
        end
    end.
End native.

Section native.
Context `{Crypto} (env : Env).

(** What a function leaves when it returns, if it returns. *)
Definition leaves {A} (m : EM A) (e : EVM) (Q : A -> EVM -> Prop) : Prop := forall a e', m e = Done (a, e') -> Q a e'.
Lemma leaves_bind {A B} (m : EM A) (k : A -> EM B) e Q : leaves m e (fun a e' => leaves (k a) e' Q) -> leaves (m ≫= k) e Q.
Proof. intros Hm b e'' Hb. unfold mbind, VM_bind in Hb. destruct (m e) as [[a e']| |] eqn:He; [|done..]. by apply (Hm a e' He). Qed.
Lemma leaves_ret {A} (a : A) e (Q : A -> EVM -> Prop) : Q a e -> leaves (mret a) e Q.
Proof. intros HQ a' e' [= <- <-]. done. Qed.

(** The contract whose calls a method serves. *)
Definition servant (m : NativeManagerMethod) : option Address :=
  match m with
  | coinManagerMint | coinManagerBurn | coinManagerTransfer => systemContract env NativeCoinAdapter
  | _ => systemContract env GovCouncil
  end.
Definition reads (m : NativeManagerMethod) : bool := match m with accountManagerIsBlacklisted | accountManagerIsAuthorized => true | _ => false end.

Lemma CanRun_spec m op caller e : leaves (CanRun env m op caller) e (fun err e' => e' = e /\ (err = None -> reads m = true \/ op = CALL /\ servant m = Some caller)).
Proof.
  assert (forall which : SystemContracts -> option SystemContract,
    leaves (match validateCallContext CALL op with Some err => mret (Some err) | None => validateCaller (systemContract env which) caller end) e
      (fun err e' => e' = e /\ (err = None -> op = CALL /\ systemContract env which = Some caller))) as Hrun.
  { intros which. unfold validateCallContext. destruct (Z.eqb_spec op CALL) as [->|]; cbn [negb]; [|by apply leaves_ret].
    intros err e' Hx. unfold validateCaller, voption, mbind, VM_bind in Hx. destruct (systemContract env which) as [a|]; [|done]. cbn in Hx.
    injection Hx as <- <-. split; [done|]. by destruct (Z.eqb_spec caller a) as [->|]. }
  destruct m; cbn [CanRun servant reads]; try (apply leaves_ret; split; [done|by left]).
  all: intros err e' Hx; edestruct Hrun as [-> Hc]; [exact Hx|]; split; [done|]; intros He; right; by apply Hc.
Qed.

Lemma coin_methods b m : coinManager !! b = Some m -> servant m = systemContract env NativeCoinAdapter.
Proof. unfold coinManager. intros Hl. repeat (apply lookup_insert_Some in Hl as [[_ <-]|[_ Hl]]; [done|]). by rewrite lookup_empty in Hl. Qed.
Lemma account_methods b m : accountManager !! b = Some m -> servant m = systemContract env GovCouncil.
Proof. unfold accountManager. intros Hl. repeat (apply lookup_insert_Some in Hl as [[_ <-]|[_ Hl]]; [done|]). by rewrite lookup_empty in Hl. Qed.

(** ** A method that fails has changed nothing *)

Definition all_or_nothing (e : EVM) (err : option VMError) (e' : EVM) : Prop := err <> None -> e' = e.
Lemma nativeTransfer_all from to x gas e : leaves (nativeTransfer env from to x gas) e (fun r e' => all_or_nothing e r.2 e').
Proof.
  assert (forall (k : EM unit) (g : Z) e1, leaves (k;; mret (g, None : option VMError)) e1 (fun (r : Z * option VMError) e' => all_or_nothing e r.2 e')) as Hend.
  { intros k g e1. apply leaves_bind. intros [] e' _. apply leaves_ret. by intros []. }
  unfold nativeTransfer. destruct (negb (x =? 0)); [|apply Hend]. apply leaves_bind. intros exist e' [= <- <-]. cbv zeta. destruct (gas <? _); [by apply leaves_ret|].
  apply leaves_bind. intros [] e1 _. apply leaves_bind. intros [] e2 _. apply Hend.
Qed.
Lemma runReadFlag_keeps get input gas e : leaves (runReadFlag get input gas) e (fun r e' => e' = e).
Proof. apply leaves_bind. intros b e' [= <- <-]. by apply leaves_ret. Qed.
Lemma method_reads m input gas e : reads m = true -> leaves (method_Run env m input gas) e (fun r e' => e' = e).
Proof. destruct m; try done; intros _; apply runReadFlag_keeps. Qed.
Lemma method_all m input gas e : leaves (method_Run env m input gas) e (fun r e' => r.2 <> None -> e' = e).
Proof.
  assert (forall set, leaves (runSetFlag set input gas) e (fun r e' => r.2 <> None -> e' = e)) as Hset.
  { intros set. apply leaves_bind. intros b e' [= <- <-]. cbv zeta. destruct (gas <? _); [by apply leaves_ret|]. apply leaves_bind. intros [] e1 _. apply leaves_ret. by intros []. }
  assert (forall clr, leaves (runClearFlag clr input gas) e (fun r e' => r.2 <> None -> e' = e)) as Hclear.
  { intros clr. unfold runClearFlag. cbv zeta. destruct (gas <? _); [by apply leaves_ret|]. apply leaves_bind. intros [] e1 _. apply leaves_ret. by intros []. }
  assert (forall from to x, leaves ('(g, err) ← nativeTransfer env from to x gas; mret ([] : bytes, g, err)) e (fun r e' => r.2 <> None -> e' = e)) as Htr.
  { intros from to x. apply leaves_bind. intros [g err] e' Hx. apply leaves_ret. cbn. exact (nativeTransfer_all from to x gas e _ _ Hx). }
  destruct m; cbn [method_Run].
  - apply Htr.
  - unfold runBurn. cbv zeta. apply leaves_bind. intros can e' [= <- <-]. destruct (negb _); [by apply leaves_ret|]. destruct (gas <? _); [by apply leaves_ret|].
    apply leaves_bind. intros [] e1 _. apply leaves_bind. intros [] e2 _. apply leaves_ret. by intros [].
  - unfold runTransfer. cbv zeta. apply leaves_bind. intros can e' [= <- <-]. destruct (negb _); [by apply leaves_ret|apply Htr].
  - apply Hset.
  - apply Hclear.
  - intros r e' Hx _. by eapply runReadFlag_keeps.
  - apply Hset.
  - apply Hclear.
  - intros r e' Hx _. by eapply runReadFlag_keeps.
Qed.

Lemma native_spec m op caller input gas e : leaves (runNativeManager env m op caller input gas) e (fun r e' =>
  e' = e \/ r.2 = None /\ op = CALL /\ exists method, m !! bytesToManagerMethodSelector input = Some method /\ servant method = Some caller).
Proof.
  unfold runNativeManager. destruct (_ <? _)%nat; [apply leaves_ret; by left|]. destruct (m !! _) as [method|]; [|apply leaves_ret; by left].
  apply leaves_bind. intros err e1 Hc. destruct (CanRun_spec method op caller e _ _ Hc) as [-> Hok]. destruct err as [err|]; [apply leaves_ret; by left|].
  destruct (negb _); [apply leaves_ret; by left|]. intros r e' Hx. pose proof (method_all method input gas e r e' Hx) as Hall.
  destruct (Hok eq_refl) as [Hr|[-> Hs]]; [left; by apply (method_reads method input gas e Hr r e')|]. destruct r as [[ret g] [err|]]; [left; by apply Hall|]. right. split_and!; [done|done|by exists method].
Qed.

(** C10. The native managers change the state for their masters only: if running one
    changes anything, it was called directly (not by a delegate call, a static call or
    a call of its code), it succeeded, and the caller is the adapter contract for the coin
    manager, or the council for the account manager. *)
Theorem native_authorized addr m op caller input gas e r e' : nativeManager env addr = Some m ->
  runNativeManager env m op caller input gas e = Done (r, e') -> e' <> e ->
  r.2 = None /\ op = CALL /\
  (addr = NativeCoinManagerAddress /\ systemContract env NativeCoinAdapter = Some caller \/
   addr = AccountManagerAddress /\ systemContract env GovCouncil = Some caller).
Proof.
  intros Hm Hr Hne. destruct (native_spec m op caller input gas e r e' Hr) as [?|(Hn & Hop & method & Hl & Hs)]; [done|]. split_and!; [done|done|].
  unfold nativeManager in Hm. destruct (negb _); [done|]. destruct (Z.eqb_spec addr NativeCoinManagerAddress).
  - injection Hm as <-. left. by rewrite <- (coin_methods _ _ Hl).
  - destruct (Z.eqb_spec addr AccountManagerAddress); [|done]. injection Hm as <-. right. by rewrite <- (account_methods _ _ Hl).
Qed.
End native.
