(* ===== verification/Evm.v ===== *)
(** Calls between contracts and the loop of the interpreter
    (src/core/vm/evm.go, interpreter.go; the call operations of instructions.go). *)
From S2P Require Import Prelude Validators Messages Rlp RlpStream Extra Config ChainConfig Forks AccountExtra StateJournal VmAnalysis VmState VmGas VmOps NativeManager.

(** * Precompiled contracts (contracts.go)

    The contracts by name; what each one costs and computes is an argument. *)
Inductive Precompiled :=
  | ecrecover | sha256hash | ripemd160hash | dataCopy
  | bigModExp (eip2565 : bool)
  | bn256AddByzantium | bn256ScalarMulByzantium | bn256PairingByzantium
  | bn256AddIstanbul | bn256ScalarMulIstanbul | bn256PairingIstanbul
  | blake2F | kzgPointEvaluation | blsPoP | p256Verify.

(** [PrecompiledContract]: a cost of 64 bits, and data or an error. *)
Class PrecompiledContracts : Type := {
  RequiredGas : Precompiled -> bytes -> Z;
  pre_Run : Precompiled -> bytes -> bytes * option VMError;
}.

Definition BLSPoPPrecompileAddress : Address := 0xb00001.
Definition PrecompiledContractsHomestead : list (Address * Precompiled) :=
  [(1, ecrecover); (2, sha256hash); (3, ripemd160hash); (4, dataCopy)].
Definition PrecompiledContractsByzantium : list (Address * Precompiled) :=
  PrecompiledContractsHomestead ++
  [(5, bigModExp false); (6, bn256AddByzantium); (7, bn256ScalarMulByzantium); (8, bn256PairingByzantium)].
Definition PrecompiledContractsIstanbul : list (Address * Precompiled) :=
  PrecompiledContractsHomestead ++
  [(5, bigModExp false); (6, bn256AddIstanbul); (7, bn256ScalarMulIstanbul); (8, bn256PairingIstanbul); (9, blake2F)].
Definition PrecompiledContractsBerlin : list (Address * Precompiled) :=
  PrecompiledContractsHomestead ++
  [(5, bigModExp true); (6, bn256AddIstanbul); (7, bn256ScalarMulIstanbul); (8, bn256PairingIstanbul); (9, blake2F)].
Definition PrecompiledContractsCancun : list (Address * Precompiled) := PrecompiledContractsBerlin ++ [(0x0a, kzgPointEvaluation)].
Definition PrecompiledContractsAnzeon : list (Address * Precompiled) :=
  PrecompiledContractsCancun ++ [(BLSPoPPrecompileAddress, blsPoP)].
Definition PrecompiledContractsBoho : list (Address * Precompiled) := PrecompiledContractsAnzeon ++ [(0x100, p256Verify)].

Definition activeContracts (rules : Rules) : list (Address * Precompiled) :=
  if r_IsBoho rules then PrecompiledContractsBoho
  else if r_IsAnzeon rules then PrecompiledContractsAnzeon
  else if r_IsCancun rules then PrecompiledContractsCancun
  else if r_IsBerlin rules then PrecompiledContractsBerlin
  else if r_IsIstanbul rules then PrecompiledContractsIstanbul
  else if r_IsByzantium rules then PrecompiledContractsByzantium
  else PrecompiledContractsHomestead.
Definition ActivePrecompiles (rules : Rules) : list Address := (activeContracts rules).*1.
Definition precompile (rules : Rules) (addr : Address) : option Precompiled :=
  (list_to_map (activeContracts rules) : gmap Address Precompiled) !! addr.

Definition RunPrecompiledContract `{PrecompiledContracts} (p : Precompiled) (input : bytes) (suppliedGas : Z) : Returned :=
  let gasCost := u64 (RequiredGas p input) in
  if suppliedGas <? gasCost then ([], 0, Some ErrOutOfGas)
  else let '(output, err) := pre_Run p input in (output, suppliedGas - gasCost, err).

(** * Addresses of new contracts (src/crypto/crypto.go) *)

Section addresses.
Context `{Crypto}.
Definition CreateAddress (b : Address) (nonce : Z) : Address :=
  let data := match EncodeToBytes (VList [VByteArray (addressBytes b); VUint nonce]) with inr data => data | inl _ => [] end in
  be_value (drop 12 (Keccak256 data)).
Definition CreateAddress2 (b : Address) (salt : Hash) (inithash : Hash) : Address :=
  be_value (drop 12 (Keccak256 ([0xff] ++ addressBytes b ++ be_bytes 32 salt ++ be_bytes 32 inithash))).
End addresses.

(** * Calls *)

Section calls.
Context `{Crypto} `{Uint256} `{PrecompiledContracts} (env : Env).
Let rules := env_chainRules env.
Let config := env_chainConfig env.

Definition resolveCode (s : StateDB) (addr : Address) : bytes :=
  let code := GetCode s addr in
  if negb (r_IsAnzeon rules) then code
  else match ParseDelegation code with Some target => GetCode s target | None => code end.
Definition resolveCodeHash (s : StateDB) (addr : Address) : Hash :=
  if r_IsAnzeon rules then
    match ParseDelegation (GetCode s addr) with Some target => GetCodeHash s target | None => GetCodeHash s addr end
  else GetCodeHash s addr.

(** [interpreter.Run], with the gas that is left in the contract. *)
Abbreviation Runner := (Contract -> bytes -> bool -> EM Returned).
Variable Run : Runner.

(** A contract that is called by an account starts a new map of analyses. *)
Definition newJumpdests (caller : ContractRef) : EM unit := fun e =>
  match caller with AccountRef _ => Done (tt, set_evm_jumpdests ∅ e) | ContractOf _ => Done (tt, e) end.

Definition snapshot : EM Z := fun e => let '(id, s) := Snapshot (evm_StateDB e) in Done (id, set_evm_StateDB s e).
Definition revertTo (id : Z) : EM unit := fun e =>
  match RevertToSnapshot id (evm_StateDB e) with Some s => Done (tt, set_evm_StateDB s e) | None => Panic end.

(** After an error the state goes back, and what is left of the gas is gone unless the
    contract reverted itself. *)
Definition settle (id : Z) (r : Returned) : EM Returned :=
  let '(ret, gas, err) := r in
  match err with
  | None => mret (ret, gas, None)
  | Some e =>
      revertTo id;;
      mret (ret, if bool_decide (e = ErrExecutionReverted) then gas else 0, Some e)
  end.

Definition depthExceeded : EM bool := fun e => Done (CallCreateDepth <? evm_depth e, e).

Definition Call (caller : ContractRef) (addr : Address) (input : bytes) (gas value : Z) : EM Returned :=
  deep ← depthExceeded;
  if (deep : bool) then mret ([], gas, Some ErrDepth)
  else
    black ← egets (checkBlacklisted env (ref_Address caller) addr);
    match black with
    | Some err => mret ([], gas, Some err)
    | None =>
        let m := nativeManager env addr in
        let p := precompile rules addr in
        let isNativeManager := bool_decide (is_Some m) in
        let isPrecompile := bool_decide (is_Some p) in
        can ← egets (fun s => CanTransfer s (ref_Address caller) value);
        if negb (value =? 0) && negb can then mret ([], gas, Some ErrInsufficientBalance)
        else if negb (value =? 0) && AnzeonEnabled config && (addr =? 0) then mret ([], gas, Some ErrZeroAddressTransfer)
        else if negb (value =? 0) && AnzeonEnabled config && (isNativeManager || isPrecompile) then
          mret ([], gas, Some ErrValueTransferToPrecompile)
        else
          id ← snapshot;
          exist ← egets (fun s => Exist s addr);
          if negb exist && (negb isPrecompile && negb isNativeManager && r_IsEIP158 rules && (value =? 0)) then mret ([], gas, None)
          else
            (if negb exist then emodifies (CreateAccount addr) else mret tt);;
            emodifies (Transfer (ref_Address caller) addr value);;
            (if negb (value =? 0) then AddTransferLog env (ref_Address caller) addr value else mret tt);;
            r ← (match p, m with
                | Some p, _ => mret (RunPrecompiledContract p input gas)
                | None, Some m => runNativeManager env m CALL (ref_Address caller) input gas
                | None, None =>
                    code ← egets (fun s => resolveCode s addr);
                    if (length code =? 0)%nat then mret ([], gas, None)
                    else
                      hash ← egets (fun s => resolveCodeHash s addr);
                      newJumpdests caller;;
                      Run (NewContract caller addr value gas hash code) input false
                end);
            settle id r
    end.

(** What [CallCode], [DelegateCall] and [StaticCall] run. *)
Definition callBody (caller : ContractRef) (addr : Address) (op : Z) (input : bytes) (gas : Z)
    (contract : Hash -> bytes -> option Contract) (ro : bool) : EM Returned :=
  match precompile rules addr, nativeManager env addr with
  | Some p, _ => mret (RunPrecompiledContract p input gas)
  | None, Some m => runNativeManager env m op (ref_Address caller) input gas
  | None, None =>
      hash ← egets (fun s => resolveCodeHash s addr);
      code ← egets (fun s => resolveCode s addr);
      c ← voption (contract hash code);
      newJumpdests caller;;
      Run c input ro
  end.

Definition CallCode (caller : ContractRef) (addr : Address) (input : bytes) (gas value : Z) : EM Returned :=
  deep ← depthExceeded;
  if (deep : bool) then mret ([], gas, Some ErrDepth)
  else
    black ← egets (checkBlacklisted env (ref_Address caller) addr);
    match black with
    | Some err => mret ([], gas, Some err)
    | None =>
        can ← egets (fun s => CanTransfer s (ref_Address caller) value);
        if negb can then mret ([], gas, Some ErrInsufficientBalance)
        else
          id ← snapshot;
          r ← callBody caller addr NativeManager.CALLCODE input gas
            (fun hash code => Some (NewContract caller (ref_Address caller) value gas hash code)) false;
          settle id r
    end.

Definition DelegateCall (caller : ContractRef) (addr : Address) (input : bytes) (gas : Z) : EM Returned :=
  deep ← depthExceeded;
  if (deep : bool) then mret ([], gas, Some ErrDepth)
  else
    black ← egets (checkBlacklisted env (ref_Address caller) addr);
    match black with
    | Some err => mret ([], gas, Some err)
    | None =>
        id ← snapshot;
        r ← callBody caller addr NativeManager.DELEGATECALL input gas
          (fun hash code => AsDelegate caller (NewContract caller (ref_Address caller) 0 gas hash code)) false;
        settle id r
    end.

Definition StaticCall (caller : ContractRef) (addr : Address) (input : bytes) (gas : Z) : EM Returned :=
  deep ← depthExceeded;
  if (deep : bool) then mret ([], gas, Some ErrDepth)
  else
    black ← egets (checkBlacklisted env (ref_Address caller) addr);
    match black with
    | Some err => mret ([], gas, Some err)
    | None =>
        id ← snapshot;
        emodifies (AddBalance addr 0);;
        r ← callBody caller addr NativeManager.STATICCALL input gas
          (fun hash code => Some (NewContract caller addr 0 gas hash code)) true;
        settle id r
    end.

(** [create] returns the address as well. *)
Abbreviation Created := (bytes * Address * Z * option VMError)%type.

(** The checks on the code that the run returned, and storing it. *)
Definition storeCode (address : Address) (r : Returned) : EM Returned :=
  let '(ret, gas, err) := r in
  let len := Z.of_nat (length ret) in
  let err := match err with None => if r_IsEIP158 rules && (MaxCodeSize <? len) then Some ErrMaxCodeSizeExceeded else None | e => e end in
  let err := match err with None => if (1 <=? len) && (default 0 (head ret) =? 0xef) && r_IsLondon rules then Some ErrInvalidCode else None | e => e end in
  match err with
  | Some e => mret (ret, gas, Some e)
  | None =>
      let createDataGas := u64 (len * CreateDataGas) in
      if gas <? createDataGas then mret (ret, gas, Some ErrCodeStoreOutOfGas)
      else emodifies (SetCode address ret);; mret (ret, gas - createDataGas, None)
  end.

Definition create (caller : ContractRef) (code : bytes) (hash : Hash) (gas value : Z) (address : Address) : EM Created :=
  deep ← depthExceeded;
  if (deep : bool) then mret ([], 0, gas, Some ErrDepth)
  else
    let from := ref_Address caller in
    black ← egets (fun s => r_IsAnzeon rules && IsBlacklisted s from);
    if (black : bool) then mret ([], 0, gas, Some (ErrBlacklistedAccount from))
    else
      can ← egets (fun s => CanTransfer s from value);
      if negb can then mret ([], 0, gas, Some ErrInsufficientBalance)
      else
        nonce ← egets (fun s => GetNonce s from);
        if u64 (nonce + 1) <? nonce then mret ([], 0, gas, Some ErrNonceUintOverflow)
        else
          emodifies (SetNonce from (u64 (nonce + 1)));;
          (if r_IsBerlin rules then emodifies (AddAddressToAccessList address) else mret tt);;
          contractHash ← egets (fun s => GetCodeHash s address);
          taken ← egets (fun s => negb (GetNonce s address =? 0));
          if taken || negb (contractHash =? 0) && negb (contractHash =? EmptyCodeHash) then
            mret ([], 0, 0, Some ErrContractAddressCollision)
          else
            id ← snapshot;
            emodifies (CreateAccount address);;
            (if r_IsEIP158 rules then emodifies (SetNonce address 1) else mret tt);;
            emodifies (Transfer from address value);;
            (if negb (value =? 0) then AddTransferLog env from address value else mret tt);;
            newJumpdests caller;;
            r ← Run (NewContract caller address value gas hash code) [] false;
            r ← storeCode address r;
            match r with
            | (ret, gas, None) => mret (ret, address, gas, None)
            | (ret, gas, Some e) =>
                if r_IsHomestead rules || negb (bool_decide (e = ErrCodeStoreOutOfGas)) then
                  revertTo id;;
                  mret (ret, address, if bool_decide (e = ErrExecutionReverted) then gas else 0, Some e)
                else mret (ret, address, gas, Some e)
            end.

(** The hash of the code is known only where [Create2] computed it. *)
Definition Create (caller : ContractRef) (code : bytes) (gas value : Z) : EM Created :=
  contractAddr ← egets (fun s => CreateAddress (ref_Address caller) (GetNonce s (ref_Address caller)));
  create caller code 0 gas value contractAddr.
Definition Create2 (caller : ContractRef) (code : bytes) (gas endowment salt : Z) : EM Created :=
  let hash := be_value (Keccak256 code) in
  create caller code hash gas endowment (CreateAddress2 (ref_Address caller) salt hash).

Definition machine : Machine := mkMachine Call CallCode DelegateCall StaticCall Create Create2.
End calls.
