(* ===== verification/VmTable.v ===== *)
(** The operations that run other contracts (instructions.go), the tables of operations
    of the forks (jump_table.go, eips.go, opcodes.go), and the loop that runs a contract
    (interpreter.go). *)
From S2P Require Import Prelude Validators Messages Rlp Config ChainConfig Forks AccountExtra StateJournal VmAnalysis VmState VmGas VmOps NativeManager Evm.

(** * Operation codes *)

Definition STOP : Z := 0x00.
Definition ADD : Z := 0x01.
Definition MUL : Z := 0x02.
Definition SUB : Z := 0x03.
Definition DIV : Z := 0x04.
Definition SDIV : Z := 0x05.
Definition MOD : Z := 0x06.
Definition SMOD : Z := 0x07.
Definition ADDMOD : Z := 0x08.
Definition MULMOD : Z := 0x09.
Definition EXP : Z := 0x0a.
Definition SIGNEXTEND : Z := 0x0b.
Definition LT : Z := 0x10.
Definition GT : Z := 0x11.
Definition SLT : Z := 0x12.
Definition SGT : Z := 0x13.
Definition EQ : Z := 0x14.
Definition ISZERO : Z := 0x15.
Definition AND : Z := 0x16.
Definition OR : Z := 0x17.
Definition XOR : Z := 0x18.
Definition NOT : Z := 0x19.
Definition BYTE : Z := 0x1a.
Definition SHL : Z := 0x1b.
Definition SHR : Z := 0x1c.
Definition SAR : Z := 0x1d.
Definition KECCAK256 : Z := 0x20.
Definition ADDRESS : Z := 0x30.
Definition BALANCE : Z := 0x31.
Definition ORIGIN : Z := 0x32.
Definition CALLER : Z := 0x33.
Definition CALLVALUE : Z := 0x34.
Definition CALLDATALOAD : Z := 0x35.
Definition CALLDATASIZE : Z := 0x36.
Definition CALLDATACOPY : Z := 0x37.
Definition CODESIZE : Z := 0x38.
Definition CODECOPY : Z := 0x39.
Definition GASPRICE : Z := 0x3a.
Definition EXTCODESIZE : Z := 0x3b.
Definition EXTCODECOPY : Z := 0x3c.
Definition RETURNDATASIZE : Z := 0x3d.
Definition RETURNDATACOPY : Z := 0x3e.
Definition EXTCODEHASH : Z := 0x3f.
Definition BLOCKHASH : Z := 0x40.
Definition COINBASE : Z := 0x41.
Definition TIMESTAMP : Z := 0x42.
Definition NUMBER : Z := 0x43.
Definition DIFFICULTY : Z := 0x44.
Definition RANDOM : Z := 0x44.
Definition PREVRANDAO : Z := 0x44.
Definition GASLIMIT : Z := 0x45.
Definition CHAINID : Z := 0x46.
Definition SELFBALANCE : Z := 0x47.
Definition BASEFEE : Z := 0x48.
Definition BLOBHASH : Z := 0x49.
Definition BLOBBASEFEE : Z := 0x4a.
Definition POP : Z := 0x50.
Definition MLOAD : Z := 0x51.
Definition MSTORE : Z := 0x52.
Definition MSTORE8 : Z := 0x53.
Definition SLOAD : Z := 0x54.
Definition SSTORE : Z := 0x55.
Definition JUMP : Z := 0x56.
Definition JUMPI : Z := 0x57.
Definition PC : Z := 0x58.
Definition MSIZE : Z := 0x59.
Definition GAS : Z := 0x5a.
Definition TLOAD : Z := 0x5c.
Definition TSTORE : Z := 0x5d.
Definition MCOPY : Z := 0x5e.
Definition PUSH0 : Z := 0x5f.
Definition PUSH2 : Z := 0x61.
Definition PUSH3 : Z := 0x62.
Definition PUSH4 : Z := 0x63.
Definition PUSH5 : Z := 0x64.
Definition PUSH6 : Z := 0x65.
Definition PUSH7 : Z := 0x66.
Definition PUSH8 : Z := 0x67.
Definition PUSH9 : Z := 0x68.
Definition PUSH10 : Z := 0x69.
Definition PUSH11 : Z := 0x6a.
Definition PUSH12 : Z := 0x6b.
Definition PUSH13 : Z := 0x6c.
Definition PUSH14 : Z := 0x6d.
Definition PUSH15 : Z := 0x6e.
Definition PUSH16 : Z := 0x6f.
Definition PUSH17 : Z := 0x70.
Definition PUSH18 : Z := 0x71.
Definition PUSH19 : Z := 0x72.
Definition PUSH20 : Z := 0x73.
Definition PUSH21 : Z := 0x74.
Definition PUSH22 : Z := 0x75.
Definition PUSH23 : Z := 0x76.
Definition PUSH24 : Z := 0x77.
Definition PUSH25 : Z := 0x78.
Definition PUSH26 : Z := 0x79.
Definition PUSH27 : Z := 0x7a.
Definition PUSH28 : Z := 0x7b.
Definition PUSH29 : Z := 0x7c.
Definition PUSH30 : Z := 0x7d.
Definition PUSH31 : Z := 0x7e.
Definition DUP1 : Z := 0x80.
Definition DUP2 : Z := 0x81.
Definition DUP3 : Z := 0x82.
Definition DUP4 : Z := 0x83.
Definition DUP5 : Z := 0x84.
Definition DUP6 : Z := 0x85.
Definition DUP7 : Z := 0x86.
Definition DUP8 : Z := 0x87.
Definition DUP9 : Z := 0x88.
Definition DUP10 : Z := 0x89.
Definition DUP11 : Z := 0x8a.
Definition DUP12 : Z := 0x8b.
Definition DUP13 : Z := 0x8c.
Definition DUP14 : Z := 0x8d.
Definition DUP15 : Z := 0x8e.
Definition DUP16 : Z := 0x8f.
Definition SWAP1 : Z := 0x90.
Definition SWAP2 : Z := 0x91.
Definition SWAP3 : Z := 0x92.
Definition SWAP4 : Z := 0x93.
Definition SWAP5 : Z := 0x94.
Definition SWAP6 : Z := 0x95.
Definition SWAP7 : Z := 0x96.
Definition SWAP8 : Z := 0x97.
Definition SWAP9 : Z := 0x98.
Definition SWAP10 : Z := 0x99.
Definition SWAP11 : Z := 0x9a.
Definition SWAP12 : Z := 0x9b.
Definition SWAP13 : Z := 0x9c.
Definition SWAP14 : Z := 0x9d.
Definition SWAP15 : Z := 0x9e.
Definition SWAP16 : Z := 0x9f.
Definition LOG0 : Z := 0xa0.
Definition LOG1 : Z := 0xa1.
Definition LOG2 : Z := 0xa2.
Definition LOG3 : Z := 0xa3.
Definition LOG4 : Z := 0xa4.
Definition CREATE : Z := 0xf0.
Definition RETURN : Z := 0xf3.
Definition CREATE2 : Z := 0xf5.
Definition REVERT : Z := 0xfd.
Definition INVALID : Z := 0xfe.
Definition SELFDESTRUCT : Z := 0xff.

(** * Operations that run contracts *)

Section calls.
Context `{Crypto} (env : Env).
Let rules := env_chainRules env.

Definition setReturnData (data : bytes) : Op unit := vmodify (fun f => set_f_evm (set_evm_returnData data (f_evm f)) f).
Definition self : Op ContractRef := f ← vget; mret (ContractOf (f_contract f)).
Definition contractGas : Op Z := f ← vget; mret (f_gas f).

Definition opCreate (m : Machine) : executionFunc :=
  ro ← readOnly;
  if (ro : bool) then fails ErrWriteProtection
  else
    value ← pop; offset ← pop; size ← pop;
    input ← mem_get (mem_GetCopy (i64 (u64 offset)) (i64 (u64 size)));
    gas ← contractGas;
    let gas := if r_IsEIP150 rules then gas - gas / 64 else gas in
    _ ← useGas gas;
    caller ← self;
    '(res, addr, returnGas, suberr) ← liftEVM (vm_Create m caller input gas value);
    let storeFailed := bool_decide (suberr = Some ErrCodeStoreOutOfGas) in
    let stackvalue :=
      if r_IsHomestead rules && storeFailed then 0
      else if bool_decide (suberr <> None) && negb storeFailed then 0
      else addr in
    push stackvalue;;
    giveBack returnGas;;
    if bool_decide (suberr = Some ErrExecutionReverted) then setReturnData res;; mret (res, None)
    else setReturnData [];; proceed.

Definition opCreate2 (m : Machine) : executionFunc :=
  ro ← readOnly;
  if (ro : bool) then fails ErrWriteProtection
  else
    endowment ← pop; offset ← pop; size ← pop; salt ← pop;
    input ← mem_get (mem_GetCopy (i64 (u64 offset)) (i64 (u64 size)));
    gas ← contractGas;
    let gas := gas - gas / 64 in
    _ ← useGas gas;
    caller ← self;
    '(res, addr, returnGas, suberr) ← liftEVM (vm_Create2 m caller input gas endowment salt);
    push (if bool_decide (suberr <> None) then 0 else addr);;
    giveBack returnGas;;
    if bool_decide (suberr = Some ErrExecutionReverted) then setReturnData res;; mret (res, None)
    else setReturnData [];; proceed.

(** What the four operations do with the result of the call. *)
Definition afterCall (retOffset retSize : Z) (r : Returned) : executionFunc :=
  let '(ret, returnGas, err) := r in
  push (if bool_decide (err <> None) then 0 else 1);;
  (if bool_decide (err = None) || bool_decide (err = Some ErrExecutionReverted) then mem_do (mem_Set (u64 retOffset) (u64 retSize) ret) else mret tt);;
  giveBack returnGas;;
  setReturnData ret;;
  mret (ret, None).
Definition callGasTemp : Op Z := f ← vget; mret (evm_callGasTemp (f_evm f)).

Definition opCall (m : Machine) : executionFunc :=
  _ ← pop;
  gas ← callGasTemp;
  addr ← pop; value ← pop; inOffset ← pop; inSize ← pop; retOffset ← pop; retSize ← pop;
  args ← mem_get (mem_GetPtr (i64 (u64 inOffset)) (i64 (u64 inSize)));
  ro ← readOnly;
  if ro && negb (value =? 0) then fails ErrWriteProtection
  else
    let gas := if negb (value =? 0) then u64 (gas + CallStipend) else gas in
    caller ← self;
    r ← liftEVM (vm_Call m caller (Bytes20 addr) args gas value);
    afterCall retOffset retSize r.

Definition opCallCode (m : Machine) : executionFunc :=
  _ ← pop;
  gas ← callGasTemp;
  addr ← pop; value ← pop; inOffset ← pop; inSize ← pop; retOffset ← pop; retSize ← pop;
  args ← mem_get (mem_GetPtr (i64 (u64 inOffset)) (i64 (u64 inSize)));
  let gas := if negb (value =? 0) then u64 (gas + CallStipend) else gas in
  caller ← self;
  r ← liftEVM (vm_CallCode m caller (Bytes20 addr) args gas value);
  afterCall retOffset retSize r.

Definition opDelegateCall (m : Machine) : executionFunc :=
  _ ← pop;
  gas ← callGasTemp;
  addr ← pop; inOffset ← pop; inSize ← pop; retOffset ← pop; retSize ← pop;
  args ← mem_get (mem_GetPtr (i64 (u64 inOffset)) (i64 (u64 inSize)));
  caller ← self;
  r ← liftEVM (vm_DelegateCall m caller (Bytes20 addr) args gas);
  afterCall retOffset retSize r.

Definition opStaticCall (m : Machine) : executionFunc :=
  _ ← pop;
  gas ← callGasTemp;
  addr ← pop; inOffset ← pop; inSize ← pop; retOffset ← pop; retSize ← pop;
  args ← mem_get (mem_GetPtr (i64 (u64 inOffset)) (i64 (u64 inSize)));
  caller ← self;
  r ← liftEVM (vm_StaticCall m caller (Bytes20 addr) args gas);
  afterCall retOffset retSize r.

(** The guards that the two versions of SELFDESTRUCT share, and the balance at stake. *)
Definition opSelfdestruct : executionFunc :=
  ro ← readOnly;
  if (ro : bool) then fails ErrWriteProtection
  else
    beneficiary ← pop;
    f ← vget;
    let this := f_self f in
    let to := Bytes20 beneficiary in
    match checkBlacklisted env this to (f_state f) with
    | Some err => fails err
    | None =>
        let balance := GetBalance (f_state f) this in
        modifies (AddBalance to balance);;
        modifies (SelfDestruct this);;
        (if negb (balance =? 0) then liftEVM (AddTransferLog env this to balance) else mret tt);;
        fails errStopToken
    end.
Definition opSelfdestruct6780 : executionFunc :=
  ro ← readOnly;
  if (ro : bool) then fails ErrWriteProtection
  else
    beneficiary ← pop;
    f ← vget;
    let this := f_self f in
    let to := Bytes20 beneficiary in
    match checkBlacklisted env this to (f_state f) with
    | Some err => fails err
    | None =>
        let balance := GetBalance (f_state f) this in
        modifies (SubBalance this balance);;
        modifies (AddBalance to balance);;
        (if negb (balance =? 0) then liftEVM (AddTransferLog env this to balance) else mret tt);;
        modifies (Selfdestruct6780 this);;
        fails errStopToken
    end.
End calls.

(** * Tables *)

Record operation := mkOperation {
  op_execute : Machine -> executionFunc;
  op_constantGas : Z;
  op_dynamicGas : option gasFunc;
  op_minStack : Z;
  op_maxStack : Z;
  op_memorySize : option memorySizeFunc;
}.
Definition set_constantGas (g : Z) (o : operation) : operation :=
  mkOperation (op_execute o) g (op_dynamicGas o) (op_minStack o) (op_maxStack o) (op_memorySize o).
Definition set_dynamicGas (g : gasFunc) (o : operation) : operation :=
  mkOperation (op_execute o) (op_constantGas o) (Some g) (op_minStack o) (op_maxStack o) (op_memorySize o).

Definition minStack (pops push : Z) : Z := pops.
Definition maxStack (pop push : Z) : Z := StackLimit + pop - push.
Definition minSwapStack (n : Z) : Z := minStack n n.
Definition maxSwapStack (n : Z) : Z := maxStack n n.
Definition minDupStack (n : Z) : Z := minStack n (n + 1).
Definition maxDupStack (n : Z) : Z := maxStack n (n + 1).

Abbreviation JumpTable := (Z -> operation).
(** [jt[op] = x], and an assignment to a field of [jt[op]]. *)
Definition jt_set (op : Z) (x : operation) (jt : JumpTable) : JumpTable := fun i => if i =? op then x else jt i.
Definition jt_update (op : Z) (g : operation -> operation) (jt : JumpTable) : JumpTable := fun i => if i =? op then g (jt op) else jt i.

Section tables.
Context `{Crypto} `{Uint256} (env : Env).

(** What all unassigned slots are filled with. *)
Definition undefinedOperation : operation := mkOperation (fun _ => opUndefined) 0 None 0 (maxStack 0 0) None.

Definition frontierOperations : list (Z * operation) :=
  [(STOP, mkOperation (fun _ => opStop) 0 None (minStack 0 0) (maxStack 0 0) None);
   (ADD, mkOperation (fun _ => opAdd) GasFastestStep None (minStack 2 1) (maxStack 2 1) None);
   (MUL, mkOperation (fun _ => opMul) GasFastStep None (minStack 2 1) (maxStack 2 1) None);
   (SUB, mkOperation (fun _ => opSub) GasFastestStep None (minStack 2 1) (maxStack 2 1) None);
   (DIV, mkOperation (fun _ => opDiv) GasFastStep None (minStack 2 1) (maxStack 2 1) None);
   (SDIV, mkOperation (fun _ => opSdiv) GasFastStep None (minStack 2 1) (maxStack 2 1) None);
   (MOD, mkOperation (fun _ => opMod) GasFastStep None (minStack 2 1) (maxStack 2 1) None);
   (SMOD, mkOperation (fun _ => opSmod) GasFastStep None (minStack 2 1) (maxStack 2 1) None);
   (ADDMOD, mkOperation (fun _ => opAddmod) GasMidStep None (minStack 3 1) (maxStack 3 1) None);
   (MULMOD, mkOperation (fun _ => opMulmod) GasMidStep None (minStack 3 1) (maxStack 3 1) None);
   (EXP, mkOperation (fun _ => opExp) 0 (Some gasExpFrontier) (minStack 2 1) (maxStack 2 1) None);
   (SIGNEXTEND, mkOperation (fun _ => opSignExtend) GasFastStep None (minStack 2 1) (maxStack 2 1) None);
   (LT, mkOperation (fun _ => opLt) GasFastestStep None (minStack 2 1) (maxStack 2 1) None);
   (GT, mkOperation (fun _ => opGt) GasFastestStep None (minStack 2 1) (maxStack 2 1) None);
   (SLT, mkOperation (fun _ => opSlt) GasFastestStep None (minStack 2 1) (maxStack 2 1) None);
   (SGT, mkOperation (fun _ => opSgt) GasFastestStep None (minStack 2 1) (maxStack 2 1) None);
   (EQ, mkOperation (fun _ => opEq) GasFastestStep None (minStack 2 1) (maxStack 2 1) None);
   (ISZERO, mkOperation (fun _ => opIszero) GasFastestStep None (minStack 1 1) (maxStack 1 1) None);
   (AND, mkOperation (fun _ => opAnd) GasFastestStep None (minStack 2 1) (maxStack 2 1) None);
   (XOR, mkOperation (fun _ => opXor) GasFastestStep None (minStack 2 1) (maxStack 2 1) None);
   (OR, mkOperation (fun _ => opOr) GasFastestStep None (minStack 2 1) (maxStack 2 1) None);
   (NOT, mkOperation (fun _ => opNot) GasFastestStep None (minStack 1 1) (maxStack 1 1) None);
   (BYTE, mkOperation (fun _ => opByte) GasFastestStep None (minStack 2 1) (maxStack 2 1) None);
   (KECCAK256, mkOperation (fun _ => opKeccak256 env) Keccak256Gas (Some gasKeccak256) (minStack 2 1) (maxStack 2 1) (Some memoryKeccak256));
   (ADDRESS, mkOperation (fun _ => opAddress) GasQuickStep None (minStack 0 1) (maxStack 0 1) None);
   (BALANCE, mkOperation (fun _ => opBalance) BalanceGasFrontier None (minStack 1 1) (maxStack 1 1) None);
   (ORIGIN, mkOperation (fun _ => opOrigin env) GasQuickStep None (minStack 0 1) (maxStack 0 1) None);
   (CALLER, mkOperation (fun _ => opCaller) GasQuickStep None (minStack 0 1) (maxStack 0 1) None);
   (CALLVALUE, mkOperation (fun _ => opCallValue) GasQuickStep None (minStack 0 1) (maxStack 0 1) None);
   (CALLDATALOAD, mkOperation (fun _ => opCallDataLoad) GasFastestStep None (minStack 1 1) (maxStack 1 1) None);
   (CALLDATASIZE, mkOperation (fun _ => opCallDataSize) GasQuickStep None (minStack 0 1) (maxStack 0 1) None);
   (CALLDATACOPY, mkOperation (fun _ => opCallDataCopy) GasFastestStep (Some gasCallDataCopy) (minStack 3 0) (maxStack 3 0) (Some memoryCallDataCopy));
   (CODESIZE, mkOperation (fun _ => opCodeSize) GasQuickStep None (minStack 0 1) (maxStack 0 1) None);
   (CODECOPY, mkOperation (fun _ => opCodeCopy) GasFastestStep (Some gasCodeCopy) (minStack 3 0) (maxStack 3 0) (Some memoryCodeCopy));
   (GASPRICE, mkOperation (fun _ => opGasprice env) GasQuickStep None (minStack 0 1) (maxStack 0 1) None);
   (EXTCODESIZE, mkOperation (fun _ => opExtCodeSize) ExtcodeSizeGasFrontier None (minStack 1 1) (maxStack 1 1) None);
   (EXTCODECOPY, mkOperation (fun _ => opExtCodeCopy) ExtcodeCopyBaseFrontier (Some gasExtCodeCopy) (minStack 4 0) (maxStack 4 0) (Some memoryExtCodeCopy));
   (BLOCKHASH, mkOperation (fun _ => opBlockhash env) GasExtStep None (minStack 1 1) (maxStack 1 1) None);
   (COINBASE, mkOperation (fun _ => opCoinbase env) GasQuickStep None (minStack 0 1) (maxStack 0 1) None);
   (TIMESTAMP, mkOperation (fun _ => opTimestamp env) GasQuickStep None (minStack 0 1) (maxStack 0 1) None);
   (NUMBER, mkOperation (fun _ => opNumber env) GasQuickStep None (minStack 0 1) (maxStack 0 1) None);
   (DIFFICULTY, mkOperation (fun _ => opDifficulty env) GasQuickStep None (minStack 0 1) (maxStack 0 1) None);
   (GASLIMIT, mkOperation (fun _ => opGasLimit env) GasQuickStep None (minStack 0 1) (maxStack 0 1) None);
   (POP, mkOperation (fun _ => opPop) GasQuickStep None (minStack 1 0) (maxStack 1 0) None);
   (MLOAD, mkOperation (fun _ => opMload) GasFastestStep (Some gasMLoad) (minStack 1 1) (maxStack 1 1) (Some memoryMLoad));
   (MSTORE, mkOperation (fun _ => opMstore) GasFastestStep (Some gasMStore) (minStack 2 0) (maxStack 2 0) (Some memoryMStore));
   (MSTORE8, mkOperation (fun _ => opMstore8) GasFastestStep (Some gasMStore8) (minStack 2 0) (maxStack 2 0) (Some memoryMStore8));
   (SLOAD, mkOperation (fun _ => opSload) SloadGasFrontier None (minStack 1 1) (maxStack 1 1) None);
   (SSTORE, mkOperation (fun _ => opSstore) 0 (Some (gasSStore env)) (minStack 2 0) (maxStack 2 0) None);
   (JUMP, mkOperation (fun _ => opJump env) GasMidStep None (minStack 1 0) (maxStack 1 0) None);
   (JUMPI, mkOperation (fun _ => opJumpi env) GasSlowStep None (minStack 2 0) (maxStack 2 0) None);
   (PC, mkOperation (fun _ => opPc) GasQuickStep None (minStack 0 1) (maxStack 0 1) None);
   (MSIZE, mkOperation (fun _ => opMsize) GasQuickStep None (minStack 0 1) (maxStack 0 1) None);
   (GAS, mkOperation (fun _ => opGas) GasQuickStep None (minStack 0 1) (maxStack 0 1) None);
   (JUMPDEST, mkOperation (fun _ => opJumpdest) JumpdestGas None (minStack 0 0) (maxStack 0 0) None);
   (PUSH1, mkOperation (fun _ => opPush1) GasFastestStep None (minStack 0 1) (maxStack 0 1) None);
   (PUSH2, mkOperation (fun _ => makePush 2 2) GasFastestStep None (minStack 0 1) (maxStack 0 1) None);
   (PUSH3, mkOperation (fun _ => makePush 3 3) GasFastestStep None (minStack 0 1) (maxStack 0 1) None);
   (PUSH4, mkOperation (fun _ => makePush 4 4) GasFastestStep None (minStack 0 1) (maxStack 0 1) None);
   (PUSH5, mkOperation (fun _ => makePush 5 5) GasFastestStep None (minStack 0 1) (maxStack 0 1) None);
   (PUSH6, mkOperation (fun _ => makePush 6 6) GasFastestStep None (minStack 0 1) (maxStack 0 1) None);
   (PUSH7, mkOperation (fun _ => makePush 7 7) GasFastestStep None (minStack 0 1) (maxStack 0 1) None);
   (PUSH8, mkOperation (fun _ => makePush 8 8) GasFastestStep None (minStack 0 1) (maxStack 0 1) None);
   (PUSH9, mkOperation (fun _ => makePush 9 9) GasFastestStep None (minStack 0 1) (maxStack 0 1) None);
   (PUSH10, mkOperation (fun _ => makePush 10 10) GasFastestStep None (minStack 0 1) (maxStack 0 1) None);
   (PUSH11, mkOperation (fun _ => makePush 11 11) GasFastestStep None (minStack 0 1) (maxStack 0 1) None);
   (PUSH12, mkOperation (fun _ => makePush 12 12) GasFastestStep None (minStack 0 1) (maxStack 0 1) None);
   (PUSH13, mkOperation (fun _ => makePush 13 13) GasFastestStep None (minStack 0 1) (maxStack 0 1) None);
   (PUSH14, mkOperation (fun _ => makePush 14 14) GasFastestStep None (minStack 0 1) (maxStack 0 1) None);
   (PUSH15, mkOperation (fun _ => makePush 15 15) GasFastestStep None (minStack 0 1) (maxStack 0 1) None);
   (PUSH16, mkOperation (fun _ => makePush 16 16) GasFastestStep None (minStack 0 1) (maxStack 0 1) None);
   (PUSH17, mkOperation (fun _ => makePush 17 17) GasFastestStep None (minStack 0 1) (maxStack 0 1) None);
   (PUSH18, mkOperation (fun _ => makePush 18 18) GasFastestStep None (minStack 0 1) (maxStack 0 1) None);
   (PUSH19, mkOperation (fun _ => makePush 19 19) GasFastestStep None (minStack 0 1) (maxStack 0 1) None);
   (PUSH20, mkOperation (fun _ => makePush 20 20) GasFastestStep None (minStack 0 1) (maxStack 0 1) None);
   (PUSH21, mkOperation (fun _ => makePush 21 21) GasFastestStep None (minStack 0 1) (maxStack 0 1) None);
   (PUSH22, mkOperation (fun _ => makePush 22 22) GasFastestStep None (minStack 0 1) (maxStack 0 1) None);
   (PUSH23, mkOperation (fun _ => makePush 23 23) GasFastestStep None (minStack 0 1) (maxStack 0 1) None);
   (PUSH24, mkOperation (fun _ => makePush 24 24) GasFastestStep None (minStack 0 1) (maxStack 0 1) None);
   (PUSH25, mkOperation (fun _ => makePush 25 25) GasFastestStep None (minStack 0 1) (maxStack 0 1) None);
   (PUSH26, mkOperation (fun _ => makePush 26 26) GasFastestStep None (minStack 0 1) (maxStack 0 1) None);
   (PUSH27, mkOperation (fun _ => makePush 27 27) GasFastestStep None (minStack 0 1) (maxStack 0 1) None);
   (PUSH28, mkOperation (fun _ => makePush 28 28) GasFastestStep None (minStack 0 1) (maxStack 0 1) None);
   (PUSH29, mkOperation (fun _ => makePush 29 29) GasFastestStep None (minStack 0 1) (maxStack 0 1) None);
   (PUSH30, mkOperation (fun _ => makePush 30 30) GasFastestStep None (minStack 0 1) (maxStack 0 1) None);
   (PUSH31, mkOperation (fun _ => makePush 31 31) GasFastestStep None (minStack 0 1) (maxStack 0 1) None);
   (PUSH32, mkOperation (fun _ => makePush 32 32) GasFastestStep None (minStack 0 1) (maxStack 0 1) None);
   (DUP1, mkOperation (fun _ => makeDup 1) GasFastestStep None (minDupStack 1) (maxDupStack 1) None);
   (DUP2, mkOperation (fun _ => makeDup 2) GasFastestStep None (minDupStack 2) (maxDupStack 2) None);
   (DUP3, mkOperation (fun _ => makeDup 3) GasFastestStep None (minDupStack 3) (maxDupStack 3) None);
   (DUP4, mkOperation (fun _ => makeDup 4) GasFastestStep None (minDupStack 4) (maxDupStack 4) None);
   (DUP5, mkOperation (fun _ => makeDup 5) GasFastestStep None (minDupStack 5) (maxDupStack 5) None);
   (DUP6, mkOperation (fun _ => makeDup 6) GasFastestStep None (minDupStack 6) (maxDupStack 6) None);
   (DUP7, mkOperation (fun _ => makeDup 7) GasFastestStep None (minDupStack 7) (maxDupStack 7) None);
   (DUP8, mkOperation (fun _ => makeDup 8) GasFastestStep None (minDupStack 8) (maxDupStack 8) None);
   (DUP9, mkOperation (fun _ => makeDup 9) GasFastestStep None (minDupStack 9) (maxDupStack 9) None);
   (DUP10, mkOperation (fun _ => makeDup 10) GasFastestStep None (minDupStack 10) (maxDupStack 10) None);
   (DUP11, mkOperation (fun _ => makeDup 11) GasFastestStep None (minDupStack 11) (maxDupStack 11) None);
   (DUP12, mkOperation (fun _ => makeDup 12) GasFastestStep None (minDupStack 12) (maxDupStack 12) None);
   (DUP13, mkOperation (fun _ => makeDup 13) GasFastestStep None (minDupStack 13) (maxDupStack 13) None);
   (DUP14, mkOperation (fun _ => makeDup 14) GasFastestStep None (minDupStack 14) (maxDupStack 14) None);
   (DUP15, mkOperation (fun _ => makeDup 15) GasFastestStep None (minDupStack 15) (maxDupStack 15) None);
   (DUP16, mkOperation (fun _ => makeDup 16) GasFastestStep None (minDupStack 16) (maxDupStack 16) None);
   (SWAP1, mkOperation (fun _ => makeSwap 1) GasFastestStep None (minSwapStack 2) (maxSwapStack 2) None);
   (SWAP2, mkOperation (fun _ => makeSwap 2) GasFastestStep None (minSwapStack 3) (maxSwapStack 3) None);
   (SWAP3, mkOperation (fun _ => makeSwap 3) GasFastestStep None (minSwapStack 4) (maxSwapStack 4) None);
   (SWAP4, mkOperation (fun _ => makeSwap 4) GasFastestStep None (minSwapStack 5) (maxSwapStack 5) None);
   (SWAP5, mkOperation (fun _ => makeSwap 5) GasFastestStep None (minSwapStack 6) (maxSwapStack 6) None);
   (SWAP6, mkOperation (fun _ => makeSwap 6) GasFastestStep None (minSwapStack 7) (maxSwapStack 7) None);
   (SWAP7, mkOperation (fun _ => makeSwap 7) GasFastestStep None (minSwapStack 8) (maxSwapStack 8) None);
   (SWAP8, mkOperation (fun _ => makeSwap 8) GasFastestStep None (minSwapStack 9) (maxSwapStack 9) None);
   (SWAP9, mkOperation (fun _ => makeSwap 9) GasFastestStep None (minSwapStack 10) (maxSwapStack 10) None);
   (SWAP10, mkOperation (fun _ => makeSwap 10) GasFastestStep None (minSwapStack 11) (maxSwapStack 11) None);
   (SWAP11, mkOperation (fun _ => makeSwap 11) GasFastestStep None (minSwapStack 12) (maxSwapStack 12) None);
   (SWAP12, mkOperation (fun _ => makeSwap 12) GasFastestStep None (minSwapStack 13) (maxSwapStack 13) None);
   (SWAP13, mkOperation (fun _ => makeSwap 13) GasFastestStep None (minSwapStack 14) (maxSwapStack 14) None);
   (SWAP14, mkOperation (fun _ => makeSwap 14) GasFastestStep None (minSwapStack 15) (maxSwapStack 15) None);
   (SWAP15, mkOperation (fun _ => makeSwap 15) GasFastestStep None (minSwapStack 16) (maxSwapStack 16) None);
   (SWAP16, mkOperation (fun _ => makeSwap 16) GasFastestStep None (minSwapStack 17) (maxSwapStack 17) None);
   (LOG0, mkOperation (fun _ => makeLog env 0) 0 (Some (makeGasLog 0)) (minStack 2 0) (maxStack 2 0) (Some memoryLog));
   (LOG1, mkOperation (fun _ => makeLog env 1) 0 (Some (makeGasLog 1)) (minStack 3 0) (maxStack 3 0) (Some memoryLog));
   (LOG2, mkOperation (fun _ => makeLog env 2) 0 (Some (makeGasLog 2)) (minStack 4 0) (maxStack 4 0) (Some memoryLog));
   (LOG3, mkOperation (fun _ => makeLog env 3) 0 (Some (makeGasLog 3)) (minStack 5 0) (maxStack 5 0) (Some memoryLog));
   (LOG4, mkOperation (fun _ => makeLog env 4) 0 (Some (makeGasLog 4)) (minStack 6 0) (maxStack 6 0) (Some memoryLog));
   (CREATE, mkOperation (opCreate env) CreateGas (Some gasCreate) (minStack 3 1) (maxStack 3 1) (Some memoryCreate));
   (CALL, mkOperation opCall CallGasFrontier (Some (gasCall env)) (minStack 7 1) (maxStack 7 1) (Some memoryCall));
   (CALLCODE, mkOperation opCallCode CallGasFrontier (Some (gasCallCode env)) (minStack 7 1) (maxStack 7 1) (Some memoryCall));
   (RETURN, mkOperation (fun _ => opReturn) 0 (Some gasReturn) (minStack 2 0) (maxStack 2 0) (Some memoryReturn));
   (SELFDESTRUCT, mkOperation (fun _ => opSelfdestruct env) 0 (Some (gasSelfdestruct env)) (minStack 1 0) (maxStack 1 0) None)].
Definition newFrontierInstructionSet : JumpTable := fun i =>
  match find (fun e => i =? e.1) frontierOperations with Some e => e.2 | None => undefinedOperation end.

Definition newHomesteadInstructionSet : JumpTable :=
  jt_set DELEGATECALL (mkOperation opDelegateCall CallGasFrontier (Some (gasDelegateCall env)) (minStack 6 1) (maxStack 6 1) (Some memoryDelegateCall))
  newFrontierInstructionSet.

Definition newTangerineWhistleInstructionSet : JumpTable :=
  jt_update DELEGATECALL (set_constantGas CallGasEIP150) (
  jt_update CALLCODE (set_constantGas CallGasEIP150) (
  jt_update CALL (set_constantGas CallGasEIP150) (
  jt_update EXTCODECOPY (set_constantGas ExtcodeCopyBaseEIP150) (
  jt_update SLOAD (set_constantGas SloadGasEIP150) (
  jt_update EXTCODESIZE (set_constantGas ExtcodeSizeGasEIP150) (
  jt_update BALANCE (set_constantGas BalanceGasEIP150)
  newHomesteadInstructionSet)))))).

Definition newSpuriousDragonInstructionSet : JumpTable := jt_update EXP (set_dynamicGas gasExpEIP158) newTangerineWhistleInstructionSet.

Definition newByzantiumInstructionSet : JumpTable :=
  jt_set REVERT (mkOperation (fun _ => opRevert) 0 (Some gasRevert) (minStack 2 0) (maxStack 2 0) (Some memoryRevert)) (
  jt_set RETURNDATACOPY (mkOperation (fun _ => opReturnDataCopy) GasFastestStep (Some gasReturnDataCopy) (minStack 3 0) (maxStack 3 0) (Some memoryReturnDataCopy)) (
  jt_set RETURNDATASIZE (mkOperation (fun _ => opReturnDataSize) GasQuickStep None (minStack 0 1) (maxStack 0 1) None) (
  jt_set STATICCALL (mkOperation opStaticCall CallGasEIP150 (Some (gasStaticCall env)) (minStack 6 1) (maxStack 6 1) (Some memoryStaticCall))
  newSpuriousDragonInstructionSet))).

Definition newConstantinopleInstructionSet : JumpTable :=
  jt_set CREATE2 (mkOperation opCreate2 Create2Gas (Some gasCreate2) (minStack 4 1) (maxStack 4 1) (Some memoryCreate2)) (
  jt_set EXTCODEHASH (mkOperation (fun _ => opExtCodeHash) ExtcodeHashGasConstantinople None (minStack 1 1) (maxStack 1 1) None) (
  jt_set SAR (mkOperation (fun _ => opSAR) GasFastestStep None (minStack 2 1) (maxStack 2 1) None) (
  jt_set SHR (mkOperation (fun _ => opSHR) GasFastestStep None (minStack 2 1) (maxStack 2 1) None) (
  jt_set SHL (mkOperation (fun _ => opSHL) GasFastestStep None (minStack 2 1) (maxStack 2 1) None)
  newByzantiumInstructionSet)))).

(** ** EIPs (eips.go) *)

Definition enable1884 (jt : JumpTable) : JumpTable :=
  jt_set SELFBALANCE (mkOperation (fun _ => opSelfBalance) GasFastStep None (minStack 0 1) (maxStack 0 1) None) (
  jt_update EXTCODEHASH (set_constantGas ExtcodeHashGasEIP1884) (
  jt_update BALANCE (set_constantGas BalanceGasEIP1884) (
  jt_update SLOAD (set_constantGas SloadGasEIP1884) jt))).
Definition enable1344 (jt : JumpTable) : JumpTable :=
  jt_set CHAINID (mkOperation (fun _ => opChainID env) GasQuickStep None (minStack 0 1) (maxStack 0 1) None) jt.
Definition enable2200 (jt : JumpTable) : JumpTable :=
  jt_update SSTORE (set_dynamicGas gasSStoreEIP2200) (
  jt_update SLOAD (set_constantGas SloadGasEIP2200) jt).
Definition enable2929 (jt : JumpTable) : JumpTable :=
  jt_update SELFDESTRUCT (set_dynamicGas gasSelfdestructEIP2929) (
  jt_update SELFDESTRUCT (set_constantGas SelfdestructGasEIP150) (
  jt_update DELEGATECALL (set_dynamicGas (gasDelegateCallEIP2929 env)) (
  jt_update DELEGATECALL (set_constantGas WarmStorageReadCostEIP2929) (
  jt_update STATICCALL (set_dynamicGas (gasStaticCallEIP2929 env)) (
  jt_update STATICCALL (set_constantGas WarmStorageReadCostEIP2929) (
  jt_update CALLCODE (set_dynamicGas (gasCallCodeEIP2929 env)) (
  jt_update CALLCODE (set_constantGas WarmStorageReadCostEIP2929) (
  jt_update CALL (set_dynamicGas (gasCallEIP2929 env)) (
  jt_update CALL (set_constantGas WarmStorageReadCostEIP2929) (
  jt_update BALANCE (set_dynamicGas gasEip2929AccountCheck) (
  jt_update BALANCE (set_constantGas WarmStorageReadCostEIP2929) (
  jt_update EXTCODEHASH (set_dynamicGas gasEip2929AccountCheck) (
  jt_update EXTCODEHASH (set_constantGas WarmStorageReadCostEIP2929) (
  jt_update EXTCODESIZE (set_dynamicGas gasEip2929AccountCheck) (
  jt_update EXTCODESIZE (set_constantGas WarmStorageReadCostEIP2929) (
  jt_update EXTCODECOPY (set_dynamicGas gasExtCodeCopyEIP2929) (
  jt_update EXTCODECOPY (set_constantGas WarmStorageReadCostEIP2929) (
  jt_update SLOAD (set_dynamicGas gasSLoadEIP2929) (
  jt_update SLOAD (set_constantGas 0) (
  jt_update SSTORE (set_dynamicGas gasSStoreEIP2929) jt)))))))))))))))))))).
Definition enable3529 (jt : JumpTable) : JumpTable :=
  jt_update SELFDESTRUCT (set_dynamicGas gasSelfdestructEIP3529) (
  jt_update SSTORE (set_dynamicGas gasSStoreEIP3529) jt).
Definition enable3198 (jt : JumpTable) : JumpTable :=
  jt_set BASEFEE (mkOperation (fun _ => opBaseFee env) GasQuickStep None (minStack 0 1) (maxStack 0 1) None) jt.
Definition enable1153 (jt : JumpTable) : JumpTable :=
  jt_set TSTORE (mkOperation (fun _ => opTstore) WarmStorageReadCostEIP2929 None (minStack 2 0) (maxStack 2 0) None) (
  jt_set TLOAD (mkOperation (fun _ => opTload) WarmStorageReadCostEIP2929 None (minStack 1 1) (maxStack 1 1) None) jt).
Definition enable3855 (jt : JumpTable) : JumpTable :=
  jt_set PUSH0 (mkOperation (fun _ => opPush0) GasQuickStep None (minStack 0 1) (maxStack 0 1) None) jt.
Definition enable3860 (jt : JumpTable) : JumpTable :=
  jt_update CREATE2 (set_dynamicGas gasCreate2Eip3860) (
  jt_update CREATE (set_dynamicGas gasCreateEip3860) jt).
Definition enable5656 (jt : JumpTable) : JumpTable :=
  jt_set MCOPY (mkOperation (fun _ => opMcopy) GasFastestStep (Some gasMcopy) (minStack 3 0) (maxStack 3 0) (Some memoryMcopy)) jt.
Definition enable4844 (jt : JumpTable) : JumpTable :=
  jt_set BLOBHASH (mkOperation (fun _ => opBlobHash env) GasFastestStep None (minStack 1 1) (maxStack 1 1) None) jt.
Definition enable7516 (jt : JumpTable) : JumpTable :=
  jt_set BLOBBASEFEE (mkOperation (fun _ => opBlobBaseFee env) GasQuickStep None (minStack 0 1) (maxStack 0 1) None) jt.
Definition enable6780 (jt : JumpTable) : JumpTable :=
  jt_set SELFDESTRUCT (mkOperation (fun _ => opSelfdestruct6780 env) SelfdestructGasEIP150 (Some gasSelfdestructEIP3529) (minStack 1 0) (maxStack 1 0) None) jt.
Definition enable7702 (jt : JumpTable) : JumpTable :=
  jt_update DELEGATECALL (set_dynamicGas (gasDelegateCallEIP7702 env)) (
  jt_update STATICCALL (set_dynamicGas (gasStaticCallEIP7702 env)) (
  jt_update CALLCODE (set_dynamicGas (gasCallCodeEIP7702 env)) (
  jt_update CALL (set_dynamicGas (gasCallEIP7702 env)) jt))).

(** ** Later forks *)

Definition newIstanbulInstructionSet : JumpTable := enable2200 (enable1884 (enable1344 newConstantinopleInstructionSet)).
Definition newBerlinInstructionSet : JumpTable := enable2929 newIstanbulInstructionSet.
Definition newLondonInstructionSet : JumpTable := enable3198 (enable3529 newBerlinInstructionSet).
Definition withRandom (jt : JumpTable) : JumpTable :=
  jt_set PREVRANDAO (mkOperation (fun _ => opRandom env) GasQuickStep None (minStack 0 1) (maxStack 0 1) None) jt.
Definition newMergeInstructionSet : JumpTable := withRandom newLondonInstructionSet.
Definition newShanghaiInstructionSet : JumpTable := enable3860 (enable3855 newMergeInstructionSet).
Definition newCancunInstructionSet : JumpTable :=
  enable6780 (enable5656 (enable1153 (enable7516 (enable4844 newShanghaiInstructionSet)))).
Definition newAnzeonInstructionSet : JumpTable :=
  enable7702 (enable6780 (enable5656 (enable1153 (enable3860 (enable3855 (withRandom newLondonInstructionSet)))))).

Definition instructionSet : JumpTable :=
  let rules := env_chainRules env in
  if r_IsCancun rules then newCancunInstructionSet
  else if r_IsShanghai rules then newShanghaiInstructionSet
  else if r_IsMerge rules then newMergeInstructionSet
  else if r_IsAnzeon rules then newAnzeonInstructionSet
  else if r_IsLondon rules then newLondonInstructionSet
  else if r_IsBerlin rules then newBerlinInstructionSet
  else if r_IsIstanbul rules then newIstanbulInstructionSet
  else if r_IsConstantinople rules then newConstantinopleInstructionSet
  else if r_IsByzantium rules then newByzantiumInstructionSet
  else if r_IsEIP158 rules then newSpuriousDragonInstructionSet
  else if r_IsEIP150 rules then newTangerineWhistleInstructionSet
  else if r_IsHomestead rules then newHomesteadInstructionSet
  else newFrontierInstructionSet.

(** [activators]; an unknown number enables nothing. *)
Definition EnableEIP (eipNum : Z) (jt : JumpTable) : JumpTable :=
  if eipNum =? 5656 then enable5656 jt
  else if eipNum =? 6780 then enable6780 jt
  else if eipNum =? 3855 then enable3855 jt
  else if eipNum =? 3860 then enable3860 jt
  else if eipNum =? 3529 then enable3529 jt
  else if eipNum =? 3198 then enable3198 jt
  else if eipNum =? 2929 then enable2929 jt
  else if eipNum =? 2200 then enable2200 jt
  else if eipNum =? 1884 then enable1884 jt
  else if eipNum =? 1344 then enable1344 jt
  else if eipNum =? 1153 then enable1153 jt
  else if eipNum =? 7702 then enable7702 jt
  else jt.
Definition NewEVMInterpreter : JumpTable := fold_left (fun jt eip => EnableEIP eip jt) (vc_ExtraEips (env_Config env)) instructionSet.
End tables.

(** * The interpreter *)

(** What a round of the loop leads to: the next one, or the end with data and an error. *)
Inductive Round := Continue | Finish (ret : bytes) (err : option VMError).

Section loop.
Context (table : JumpTable) (m : Machine).

(** The memory that the operation asks for, in whole words. *)
Definition memoryNeeded (o : operation) : Op (Z + VMError) :=
  match op_memorySize o with
  | None => mret (inl 0)
  | Some size =>
      '(memSize, overflow) ← size;
      if (overflow : bool) then mret (inr ErrGasUintOverflow)
      else
        let '(memorySize, overflow) := SafeMul (toWordSize memSize) 32 in
        if (overflow : bool) then mret (inr ErrGasUintOverflow) else mret (inl memorySize)
  end.
(** Gas that depends on the operands; then the memory grows. *)
Definition chargeDynamic (o : operation) : Op (option VMError) :=
  match op_dynamicGas o with
  | None => mret None
  | Some dynamicGas =>
      needed ← memoryNeeded o;
      match needed with
      | inr err => mret (Some err)
      | inl memorySize =>
          '(dynamicCost, err) ← dynamicGas memorySize;
          ok ← (if bool_decide (err <> None) then mret false else useGas dynamicCost);
          if negb ok then mret (Some ErrOutOfGas)
          else
            (if 0 <? memorySize then vmodify (fun f => set_f_mem (mem_Resize memorySize (f_mem f)) f) else mret tt);;
            mret None
      end
  end.

(** One round of the loop in [Run]. *)
Definition round : Op Round :=
  f ← vget;
  let o := table (GetOp (f_contract f) (f_pc f)) in
  let sLen := Z.of_nat (length (f_stack f)) in
  if sLen <? op_minStack o then mret (Finish [] (Some (ErrStackUnderflow sLen (op_minStack o))))
  else if op_maxStack o <? sLen then mret (Finish [] (Some (ErrStackOverflow sLen (op_maxStack o))))
  else
    ok ← useGas (op_constantGas o);
    if negb ok then mret (Finish [] (Some ErrOutOfGas))
    else
      err ← chargeDynamic o;
      match err with
      | Some err => mret (Finish [] (Some err))
      | None =>
          '(res, err) ← op_execute o m;
          match err with
          | Some err => mret (Finish res (if bool_decide (err = errStopToken) then None else Some err))
          | None => vmodify (fun f => set_f_pc (u64 (f_pc f + 1)) f);; mret Continue
          end
      end.

Fixpoint loop (steps : nat) : Op (bytes * option VMError) :=
  match steps with
  | O => fun _ => NoFuel
  | S steps =>
      r ← round;
      match r with Continue => loop steps | Finish ret err => mret (ret, err) end
  end.

Definition interpret (steps : nat) (contract : Contract) (input : bytes) (ro : bool) : EM Returned := fun e =>
  let enter := ro && negb (evm_readOnly e) in
  let e1 := set_evm_depth (evm_depth e + 1) e in
  let e1 := if enter then set_evm_readOnly true e1 else e1 in
  let e1 := set_evm_returnData [] e1 in
  let leave e := set_evm_depth (evm_depth e - 1) (if enter then set_evm_readOnly false e else e) in
  if (length (c_Code contract) =? 0)%nat then Done (([], c_Gas contract, None), leave e1)
  else
    match loop steps (mkFrame 0 NewMemory [] (set_c_Input input contract) e1) with
    | Done ((ret, err), f) => Done ((ret, f_gas f, err), leave (f_evm f))
    | Panic => Panic
    | NoFuel => NoFuel
    end.
End loop.

(** Each nested run has less gas than the one it is called from, each round uses some:
    more fuel than gas is enough. *)
Section run.
Context `{Crypto} `{Uint256} `{PrecompiledContracts} (env : Env).

Fixpoint Run (fuel : nat) (contract : Contract) (input : bytes) (ro : bool) : EM Returned :=
  match fuel with
  | O => fun _ => NoFuel
  | S fuel => interpret (NewEVMInterpreter env) (machine env (Run fuel)) (S fuel) contract input ro
  end.

Definition evm_Call (fuel : nat) : ContractRef -> Address -> bytes -> Z -> Z -> EM Returned := Call env (Run fuel).
Definition evm_Create (fuel : nat) : ContractRef -> bytes -> Z -> Z -> EM (bytes * Address * Z * option VMError) := Create env (Run fuel).
End run.
