(* ===== verification/VmSpec.v ===== *)
(** What holds of the machine while it runs on an Anzeon chain: the reasoning about
    functions that may panic, the invariants of the machine and of a frame, and the
    loop of the interpreter in terms of its rounds.

    What the operations of the machine do to balances: the interface that the proofs
    about the machine are made against.

    A [Ledger] is a relation between states that every operation respects which moves
    no coins, and the three ways in which the machine does move them: a transfer that
    is covered, a burn that is covered, and a mint that is logged.  Whatever a ledger
    relates, runs of the machine relate. *)
From S2P Require Import Prelude Validators AccountExtra Messages Config Rlp ChainConfig Forks StateJournal JournalProps JournalRuns JournalFrames VmAnalysis VmState VmGas VmOps NativeManager Evm VmTable.

(** The refund for a slot that is cleared, and the refunds that a unit of gas can
    pay for at most. *)
Abbreviation clearRefund := SstoreClearsScheduleRefundEIP3529.
Abbreviation refundRatio := 200.

Definition word (x : Z) : Prop := 0 <= x < 2 ^ 256.
Lemma u256_word x : word (u256 x).
Proof. unfold word, u256. by apply Z.mod_pos_bound. Qed.

(** What a log of the adapter contract says was minted: a transfer from nobody. *)
Definition mints (adapter : Address) (l : Log) : Z :=
  if (log_Address l =? adapter) && bool_decide (take 2 (log_Topics l) = [TransferEventSig; 0]) then SetBytes (log_Data l) else 0.

Lemma mints_word adapter l : word (mints adapter l).
Proof. unfold mints. destruct (_ && _); [apply u256_word|by split]. Qed.
Lemma mints_transfer env adapter to x : word x -> mints adapter (transferLog env adapter 0 to x) = x.
Proof.
  intros Hx. unfold mints, transferLog. cbn [log_Address log_Topics log_Data take]. rewrite Z.eqb_refl, bool_decide_eq_true_2 by done. cbn [andb].
  unfold SetBytes, u256. rewrite be_value_mod. change (256 ^ Z.of_nat 32) with (2 ^ 256). rewrite Zmod_mod. by apply Z.mod_small.
Qed.

(** Operations that move no coins. *)
Definition neutral (op : StateOp) : Prop :=
  match op with OpAddBalance _ x | OpSubBalance _ x => x = 0 | OpRevert _ => False | _ => True end.

Class Ledger `{Crypto} (adapter : Address) : Type := {
  Rel : StateDB -> StateDB -> Prop;
  rel_trans s t u : Rel s t -> Rel t u -> Rel s u;
  rel_same s t : same t s -> Rel s t;
  rel_neutral op s t : neutral op -> wf s -> exec op s = Some t -> Rel s t;
  rel_transfer from to x s : wf s -> word x \/ x = GetBalance s from -> x <= GetBalance s from -> Rel s (AddBalance to x (SubBalance from x s));
  rel_burn from x s : wf s -> word x -> x <= GetBalance s from -> Rel s (SubBalance from x s);
  rel_mint to x l s : wf s -> word x -> mints adapter l = x -> Rel s (AddLog l (AddBalance to x s));
}.

(** Nothing is asked of the balances. *)
Definition anyLedger `{Crypto} adapter : Ledger adapter.
Proof. by apply (Build_Ledger _ _ (fun _ _ => True)). Defined.

Section lawful.
Context `{Crypto} {adapter : Address} `{!Ledger adapter}.

Record lawful (s s' : StateDB) : Prop := {
  lawful_advances : advances clearRefund s s';
  lawful_rel : Rel s s';
}.

Lemma rel_refl s : Rel s s.
Proof. by apply rel_same. Qed.
Lemma lawful_refl s : state_ok clearRefund s -> lawful s s.
Proof. intros Hs. split; [by apply advances_refl|apply rel_refl]. Qed.
Lemma lawful_trans s t u : lawful s t -> lawful t u -> lawful s u.
Proof. intros [] []. split; [by eapply advances_trans|by eapply rel_trans]. Qed.

Lemma exec_lawful op s s' : calm_op op -> neutral op -> state_ok clearRefund s -> exec op s = Some s' -> lawful s s'.
Proof. intros Hc Hn Hs Hx. split; [by eapply exec_advances|]. eapply rel_neutral; [done|apply Hs|done]. Qed.

Lemma balance_advances s from to x : state_ok clearRefund s -> advances clearRefund s (AddBalance to x (SubBalance from x s)).
Proof.
  intros Hs. apply (advances_trans _ _ (SubBalance from x s)); [by eapply (exec_advances _ (OpSubBalance from x))|].
  eapply (exec_advances _ (OpAddBalance to x)); [done| |done]. by eapply (exec_advances _ (OpSubBalance from x)).
Qed.
Lemma transfer_lawful from to x s : state_ok clearRefund s -> word x \/ x = GetBalance s from -> x <= GetBalance s from ->
  lawful s (AddBalance to x (SubBalance from x s)).
Proof. intros Hs Hx Hb. split; [by apply balance_advances|]. apply rel_transfer; [apply Hs|done|done]. Qed.
(** What the machine asks of a transfer: it moves nothing, or it is covered. *)
Definition covered (s : StateDB) (from : Address) (x : Z) : Prop := x = 0 \/ word x /\ x <= GetBalance s from.
Lemma covered_lawful from to x s : state_ok clearRefund s -> covered s from x -> lawful s (AddBalance to x (SubBalance from x s)).
Proof.
  intros Hs [->|[Hx Hb]]; [|by apply transfer_lawful; [|left|]].
  assert (lawful s (SubBalance from 0 s)) as Hl by (by eapply (exec_lawful (OpSubBalance from 0))).
  eapply lawful_trans; [exact Hl|]. eapply (exec_lawful (OpAddBalance to 0)); [done|done|apply Hl|done].
Qed.
Lemma burn_lawful from x s : state_ok clearRefund s -> word x -> x <= GetBalance s from -> lawful s (SubBalance from x s).
Proof. intros Hs Hx Hb. split; [by eapply (exec_advances _ (OpSubBalance from x))|]. apply rel_burn; [apply Hs|done|done]. Qed.
Lemma mint_lawful to x l s : state_ok clearRefund s -> word x -> mints adapter l = x -> lawful s (AddLog l (AddBalance to x s)).
Proof.
  intros Hs Hx Hl. split; [|apply rel_mint; [apply Hs|done|done]]. apply (advances_trans _ _ (AddBalance to x s)); [by eapply (exec_advances _ (OpAddBalance to x))|].
  eapply (exec_advances _ (OpAddLog l)); [done| |done]. by eapply (exec_advances _ (OpAddBalance to x)).
Qed.
End lawful.

(** * Functions of the machine *)

(** The function returns, and what it returns satisfies [Q]. *)
Definition vwp {S A} (m : VM S A) (s : S) (Q : A -> S -> Prop) : Prop :=
  match m s with Done (a, s') => Q a s' | Panic | NoFuel => False end.

Section wp.
Context {S : Type}.
Lemma vwp_bind {A B} (m : VM S A) (k : A -> VM S B) s Q : vwp m s (fun a s' => vwp (k a) s' Q) -> vwp (m ≫= k) s Q.
Proof. unfold vwp, mbind, VM_bind. by destruct (m s) as [[a s']| |]. Qed.
Lemma vwp_assoc {A B C} (m : VM S A) (k : VM S B) (l : B -> VM S C) s Q :
  vwp (m ≫= fun _ => k) s (fun b s' => vwp (l b) s' Q) -> vwp (m ≫= fun _ => k ≫= l) s Q.
Proof. unfold vwp, mbind, VM_bind. destruct (m s) as [[a s']| |]; [|done..]. by destruct (k s') as [[b s'']| |]. Qed.
Lemma vwp_mono {A} (m : VM S A) s (P Q : A -> S -> Prop) : vwp m s P -> (forall a s', P a s' -> Q a s') -> vwp m s Q.
Proof. unfold vwp. destruct (m s) as [[a s']| |]; [|done..]. auto. Qed.
Lemma vwp_ret {A} (a : A) (s : S) (Q : A -> S -> Prop) : Q a s -> vwp (mret a) s Q.
Proof. done. Qed.
Lemma vwp_option {A} (o : option A) (a : A) (s : S) (Q : A -> S -> Prop) : o = Some a -> Q a s -> vwp (voption o) s Q.
Proof. by intros ->. Qed.
Lemma vwp_get (s : S) (Q : S -> S -> Prop) : Q s s -> vwp vget s Q.
Proof. done. Qed.
Lemma vwp_modify (f : S -> S) (s : S) (Q : unit -> S -> Prop) : Q tt (f s) -> vwp (vmodify f) s Q.
Proof. done. Qed.
End wp.

Section stack.
Variables (f : Frame) (st : list Z) (x : Z).
Lemma vwp_pop Q : f_stack f = x :: st -> Q x (set_f_stack st f) -> vwp pop f Q.
Proof. unfold vwp, pop. by intros ->. Qed.
Lemma vwp_peek Q : f_stack f = x :: st -> Q x f -> vwp peek f Q.
Proof. unfold vwp, peek. by intros ->. Qed.
Lemma vwp_poke y Q : f_stack f = x :: st -> Q tt (set_f_stack (u256 y :: st) f) -> vwp (poke y) f Q.
Proof. unfold vwp, poke. by intros ->. Qed.
Lemma vwp_push y Q : f_stack f = st -> Q tt (set_f_stack (u256 y :: st) f) -> vwp (push y) f Q.
Proof. unfold vwp, push. by intros ->. Qed.
Lemma vwp_Back n Q : f_stack f !! n = Some x -> Q x f -> vwp (Back n) f Q.
Proof. unfold vwp, Back. by intros ->. Qed.
End stack.

(** Steps through a function; the stack is known to have a top. *)
Ltac vstep :=
  cbv beta iota zeta;
  lazymatch goal with
  | |- vwp (_ ≫= _) _ _ => apply vwp_bind
  | |- vwp (mret _) _ _ => apply vwp_ret
  | |- vwp vget _ _ => apply vwp_get
  | |- vwp (vmodify _) _ _ => apply vwp_modify
  | |- vwp pop _ _ => eapply vwp_pop; [cbn; (eassumption || reflexivity)|]
  | |- vwp peek _ _ => eapply vwp_peek; [cbn; (eassumption || reflexivity)|]
  | |- vwp (poke _) _ _ => eapply vwp_poke; [cbn; (eassumption || reflexivity)|]
  | |- vwp (push _) _ _ => eapply vwp_push; [cbn; (eassumption || reflexivity)|]
  end.
Ltac vsteps := repeat vstep; cbv beta iota zeta.

(** * Invariants *)

Section invariants.
Context `{Crypto} {adapter : Address} `{!Ledger adapter}.

(** The analyses that are shared are those of the code with that hash. *)
Definition jumpdests_ok (e : EVM) : Prop := forall h bits, evm_jumpdests e !! h = Some bits ->
  exists code, be_value (Keccak256 code) = h /\ codeBitmap code = Some bits.
Record evm_ok (e : EVM) : Prop := {
  evm_state_ok : state_ok clearRefund (evm_StateDB e);
  evm_jumpdests_ok : jumpdests_ok e;
}.
(** The counter of refunds cannot overflow with the gas that is there. *)
Definition room (g : Z) (e : EVM) : Prop := 0 <= g < 2 ^ 64 /\ sdb_refund (evm_StateDB e) + refundRatio * g < 2 ^ 64.

(** What any part of a run leaves behind, and what one without error does. *)
Record moves (e e' : EVM) : Prop := {
  moves_grows : grows (evm_StateDB e) (evm_StateDB e');
  moves_depth : evm_depth e' = evm_depth e;
  moves_readOnly : evm_readOnly e' = evm_readOnly e;
  moves_jumpdests : jumpdests_ok e';
}.
Record evolves (g : Z) (e : EVM) (g' : Z) (e' : EVM) : Prop := {
  evolves_moves : moves e e';
  evolves_ok : evm_ok e';
  evolves_gas : 0 <= g' <= g;
  evolves_refund : sdb_refund (evm_StateDB e') <= sdb_refund (evm_StateDB e) + refundRatio * (g - g');
  evolves_rel : Rel (evm_StateDB e) (evm_StateDB e');
}.

Lemma evm_wf e : evm_ok e -> wf (evm_StateDB e).
Proof. by intros [[[Hw _] _ _] _]. Qed.
Lemma moves_refl e : evm_ok e -> moves e e.
Proof. intros He. split; try done; [by apply grows_refl, evm_wf|apply He]. Qed.
Lemma moves_trans e1 e2 e3 : moves e1 e2 -> moves e2 e3 -> moves e1 e3.
Proof. intros [] []. split; [by eapply grows_trans|congruence..|done]. Qed.
Lemma evolves_trans g1 e1 g2 e2 g3 e3 : evolves g1 e1 g2 e2 -> evolves g2 e2 g3 e3 -> evolves g1 e1 g3 e3.
Proof. intros [] []. split; [by eapply moves_trans|done|lia|lia|by eapply rel_trans]. Qed.
Lemma evolves_refl g e : 0 <= g -> evm_ok e -> evolves g e g e.
Proof. intros Hg He. split; [by apply moves_refl|done|lia|lia|apply rel_refl]. Qed.
Lemma evolves_pay g e g' : 0 <= g' <= g -> evm_ok e -> evolves g e g' e.
Proof. intros Hg He. split; [by apply moves_refl|done|lia|lia|apply rel_refl]. Qed.
Lemma evolves_room g e g' e' : room g e -> evolves g e g' e' -> room g' e'.
Proof. intros [] []. split; lia. Qed.

(** A change of the state that leaves the counter alone. *)
Lemma evolves_state g e s' : 0 <= g -> evm_ok e -> lawful (evm_StateDB e) s' -> evolves g e g (set_evm_StateDB s' e).
Proof.
  intros Hg [Hs Hj] [[Hgr Hok Hr] Hrel]. split; [|by split|lia|cbn; lia|done]. by split.
Qed.

(** ** Frames *)

Definition contract_ok (c : Contract) : Prop :=
  Z.of_nat (length (c_Code c)) < 2 ^ 62 /\
  (c_Code c <> [] -> c_CodeHash c = 0 \/ c_CodeHash c = be_value (Keccak256 (c_Code c))) /\ c_analysis c = None.

Record frame_ok (f : Frame) : Prop := {
  fr_evm : evm_ok (f_evm f);
  fr_room : room (f_gas f) (f_evm f);
  fr_stack : Forall word (f_stack f);
  fr_pc : 0 <= f_pc f < 2 ^ 64;
  fr_mem : mem_Len (f_mem f) <= 2 ^ 40;
  fr_code : Z.of_nat (length (c_Code (f_contract f))) < 2 ^ 62;
  fr_input : Z.of_nat (length (c_Input (f_contract f))) < 2 ^ 62;
  fr_hash : c_CodeHash (f_contract f) = 0 \/ c_CodeHash (f_contract f) = be_value (Keccak256 (c_Code (f_contract f)));
  fr_analysis bits : c_analysis (f_contract f) = Some bits -> codeBitmap (c_Code (f_contract f)) = Some bits;
  fr_warm : AddressInAccessList (f_state f) (f_self f) = true;
}.

Abbreviation fevolves f f' := (evolves (f_gas f) (f_evm f) (f_gas f') (f_evm f')).

(** What a round leads to. *)
Definition post (f : Frame) (r : Round) (f' : Frame) : Prop :=
  match r with
  | Continue => frame_ok f' /\ fevolves f f' /\ f_gas f' < f_gas f
  | Finish _ None => fevolves f f'
  | Finish _ (Some _) => moves (f_evm f) (f_evm f') /\ 0 <= f_gas f' <= f_gas f
  end.
(** What the result of an operation leads to. *)
Definition outcome (ret : bytes) (err : option VMError) : Round :=
  match err with None => Continue | Some e => Finish ret (if bool_decide (e = errStopToken) then None else Some e) end.

Lemma frame_stack_ok f st : frame_ok f -> Forall word st -> frame_ok (set_f_stack st f).
Proof. intros [] Hst. by split. Qed.
Lemma frame_pc_ok f pc : frame_ok f -> 0 <= pc < 2 ^ 64 -> frame_ok (set_f_pc pc f).
Proof. intros [] Hpc. by split. Qed.
Lemma frame_evm_ok f g e : frame_ok f -> evolves (f_gas f) (f_evm f) g e -> frame_ok (set_f_gas g (set_f_evm e f)).
Proof.
  intros Hf He. pose proof (evolves_room _ _ _ _ (fr_room _ Hf) He). destruct Hf. split; try done; [apply He|].
  cbn. by apply He.
Qed.
Lemma frame_pay_ok f g : frame_ok f -> 0 <= g <= f_gas f -> frame_ok (set_f_gas g f).
Proof. intros Hf Hg. apply (frame_evm_ok f g (f_evm f) Hf), evolves_pay; [done|apply Hf]. Qed.
Lemma frame_mem_ok f m : frame_ok f -> mem_Len m <= 2 ^ 40 -> frame_ok (set_f_mem m f).
Proof. intros [] Hm. by split. Qed.
End invariants.
Abbreviation fevolves f f' := (evolves (f_gas f) (f_evm f) (f_gas f') (f_evm f')).

(** * The loop *)

Section rounds.
Context `{Crypto} {adapter : Address} `{!Ledger adapter} (table : JumpTable) (m : Machine).

(** A round once the operation was looked up and its constant gas was paid. *)
Definition step (o : operation) : Op Round :=
  err ← chargeDynamic o;
  match err with
  | Some err => mret (Finish [] (Some err))
  | None =>
      '(res, err) ← op_execute o m;
      match err with
      | Some err => mret (Finish res (if bool_decide (err = errStopToken) then None else Some err))
      | None => vmodify (fun f => set_f_pc (u64 (f_pc f + 1)) f);; mret Continue
      end
  end.

Definition inside (f : Frame) : Prop := f_pc f < Z.of_nat (length (c_Code (f_contract f))).
Definition sLen (f : Frame) : Z := Z.of_nat (length (f_stack f)).

(** An operation that keeps the invariants, with at most [n] units of gas; only the
    first one of the table runs outside the code. *)
Definition operation_ok (n : Z) (stop : bool) (o : operation) : Prop :=
  0 <= op_constantGas o /\
  forall f, frame_ok f -> (stop = false -> inside f) -> op_minStack o <= sLen f <= op_maxStack o ->
    f_gas f <= n -> op_constantGas o <= f_gas f ->
    vwp (step o) (set_f_gas (f_gas f - op_constantGas o) f) (post f).

Lemma round_ok n f : (forall op, operation_ok n (op =? 0) (table op)) -> frame_ok f -> f_gas f <= n -> vwp (round table m) f (post f).
Proof.
  intros Ht Hf Hn. unfold round. vstep. vstep. remember (GetOp (f_contract f) (f_pc f)) as op eqn:Hop.
  destruct (Ht op) as [H0 Hstep]. pose proof (fr_room _ Hf) as [Hg _].
  assert (post f (Finish [] (Some errStopToken)) f) as Hfin by (split; [by apply moves_refl, Hf|lia]).
  destruct (Z.ltb_spec (Z.of_nat (length (f_stack f))) (op_minStack (table op))); [exact Hfin|].
  destruct (Z.ltb_spec (op_maxStack (table op)) (Z.of_nat (length (f_stack f)))); [exact Hfin|].
  vstep. unfold vwp at 1, useGas, UseGas. fold (f_gas f). destruct (Z.ltb_spec (f_gas f) (op_constantGas (table op))); [exact Hfin|].
  cbn [negb]. apply (Hstep f Hf); [|unfold sLen; lia|lia|lia].
  intros Hne%Z.eqb_neq. unfold inside. unfold GetOp in Hop. by destruct (Z.ltb_spec (f_pc f) (Z.of_nat (length (c_Code (f_contract f))))).
Qed.

(** What a run of the loop, or of a contract, ends with. *)
Definition finished (g : Z) (e : EVM) (g' : Z) (e' : EVM) (err : option VMError) : Prop :=
  moves e e' /\ 0 <= g' <= g /\ (err = None -> evolves g e g' e').

Lemma loop_ok n steps f : (forall op, operation_ok n (op =? 0) (table op)) -> frame_ok f -> f_gas f <= n -> f_gas f < Z.of_nat steps ->
  vwp (loop table m steps) f (fun r f' => finished (f_gas f) (f_evm f) (f_gas f') (f_evm f') r.2).
Proof.
  intros Ht. revert f. induction steps as [|steps IH]; intros f Hf Hn Hs; [pose proof (fr_room _ Hf) as [Hg _]; lia|].
  cbn [loop]. vstep. eapply vwp_mono; [by apply (round_ok n)|]. intros [|ret [err|]] f'.
  - intros (Hf' & He & Hlt). eapply vwp_mono; [apply IH; [done|lia|lia]|]. intros r f'' (Hm & Hg & Hev). pose proof (evolves_gas _ _ _ _ He). split_and!.
    + eapply moves_trans; [apply He|done].
    + lia.
    + lia.
    + intros Hr. eapply evolves_trans; [exact He|by apply Hev].
  - intros [Hm Hg]. split_and!; [done|lia|lia|done].
  - intros He. pose proof (evolves_gas _ _ _ _ He). split_and!; [apply He|lia|lia|done].
Qed.

(** A whole run: what the contract may rely on, and what it is relied on for. *)
Definition run_ok (n : Z) (run : Contract -> bytes -> bool -> EM Returned) : Prop :=
  forall c input ro e, evm_ok e -> contract_ok c -> c_Gas c < n -> room (c_Gas c) e -> Z.of_nat (length input) < 2 ^ 62 ->
    AddressInAccessList (evm_StateDB e) (c_self c) = true ->
    vwp (run c input ro) e (fun r e' => finished (c_Gas c) e r.1.2 e' r.2).

Lemma moves_leave enter e e' :
  let e1 := set_evm_depth (evm_depth e + 1) e in
  let e1 := if enter : bool then set_evm_readOnly true e1 else e1 in
  let e1 := set_evm_returnData [] e1 in
  (enter = true -> evm_readOnly e = false) ->
  moves e1 e' -> moves e (set_evm_depth (evm_depth e' - 1) (if enter then set_evm_readOnly false e' else e')).
Proof.
  intros e1 e2 e3 Hro []. split.
  - by destruct enter.
  - subst e1 e2 e3. destruct enter; cbn in *; lia.
  - subst e1 e2 e3. destruct enter; cbn in *; [by rewrite Hro|done].
  - by destruct enter.
Qed.

Lemma interpret_ok n steps : (forall op, operation_ok n (op =? 0) (table op)) -> n < Z.of_nat steps -> run_ok (n + 1) (interpret table m steps).
Proof.
  intros Ht Hs c input ro e He (Hcode & Hhash & Han) Hn Hroom Hin Hwarm. unfold vwp, interpret. set (enter := ro && negb (evm_readOnly e)).
  set (e1 := set_evm_returnData [] _). assert (enter = true -> evm_readOnly e = false) as Hro by (unfold enter; destruct ro, (evm_readOnly e); done).
  assert (evm_ok e1) as He1 by (unfold e1; destruct enter; by destruct He; split).
  assert (forall e2, evm_StateDB (set_evm_depth (evm_depth e2 - 1) (if enter then set_evm_readOnly false e2 else e2)) = evm_StateDB e2) as Hst by (by destruct enter).
  assert (evm_StateDB e1 = evm_StateDB e) as Hst1 by (unfold e1; by destruct enter).
  assert (forall g' e2 err, finished (c_Gas c) e1 g' e2 err ->
    finished (c_Gas c) e g' (set_evm_depth (evm_depth e2 - 1) (if enter then set_evm_readOnly false e2 else e2)) err) as Hback.
  { intros g' e2 err (Hm & Hg & Hev). pose proof (moves_leave enter e e2 Hro Hm) as Hm'. split_and!; [done|lia|lia|]. intros Herr.
    destruct (Hev Herr) as [_ [Hok Hj] Hg' Hr Hrel]. rewrite Hst1 in Hr, Hrel. split; [done| |done|by rewrite Hst|by rewrite Hst]. split; [by rewrite Hst|apply Hm']. }
  destruct (Nat.eqb_spec (length (c_Code c)) 0) as [_|Hne].
  - apply (Hback (c_Gas c)). destruct Hroom as [Hg _]. split_and!; [by apply moves_refl|lia|lia|]. intros _. apply evolves_refl; [lia|done].
  - set (f := mkFrame 0 NewMemory [] (set_c_Input input c) e1).
    assert (frame_ok f) as Hf.
    { split; try done; cbn.
      - unfold room. by rewrite Hst1.
      - apply Hhash. by destruct (c_Code c).
      - by rewrite Han.
      - rewrite <- Hst1 in Hwarm. exact Hwarm. }
    pose proof (loop_ok n steps f Ht Hf) as Hl. unfold vwp in Hl. change (f_gas f) with (c_Gas c) in Hl.
    destruct (loop table m steps f) as [[[ret err] f']| |]; [|exfalso; apply Hl; lia..]. apply Hback, Hl; lia.
Qed.
End rounds.
