(* ===== verification/VmSimple.v ===== *)
(** The operations that work on the stack, on jumps and on data of the transaction:
    none of them panics, and each keeps the invariants. *)
From S2P Require Import Prelude Validators AccountExtra Messages Config Rlp ChainConfig Forks StateJournal JournalProps JournalRuns JournalFrames VmAnalysis VmState VmGas VmOps NativeManager Evm VmTable VmSpec.

(** What an Anzeon block offers to the machine: the values that the operations of its
    table dereference. *)
Record anzeon_env (adapter : Address) (env : Env) : Prop := {
  env_anzeon : r_IsAnzeon (env_chainRules env) = true;
  env_cancun : r_IsCancun (env_chainRules env) = false;
  env_shanghai : r_IsShanghai (env_chainRules env) = false;
  env_merge : r_IsMerge (env_chainRules env) = false;
  env_berlin : r_IsBerlin (env_chainRules env) = true;
  env_eip158 : r_IsEIP158 (env_chainRules env) = true;
  env_eip150 : r_IsEIP150 (env_chainRules env) = true;
  env_homestead : r_IsHomestead (env_chainRules env) = true;
  env_extraEips : vc_ExtraEips (env_Config env) = [];
  env_random : is_Some (bc_Random (env_Context env));
  env_baseFee : is_Some (bc_BaseFee (env_Context env));
  env_chainID : is_Some (ChainID (env_chainConfig env));
  env_adapter : systemContract env NativeCoinAdapter = Some adapter;
  env_council : is_Some (systemContract env GovCouncil);
}.

(** [keccak256] does not collide on code. *)
Class CollisionFree `{Crypto} : Prop := keccak_code c c' : be_value (Keccak256 c) = be_value (Keccak256 c') -> c = c'.

Section simple.
Context `{Crypto} {adapter : Address} `{!Ledger adapter}.

(** What running an operation in a frame leads to. *)
Definition exec_post (f : Frame) (r : bytes * option VMError) (f' : Frame) : Prop :=
  match r.2 with
  | None => frame_ok f' /\ fevolves f f'
  | Some e => if bool_decide (e = errStopToken) then fevolves f f' else moves (f_evm f) (f_evm f') /\ 0 <= f_gas f' <= f_gas f
  end.

Lemma frame_gas f : frame_ok f -> 0 <= f_gas f < 2 ^ 64.
Proof. by intros [? [] ]. Qed.
Lemma fevolves_refl f : frame_ok f -> fevolves f f.
Proof. intros Hf. apply evolves_refl; [by apply frame_gas|apply Hf]. Qed.
Lemma exec_ok f f' ret : frame_ok f' -> fevolves f f' -> exec_post f (ret, None) f'.
Proof. done. Qed.
Lemma exec_err f f' ret e : fevolves f f' -> exec_post f (ret, Some e) f'.
Proof. intros He. unfold exec_post. cbn. case_bool_decide; [done|]. split; [apply He|by apply (evolves_gas _ _ _ _ He)]. Qed.
Lemma exec_stack f st ret : frame_ok f -> Forall word st -> exec_post f (ret, None) (set_f_stack st f).
Proof. intros Hf Hst. apply exec_ok; [by apply frame_stack_ok|by apply (fevolves_refl f)]. Qed.

(** A round from its two halves. *)
Lemma step_intro m o f f0 (K : Frame -> Prop) :
  vwp (chargeDynamic o) f0 (fun err f1 =>
    match err with
    | Some _ => moves (f_evm f) (f_evm f1) /\ 0 <= f_gas f1 <= f_gas f
    | None => frame_ok f1 /\ fevolves f f1 /\ K f1
    end) ->
  (forall f1, frame_ok f1 -> fevolves f f1 -> K f1 ->
    vwp (op_execute o m) f1 (fun r f2 => exec_post f1 r f2 /\ (r.2 = None -> f_gas f1 < f_gas f))) ->
  vwp (step m o) f0 (post f).
Proof.
  intros Hc Hx. unfold step. vstep. eapply vwp_mono; [exact Hc|]. intros [err|] f1; [by intros|]. intros (Hf1 & He & HK).
  vstep. eapply vwp_mono; [by apply Hx|]. intros [ret [err|]] f2 [Hp Hlt].
  - unfold exec_post in Hp. cbn [snd] in Hp. vstep. unfold post. case_bool_decide.
    + by eapply evolves_trans.
    + destruct Hp as [Hm Hg]. pose proof (evolves_gas _ _ _ _ He). split; [eapply moves_trans; [apply He|done]|lia].
  - destruct Hp as [Hf2 He2]. pose proof (evolves_gas _ _ _ _ He2). vsteps. split_and!.
    + apply frame_pc_ok; [done|apply u64_range].
    + change (fevolves f f2). by eapply evolves_trans.
    + change (f_gas f2 < f_gas f). specialize (Hlt eq_refl). lia.
Qed.

(** Operations with only constant gas. *)
Lemma simple_ok m n stop execute const lo hi : 0 <= const ->
  (forall f, frame_ok f -> (stop = false -> inside f) -> lo <= sLen f <= hi ->
    vwp execute f (fun r f' => exec_post f r f' /\ (r.2 = None -> 0 < const))) ->
  operation_ok m n stop (mkOperation (fun _ => execute) const None lo hi None).
Proof.
  intros Hc Hx. split; [done|]. intros f Hf Hin Hlen Hn Hg. cbn in Hg, Hlen. pose proof (frame_gas f Hf).
  assert (frame_ok (set_f_gas (f_gas f - const) f)) as Hf0 by (apply frame_pay_ok; [done|lia]).
  apply (step_intro m _ f _ (fun f1 => f1 = set_f_gas (f_gas f - const) f)).
  - cbn. split_and!; [done| |done]. apply evolves_pay; [cbn; lia|apply Hf].
  - intros f1 Hf1 He ->. eapply vwp_mono; [by apply Hx|]. cbn. intros r f' [Hp Hpos]. split; [done|]. intros Hr. specialize (Hpos Hr). lia.
Qed.
Lemma plain_ok m n execute const lo hi : 0 < const ->
  (forall f, frame_ok f -> inside f -> lo <= sLen f <= hi -> vwp execute f (exec_post f)) ->
  operation_ok m n false (mkOperation (fun _ => execute) const None lo hi None).
Proof.
  intros Hc Hx. apply simple_ok; [lia|]. intros f Hf Hin Hlen. eapply vwp_mono; [by apply Hx; [|apply Hin|]|]. by cbn.
Qed.

(** ** The stack *)

Lemma stack_cons f : frame_ok f -> 1 <= sLen f -> exists x st, f_stack f = x :: st /\ word x /\ Forall word st /\ sLen f = Z.of_nat (length st) + 1.
Proof.
  intros Hf. unfold sLen. pose proof (fr_stack _ Hf) as Hst. destruct (f_stack f) as [|x st]; cbn; [lia|]. apply Forall_cons in Hst as [? ?].
  intros _. exists x, st. split_and!; [done..|lia].
Qed.

Ltac words := repeat first [apply Forall_cons; split; [first [apply u256_word|assumption]|] | assumption | apply Forall_nil; exact I].

Lemma exec_binary g f : frame_ok f -> 2 <= sLen f -> vwp (binary g) f (exec_post f).
Proof.
  intros Hf Hlen. pose proof (fr_stack _ Hf) as Hw. unfold sLen in Hlen. destruct (f_stack f) as [|x [|y st]] eqn:Hst; cbn in Hlen; [lia..|].
  rewrite !Forall_cons in Hw. unfold binary, proceed. vsteps. apply (exec_stack f); [done|]. words. apply Hw.
Qed.
Lemma exec_unary g f : frame_ok f -> 1 <= sLen f -> vwp (unary g) f (exec_post f).
Proof.
  intros Hf Hlen. destruct (stack_cons f Hf Hlen) as (x & st & Hst & Hx & Hw & _). unfold unary, proceed. vsteps. apply exec_stack; [done|words].
Qed.
Lemma exec_ternary g f : frame_ok f -> 3 <= sLen f -> vwp (ternary g) f (exec_post f).
Proof.
  intros Hf Hlen. pose proof (fr_stack _ Hf) as Hw. unfold sLen in Hlen. destruct (f_stack f) as [|x [|y [|z st]]] eqn:Hst; cbn in Hlen; [lia..|].
  rewrite !Forall_cons in Hw. unfold ternary, proceed. vsteps. apply (exec_stack f); [done|]. words. apply Hw.
Qed.
Lemma exec_pushes g f : frame_ok f -> vwp (pushes g) f (exec_post f).
Proof. intros Hf. unfold pushes, proceed. vsteps. apply exec_stack; [done|]. pose proof (fr_stack _ Hf). words. Qed.
Lemma exec_pushed x f : frame_ok f -> vwp (push x;; proceed) f (exec_post f).
Proof. intros Hf. unfold proceed. vsteps. apply exec_stack; [done|]. pose proof (fr_stack _ Hf). words. Qed.
Lemma exec_poked x f : frame_ok f -> 1 <= sLen f -> vwp (poke x;; proceed) f (exec_post f).
Proof.
  intros Hf Hlen. destruct (stack_cons f Hf Hlen) as (y & st & Hst & Hx & Hw & _). unfold proceed. vsteps. apply exec_stack; [done|words].
Qed.
(** Reading the state at the top of the stack. *)
Lemma exec_lookup g f : frame_ok f -> 1 <= sLen f -> vwp (slot ← peek; b ← gets (g slot); poke b;; proceed) f (exec_post f).
Proof.
  intros Hf Hlen. destruct (stack_cons f Hf Hlen) as (y & st & Hst & Hx & Hw & _). unfold proceed. vsteps. unfold vwp at 1, gets. vsteps.
  apply exec_stack; [done|words].
Qed.
Lemma exec_pop f : frame_ok f -> 1 <= sLen f -> vwp opPop f (exec_post f).
Proof.
  intros Hf Hlen. destruct (stack_cons f Hf Hlen) as (y & st & Hst & Hx & Hw & _). unfold opPop, proceed. vsteps. by apply exec_stack.
Qed.
Lemma exec_dup n f : frame_ok f -> Z.of_nat (S n) <= sLen f -> vwp (makeDup (S n)) f (exec_post f).
Proof.
  intros Hf Hlen. destruct (lookup_lt_is_Some_2 (f_stack f) n) as [x Hx]; [unfold sLen in Hlen; lia|]. unfold makeDup, proceed. vstep.
  unfold vwp at 1, dup. rewrite Hx. vsteps. apply exec_stack; [done|]. pose proof (fr_stack _ Hf) as Hw. constructor; [by eapply (Forall_lookup_1 _ _ _ _ Hw)|done].
Qed.
Lemma exec_swap n f : frame_ok f -> Z.of_nat (S n) <= sLen f -> vwp (makeSwap n) f (exec_post f).
Proof.
  intros Hf Hlen. destruct (lookup_lt_is_Some_2 (f_stack f) n) as [y Hy]; [unfold sLen in Hlen; lia|]. unfold makeSwap, proceed. vstep.
  pose proof (fr_stack _ Hf) as Hw. pose proof (Forall_lookup_1 _ _ _ _ Hw Hy) as Hwy. unfold vwp at 1, swap. destruct (f_stack f) as [|x st] eqn:Hst; [done|].
  rewrite Hy. vsteps. apply exec_stack; [done|]. apply Forall_cons in Hw as [Hx Hw]. apply Forall_insert; [|done]. by constructor.
Qed.

(** ** Data *)

Lemma slice_ok b lo hi : 0 <= lo <= hi -> hi <= Z.of_nat (length b) -> exists x, slice b lo hi = Some x /\ Z.of_nat (length x) = hi - lo.
Proof.
  intros Hlo Hhi. unfold slice. replace (_ && _) with true by lia. eexists. split; [done|]. rewrite length_take, length_drop. lia.
Qed.
Lemma getData_ok data start size : Z.of_nat (length data) < 2 ^ 62 -> 0 <= start < 2 ^ 64 -> 0 <= size < 2 ^ 62 ->
  exists b, getData data start size = Some b.
Proof.
  intros Hd Hs Hz. unfold getData. set (l := Z.of_nat (length data)) in *. set (s := if l <? start then l else start).
  assert (0 <= s <= l) as Hsl by (unfold s; destruct (Z.ltb_spec l start); lia). rewrite (u64_small (s + size)) by lia.
  destruct (slice_ok data s (if l <? s + size then l else s + size)) as (b & Hb & _); [destruct (Z.ltb_spec l (s + size)); lia|destruct (Z.ltb_spec l (s + size)); lia|].
  rewrite Hb. cbn [mbind option_bind]. destruct (_ <=? _); eexists; reflexivity.
Qed.
Lemma Uint64_of x : word x -> IsUint64 x = true -> u64 x = x /\ 0 <= x < 2 ^ 64.
Proof. unfold word, IsUint64. intros Hx Hl%Z.ltb_lt. split; [apply u64_small|]; lia. Qed.

Lemma exec_CallDataLoad f : frame_ok f -> 1 <= sLen f -> vwp opCallDataLoad f (exec_post f).
Proof.
  intros Hf Hlen. destruct (stack_cons f Hf Hlen) as (x & st & Hst & Hx & Hw & _). unfold opCallDataLoad. vstep. vstep. vstep. vstep.
  unfold Uint64WithOverflow. destruct (IsUint64 x) eqn:Hu; cbn [negb]; [|by apply exec_poked].
  destruct (getData_ok (c_Input (f_contract f)) (u64 x) 32) as [b Hb]; [apply Hf|apply u64_range|lia|]. vstep.
  eapply vwp_option; [exact Hb|]. by apply exec_poked.
Qed.

Section env.
Context (env : Env).
Lemma exec_Blockhash f : frame_ok f -> 1 <= sLen f -> vwp (opBlockhash env) f (exec_post f).
Proof.
  intros Hf Hlen. destruct (stack_cons f Hf Hlen) as (x & st & Hst & Hx & Hw & _). unfold opBlockhash, Uint64WithOverflow. vstep. vstep.
  destruct (negb (IsUint64 x)); [by apply exec_poked|]. cbv zeta. case_match; by apply exec_poked.
Qed.
Lemma exec_Random f : anzeon_env adapter env -> frame_ok f -> vwp (opRandom env) f (exec_post f).
Proof. intros [] Hf. destruct env_random0 as [h Hh]. unfold opRandom. rewrite Hh. by apply exec_pushed. Qed.
Lemma exec_BaseFee f : anzeon_env adapter env -> frame_ok f -> vwp (opBaseFee env) f (exec_post f).
Proof. intros [] Hf. destruct env_baseFee0 as [h Hh]. unfold opBaseFee. rewrite Hh. by apply exec_pushed. Qed.
Lemma exec_ChainID f : anzeon_env adapter env -> frame_ok f -> vwp (opChainID env) f (exec_post f).
Proof. intros [] Hf. destruct env_chainID0 as [h Hh]. unfold opChainID. rewrite Hh. by apply exec_pushed. Qed.
End env.

Lemma exec_Push1 f : frame_ok f -> inside f -> vwp opPush1 f (exec_post f).
Proof.
  intros Hf Hin. unfold opPush1. vstep. vstep. vstep. vstep. set (f1 := set_f_pc (u64 (f_pc f + 1)) f).
  assert (frame_ok f1) as Hf1 by (apply frame_pc_ok; [done|apply u64_range]).
  assert (forall x, vwp (push x;; proceed) f1 (exec_post f)) as Hx by (intros x; apply (exec_pushed x f1 Hf1)).
  destruct (Z.ltb_spec (f_pc f1) (Z.of_nat (length (c_Code (f_contract f1))))); [|apply Hx].
  pose proof (fr_pc _ Hf1). destruct (lookup_lt_is_Some_2 (c_Code (f_contract f1)) (Z.to_nat (f_pc f1))) as [b Hb]; [lia|].
  vstep. eapply vwp_option; [exact Hb|]. apply Hx.
Qed.
Lemma exec_Push size n f : frame_ok f -> inside f -> vwp (makePush size n) f (exec_post f).
Proof.
  intros Hf Hin. unfold makePush. vstep. vstep. pose proof (fr_pc _ Hf). pose proof (fr_code _ Hf) as Hc. unfold inside in Hin.
  rewrite u64_small, i64_small by lia. set (l := Z.of_nat _) in *. set (lo := if f_pc f + 1 <? l then _ else _).
  set (hi := if lo + Z.of_nat n <? l then _ else _).
  assert (0 <= lo <= l) as Hlo by (unfold lo; destruct (Z.ltb_spec (f_pc f + 1) l); lia).
  assert (lo <= hi <= l) as Hhi by (unfold hi; destruct (Z.ltb_spec (lo + Z.of_nat n) l); lia).
  destruct (slice_ok (c_Code (f_contract f)) lo hi) as (b & Hb & _); [lia|lia|]. vstep. eapply vwp_option; [exact Hb|]. unfold proceed. vsteps.
  apply exec_ok; [|by apply (fevolves_refl f)]. apply frame_pc_ok; [|apply u64_range]. apply frame_stack_ok; [done|]. pose proof (fr_stack _ Hf). words.
Qed.

(** ** Jumps *)

Lemma evolves_same g e e' : 0 <= g -> evm_ok e -> evm_StateDB e' = evm_StateDB e -> evm_depth e' = evm_depth e ->
  evm_readOnly e' = evm_readOnly e -> jumpdests_ok e' -> evolves g e g e'.
Proof.
  intros Hg [Hs Hj] Hst Hd Hr Hj'. split; [|by split; [rewrite Hst|]|lia|rewrite Hst; lia|rewrite Hst; apply rel_refl]. split; [|done..]. rewrite Hst. apply grows_refl, Hs.
Qed.

(** A frame that differs in what jumps remember. *)
Record remembers (f f' : Frame) : Prop := {
  rem_ok : frame_ok f';
  rem_evolves : fevolves f f';
  rem_stack : f_stack f' = f_stack f;
}.
Lemma remembers_refl f : frame_ok f -> remembers f f.
Proof. intros Hf. split; [done|by apply fevolves_refl|done]. Qed.

Lemma analysis_ok f bits : frame_ok f -> codeBitmap (c_Code (f_contract f)) = Some bits ->
  remembers f (set_f_contract (set_c_analysis (Some bits) (f_contract f)) f).
Proof.
  intros Hf Hb. split; [|by apply (fevolves_refl f)|done]. destruct Hf. split; try done. intros b [= <-]. done.
Qed.
Lemma shared_ok f bits : frame_ok f -> c_CodeHash (f_contract f) <> 0 -> codeBitmap (c_Code (f_contract f)) = Some bits ->
  let e' := set_evm_jumpdests (<[c_CodeHash (f_contract f) := bits]> (evm_jumpdests (f_evm f))) (f_evm f) in
  remembers f (set_f_evm e' f).
Proof.
  intros Hf Hh Hb e'. assert (jumpdests_ok e') as Hj.
  { intros h b. cbn. destruct (decide (c_CodeHash (f_contract f) = h)) as [<-|Hne].
    - rewrite lookup_insert_eq. intros [= <-]. exists (c_Code (f_contract f)). split; [|done]. by destruct (fr_hash _ Hf).
    - rewrite lookup_insert_ne by done. apply (fr_evm _ Hf). }
  assert (evolves (f_gas f) (f_evm f) (f_gas f) e') as He by (apply evolves_same; try done; [by apply frame_gas|apply Hf]).
  split; [|done|done]. pose proof (frame_evm_ok f _ _ Hf He) as Hx. by destruct f as [? ? ? [] ?].
Qed.

Lemma remembers_trans f g h : remembers f g -> remembers g h -> remembers f h.
Proof. intros [] []. split; [done|by eapply evolves_trans|congruence]. Qed.

Lemma segment_ok f udest f0 : remembers f0 f -> forall bits, codeBitmap (c_Code (f_contract f)) = Some bits ->
  0 <= udest < Z.of_nat (length (c_Code (f_contract f))) -> vwp (codeSegmentOp bits udest) f (fun _ f' => remembers f0 f').
Proof.
  intros Hr bits Hb Hu. destruct (codeBitmap_total (c_Code (f_contract f))) as (bits' & Hb' & Hseg). rewrite Hb in Hb'. injection Hb' as <-.
  destruct (Hseg udest Hu) as [b Hs]. by eapply vwp_option.
Qed.

Lemma exec_isCode `{!CollisionFree} f udest : frame_ok f -> 0 <= udest < Z.of_nat (length (c_Code (f_contract f))) ->
  vwp (isCode udest) f (fun _ f' => remembers f f').
Proof.
  intros Hf Hu. unfold isCode. vstep. vstep. destruct (c_analysis (f_contract f)) as [bits|] eqn:Ha.
  { apply segment_ok; [by apply remembers_refl|by apply (fr_analysis _ Hf)|done]. }
  destruct (codeBitmap_total (c_Code (f_contract f))) as (bits & Hb & _). destruct (Z.eqb_spec (c_CodeHash (f_contract f)) 0) as [_|Hh]; cbn [negb].
  - rewrite Hb. vsteps. unfold voption. vsteps. apply segment_ok; [by apply analysis_ok|done|done].
  - vstep. destruct (evm_jumpdests (f_evm f) !! c_CodeHash (f_contract f)) as [b|] eqn:Hj.
    + apply (evm_jumpdests_ok _ (fr_evm _ Hf)) in Hj as (code & Hk & Hcb). destruct (fr_hash _ Hf) as [|Hhash]; [done|].
      rewrite Hhash in Hk. apply keccak_code in Hk as ->. vsteps. apply segment_ok; [by apply analysis_ok|done|done].
    + rewrite Hb. unfold voption. vsteps. pose proof (shared_ok f bits Hf Hh Hb) as Hs. cbv zeta in Hs.
      apply segment_ok; [|done|done]. eapply remembers_trans; [exact Hs|]. by apply analysis_ok; [apply Hs|].
Qed.

Lemma exec_jumpTo `{!CollisionFree} f pos : frame_ok f -> word pos -> vwp (jumpTo pos) f (exec_post f).
Proof.
  intros Hf Hp. unfold jumpTo. vstep.
  assert (vwp (validJumpdest pos) f (fun _ f' => remembers f f')) as Hv.
  { unfold validJumpdest, Uint64WithOverflow. vstep. vstep. pose proof (u64_range pos).
    destruct (_ || _) eqn:Ho; [vstep; by apply remembers_refl|]. destruct (lookup_lt_is_Some_2 (c_Code (f_contract f)) (Z.to_nat (u64 pos))) as [op Hop]; [lia|].
    vstep. eapply vwp_option; [exact Hop|]. destruct (negb (op =? JUMPDEST)); [vstep; by apply remembers_refl|]. apply exec_isCode; [done|lia]. }
  eapply vwp_mono; [exact Hv|]. intros valid f' [Hf' He Hst]. destruct valid; cbn [negb].
  - unfold proceed. vsteps. apply exec_ok; [|exact He]. apply frame_pc_ok; [done|apply u64_range].
  - by apply exec_err.
Qed.

Section jumps.
Context `{!CollisionFree} (env : Env).
Lemma exec_aborted f : frame_ok f -> vwp (aborted env) f (fun _ f' => remembers f f').
Proof.
  intros Hf. unfold vwp, aborted. set (e' := set_evm_looks _ _).
  assert (evolves (f_gas f) (f_evm f) (f_gas f) e') as He by (apply evolves_same; try done; [by apply frame_gas|apply Hf|apply (fr_evm _ Hf)]).
  split; [|done|done]. pose proof (frame_evm_ok f _ _ Hf He) as Hx. by destruct f as [? ? ? [] ?].
Qed.
Lemma exec_under f f' r f'' : fevolves f f' -> exec_post f' r f'' -> exec_post f r f''.
Proof.
  intros He. unfold exec_post. destruct r.2 as [e|].
  - case_bool_decide; [by eapply evolves_trans|]. intros [Hm Hg]. pose proof (evolves_gas _ _ _ _ He). split; [eapply moves_trans; [apply He|done]|lia].
  - intros [Hf He']. split; [done|by eapply evolves_trans].
Qed.
Lemma exec_Jump f : frame_ok f -> 1 <= sLen f -> vwp (opJump env) f (exec_post f).
Proof.
  intros Hf Hlen. destruct (stack_cons f Hf Hlen) as (x & st & Hst & Hx & Hw & _). unfold opJump. vstep.
  eapply vwp_mono; [by apply exec_aborted|]. intros [] f' [Hf' He Hst']; [by apply exec_err|]. rewrite Hst in Hst'. vstep. vstep.
  eapply vwp_mono; [apply exec_jumpTo; [by apply frame_stack_ok|done]|]. intros r f''. by apply (exec_under f (set_f_stack st f')).
Qed.
Lemma exec_Jumpi f : frame_ok f -> 2 <= sLen f -> vwp (opJumpi env) f (exec_post f).
Proof.
  intros Hf Hlen. pose proof (fr_stack _ Hf) as Hw. unfold sLen in Hlen. destruct (f_stack f) as [|x [|y st]] eqn:Hst; cbn in Hlen; [lia..|].
  apply Forall_cons in Hw as [Hx Hw]. apply Forall_cons in Hw as [Hy Hw]. unfold opJumpi. vstep.
  eapply vwp_mono; [by apply exec_aborted|]. intros [] f' [Hf' He Hst']; [by apply exec_err|]. rewrite Hst in Hst'. vstep. vstep. vstep. vstep.
  assert (frame_ok (set_f_stack st f')) as Hf2 by (by apply frame_stack_ok). destruct (negb (y =? 0)).
  - eapply vwp_mono; [apply (exec_jumpTo (set_f_stack st f')); done|]. intros r f''. by apply (exec_under f (set_f_stack st f')).
  - by apply exec_ok.
Qed.
End jumps.

(** ** State *)

Lemma exec_state f st s ret : frame_ok f -> Forall word st -> lawful (f_state f) s ->
  frame_ok (set_f_state s (set_f_stack st f)) /\ exec_post f (ret, None) (set_f_state s (set_f_stack st f)).
Proof.
  intros Hf Hst Hs. pose proof (evolves_state (f_gas f) (f_evm f) s ltac:(by apply frame_gas) (fr_evm _ Hf) Hs) as He.
  assert (frame_ok (set_f_state s (set_f_stack st f))) as Hok.
  { pose proof (frame_evm_ok (set_f_stack st f) _ _ (frame_stack_ok f st Hf Hst) He) as Hx. by destruct f as [? ? ? [] ?]. }
  split; [done|by apply exec_ok].
Qed.
Lemma exec_Tstore f : frame_ok f -> 2 <= sLen f -> vwp opTstore f (exec_post f).
Proof.
  intros Hf Hlen. pose proof (fr_stack _ Hf) as Hw. unfold sLen in Hlen. destruct (f_stack f) as [|x [|y st]] eqn:Hst; cbn in Hlen; [lia..|].
  rewrite !Forall_cons in Hw. destruct Hw as (Hx & Hy & Hw). unfold opTstore, readOnly. vsteps. destruct (evm_readOnly (f_evm f)); [by apply exec_err, fevolves_refl|].
  unfold proceed. vsteps. unfold vwp, modifies. apply (exec_state f); [done|done|].
  eapply (exec_lawful (OpSetTransientState (f_self f) x y)); [done|done|apply (fr_evm _ Hf)|done].
Qed.
Lemma exec_Tload f : frame_ok f -> 1 <= sLen f -> vwp opTload f (exec_post f).
Proof.
  intros Hf Hlen. destruct (stack_cons f Hf Hlen) as (x & st & Hst & Hx & Hw & _). unfold opTload. vstep. vstep. vstep. vstep. by apply exec_poked.
Qed.
Lemma exec_Sload f : frame_ok f -> 1 <= sLen f -> vwp opSload f (exec_post f).
Proof.
  intros Hf Hlen. destruct (stack_cons f Hf Hlen) as (x & st & Hst & Hx & Hw & _). unfold opSload. vstep. vstep. vstep. unfold vwp at 1, state_at. by apply exec_poked.
Qed.

(** ** The ends *)

Lemma stop_ok m n : operation_ok m n true (mkOperation (fun _ => opStop) 0 None (minStack 0 0) (maxStack 0 0) None).
Proof. apply simple_ok; [lia|]. intros f Hf _ _. split; [by apply fevolves_refl|done]. Qed.
Lemma undefined_ok m n : operation_ok m n false undefinedOperation.
Proof.
  apply simple_ok; [lia|]. intros f Hf Hin _. unfold opUndefined. vstep. vstep. vstep. pose proof (fr_pc _ Hf).
  destruct (lookup_lt_is_Some_2 (c_Code (f_contract f)) (Z.to_nat (f_pc f))) as [op Hop]; [specialize (Hin eq_refl); unfold inside in Hin; lia|].
  eapply vwp_option; [exact Hop|]. split; [by apply exec_err, fevolves_refl|done].
Qed.
End simple.
