(* ===== verification/VmMemory.v ===== *)
(** The operations that work on memory: the memory that an operation asks for is
    there when it runs, and gas that depends on the operands is charged without
    touching anything but the memory, the access list and the counters. *)
From S2P Require Import Prelude Validators AccountExtra Messages Config Rlp ChainConfig Forks StateJournal JournalProps JournalRuns JournalFrames VmAnalysis VmState VmGas VmOps NativeManager Evm VmTable VmSpec VmSimple.

(** * Sizes *)

(** A region that an operation names is within the memory, unless it is empty. *)
Definition in_mem (m : Memory) (off len : Z) : Prop := 0 <= len /\ (len = 0 \/ 0 <= off /\ off + len <= mem_Len m).

Lemma calcMemSize64WithUint_ok off l v : 0 <= off -> 0 <= l < 2 ^ 64 -> calcMemSize64WithUint off l = (v, false) ->
  0 <= v < 2 ^ 64 /\ forall m, v <= mem_Len m -> in_mem m off l.
Proof.
  intros Ho Hl. unfold calcMemSize64WithUint, Uint64WithOverflow, IsUint64. destruct (Z.eqb_spec l 0) as [->|Hne].
  { intros [= <-]. split; [lia|]. intros m _. split; [lia|by left]. }
  destruct (Z.ltb_spec off (2 ^ 64)); cbn [negb]; [|done]. rewrite (u64_small off) by lia. intros [= <- Hov%Z.ltb_ge].
  assert (u64 (off + l) = off + l) as Hu.
  { destruct (Z.ltb_spec (off + l) (2 ^ 64)); [apply u64_small; lia|]. unfold u64 in Hov.
    rewrite (Z.mod_eq (off + l) (2 ^ 64)) in Hov by lia. replace ((off + l) / 2 ^ 64) with 1 in Hov; [lia|]. apply (Z.div_unique _ _ _ (off + l - 2 ^ 64)); lia. }
  split; [apply u64_range|]. rewrite Hu. intros m Hm. split; [lia|]. right. lia.
Qed.
Lemma calcMemSize64_ok off l v : word off -> word l -> calcMemSize64 off l = (v, false) ->
  0 <= v < 2 ^ 64 /\ l < 2 ^ 64 /\ forall m, v <= mem_Len m -> in_mem m off l.
Proof.
  unfold word, calcMemSize64, IsUint64. intros Ho Hl. destruct (Z.ltb_spec l (2 ^ 64)); cbn [negb]; [|done]. rewrite u64_small by lia.
  intros Hc. apply calcMemSize64WithUint_ok in Hc; [|lia|lia]. naive_solver.
Qed.

Lemma toWordSize_bounds v : 0 <= v < 2 ^ 64 -> v <= toWordSize v * 32 /\ 0 <= toWordSize v /\ toWordSize v < 2 ^ 60.
Proof.
  intros Hv. unfold toWordSize, MaxUint64. destruct (Z.ltb_spec (2 ^ 64 - 1 - 31) v).
  - replace ((2 ^ 64 - 1) / 32) with (2 ^ 59 - 1) by reflexivity. lia.
  - pose proof (Z.div_mod (v + 31) 32). pose proof (Z.mod_pos_bound (v + 31) 32). pose proof (Z.div_le_mono (v + 31) (2 ^ 64) 32). replace (2 ^ 64 / 32) with (2 ^ 59) in * by reflexivity. lia.
Qed.

(** * Memory *)

Lemma overwrite_length store off value : (off + length value <= length store)%nat -> length (overwrite store off value) = length store.
Proof. intros Hl. unfold overwrite. rewrite !length_app, length_take, length_drop. lia. Qed.

Lemma mem_Set_ok m off len value : in_mem m off len -> mem_Len m <= 2 ^ 40 -> word off ->
  exists m', mem_Set (u64 off) (u64 len) value m = Some m' /\ mem_Len m' = mem_Len m.
Proof.
  intros [Hl Hin] Hm Ho. unfold mem_Set. destruct Hin as [->|[Ho' Hin]]; [by exists m|].
  rewrite !(u64_small off), !(u64_small len), !u64_small by lia. destruct (Z.ltb_spec 0 len); [|by exists m].
  destruct (Z.ltb_spec (mem_Len m) (off + len)); [lia|]. destruct (slice_ok (mem_store m) off (off + len)) as (dst & Hd & Hdl); [lia|done|].
  rewrite Hd. cbn [mbind option_bind]. eexists. split; [done|]. unfold mem_Len in *. cbn. rewrite overwrite_length; [done|]. rewrite length_take. lia.
Qed.
Lemma mem_Set32_ok m off val : in_mem m off 32 -> mem_Len m <= 2 ^ 40 -> exists m', mem_Set32 (u64 off) val m = Some m' /\ mem_Len m' = mem_Len m.
Proof.
  intros [Hl [|[Ho Hin]]] Hm; [lia|]. unfold mem_Set32. rewrite (u64_small off), (u64_small (off + 32)) by lia. destruct (Z.ltb_spec (mem_Len m) (off + 32)); [lia|].
  destruct (slice_ok (mem_store m) off (mem_Len m)) as (dst & Hd & Hdl); [lia|done|]. rewrite Hd. cbn [mbind option_bind]. eexists. split; [done|].
  unfold mem_Len in *. cbn. rewrite overwrite_length; [done|]. rewrite length_take. lia.
Qed.
Lemma mem_Copy_ok m dst src len : in_mem m dst len -> in_mem m src len -> mem_Len m <= 2 ^ 40 ->
  exists m', mem_Copy (u64 dst) (u64 src) (u64 len) m = Some m' /\ mem_Len m' = mem_Len m.
Proof.
  intros [Hl Hd] [_ Hs] Hm. unfold mem_Copy. destruct Hd as [->|[Hd0 Hd]]; [by exists m|]. destruct Hs as [->|[Hs0 Hs]]; [by exists m|].
  rewrite (u64_small dst), (u64_small src), (u64_small len), (u64_small (src + len)) by lia. destruct (Z.eqb_spec len 0); [by exists m|].
  destruct (slice_ok (mem_store m) dst (mem_Len m)) as (to & Ht & Htl); [lia|done|].
  destruct (slice_ok (mem_store m) src (src + len)) as (data & Hdt & Hdl); [lia|done|]. rewrite Ht. cbn [mbind option_bind]. rewrite Hdt. cbn [mbind option_bind].
  eexists. split; [done|]. unfold mem_Len in *. cbn. rewrite overwrite_length; [done|]. rewrite length_take. lia.
Qed.

(** Reading takes signed numbers; they are in range. *)
Lemma mem_GetPtr_ok m off len : in_mem m off len -> mem_Len m <= 2 ^ 40 ->
  exists b, mem_GetPtr (i64 (u64 off)) (i64 (u64 len)) m = Some b /\ Z.of_nat (length b) <= mem_Len m.
Proof.
  intros [Hl Hin] Hm. unfold mem_GetPtr. destruct Hin as [->|[Ho Hin]].
  { exists []. split; [done|]. unfold mem_Len. cbn. lia. }
  rewrite (u64_small off), (u64_small len), (i64_small off), (i64_small len), (i64_small (off + len)) by lia.
  destruct (Z.eqb_spec len 0); [exists []; split; [done|unfold mem_Len; cbn; lia]|]. destruct (Z.ltb_spec off (mem_Len m)); [|exists []; split; [done|unfold mem_Len; cbn; lia]].
  destruct (slice_ok (mem_store m) off (off + len)) as (b & Hb & Hbl); [lia|done|]. exists b. split; [done|lia].
Qed.
Lemma mem_GetCopy_ok m off len : in_mem m off len -> mem_Len m <= 2 ^ 40 ->
  exists b, mem_GetCopy (i64 (u64 off)) (i64 (u64 len)) m = Some b /\ Z.of_nat (length b) <= mem_Len m.
Proof.
  intros Hin Hm. destruct (mem_GetPtr_ok m off len Hin Hm) as (b & Hb & Hl). exists b. split; [|done]. rewrite <- Hb. unfold mem_GetCopy, mem_GetPtr.
  destruct Hin as [Hl0 [->|[Ho Hin]]]; [done|]. rewrite (u64_small len), (i64_small len) by lia. destruct (Z.ltb_spec len 0); [lia|done].
Qed.

Lemma mem_Resize_ok n m : 0 <= n -> mem_Len (mem_Resize n m) = Z.max n (mem_Len m).
Proof.
  intros Hn. unfold mem_Resize. destruct (Z.ltb_spec (mem_Len m) n); [|lia]. unfold mem_Len in *. cbn. rewrite length_app, length_replicate. lia.
Qed.

(** * Gas that depends on the operands *)

Section gas.
Context `{Crypto} {adapter : Address} `{!Ledger adapter}.

(** What a gas function leaves alone. *)
Record light (f f' : Frame) : Prop := {
  light_ok : frame_ok f';
  light_evolves : fevolves f f';
  light_stack : f_stack f' = f_stack f;
  light_store : mem_store (f_mem f') = mem_store (f_mem f);
  light_contract : f_contract f' = f_contract f;
  light_pc : f_pc f' = f_pc f;
  light_returnData : evm_returnData (f_evm f') = evm_returnData (f_evm f);
}.
Lemma light_refl f : frame_ok f -> light f f.
Proof. intros Hf. split; try done. by apply fevolves_refl. Qed.
Lemma light_trans f g h : light f g -> light g h -> light f h.
Proof. intros [] []. split; try congruence. by eapply evolves_trans. Qed.

(** Where the memory may grow to. *)
Definition maxMem : Z := 0x1FFFFFFFE0.

(** A gas function that ends with a cost of at least [c] for memory of size [n], or
    with an error. *)
Definition gas_post (c n : Z) (f : Frame) (r : Z * option VMError) (f' : Frame) : Prop :=
  match r.2 with
  | Some _ => moves (f_evm f) (f_evm f') /\ 0 <= f_gas f' <= f_gas f
  | None => light f f' /\ c <= r.1 /\ n <= maxMem
  end.

Lemma gas_err c n f f' e : light f f' -> gas_post c n f (0, Some e) f'.
Proof. intros [? He ? ? ? ? ?]. split; [apply He|by apply (evolves_gas _ _ _ _ He)]. Qed.

Lemma safeAdd_gas x y k f0 c n f : light f0 f -> 0 <= x -> 0 <= y -> (forall z, z = x + y -> vwp (k z) f (gas_post c n f0)) ->
  vwp (safeAdd x y k) f (gas_post c n f0).
Proof.
  intros Hl Hx Hy Hk. unfold safeAdd, SafeAdd. destruct (Z.leb_spec (2 ^ 64) (x + y)); [by apply gas_err|]. rewrite u64_small by lia. by apply Hk.
Qed.
Lemma safeMul_gas x y k f0 c n f : light f0 f -> 0 <= x -> 0 <= y -> (forall z, 0 <= z -> vwp (k z) f (gas_post c n f0)) ->
  vwp (safeMul x y k) f (gas_post c n f0).
Proof.
  intros Hl Hx Hy Hk. unfold safeMul, SafeMul. destruct (Z.leb_spec (2 ^ 64) (x * y)); [by apply gas_err|]. apply Hk, u64_range.
Qed.
Lemma backUint64_gas i k f0 c n f : light f0 f -> Z.of_nat i < sLen f -> (forall x, 0 <= x < 2 ^ 64 -> vwp (k x) f (gas_post c n f0)) ->
  vwp (backUint64 i k) f (gas_post c n f0).
Proof.
  intros Hl Hi Hk. unfold backUint64. destruct (lookup_lt_is_Some_2 (f_stack f) i) as [x Hx]; [unfold sLen in Hi; lia|]. vstep. eapply vwp_Back; [done|].
  unfold Uint64WithOverflow. destruct (negb (IsUint64 x)); [by apply gas_err|]. apply Hk, u64_range.
Qed.

Lemma light_mem f m : frame_ok f -> mem_store m = mem_store (f_mem f) -> light f (set_f_mem m f).
Proof.
  intros Hf Hm. split; try done; [|by apply (fevolves_refl f)]. apply frame_mem_ok; [done|]. pose proof (fr_mem _ Hf). unfold mem_Len in *. by rewrite Hm.
Qed.
Lemma memoryGasCost_gas n k f0 c f : light f0 f -> (forall f' x, light f0 f' -> 0 <= x -> n <= maxMem -> vwp (k x) f' (gas_post c n f0)) ->
  vwp (gasThen (memoryGasCost n) k) f (gas_post c n f0).
Proof.
  intros Hl Hk. unfold gasThen. vstep. unfold vwp at 1, memoryGasCost. unfold maxMem in *. destruct (Z.eqb_spec n 0) as [->|].
  { apply Hk; [done|lia|lia]. }
  destruct (Z.ltb_spec 0x1FFFFFFFE0 n); [by apply gas_err|]. cbv zeta. destruct (_ <? _); [|apply Hk; [done|lia|lia]].
  apply Hk; [|apply u64_range|lia]. eapply light_trans; [exact Hl|]. apply light_mem; [apply Hl|done].
Qed.
Lemma memoryGasCost_only n f : frame_ok f -> vwp (memoryGasCost n) f (gas_post 0 n f).
Proof.
  intros Hf. pose proof (memoryGasCost_gas n (fun x => mret (x, None)) f 0 f (light_refl f Hf)) as Hg.
  unfold vwp, gasThen in *. unfold mbind, VM_bind in Hg. destruct (memoryGasCost n f) as [[[x [e|]] f']| |] eqn:Hm; cbn in *.
  - specialize (Hg ltac:(done)). destruct Hg as [? ?]. by split.
  - apply Hg. done.
  - apply Hg. done.
  - apply Hg. done.
Qed.

Lemma light_len f f' : light f f' -> sLen f' = sLen f.
Proof. intros []. unfold sLen. by rewrite light_stack0. Qed.

(** ** Gas functions that only look at the operands *)

Lemma toWordSize_nonneg x : 0 <= x < 2 ^ 64 -> 0 <= toWordSize x.
Proof. intros Hx. by apply toWordSize_bounds. Qed.

Lemma gas_copier i n f : frame_ok f -> Z.of_nat i < sLen f -> vwp (memoryCopierGas i n) f (gas_post 0 n f).
Proof.
  intros Hf Hi. unfold memoryCopierGas. apply memoryGasCost_gas; [by apply light_refl|]. intros f' x Hl Hx Hn.
  apply backUint64_gas; [done|by rewrite (light_len f f')|]. intros w Hw. apply safeMul_gas; [done|by apply toWordSize_nonneg|done|]. intros z Hz.
  apply safeAdd_gas; [done..|]. intros y ->. vstep. split_and!; [done|cbn; lia|done].
Qed.
Lemma gas_log t n f : frame_ok f -> 0 <= t -> 1 < sLen f -> vwp (makeGasLog t n) f (gas_post 375 n f).
Proof.
  intros Hf Ht Hi. unfold makeGasLog. apply backUint64_gas; [by apply light_refl|done|]. intros w Hw.
  apply memoryGasCost_gas; [by apply light_refl|]. intros f' x Hl Hx Hn. unfold LogGas, LogTopicGas, LogDataGas.
  apply safeAdd_gas; [done|lia|lia|]. intros a ->. apply safeAdd_gas; [done|lia|lia|]. intros b ->. apply safeMul_gas; [done|lia|lia|]. intros z Hz.
  apply safeAdd_gas; [done|lia|lia|]. intros y ->. vstep. split_and!; [done|cbn; lia|done].
Qed.
Lemma gas_keccak n f : frame_ok f -> 1 < sLen f -> vwp (gasKeccak256 n) f (gas_post 0 n f).
Proof.
  intros Hf Hi. unfold gasKeccak256. apply memoryGasCost_gas; [by apply light_refl|]. intros f' x Hl Hx Hn.
  apply backUint64_gas; [done|by rewrite (light_len f f')|]. intros w Hw. apply safeMul_gas; [done|by apply toWordSize_nonneg|done|]. intros z Hz.
  apply safeAdd_gas; [done..|]. intros y ->. vstep. split_and!; [done|cbn; lia|done].
Qed.
Lemma gas_create k n f : frame_ok f -> 0 <= k -> 2 < sLen f ->
  vwp (gasThen (memoryGasCost n) (fun gas => backUint64 2 (fun size =>
    if MaxInitCodeSize <? size then mret (0, Some ErrGasUintOverflow) else safeAdd gas (k * ((size + 31) / 32)) (fun gas => mret (gas, None))))) f (gas_post 0 n f).
Proof.
  intros Hf Hk Hi. apply memoryGasCost_gas; [by apply light_refl|]. intros f' x Hl Hx Hn.
  apply backUint64_gas; [done|by rewrite (light_len f f')|]. intros w Hw. destruct (MaxInitCodeSize <? w); [vstep; by apply gas_err|].
  assert (0 <= (w + 31) / 32) by (apply Z.div_pos; lia). apply safeAdd_gas; [done|done|nia|]. intros y ->. vstep. split_and!; [done|cbn; nia|done].
Qed.
Lemma gas_exp n f : frame_ok f -> 1 < sLen f -> n <= maxMem -> vwp (gasExpEIP158 n) f (gas_post 10 n f).
Proof.
  intros Hf Hi Hn. unfold gasExpEIP158. destruct (lookup_lt_is_Some_2 (f_stack f) 1) as [x Hx]; [unfold sLen in Hi; lia|]. vstep. eapply vwp_Back; [done|].
  assert (0 <= (BitLen x + 7) / 8 * ExpByteEIP158).
  { apply Z.mul_nonneg_nonneg; [|done]. apply Z.div_pos; [|lia]. unfold BitLen. destruct (x =? 0); [lia|]. pose proof (Z.log2_nonneg x). lia. }
  apply safeAdd_gas; [by apply light_refl|done|done|]. intros y ->. vstep. split_and!; [by apply light_refl|cbn [fst]; unfold ExpGas; lia|done].
Qed.

(** ** The access list *)

Lemma light_state f s : frame_ok f -> lawful (f_state f) s -> light f (set_f_state s f).
Proof.
  intros Hf Hs. destruct (exec_state f (f_stack f) s [] Hf (fr_stack _ Hf) Hs) as [Hok He]. destruct He as [_ He].
  assert (set_f_state s (set_f_stack (f_stack f) f) = set_f_state s f) as Heq by (by destruct f). rewrite Heq in *. by split.
Qed.
Lemma exec_warm a f Q : frame_ok f ->
  (forall b f', light f f' -> AddressInAccessList (f_state f') a = true -> f_mem f' = f_mem f -> Q b f') -> vwp (warm a) f Q.
Proof.
  intros Hf HQ. unfold warm. vstep. unfold vwp at 1, gets. destruct (AddressInAccessList (f_state f) a) eqn:Ha.
  - vsteps. apply HQ; [by apply light_refl|done|done].
  - vsteps. unfold vwp, modifies. apply HQ; [| |done].
    + apply light_state; [done|]. eapply (exec_lawful (OpAddAddress a)); [done|done|apply (fr_evm _ Hf)|done].
    + apply warmed.
Qed.

Lemma gas_accountCheck n f : frame_ok f -> 1 <= sLen f -> n <= maxMem -> vwp (gasEip2929AccountCheck n) f (gas_post 0 n f).
Proof.
  intros Hf Hlen Hn. destruct (stack_cons f Hf Hlen) as (x & st & Hst & Hx & Hw & _). unfold gasEip2929AccountCheck. vstep. vstep. vstep.
  apply exec_warm; [done|]. intros b f' Hl _ _. destruct b; cbn [negb]; vstep; split_and!; try done; cbn; lia.
Qed.
Lemma gas_extCodeCopy n f : frame_ok f -> 3 < sLen f -> vwp (gasExtCodeCopyEIP2929 n) f (gas_post 0 n f).
Proof.
  intros Hf Hlen. unfold gasExtCodeCopyEIP2929, gasThen. vstep. eapply vwp_mono; [by apply gas_copier|].
  intros [gas [err|]] f'; unfold gas_post; cbn [fst snd]; [done|]. intros (Hl & Hg & Hn). pose proof (light_len _ _ Hl) as Hlen'.
  destruct (stack_cons f' ltac:(apply Hl) ltac:(lia)) as (x & st & Hst & Hx & Hw & _).
  vstep. vstep. vstep. apply exec_warm; [apply Hl|]. intros b f'' Hl' _ _. assert (light f f'') as Hlt by (by eapply light_trans).
  destruct b; cbn [negb]; [vstep; by split_and!|]. change (vwp (safeAdd gas (ColdAccountAccessCostEIP2929 - WarmStorageReadCostEIP2929) (fun g => mret (g, None))) f'' (gas_post 0 n f)).
  apply safeAdd_gas; [done|done|done|]. intros y ->. vstep. split_and!; [done|cbn [fst]; unfold ColdAccountAccessCostEIP2929, WarmStorageReadCostEIP2929; lia|done].
Qed.
Lemma gas_sload n f : frame_ok f -> 1 <= sLen f -> n <= maxMem -> vwp (gasSLoadEIP2929 n) f (gas_post 100 n f).
Proof.
  intros Hf Hlen Hn. destruct (stack_cons f Hf Hlen) as (x & st & Hst & Hx & Hw & _). unfold gasSLoadEIP2929. vstep. vstep. vstep. vstep.
  destruct (SlotInAccessList (f_state f) (f_self f) x) as [ap sp]. destruct sp; cbn [negb].
  - vstep. split_and!; [by apply light_refl|done|done].
  - vsteps. unfold vwp, modifies. split_and!; [|done|done]. apply light_state; [done|]. eapply (exec_lawful (OpAddSlot (f_self f) x)); [done|done|apply (fr_evm _ Hf)|done].
Qed.
Lemma gas_selfdestruct n f : frame_ok f -> 1 <= sLen f -> n <= maxMem -> vwp (gasSelfdestructEIP3529 n) f (gas_post 0 n f).
Proof.
  intros Hf Hlen Hn. destruct (stack_cons f Hf Hlen) as (x & st & Hst & Hx & Hw & _). unfold gasSelfdestructEIP3529, makeSelfdestructGasFn. vstep. vstep. vstep.
  apply exec_warm; [done|]. intros b f' Hl _ _. vsteps. split_and!; [done| |done]. cbn [fst]. unfold ColdAccountAccessCostEIP2929, CreateBySelfdestructGas. repeat case_match; lia.
Qed.
End gas.

(** * Charging *)

Section charge.
Context `{Crypto} {adapter : Address} `{!Ledger adapter}.

(** The frame after the charge; [J] is what is known of the cost. *)
Record charged (J : Z -> EVM -> Prop) (n : Z) (f f1 : Frame) : Prop := {
  charged_ok : frame_ok f1;
  charged_evolves : fevolves f f1;
  charged_cost : J (f_gas f - f_gas f1) (f_evm f1);
  charged_stack : f_stack f1 = f_stack f;
  charged_mem : n <= mem_Len (f_mem f1);
  charged_self : f_self f1 = f_self f;
  charged_refund : sdb_refund (f_state f1) <= sdb_refund (f_state f);
}.
Definition cost_post (J : Z -> EVM -> Prop) (n : Z) (f : Frame) (r : Z * option VMError) (f' : Frame) : Prop :=
  match r.2 with
  | Some _ => moves (f_evm f) (f_evm f') /\ 0 <= f_gas f' <= f_gas f
  | None => light f f' /\ J r.1 (f_evm f') /\ 0 <= r.1 /\ n <= maxMem
  end.

(** What memory of the size that is asked for is good for. *)
Definition needs (o : operation) (f : Frame) (V : Z -> Prop) : Prop :=
  vwp (memoryNeeded o) f (fun r f' => f' = f /\ match r with inl n => 0 <= n < 2 ^ 64 /\ V n | inr _ => True end).

Lemma charge_ok o gf J f V : op_dynamicGas o = Some gf -> frame_ok f -> needs o f V ->
  (forall n, 0 <= n -> V n -> vwp (gf n) f (cost_post J n f)) ->
  vwp (chargeDynamic o) f (fun err f1 =>
    match err with
    | Some _ => moves (f_evm f) (f_evm f1) /\ 0 <= f_gas f1 <= f_gas f
    | None => exists n, V n /\ charged J n f f1
    end).
Proof.
  intros Ho Hf Hn Hg. unfold chargeDynamic. rewrite Ho. vstep. eapply vwp_mono; [exact Hn|]. intros [n|err] f' [-> HV].
  2:{ vstep. split; [by apply moves_refl, Hf|]. pose proof (frame_gas f Hf). lia. }
  destruct HV as [Hn0 HV]. vstep. eapply vwp_mono; [apply Hg; [lia|done]|]. intros [cost [err|]] f1; unfold cost_post; cbn [fst snd].
  { intros Hx. vsteps. rewrite bool_decide_eq_true_2 by done. vsteps. exact Hx. }
  intros (Hl & HJ & Hcost & Hmax). vstep. rewrite bool_decide_eq_false_2 by auto. pose proof (frame_gas f1 (light_ok _ _ Hl)) as Hg1.
  assert (f_gas f1 = f_gas f) as Hge by (unfold f_gas; by rewrite (light_contract _ _ Hl)).
  unfold vwp at 1, useGas, UseGas. fold (f_gas f1). destruct (Z.ltb_spec (f_gas f1) cost).
  { vsteps. split; [apply Hl|change (0 <= f_gas f1 <= f_gas f); lia]. }
  cbn [negb]. vstep. set (f2 := set_f_contract _ f1). assert (f2 = set_f_gas (f_gas f1 - cost) f1) as Hf2 by done.
  assert (frame_ok f2) as Hok2 by (rewrite Hf2; apply frame_pay_ok; [apply Hl|lia]).
  assert (fevolves f f2) as Hev2.
  { eapply evolves_trans; [apply Hl|]. rewrite Hf2. apply evolves_pay; [cbn; lia|apply (light_ok _ _ Hl)]. }
  assert (forall m, mem_Len m <= 2 ^ 40 -> n <= mem_Len m -> charged J n f (set_f_mem m f2)) as Hend.
  { intros m Hm Hnm. pose proof (evolves_refund _ _ _ _ (light_evolves _ _ Hl)) as Hr. split; try done.
    - by apply frame_mem_ok.
    - change (J (f_gas f - (f_gas f1 - cost)) (f_evm f1)). replace (f_gas f - (f_gas f1 - cost)) with cost by lia. exact HJ.
    - change (f_stack f1 = f_stack f). apply Hl.
    - change (c_self (f_contract f1) = c_self (f_contract f)). by rewrite (light_contract _ _ Hl).
    - change (sdb_refund (f_state f1) <= sdb_refund (f_state f)). unfold f_state. lia. }
  unfold maxMem in Hmax. pose proof (fr_mem _ Hok2). destruct (Z.ltb_spec 0 n).
  - vsteps. exists n. split; [done|]. pose proof (mem_Resize_ok n (f_mem f2) ltac:(lia)) as Hr. apply Hend; lia.
  - vsteps. exists n. split; [done|]. specialize (Hend (f_mem f2)). assert (set_f_mem (f_mem f2) f2 = f2) as Heq by done. rewrite Heq in Hend. apply Hend; [done|].
    unfold mem_Len. lia.
Qed.
Lemma gas_cost c n f r f' : 0 <= c -> gas_post c n f r f' -> cost_post (fun cost _ => c <= cost) n f r f'.
Proof. intros Hc. unfold gas_post, cost_post. destruct r.2; [done|]. intros (Hl & Hr & Hn). split_and!; [done|done|lia|done]. Qed.

Lemma needs_memory o ms f V : op_memorySize o = Some ms ->
  vwp ms f (fun r f' => f' = f /\ (r.2 = false -> 0 <= r.1 < 2 ^ 64 /\ forall n, r.1 <= n -> V n)) -> needs o f V.
Proof.
  intros Ho Hm. unfold needs, memoryNeeded. rewrite Ho. vstep. eapply vwp_mono; [exact Hm|]. intros [v []] f' [-> Hv]; cbn [fst snd] in Hv; [by vstep|].
  destruct (Hv eq_refl) as [Hv0 HV]. pose proof (toWordSize_bounds v Hv0). unfold SafeMul. destruct (Z.leb_spec (2 ^ 64) (toWordSize v * 32)); vstep; [done|].
  rewrite u64_small by lia. split; [done|]. split; [lia|]. apply HV. lia.
Qed.
Lemma needs_nothing o f : op_memorySize o = None -> needs o f (fun n => n = 0).
Proof. intros Ho. unfold needs, memoryNeeded. by rewrite Ho. Qed.

(** ** Regions *)

Definition region (i j : nat) (st : list Z) (m : Memory) : Prop :=
  forall off len, st !! i = Some off -> st !! j = Some len -> len < 2 ^ 64 /\ in_mem m off len.
Definition regionOf (i : nat) (len : Z) (st : list Z) (m : Memory) : Prop := forall off, st !! i = Some off -> in_mem m off len.

Lemma stack_at f i : frame_ok f -> Z.of_nat i < sLen f -> exists x, f_stack f !! i = Some x /\ word x.
Proof.
  intros Hf Hi. destruct (lookup_lt_is_Some_2 (f_stack f) i) as [x Hx]; [unfold sLen in Hi; lia|]. exists x. split; [done|].
  by eapply (Forall_lookup_1 _ _ _ _ (fr_stack _ Hf)).
Qed.

Lemma memSize_ok i j f : frame_ok f -> Z.of_nat i < sLen f -> Z.of_nat j < sLen f ->
  vwp (memSize i j) f (fun r f' => f' = f /\ (r.2 = false -> 0 <= r.1 < 2 ^ 64 /\ forall n, r.1 <= n -> forall m, n <= mem_Len m -> region i j (f_stack f) m)).
Proof.
  intros Hf Hi Hj. destruct (stack_at f i Hf Hi) as (o & Ho & Hwo). destruct (stack_at f j Hf Hj) as (l & Hl & Hwl). unfold memSize. vstep. eapply vwp_Back; [done|].
  vstep. eapply vwp_Back; [done|]. vstep. split; [done|]. destruct (calcMemSize64 o l) as [v ov] eqn:Hc. cbn. intros ->.
  destruct (calcMemSize64_ok o l v Hwo Hwl Hc) as (Hv & Hl64 & Hin). split; [done|]. intros n Hn m Hm o' l' Ho' Hl'.
  rewrite Ho in Ho'. rewrite Hl in Hl'. injection Ho' as <-. injection Hl' as <-. split; [done|]. apply Hin. lia.
Qed.
Lemma memSizeUint_ok i k f : frame_ok f -> Z.of_nat i < sLen f -> 0 <= k < 2 ^ 64 ->
  vwp (memSizeUint i k) f (fun r f' => f' = f /\ (r.2 = false -> 0 <= r.1 < 2 ^ 64 /\ forall n, r.1 <= n -> forall m, n <= mem_Len m -> regionOf i k (f_stack f) m)).
Proof.
  intros Hf Hi Hk. destruct (stack_at f i Hf Hi) as (o & Ho & Hwo). unfold memSizeUint. vstep. eapply vwp_Back; [done|]. vstep. split; [done|].
  destruct (calcMemSize64WithUint o k) as [v ov] eqn:Hc. cbn. intros ->. destruct (calcMemSize64WithUint_ok o k v (proj1 Hwo) Hk Hc) as (Hv & Hin). split; [done|].
  intros n Hn m Hm o' Ho'. rewrite Ho in Ho'. injection Ho' as <-. apply Hin. lia.
Qed.
Lemma memSizeMax_ok i j i' j' f : frame_ok f -> Z.of_nat i < sLen f -> Z.of_nat j < sLen f -> Z.of_nat i' < sLen f -> Z.of_nat j' < sLen f ->
  vwp (memSizeMax i j i' j') f (fun r f' => f' = f /\ (r.2 = false -> 0 <= r.1 < 2 ^ 64 /\
    forall n, r.1 <= n -> forall m, n <= mem_Len m -> region i j (f_stack f) m /\ region i' j' (f_stack f) m)).
Proof.
  intros Hf Hi Hj Hi' Hj'. unfold memSizeMax. vstep. eapply vwp_mono; [by apply memSize_ok|]. intros [x []] f1 [-> Hx]; cbn [fst snd] in Hx; [by vstep|].
  destruct (Hx eq_refl) as [Hx0 Hxr]. vstep. eapply vwp_mono; [by apply memSize_ok|]. intros [y []] f1 [-> Hy]; cbn [fst snd] in Hy; [by vstep|].
  destruct (Hy eq_refl) as [Hy0 Hyr]. destruct (Z.ltb_spec y x); vstep; (split; [done|]; cbn; intros _; split; [lia|]; intros n Hn m Hm; split; [apply (Hxr n); lia|apply (Hyr n); lia]).
Qed.

(** ** Operations with memory *)

(** An operation whose gas function is light: what is left is to run it on memory
    that is large enough. *)
Lemma memory_ok m n execute const gf lo hi ms c (W : list Z -> Memory -> Prop) : 0 <= const -> 0 <= c ->
  (forall f, frame_ok f -> lo <= sLen f -> vwp ms f (fun r f' => f' = f /\ (r.2 = false -> 0 <= r.1 < 2 ^ 64 /\ forall n, r.1 <= n -> forall m, n <= mem_Len m -> W (f_stack f) m))) ->
  (forall f n, frame_ok f -> lo <= sLen f -> vwp (gf n) f (gas_post c n f)) ->
  (forall f, frame_ok f -> lo <= sLen f <= hi -> f_gas f + const + c <= n -> W (f_stack f) (f_mem f) ->
    vwp (execute m) f (fun r f' => exec_post f r f' /\ (r.2 = None -> 0 < const + c))) ->
  operation_ok m n false (mkOperation execute const (Some gf) lo hi (Some ms)).
Proof.
  intros Hc0 Hc Hms Hgf Hx. split; [done|]. intros f Hf Hin Hlen Hn Hg. cbn in Hlen, Hg. destruct Hlen as [Hlo Hhi]. pose proof (frame_gas f Hf). cbn [op_constantGas].
  set (f0 := set_f_gas (f_gas f - const) f). assert (frame_ok f0) as Hf0 by (apply frame_pay_ok; [done|lia]).
  assert (fevolves f f0) as He0 by (apply evolves_pay; [cbn; lia|apply Hf]). assert (f_gas f0 = f_gas f - const) as Hgf0 by done.
  eapply (step_intro m _ f f0 (fun f1 => f_stack f1 = f_stack f /\ f_gas f1 <= f_gas f - const - c /\ W (f_stack f1) (f_mem f1))).
  - eapply vwp_mono; [eapply (charge_ok _ gf (fun cost _ => c <= cost) f0 (fun n => forall m, n <= mem_Len m -> W (f_stack f0) m)); try done|].
    + eapply needs_memory; [done|]. by apply Hms.
    + intros k _ _. eapply vwp_mono; [by apply Hgf|]. intros r f1. by apply gas_cost.
    + intros [err|] f1.
      * intros [Hm Hg1]. split; [by eapply moves_trans; [apply He0|]|lia].
      * intros (k & HV & [Hok Hev Hg1 Hst Hmem _ _]). split_and!; [done|by eapply evolves_trans|done|lia|]. rewrite Hst. by apply HV.
  - intros f1 Hf1 He1 (Hst & Hg1 & HW). eapply vwp_mono; [apply (Hx f1 Hf1); [unfold sLen in *; rewrite Hst; lia|lia|done]|].
    intros r f2 [Hp Hpos]. split; [done|]. intros Hr. specialize (Hpos Hr). lia.
Qed.
(** The same without memory. *)
Lemma light_op_ok m n execute const gf lo hi c : 0 <= const -> 0 <= c ->
  (forall f, frame_ok f -> lo <= sLen f -> vwp (gf 0) f (gas_post c 0 f)) ->
  (forall f, frame_ok f -> lo <= sLen f <= hi -> vwp (execute m) f (fun r f' => exec_post f r f' /\ (r.2 = None -> 0 < const + c))) ->
  operation_ok m n false (mkOperation execute const (Some gf) lo hi None).
Proof.
  intros Hc0 Hc Hgf Hx. split; [done|]. intros f Hf Hin Hlen Hn Hg. cbn in Hlen, Hg. destruct Hlen as [Hlo Hhi]. pose proof (frame_gas f Hf). cbn [op_constantGas].
  set (f0 := set_f_gas (f_gas f - const) f). assert (frame_ok f0) as Hf0 by (apply frame_pay_ok; [done|lia]).
  assert (fevolves f f0) as He0 by (apply evolves_pay; [cbn; lia|apply Hf]). assert (f_gas f0 = f_gas f - const) as Hgf0 by done.
  eapply (step_intro m _ f f0 (fun f1 => f_stack f1 = f_stack f /\ f_gas f1 <= f_gas f - const - c)).
  - eapply vwp_mono; [eapply (charge_ok _ gf (fun cost _ => c <= cost) f0 (fun n => n = 0)); try done|].
    + intros k _ ->. eapply vwp_mono; [by apply Hgf|]. intros r f1. by apply gas_cost.
    + intros [err|] f1.
      * intros [Hm Hg1]. split; [by eapply moves_trans; [apply He0|]|lia].
      * intros (k & _ & [Hok Hev Hg1 Hst Hmem _ _]). split_and!; [done|by eapply evolves_trans|done|lia].
  - intros f1 Hf1 He1 (Hst & Hg1). eapply vwp_mono; [apply (Hx f1 Hf1); unfold sLen in *; rewrite Hst; lia|].
    intros r f2 [Hp Hpos]. split; [done|]. intros Hr. specialize (Hpos Hr). lia.
Qed.
End charge.

(** * Operations on memory *)

Section operations.
Context `{Crypto} {adapter : Address} `{!Ledger adapter} (env : Env).

Lemma mem_get_ok {A} (g : Memory -> option A) a f (Q : A -> Frame -> Prop) : g (f_mem f) = Some a -> Q a f -> vwp (mem_get g) f Q.
Proof. unfold vwp, mem_get. by intros ->. Qed.
Lemma mem_do_ok g m f (Q : unit -> Frame -> Prop) : g (f_mem f) = Some m -> Q tt (set_f_mem m f) -> vwp (mem_do g) f Q.
Proof. unfold vwp, mem_do. by intros ->. Qed.

Lemma exec_mem f f0 m ret : frame_ok f0 -> fevolves f f0 -> mem_Len m = mem_Len (f_mem f0) -> exec_post f (ret, None) (set_f_mem m f0).
Proof. intros Hf He Hm. apply exec_ok; [|exact He]. apply frame_mem_ok; [done|]. rewrite Hm. apply Hf. Qed.

Lemma stack2 f : frame_ok f -> 2 <= sLen f -> exists x y st, f_stack f = x :: y :: st /\ word x /\ word y /\ Forall word st.
Proof.
  intros Hf Hlen. pose proof (fr_stack _ Hf) as Hw. unfold sLen in Hlen. destruct (f_stack f) as [|x [|y st]]; cbn in Hlen; [lia..|].
  rewrite !Forall_cons in Hw. naive_solver.
Qed.
Lemma stack3 f : frame_ok f -> 3 <= sLen f -> exists x y z st, f_stack f = x :: y :: z :: st /\ word x /\ word y /\ word z /\ Forall word st.
Proof.
  intros Hf Hlen. pose proof (fr_stack _ Hf) as Hw. unfold sLen in Hlen. destruct (f_stack f) as [|x [|y [|z st]]]; cbn in Hlen; [lia..|].
  rewrite !Forall_cons in Hw. naive_solver.
Qed.
Lemma stack4 f : frame_ok f -> 4 <= sLen f -> exists x y z w st, f_stack f = x :: y :: z :: w :: st /\ word x /\ word y /\ word z /\ word w /\ Forall word st.
Proof.
  intros Hf Hlen. pose proof (fr_stack _ Hf) as Hw. unfold sLen in Hlen. destruct (f_stack f) as [|x [|y [|z [|w st]]]]; cbn in Hlen; [lia..|].
  rewrite !Forall_cons in Hw. naive_solver.
Qed.

Lemma exec_Keccak256 f : frame_ok f -> 2 <= sLen f -> region 0 1 (f_stack f) (f_mem f) -> vwp (opKeccak256 env) f (exec_post f).
Proof.
  intros Hf Hlen Hr. destruct (stack2 f Hf Hlen) as (off & size & st & Hst & Ho & Hs & Hw). rewrite Hst in Hr. destruct (Hr off size eq_refl eq_refl) as [_ Hin].
  destruct (mem_GetPtr_ok _ off size Hin (fr_mem _ Hf)) as (data & Hd & _). unfold opKeccak256. vstep. vstep. vstep. vstep. vstep.
  eapply mem_get_ok; [exact Hd|]. set (f1 := set_f_stack (size :: st) f). assert (frame_ok f1) as Hf1 by (apply frame_stack_ok; [done|by constructor]).
  assert (1 <= sLen f1) as Hl1 by (unfold sLen; cbn; lia). vstep. destruct (vc_EnablePreimageRecording (env_Config env)).
  - unfold vwp at 1, modifies. destruct (exec_state f1 (f_stack f1) (AddPreimage (be_value (Keccak256 data)) data (f_state f1)) [] Hf1 (fr_stack _ Hf1)) as [Hok [_ He]].
    { eapply (exec_lawful (OpAddPreimage _ _)); [done|done|apply (fr_evm _ Hf1)|done]. }
    eapply vwp_mono; [apply (exec_poked _ (set_f_state _ f1)); [exact Hok|exact Hl1]|]. intros r f2. by apply exec_under.
  - vstep. apply (exec_poked _ f1 Hf1 Hl1).
Qed.

Lemma exec_copyData f f0 memOffset dataOffset len data : frame_ok f0 -> fevolves f f0 -> word memOffset -> word dataOffset ->
  len < 2 ^ 64 -> in_mem (f_mem f0) memOffset len -> Z.of_nat (length data) < 2 ^ 62 ->
  vwp (copyData memOffset dataOffset len data) f0 (exec_post f).
Proof.
  intros Hf He Hm Hd Hl Hin Hdata. unfold copyData, Uint64WithOverflow. set (off := if negb (IsUint64 dataOffset) then MaxUint64 else u64 dataOffset).
  assert (0 <= off < 2 ^ 64) as Hoff by (unfold off, MaxUint64; destruct (negb _); [lia|apply u64_range]).
  pose proof (fr_mem _ Hf) as Hmem. assert (0 <= u64 len < 2 ^ 62) as Hul.
  { destruct Hin as [Hl0 [->|[? ?]]]; [by compute|]. rewrite u64_small; lia. }
  destruct (getData_ok data off (u64 len) Hdata Hoff Hul) as [piece Hp]. vstep. eapply vwp_option; [exact Hp|].
  destruct (mem_Set_ok (f_mem f0) memOffset len piece Hin Hmem Hm) as (m & Hset & Hlen). vstep. eapply mem_do_ok; [exact Hset|]. by apply exec_mem.
Qed.
Lemma exec_CallDataCopy f : frame_ok f -> 3 <= sLen f -> region 0 2 (f_stack f) (f_mem f) -> vwp opCallDataCopy f (exec_post f).
Proof.
  intros Hf Hlen Hr. destruct (stack3 f Hf Hlen) as (mo & d & l & st & Hst & Hmo & Hd & Hl & Hw). rewrite Hst in Hr. destruct (Hr mo l eq_refl eq_refl) as [Hl64 Hin].
  unfold opCallDataCopy. vsteps. apply exec_copyData; try done; [by apply (frame_stack_ok f)|by apply (fevolves_refl f)|apply Hf].
Qed.
Lemma exec_CodeCopy f : frame_ok f -> 3 <= sLen f -> region 0 2 (f_stack f) (f_mem f) -> vwp opCodeCopy f (exec_post f).
Proof.
  intros Hf Hlen Hr. destruct (stack3 f Hf Hlen) as (mo & d & l & st & Hst & Hmo & Hd & Hl & Hw). rewrite Hst in Hr. destruct (Hr mo l eq_refl eq_refl) as [Hl64 Hin].
  unfold opCodeCopy. vsteps. apply exec_copyData; try done; [by apply (frame_stack_ok f)|by apply (fevolves_refl f)|apply Hf].
Qed.
Lemma code_length s a : code_ok s -> Z.of_nat (length (GetCode s a)) < 2 ^ 62.
Proof.
  intros Hc. unfold GetCode, read. destruct (getStateObject s a) as [o|] eqn:Ho; [|cbn; lia]. apply getStateObject_some in Ho as [Ho _]. by apply (Hc a o).
Qed.
Lemma exec_ExtCodeCopy f : frame_ok f -> 4 <= sLen f -> region 1 3 (f_stack f) (f_mem f) -> vwp opExtCodeCopy f (exec_post f).
Proof.
  intros Hf Hlen Hr. destruct (stack4 f Hf Hlen) as (a & mo & d & l & st & Hst & Ha & Hmo & Hd & Hl & Hw). rewrite Hst in Hr. destruct (Hr mo l eq_refl eq_refl) as [Hl64 Hin].
  unfold opExtCodeCopy. vsteps. unfold vwp at 1, gets. apply exec_copyData; try done; [by apply (frame_stack_ok f)|by apply (fevolves_refl f)|]. apply code_length, (fr_evm _ Hf).
Qed.
Lemma exec_ReturnDataCopy f : frame_ok f -> 3 <= sLen f -> region 0 2 (f_stack f) (f_mem f) -> vwp opReturnDataCopy f (exec_post f).
Proof.
  intros Hf Hlen Hr. destruct (stack3 f Hf Hlen) as (mo & d & l & st & Hst & Hmo & Hd & Hl & Hw). rewrite Hst in Hr. destruct (Hr mo l eq_refl eq_refl) as [Hl64 Hin].
  unfold opReturnDataCopy, Uint64WithOverflow. vsteps. change (evm_returnData (f_evm (set_f_stack _ _))) with (evm_returnData (f_evm f)). destruct (IsUint64 d) eqn:Hud; cbn [negb]; [|by apply exec_err, (fevolves_refl f)].
  destruct (Uint64_of d Hd Hud) as [-> Hd64]. assert (u256 (d + l) = d + l) as -> by (unfold u256; apply Z.mod_small; destruct Hl; lia).
  destruct (IsUint64 (d + l)) eqn:Hue; cbn [negb orb]; [|by apply exec_err, (fevolves_refl f)]. destruct Hin as [Hl0 Hin].
  assert (u64 (d + l) = d + l) as -> by (apply u64_small; unfold IsUint64 in Hue; lia).
  destruct (Z.ltb_spec (Z.of_nat (length (evm_returnData (f_evm f)))) (d + l)); [by apply exec_err, (fevolves_refl f)|].
  destruct (slice_ok (evm_returnData (f_evm f)) d (d + l)) as (piece & Hp & _); [lia|lia|]. vstep. eapply vwp_option; [exact Hp|].
  destruct (mem_Set_ok (f_mem f) mo l piece (conj Hl0 Hin) (fr_mem _ Hf) Hmo) as (m & Hset & Hlm). vstep. eapply mem_do_ok; [exact Hset|].
  apply exec_mem; [by apply (frame_stack_ok f)|by apply (fevolves_refl f)|done].
Qed.
Lemma exec_Mload f : frame_ok f -> 1 <= sLen f -> regionOf 0 32 (f_stack f) (f_mem f) -> vwp opMload f (exec_post f).
Proof.
  intros Hf Hlen Hr. destruct (stack_cons f Hf Hlen) as (x & st & Hst & Hx & Hw & _). rewrite Hst in Hr.
  destruct (mem_GetPtr_ok _ x 32 (Hr x eq_refl) (fr_mem _ Hf)) as (data & Hd & _). unfold opMload. vstep. vstep. vstep. eapply mem_get_ok; [exact Hd|]. by apply exec_poked.
Qed.
Lemma exec_Mstore f : frame_ok f -> 2 <= sLen f -> regionOf 0 32 (f_stack f) (f_mem f) -> vwp opMstore f (exec_post f).
Proof.
  intros Hf Hlen Hr. destruct (stack2 f Hf Hlen) as (off & v & st & Hst & Ho & Hv & Hw). rewrite Hst in Hr.
  destruct (mem_Set32_ok _ off v (Hr off eq_refl) (fr_mem _ Hf)) as (m & Hm & Hl). unfold opMstore. vsteps. eapply mem_do_ok; [exact Hm|].
  apply exec_mem; [by apply (frame_stack_ok f)|by apply (fevolves_refl f)|done].
Qed.
Lemma exec_Mstore8 f : frame_ok f -> 2 <= sLen f -> regionOf 0 1 (f_stack f) (f_mem f) -> vwp opMstore8 f (exec_post f).
Proof.
  intros Hf Hlen Hr. destruct (stack2 f Hf Hlen) as (off & v & st & Hst & Ho & Hv & Hw). rewrite Hst in Hr. destruct (Hr off eq_refl) as [_ [?|[Ho0 Hin]]]; [lia|].
  pose proof (fr_mem _ Hf). unfold opMstore8. vsteps. eapply mem_do_ok; [cbv beta; rewrite u64_small by lia; change (f_mem _) with (f_mem f); destruct (Z.ltb_spec off (mem_Len (f_mem f))); [reflexivity|lia]|].
  apply exec_mem; [by apply (frame_stack_ok f)|by apply (fevolves_refl f)|]. unfold mem_Len. cbn. by rewrite length_insert.
Qed.
Lemma exec_Mcopy f : frame_ok f -> 3 <= sLen f -> region 0 2 (f_stack f) (f_mem f) -> region 1 2 (f_stack f) (f_mem f) -> vwp opMcopy f (exec_post f).
Proof.
  intros Hf Hlen Hr Hr'. destruct (stack3 f Hf Hlen) as (d & s & l & st & Hst & Hd & Hs & Hl & Hw). rewrite Hst in Hr, Hr'.
  destruct (Hr d l eq_refl eq_refl) as [_ Hin]. destruct (Hr' s l eq_refl eq_refl) as [_ Hin'].
  destruct (mem_Copy_ok _ d s l Hin Hin' (fr_mem _ Hf)) as (m & Hm & Hlm). unfold opMcopy. vsteps. eapply mem_do_ok; [exact Hm|].
  apply exec_mem; [by apply (frame_stack_ok f)|by apply (fevolves_refl f)|done].
Qed.
Lemma exec_Return f : frame_ok f -> 2 <= sLen f -> region 0 1 (f_stack f) (f_mem f) -> vwp opReturn f (fun r f' => exec_post f r f' /\ r.2 <> None).
Proof.
  intros Hf Hlen Hr. destruct (stack2 f Hf Hlen) as (off & size & st & Hst & Ho & Hs & Hw). rewrite Hst in Hr. destruct (Hr off size eq_refl eq_refl) as [_ Hin].
  destruct (mem_GetPtr_ok _ off size Hin (fr_mem _ Hf)) as (data & Hd & _). unfold opReturn. vsteps. eapply mem_get_ok; [exact Hd|]. vstep. split; [by apply exec_err, (fevolves_refl f)|done].
Qed.
Lemma evolves_returnData g e b : 0 <= g -> evm_ok e -> evolves g e g (set_evm_returnData b e).
Proof. intros Hg He. apply evolves_same; try done. apply He. Qed.
Lemma exec_Revert f : frame_ok f -> 2 <= sLen f -> region 0 1 (f_stack f) (f_mem f) -> vwp opRevert f (fun r f' => exec_post f r f' /\ r.2 <> None).
Proof.
  intros Hf Hlen Hr. destruct (stack2 f Hf Hlen) as (off & size & st & Hst & Ho & Hs & Hw). rewrite Hst in Hr. destruct (Hr off size eq_refl eq_refl) as [_ Hin].
  destruct (mem_GetPtr_ok _ off size Hin (fr_mem _ Hf)) as (data & Hd & _). unfold opRevert. vsteps. eapply mem_get_ok; [exact Hd|]. vsteps. split; [|done].
  apply exec_err. apply (evolves_returnData (f_gas f)); [by apply frame_gas|apply Hf].
Qed.

Lemma popN_ok n f (Q : list Z -> Frame -> Prop) : frame_ok f -> Z.of_nat n <= sLen f ->
  (forall xs st, f_stack f = xs ++ st -> Forall word st -> Q xs (set_f_stack st f)) -> vwp (popN n) f Q.
Proof.
  revert f Q. induction n as [|n IH]; intros f Q Hf Hn HQ; cbn [popN].
  - vstep. specialize (HQ [] (f_stack f) eq_refl (fr_stack _ Hf)). by destruct f.
  - destruct (stack_cons f Hf ltac:(lia)) as (x & st & Hst & Hx & Hw & Hl). vstep. vstep. vstep. apply IH.
    + by apply (frame_stack_ok f).
    + unfold sLen in *. cbn. rewrite Hst in *. cbn in *. lia.
    + intros xs st' Heq Hw'. vstep. cbn in Heq. apply (HQ (x :: xs)); [|done]. rewrite Hst, Heq. done.
Qed.
Lemma exec_Log k f : frame_ok f -> Z.of_nat k + 2 <= sLen f -> region 0 1 (f_stack f) (f_mem f) -> vwp (makeLog env k) f (exec_post f).
Proof.
  intros Hf Hlen Hr. destruct (stack2 f Hf ltac:(lia)) as (off & size & st & Hst & Ho & Hs & Hw). rewrite Hst in Hr. destruct (Hr off size eq_refl eq_refl) as [_ Hin].
  destruct (mem_GetCopy_ok _ off size Hin (fr_mem _ Hf)) as (data & Hd & _). unfold makeLog, readOnly. vsteps. destruct (evm_readOnly (f_evm f)); [by apply exec_err, fevolves_refl|].
  vstep. vstep. vstep. vstep. vstep. apply popN_ok; [by apply (frame_stack_ok f)|unfold sLen in *; cbn; rewrite Hst in Hlen; cbn in Hlen; lia|]. intros topics st' Heq Hw'.
  vstep. eapply mem_get_ok; [exact Hd|]. vstep. vstep. vstep. unfold vwp at 1, modifies. 
  apply (exec_state (set_f_stack st' f) st' _ []); [by apply (frame_stack_ok f)|done|]. eapply (exec_lawful (OpAddLog _)); [done|done|apply (fr_evm _ Hf)|done].
Qed.

Lemma memoryMcopy_ok f : frame_ok f -> 3 <= sLen f ->
  vwp memoryMcopy f (fun r f' => f' = f /\ (r.2 = false -> 0 <= r.1 < 2 ^ 64 /\
    forall n, r.1 <= n -> forall m, n <= mem_Len m -> region 0 2 (f_stack f) m /\ region 1 2 (f_stack f) m)).
Proof.
  intros Hf Hlen. destruct (stack3 f Hf Hlen) as (d & s & l & st & Hst & Hd & Hs & Hl & Hw). unfold memoryMcopy.
  vstep. eapply vwp_Back; [by rewrite Hst|]. vstep. eapply vwp_Back; [by rewrite Hst|]. vstep. eapply vwp_Back; [by rewrite Hst|]. vstep. split; [done|].
  set (o := if d <? s then s else d). assert (word o) as Ho by (unfold o; by destruct (d <? s)). destruct (calcMemSize64 o l) as [v ov] eqn:Hc. cbn. intros ->.
  destruct (calcMemSize64_ok o l v Ho Hl Hc) as (Hv & Hl64 & Hin). split; [done|]. intros n Hn m Hm. rewrite Hst. specialize (Hin m ltac:(lia)).
  assert (d <= o /\ s <= o) as [? ?] by (unfold o; destruct (Z.ltb_spec d s); lia). unfold in_mem, word in *.
  split; intros a b [= <-] [= <-]; split; [done|unfold in_mem; lia|done|unfold in_mem; lia].
Qed.
End operations.
