(* ===== verification/VmStore.v ===== *)
(** SSTORE and SELFDESTRUCT: the counter of refunds never goes below zero, and a
    store keeps it large enough for every refund that may be taken back. *)
From S2P Require Import Prelude Validators AccountExtra Messages Config Rlp ChainConfig Forks StateJournal JournalProps JournalRuns JournalFrames VmAnalysis VmState VmGas VmOps NativeManager Evm VmTable VmSpec VmSimple VmMemory.

(** * States that differ in the counter and the access list *)

Section counting.
Context `{Crypto} {adapter : Address} `{!Ledger adapter}.

Lemma below_objects s s' a : same_below s s' -> getDeletedStateObject s' a = getDeletedStateObject s a /\ getStateObject s' a = getStateObject s a.
Proof.
  intros (Hd & He & Ho). assert (getDeletedStateObject s' a = getDeletedStateObject s a) as Hg by (unfold getDeletedStateObject; by rewrite Ho, Hd).
  split; [done|]. unfold getStateObject. by rewrite Hg.
Qed.
Lemma below_reads s s' a k : same_below s s' ->
  GetCommittedState s' a k = GetCommittedState s a k /\ GetState s' a k = GetState s a k.
Proof.
  intros Hb. destruct (below_objects s s' a Hb) as [_ Hg]. destruct Hb as (Hd & He & _). unfold GetCommittedState, GetState, read. rewrite Hg.
  destruct (getStateObject s a) as [o|]; [|done]. rewrite !obj_GetState_value.
  assert (same_env s' s (so_address o)) as Henv by (apply env_all; by symmetry). by rewrite (committed_env s' s o k Henv), (state_env s' s o k Henv).
Qed.
Lemma below_code s s' : same_below s s' -> code_ok s -> code_ok s'.
Proof.
  intros Hb Hc a o Ho. destruct (below_objects s s' a Hb) as [Hg _]. rewrite Hg in Ho. destruct Hb as (Hd & He & _). unfold code_fine.
  rewrite (code_env s' s o 0) by (apply env_all; by symmetry). by apply (Hc a).
Qed.
Lemma below_trans s t u : same_below s t -> same_below t u -> same_below s u.
Proof. intros (? & ? & ?) (? & ? & ?). split_and!; congruence. Qed.

(** The counter moved by [d], nothing else that matters here did. *)
Definition recount (f : Frame) (d : Z) (f' : Frame) : Prop :=
  exists s, f' = set_f_state s f /\ same_below (f_state f) s /\ grows (f_state f) s /\ sdb_refund s = sdb_refund (f_state f) + d /\
    Rel (f_state f) s.

Lemma recount_trans f d g d' h : recount f d g -> recount g d' h -> recount f (d + d') h.
Proof.
  intros (s & -> & Hb & Hg & Hr & Hl) (s' & -> & Hb' & Hg' & Hr' & Hl'). cbn in *. exists s'. split_and!.
  - by destruct f.
  - by eapply below_trans.
  - by eapply grows_trans.
  - unfold f_state in *. cbn in *. lia.
  - by eapply rel_trans.
Qed.
Lemma recount_refl f : wf (f_state f) -> recount f 0 f.
Proof. intros Hw. exists (f_state f). split_and!; [by destruct f as [? ? ? ? []]|done|by apply grows_refl|lia|apply rel_refl]. Qed.

Lemma addRefund_ok g f : wf (f_state f) -> 0 <= g -> 0 <= sdb_refund (f_state f) -> sdb_refund (f_state f) + g < 2 ^ 64 ->
  vwp (modifies (AddRefund g)) f (fun _ f' => recount f g f').
Proof.
  intros Hw Hg H0 Hb. exists (AddRefund g (f_state f)). split_and!; [done|done|by apply (plain_grows (OpAddRefund g))| |by apply (rel_neutral (OpAddRefund g))].
  cbn. by rewrite u64_small by lia.
Qed.
Lemma subRefund_ok g f : wf (f_state f) -> 0 <= g <= sdb_refund (f_state f) -> vwp (subRefund g) f (fun _ f' => recount f (- g) f').
Proof.
  intros Hw Hg. unfold vwp, subRefund. destruct (SubRefund g (f_state f)) as [s|] eqn:Hs.
  - exists s. pose proof (plain_grows (OpSubRefund g) _ _ eq_refl Hw Hs) as Hgr. pose proof (rel_neutral (OpSubRefund g) _ _ I Hw Hs) as Hrel. unfold SubRefund in Hs. destruct (_ <? g) eqn:Hlt; [done|]. injection Hs as <-.
    split_and!; [done|done|done|cbn; lia|done].
  - unfold SubRefund in Hs. cbn in Hs. destruct (Z.ltb_spec (sdb_refund (f_state f)) g); [lia|done].
Qed.

Lemma recount_state f d f' : recount f d f' -> sdb_refund (f_state f') = sdb_refund (f_state f) + d /\ same_below (f_state f) (f_state f') /\
  grows (f_state f) (f_state f') /\ f_contract f' = f_contract f /\ f_stack f' = f_stack f /\ wf (f_state f') /\ Rel (f_state f) (f_state f').
Proof. intros (s & -> & Hb & Hg & Hr & Hl). split_and!; try done. by eapply above_wf, grows_above. Qed.

(** ** What the schedule does to the counter *)

(** The change of the counter for a slot that had the value [original] before the
    transaction and has the value [current] now. *)
Definition schedule (original current value : Hash) : Z :=
  (if current =? value then 0
   else if original =? current then if original =? 0 then 0 else if value =? 0 then clearRefund else 0
   else (if original =? 0 then 0 else if current =? 0 then - clearRefund else if value =? 0 then clearRefund else 0)
        + (if original =? value then if original =? 0 then 19900 else 2800 else 0)).

Lemma schedule_owes original current value :
  clearRefund * (owes original value - owes original current) <= schedule original current value /\
  schedule original current value <= refundRatio * 100.
Proof.
  unfold schedule, owes, clearRefund, SstoreResetGasEIP2200, ColdSloadCostEIP2929, TxAccessListStorageKeyGas.
  destruct (Z.eqb_spec current value), (Z.eqb_spec original current), (Z.eqb_spec original 0), (Z.eqb_spec value 0), (Z.eqb_spec current 0), (Z.eqb_spec original value);
    subst; cbn; lia.
Qed.
(** What is taken back is owed. *)
Lemma schedule_low original current value : schedule original current value < 0 -> original <> 0 /\ current = 0 /\ - clearRefund <= schedule original current value.
Proof.
  unfold schedule, clearRefund, SstoreResetGasEIP2200, ColdSloadCostEIP2929, TxAccessListStorageKeyGas.
  destruct (Z.eqb_spec current value), (Z.eqb_spec original current), (Z.eqb_spec original 0), (Z.eqb_spec value 0), (Z.eqb_spec current 0), (Z.eqb_spec original value);
    subst; cbn; lia.
Qed.

Lemma dirtyRefunds_ok original current value f : wf (f_state f) -> current <> value -> original <> current ->
  (original <> 0 -> current = 0 -> clearRefund <= sdb_refund (f_state f)) -> 0 <= sdb_refund (f_state f) -> sdb_refund (f_state f) + 200 * 2300 < 2 ^ 64 ->
  vwp (dirtyRefunds original current value clearRefund (SstoreSetGasEIP2200 - WarmStorageReadCostEIP2929)
          ((SstoreResetGasEIP2200 - ColdSloadCostEIP2929) - WarmStorageReadCostEIP2929)) f (fun _ f' => recount f (schedule original current value) f').
Proof.
  intros Hw Hcv Hoc Hlow H0 Hmax.
  assert (clearRefund = 4800) as Hclear by done. set (d1 := if original =? 0 then 0 else if current =? 0 then - clearRefund else if value =? 0 then clearRefund else 0).
  set (d2 := if original =? value then if original =? 0 then 19900 else 2800 else 0).
  assert (schedule original current value = d1 + d2) as ->.
  { unfold schedule. destruct (Z.eqb_spec current value), (Z.eqb_spec original current); done. }
  unfold dirtyRefunds. vstep. eapply vwp_mono with (P := fun _ f' => recount f d1 f').
  { unfold d1. destruct (Z.eqb_spec original 0); cbn [negb]; [vstep; by apply recount_refl|].
    destruct (Z.eqb_spec current 0); [apply subRefund_ok; [done|split; [lia|auto]]|].
    destruct (Z.eqb_spec value 0); [apply addRefund_ok; [done|lia..]|vstep; by apply recount_refl]. }
  intros _ f1 Hr1. destruct (recount_state _ _ _ Hr1) as (Href & _ & _ & _ & _ & Hw1 & _).
  assert (0 <= sdb_refund (f_state f1) <= sdb_refund (f_state f) + 4800) as Hb.
  { rewrite Href. unfold d1. destruct (Z.eqb_spec original 0); [lia|]. destruct (Z.eqb_spec current 0); [specialize (Hlow ltac:(done) ltac:(done)); lia|].
    destruct (Z.eqb_spec value 0); lia. }
  eapply vwp_mono with (P := fun _ f' => recount f1 d2 f').
  { unfold d2, SstoreSetGasEIP2200, WarmStorageReadCostEIP2929, SstoreResetGasEIP2200, ColdSloadCostEIP2929.
    destruct (original =? value); [|vstep; by apply recount_refl]. destruct (original =? 0); apply addRefund_ok; (done || lia). }
  intros _ f2 Hr2. by eapply recount_trans.
Qed.
End counting.

(** * SSTORE *)

Section sstore.
Context `{Crypto} {adapter : Address} `{!Ledger adapter}.

(** What the gas function of SSTORE leaves: the slot is marked, the counter moved. *)
Definition sstore_post (f : Frame) (x y : Z) (r : Z * option VMError) (f' : Frame) : Prop :=
  match r.2 with
  | Some _ => f' = f
  | None => WarmStorageReadCostEIP2929 <= r.1 /\
      recount f (schedule (GetCommittedState (f_state f) (f_self f) x) (GetState (f_state f) (f_self f) x) y) f'
  end.

Lemma coldSlot_ok f x : frame_ok f -> vwp (coldSlot x) f (fun cost f' => 0 <= cost /\ recount f 0 f').
Proof.
  intros Hf. pose proof (evm_wf _ (fr_evm _ Hf)) as Hw. unfold coldSlot. vstep. vstep. destruct (SlotInAccessList (f_state f) (f_self f) x) as [ap sp] eqn:Hs.
  assert (ap = true) as ->.
  { pose proof (fr_warm _ Hf) as Ha. unfold AddressInAccessList, ContainsAddress in Ha. apply bool_decide_eq_true in Ha as [idx Hidx].
    unfold SlotInAccessList, al_Contains in Hs. rewrite Hidx in Hs. by destruct (idx =? -1); injection Hs as <- _. }
  destruct sp; cbn [negb]; [vstep; split; [lia|by apply recount_refl]|]. vstep. unfold vwp at 1, modifies. vstep. split; [done|].
  exists (AddSlotToAccessList (f_self f) x (f_state f)). split_and!; [done| |by apply (plain_grows (OpAddSlot (f_self f) x))| |by apply (rel_neutral (OpAddSlot (f_self f) x))];
    unfold AddSlotToAccessList; destruct (AddSlot _ _ _) as [[[] []] ?]; (done || cbn; lia).
Qed.

Lemma gas_sstore f x y st : frame_ok f -> f_stack f = x :: y :: st -> vwp (gasSStoreEIP3529 0) f (sstore_post f x y).
Proof.
  intros Hf Hst. unfold gasSStoreEIP3529, makeGasSStoreFunc. vstep. vstep. destruct (Z.leb_spec (f_gas f) SstoreSentryGasEIP2200) as [|Hsentry]; [by vstep|].
  pose proof (fr_evm _ Hf) as [[_ _ [H0 Hx]] _]. pose proof (fr_room _ Hf) as [_ Hroom]. unfold SstoreSentryGasEIP2200 in Hsentry. fold (f_state f) in *.
  vstep. eapply vwp_Back; [by rewrite Hst|]. vstep. vstep. vstep. unfold vwp at 1, state_at. vstep.
  eapply vwp_mono; [by apply coldSlot_ok|]. intros cost f1 [Hc Hr1]. destruct (recount_state _ _ _ Hr1) as (Href & Hb & _ & Hcon & _ & Hw1 & _). rewrite Z.add_0_r in Href.
  assert (f_self f1 = f_self f) as Hself by (unfold f_self; by rewrite Hcon).
  destruct (below_reads _ _ (f_self f) x Hb) as [Hcom _]. unfold sstore_post. set (cur := GetState (f_state f) (f_self f) x). set (orig := GetCommittedState (f_state f) (f_self f) x) in *.
  assert (forall d, recount f1 d f1 -> recount f d f1) as Hsame by (intros d Hd; by eapply (recount_trans f 0 f1 d)).
  assert (orig <> 0 -> cur = 0 -> clearRefund <= sdb_refund (f_state f)) as Hlow.
  { intros Ho Hcur. specialize (Hx {[(f_self f, x)]}). rewrite size_singleton in Hx. change (Z.of_nat 1) with 1 in Hx. rewrite Z.mul_1_r in Hx.
    apply Hx. intros p ->%elem_of_singleton. by split. }
  unfold schedule. destruct (Z.eqb_spec cur y) as [|Hcy].
  { vstep. cbn [fst snd]. split; [unfold WarmStorageReadCostEIP2929; lia|]. by apply Hsame, recount_refl. }
  vstep. unfold vwp at 1, committed_at. rewrite Hself, Hcom. destruct (Z.eqb_spec orig cur) as [Hoc|Hoc].
  - destruct (Z.eqb_spec orig 0).
    { vstep. cbn [fst snd]. split; [unfold WarmStorageReadCostEIP2929, SstoreSetGasEIP2200; lia|]. by apply Hsame, recount_refl. }
    vstep. destruct (Z.eqb_spec y 0).
    + eapply vwp_mono; [apply addRefund_ok; [done|done|lia|change clearRefund with 4800; lia]|].
      intros [] f2 Hr2. vstep. cbn [fst snd]. split; [unfold WarmStorageReadCostEIP2929, SstoreResetGasEIP2200, ColdSloadCostEIP2929; lia|]. by eapply (recount_trans f 0 f1).
    + vsteps. cbn [fst snd]. split; [unfold WarmStorageReadCostEIP2929, SstoreResetGasEIP2200, ColdSloadCostEIP2929; lia|]. by apply Hsame, recount_refl.
  - vstep. eapply vwp_mono; [apply dirtyRefunds_ok; [done|done|done|rewrite Href; done|lia|lia]|].
    intros [] f2 Hr2. vstep. cbn [fst snd]. split; [lia|]. eapply (recount_trans f 0 f1) in Hr2; [|done]. unfold schedule in Hr2.
    by destruct (Z.eqb_spec cur y), (Z.eqb_spec orig cur).
Qed.

Lemma sstore_ok m n : operation_ok m n false (mkOperation (fun _ => opSstore) 0 (Some gasSStoreEIP3529) (minStack 2 0) (maxStack 2 0) None).
Proof.
  split; [done|]. intros f0 Hf0 _ Hlen _ _. set (f := set_f_gas _ f0). assert (f = f0) as Hff.
  { unfold f, set_f_gas, set_f_contract, set_c_Gas. cbn. rewrite Z.sub_0_r. destruct f0 as [? ? ? [] ?]. done. }
  rewrite Hff. clear f Hff. rename f0 into f. rename Hf0 into Hf. cbn in Hlen. destruct (stack2 f Hf ltac:(unfold minStack in Hlen; lia)) as (x & y & st & Hst & Hx & Hy & Hw).
  pose proof (frame_gas f Hf) as Hg. unfold step, chargeDynamic. cbn [op_dynamicGas op_execute]. vstep. vstep. unfold memoryNeeded. cbn [op_memorySize]. vstep. vstep.
  eapply vwp_mono; [by eapply gas_sstore|]. intros [cost [err|]] f1; unfold sstore_post; cbn [fst snd].
  { intros ->. vsteps. rewrite bool_decide_eq_true_2 by done. vsteps. split; [by apply moves_refl, Hf|lia]. }
  intros [Hcost Hr]. destruct (recount_state _ _ _ Hr) as (Href & Hb & Hgr & Hcon & Hst1 & Hw1 & Hrel). destruct Hr as (s1 & -> & _). cbn in Hw1, Href, Hb, Hgr.
  unfold WarmStorageReadCostEIP2929 in Hcost. vstep. rewrite bool_decide_eq_false_2 by auto.
  assert (moves (f_evm f) (set_evm_StateDB s1 (f_evm f))) as Hmoves by (split; [done..|apply (fr_evm _ Hf)]).
  unfold vwp at 1, useGas, UseGas. change (c_Gas (f_contract (set_f_state s1 f))) with (f_gas f). destruct (Z.ltb_spec (f_gas f) cost).
  { vsteps. split; [done|]. change (0 <= f_gas f <= f_gas f). lia. }
  cbn [negb]. vstep. rewrite Z.ltb_irrefl. vsteps. unfold opSstore, readOnly. vsteps. change (evm_readOnly _) with (evm_readOnly (f_evm f)). destruct (evm_readOnly (f_evm f)) eqn:Hro.
  { unfold fails. vsteps. rewrite bool_decide_eq_false_2 by done. split; [done|]. change (0 <= f_gas f - cost <= f_gas f). lia. }
  unfold proceed. vsteps. unfold vwp at 1, modifies. vsteps. cbn [set_f_stack f_stack f_state f_evm set_f_contract set_f_state set_f_evm f_self f_contract].
  set (s2 := SetState (f_self f) x y s1). pose proof (fr_evm _ Hf) as [Hsok Hj]. pose proof (schedule_owes (GetCommittedState (f_state f) (f_self f) x) (GetState (f_state f) (f_self f) x) y) as [Hlo Hhi].
  pose proof (schedule_low (GetCommittedState (f_state f) (f_self f) x) (GetState (f_state f) (f_self f) x) y) as Hneg.
  set (d := schedule _ _ y) in *. pose proof (ok_refund _ _ Hsok) as [Hr0 Hown].
  assert (0 <= sdb_refund s1) as H01.
  { rewrite Href. destruct (Z.ltb_spec d 0) as [Hd|]; [|unfold f_state in *; lia]. destruct (Hneg Hd) as (Ho & Hc0 & Hd1).
    specialize (Hown {[(f_self f, x)]}). rewrite size_singleton in Hown. change (Z.of_nat 1) with 1 in Hown. rewrite Z.mul_1_r in Hown.
    assert (clearRefund <= sdb_refund (evm_StateDB (f_evm f))) by (apply Hown; intros p ->%elem_of_singleton; by split). unfold f_state. lia. }
  destruct (SetState_advances clearRefund (f_state f) s1 (f_self f) x y) as (Hg2 & Hok2 & Hr2); [done|exact Hsok|done|by eapply below_code, Hsok|done| | | |].
  { intros b j [? ?]. destruct (below_reads _ _ b j Hb) as [Hc1 Hs1]. split; congruence. }
  { by destruct (below_reads _ _ (f_self f) x Hb). }
  { rewrite Href. lia. }
  fold s2 in Hg2, Hok2, Hr2.
  assert (evolves (f_gas f) (f_evm f) (f_gas f - cost) (set_evm_StateDB s2 (f_evm f))) as Hev.
  { split; [|by split|lia| |eapply rel_trans; [exact Hrel|by apply (rel_neutral (OpSetState (f_self f) x y))]]. { split; [done..|exact Hj]. } change (sdb_refund s2 <= sdb_refund (f_state f) + refundRatio * (f_gas f - (f_gas f - cost))). rewrite Hr2, Href. lia. }
  split_and!.
  - pose proof (frame_evm_ok (set_f_stack st f) _ _ (frame_stack_ok f st Hf Hw) Hev) as Hfin. apply (frame_pc_ok _ (u64 (f_pc f + 1))) in Hfin; [|apply u64_range]. exact Hfin.
  - exact Hev.
  - change (f_gas f - cost < f_gas f). lia.
Qed.
End sstore.

(** * SELFDESTRUCT *)

Section selfdestruct.
Context `{Crypto} {adapter : Address} `{!Ledger adapter} (env : Env) (Henv : anzeon_env adapter env).

(** Operations of [EVM] that only advance the state. *)
Definition state_post {A} (e : EVM) (_ : A) (e' : EVM) : Prop :=
  exists s, e' = set_evm_StateDB s e /\ lawful (evm_StateDB e) s.

Lemma emodifies_ok op g e : state_ok clearRefund (evm_StateDB e) -> calm_op op -> neutral op -> (forall s, exec op s = Some (g s)) -> vwp (emodifies g) e (state_post e).
Proof. intros He Hop Hn Hx. eexists. split; [done|]. eapply exec_lawful; [exact Hop|done|done|apply Hx]. Qed.
(** Operations that touch no balance. *)
Definition quiet (op : StateOp) : Prop :=
  match op with OpAddBalance _ _ | OpSubBalance _ _ | OpSelfDestruct _ | OpSelfdestruct6780 _ | OpRevert _ => False | _ => True end.
Definition quiet_post {A} (e : EVM) (a : A) (e' : EVM) : Prop :=
  state_post e a e' /\ forall b, GetBalance (evm_StateDB e') b = GetBalance (evm_StateDB e) b.
Lemma quiet_ok op g e : state_ok clearRefund (evm_StateDB e) -> calm_op op -> quiet op -> (forall s, exec op s = Some (g s)) -> vwp (emodifies g) e (quiet_post e).
Proof.
  intros He Hop Hq Hx. split; [apply (emodifies_ok op); [done|done|by destruct op|done]|]. intros b.
  unfold emodifies. cbn [evm_StateDB set_evm_StateDB]. rewrite (exec_balance op (evm_StateDB e) _ b); [by destruct op|by intros id ->|apply He|apply Hx].
Qed.
Lemma state_post_trans {A B} (a : A) (b : B) e e' e'' : state_post e a e' -> state_post e' b e'' -> state_post e b e''.
Proof. intros (s & -> & Hs) (s' & -> & Hs'). exists s'. split; [done|]. by eapply lawful_trans. Qed.
Lemma state_post_refl {A} (a : A) e : state_ok clearRefund (evm_StateDB e) -> state_post e a e.
Proof. intros He. exists (evm_StateDB e). split; [by destruct e|by apply lawful_refl]. Qed.
Lemma state_post_ok {A} e (a : A) e' : state_post e a e' -> state_ok clearRefund (evm_StateDB e').
Proof. intros (s & -> & Hs). apply Hs. Qed.

Lemma env_enabled : AnzeonEnabled (env_chainConfig env) = true.
Proof.
  pose proof (env_adapter _ _ Henv) as Ha. unfold systemContract in Ha. unfold AnzeonEnabled. apply bool_decide_eq_true. intros Hn. by rewrite Hn in Ha.
Qed.
Lemma AddTransferLog_run from to x e :
  AddTransferLog env from to x e = Done (tt, set_evm_StateDB (AddLog (transferLog env adapter from to x) (evm_StateDB e)) e).
Proof. unfold AddTransferLog. rewrite env_enabled. cbn [negb]. by rewrite (env_adapter _ _ Henv). Qed.
Lemma AddTransferLog_ok from to x e : state_ok clearRefund (evm_StateDB e) -> vwp (AddTransferLog env from to x) e (state_post e).
Proof.
  intros He. unfold vwp. rewrite AddTransferLog_run. by apply (emodifies_ok (OpAddLog (transferLog env adapter from to x)) _ e).
Qed.

Lemma liftEVM_ok {A} (k : VM EVM A) f Q : vwp k (f_evm f) (fun a e => Q a (set_f_evm e f)) -> vwp (liftEVM k) f Q.
Proof. unfold vwp, liftEVM. by destruct (k (f_evm f)) as [[a e]| |]. Qed.

(** A frame whose state advanced. *)
Lemma state_frame f e (u : unit) : frame_ok f -> state_post (f_evm f) u e -> frame_ok (set_f_evm e f) /\ fevolves f (set_f_evm e f).
Proof.
  intros Hf (s & -> & Hs). destruct (exec_state f (f_stack f) s [] Hf (fr_stack _ Hf) Hs) as [Hok [_ Hev]].
  assert (set_f_state s (set_f_stack (f_stack f) f) = set_f_evm (set_evm_StateDB s (f_evm f)) f) as Heq by (by destruct f). by rewrite Heq in *.
Qed.
Lemma modifies_ok op g f (Q : unit -> Frame -> Prop) : frame_ok f -> calm_op op -> neutral op -> (forall s, exec op s = Some (g s)) ->
  (forall e, state_post (f_evm f) tt e -> Q tt (set_f_evm e f)) -> vwp (modifies g) f Q.
Proof.
  intros Hf Hop Hn Hx HQ. apply (HQ (set_evm_StateDB (g (f_state f)) (f_evm f))). eexists. split; [done|]. eapply exec_lawful; [exact Hop|done|apply (fr_evm _ Hf)|apply Hx].
Qed.

(** Moving what an account has. *)
Lemma modifies_transfer {A} from to x f (k : Op A) Q : frame_ok f -> word x \/ x = GetBalance (f_state f) from -> x <= GetBalance (f_state f) from ->
  (forall e, state_post (f_evm f) tt e -> vwp k (set_f_evm e f) Q) -> vwp (modifies (SubBalance from x);; modifies (AddBalance to x);; k) f Q.
Proof.
  intros Hf Hx Hb Hk. apply (Hk (set_evm_StateDB (AddBalance to x (SubBalance from x (f_state f))) (f_evm f))). eexists. split; [done|].
  apply transfer_lawful; [apply (fr_evm _ Hf)|done|done].
Qed.

Lemma exec_Selfdestruct6780 f : frame_ok f -> 1 <= sLen f -> vwp (opSelfdestruct6780 env) f (fun r f' => exec_post f r f' /\ r.2 <> None).
Proof.
  intros Hf Hlen. destruct (stack_cons f Hf Hlen) as (b & st & Hst & _ & Hw & _). unfold opSelfdestruct6780, readOnly. vsteps.
  destruct (evm_readOnly (f_evm f)); [split; [by apply exec_err, fevolves_refl|done]|]. vsteps. set (f1 := set_f_stack st f).
  assert (frame_ok f1) as Hf1 by (by apply frame_stack_ok). assert (fevolves f f1) as He1 by (by apply (fevolves_refl f)).
  destruct (checkBlacklisted _ _ _ _); [split; [by apply exec_err|done]|]. vstep.
  set (bal := GetBalance _ _). apply modifies_transfer; [done|by right|done|]. intros e3 Hp3. destruct (state_frame f1 e3 tt Hf1 Hp3) as [Hf3 Hev3]. vstep.
  assert (forall f4, frame_ok f4 -> fevolves f f4 -> vwp (modifies (Selfdestruct6780 (f_self f1));; fails errStopToken) f4 (fun r f' => exec_post f r f' /\ r.2 <> None)) as Hend.
  { intros f4 Hf4 He4. vstep. apply (modifies_ok (OpSelfdestruct6780 (f_self f1))); [done..|]. intros e5 Hp5. destruct (state_frame _ e5 tt Hf4 Hp5) as [_ Hev5].
    unfold fails. vstep. split; [|done]. apply exec_err. by eapply evolves_trans. }
  assert (fevolves f (set_f_evm e3 f1)) as He3 by (eapply evolves_trans; [exact He1|exact Hev3]).
  destruct (negb (bal =? 0)); [|vstep; by apply Hend]. apply liftEVM_ok. eapply vwp_mono; [apply AddTransferLog_ok, (fr_evm _ Hf3)|].
  intros [] e4 Hp4. destruct (state_frame _ e4 tt Hf3 Hp4) as [Hf4 Hev4]. apply Hend; [done|]. by eapply evolves_trans.
Qed.
End selfdestruct.
