(* ===== verification/VmCalls.v ===== *)
(** Calls between contracts: what the operations that run other contracts rely on,
    and that the functions of [EVM] provide it. *)
From S2P Require Import Prelude Validators AccountExtra Messages Config Rlp RlpStream Extra ChainConfig Forks StateJournal JournalProps JournalRuns JournalFrames VmAnalysis VmState VmGas VmOps NativeManager Evm VmTable VmSpec VmSimple VmMemory VmStore.

(** * The promise of the machine *)

Section promise.
Context `{Crypto} {adapter : Address} `{!Ledger adapter}.

(** A call never leaves more gas than it was given, keeps the invariants, and has not
    happened if it fails. *)
Definition call_post (gas : Z) (e : EVM) (r : Returned) (e' : EVM) : Prop :=
  evolves gas e r.1.2 e' /\ (r.2 <> None -> same (evm_StateDB e') (evm_StateDB e)).

Record callable (n gas : Z) (input : bytes) (e : EVM) : Prop := {
  callable_ok : evm_ok e;
  callable_gas : gas < n;
  callable_room : room gas e;
  callable_input : Z.of_nat (length input) < 2 ^ 62;
}.

Record machine_ok (n : Z) (m : Machine) : Prop := {
  Call_ok caller addr input gas value e : callable n gas input e -> word value -> AddressInAccessList (evm_StateDB e) addr = true ->
    vwp (vm_Call m caller addr input gas value) e (call_post gas e);
  CallCode_ok caller addr input gas value e : callable n gas input e -> AddressInAccessList (evm_StateDB e) (ref_Address caller) = true ->
    vwp (vm_CallCode m caller addr input gas value) e (call_post gas e);
  DelegateCall_ok c addr input gas e : callable n gas input e -> AddressInAccessList (evm_StateDB e) (c_self c) = true ->
    vwp (vm_DelegateCall m (ContractOf c) addr input gas) e (call_post gas e);
  StaticCall_ok caller addr input gas e : callable n gas input e -> AddressInAccessList (evm_StateDB e) addr = true ->
    vwp (vm_StaticCall m caller addr input gas) e (call_post gas e);
  Create_ok caller code gas value e : callable n gas code e -> word value ->
    vwp (vm_Create m caller code gas value) e (fun r e' => evolves gas e r.1.2 e');
  Create2_ok caller code gas value salt e : callable n gas code e -> word value ->
    vwp (vm_Create2 m caller code gas value salt) e (fun r e' => evolves gas e r.1.2 e');
}.
End promise.

(** * Providing it *)

Section calls.
Context `{Crypto} {adapter : Address} `{!Ledger adapter} `{Uint256} `{PrecompiledContracts} (env : Env) (Henv : anzeon_env adapter env).

Lemma egets_ok {A} (g : StateDB -> A) e (Q : A -> EVM -> Prop) : Q (g (evm_StateDB e)) e -> vwp (egets g) e Q.
Proof. done. Qed.

(** ** Native managers and precompiled contracts *)

Definition native_post (gas : Z) (e : EVM) (r : Returned) (e' : EVM) : Prop := state_post e r e' /\ 0 <= r.1.2 <= gas.

Lemma native_done gas e g r : state_ok clearRefund (evm_StateDB e) -> 0 <= g <= gas -> r.1.2 = g -> native_post gas e r e.
Proof. intros He Hg <-. split; [by apply state_post_refl|done]. Qed.
(** One change of the state and then the end. *)
Lemma native_change op g gas e e' (r : Returned) : state_post e tt e' -> calm_op op -> neutral op -> (forall s, exec op s = Some (g s)) -> 0 <= r.1.2 <= gas ->
  vwp (emodifies g;; mret r) e' (native_post gas e).
Proof.
  intros Hp Hop Hn Hx Hr. vstep. eapply vwp_mono; [apply (emodifies_ok op); [by eapply state_post_ok|done|done|done]|]. intros u e'' Hp'. vstep.
  split; [|done]. by eapply state_post_trans.
Qed.

(** Minting is logged. *)
Lemma mint_post to x e : state_ok clearRefund (evm_StateDB e) -> word x ->
  vwp (emodifies (AddBalance to x);; AddTransferLog env 0 to x) e (state_post e).
Proof.
  intros He Hx. vstep. unfold vwp, emodifies at 1. rewrite (AddTransferLog_run env Henv). eexists. split; [done|].
  apply mint_lawful; [done|done|by apply mints_transfer].
Qed.
Lemma transfer_post from to x e : state_ok clearRefund (evm_StateDB e) -> covered (evm_StateDB e) from x ->
  vwp (emodifies (SubBalance from x);; emodifies (AddBalance to x);; AddTransferLog env from to x) e (state_post e).
Proof.
  intros He Hx. set (e1 := set_evm_StateDB (AddBalance to x (SubBalance from x (evm_StateDB e))) e).
  assert (state_post e tt e1) as Hp by (eexists; split; [done|]; by apply covered_lawful).
  change (vwp (AddTransferLog env from to x) e1 (state_post e)). eapply vwp_mono; [apply AddTransferLog_ok; [done|by eapply state_post_ok]|].
  intros [] e2 Hp2. by eapply state_post_trans.
Qed.
Lemma nativeTransfer_ok from to x gas e : state_ok clearRefund (evm_StateDB e) -> 0 <= gas -> word x -> from = 0 \/ covered (evm_StateDB e) from x ->
  vwp (nativeTransfer env from to x gas) e (fun r e' => state_post e tt e' /\ 0 <= r.1 <= gas).
Proof.
  intros He Hg Hx Hfrom. unfold nativeTransfer. destruct (negb (x =? 0)).
  - vstep. apply egets_ok. cbv zeta. set (cost := UpdateBalanceGas + _ + _). assert (0 <= cost) as Hc by (unfold cost; repeat case_match; done).
    destruct (Z.ltb_spec gas cost); [vstep; split; [by apply state_post_refl|cbn; lia]|].
    assert (forall k : EM unit, vwp k e (state_post e) -> vwp (k;; mret (gas - cost, None : option VMError)) e (fun r e' => state_post e tt e' /\ 0 <= r.1 <= gas)) as Hend.
    { intros k Hk. vstep. eapply vwp_mono; [exact Hk|]. intros [] e' Hp. vstep. split; [done|cbn; lia]. }
    destruct (Z.eqb_spec from 0) as [->|Hne]; cbn [negb].
    + exact (Hend (emodifies (AddBalance to x);; AddTransferLog env 0 to x) (mint_post to x e He Hx)).
    + destruct Hfrom as [|Hcov]; [done|].
      exact (Hend (emodifies (SubBalance from x);; emodifies (AddBalance to x);; AddTransferLog env from to x) (transfer_post from to x e He Hcov)).
  - vstep. eapply vwp_mono; [by apply AddTransferLog_ok|]. intros [] e1 Hp1. vstep. split; [done|cbn; lia].
Qed.

Lemma method_ok m input gas e : state_ok clearRefund (evm_StateDB e) -> 0 <= gas -> vwp (method_Run env m input gas) e (native_post gas e).
Proof.
  intros He Hg. assert (forall r, r = gas \/ r = 0 -> forall ret err, native_post gas e (ret, r, err) e) as Hend.
  { intros r Hr ret err. apply (native_done gas e r); [done|destruct Hr; lia|done]. }
  assert (forall op set input, calm_op (op (paramAddress input 0)) -> neutral (op (paramAddress input 0)) -> (forall a s, exec (op a) s = Some (set a s)) -> vwp (runSetFlag set input gas) e (native_post gas e)) as Hset.
  { intros op set inp Hop Hn Hx. unfold runSetFlag. vstep. apply egets_ok. cbv zeta. set (cost := UpdateAccountExtraGas + _). assert (0 <= cost) by (unfold cost; case_match; done).
    destruct (Z.ltb_spec gas cost); [vstep; apply Hend; by right|]. apply (native_change (op (paramAddress inp 0))); [by apply state_post_refl|done|done|done|cbn; lia]. }
  assert (forall op clear input, calm_op (op (paramAddress input 0)) -> neutral (op (paramAddress input 0)) -> (forall a s, exec (op a) s = Some (clear a s)) -> vwp (runClearFlag clear input gas) e (native_post gas e)) as Hclear.
  { intros op clr inp Hop Hn Hx. unfold runClearFlag. cbv zeta. destruct (Z.ltb_spec gas UpdateAccountExtraGas) as [|Hu]; [vstep; apply Hend; by right|]. unfold UpdateAccountExtraGas in *.
    apply (native_change (op (paramAddress inp 0))); [by apply state_post_refl|done|done|done|cbn; lia]. }
  destruct m; cbn [method_Run].
  - unfold runMint. cbv zeta. vstep. eapply vwp_mono; [apply nativeTransfer_ok; [done|done|apply u256_word|by left]|]. intros [g err] e' [Hp Hr]. vstep. by split.
  - unfold runBurn, CanTransfer. cbv zeta. vstep. apply egets_ok. destruct (Z.leb_spec (paramAmount input 1) (GetBalance (evm_StateDB e) (paramAddress input 0))) as [Hb|]; cbn [negb]; [|vstep; apply Hend; by left].
    destruct (Z.ltb_spec gas UpdateBalanceGas) as [|Hu]; [vstep; apply Hend; by right|]. unfold UpdateBalanceGas in *. vstep.
    set (e1 := set_evm_StateDB (SubBalance (paramAddress input 0) (paramAmount input 1) (evm_StateDB e)) e).
    assert (state_post e tt e1) as Hp1 by (eexists; split; [done|]; apply burn_lawful; [done|apply u256_word|done]).
    change (vwp (AddTransferLog env (paramAddress input 0) 0 (paramAmount input 1);; mret ([] : bytes, gas - 4500, None : option VMError)) e1 (native_post gas e)).
    vstep. eapply vwp_mono; [apply AddTransferLog_ok; [done|by eapply state_post_ok]|]. intros [] e2 Hp2. vstep. split; [by eapply state_post_trans|cbn; lia].
  - unfold runTransfer, CanTransfer. cbv zeta. vstep. apply egets_ok. destruct (Z.leb_spec (paramAmount input 2) (GetBalance (evm_StateDB e) (paramAddress input 0))) as [Hb|]; cbn [negb]; [|vstep; apply Hend; by left].
    vstep. eapply vwp_mono; [apply nativeTransfer_ok; [done|done|apply u256_word|right; right; split; [apply u256_word|done]]|]. intros [g err] e' [Hp Hr]. vstep. by split.
  - by apply (Hset OpSetBlacklisted).
  - by apply (Hclear OpClearBlacklisted).
  - unfold runReadFlag. vstep. apply egets_ok. vstep. apply Hend. by left.
  - by apply (Hset OpSetAuthorized).
  - by apply (Hclear OpClearAuthorized).
  - unfold runReadFlag. vstep. apply egets_ok. vstep. apply Hend. by left.
Qed.

Lemma CanRun_ok m op caller e Q : (forall err, Q err e) -> vwp (CanRun env m op caller) e Q.
Proof.
  intros HQ. pose proof (env_adapter _ _ Henv) as Ha. destruct (env_council _ _ Henv) as [c Hc].
  destruct m; cbn [CanRun]; try (vstep; apply HQ); unfold canRunCoinManger, canRunAccountManager, validateCaller;
    (destruct (validateCallContext _ _); [vstep; apply HQ|]); rewrite ?Ha, ?Hc; unfold voption; vsteps; apply HQ.
Qed.
Lemma runNativeManager_ok m op caller input gas e : state_ok clearRefund (evm_StateDB e) -> 0 <= gas ->
  vwp (runNativeManager env m op caller input gas) e (native_post gas e).
Proof.
  intros He Hg. assert (forall err, native_post gas e ([], gas, err) e) as Hend by (intros err; apply (native_done gas e gas); [done|lia|done]).
  unfold runNativeManager. destruct (_ <? _)%nat; [vstep; apply Hend|]. destruct (m !! _) as [method|]; [|vstep; apply Hend].
  vstep. apply CanRun_ok. intros [err|]; [vstep; apply Hend|]. destruct (negb _); [vstep; apply Hend|]. by apply method_ok.
Qed.

Lemma precompiled_ok p input gas : 0 <= gas -> 0 <= (RunPrecompiledContract p input gas).1.2 <= gas.
Proof.
  intros Hg. unfold RunPrecompiledContract. cbv zeta. pose proof (u64_range (RequiredGas p input)). destruct (Z.ltb_spec gas (u64 (RequiredGas p input))); [cbn; lia|].
  destruct (pre_Run p input). cbn. lia.
Qed.

(** ** The code of a call *)

Lemma object_code s a : code_ok s -> GetCode s a <> [] -> GetCodeHash s a = be_value (Keccak256 (GetCode s a)).
Proof.
  intros Hc. unfold GetCode, GetCodeHash, read. destruct (getStateObject s a) as [o|] eqn:Ho; [|done]. apply getStateObject_some in Ho as [Ho _].
  destruct (Hc a o Ho) as [[|] _]; done.
Qed.
Lemma resolved_ok caller s addr self value gas : code_ok s ->
  contract_ok (NewContract caller self value gas (resolveCodeHash env s addr) (resolveCode env s addr)).
Proof.
  intros Hc. unfold contract_ok, NewContract, resolveCodeHash, resolveCode. rewrite (env_anzeon _ _ Henv). cbn.
  destruct (ParseDelegation (GetCode s addr)) as [t|]; split_and!; try done; try (by apply code_length); intros Hne; right; by apply object_code.
Qed.

(** ** The end of a call *)

Lemma snapshot_same' s : same (Snapshot s).2 s.
Proof. symmetry. apply snapshot_same. Qed.

Lemma settle_ok gas e ret g err e2 : evm_ok e -> 0 <= gas -> moves (set_evm_StateDB (Snapshot (evm_StateDB e)).2 e) e2 -> 0 <= g <= gas ->
  (err = None -> evolves gas (set_evm_StateDB (Snapshot (evm_StateDB e)).2 e) g e2) ->
  vwp (settle (Snapshot (evm_StateDB e)).1 (ret, g, err)) e2 (call_post gas e).
Proof.
  intros He Hgas Hm Hg Hev. pose proof (snapshot_grows _ (evm_wf e He)) as Hsg. unfold settle. destruct err as [err|].
  - destruct (revert_ok clearRefund (evm_StateDB e) (evm_StateDB e2) (evm_state_ok _ He) (moves_grows _ _ Hm)) as (s & Hr & Hsame & [Hgr Hok Href]).
    vstep. unfold vwp at 1, revertTo. rewrite Hr. vstep. split; [|by intros _]. cbn [fst snd]. split.
    + split; [done|apply Hm|apply Hm|apply Hm].
    + split; [done|apply Hm].
    + case_bool_decide; lia.
    + cbn. case_bool_decide; lia.
    + by apply rel_same.
  - vstep. split; [|done]. destruct (Hev eq_refl) as [[Hgr Hd Hro Hj] Hok Hg' Href Hrel]. split; try done; [split; try done; by eapply grows_trans|].
    eapply rel_trans; [|exact Hrel]. by apply rel_same, snapshot_same'.
Qed.

(** The state after some changes that leave the counter alone. *)
Lemma state_post_moves {A} e (a : A) e' : evm_ok e -> state_post e a e' -> evm_ok e' /\ moves e e' /\ sdb_refund (evm_StateDB e') = sdb_refund (evm_StateDB e).
Proof. intros He (s & -> & [[Hg Hok Hr] _]). split_and!; [split; [done|apply He]|split; [done..|apply He]|done]. Qed.
Lemma state_post_rel {A} e (a : A) e' : state_post e a e' -> Rel (evm_StateDB e) (evm_StateDB e').
Proof. intros (s & -> & Hs). apply Hs. Qed.
Lemma snapshot_post e : evm_ok e -> state_post e tt (set_evm_StateDB (Snapshot (evm_StateDB e)).2 e).
Proof. intros He. eexists. split; [done|]. eapply (exec_lawful OpSnapshot); [done|done|apply He|done]. Qed.

(** What runs between the snapshot and the end. *)
Definition body_ok (gas : Z) (body : EM Returned) (e : EVM) : Prop :=
  vwp body e (fun r e' => finished gas e r.1.2 e' r.2).
Lemma finished_after gas e e1 g e2 err : evm_ok e -> state_post e tt e1 -> finished gas e1 g e2 err -> finished gas e g e2 err.
Proof.
  intros He Hp (Hm & Hg & Hev). destruct (state_post_moves e tt e1 He Hp) as (He1 & Hm1 & Hr). split_and!; [by eapply moves_trans|lia|lia|].
  intros Herr. destruct (Hev Herr) as [_ Hok Hg' Href Hrel]. split; [by eapply moves_trans|done|done|lia|]. eapply rel_trans; [by eapply state_post_rel|done].
Qed.
Lemma finished_state gas e r e' : evm_ok e -> 0 <= gas -> state_post e (r : Returned) e' -> 0 <= r.1.2 <= gas -> finished gas e r.1.2 e' r.2.
Proof.
  intros He Hg Hp Hr. destruct (state_post_moves e r e' He Hp) as (He' & Hm & Href). split_and!; [done|lia|lia|]. intros _. split; [done|done|lia|lia|by eapply state_post_rel].
Qed.

Lemma newJumpdests_ok caller e Q : evm_ok e -> (forall e', evm_ok e' -> moves e e' -> evm_StateDB e' = evm_StateDB e -> Q tt e') -> vwp (newJumpdests caller) e Q.
Proof.
  intros He HQ. destruct caller; [|by apply HQ; [|apply moves_refl|]]. assert (jumpdests_ok (set_evm_jumpdests ∅ e)) as Hj by (intros h b; cbn; by rewrite lookup_empty).
  apply HQ; [split; [apply He|done]|split; [apply (grows_refl (evm_StateDB e) (evm_wf e He))|done..]|done].
Qed.
Lemma finished_moves gas e e1 g e2 err : moves e e1 -> evm_StateDB e1 = evm_StateDB e -> finished gas e1 g e2 err -> finished gas e g e2 err.
Proof.
  intros Hm Hst (Hm' & Hg & Hev). split_and!; [by eapply moves_trans|lia|lia|]. intros Herr. destruct (Hev Herr) as [_ Hok Hg' Href Hrel].
  rewrite Hst in Href, Hrel. split; [by eapply moves_trans|done|done|done|done].
Qed.

(** ** The functions *)

Variables (n : Z) (run : Contract -> bytes -> bool -> EM Returned).
Hypothesis run_keeps : run_ok n run.

Lemma call_error gas e g err : evm_ok e -> 0 <= g <= gas -> call_post gas e ([], g, Some err) e.
Proof. intros He Hg. split; [by apply evolves_pay|by intros _]. Qed.

Lemma after_snapshot gas e (body : EM Returned) : evm_ok e -> 0 <= gas -> 
  body_ok gas body (set_evm_StateDB (Snapshot (evm_StateDB e)).2 e) ->
  vwp (id ← snapshot; r ← body; settle id r) e (call_post gas e).
Proof.
  intros He Hg Hb. vstep. unfold vwp at 1, snapshot. destruct (Snapshot (evm_StateDB e)) as [id s1] eqn:Hs. cbn [fst snd] in Hb. vstep.
  eapply vwp_mono; [exact Hb|]. intros [[ret g] err] e2 (Hm & Hg' & Hev). cbn [fst snd] in *. pose proof (settle_ok gas e ret g err e2) as Hset. rewrite Hs in Hset.
  cbn [fst snd] in Hset. by apply Hset.
Qed.

(** Running the code of an account. *)
Lemma run_code gas e caller c input ro : evm_ok e -> callable n gas input e -> contract_ok c -> c_Gas c = gas -> AddressInAccessList (evm_StateDB e) (c_self c) = true ->
  body_ok gas (newJumpdests caller;; run c input ro) e.
Proof.
  intros He Hc Hcon Hgas Hwarm. unfold body_ok. vstep. apply newJumpdests_ok; [done|]. intros e1 He1 Hm1 Hst.
  eapply vwp_mono; [apply run_keeps; try done; try (rewrite Hgas); try apply Hc|].
  - destruct Hc. unfold room in *. by rewrite Hst.
  - by rewrite Hst.
  - intros r e2. rewrite Hgas. by apply finished_moves.
Qed.

Lemma callBody_ok gas caller addr op input contract ro e : callable n gas input e ->
  (forall s, code_ok s -> exists c, contract (resolveCodeHash env s addr) (resolveCode env s addr) = Some c /\ contract_ok c /\ c_Gas c = gas /\
    (AddressInAccessList (evm_StateDB e) (c_self c) = true)) ->
  body_ok gas (callBody env run caller addr op input gas contract ro) e.
Proof.
  intros Hc Hcon. pose proof (callable_ok _ _ _ _ Hc) as He. pose proof (callable_room _ _ _ _ Hc) as [Hg _]. unfold callBody, body_ok.
  destruct (precompile _ addr) as [p|].
  { vstep. apply finished_state; [done|lia|apply state_post_refl, He|apply precompiled_ok; lia]. }
  destruct (nativeManager env addr) as [m|].
  { eapply vwp_mono; [apply runNativeManager_ok; [apply He|lia]|]. intros r e' [Hp Hr]. apply finished_state; [done|lia|done|done]. }
  vstep. apply egets_ok. vstep. apply egets_ok. destruct (Hcon (evm_StateDB e)) as (c & Hc1 & Hok & Hgas & Hwarm); [apply He|].
  vstep. eapply vwp_option; [exact Hc1|]. by apply run_code.
Qed.

Lemma callable_state gas input e (u : unit) e' : callable n gas input e -> state_post e u e' -> callable n gas input e'.
Proof.
  intros [] Hp. destruct (state_post_moves e u e' callable_ok0 Hp) as (He' & Hm & Hr). split; try done. unfold room in *. by rewrite Hr.
Qed.
Lemma warm_state e (u : unit) e' a : state_post e u e' -> AddressInAccessList (evm_StateDB e) a = true -> AddressInAccessList (evm_StateDB e') a = true.
Proof. intros (s & -> & [[Hg _ _] _]). apply (grows_warm _ _ Hg). Qed.

(** The guards that the four calls share. *)
Lemma guarded gas e caller addr input (k : EM Returned) : callable n gas input e -> vwp k e (call_post gas e) ->
  vwp (deep ← depthExceeded;
       if (deep : bool) then mret ([], gas, Some ErrDepth)
       else
         black ← egets (checkBlacklisted env (ref_Address caller) addr);
         match black with Some err => mret ([], gas, Some err) | None => k end) e (call_post gas e).
Proof.
  intros Hc Hk. pose proof (callable_ok _ _ _ _ Hc) as He. pose proof (callable_room _ _ _ _ Hc) as [Hg _]. vstep. unfold vwp at 1, depthExceeded.
  destruct (CallCreateDepth <? evm_depth e); [vstep; apply call_error; [done|lia]|]. vstep. apply egets_ok. destruct (checkBlacklisted _ _ _ _); [|done].
  vstep. apply call_error; [done|lia].
Qed.

Lemma EVM_CallCode_ok caller addr input gas value e : callable n gas input e -> AddressInAccessList (evm_StateDB e) (ref_Address caller) = true ->
  vwp (CallCode env run caller addr input gas value) e (call_post gas e).
Proof.
  intros Hc Hwarm. pose proof (callable_ok _ _ _ _ Hc) as He. pose proof (callable_room _ _ _ _ Hc) as [Hg _]. apply (guarded gas e caller addr input); [done|].
  vstep. apply egets_ok. destruct (negb _); [vstep; apply call_error; [done|lia]|]. apply after_snapshot; [done|lia|]. pose proof (snapshot_post e He) as Hs.
  apply callBody_ok; [by eapply callable_state|]. intros s Hcode. eexists. split_and!; [done|by apply resolved_ok|done|by eapply warm_state].
Qed.
Lemma EVM_DelegateCall_ok c addr input gas e : callable n gas input e -> AddressInAccessList (evm_StateDB e) (c_self c) = true ->
  vwp (DelegateCall env run (ContractOf c) addr input gas) e (call_post gas e).
Proof.
  intros Hc Hwarm. pose proof (callable_ok _ _ _ _ Hc) as He. pose proof (callable_room _ _ _ _ Hc) as [Hg _]. apply (guarded gas e (ContractOf c) addr input); [done|].
  apply after_snapshot; [done|lia|]. pose proof (snapshot_post e He) as Hs.
  apply callBody_ok; [by eapply callable_state|]. intros s Hcode. eexists. split_and!; [done| |done|by eapply warm_state].
  by apply (resolved_ok (ContractOf c) s addr (c_self c) 0 gas).
Qed.
Lemma EVM_StaticCall_ok caller addr input gas e : callable n gas input e -> AddressInAccessList (evm_StateDB e) addr = true ->
  vwp (StaticCall env run caller addr input gas) e (call_post gas e).
Proof.
  intros Hc Hwarm. pose proof (callable_ok _ _ _ _ Hc) as He. pose proof (callable_room _ _ _ _ Hc) as [Hg _]. apply (guarded gas e caller addr input); [done|].
  set (body := callBody _ _ _ _ _ _ _ _ _). change (vwp (id ← snapshot; emodifies (AddBalance addr 0);; r ← body; settle id r) e (call_post gas e)).
  assert (vwp (id ← snapshot; r ← (emodifies (AddBalance addr 0);; body); settle id r) e (call_post gas e)) as Hx.
  { apply after_snapshot; [done|lia|]. pose proof (snapshot_post e He) as Hs. unfold body_ok. vstep. set (e1 := set_evm_StateDB (Snapshot (evm_StateDB e)).2 e) in *.
    pose proof (callable_state _ _ _ _ _ Hc Hs) as Hc1. eapply vwp_mono; [apply (emodifies_ok (OpAddBalance addr 0)); [apply Hc1|done|done|done]|]. intros [] e2 Hp2.
    eapply vwp_mono; [apply callBody_ok; [by eapply callable_state|]|].
    - intros s Hcode. eexists. split_and!; [done|by apply resolved_ok|done|]. eapply warm_state; [exact Hp2|]. by eapply warm_state.
    - intros r e3. apply finished_after; [apply Hc1|done]. }
  unfold vwp, mbind, VM_bind, snapshot in *. destruct (Snapshot (evm_StateDB e)) as [id s1]. done.
Qed.

Lemma Transfer_ok from to x e : state_ok clearRefund (evm_StateDB e) -> covered (evm_StateDB e) from x -> vwp (emodifies (Transfer from to x)) e (state_post e).
Proof. intros He Hx. eexists. split; [done|]. by apply covered_lawful. Qed.
(** Moving value, with its log. *)
Lemma Transfer_log_ok {A} from to x e (k : EM A) Q : state_ok clearRefund (evm_StateDB e) -> covered (evm_StateDB e) from x -> (forall e', state_post e tt e' -> vwp k e' Q) ->
  vwp (emodifies (Transfer from to x);; (if negb (x =? 0) then AddTransferLog env from to x else mret tt);; k) e Q.
Proof.
  intros He Hx Hk. vstep. eapply vwp_mono; [by apply Transfer_ok|]. intros [] e1 Hp1. vstep. destruct (negb (x =? 0)); [|vstep; by apply Hk].
  eapply vwp_mono; [apply AddTransferLog_ok; [done|by eapply state_post_ok]|]. intros [] e2 Hp2. apply Hk. by eapply state_post_trans.
Qed.
Lemma covered_post {A} e (a : A) e' from x : quiet_post e a e' -> covered (evm_StateDB e) from x -> covered (evm_StateDB e') from x.
Proof. intros [_ Hb] [->|[Hx Hc]]; [by left|right]. split; [done|by rewrite Hb]. Qed.
Lemma quiet_trans e e' e'' : quiet_post e tt e' -> quiet_post e' tt e'' -> quiet_post e tt e''.
Proof. intros [Hp Hb] [Hp' Hb']. split; [by eapply state_post_trans|]. intros b. by rewrite Hb', Hb. Qed.
Lemma quiet_refl e : state_ok clearRefund (evm_StateDB e) -> quiet_post e tt e.
Proof. intros He. split; [by apply state_post_refl|done]. Qed.
Lemma snapshot_quiet e : evm_ok e -> quiet_post e tt (set_evm_StateDB (Snapshot (evm_StateDB e)).2 e).
Proof. intros He. split; [by apply snapshot_post|done]. Qed.

Lemma EVM_Call_ok caller addr input gas value e : callable n gas input e -> word value -> AddressInAccessList (evm_StateDB e) addr = true ->
  vwp (Call env run caller addr input gas value) e (call_post gas e).
Proof.
  intros Hc Hval Hwarm. pose proof (callable_ok _ _ _ _ Hc) as He. pose proof (callable_room _ _ _ _ Hc) as [Hg _]. apply (guarded gas e caller addr input); [done|].
  cbv zeta. vstep. apply egets_ok. unfold CanTransfer. destruct (negb (value =? 0) && _) eqn:Hcan; [vstep; apply call_error; [done|lia]|].
  assert (covered (evm_StateDB e) (ref_Address caller) value) as Hcov by (revert Hcan; destruct (Z.eqb_spec value 0) as [->|]; [by left|]; destruct (Z.leb_spec value (GetBalance (evm_StateDB e) (ref_Address caller))); [by right|done]).
  destruct (_ && _ && _); [vstep; apply call_error; [done|lia]|].
  destruct (_ && _ && _); [vstep; apply call_error; [done|lia]|]. vstep. unfold vwp at 1, snapshot. pose proof (snapshot_quiet e He) as Hs.
  pose proof (settle_ok gas e) as Hset. destruct (Snapshot (evm_StateDB e)) as [id s1] eqn:Hsnap. cbn [fst snd] in *. set (e1 := set_evm_StateDB s1 e) in *.
  destruct (state_post_moves e tt e1 He (proj1 Hs)) as (He1 & Hm1 & Hr1). vstep. apply egets_ok.
  destruct (negb (Exist (evm_StateDB e1) addr) && _); [vstep; split; [|done]; split; [done|done|cbn [fst snd]; lia|cbn [fst snd]; lia|by eapply state_post_rel, Hs]|]. vstep.
  assert (forall e2, quiet_post e1 tt e2 -> vwp (emodifies (Transfer (ref_Address caller) addr value);;
      (if negb (value =? 0) then AddTransferLog env (ref_Address caller) addr value else mret tt);;
      r ← (match precompile (env_chainRules env) addr, nativeManager env addr with
          | Some p, _ => mret (RunPrecompiledContract p input gas)
          | None, Some m => runNativeManager env m NativeManager.CALL (ref_Address caller) input gas
          | None, None =>
              code ← egets (fun s => resolveCode env s addr);
              if (length code =? 0)%nat then mret ([], gas, None)
              else
                hash ← egets (fun s => resolveCodeHash env s addr);
                newJumpdests caller;;
                run (NewContract caller addr value gas hash code) input false
          end);
      settle id r) e2 (call_post gas e)) as Hrest.
  2:{ destruct (negb (Exist (evm_StateDB e1) addr)); [|vstep; by apply Hrest, quiet_refl, He1].
      eapply vwp_mono; [apply (quiet_ok (OpCreateAccount addr)); [apply He1|done|done|done]|]. intros [] e2 Hp2. by apply Hrest. }
  intros e2 Hp2. pose proof (proj1 Hp2) as Hs2. pose proof (proj1 Hs) as Hs1. apply Transfer_log_ok; [by eapply state_post_ok|eapply covered_post; [exact Hp2|by eapply covered_post]|]. intros e3 Hp3. assert (state_post e1 tt e3) as Hp13 by (by eapply state_post_trans). vstep.
  assert (callable n gas input e3) as Hc3 by (eapply callable_state; [by eapply callable_state|done]). pose proof (callable_ok _ _ _ _ Hc3) as He3.
  eapply vwp_mono with (P := fun r e' => finished gas e3 r.1.2 e' r.2).
  2:{ intros [[ret g] err] e4 Hfin. apply (finished_after gas e1 e3 g e4 err He1 Hp13) in Hfin as (Hm4 & Hg4 & Hev4). apply Hset; [done|lia|done|done|done]. }
  destruct (precompile _ addr) as [p|].
  { vstep. apply finished_state; [done|lia|apply state_post_refl, He3|apply precompiled_ok; lia]. }
  destruct (nativeManager env addr) as [m|].
  { eapply vwp_mono; [apply runNativeManager_ok; [apply He3|lia]|]. intros r e' [Hp Hr]. apply finished_state; [done|lia|done|done]. }
  vstep. apply egets_ok. destruct (_ =? 0)%nat; [vstep; apply (finished_state gas e3 ([], gas, None)); [done|lia|apply state_post_refl, He3|cbn; lia]|].
  vstep. apply egets_ok. apply run_code; [done|done|by apply resolved_ok, He3|done|]. eapply warm_state; [exact Hp13|]. by eapply warm_state.
Qed.

(** ** Creating contracts *)

Lemma storeCode_ok gas e ret g err e2 address : evm_ok e -> 0 <= gas -> finished gas e g e2 err ->
  vwp (storeCode env address (ret, g, err)) e2 (fun r e' => finished gas e r.1.2 e' r.2).
Proof.
  intros He Hgas Hfin. unfold storeCode. rewrite (env_eip158 _ _ Henv). cbn [andb]. set (l := Z.of_nat (length ret)).
  assert (forall x, finished gas e g e2 (Some x)) as Hany by (intros x; destruct Hfin as (Hm & Hg & _); split_and!; [done|lia|lia|done]).
  destruct err as [err|]; [by vstep|]. cbv zeta. destruct (Z.ltb_spec MaxCodeSize l) as [|Hmax]; [vstep; apply Hany|].
  destruct (_ && _); [vstep; apply Hany|]. destruct (Z.ltb_spec g (u64 (l * CreateDataGas))) as [|Hpay]; [vstep; apply Hany|].
  destruct Hfin as (Hm & Hg & Hev). specialize (Hev eq_refl). pose proof (u64_range (l * CreateDataGas)). pose proof (evolves_ok _ _ _ _ Hev) as He2. vstep.
  eapply vwp_mono; [apply (emodifies_ok (OpSetCode address ret)); [apply He2|cbn; unfold MaxCodeSize in Hmax; lia|done|done]|]. intros [] e3 Hp3.
  destruct (state_post_moves e2 tt e3 He2 Hp3) as (He3 & Hm3 & Hr3). vstep. cbn [fst snd]. pose proof (evolves_refund _ _ _ _ Hev).
  split_and!; [by eapply moves_trans|lia|lia|]. intros _. split; [by eapply moves_trans|done|lia|lia|]. eapply rel_trans; [apply Hev|by eapply state_post_rel].
Qed.

Lemma create_ok caller code hash gas value address e : callable n gas code e -> word value -> (hash = 0 \/ hash = be_value (Keccak256 code)) ->
  vwp (create env run caller code hash gas value address) e (fun r e' => evolves gas e r.1.2 e').
Proof.
  intros Hc Hval Hhash. pose proof (callable_ok _ _ _ _ Hc) as He. pose proof (callable_room _ _ _ _ Hc) as [Hg _].
  assert (evolves gas e gas e) as Hsame by (apply evolves_refl; [lia|done]). unfold create. vstep. unfold vwp at 1, depthExceeded.
  destruct (CallCreateDepth <? evm_depth e); [by vstep|]. cbv zeta. vstep. apply egets_ok. destruct (_ && _); [by vstep|].
  vstep. apply egets_ok. unfold CanTransfer. destruct (Z.leb_spec value (GetBalance (evm_StateDB e) (ref_Address caller))) as [Hcan|]; cbn [negb]; [|by vstep].
  assert (covered (evm_StateDB e) (ref_Address caller) value) as Hcov by (by right). vstep. apply egets_ok. destruct (_ <? _); [by vstep|]. vstep.
  eapply vwp_mono; [apply (quiet_ok (OpSetNonce (ref_Address caller) (u64 (GetNonce (evm_StateDB e) (ref_Address caller) + 1)))); [apply He|done|done|done]|]. intros [] e1 Hp1.
  destruct (state_post_moves e tt e1 He (proj1 Hp1)) as (He1 & Hm1 & Hr1). rewrite (env_berlin _ _ Henv). vstep.
  eapply vwp_mono with (P := fun _ e' => quiet_post e tt e' /\ AddressInAccessList (evm_StateDB e') address = true).
  { unfold vwp. split; [|apply warmed]. eapply quiet_trans; [exact Hp1|]. apply (quiet_ok (OpAddAddress address) (AddAddressToAccessList address)); [apply He1|done..]. }
  intros [] e2 [Hq2 Hwarm]. pose proof (proj1 Hq2) as Hp2. destruct (state_post_moves e tt e2 He Hp2) as (He2 & Hm2 & Hr2). vstep. apply egets_ok. vstep. apply egets_ok.
  destruct (_ || _); [vstep; cbn [fst snd]; split; [done|done|lia|lia|by eapply state_post_rel]|].
  assert (callable n gas code e2) as Hc2 by (by eapply callable_state).
  assert (forall g e3 err, finished gas e2 g e3 err -> err = None -> evolves gas e g e3) as Hfin2.
  { intros g e3 err (Hm3 & Hg3 & Hev3) Herr. destruct (Hev3 Herr) as [_ Hok Hg' Href Hrel]. split; [by eapply moves_trans|done|done|lia|].
    eapply rel_trans; [by eapply state_post_rel|done]. }
  vstep. unfold vwp at 1, snapshot. pose proof (snapshot_quiet e2 He2) as Hq3. pose proof (proj1 Hq3) as Hs. pose proof (revert_ok clearRefund (evm_StateDB e2)) as Hrev.
  destruct (Snapshot (evm_StateDB e2)) as [id s3] eqn:Hsnap. cbn [fst snd] in *. set (e3 := set_evm_StateDB s3 e2) in *.
  destruct (state_post_moves e2 tt e3 He2 Hs) as (He3 & Hm3 & Hr3). vstep.
  eapply vwp_mono; [apply (quiet_ok (OpCreateAccount address)); [apply He3|done|done|done]|]. intros [] e4 Hq4. pose proof (proj1 Hq4) as Hp4. rewrite (env_eip158 _ _ Henv). vstep.
  eapply vwp_mono; [apply (quiet_ok (OpSetNonce address 1)); [by eapply state_post_ok|done|done|done]|]. intros [] e5 Hq5. pose proof (proj1 Hq5) as Hp5.
  assert (quiet_post e tt e5) as Hq by (eapply quiet_trans; [exact Hq2|]; eapply quiet_trans; [exact Hq3|]; by eapply quiet_trans).
  apply Transfer_log_ok; [by eapply state_post_ok|by eapply covered_post|]. intros e6 Hp6.
  assert (state_post e3 tt e6) as Hp36 by (eapply state_post_trans; [exact Hp4|]; by eapply state_post_trans).
  assert (callable n gas code e6) as Hc6 by (eapply callable_state; [by eapply callable_state|exact Hp36]).
  pose proof (run_code gas e6 caller (NewContract caller address value gas hash code) [] false) as Hrun. unfold body_ok in Hrun.
  assert (vwp (newJumpdests caller;; run (NewContract caller address value gas hash code) [] false) e6 (fun r e' => finished gas e6 r.1.2 e' r.2)) as Hbody.
  { apply Hrun; [apply Hc6|destruct Hc6; by split|by split; [apply Hc|]|done|]. eapply warm_state; [exact Hp36|]. by eapply warm_state. }
  apply vwp_assoc. eapply vwp_mono; [exact Hbody|]. clear Hrun Hbody. intros [[ret g] err] e8 Hfin. cbn [fst snd] in Hfin.
  apply (finished_after gas e3 e6 g e8 err He3 Hp36) in Hfin. vstep. eapply vwp_mono; [apply (storeCode_ok gas e3); [done|lia|done]|].
  intros [[ret2 g2] err2] e9 Hst. cbn [fst snd] in Hst.
  destruct err2 as [err2|].
  - rewrite (env_homestead _ _ Henv). cbn [orb]. destruct Hst as (Hm9 & Hg9 & _).
    destruct (Hrev (evm_StateDB e9) (evm_state_ok _ He2) (moves_grows _ _ Hm9)) as (s & Hr & Hsame' & [Hgr Hok Href]).
    vstep. unfold vwp at 1, revertTo. rewrite Hr. vstep. cbn [fst snd]. destruct Hm9 as [_ Hd9 Hro9 Hj9]. split.
    + eapply moves_trans; [exact Hm2|]. by split.
    + by split.
    + case_bool_decide; lia.
    + cbn. case_bool_decide; lia.
    + eapply rel_trans; [by eapply state_post_rel|by apply rel_same].
  - vstep. eapply Hfin2; [|done]. by eapply finished_after.
Qed.

Lemma machine_keeps : machine_ok n (machine env run).
Proof.
  split; cbn [machine vm_Call vm_CallCode vm_DelegateCall vm_StaticCall vm_Create vm_Create2].
  - apply EVM_Call_ok.
  - apply EVM_CallCode_ok.
  - apply EVM_DelegateCall_ok.
  - apply EVM_StaticCall_ok.
  - intros caller code gas value e Hc Hval. unfold Create. vstep. apply egets_ok. apply create_ok; [done|done|by left].
  - intros caller code gas value salt e Hc Hval. unfold Create2. cbv zeta. apply create_ok; [done|done|by right].
Qed.
End calls.
