(* ===== verification/VmCallOps.v ===== *)
(** The operations that run other contracts: what they are charged covers what the
    callee gets, so that gas only ever shrinks. *)
From S2P Require Import Prelude Validators AccountExtra Messages Config Rlp RlpStream Extra ChainConfig Forks StateJournal JournalProps JournalRuns JournalFrames VmAnalysis VmState VmGas VmOps NativeManager Evm VmTable VmSpec VmSimple VmMemory VmStore VmCalls.

Section gas.
Context `{Crypto} {adapter : Address} `{!Ledger adapter} (env : Env) (Henv : anzeon_env adapter env).

(** * Gas for the callee *)

(** What is known of a cost: it covers the gas for the callee and [base]; the account
    is in the access list. *)
Definition call_cost (base : Z) (a : Address) (cost : Z) (e : EVM) : Prop :=
  0 <= evm_callGasTemp e /\ evm_callGasTemp e + base <= cost /\ AddressInAccessList (evm_StateDB e) a = true.

Lemma temp_light f0 f t : light f0 f -> light f0 (set_f_evm (set_evm_callGasTemp t (f_evm f)) f).
Proof.
  intros Hl. eapply light_trans; [exact Hl|]. pose proof (light_ok _ _ Hl) as Hf. set (e' := set_evm_callGasTemp t (f_evm f)).
  assert (evolves (f_gas f) (f_evm f) (f_gas f) e') as He by (apply evolves_same; try done; [by apply frame_gas|apply Hf|apply (fr_evm _ Hf)]).
  split; try done. pose proof (frame_evm_ok f _ _ Hf He) as Hx. by destruct f as [? ? ? [] ?].
Qed.

Lemma callGas_nonneg avail base requested : 0 <= (callGas true avail base requested).1.
Proof.
  unfold callGas. pose proof (u64_range (avail - base)) as Hu. pose proof (u64_range requested). set (a := u64 (avail - base)) in *.
  assert (0 <= a - a / 64) by (pose proof (Z.div_le_upper_bound a 64 a); lia). destruct (_ || _); [done|]. destruct (negb (IsUint64 requested)); cbn; lia.
Qed.

Lemma withCallGas_ok f0 f n a gas base : light f0 f -> 0 <= gas -> base <= gas -> n <= maxMem -> AddressInAccessList (f_state f) a = true -> 1 <= sLen f ->
  vwp (withCallGas env gas) f (cost_post (call_cost base a) n f0).
Proof.
  intros Hl Hg Hb Hn Ha Hlen. destruct (stack_cons f (light_ok _ _ Hl) Hlen) as (r & st & Hst & _). unfold withCallGas. vstep. vstep. vstep. eapply vwp_Back; [by rewrite Hst|].
  rewrite (env_eip150 _ _ Henv). pose proof (callGas_nonneg (f_gas f) gas r) as Ht. destruct (callGas true (f_gas f) gas r) as [temp err]. cbn [fst] in Ht. vstep. vstep.
  pose proof (temp_light f0 f temp Hl) as Hl'. set (f' := set_f_evm _ f) in *. destruct err as [err|].
  - vstep. split; [apply Hl'|]. apply (evolves_gas _ _ _ _ (light_evolves _ _ Hl')).
  - unfold safeAdd, SafeAdd. destruct (Z.leb_spec (2 ^ 64) (gas + temp)).
    + vstep. split; [apply Hl'|]. apply (evolves_gas _ _ _ _ (light_evolves _ _ Hl')).
    + rewrite u64_small by lia. vstep. split_and!; [done| |cbn; lia|done]. split_and!; [done|cbn; lia|exact Ha].
Qed.

(** What the four functions from before the access lists provide. *)
Definition old_ok (old : gasFunc) (lo : Z) (base : list Z -> Z) : Prop := forall f n a,
  frame_ok f -> lo <= sLen f -> AddressInAccessList (f_state f) a = true -> vwp (old n) f (cost_post (call_cost (base (f_stack f)) a) n f).
Definition noBase (st : list Z) : Z := 0.
Definition valueBase (st : list Z) : Z := if default 0 (st !! 2%nat) =? 0 then 0 else CallValueTransferGas.

Lemma memoryGasCost_cost n k f0 J f : light f0 f -> (forall f' x, light f f' -> f_evm f' = f_evm f -> 0 <= x -> n <= maxMem -> vwp (k x) f' (cost_post J n f0)) ->
  vwp (gasThen (memoryGasCost n) k) f (cost_post J n f0).
Proof.
  intros Hl Hk. pose proof (light_ok _ _ Hl) as Hf. unfold gasThen. vstep. unfold vwp at 1, memoryGasCost. unfold maxMem in *. destruct (Z.eqb_spec n 0) as [->|].
  { apply Hk; [by apply light_refl|done|lia|lia]. }
  destruct (Z.ltb_spec 0x1FFFFFFFE0 n).
  { split; [apply Hl|]. apply (evolves_gas _ _ _ _ (light_evolves _ _ Hl)). }
  cbv zeta. destruct (_ <? _); [|apply Hk; [by apply light_refl|done|lia|lia]]. apply Hk; [by apply light_mem|done|apply u64_range|lia].
Qed.
Lemma safeAdd_cost x y k f0 J n f : light f0 f -> 0 <= x -> 0 <= y -> vwp (k (x + y)) f (cost_post J n f0) -> vwp (safeAdd x y k) f (cost_post J n f0).
Proof.
  intros Hl Hx Hy Hk. unfold safeAdd, SafeAdd. destruct (Z.leb_spec (2 ^ 64) (x + y)); [|by rewrite u64_small by lia].
  split; [apply Hl|]. apply (evolves_gas _ _ _ _ (light_evolves _ _ Hl)).
Qed.

Lemma gasCall_old : old_ok (gasCall env) 7 valueBase.
Proof.
  intros f n a Hf Hlen Ha. destruct (stack_at f 2 Hf ltac:(lia)) as (v & Hv & _). destruct (stack_at f 1 Hf ltac:(lia)) as (to & Hto & _).
  unfold gasCall. vstep. eapply vwp_Back; [done|]. vstep. eapply vwp_Back; [done|]. cbv zeta. vstep. unfold vwp at 1, gets. vstep. unfold vwp at 1, gets.
  set (g := if negb (v =? 0) then _ else _). assert (0 <= g /\ valueBase (f_stack f) <= g) as [Hg Hb].
  { unfold g, valueBase. rewrite Hv. cbn [default from_option id]. destruct (v =? 0); cbn [negb]; repeat case_match; done. }
  apply memoryGasCost_cost; [by apply light_refl|]. intros f' x Hl He Hx Hn. apply safeAdd_cost; [done..|].
  apply withCallGas_ok; [done|lia|lia|done|unfold f_state; by rewrite He|rewrite (light_len _ _ Hl); lia].
Qed.
Lemma gasCallCode_old : old_ok (gasCallCode env) 7 valueBase.
Proof.
  intros f n a Hf Hlen Ha. unfold gasCallCode. apply memoryGasCost_cost; [by apply light_refl|]. intros f' x Hl He Hx Hn.
  destruct (stack_at f 2 Hf ltac:(lia)) as (v & Hv & _). vstep. eapply vwp_Back; [by rewrite (light_stack _ _ Hl)|]. cbv zeta. set (g := if negb (v =? 0) then _ else _).
  assert (0 <= g /\ valueBase (f_stack f) <= g) as [Hg Hb] by (unfold g, valueBase; rewrite Hv; cbn [default from_option id]; destruct (v =? 0); done).
  apply safeAdd_cost; [done..|]. apply withCallGas_ok; [done|lia|lia|done|unfold f_state; by rewrite He|rewrite (light_len _ _ Hl); lia].
Qed.
Lemma gasDelegateCall_old : old_ok (gasDelegateCall env) 6 noBase.
Proof.
  intros f n a Hf Hlen Ha. unfold gasDelegateCall. apply memoryGasCost_cost; [by apply light_refl|]. intros f' x Hl He Hx Hn.
  apply withCallGas_ok; [done|lia|unfold noBase; lia|done|unfold f_state; by rewrite He|rewrite (light_len _ _ Hl); lia].
Qed.
Lemma gasStaticCall_old : old_ok (gasStaticCall env) 6 noBase.
Proof. exact gasDelegateCall_old. Qed.

(** ** Access lists and delegations *)

(** Gas that is lent while the cost is computed. *)
Lemma light_regas f g f' : frame_ok f -> 0 <= g <= f_gas f -> light (set_f_gas g f) f' -> light f (set_f_gas (f_gas f) f').
Proof.
  intros Hf Hg [Hok He Hst Hmem Hc Hpc Hrd]. pose proof (frame_gas f Hf).
  assert (f_gas f' = g) as Hg' by (unfold f_gas; by rewrite Hc). assert (evolves (f_gas f) (f_evm f) (f_gas f) (f_evm f')) as Hev.
  { destruct He as [Hm Hok' Hgas Hr Hrel]. cbn in Hm, Hr. rewrite Hg' in Hr. change (c_Gas _) with g in Hr. split; [done|done|lia|lia|done]. }
  pose proof (evolves_room _ _ _ _ (fr_room _ Hf) Hev) as Hroom. assert (f_contract (set_f_gas (f_gas f) f') = f_contract f) as Hcon.
  { cbn. rewrite Hc. cbn. unfold set_c_Gas. cbn. unfold f_gas. by destruct (f_contract f). }
  split; try done. destruct Hok. split; try done; cbn; rewrite ?Hcon; try apply Hf.
Qed.

Lemma pay_if (b : bool) c f (Q : bool -> Frame -> Prop) : frame_ok f -> 0 <= c ->
  (forall c', c' = (if b then 0 else c) -> c' <= f_gas f -> Q true (set_f_gas (f_gas f - c') f)) -> Q false f -> vwp (if b then mret true else useGas c) f Q.
Proof.
  intros Hf Hc Ht Hn. destruct b.
  - vstep. specialize (Ht 0 eq_refl). pose proof (frame_gas f Hf). specialize (Ht ltac:(lia)). rewrite Z.sub_0_r in Ht. by destruct f as [? ? ? [] ?].
  - unfold vwp, useGas, UseGas. fold (f_gas f). destruct (Z.ltb_spec (f_gas f) c); [by destruct f|]. by apply Ht.
Qed.

Lemma gas_set_id f : set_f_gas (f_gas f) f = f.
Proof. by destruct f as [? ? ? [] ?]. Qed.
Lemma cost_refuse J n f f' e : moves (f_evm f) (f_evm f') -> 0 <= f_gas f' <= f_gas f -> cost_post J n f (0, Some e) f'.
Proof. by split. Qed.
Lemma light_moves f f' : light f f' -> moves (f_evm f) (f_evm f') /\ f_gas f' = f_gas f.
Proof. intros Hl. split; [apply (light_evolves _ _ Hl)|unfold f_gas; by rewrite (light_contract _ _ Hl)]. Qed.

(** The delegation of the callee is looked up and paid for. *)
Lemma delegation_ok (code : bytes) f (Q : bool * Z -> Frame -> Prop) : frame_ok f ->
  (forall f', light f f' -> Q (false, WarmStorageReadCostEIP2929) f' /\ Q (false, ColdAccountAccessCostEIP2929) f') ->
  (forall f' cost, light f f' -> 0 <= cost <= f_gas f -> Q (true, cost) (set_f_gas (f_gas f - cost) f')) ->
  vwp (match ParseDelegation code with
       | Some target =>
           present ← warm target;
           let cost := if (present : bool) then WarmStorageReadCostEIP2929 else ColdAccountAccessCostEIP2929 in
           ok ← useGas cost; mret (ok, cost)
       | None => mret (true, 0)
       end) f Q.
Proof.
  intros Hf Hno Hyes. pose proof (frame_gas f Hf) as Hg. destruct (ParseDelegation code) as [t|].
  - vstep. apply exec_warm; [done|]. intros b f1 Hl _ _. destruct (light_moves f f1 Hl) as [_ Hge]. cbv zeta.
    set (cost := if b then WarmStorageReadCostEIP2929 else ColdAccountAccessCostEIP2929). assert (0 <= cost) by (unfold cost; by destruct b).
    vstep. apply (pay_if false cost f1); [apply Hl|done| |].
    + intros c' -> Hc. vstep. rewrite Hge. apply Hyes; [done|lia].
    + vstep. destruct (Hno f1 Hl). unfold cost. by destruct b.
  - vstep. specialize (Hyes f 0 (light_refl f Hf) ltac:(lia)). by rewrite Z.sub_0_r, gas_set_id in Hyes.
Qed.

Lemma light_warm f f' a : light f f' -> AddressInAccessList (f_state f) a = true -> AddressInAccessList (f_state f') a = true.
Proof. intros Hl. apply (grows_warm _ _ (moves_grows _ _ (evolves_moves _ _ _ _ (light_evolves _ _ Hl)))). Qed.

Lemma gas7702_ok old lo base f n to : old_ok old lo base -> 2 <= lo -> frame_ok f -> lo <= sLen f -> f_stack f !! 1%nat = Some to ->
  vwp (makeCallVariantGasCallEIP7702 old n) f (cost_post (call_cost (base (f_stack f)) (Bytes20 to)) n f).
Proof.
  intros Hold Hlo Hf Hlen Hto. unfold makeCallVariantGasCallEIP7702. vstep. eapply vwp_Back; [done|]. cbv zeta. vstep.
  apply exec_warm; [done|]. intros present f1 Hl1 Ha1 _. destruct (light_moves f f1 Hl1) as [Hm1 Hg1]. pose proof (frame_gas f Hf) as Hg. vstep.
  assert (cost_post (call_cost (base (f_stack f)) (Bytes20 to)) n f (0, Some ErrOutOfGas) f1) as Hfail by (apply cost_refuse; [done|lia]).
  apply pay_if; [apply Hl1|done| |exact Hfail]. intros c1 Hc1 Hle1. cbn [negb].
  assert (0 <= c1 /\ (if present then 0 else ColdAccountAccessCostEIP2929 - WarmStorageReadCostEIP2929) = c1) as [Hc1p Hc1e] by (by destruct present; subst c1).
  rewrite Hc1e. set (f2 := set_f_gas (f_gas f1 - c1) f1). assert (frame_ok f2) as Hf2 by (apply frame_pay_ok; [apply Hl1|lia]). assert (f_gas f2 = f_gas f - c1) as Hg2 by (cbn; lia).
  vstep. unfold vwp at 1, gets. vstep. apply delegation_ok; [done| |].
  { intros f3 Hl3. destruct (light_moves f2 f3 Hl3) as [Hm3 Hg3]. split; apply cost_refuse; try (eapply moves_trans; [exact Hm1|exact Hm3]); lia. }
  intros f3 c2 Hl3 Hc2. destruct (light_moves f2 f3 Hl3) as [Hm3 Hg3]. cbn [negb]. set (f4 := set_f_gas (f_gas f2 - c2) f3).
  assert (frame_ok f4) as Hf4 by (apply frame_pay_ok; [apply Hl3|lia]). assert (f_gas f4 = f_gas f - (c1 + c2)) as Hg4 by (cbn; lia).
  assert (f_stack f4 = f_stack f) as Hst4 by (change (f_stack f3 = f_stack f); rewrite (light_stack _ _ Hl3); apply (light_stack _ _ Hl1)).
  vstep. eapply vwp_mono; [apply (Hold f4 n (Bytes20 to) Hf4)|].
  { unfold sLen. rewrite Hst4. exact Hlen. }
  { change (AddressInAccessList (f_state f3) (Bytes20 to) = true). eapply light_warm; [exact Hl3|exact Ha1]. }
  rewrite Hst4. intros [cost [err|]] f5; unfold cost_post at 1; cbn [fst snd].
  - intros [Hm5 Hg5]. vstep. split; [|cbn [fst snd]; lia]. eapply moves_trans; [exact Hm1|]. eapply moves_trans; [exact Hm3|exact Hm5].
  - intros (Hl5 & (HJ1 & HJ2 & HJ3) & Hcost & Hn). destruct (light_moves f4 f5 Hl5) as [_ Hg5]. vstep. unfold giveBack. vstep.
    rewrite u64_small by lia. replace (f_gas f5 + (c1 + c2)) with (f_gas f) by lia.
    assert (light f (set_f_gas (f_gas f) f5)) as Hlf.
    { apply (light_trans f f1); [done|]. rewrite <- Hg1. pose proof (light_regas f3 (f_gas f2 - c2) f5 (light_ok _ _ Hl3) ltac:(lia) Hl5) as Hl35.
      apply (light_regas f1 (f_gas f1 - c1) (set_f_gas (f_gas f3) f5)); [apply Hl1|lia|]. by apply (light_trans _ f3). }
    apply safeAdd_cost; [done|done|lia|]. vstep. split_and!; [done| |cbn; lia|done]. split_and!; [done|cbn; cbn in HJ2; lia|exact HJ3].
Qed.
End gas.

(** * Operations *)

Section calls.
Context `{Crypto} {adapter : Address} `{!Ledger adapter} (env : Env) (Henv : anzeon_env adapter env) (m : Machine) (n : Z) (Hm : machine_ok n m).

Lemma frame_regas f g e : frame_ok f -> evm_ok e -> room g e -> grows (f_state f) (evm_StateDB e) -> frame_ok (set_f_gas g (set_f_evm e f)).
Proof. intros [] He Hr Hg. split; try done. cbn. by apply (grows_warm _ _ Hg). Qed.

(** The frame after a call that was paid for: [g] is what the callee left. *)
Lemma resume_ok f f1 callee g e : room (f_gas f) (f_evm f) -> frame_ok f1 -> fevolves f f1 -> sdb_refund (f_state f1) <= sdb_refund (f_state f) ->
  f_gas f1 + callee < f_gas f -> evolves callee (f_evm f1) g e ->
  frame_ok (set_f_gas (f_gas f1 + g) (set_f_evm e f1)) /\ evolves (f_gas f) (f_evm f) (f_gas f1 + g) e /\ f_gas f1 + g < f_gas f.
Proof.
  intros Hroom Hf1 He1 Hr1 Hlt [Hmv Hok Hg Hr Hrel]. pose proof (frame_gas f1 Hf1). unfold f_state in Hr1.
  assert (evolves (f_gas f) (f_evm f) (f_gas f1 + g) e) as Hev by (split; [by eapply moves_trans; [apply He1|]|done|lia|lia|eapply rel_trans; [apply He1|done]]).
  split_and!; [|done|lia]. apply frame_regas; [done|done|by eapply evolves_room|apply Hmv].
Qed.

(** What the operations that call promise, relative to the frame before the round. *)
Definition call_outcome (f : Frame) (r : bytes * option VMError) (f' : Frame) : Prop :=
  match r.2 with
  | None => frame_ok f' /\ fevolves f f' /\ f_gas f' < f_gas f
  | Some e => e <> errStopToken /\ moves (f_evm f) (f_evm f') /\ 0 <= f_gas f' <= f_gas f
  end.

Lemma afterCall_ok f f1 callee retOff retSize (r : Returned) e : room (f_gas f) (f_evm f) -> frame_ok f1 -> fevolves f f1 ->
  sdb_refund (f_state f1) <= sdb_refund (f_state f) -> f_gas f1 + callee < f_gas f -> evolves callee (f_evm f1) r.1.2 e ->
  in_mem (f_mem f1) retOff retSize -> word retOff ->
  vwp (afterCall retOff retSize r) (set_f_evm e f1) (call_outcome f).
Proof.
  intros Hroom Hf1 He1 Hr1 Hlt Hev Hin Hw. destruct r as [[ret g] err]. cbn [fst snd] in Hev. unfold afterCall. vstep. vstep. vstep. cbn [f_stack set_f_evm].
  set (x := u256 _). set (f2 := set_f_stack _ _). pose proof (evolves_gas _ _ _ _ Hev) as Hg. pose proof (frame_gas f1 Hf1) as Hg1. destruct Hroom as [Hgf Hrf].
  assert (forall f3, f3 = f2 \/ (exists m', f3 = set_f_mem m' f2 /\ mem_Len m' = mem_Len (f_mem f1)) ->
    vwp (giveBack g;; setReturnData ret;; mret (ret, None)) f3 (call_outcome f)) as Hend.
  { intros f3 Hf3. assert (exists m', f3 = set_f_mem m' f2 /\ mem_Len m' = mem_Len (f_mem f1)) as (m' & -> & Hlen) by (destruct Hf3 as [->|]; [by exists (f_mem f2)|done]).
    unfold giveBack, setReturnData. vsteps. change (f_gas (set_f_mem m' f2)) with (f_gas f1). rewrite u64_small by lia.
    pose proof (evolves_trans _ _ _ _ _ _ Hev (evolves_returnData g e ret ltac:(lia) (evolves_ok _ _ _ _ Hev))) as Hev2.
    destruct (resume_ok f f1 callee g (set_evm_returnData ret e) (conj Hgf Hrf) Hf1 He1 Hr1 Hlt Hev2) as (Hok & Hevf & Hlt2).
    split_and!; [|exact Hevf|exact Hlt2]. apply (frame_stack_ok _ (x :: f_stack f1)) in Hok; [|constructor; [apply u256_word|apply Hf1]].
    apply (frame_mem_ok _ m') in Hok; [exact Hok|]. rewrite Hlen. apply Hf1. }
  destruct (_ || _); [|vstep; apply Hend; by left].
  destruct (mem_Set_ok (f_mem f1) retOff retSize ret Hin (fr_mem _ Hf1) Hw) as (m' & Hs & Hl). eapply mem_do_ok; [exact Hs|]. apply Hend. right. by exists m'.
Qed.

(** A round of such an operation. *)
Lemma call_step execute const gf lo hi ms base (W : list Z -> Memory -> Prop) : 0 < const -> 2 <= lo ->
  (forall f, frame_ok f -> lo <= sLen f -> vwp ms f (fun r f' => f' = f /\ (r.2 = false -> 0 <= r.1 < 2 ^ 64 /\ forall n, r.1 <= n -> forall m, n <= mem_Len m -> W (f_stack f) m))) ->
  old_ok gf lo base ->
  (forall f f1 to cost, frame_ok f1 -> fevolves f f1 -> room (f_gas f) (f_evm f) -> sdb_refund (f_state f1) <= sdb_refund (f_state f) -> f_gas f <= n -> lo <= sLen f1 ->
    f_stack f1 !! 1%nat = Some to -> f_gas f1 + cost < f_gas f -> call_cost (base (f_stack f1)) (Bytes20 to) cost (f_evm f1) -> W (f_stack f1) (f_mem f1) ->
    vwp (execute m) f1 (call_outcome f)) ->
  operation_ok m n false (mkOperation execute const (Some (makeCallVariantGasCallEIP7702 gf)) lo hi (Some ms)).
Proof.
  intros Hc Hlo Hms Hold Hx. split; [cbn; lia|]. intros f Hf Hin Hlen Hn Hg. cbn in Hlen, Hg. pose proof (frame_gas f Hf). cbn [op_constantGas].
  set (f0 := set_f_gas (f_gas f - const) f). assert (frame_ok f0) as Hf0 by (apply frame_pay_ok; [done|lia]).
  assert (fevolves f f0) as He0 by (apply evolves_pay; [cbn; lia|apply Hf]). assert (f_gas f0 = f_gas f - const) as Hg0 by done.
  assert (lo <= sLen f0) as Hl0 by (change (lo <= sLen f); lia). destruct (stack_at f0 1 Hf0) as (to & Hto & _); [lia|].
  unfold step. vstep. eapply vwp_mono.
  { apply (charge_ok (mkOperation execute const (Some (makeCallVariantGasCallEIP7702 gf)) lo hi (Some ms)) _ (call_cost (base (f_stack f0)) (Bytes20 to)) f0 (fun n => forall m, n <= mem_Len m -> W (f_stack f0) m) eq_refl Hf0).
    - eapply needs_memory; [done|]. by apply Hms.
    - intros k _ _. by eapply gas7702_ok. }
  intros [err|] f1.
  { intros [Hmv Hg1]. vstep. split; [by eapply moves_trans; [apply He0|]|lia]. }
  intros (k & HV & [Hok Hev HJ Hst Hmem Hself Hr]). cbn [op_execute]. vstep. rewrite <- Hst in HJ. pose proof (evolves_gas _ _ _ _ Hev).
  eapply vwp_mono; [apply (Hx f f1 to (f_gas f0 - f_gas f1)); try done|].
  - by eapply evolves_trans.
  - apply Hf.
  - unfold sLen. by rewrite Hst.
  - by rewrite Hst.
  - lia.
  - rewrite Hst. by apply HV.
  - intros [ret [err|]] f2; unfold call_outcome; cbn [snd].
    + intros (He & Hmv & Hg2). vstep. rewrite bool_decide_eq_false_2 by done. by split.
    + intros (Hf2 & He2 & Hlt). vsteps. split_and!; [apply frame_pc_ok; [done|apply u64_range]|done|done].
Qed.

Lemma stack7 f : frame_ok f -> 7 <= sLen f -> exists x1 x2 x3 x4 x5 x6 x7 st, f_stack f = x1 :: x2 :: x3 :: x4 :: x5 :: x6 :: x7 :: st /\ Forall word st /\ word x6 /\ word x3.
Proof.
  intros Hf Hlen. pose proof (fr_stack _ Hf) as Hw. unfold sLen in Hlen. destruct (f_stack f) as [|x1 [|x2 [|x3 [|x4 [|x5 [|x6 [|x7 st]]]]]]]; cbn in Hlen; [lia..|].
  rewrite !Forall_cons in Hw. exists x1, x2, x3, x4, x5, x6, x7, st. naive_solver.
Qed.
Lemma stack6 f : frame_ok f -> 6 <= sLen f -> exists x1 x2 x3 x4 x5 x6 st, f_stack f = x1 :: x2 :: x3 :: x4 :: x5 :: x6 :: st /\ Forall word st /\ word x5.
Proof.
  intros Hf Hlen. pose proof (fr_stack _ Hf) as Hw. unfold sLen in Hlen. destruct (f_stack f) as [|x1 [|x2 [|x3 [|x4 [|x5 [|x6 st]]]]]]; cbn in Hlen; [lia..|].
  rewrite !Forall_cons in Hw. exists x1, x2, x3, x4, x5, x6, st. naive_solver.
Qed.

Lemma callable_frame f f1 g args : frame_ok f1 -> room (f_gas f) (f_evm f) -> sdb_refund (f_state f1) <= sdb_refund (f_state f) -> f_gas f <= n ->
  0 <= g -> f_gas f1 + g < f_gas f -> Z.of_nat (length args) <= mem_Len (f_mem f1) -> callable n g args (f_evm f1).
Proof.
  intros Hf1 [Hgf Hrf] Hr Hn Hg Hlt Ha. pose proof (frame_gas f1 Hf1). pose proof (fr_mem _ Hf1). unfold f_state in Hr. split; [apply Hf1|lia| |lia]. split; lia.
Qed.

(** The value that goes with a call is paid for by its base cost. *)
Lemma stipend_ok v temp cost : 0 <= temp -> temp + (if v =? 0 then 0 else CallValueTransferGas) <= cost -> cost < 2 ^ 64 ->
  let g := if negb (v =? 0) then u64 (temp + CallStipend) else temp in 0 <= g <= cost.
Proof. unfold CallValueTransferGas, CallStipend. intros Ht Hc Hmax. destruct (v =? 0); cbn; [lia|]. rewrite u64_small; lia. Qed.

Lemma popped_ok f f1 st : frame_ok f1 -> Forall word st -> fevolves f f1 -> frame_ok (set_f_stack st f1) /\ fevolves f (set_f_stack st f1).
Proof. intros Hf Hst He. split; [by apply frame_stack_ok|exact He]. Qed.

Lemma exec_Call f f1 to cost : frame_ok f1 -> fevolves f f1 -> room (f_gas f) (f_evm f) -> sdb_refund (f_state f1) <= sdb_refund (f_state f) -> f_gas f <= n -> 7 <= sLen f1 ->
  f_stack f1 !! 1%nat = Some to -> f_gas f1 + cost < f_gas f -> call_cost (valueBase (f_stack f1)) (Bytes20 to) cost (f_evm f1) ->
  region 5 6 (f_stack f1) (f_mem f1) /\ region 3 4 (f_stack f1) (f_mem f1) -> vwp (opCall m) f1 (call_outcome f).
Proof.
  intros Hf1 He Hroom Hr Hn Hlen Hto Hcost (Ht0 & Ht & Hwarm) [Hret Hin]. destruct (stack7 f1 Hf1 Hlen) as (x1 & x2 & v & io & sz & ro & rs & st & Hst & Hw & Hwro & Hv).
  rewrite Hst in Hto, Hret, Hin, Ht. injection Hto as <-. destruct (Hret ro rs eq_refl eq_refl) as [_ Hret']. destruct (Hin io sz eq_refl eq_refl) as [_ Hin'].
  destruct (mem_GetPtr_ok _ io sz Hin' (fr_mem _ Hf1)) as (args & Hargs & Hal). unfold valueBase in Ht. cbn [lookup list_lookup default from_option id] in Ht.
  destruct (popped_ok f f1 st Hf1 Hw He) as [Hf2 He2]. set (f2 := set_f_stack st f1) in *. pose proof (frame_gas f1 Hf1) as Hg1. pose proof Hroom as [Hgf _].
  unfold opCall, callGasTemp. vsteps. eapply mem_get_ok; [exact Hargs|]. unfold readOnly, self. vsteps.
  pose proof (evolves_gas _ _ _ _ He). destruct (_ && _). { split_and!; [done|apply He|change (0 <= f_gas f1); lia|change (f_gas f1 <= f_gas f); lia]. }
  pose proof (stipend_ok v (evm_callGasTemp (f_evm f1)) cost Ht0 Ht ltac:(lia)) as Hg. cbv zeta in Hg. vsteps. apply liftEVM_ok.
  change (f_evm (set_f_stack _ _)) with (f_evm f1). set (g := if negb (v =? 0) then _ else _) in *.
  eapply vwp_mono; [apply (Call_ok n m Hm); [apply (callable_frame f f1); (done || lia)|exact Hv|exact Hwarm]|].
  intros r e [Hev _]. apply (afterCall_ok f f2 g); try done. change (f_gas f1 + g < f_gas f). lia.
Qed.
Lemma exec_CallCode f f1 to cost : frame_ok f1 -> fevolves f f1 -> room (f_gas f) (f_evm f) -> sdb_refund (f_state f1) <= sdb_refund (f_state f) -> f_gas f <= n -> 7 <= sLen f1 ->
  f_stack f1 !! 1%nat = Some to -> f_gas f1 + cost < f_gas f -> call_cost (valueBase (f_stack f1)) (Bytes20 to) cost (f_evm f1) ->
  region 5 6 (f_stack f1) (f_mem f1) /\ region 3 4 (f_stack f1) (f_mem f1) -> vwp (opCallCode m) f1 (call_outcome f).
Proof.
  intros Hf1 He Hroom Hr Hn Hlen Hto Hcost (Ht0 & Ht & Hwarm) [Hret Hin]. destruct (stack7 f1 Hf1 Hlen) as (x1 & x2 & v & io & sz & ro & rs & st & Hst & Hw & Hwro & Hv).
  rewrite Hst in Hto, Hret, Hin, Ht. injection Hto as <-. destruct (Hret ro rs eq_refl eq_refl) as [_ Hret']. destruct (Hin io sz eq_refl eq_refl) as [_ Hin'].
  destruct (mem_GetPtr_ok _ io sz Hin' (fr_mem _ Hf1)) as (args & Hargs & Hal). unfold valueBase in Ht. cbn [lookup list_lookup default from_option id] in Ht.
  destruct (popped_ok f f1 st Hf1 Hw He) as [Hf2 He2]. set (f2 := set_f_stack st f1) in *. pose proof (frame_gas f1 Hf1) as Hg1. pose proof Hroom as [Hgf _].
  unfold opCallCode, callGasTemp. vsteps. eapply mem_get_ok; [exact Hargs|]. unfold self. vsteps.
  pose proof (stipend_ok v (evm_callGasTemp (f_evm f1)) cost Ht0 Ht ltac:(lia)) as Hg. cbv zeta in Hg. apply liftEVM_ok.
  change (f_evm (set_f_stack _ _)) with (f_evm f1). set (g := if negb (v =? 0) then _ else _) in *.
  eapply vwp_mono; [apply (CallCode_ok n m Hm); [apply (callable_frame f f1); (done || lia)|apply (fr_warm _ Hf1)]|].
  intros r e [Hev _]. apply (afterCall_ok f f2 g); try done. change (f_gas f1 + g < f_gas f). lia.
Qed.
Lemma exec_DelegateCall f f1 to cost : frame_ok f1 -> fevolves f f1 -> room (f_gas f) (f_evm f) -> sdb_refund (f_state f1) <= sdb_refund (f_state f) -> f_gas f <= n -> 6 <= sLen f1 ->
  f_stack f1 !! 1%nat = Some to -> f_gas f1 + cost < f_gas f -> call_cost (noBase (f_stack f1)) (Bytes20 to) cost (f_evm f1) ->
  region 4 5 (f_stack f1) (f_mem f1) /\ region 2 3 (f_stack f1) (f_mem f1) -> vwp (opDelegateCall m) f1 (call_outcome f).
Proof.
  intros Hf1 He Hroom Hr Hn Hlen Hto Hcost (Ht0 & Ht & Hwarm) [Hret Hin]. destruct (stack6 f1 Hf1 Hlen) as (x1 & x2 & io & sz & ro & rs & st & Hst & Hw & Hwro).
  rewrite Hst in Hto, Hret, Hin. injection Hto as <-. destruct (Hret ro rs eq_refl eq_refl) as [_ Hret']. destruct (Hin io sz eq_refl eq_refl) as [_ Hin'].
  destruct (mem_GetPtr_ok _ io sz Hin' (fr_mem _ Hf1)) as (args & Hargs & Hal). unfold noBase in Ht.
  destruct (popped_ok f f1 st Hf1 Hw He) as [Hf2 He2]. set (f2 := set_f_stack st f1) in *. pose proof (frame_gas f1 Hf1) as Hg1.
  unfold opDelegateCall, callGasTemp. vsteps. eapply mem_get_ok; [exact Hargs|]. unfold self. vsteps. apply liftEVM_ok.
  change (f_evm (set_f_stack _ _)) with (f_evm f1). set (g := evm_callGasTemp (f_evm f1)) in *.
  eapply vwp_mono; [apply (DelegateCall_ok n m Hm); [apply (callable_frame f f1); (done || lia)|apply (fr_warm _ Hf1)]|].
  intros r e [Hev _]. apply (afterCall_ok f f2 g); try done. change (f_gas f1 + g < f_gas f). lia.
Qed.
Lemma exec_StaticCall f f1 to cost : frame_ok f1 -> fevolves f f1 -> room (f_gas f) (f_evm f) -> sdb_refund (f_state f1) <= sdb_refund (f_state f) -> f_gas f <= n -> 6 <= sLen f1 ->
  f_stack f1 !! 1%nat = Some to -> f_gas f1 + cost < f_gas f -> call_cost (noBase (f_stack f1)) (Bytes20 to) cost (f_evm f1) ->
  region 4 5 (f_stack f1) (f_mem f1) /\ region 2 3 (f_stack f1) (f_mem f1) -> vwp (opStaticCall m) f1 (call_outcome f).
Proof.
  intros Hf1 He Hroom Hr Hn Hlen Hto Hcost (Ht0 & Ht & Hwarm) [Hret Hin]. destruct (stack6 f1 Hf1 Hlen) as (x1 & x2 & io & sz & ro & rs & st & Hst & Hw & Hwro).
  rewrite Hst in Hto, Hret, Hin. injection Hto as <-. destruct (Hret ro rs eq_refl eq_refl) as [_ Hret']. destruct (Hin io sz eq_refl eq_refl) as [_ Hin'].
  destruct (mem_GetPtr_ok _ io sz Hin' (fr_mem _ Hf1)) as (args & Hargs & Hal). unfold noBase in Ht.
  destruct (popped_ok f f1 st Hf1 Hw He) as [Hf2 He2]. set (f2 := set_f_stack st f1) in *. pose proof (frame_gas f1 Hf1) as Hg1.
  unfold opStaticCall, callGasTemp. vsteps. eapply mem_get_ok; [exact Hargs|]. unfold self. vsteps. apply liftEVM_ok.
  change (f_evm (set_f_stack _ _)) with (f_evm f1). set (g := evm_callGasTemp (f_evm f1)) in *.
  eapply vwp_mono; [apply (StaticCall_ok n m Hm); [apply (callable_frame f f1); (done || lia)|exact Hwarm]|].
  intros r e [Hev _]. apply (afterCall_ok f f2 g); try done. change (f_gas f1 + g < f_gas f). lia.
Qed.

(** ** Creating contracts *)

Lemma evolves_add k g e g' e' : 0 <= k -> evolves g e g' e' -> evolves (k + g) e (k + g') e'.
Proof. intros Hk []. split; [done|done|lia|lia|done]. Qed.

(** What the two operations do with the result. *)
Lemma exec_created f g (ret : bytes) g' (b : bool) e x : frame_ok f -> 0 <= g <= f_gas f -> evolves g (f_evm f) g' e ->
  vwp (push x;; giveBack g';; (if b then setReturnData ret;; mret (ret, None) else setReturnData [];; proceed))
    (set_f_evm e (set_f_gas (f_gas f - g) f)) (exec_post f).
Proof.
  intros Hf Hg Hev. pose proof (frame_gas f Hf) as Hgf. pose proof (evolves_gas _ _ _ _ Hev) as Hg'. unfold giveBack, setReturnData, proceed. vsteps.
  set (f1 := set_f_stack _ _). change (f_gas f1) with (f_gas f - g). rewrite u64_small by lia.
  assert (forall d, let e' := set_evm_returnData d e in exec_post f (d, None) (set_f_evm e' (set_f_gas (f_gas f - g + g') f1))) as Hend.
  { intros d e'. pose proof (evolves_trans _ _ _ _ _ _ Hev (evolves_returnData g' e d ltac:(lia) (evolves_ok _ _ _ _ Hev))) as Hev2.
    apply (evolves_add (f_gas f - g)) in Hev2; [|lia]. replace (f_gas f - g + g) with (f_gas f) in Hev2 by lia. apply exec_ok; [|exact Hev2].
    assert (Forall word (f_stack f1)) as Hst by (constructor; [apply u256_word|apply Hf]). exact (frame_evm_ok _ _ _ (frame_stack_ok f _ Hf Hst) Hev2). }
  destruct b; vsteps; apply Hend.
Qed.

Lemma create_gas g : 0 <= g -> 0 <= g - g / 64 <= g.
Proof. intros Hg. pose proof (Z.div_pos g 64). pose proof (Z.div_le_upper_bound g 64 g). lia. Qed.
Lemma callable_own f g args : frame_ok f -> f_gas f < n -> 0 <= g <= f_gas f -> Z.of_nat (length args) <= mem_Len (f_mem f) -> callable n g args (f_evm f).
Proof. intros Hf Hn Hg Ha. pose proof (frame_gas f Hf). pose proof (fr_mem _ Hf). destruct (fr_room _ Hf). split; [apply Hf|lia|split; lia|lia]. Qed.
Lemma useGas_ok g f (Q : bool -> Frame -> Prop) : g <= f_gas f -> Q true (set_f_gas (f_gas f - g) f) -> vwp (useGas g) f Q.
Proof. intros Hg HQ. unfold vwp, useGas, UseGas. fold (f_gas f). destruct (Z.ltb_spec (f_gas f) g); [lia|exact HQ]. Qed.

Lemma exec_Create f : frame_ok f -> 3 <= sLen f -> f_gas f < n -> region 1 2 (f_stack f) (f_mem f) -> vwp (opCreate env m) f (exec_post f).
Proof.
  intros Hf Hlen Hn Hr. destruct (stack3 f Hf Hlen) as (v & off & size & st & Hst & Hv & _ & _ & Hw). rewrite Hst in Hr. destruct (Hr off size eq_refl eq_refl) as [_ Hin].
  destruct (mem_GetCopy_ok _ off size Hin (fr_mem _ Hf)) as (input & Hi & Hil). unfold opCreate, readOnly. vsteps. destruct (evm_readOnly (f_evm f)); [by apply exec_err, fevolves_refl|].
  vsteps. eapply mem_get_ok; [exact Hi|]. unfold contractGas, self. vsteps. rewrite (env_eip150 _ _ Henv), (env_homestead _ _ Henv). set (f1 := set_f_stack st f). change (f_gas (set_f_stack _ _)) with (f_gas f1).
  assert (frame_ok f1) as Hf1 by (by apply frame_stack_ok). pose proof (create_gas (f_gas f1) ltac:(by apply frame_gas)) as Hg. set (g := f_gas f1 - f_gas f1 / 64) in *.
  apply (useGas_ok g f1); [lia|]. vsteps. apply liftEVM_ok. change (f_evm (set_f_gas _ f1)) with (f_evm f1).
  eapply vwp_mono; [apply (Create_ok n m Hm); [apply (callable_own f1); [done|exact Hn|done|exact Hil]|exact Hv]|]. intros [[[ret addr] g'] err] e Hev. cbn [fst snd] in Hev. 
  eapply vwp_mono; [apply (exec_created f1 g ret g' (bool_decide (err = Some ErrExecutionReverted)) e _ Hf1 Hg Hev)|]. intros r f'. apply (exec_under f f1). by apply (fevolves_refl f).
Qed.
Lemma exec_Create2 f : frame_ok f -> 4 <= sLen f -> f_gas f < n -> region 1 2 (f_stack f) (f_mem f) -> vwp (opCreate2 m) f (exec_post f).
Proof.
  intros Hf Hlen Hn Hr. destruct (stack4 f Hf Hlen) as (v & off & size & salt & st & Hst & Hv & _ & _ & _ & Hw). rewrite Hst in Hr. destruct (Hr off size eq_refl eq_refl) as [_ Hin].
  destruct (mem_GetCopy_ok _ off size Hin (fr_mem _ Hf)) as (input & Hi & Hil). unfold opCreate2, readOnly. vsteps. destruct (evm_readOnly (f_evm f)); [by apply exec_err, fevolves_refl|].
  vsteps. eapply mem_get_ok; [exact Hi|]. unfold contractGas, self. vsteps. set (f1 := set_f_stack st f). change (f_gas (set_f_stack _ _)) with (f_gas f1).
  assert (frame_ok f1) as Hf1 by (by apply frame_stack_ok). pose proof (create_gas (f_gas f1) ltac:(by apply frame_gas)) as Hg. set (g := f_gas f1 - f_gas f1 / 64) in *.
  apply (useGas_ok g f1); [lia|]. vsteps. apply liftEVM_ok. change (f_evm (set_f_gas _ f1)) with (f_evm f1).
  eapply vwp_mono; [apply (Create2_ok n m Hm); [apply (callable_own f1); [done|exact Hn|done|exact Hil]|exact Hv]|]. intros [[[ret addr] g'] err] e Hev. cbn [fst snd] in Hev. 
  eapply vwp_mono; [apply (exec_created f1 g ret g' (bool_decide (err = Some ErrExecutionReverted)) e _ Hf1 Hg Hev)|]. intros r f'. apply (exec_under f f1). by apply (fevolves_refl f).
Qed.
End calls.
