(* ===== verification/VmSafe.v ===== *)
(** The machine on an Anzeon chain never panics, never runs longer than its gas allows,
    and never makes gas: the table of operations, and the theorems about whole runs. *)
From S2P Require Import Prelude Validators AccountExtra Messages Config Rlp RlpStream Extra ChainConfig Forks StateJournal JournalProps JournalRuns JournalFrames VmAnalysis VmState VmGas VmOps NativeManager Evm VmTable VmSpec VmSimple VmMemory VmStore VmCalls VmCallOps.

(** * The table *)

Section table.
Context `{Crypto} {adapter : Address} `{!Ledger adapter} `{Uint256} (env : Env).

(** The operations that [newAnzeonInstructionSet] ends up with. *)
Definition anzeonOperations : list (Z * operation) :=
  [(STOP, mkOperation (fun _ => opStop) 0 None (minStack 0 0) (maxStack 0 0) None);
   (ADD, mkOperation (fun _ => opAdd) GasFastestStep None (minStack 2 1) (maxStack 2 1) None);
   (MUL, mkOperation (fun _ => opMul) GasFastStep None (minStack 2 1) (maxStack 2 1) None);
   (SUB, mkOperation (fun _ => opSub) GasFastestStep None (minStack 2 1) (maxStack 2 1) None);
   (DIV, mkOperation (fun _ => opDiv) GasFastStep None (minStack 2 1) (maxStack 2 1) None);
   (SDIV, mkOperation (fun _ => opSdiv) GasFastStep None (minStack 2 1) (maxStack 2 1) None);
   (MOD, mkOperation (fun _ => opMod) GasFastStep None (minStack 2 1) (maxStack 2 1) None);
   (SMOD, mkOperation (fun _ => opSmod) GasFastStep None (minStack 2 1) (maxStack 2 1) None);
   (ADDMOD, mkOperation (fun _ => opAddmod) GasMidStep None (minStack 3 1) (maxStack 3 1) None);
   (MULMOD, mkOperation (fun _ => opMulmod) GasMidStep None (minStack 3 1) (maxStack 3 1) None);
   (EXP, mkOperation (fun _ => opExp) 0 (Some gasExpEIP158) (minStack 2 1) (maxStack 2 1) None);
   (SIGNEXTEND, mkOperation (fun _ => opSignExtend) GasFastStep None (minStack 2 1) (maxStack 2 1) None);
   (LT, mkOperation (fun _ => opLt) GasFastestStep None (minStack 2 1) (maxStack 2 1) None);
   (GT, mkOperation (fun _ => opGt) GasFastestStep None (minStack 2 1) (maxStack 2 1) None);
   (SLT, mkOperation (fun _ => opSlt) GasFastestStep None (minStack 2 1) (maxStack 2 1) None);
   (SGT, mkOperation (fun _ => opSgt) GasFastestStep None (minStack 2 1) (maxStack 2 1) None);
   (EQ, mkOperation (fun _ => opEq) GasFastestStep None (minStack 2 1) (maxStack 2 1) None);
   (ISZERO, mkOperation (fun _ => opIszero) GasFastestStep None (minStack 1 1) (maxStack 1 1) None);
   (AND, mkOperation (fun _ => opAnd) GasFastestStep None (minStack 2 1) (maxStack 2 1) None);
   (XOR, mkOperation (fun _ => opXor) GasFastestStep None (minStack 2 1) (maxStack 2 1) None);
   (OR, mkOperation (fun _ => opOr) GasFastestStep None (minStack 2 1) (maxStack 2 1) None);
   (NOT, mkOperation (fun _ => opNot) GasFastestStep None (minStack 1 1) (maxStack 1 1) None);
   (BYTE, mkOperation (fun _ => opByte) GasFastestStep None (minStack 2 1) (maxStack 2 1) None);
   (KECCAK256, mkOperation (fun _ => opKeccak256 env) Keccak256Gas (Some gasKeccak256) (minStack 2 1) (maxStack 2 1) (Some memoryKeccak256));
   (ADDRESS, mkOperation (fun _ => opAddress) GasQuickStep None (minStack 0 1) (maxStack 0 1) None);
   (BALANCE, mkOperation (fun _ => opBalance) WarmStorageReadCostEIP2929 (Some gasEip2929AccountCheck) (minStack 1 1) (maxStack 1 1) None);
   (ORIGIN, mkOperation (fun _ => opOrigin env) GasQuickStep None (minStack 0 1) (maxStack 0 1) None);
   (CALLER, mkOperation (fun _ => opCaller) GasQuickStep None (minStack 0 1) (maxStack 0 1) None);
   (CALLVALUE, mkOperation (fun _ => opCallValue) GasQuickStep None (minStack 0 1) (maxStack 0 1) None);
   (CALLDATALOAD, mkOperation (fun _ => opCallDataLoad) GasFastestStep None (minStack 1 1) (maxStack 1 1) None);
   (CALLDATASIZE, mkOperation (fun _ => opCallDataSize) GasQuickStep None (minStack 0 1) (maxStack 0 1) None);
   (CALLDATACOPY, mkOperation (fun _ => opCallDataCopy) GasFastestStep (Some gasCallDataCopy) (minStack 3 0) (maxStack 3 0) (Some memoryCallDataCopy));
   (CODESIZE, mkOperation (fun _ => opCodeSize) GasQuickStep None (minStack 0 1) (maxStack 0 1) None);
   (CODECOPY, mkOperation (fun _ => opCodeCopy) GasFastestStep (Some gasCodeCopy) (minStack 3 0) (maxStack 3 0) (Some memoryCodeCopy));
   (GASPRICE, mkOperation (fun _ => opGasprice env) GasQuickStep None (minStack 0 1) (maxStack 0 1) None);
   (EXTCODESIZE, mkOperation (fun _ => opExtCodeSize) WarmStorageReadCostEIP2929 (Some gasEip2929AccountCheck) (minStack 1 1) (maxStack 1 1) None);
   (EXTCODECOPY, mkOperation (fun _ => opExtCodeCopy) WarmStorageReadCostEIP2929 (Some gasExtCodeCopyEIP2929) (minStack 4 0) (maxStack 4 0) (Some memoryExtCodeCopy));
   (BLOCKHASH, mkOperation (fun _ => opBlockhash env) GasExtStep None (minStack 1 1) (maxStack 1 1) None);
   (COINBASE, mkOperation (fun _ => opCoinbase env) GasQuickStep None (minStack 0 1) (maxStack 0 1) None);
   (TIMESTAMP, mkOperation (fun _ => opTimestamp env) GasQuickStep None (minStack 0 1) (maxStack 0 1) None);
   (NUMBER, mkOperation (fun _ => opNumber env) GasQuickStep None (minStack 0 1) (maxStack 0 1) None);
   (PREVRANDAO, mkOperation (fun _ => opRandom env) GasQuickStep None (minStack 0 1) (maxStack 0 1) None);
   (GASLIMIT, mkOperation (fun _ => opGasLimit env) GasQuickStep None (minStack 0 1) (maxStack 0 1) None);
   (POP, mkOperation (fun _ => opPop) GasQuickStep None (minStack 1 0) (maxStack 1 0) None);
   (MLOAD, mkOperation (fun _ => opMload) GasFastestStep (Some gasMLoad) (minStack 1 1) (maxStack 1 1) (Some memoryMLoad));
   (MSTORE, mkOperation (fun _ => opMstore) GasFastestStep (Some gasMStore) (minStack 2 0) (maxStack 2 0) (Some memoryMStore));
   (MSTORE8, mkOperation (fun _ => opMstore8) GasFastestStep (Some gasMStore8) (minStack 2 0) (maxStack 2 0) (Some memoryMStore8));
   (SLOAD, mkOperation (fun _ => opSload) 0 (Some gasSLoadEIP2929) (minStack 1 1) (maxStack 1 1) None);
   (SSTORE, mkOperation (fun _ => opSstore) 0 (Some gasSStoreEIP3529) (minStack 2 0) (maxStack 2 0) None);
   (JUMP, mkOperation (fun _ => opJump env) GasMidStep None (minStack 1 0) (maxStack 1 0) None);
   (JUMPI, mkOperation (fun _ => opJumpi env) GasSlowStep None (minStack 2 0) (maxStack 2 0) None);
   (PC, mkOperation (fun _ => opPc) GasQuickStep None (minStack 0 1) (maxStack 0 1) None);
   (MSIZE, mkOperation (fun _ => opMsize) GasQuickStep None (minStack 0 1) (maxStack 0 1) None);
   (GAS, mkOperation (fun _ => opGas) GasQuickStep None (minStack 0 1) (maxStack 0 1) None);
   (JUMPDEST, mkOperation (fun _ => opJumpdest) JumpdestGas None (minStack 0 0) (maxStack 0 0) None);
   (PUSH1, mkOperation (fun _ => opPush1) GasFastestStep None (minStack 0 1) (maxStack 0 1) None);
   (PUSH2, mkOperation (fun _ => makePush 2 2) GasFastestStep None (minStack 0 1) (maxStack 0 1) None);
   (PUSH3, mkOperation (fun _ => makePush 3 3) GasFastestStep None (minStack 0 1) (maxStack 0 1) None);
   (PUSH4, mkOperation (fun _ => makePush 4 4) GasFastestStep None (minStack 0 1) (maxStack 0 1) None);
   (PUSH5, mkOperation (fun _ => makePush 5 5) GasFastestStep None (minStack 0 1) (maxStack 0 1) None);
   (PUSH6, mkOperation (fun _ => makePush 6 6) GasFastestStep None (minStack 0 1) (maxStack 0 1) None);
   (PUSH7, mkOperation (fun _ => makePush 7 7) GasFastestStep None (minStack 0 1) (maxStack 0 1) None);
   (PUSH8, mkOperation (fun _ => makePush 8 8) GasFastestStep None (minStack 0 1) (maxStack 0 1) None);
   (PUSH9, mkOperation (fun _ => makePush 9 9) GasFastestStep None (minStack 0 1) (maxStack 0 1) None);
   (PUSH10, mkOperation (fun _ => makePush 10 10) GasFastestStep None (minStack 0 1) (maxStack 0 1) None);
   (PUSH11, mkOperation (fun _ => makePush 11 11) GasFastestStep None (minStack 0 1) (maxStack 0 1) None);
   (PUSH12, mkOperation (fun _ => makePush 12 12) GasFastestStep None (minStack 0 1) (maxStack 0 1) None);
   (PUSH13, mkOperation (fun _ => makePush 13 13) GasFastestStep None (minStack 0 1) (maxStack 0 1) None);
   (PUSH14, mkOperation (fun _ => makePush 14 14) GasFastestStep None (minStack 0 1) (maxStack 0 1) None);
   (PUSH15, mkOperation (fun _ => makePush 15 15) GasFastestStep None (minStack 0 1) (maxStack 0 1) None);
   (PUSH16, mkOperation (fun _ => makePush 16 16) GasFastestStep None (minStack 0 1) (maxStack 0 1) None);
   (PUSH17, mkOperation (fun _ => makePush 17 17) GasFastestStep None (minStack 0 1) (maxStack 0 1) None);
   (PUSH18, mkOperation (fun _ => makePush 18 18) GasFastestStep None (minStack 0 1) (maxStack 0 1) None);
   (PUSH19, mkOperation (fun _ => makePush 19 19) GasFastestStep None (minStack 0 1) (maxStack 0 1) None);
   (PUSH20, mkOperation (fun _ => makePush 20 20) GasFastestStep None (minStack 0 1) (maxStack 0 1) None);
   (PUSH21, mkOperation (fun _ => makePush 21 21) GasFastestStep None (minStack 0 1) (maxStack 0 1) None);
   (PUSH22, mkOperation (fun _ => makePush 22 22) GasFastestStep None (minStack 0 1) (maxStack 0 1) None);
   (PUSH23, mkOperation (fun _ => makePush 23 23) GasFastestStep None (minStack 0 1) (maxStack 0 1) None);
   (PUSH24, mkOperation (fun _ => makePush 24 24) GasFastestStep None (minStack 0 1) (maxStack 0 1) None);
   (PUSH25, mkOperation (fun _ => makePush 25 25) GasFastestStep None (minStack 0 1) (maxStack 0 1) None);
   (PUSH26, mkOperation (fun _ => makePush 26 26) GasFastestStep None (minStack 0 1) (maxStack 0 1) None);
   (PUSH27, mkOperation (fun _ => makePush 27 27) GasFastestStep None (minStack 0 1) (maxStack 0 1) None);
   (PUSH28, mkOperation (fun _ => makePush 28 28) GasFastestStep None (minStack 0 1) (maxStack 0 1) None);
   (PUSH29, mkOperation (fun _ => makePush 29 29) GasFastestStep None (minStack 0 1) (maxStack 0 1) None);
   (PUSH30, mkOperation (fun _ => makePush 30 30) GasFastestStep None (minStack 0 1) (maxStack 0 1) None);
   (PUSH31, mkOperation (fun _ => makePush 31 31) GasFastestStep None (minStack 0 1) (maxStack 0 1) None);
   (PUSH32, mkOperation (fun _ => makePush 32 32) GasFastestStep None (minStack 0 1) (maxStack 0 1) None);
   (DUP1, mkOperation (fun _ => makeDup 1) GasFastestStep None (minDupStack 1) (maxDupStack 1) None);
   (DUP2, mkOperation (fun _ => makeDup 2) GasFastestStep None (minDupStack 2) (maxDupStack 2) None);
   (DUP3, mkOperation (fun _ => makeDup 3) GasFastestStep None (minDupStack 3) (maxDupStack 3) None);
   (DUP4, mkOperation (fun _ => makeDup 4) GasFastestStep None (minDupStack 4) (maxDupStack 4) None);
   (DUP5, mkOperation (fun _ => makeDup 5) GasFastestStep None (minDupStack 5) (maxDupStack 5) None);
   (DUP6, mkOperation (fun _ => makeDup 6) GasFastestStep None (minDupStack 6) (maxDupStack 6) None);
   (DUP7, mkOperation (fun _ => makeDup 7) GasFastestStep None (minDupStack 7) (maxDupStack 7) None);
   (DUP8, mkOperation (fun _ => makeDup 8) GasFastestStep None (minDupStack 8) (maxDupStack 8) None);
   (DUP9, mkOperation (fun _ => makeDup 9) GasFastestStep None (minDupStack 9) (maxDupStack 9) None);
   (DUP10, mkOperation (fun _ => makeDup 10) GasFastestStep None (minDupStack 10) (maxDupStack 10) None);
   (DUP11, mkOperation (fun _ => makeDup 11) GasFastestStep None (minDupStack 11) (maxDupStack 11) None);
   (DUP12, mkOperation (fun _ => makeDup 12) GasFastestStep None (minDupStack 12) (maxDupStack 12) None);
   (DUP13, mkOperation (fun _ => makeDup 13) GasFastestStep None (minDupStack 13) (maxDupStack 13) None);
   (DUP14, mkOperation (fun _ => makeDup 14) GasFastestStep None (minDupStack 14) (maxDupStack 14) None);
   (DUP15, mkOperation (fun _ => makeDup 15) GasFastestStep None (minDupStack 15) (maxDupStack 15) None);
   (DUP16, mkOperation (fun _ => makeDup 16) GasFastestStep None (minDupStack 16) (maxDupStack 16) None);
   (SWAP1, mkOperation (fun _ => makeSwap 1) GasFastestStep None (minSwapStack 2) (maxSwapStack 2) None);
   (SWAP2, mkOperation (fun _ => makeSwap 2) GasFastestStep None (minSwapStack 3) (maxSwapStack 3) None);
   (SWAP3, mkOperation (fun _ => makeSwap 3) GasFastestStep None (minSwapStack 4) (maxSwapStack 4) None);
   (SWAP4, mkOperation (fun _ => makeSwap 4) GasFastestStep None (minSwapStack 5) (maxSwapStack 5) None);
   (SWAP5, mkOperation (fun _ => makeSwap 5) GasFastestStep None (minSwapStack 6) (maxSwapStack 6) None);
   (SWAP6, mkOperation (fun _ => makeSwap 6) GasFastestStep None (minSwapStack 7) (maxSwapStack 7) None);
   (SWAP7, mkOperation (fun _ => makeSwap 7) GasFastestStep None (minSwapStack 8) (maxSwapStack 8) None);
   (SWAP8, mkOperation (fun _ => makeSwap 8) GasFastestStep None (minSwapStack 9) (maxSwapStack 9) None);
   (SWAP9, mkOperation (fun _ => makeSwap 9) GasFastestStep None (minSwapStack 10) (maxSwapStack 10) None);
   (SWAP10, mkOperation (fun _ => makeSwap 10) GasFastestStep None (minSwapStack 11) (maxSwapStack 11) None);
   (SWAP11, mkOperation (fun _ => makeSwap 11) GasFastestStep None (minSwapStack 12) (maxSwapStack 12) None);
   (SWAP12, mkOperation (fun _ => makeSwap 12) GasFastestStep None (minSwapStack 13) (maxSwapStack 13) None);
   (SWAP13, mkOperation (fun _ => makeSwap 13) GasFastestStep None (minSwapStack 14) (maxSwapStack 14) None);
   (SWAP14, mkOperation (fun _ => makeSwap 14) GasFastestStep None (minSwapStack 15) (maxSwapStack 15) None);
   (SWAP15, mkOperation (fun _ => makeSwap 15) GasFastestStep None (minSwapStack 16) (maxSwapStack 16) None);
   (SWAP16, mkOperation (fun _ => makeSwap 16) GasFastestStep None (minSwapStack 17) (maxSwapStack 17) None);
   (LOG0, mkOperation (fun _ => makeLog env 0) 0 (Some (makeGasLog 0)) (minStack 2 0) (maxStack 2 0) (Some memoryLog));
   (LOG1, mkOperation (fun _ => makeLog env 1) 0 (Some (makeGasLog 1)) (minStack 3 0) (maxStack 3 0) (Some memoryLog));
   (LOG2, mkOperation (fun _ => makeLog env 2) 0 (Some (makeGasLog 2)) (minStack 4 0) (maxStack 4 0) (Some memoryLog));
   (LOG3, mkOperation (fun _ => makeLog env 3) 0 (Some (makeGasLog 3)) (minStack 5 0) (maxStack 5 0) (Some memoryLog));
   (LOG4, mkOperation (fun _ => makeLog env 4) 0 (Some (makeGasLog 4)) (minStack 6 0) (maxStack 6 0) (Some memoryLog));
   (CREATE, mkOperation (opCreate env) CreateGas (Some gasCreateEip3860) (minStack 3 1) (maxStack 3 1) (Some memoryCreate));
   (CALL, mkOperation opCall WarmStorageReadCostEIP2929 (Some (gasCallEIP7702 env)) (minStack 7 1) (maxStack 7 1) (Some memoryCall));
   (CALLCODE, mkOperation opCallCode WarmStorageReadCostEIP2929 (Some (gasCallCodeEIP7702 env)) (minStack 7 1) (maxStack 7 1) (Some memoryCall));
   (RETURN, mkOperation (fun _ => opReturn) 0 (Some gasReturn) (minStack 2 0) (maxStack 2 0) (Some memoryReturn));
   (SELFDESTRUCT, mkOperation (fun _ => opSelfdestruct6780 env) SelfdestructGasEIP150 (Some gasSelfdestructEIP3529) (minStack 1 0) (maxStack 1 0) None);
   (DELEGATECALL, mkOperation opDelegateCall WarmStorageReadCostEIP2929 (Some (gasDelegateCallEIP7702 env)) (minStack 6 1) (maxStack 6 1) (Some memoryDelegateCall));
   (REVERT, mkOperation (fun _ => opRevert) 0 (Some gasRevert) (minStack 2 0) (maxStack 2 0) (Some memoryRevert));
   (RETURNDATACOPY, mkOperation (fun _ => opReturnDataCopy) GasFastestStep (Some gasReturnDataCopy) (minStack 3 0) (maxStack 3 0) (Some memoryReturnDataCopy));
   (RETURNDATASIZE, mkOperation (fun _ => opReturnDataSize) GasQuickStep None (minStack 0 1) (maxStack 0 1) None);
   (STATICCALL, mkOperation opStaticCall WarmStorageReadCostEIP2929 (Some (gasStaticCallEIP7702 env)) (minStack 6 1) (maxStack 6 1) (Some memoryStaticCall));
   (CREATE2, mkOperation opCreate2 Create2Gas (Some gasCreate2Eip3860) (minStack 4 1) (maxStack 4 1) (Some memoryCreate2));
   (EXTCODEHASH, mkOperation (fun _ => opExtCodeHash) WarmStorageReadCostEIP2929 (Some gasEip2929AccountCheck) (minStack 1 1) (maxStack 1 1) None);
   (SAR, mkOperation (fun _ => opSAR) GasFastestStep None (minStack 2 1) (maxStack 2 1) None);
   (SHR, mkOperation (fun _ => opSHR) GasFastestStep None (minStack 2 1) (maxStack 2 1) None);
   (SHL, mkOperation (fun _ => opSHL) GasFastestStep None (minStack 2 1) (maxStack 2 1) None);
   (SELFBALANCE, mkOperation (fun _ => opSelfBalance) GasFastStep None (minStack 0 1) (maxStack 0 1) None);
   (CHAINID, mkOperation (fun _ => opChainID env) GasQuickStep None (minStack 0 1) (maxStack 0 1) None);
   (BASEFEE, mkOperation (fun _ => opBaseFee env) GasQuickStep None (minStack 0 1) (maxStack 0 1) None);
   (TSTORE, mkOperation (fun _ => opTstore) WarmStorageReadCostEIP2929 None (minStack 2 0) (maxStack 2 0) None);
   (TLOAD, mkOperation (fun _ => opTload) WarmStorageReadCostEIP2929 None (minStack 1 1) (maxStack 1 1) None);
   (PUSH0, mkOperation (fun _ => opPush0) GasQuickStep None (minStack 0 1) (maxStack 0 1) None);
   (MCOPY, mkOperation (fun _ => opMcopy) GasFastestStep (Some gasMcopy) (minStack 3 0) (maxStack 3 0) (Some memoryMcopy))].

Definition opcodes : list Z := anzeonOperations.*1.

Lemma jt_set_other op x jt i : i <> op -> jt_set op x jt i = jt i.
Proof. intros Hi. unfold jt_set. by destruct (Z.eqb_spec i op). Qed.
Lemma jt_update_other op g jt i : i <> op -> jt_update op g jt i = jt i.
Proof. intros Hi. unfold jt_update. by destruct (Z.eqb_spec i op). Qed.

Lemma anzeon_defined op o : (op, o) ∈ anzeonOperations -> newAnzeonInstructionSet env op = o.
Proof.
  assert (Forall (fun e : Z * operation => newAnzeonInstructionSet env e.1 = e.2) anzeonOperations) as Hall.
  { unfold anzeonOperations. repeat (apply Forall_cons_2; [reflexivity|]). apply Forall_nil_2. }
  rewrite Forall_forall in Hall. apply Hall.
Qed.

Lemma anzeon_undefined op : op ∉ opcodes -> newAnzeonInstructionSet env op = undefinedOperation.
Proof.
  intros Hop. assert (forall k, existsb (Z.eqb k) opcodes = true -> op <> k) as Hne.
  { intros k Hk ->. apply Hop. apply existsb_exists in Hk as (x & Hx & ->%Z.eqb_eq). by apply list_elem_of_In. }
  assert (newAnzeonInstructionSet env op = newFrontierInstructionSet env op) as ->.
  { repeat (etransitivity; [first [apply jt_update_other|apply jt_set_other]; apply Hne; reflexivity|]). reflexivity. }
  unfold newFrontierInstructionSet. destruct (List.find _ _) as [e|] eqn:Hf; [|done]. apply find_some in Hf as [Hin Heq%Z.eqb_eq]. exfalso. revert Heq.
  apply Hne. assert (Forall (fun e : Z * operation => existsb (Z.eqb e.1) opcodes = true) (frontierOperations env)) as Hall.
  { unfold frontierOperations. repeat (apply Forall_cons_2; [reflexivity|]). apply Forall_nil_2. }
  rewrite Forall_forall in Hall. apply Hall. by apply list_elem_of_In.
Qed.
End table.

(** * Every operation keeps the invariants *)

Section operations.
Context `{Crypto} {adapter : Address} `{!Ledger adapter} `{Uint256} `{!CollisionFree} (env : Env) (Henv : anzeon_env adapter env) (m : Machine) (n : Z) (Hm : machine_ok n m).

(** Runs that cannot fail in a way that matters here: the operation costs something. *)
Lemma exec_paid execute f c : 0 < c -> vwp execute f (exec_post f) -> vwp execute f (fun r f' => exec_post f r f' /\ (r.2 = None -> 0 < c)).
Proof. intros Hc Hx. eapply vwp_mono; [exact Hx|]. by intros. Qed.
Lemma exec_ends execute f c : vwp execute f (fun r f' => exec_post f r f' /\ r.2 <> None) -> vwp execute f (fun r f' => exec_post f r f' /\ (r.2 = None -> 0 < c)).
Proof. intros Hx. eapply vwp_mono; [exact Hx|]. intros r f' [? ?]. by split. Qed.

Ltac stack_plain :=
  apply plain_ok; [done|intros f Hf Hin Hlen; cbn in Hlen; unfold minDupStack, minSwapStack, minStack in Hlen];
  first
    [ apply exec_binary; [done|lia] | apply exec_unary; [done|lia] | apply exec_ternary; [done|lia] | by apply exec_pushes | by apply exec_pushed
    | apply exec_pop; [done|lia] | apply exec_dup; [done|lia] | apply exec_swap; [done|lia] | by apply exec_Push1 | by apply exec_Push
    | apply exec_CallDataLoad; [done|lia] | apply exec_Blockhash; [done|lia] | by apply exec_Random | by apply exec_BaseFee | by apply exec_ChainID
    | apply exec_Jump; [done|lia] | apply exec_Jumpi; [done|lia] | apply exec_Tload; [done|lia] | apply exec_Tstore; [done|lia]
    | by apply exec_ok, fevolves_refl ].
Ltac needs_stack := intros f Hf Hlen; cbn in Hlen; unfold minStack in Hlen.

(** Operations on memory, by the regions that they name. *)
Lemma copy_ok execute gf const lo hi : 0 < const -> 3 <= lo ->
  (forall f k, frame_ok f -> lo <= sLen f -> vwp (gf k) f (gas_post 0 k f)) ->
  (forall f, frame_ok f -> 3 <= sLen f -> region 0 2 (f_stack f) (f_mem f) -> vwp execute f (exec_post f)) ->
  operation_ok m n false (mkOperation (fun _ => execute) const (Some gf) lo hi (Some (memSize 0 2))).
Proof.
  intros Hc Hlo Hg Hx. apply memory_ok with (c := 0) (W := region 0 2); [lia|lia| |done|].
  - intros f Hf Hlen. apply memSize_ok; [done|lia|lia].
  - intros f Hf Hlen _ Hr. apply exec_paid; [lia|]. apply Hx; [done|lia|done].
Qed.
Lemma log_ok k const hi : 0 <= const -> operation_ok m n false
  (mkOperation (fun _ => makeLog env k) const (Some (makeGasLog (Z.of_nat k))) (Z.of_nat k + 2) hi (Some memoryLog)).
Proof.
  intros Hc. apply memory_ok with (c := 375) (W := region 0 1); [lia|lia| | |].
  - intros f Hf Hlen. apply memSize_ok; [done|lia|lia].
  - intros f j Hf Hlen. apply gas_log; [done|lia|lia].
  - intros f Hf Hlen _ Hr. apply exec_paid; [lia|]. apply exec_Log; [done|lia|done].
Qed.
Lemma end_ok execute const hi : 0 <= const ->
  (forall f, frame_ok f -> 2 <= sLen f -> region 0 1 (f_stack f) (f_mem f) -> vwp execute f (fun r f' => exec_post f r f' /\ r.2 <> None)) ->
  operation_ok m n false (mkOperation (fun _ => execute) const (Some pureMemoryGascost) 2 hi (Some (memSize 0 1))).
Proof.
  intros Hc Hx. apply memory_ok with (c := 0) (W := region 0 1); [lia|lia| | |].
  - intros f Hf Hlen. apply memSize_ok; [done|lia|lia].
  - intros f j Hf Hlen. by apply memoryGasCost_only.
  - intros f Hf Hlen _ Hr. apply exec_ends, Hx; [done|lia|done].
Qed.
Lemma word_ok execute const lo hi k : 0 < const -> 1 <= lo -> 0 <= k < 2 ^ 64 ->
  (forall f, frame_ok f -> lo <= sLen f -> regionOf 0 k (f_stack f) (f_mem f) -> vwp execute f (exec_post f)) ->
  operation_ok m n false (mkOperation (fun _ => execute) const (Some pureMemoryGascost) lo hi (Some (memSizeUint 0 k))).
Proof.
  intros Hc Hlo Hk Hx. apply memory_ok with (c := 0) (W := regionOf 0 k); [lia|lia| | |].
  - intros f Hf Hlen. apply memSizeUint_ok; [done|lia|lia].
  - intros f j Hf Hlen. by apply memoryGasCost_only.
  - intros f Hf Hlen _ Hr. apply exec_paid; [lia|]. apply Hx; [done|lia|done].
Qed.
Lemma lookup_ok execute const hi : 0 < const -> (forall f, frame_ok f -> 1 <= sLen f -> vwp execute f (exec_post f)) ->
  operation_ok m n false (mkOperation (fun _ => execute) const (Some gasEip2929AccountCheck) 1 hi None).
Proof.
  intros Hc Hx. apply light_op_ok with (c := 0); [lia|lia| |].
  - intros f Hf Hlen. by apply gas_accountCheck.
  - intros f Hf Hlen. apply exec_paid; [lia|]. apply Hx; [done|lia].
Qed.

Lemma anzeon_ok : Forall (fun e : Z * operation => operation_ok m n (e.1 =? 0) e.2) (anzeonOperations env).
Proof.
  unfold anzeonOperations. repeat (apply Forall_cons_2; [cbn [fst snd]; match goal with |- operation_ok _ _ ?b _ => let b' := eval vm_compute in b in change b with b' end|]); [..|apply Forall_nil_2].
  all: try stack_plain.
  - apply stop_ok.
  - apply light_op_ok with (c := 10); [done|done|needs_stack; apply gas_exp; [done|lia|done]|].
    intros f Hf Hlen. cbn in Hlen. apply exec_paid; [done|]. apply exec_binary; [done|unfold minStack in Hlen; lia].
  - apply memory_ok with (c := 0) (W := region 0 1); [done|done|needs_stack; apply memSize_ok; [done|lia|lia]|intros f k Hf Hlen; apply gas_keccak; [done|unfold minStack in Hlen; lia]|].
    intros f Hf Hlen _ Hr. cbn in Hlen. apply exec_paid; [done|]. apply exec_Keccak256; [done|unfold minStack in Hlen; lia|done].
  - apply lookup_ok; [done|]. intros f Hf Hlen. by apply exec_lookup.
  - apply copy_ok; [done|done|intros f k Hf Hlen; apply gas_copier; [done|cbn in Hlen; unfold minStack in Hlen; lia]|exact exec_CallDataCopy].
  - apply copy_ok; [done|done|intros f k Hf Hlen; apply gas_copier; [done|cbn in Hlen; unfold minStack in Hlen; lia]|exact exec_CodeCopy].
  - apply lookup_ok; [done|]. intros f Hf Hlen. by apply exec_lookup.
  - apply memory_ok with (c := 0) (W := region 1 3); [done|done|needs_stack; apply memSize_ok; [done|lia|lia]|intros f k Hf Hlen; apply gas_extCodeCopy; [done|unfold minStack in Hlen; lia]|].
    intros f Hf Hlen _ Hr. cbn in Hlen. apply exec_paid; [done|]. apply exec_ExtCodeCopy; [done|unfold minStack in Hlen; lia|done].
  - apply word_ok; [done|done|done|exact exec_Mload].
  - apply word_ok; [done|done|done|exact exec_Mstore].
  - apply word_ok; [done|done|done|exact exec_Mstore8].
  - apply light_op_ok with (c := 100); [done|done|needs_stack; apply gas_sload; [done|lia|done]|].
    intros f Hf Hlen. cbn in Hlen. apply exec_paid; [done|]. apply exec_Sload; [done|unfold minStack in Hlen; lia].
  - apply sstore_ok.
  - by apply (log_ok 0).
  - by apply (log_ok 1).
  - by apply (log_ok 2).
  - by apply (log_ok 3).
  - by apply (log_ok 4).
  - apply memory_ok with (c := 0) (W := region 1 2); [done|done|needs_stack; apply memSize_ok; [done|lia|lia]|intros f k Hf Hlen; apply gas_create; [done|done|unfold minStack in Hlen; lia]|].
    intros f Hf Hlen Hg Hr. cbn in Hlen. apply exec_paid; [done|]. apply (exec_Create env Henv m n Hm); [done|unfold minStack in Hlen; lia|unfold CreateGas in Hg; lia|done].
  - apply (call_step m n) with (base := valueBase) (W := fun st me => region 5 6 st me /\ region 3 4 st me); [done|done|needs_stack; apply memSizeMax_ok; (done || lia)|by apply gasCall_old|].
    intros f f1 to cost. by apply exec_Call.
  - apply (call_step m n) with (base := valueBase) (W := fun st me => region 5 6 st me /\ region 3 4 st me); [done|done|needs_stack; apply memSizeMax_ok; (done || lia)|by apply gasCallCode_old|].
    intros f f1 to cost. by apply exec_CallCode.
  - apply end_ok; [done|exact exec_Return].
  - apply light_op_ok with (c := 0); [done|done|needs_stack; apply gas_selfdestruct; [done|lia|done]|].
    intros f Hf Hlen. cbn in Hlen. apply exec_ends. apply exec_Selfdestruct6780; [done|done|unfold minStack in Hlen; lia].
  - apply (call_step m n) with (base := noBase) (W := fun st me => region 4 5 st me /\ region 2 3 st me); [done|done|needs_stack; apply memSizeMax_ok; (done || lia)|by apply gasDelegateCall_old|].
    intros f f1 to cost. by apply exec_DelegateCall.
  - apply end_ok; [done|exact exec_Revert].
  - apply copy_ok; [done|done|intros f k Hf Hlen; apply gas_copier; [done|cbn in Hlen; unfold minStack in Hlen; lia]|exact exec_ReturnDataCopy].
  - apply (call_step m n) with (base := noBase) (W := fun st me => region 4 5 st me /\ region 2 3 st me); [done|done|needs_stack; apply memSizeMax_ok; (done || lia)|by apply gasStaticCall_old|].
    intros f f1 to cost. by apply exec_StaticCall.
  - apply memory_ok with (c := 0) (W := region 1 2); [done|done|needs_stack; apply memSize_ok; [done|lia|lia]|intros f k Hf Hlen; apply gas_create; [done|done|unfold minStack in Hlen; lia]|].
    intros f Hf Hlen Hg Hr. cbn in Hlen. apply exec_paid; [done|]. apply (exec_Create2 m n Hm); [done|unfold minStack in Hlen; lia|unfold Create2Gas in Hg; lia|done].
  - apply lookup_ok; [done|]. intros f Hf Hlen. by apply exec_lookup.
  - apply memory_ok with (c := 0) (W := fun st me => region 0 2 st me /\ region 1 2 st me); [done|done|needs_stack; apply memoryMcopy_ok; [done|lia]|intros f k Hf Hlen; apply gas_copier; [done|unfold minStack in Hlen; lia]|].
    intros f Hf Hlen _ [Hr Hr']. cbn in Hlen. apply exec_paid; [done|]. apply exec_Mcopy; [done|unfold minStack in Hlen; lia|done|done].
Qed.
End operations.
