(* ===== verification/VmRun.v ===== *)
(** Whole runs of the machine on an Anzeon chain: calls and creations return, never
    panic, pay for what they do, and leave no trace when they fail.

    The fuel of the interpreter does not show: a run that ends with some fuel ends in
    the same way with more, and more fuel than gas is enough. *)
From S2P Require Import Prelude Validators AccountExtra Messages Config Rlp RlpStream Extra ChainConfig Forks StateJournal JournalProps JournalRuns JournalFrames VmAnalysis VmState VmGas VmOps NativeManager Evm VmTable VmSpec VmSimple VmMemory VmStore VmCalls VmCallOps VmSafe.

Section run.
Context `{Crypto} {adapter : Address} `{!Ledger adapter} `{Uint256} `{PrecompiledContracts} `{!CollisionFree} (env : Env) (Henv : anzeon_env adapter env).

Lemma anzeon_table : NewEVMInterpreter env = newAnzeonInstructionSet env.
Proof.
  unfold NewEVMInterpreter, instructionSet. by rewrite (env_extraEips _ _ Henv), (env_cancun _ _ Henv), (env_shanghai _ _ Henv), (env_merge _ _ Henv), (env_anzeon _ _ Henv).
Qed.

Lemma table_ok m n op : machine_ok n m -> operation_ok m n (op =? 0) (NewEVMInterpreter env op).
Proof.
  intros Hm. rewrite anzeon_table. destruct (decide (op ∈ opcodes env)) as [Hop|Hop].
  - apply list_elem_of_fmap in Hop as ([op' o] & -> & Hin). cbn [fst]. rewrite (anzeon_defined env op' o Hin).
    pose proof (anzeon_ok env Henv m n Hm) as Hall. rewrite Forall_forall in Hall. apply (Hall (op', o)). exact Hin.
  - rewrite (anzeon_undefined env op Hop). destruct (Z.eqb_spec op 0) as [->|]; [|apply undefined_ok]. exfalso. apply Hop. by constructor.
Qed.

(** A run with more fuel than gas. *)
Lemma Run_ok fuel : run_ok (Z.of_nat fuel) (Run env fuel).
Proof.
  induction fuel as [|fuel IH]; [intros c input ro e _ _ Hc [Hg _]; lia|]. rewrite Nat2Z.inj_succ, <- Z.add_1_r. cbn [Run].
  apply interpret_ok; [|lia]. intros op. apply table_ok, machine_keeps; [done|exact IH].
Qed.
End run.

(** * What a caller may rely on *)

(** A call from outside: a fine machine, enough fuel and room, an address that the
    transaction already touched. *)
Record starts (fuel : nat) (gas : Z) (input : bytes) (value : Z) `{Crypto} (e : EVM) : Prop := {
  starts_ok : evm_ok e;
  starts_fuel : gas < Z.of_nat fuel;
  starts_room : room gas e;
  starts_input : Z.of_nat (length input) < 2 ^ 62;
  starts_value : word value;
}.

Section outside.
Context `{Crypto} {adapter : Address} `{!Ledger adapter} `{Uint256} `{PrecompiledContracts} `{!CollisionFree} (env : Env) (Henv : anzeon_env adapter env).

Lemma starts_callable fuel gas input value e : starts fuel gas input value e -> callable (Z.of_nat fuel) gas input e.
Proof. intros []. by split. Qed.
Lemma call_evolves fuel caller addr input gas value e : starts fuel gas input value e -> AddressInAccessList (evm_StateDB e) addr = true ->
  exists ret left err e', evm_Call env fuel caller addr input gas value e = Done (ret, left, err, e') /\ call_post gas e (ret, left, err) e'.
Proof.
  intros Hs Hw. pose proof (EVM_Call_ok env Henv (Z.of_nat fuel) (Run env fuel) (Run_ok env Henv fuel) caller addr input gas value e (starts_callable _ _ _ _ _ Hs) (starts_value _ _ _ _ _ Hs) Hw) as Hp.
  unfold vwp in Hp. unfold evm_Call. destruct (Call _ _ _ _ _ _ _ e) as [[[[ret left] err] e']| |]; [|done..]. by eexists _, _, _, _.
Qed.
Lemma create_evolves fuel caller code gas value e : starts fuel gas code value e ->
  exists ret address left err e', evm_Create env fuel caller code gas value e = Done (ret, address, left, err, e') /\ evolves gas e left e'.
Proof.
  intros Hs. pose proof (Create_ok _ _ (machine_keeps env Henv (Z.of_nat fuel) (Run env fuel) (Run_ok env Henv fuel)) caller code gas value e (starts_callable _ _ _ _ _ Hs) (starts_value _ _ _ _ _ Hs)) as Hp.
  cbn [vm_Create machine] in Hp. unfold vwp in Hp. unfold evm_Create. destruct (Create _ _ _ _ _ _ e) as [[[[[ret addr] left] err] e']| |]; [|done..]. by eexists _, _, _, _, _.
Qed.
End outside.

Section theorems.
Context `{Crypto} `{Uint256} `{PrecompiledContracts} `{!CollisionFree}.

(** C4. A call into the machine returns: on an Anzeon chain, whatever code the called
    account has, with more fuel than gas the interpreter neither runs on nor panics
    (no stack slot, memory word or code byte is read out of range, no refund is taken
    back that was not given; what a precompiled contract computes is a function, an
    argument of the model).  It leaves at most the gas it was given, the depth and the
    write protection of before, a state that is fine, and refunds that the gas it used
    pays for. *)
Theorem call_returns adapter env fuel caller addr input gas value e : anzeon_env adapter env ->
  starts fuel gas input value e -> AddressInAccessList (evm_StateDB e) addr = true ->
  exists ret left err e', evm_Call env fuel caller addr input gas value e = Done (ret, left, err, e') /\
    0 <= left <= gas /\ evm_ok e' /\ evm_depth e' = evm_depth e /\ evm_readOnly e' = evm_readOnly e /\
    0 <= sdb_refund (evm_StateDB e') <= sdb_refund (evm_StateDB e) + refundRatio * (gas - left).
Proof.
  intros Henv Hs Hw. destruct (call_evolves (Ledger0 := anyLedger adapter) env Henv fuel caller addr input gas value e Hs Hw) as (ret & left & err & e' & Hr & [[Hm Hok Hg Href _] _]).
  exists ret, left, err, e'. split_and!; try done; try apply Hm; try apply Hg. apply (ok_refund _ _ (evm_state_ok _ Hok)).
Qed.

(** C28. Creating a contract returns in the same way, whatever the creation code is. *)
Theorem create_returns adapter env fuel caller code gas value e : anzeon_env adapter env -> starts fuel gas code value e ->
  exists ret address left err e', evm_Create env fuel caller code gas value e = Done (ret, address, left, err, e') /\
    0 <= left <= gas /\ evm_ok e' /\ evm_depth e' = evm_depth e /\ evm_readOnly e' = evm_readOnly e /\
    0 <= sdb_refund (evm_StateDB e') <= sdb_refund (evm_StateDB e) + refundRatio * (gas - left).
Proof.
  intros Henv Hs. destruct (create_evolves (Ledger0 := anyLedger adapter) env Henv fuel caller code gas value e Hs) as (ret & addr & left & err & e' & Hr & [Hm Hok Hg Href _]).
  exists ret, addr, left, err, e'. split_and!; try done; try apply Hm; try apply Hg. apply (ok_refund _ _ (evm_state_ok _ Hok)).
Qed.

(** C9. A call that ends in an error did not happen: every account, slot, log, refund,
    access-list entry and journal entry is as before, however deep the calls it made
    and whatever they changed. *)
Theorem failed_call_undone adapter env fuel caller addr input gas value e ret left err e' : anzeon_env adapter env ->
  starts fuel gas input value e -> AddressInAccessList (evm_StateDB e) addr = true ->
  evm_Call env fuel caller addr input gas value e = Done (ret, left, Some err, e') -> same (evm_StateDB e') (evm_StateDB e).
Proof.
  intros Henv Hs Hw Hr. destruct (call_evolves (Ledger0 := anyLedger adapter) env Henv fuel caller addr input gas value e Hs Hw) as (? & ? & err' & ? & Hr' & [_ Hu]).
  rewrite Hr in Hr'. injection Hr' as <- <- <- <-. by apply Hu.
Qed.
End theorems.

(** [m] does what [m'] does, as far as its fuel goes. *)
Definition approx {S A} (m m' : VM S A) : Prop := forall s, m s = NoFuel \/ m s = m' s.
Infix "⊑" := approx (at level 70).

Section approx.
Context {S A : Type}.
#[global] Instance approx_preorder : PreOrder (@approx S A).
Proof.
  split; [intros m s; by right|]. intros m m' m'' Hm Hm' s. destruct (Hm s) as [Hs | ->]; [by left|apply Hm'].
Qed.
Lemma approx_bind {B} (m m' : VM S A) (k k' : A -> VM S B) : m ⊑ m' -> (forall a, k a ⊑ k' a) -> m ≫= k ⊑ m' ≫= k'.
Proof.
  intros Hm Hk s. unfold mbind, VM_bind. destruct (Hm s) as [-> | ->]; [by left|]. destruct (m' s) as [[a s']| |]; [|by right..]. apply Hk.
Qed.
End approx.
Lemma approx_lift {A} (m m' : VM EVM A) : m ⊑ m' -> liftEVM m ⊑ liftEVM m'.
Proof. intros Hm f. unfold liftEVM. destruct (Hm (f_evm f)) as [-> | ->]; [by left|by right]. Qed.

(** Follows the structure of two functions that differ in what they call. *)
Ltac approximate :=
  repeat first
    [ reflexivity
    | eassumption
    | apply approx_lift
    | apply approx_bind; [|intros ?]
    | match goal with
      | |- (if ?b then _ else _) ⊑ _ => destruct b
      | |- (match ?x with _ => _ end) ⊑ _ => destruct x
      end ].

Record machine_approx (m m' : Machine) : Prop := {
  approx_Call caller addr input gas value : vm_Call m caller addr input gas value ⊑ vm_Call m' caller addr input gas value;
  approx_CallCode caller addr input gas value : vm_CallCode m caller addr input gas value ⊑ vm_CallCode m' caller addr input gas value;
  approx_DelegateCall caller addr input gas : vm_DelegateCall m caller addr input gas ⊑ vm_DelegateCall m' caller addr input gas;
  approx_StaticCall caller addr input gas : vm_StaticCall m caller addr input gas ⊑ vm_StaticCall m' caller addr input gas;
  approx_Create caller code gas value : vm_Create m caller code gas value ⊑ vm_Create m' caller code gas value;
  approx_Create2 caller code gas value salt : vm_Create2 m caller code gas value salt ⊑ vm_Create2 m' caller code gas value salt;
}.

(** * The operations *)

Section operations.
Context `{Crypto} `{Uint256} (env : Env) (m m' : Machine) (Hm : machine_approx m m').

Lemma opCreate_approx : opCreate env m ⊑ opCreate env m'.
Proof. unfold opCreate. approximate. apply Hm. Qed.
Lemma opCreate2_approx : opCreate2 m ⊑ opCreate2 m'.
Proof. unfold opCreate2. approximate. apply Hm. Qed.
Lemma opCall_approx : opCall m ⊑ opCall m'.
Proof. unfold opCall. approximate; apply Hm. Qed.
Lemma opCallCode_approx : opCallCode m ⊑ opCallCode m'.
Proof. unfold opCallCode. approximate; apply Hm. Qed.
Lemma opDelegateCall_approx : opDelegateCall m ⊑ opDelegateCall m'.
Proof. unfold opDelegateCall. approximate; apply Hm. Qed.
Lemma opStaticCall_approx : opStaticCall m ⊑ opStaticCall m'.
Proof. unfold opStaticCall. approximate; apply Hm. Qed.

Lemma anzeon_approx : Forall (fun e : Z * operation => op_execute e.2 m ⊑ op_execute e.2 m') (anzeonOperations env).
Proof.
  unfold anzeonOperations. repeat (apply Forall_cons_2; [cbn [snd op_execute]; first
    [ reflexivity | apply opCreate_approx | apply opCreate2_approx | apply opCall_approx | apply opCallCode_approx
    | apply opDelegateCall_approx | apply opStaticCall_approx ]|]). apply Forall_nil_2.
Qed.
Lemma table_approx op : op_execute (newAnzeonInstructionSet env op) m ⊑ op_execute (newAnzeonInstructionSet env op) m'.
Proof.
  destruct (decide (op ∈ opcodes env)) as [Hop|Hop]; [|by rewrite (anzeon_undefined env op Hop)].
  apply list_elem_of_fmap in Hop as ([op' o] & -> & Hin). cbn [fst]. rewrite (anzeon_defined env op' o Hin).
  pose proof anzeon_approx as Hall. rewrite Forall_forall in Hall. exact (Hall _ Hin).
Qed.
End operations.

(** * The loop and the calls *)

Section runs.
Context (table : JumpTable) (m m' : Machine) (Ht : forall op, op_execute (table op) m ⊑ op_execute (table op) m').

Lemma round_approx : round table m ⊑ round table m'.
Proof. unfold round. approximate. apply Ht. Qed.
Lemma loop_approx n n' : (n <= n')%nat -> loop table m n ⊑ loop table m' n'.
Proof.
  revert n'. induction n as [|n IH]; intros n' Hn; [intros s; by left|]. destruct n' as [|n']; [lia|]. cbn [loop].
  apply approx_bind; [apply round_approx|]. intros [|ret err]; [apply IH; lia|reflexivity].
Qed.
Lemma interpret_approx n n' c input ro : (n <= n')%nat -> interpret table m n c input ro ⊑ interpret table m' n' c input ro.
Proof.
  intros Hn e. unfold interpret. destruct (_ =? 0)%nat; [by right|]. set (f := mkFrame _ _ _ _ _).
  destruct (loop_approx n n' Hn f) as [-> | ->]; [by left|by right].
Qed.
End runs.

Section calls.
Context `{Crypto} `{Uint256} `{PrecompiledContracts} (env : Env) (run run' : Contract -> bytes -> bool -> EM Returned).
Hypothesis Hrun : forall c input ro, run c input ro ⊑ run' c input ro.

Lemma callBody_approx caller addr op input gas contract ro : callBody env run caller addr op input gas contract ro ⊑ callBody env run' caller addr op input gas contract ro.
Proof. unfold callBody. approximate. apply Hrun. Qed.
Lemma create_approx caller code hash gas value address : create env run caller code hash gas value address ⊑ create env run' caller code hash gas value address.
Proof. unfold create. approximate; apply Hrun. Qed.
Lemma machine_approximates : machine_approx (machine env run) (machine env run').
Proof.
  split; intros; cbn [machine vm_Call vm_CallCode vm_DelegateCall vm_StaticCall vm_Create vm_Create2];
    unfold Call, CallCode, DelegateCall, StaticCall, Create, Create2;
    approximate; first [apply Hrun|apply callBody_approx|apply create_approx].
Qed.
End calls.

(** * Fuel *)

Section fuel.
Context `{Crypto} `{Uint256} `{PrecompiledContracts} `{!CollisionFree}.

Lemma Run_approx adapter env n n' c input ro : anzeon_env adapter env -> (n <= n')%nat -> Run env n c input ro ⊑ Run env n' c input ro.
Proof.
  intros Henv. revert n' c input ro. induction n as [|n IH]; intros n' c input ro Hn; [intros s; by left|]. destruct n' as [|n']; [lia|]. cbn [Run].
  apply interpret_approx; [|done]. intros op. rewrite (anzeon_table env Henv). apply table_approx, machine_approximates. intros. apply IH. lia.
Qed.
Lemma evm_Call_approx adapter env n n' caller addr input gas value : anzeon_env adapter env -> (n <= n')%nat ->
  evm_Call env n caller addr input gas value ⊑ evm_Call env n' caller addr input gas value.
Proof.
  intros Henv Hn. unfold evm_Call. pose proof (machine_approximates env (Run env n) (Run env n') (fun c i ro => Run_approx adapter env n n' c i ro Henv Hn)) as Hm.
  pose proof (approx_Call _ _ Hm caller addr input gas value) as Hc. cbn [machine vm_Call] in Hc. exact Hc.
Qed.

Lemma more_fuel adapter env n n' caller addr input gas value e : anzeon_env adapter env -> (n <= n')%nat ->
  starts n gas input value e -> AddressInAccessList (evm_StateDB e) addr = true ->
  evm_Call env n caller addr input gas value e = evm_Call env n' caller addr input gas value e.
Proof.
  intros Henv Hn Hs Hw. destruct (call_evolves (Ledger0 := anyLedger adapter) env Henv n caller addr input gas value e Hs Hw) as (ret & left & err & e' & Hr & _).
  destruct (evm_Call_approx adapter env n n' caller addr input gas value Henv Hn e) as [Hx|Hx]; [by rewrite Hr in Hx|done].
Qed.
End fuel.
