(* ===== verification/Supply.v ===== *)
(** The supply of coins: whatever code runs, every coin that appears is accounted for
    by a log of the adapter contract that says so, and only the adapter contract has
    coins moved or minted by the native managers. *)
From S2P Require Import Prelude Validators AccountExtra Messages Config Rlp RlpStream Extra ChainConfig Forks StateJournal JournalProps JournalRuns JournalFrames VmAnalysis VmState VmGas VmOps NativeManager Evm VmTable VmSpec VmSimple VmMemory VmStore VmCalls VmCallOps VmSafe VmRun.

(** * Sums of balances *)

Section funds.
Context `{Crypto}.

Definition holdings (s : StateDB) (l : list Address) : Z := foldr (fun a t => GetBalance s a + t) 0 l.
(** No balance is negative, and no accounts hold more than [T] together. *)
Definition funds (s : StateDB) (T : Z) : Prop := (forall a, 0 <= GetBalance s a) /\ forall l, NoDup l -> holdings s l <= T.

(** An amount that is counted once if [a] is there. *)
Definition counted (a : Address) (x : Z) (l : list Address) : Z := foldr (fun b t => (if b =? a then x else 0) + t) 0 l.
Lemma counted_out a x l : a ∉ l -> counted a x l = 0.
Proof. induction l as [|b l IH]; [done|]. intros [Hb Hl]%not_elem_of_cons. unfold counted in *. cbn [foldr]. rewrite IH by done. by destruct (Z.eqb_spec b a). Qed.
Lemma counted_in a x l : NoDup l -> a ∈ l -> counted a x l = x.
Proof.
  intros Hl Ha. induction Hl as [|b l Hb Hl IH]; [by apply not_elem_of_nil in Ha|]. unfold counted in *. cbn [foldr]. destruct (Z.eqb_spec b a) as [->|Hne].
  - change (foldr _ 0 l) with (counted a x l). rewrite counted_out by done. lia.
  - apply IH. apply elem_of_cons in Ha as [->|]; done.
Qed.
Lemma counted_le a x l : 0 <= x -> NoDup l -> counted a x l <= x.
Proof. intros Hx Hl. destruct (decide (a ∈ l)); [rewrite counted_in by done; lia|rewrite counted_out by done; lia]. Qed.

Lemma holdings_moved s s' from to x l : (forall b, GetBalance s' b <= GetBalance s b + (if b =? to then x else 0) - (if b =? from then x else 0)) ->
  holdings s' l <= holdings s l + counted to x l - counted from x l.
Proof. intros Hb. induction l as [|b l IH]; [done|]. cbn. specialize (Hb b). unfold holdings, counted in *. lia. Qed.

(** Moving coins that are there. *)
Lemma funds_moved s s' from to x T : 0 <= x -> (forall a, 0 <= GetBalance s' a) ->
  (forall b, GetBalance s' b <= GetBalance s b + (if b =? to then x else 0) - (if b =? from then x else 0)) -> funds s T -> funds s' T.
Proof.
  intros Hx Hpos Hb [_ Hs]. split; [done|]. intros l Hl. destruct (decide (from ∈ l)) as [Hin|Hout].
  - pose proof (holdings_moved s s' from to x l Hb) as Hm. rewrite (counted_in from) in Hm by done. pose proof (counted_le to x l Hx Hl). specialize (Hs l Hl). lia.
  - assert (NoDup (from :: l)) as Hl' by (by constructor). pose proof (holdings_moved s s' from to x (from :: l) Hb) as Hm.
    rewrite (counted_in from) in Hm by (done || by constructor). pose proof (counted_le to x _ Hx Hl'). specialize (Hs _ Hl').
    specialize (Hpos from). change (holdings s' (from :: l)) with (GetBalance s' from + holdings s' l) in Hm. lia.
Qed.
Lemma funds_less s s' T : (forall a, 0 <= GetBalance s' a <= GetBalance s a) -> funds s T -> funds s' T.
Proof. intros Hb. apply (funds_moved s s' 0 0 0); [done|apply Hb|]. intros b. specialize (Hb b). destruct (b =? 0); lia. Qed.
Lemma holdings_added s s' to x l : (forall b, GetBalance s' b <= GetBalance s b + (if b =? to then x else 0)) -> holdings s' l <= holdings s l + counted to x l.
Proof. intros Hb. induction l as [|b l IH]; [done|]. cbn. specialize (Hb b). unfold holdings, counted in *. lia. Qed.
Lemma funds_added s s' to x T : 0 <= x -> (forall a, 0 <= GetBalance s' a) -> (forall b, GetBalance s' b <= GetBalance s b + (if b =? to then x else 0)) ->
  funds s T -> funds s' (T + x).
Proof.
  intros Hx Hpos Hb [_ Hs]. split; [done|]. intros l Hl. specialize (Hs l Hl). pose proof (counted_le to x l Hx Hl).
  pose proof (holdings_added s s' to x l Hb). lia.
Qed.
End funds.

(** * The ledger *)

Section ledger.
Context `{Crypto} (adapter : Address).

(** What the logs of the transaction say was minted. *)
Definition minted (s : StateDB) : Z := foldr (fun l t => mints adapter l + t) 0 (txLogs s).
(** From [s] to [s'] nothing appears but what is logged as minted. *)
Definition accounted (s s' : StateDB) : Prop := forall T, funds s T -> funds s' (T + (minted s' - minted s)).

Lemma mints_app ls l : foldr (fun l t => mints adapter l + t) 0 (ls ++ [l]) = foldr (fun l t => mints adapter l + t) 0 ls + mints adapter l.
Proof. induction ls as [|x ls IH]; [cbn; lia|]. cbn [app foldr]. rewrite IH. lia. Qed.
Lemma minted_log l s s' : txLogs s' = txLogs s ++ [stamped l s] -> minted s' = minted s + mints adapter l.
Proof. intros Hl. unfold minted. by rewrite Hl, mints_app. Qed.
Lemma minted_quiet op s s' : (forall id, op <> OpRevert id) -> (forall l, op <> OpAddLog l) -> exec op s = Some s' -> minted s' = minted s.
Proof. intros Hr Hl Hx. unfold minted. by rewrite (logs_tx s s' (quiet_logs op s s' Hr Hl Hx)). Qed.

Lemma accounted_same s t : same t s -> accounted s t.
Proof.
  intros Hst T HT. assert (forall a, GetBalance t a = GetBalance s a) as Hb.
  { intros a. unfold GetBalance, read. pose proof (getStateObject_same t s a Hst) as Ho. inversion Ho as [o o' Hsim|]; [|done]. by rewrite (sim_data _ _ _ _ Hsim). }
  assert (minted t = minted s) as -> by (unfold minted, txLogs; by rewrite (same_thash _ _ Hst), (same_logs _ _ Hst)).
  rewrite Z.sub_diag, Z.add_0_r. eapply funds_less; [|exact HT]. intros a. rewrite Hb. split; [apply HT|done].
Qed.

(** Operations that move no coins leave every balance or empty it. *)
Lemma neutral_balance op s s' b : neutral op -> wf s -> exec op s = Some s' -> GetBalance s' b = GetBalance s b \/ GetBalance s' b = 0.
Proof.
  intros Hn Hw Hx. rewrite (exec_balance op s s' b); [|by intros id ->|done|done].
  destruct op; cbn [neutral] in Hn; unfold balanceAfter; try (by left); try done; try (rewrite Hn, andb_false_r; by left).
  - destruct (b =? a); [by right|by left].
  - destruct (_ && _); [by right|by left].
Qed.
Lemma accounted_neutral op s s' : neutral op -> wf s -> exec op s = Some s' -> accounted s s'.
Proof.
  intros Hn Hw Hx T HT. assert (0 <= minted s' - minted s) as Hm.
  { assert ((exists l, op = OpAddLog l) \/ forall l, op <> OpAddLog l) as [(l & ->)|Hl] by (destruct op; first [by right|left; by eexists]).
    - rewrite (minted_log l s s'); [|by apply (exec_logs (OpAddLog l))]. pose proof (mints_word adapter l) as [? _]. lia.
    - rewrite (minted_quiet op s s'); [lia|by intros id ->|done|done]. }
  assert (forall b, 0 <= GetBalance s' b <= GetBalance s b) as Hb by (intros b; pose proof (proj1 HT b); destruct (neutral_balance op s s' b Hn Hw Hx); lia).
  destruct (funds_less s s' T Hb HT) as [Hp Hs]. split; [done|]. intros l Hl. specialize (Hs l Hl). lia.
Qed.

Lemma word_mod z : 0 <= z -> 0 <= z mod 2 ^ 256 <= z.
Proof. intros Hz. split; [by apply Z.mod_pos_bound|by apply Z.mod_le]. Qed.
Lemma sub_balance from x s b : wf s -> 0 <= x <= GetBalance s from -> 0 <= GetBalance s b ->
  0 <= GetBalance (SubBalance from x s) b <= GetBalance s b - (if b =? from then x else 0).
Proof.
  intros Hw Hx Hb. rewrite (exec_balance (OpSubBalance from x) s _ b); [|done|done|done]. cbn. destruct (Z.eqb_spec b from) as [->|]; cbn [andb]; [|lia].
  destruct (Z.eqb_spec x 0); cbn [negb]; [lia|]. apply word_mod. lia.
Qed.
Lemma add_balance to x s b : wf s -> 0 <= x -> 0 <= GetBalance s b ->
  0 <= GetBalance (AddBalance to x s) b <= GetBalance s b + (if b =? to then x else 0).
Proof.
  intros Hw Hx Hb. rewrite (exec_balance (OpAddBalance to x) s _ b); [|done|done|done]. cbn. destruct (Z.eqb_spec b to) as [->|]; cbn [andb]; [|lia].
  destruct (Z.eqb_spec x 0); cbn [negb]; [lia|]. apply word_mod. lia.
Qed.

Lemma sub_wf from x s : wf s -> wf (SubBalance from x s).
Proof. intros Hw. eapply steps_wf; [done|by apply SubBalance_steps]. Qed.
Lemma minted_sub from x s : minted (SubBalance from x s) = minted s.
Proof. by apply (minted_quiet (OpSubBalance from x)). Qed.
Lemma minted_add to x s : minted (AddBalance to x s) = minted s.
Proof. by apply (minted_quiet (OpAddBalance to x)). Qed.

Lemma accounted_transfer from to x s : wf s -> word x \/ x = GetBalance s from -> x <= GetBalance s from -> accounted s (AddBalance to x (SubBalance from x s)).
Proof.
  intros Hw Hx Hle T HT. rewrite minted_add, minted_sub, Z.sub_diag, Z.add_0_r. pose proof (sub_wf from x s Hw) as Hw'.
  assert (0 <= x) as H0 by (destruct Hx as [[? _]| ->]; [done|apply HT]). assert (forall b, 0 <= GetBalance s b) as Hs by apply HT.
  assert (forall b, 0 <= GetBalance (SubBalance from x s) b <= GetBalance s b - (if b =? from then x else 0)) as Hsub by (intros b; by apply sub_balance).
  eapply (funds_moved s _ from to x); [done| | |exact HT]; intros b; pose proof (add_balance to x _ b Hw' H0 (proj1 (Hsub b))); specialize (Hsub b); lia.
Qed.
Lemma accounted_burn from x s : wf s -> word x -> x <= GetBalance s from -> accounted s (SubBalance from x s).
Proof.
  intros Hw [Hx _] Hle T HT. rewrite minted_sub, Z.sub_diag, Z.add_0_r. eapply funds_less; [|exact HT]. intros b.
  pose proof (sub_balance from x s b Hw ltac:(lia) (proj1 HT b)) as Hb. destruct (b =? from); lia.
Qed.
Lemma accounted_mint to x l s : wf s -> word x -> mints adapter l = x -> accounted s (AddLog l (AddBalance to x s)).
Proof.
  intros Hw [Hx _] Hl T HT. rewrite (minted_log l (AddBalance to x s)) by (by apply (exec_logs (OpAddLog l))). rewrite minted_add, Hl.
  replace (T + (minted s + x - minted s)) with (T + x) by lia.
  eapply (funds_added s _ to x); [done| | |exact HT]; intros b; pose proof (add_balance to x s b Hw Hx (proj1 HT b));
    change (GetBalance (AddLog l (AddBalance to x s)) b) with (GetBalance (AddBalance to x s) b); lia.
Qed.

Definition supplyLedger : Ledger adapter.
Proof.
  refine (Build_Ledger _ adapter accounted _ accounted_same accounted_neutral accounted_transfer accounted_burn accounted_mint).
  intros s t u Hst Htu T HT. specialize (Htu _ (Hst T HT)). by replace (T + (minted u - minted s)) with (T + (minted t - minted s) + (minted u - minted t)) by lia.
Defined.
End ledger.

Section supply.
Context `{Crypto} `{Uint256} `{PrecompiledContracts} `{!CollisionFree}.

(** C3. No code makes coins: after a call, whatever contracts ran, what all accounts
    hold together exceeds what they held before by no more than what the logs of the
    adapter contract that the call added say was minted.  Transfers, creations,
    self-destructs, native burns and transfers, reverts of nested calls and overflows of
    a balance included. *)
Theorem supply_accounted adapter env fuel caller addr input gas value e ret left err e' T : anzeon_env adapter env ->
  starts fuel gas input value e -> AddressInAccessList (evm_StateDB e) addr = true -> funds (evm_StateDB e) T ->
  evm_Call env fuel caller addr input gas value e = Done (ret, left, err, e') ->
  funds (evm_StateDB e') (T + (minted adapter (evm_StateDB e') - minted adapter (evm_StateDB e))).
Proof.
  intros Henv Hs Hw HT Hr. destruct (call_evolves (Ledger0 := supplyLedger adapter) env Henv fuel caller addr input gas value e Hs Hw) as (? & ? & ? & ? & Hr' & [[_ _ _ _ Hrel] _]).
  rewrite Hr in Hr'. injection Hr' as <- <- <- <-. exact (Hrel T HT).
Qed.
End supply.

(** * Write protection *)

Section protection.
Context `{Crypto} `{PrecompiledContracts}.

(** The call data that [abi.encodeCall(ICoinManager.transfer, (from, to, amount))] makes. *)
Definition abiAddress (a : Address) : bytes := replicate 12 0 ++ addressBytes a.
Definition transferInput (from to amount : Z) : bytes :=
  selector sig_transfer ++ abiAddress from ++ abiAddress to ++ be_bytes 32 amount.

Lemma param_at (l r x : bytes) i : length l = (4 + 32 * i)%nat -> length x = 32%nat -> param (l ++ x ++ r) i = x.
Proof. intros Hl Hx. unfold param. rewrite drop_app_length' by done. by rewrite take_app_length'. Qed.

Lemma transferInput_params from to amount :
  (4 <= length (Keccak256 sig_transfer))%nat -> 0 <= from < 2 ^ 160 -> 0 <= to < 2 ^ 160 -> 0 <= amount < 2 ^ 256 ->
  let input := transferInput from to amount in
  bytesToManagerMethodSelector input = selector sig_transfer /\ length input = 100%nat /\
  paramAddress input 0 = from /\ paramAddress input 1 = to /\ paramAmount input 2 = amount.
Proof.
  intros Hk Hf Ht Ha input. assert (length (selector sig_transfer) = 4%nat) as Hs.
  { unfold selector, bytesToManagerMethodSelector. rewrite length_take. lia. }
  assert (forall a, length (abiAddress a) = 32%nat) as Hl by (intros a; unfold abiAddress, addressBytes; by rewrite length_app, length_replicate, length_be_bytes).
  assert (forall a, 0 <= a < 2 ^ 160 -> be_value (drop 12 (abiAddress a)) = a) as Hd.
  { intros a Hr. unfold abiAddress, addressBytes. rewrite drop_app_length' by done. rewrite be_value_be_bytes by lia. by apply Z.mod_small. }
  unfold input, transferInput. split_and!.
  - unfold bytesToManagerMethodSelector. by rewrite take_app_length'.
  - by rewrite !length_app, !Hl, Hs, length_be_bytes.
  - unfold paramAddress. rewrite param_at by done. auto.
  - unfold paramAddress. rewrite (app_assoc (selector _)), param_at; [auto|by rewrite length_app, Hs, Hl|done].
  - unfold paramAmount. rewrite <- (app_nil_r (be_bytes 32 amount)), (app_assoc (selector _)), (app_assoc (_ ++ abiAddress from)), param_at;
      [|by rewrite !length_app, Hs, !Hl|by rewrite length_be_bytes].
    unfold SetBytes. rewrite be_value_be_bytes, (Z.mod_small amount) by (cbn; lia). by apply Z.mod_small.
Qed.

(** A state that is well formed and has the same balances. *)
Definition rests (s s' : StateDB) : Prop := state_ok clearRefund s' /\ forall b, GetBalance s' b = GetBalance s b.
Lemma rests_exec op s s' s'' : rests s s' -> calm_op op -> exec op s' = Some s'' ->
  (forall b, balanceAfter op s' b = GetBalance s' b) -> rests s s''.
Proof.
  intros [Hs Hb] Hc Hx Hop. split; [by eapply exec_advances|]. intros b. rewrite <- Hb, <- Hop.
  apply exec_balance; [by intros id ->|apply Hs|done].
Qed.
Lemma manager_no_precompile rules : precompile rules NativeCoinManagerAddress = None.
Proof. unfold precompile, activeContracts. repeat case_match; vm_compute; reflexivity. Qed.

Lemma AddTransferLog_done adapter env from to x e : systemContract env NativeCoinAdapter = Some adapter ->
  AddTransferLog env from to x e = Done (tt, set_evm_StateDB (AddLog (transferLog env adapter from to x) (evm_StateDB e)) e).
Proof.
  intros Ha. unfold AddTransferLog. assert (AnzeonEnabled (env_chainConfig env) = true) as ->.
  { unfold systemContract in Ha. unfold AnzeonEnabled. by destruct (Anzeon (env_chainConfig env)). }
  cbn [negb]. rewrite Ha. reflexivity.
Qed.

(** A transfer that the coin manager makes. *)
Lemma nativeTransfer_moves adapter env from to x gas e :
  systemContract env NativeCoinAdapter = Some adapter -> state_ok clearRefund (evm_StateDB e) ->
  from <> 0 -> from <> to -> 0 < x <= GetBalance (evm_StateDB e) from -> GetBalance (evm_StateDB e) from < 2 ^ 256 ->
  0 <= GetBalance (evm_StateDB e) to < 2 ^ 256 - x -> UpdateBalanceGas + UpdateBalanceGas + CallNewAccountGas <= gas ->
  exists left e', nativeTransfer env from to x gas e = Done (left, None, e') /\ evm_readOnly e' = evm_readOnly e /\
    GetBalance (evm_StateDB e') from = GetBalance (evm_StateDB e) from - x /\
    GetBalance (evm_StateDB e') to = GetBalance (evm_StateDB e) to + x.
Proof.
  intros Ha Hs Hnz Hne Hx Hf Ht Hg. unfold nativeTransfer. destruct (Z.eqb_spec x 0); [lia|]. cbn [negb].
  unfold mbind, VM_bind at 1, egets at 1. cbv zeta. destruct (Z.eqb_spec from 0); [done|]. cbn [negb].
  destruct (Z.ltb_spec gas (UpdateBalanceGas + UpdateBalanceGas + (if negb (Exist (evm_StateDB e) to) then CallNewAccountGas else 0))) as [Hlt|_].
  { unfold CallNewAccountGas in *. destruct (negb _); lia. }
  unfold VM_bind, emodifies. rewrite (AddTransferLog_done adapter) by done. cbn [evm_StateDB set_evm_StateDB].
  set (s1 := SubBalance from x (evm_StateDB e)). set (s2 := AddBalance to x s1).
  assert (forall b, GetBalance s1 b = if b =? from then GetBalance (evm_StateDB e) b - x else GetBalance (evm_StateDB e) b) as Hb1.
  { intros b. unfold s1. rewrite (exec_balance (OpSubBalance from x) (evm_StateDB e)); [|done|apply Hs|done]. cbn.
    destruct (Z.eqb_spec b from) as [->|]; cbn [andb]; [|done]. destruct (Z.eqb_spec x 0); [lia|]. cbn. apply Z.mod_small. lia. }
  assert (forall b, GetBalance s2 b = if b =? to then (GetBalance s1 b + x) mod 2 ^ 256 else GetBalance s1 b) as Hb2.
  { intros b. unfold s2. rewrite (exec_balance (OpAddBalance to x) s1); [|done|apply sub_wf, Hs|done]. cbn.
    destruct (Z.eqb_spec b to); cbn [andb]; [|done]. by destruct (Z.eqb_spec x 0); [lia|]. }
  eexists _, _. split; [reflexivity|]. split; [done|]. cbn [evm_StateDB set_evm_StateDB].
  split.
  - change (GetBalance s2 from = GetBalance (evm_StateDB e) from - x). rewrite Hb2, Hb1, Z.eqb_refl. by destruct (Z.eqb_spec from to).
  - change (GetBalance s2 to = GetBalance (evm_StateDB e) to + x). rewrite Hb2, Hb1, Z.eqb_refl.
    destruct (Z.eqb_spec to from); [congruence|]. apply Z.mod_small. lia.
Qed.

(** The coin manager run by the adapter contract. *)
Lemma runTransfer_moves adapter env from to x gas e :
  anzeon_env adapter env -> (4 <= length (Keccak256 sig_transfer))%nat -> state_ok clearRefund (evm_StateDB e) ->
  0 < from < 2 ^ 160 -> 0 <= to < 2 ^ 160 -> from <> to ->
  0 < x <= GetBalance (evm_StateDB e) from -> GetBalance (evm_StateDB e) from < 2 ^ 256 ->
  0 <= GetBalance (evm_StateDB e) to < 2 ^ 256 - x -> UpdateBalanceGas + UpdateBalanceGas + CallNewAccountGas <= gas ->
  exists left e', runNativeManager env coinManager NativeManager.CALL adapter (transferInput from to x) gas e = Done ([], left, None, e') /\
    evm_readOnly e' = evm_readOnly e /\
    GetBalance (evm_StateDB e') from = GetBalance (evm_StateDB e) from - x /\
    GetBalance (evm_StateDB e') to = GetBalance (evm_StateDB e) to + x.
Proof.
  intros Henv Hk Hs Hfrom Hto Hne Hx Hf Ht Hg. pose proof (env_adapter _ _ Henv) as Ha.
  destruct (transferInput_params from to x Hk) as (Hsel & Hlen & Hp0 & Hp1 & Hp2); [lia..|].
  destruct (nativeTransfer_moves adapter env from to x gas e) as (left & e' & Hrun & Hro & Hb); try done; [lia|].
  exists left, e'. split; [|done]. unfold runNativeManager. rewrite Hlen, Hsel. cbn [Nat.ltb Nat.leb].
  unfold coinManager. rewrite lookup_insert_eq. cbn [CanRun ParamCount]. unfold canRunCoinManger, validateCallContext.
  rewrite Z.eqb_refl. cbn [negb]. unfold validateCaller. rewrite Ha. unfold mbind at 1, VM_bind at 1, voption, mbind at 1, VM_bind at 1.
  unfold mret at 1, VM_ret at 1. rewrite Z.eqb_refl. cbn. unfold runTransfer. rewrite Hp0, Hp1, Hp2. unfold mbind, VM_bind, egets, CanTransfer.
  rewrite (proj2 (Z.leb_le _ _)) by lia. cbn [negb]. rewrite Hrun. reflexivity.
Qed.

(** C38. The write protection of a static call does not hold for the native managers: CALL
    refuses only value under it, and the coin manager does not look at it.  Whenever
    the adapter contract calls the coin manager without value in a frame that is write
    protected, for a transfer that is covered and with the gas for it, the call
    succeeds and the coins have moved. *)
Theorem static_transfer_moves adapter env run caller from to x gas e :
  anzeon_env adapter env -> (4 <= length (Keccak256 sig_transfer))%nat -> state_ok clearRefund (evm_StateDB e) ->
  evm_readOnly e = true -> evm_depth e <= CallCreateDepth -> ref_Address caller = adapter ->
  IsBlacklisted (evm_StateDB e) adapter = false -> IsBlacklisted (evm_StateDB e) NativeCoinManagerAddress = false ->
  0 < from < 2 ^ 160 -> 0 <= to < 2 ^ 160 -> from <> to ->
  0 < x <= GetBalance (evm_StateDB e) from -> GetBalance (evm_StateDB e) from < 2 ^ 256 ->
  0 <= GetBalance (evm_StateDB e) to < 2 ^ 256 - x -> UpdateBalanceGas + UpdateBalanceGas + CallNewAccountGas <= gas ->
  exists left e', Call env run caller NativeCoinManagerAddress (transferInput from to x) gas 0 e = Done ([], left, None, e') /\
    evm_readOnly e' = true /\
    GetBalance (evm_StateDB e') from = GetBalance (evm_StateDB e) from - x /\
    GetBalance (evm_StateDB e') to = GetBalance (evm_StateDB e) to + x.
Proof.
  intros Henv Hk Hs Hro Hd Hcaller Hb1 Hb2 Hfrom Hto Hne Hx Hf Ht Hg. unfold Call. rewrite Hcaller, manager_no_precompile.
  unfold mbind at 1, VM_bind at 1, depthExceeded. rewrite (proj2 (Z.ltb_ge _ _)) by done.
  unfold mbind at 1, VM_bind at 1, egets at 1, checkBlacklisted. rewrite (env_anzeon _ _ Henv), Hb1, Hb2. cbn [negb]. cbv zeta.
  assert (nativeManager env NativeCoinManagerAddress = Some coinManager) as -> by (unfold nativeManager; by rewrite (env_anzeon _ _ Henv)).
  unfold mbind at 1, VM_bind at 1, egets at 1. cbn [Z.eqb negb andb].
  rewrite (bool_decide_eq_true_2 (is_Some (Some _))) by by eexists. rewrite andb_false_r. cbn [andb].
  assert (rests (evm_StateDB e) (Snapshot (evm_StateDB e)).2) as Hr1 by (by eapply (rests_exec OpSnapshot (evm_StateDB e) (evm_StateDB e))).
  unfold mbind, VM_bind, snapshot, egets, emodifies. destruct (Snapshot (evm_StateDB e)) as [id s1]. cbn [snd] in Hr1.
  cbn [evm_StateDB set_evm_StateDB]. rewrite andb_false_r.
  set (e1 := set_evm_StateDB s1 e).
  assert (exists s2, (if negb (Exist s1 NativeCoinManagerAddress)
    then fun e0 => Done (tt, set_evm_StateDB (CreateAccount NativeCoinManagerAddress (evm_StateDB e0)) e0) else mret tt) e1
    = Done (tt, set_evm_StateDB s2 e) /\ rests (evm_StateDB e) s2) as (s2 & -> & Hr2).
  { destruct (negb _); [eexists; split; [reflexivity|]; by eapply (rests_exec (OpCreateAccount _))|by exists s1]. }
  cbn [evm_StateDB set_evm_StateDB]. unfold Transfer.
  assert (rests (evm_StateDB e) (AddBalance NativeCoinManagerAddress 0 (SubBalance adapter 0 s2))) as [Hok Hsame].
  { eapply (rests_exec (OpAddBalance NativeCoinManagerAddress 0)); [eapply (rests_exec (OpSubBalance adapter 0)); [exact Hr2|done|done|]|done|done|];
      intros b; cbn; by rewrite andb_false_r. }
  set (s3 := AddBalance NativeCoinManagerAddress 0 _) in *. unfold mret at 1, VM_ret at 1.
  destruct (runTransfer_moves adapter env from to x gas (set_evm_StateDB s3 (set_evm_StateDB s2 e))) as (left & e' & Hrun & Hro' & Hbal);
    cbn [evm_StateDB set_evm_StateDB] in *; rewrite ?Hsame; try done.
  rewrite Hrun. exists left, e'. split; [reflexivity|]. rewrite Hro'. rewrite !Hsame in Hbal. done.
Qed.
End protection.
