(* ===== verification/VmWitness.v ===== *)
(** Concrete runs of the machine and of the journaled state, at which the theorems about
    them apply. *)
From S2P Require Import Prelude Validators AccountExtra Messages Config Rlp RlpStream Extra ChainConfig Forks StateJournal JournalProps JournalRuns JournalFrames VmAnalysis VmState VmGas VmOps NativeManager Evm VmTable VmSpec VmSimple VmMemory VmStore VmCalls VmCallOps VmSafe VmRun Supply.

(** * A machine *)

(** A hash that does not collide as a number; the first four digits are small, as
    those of a selector. *)
Definition digit (b : bytes) : Z := fold_left (fun acc x => (acc * 31 + x) mod 251) b 7.
Definition injectiveCrypto : Crypto := {|
  Keccak256 b := [0; 0; 0; digit b; 256 * (Z.pos (encode b) - digit b)];
  SigToPub := fun _ sig => Some sig;
  PubkeyToAddress := be_value;
  blsPublicKey := Z;
  blsSignature := Z;
  PublicKeyFromBytes := fun k => Some (be_value k);
  SignatureFromBytes := fun s => Some (be_value s);
  blsVerify := fun s pk m => true;
|}.
Definition sampleWords : Uint256 := {|
  word_Div x y := if y =? 0 then 0 else x / y;
  word_SDiv x y := if y =? 0 then 0 else u256 (Z.quot (signed x) (signed y));
  word_Mod x y := if y =? 0 then 0 else x mod y;
  word_SMod x y := if y =? 0 then 0 else u256 (Z.rem (signed x) (signed y));
  word_AddMod x y m := if m =? 0 then 0 else (x + y) mod m;
  word_MulMod x y m := if m =? 0 then 0 else (x * y) mod m;
  word_Exp x y := u256 (x ^ y);
  word_ExtendSign x b := if b <? 31 then let n := 8 * (b + 1) in let y := x mod 2 ^ n in if Z.testbit y (n - 1) then u256 (y - 2 ^ n) else y else x;
  word_Byte x n := if n <? 32 then Z.land (Z.shiftr x (8 * (31 - n))) 255 else 0;
  word_SRsh x n := u256 (Z.shiftr (signed x) n);
|}.
Definition samplePrecompiles : PrecompiledContracts := {| RequiredGas _ _ := 15; pre_Run _ b := (b, None) |}.

Definition sampleAdapter : Address := 0x1000.
Definition sampleCouncil : Address := 0x1001.
Definition sampleContracts : SystemContracts :=
  mkContracts None (Some (Config.mkContract sampleAdapter [] ∅)) None None (Some (Config.mkContract sampleCouncil [] ∅)).
Definition sampleChain : ChainConfig := londonConfig 8283 (Some (mkAnzeon [] [] (Some sampleContracts))).
Definition sampleEnv : Env :=
  mkEnv (mkBlockContext (fun n => n) 77 30000000 10 100 (Some 1) (Some 7) None (Some 99)) (mkTxContext 5 7 [] None)
    sampleChain (config_Rules sampleChain (Some 10) false 100) (mkVMConfig false false []) (fun _ => false).

Lemma sampleEnv_anzeon : anzeon_env sampleAdapter sampleEnv.
Proof. split; first [vm_compute; reflexivity|by eexists]. Qed.

(** Accounts with code, a nonce and a balance. *)
Definition storeAccounts `{Crypto} (l : list (Address * bytes * Z)) : Database :=
  mkDatabase (list_to_map ((fun '(a, code, x) => (a, (mkStateAccount 1 x EmptyRootHash (be_value (Keccak256 code)) 0, ∅))) <$> l))
    (list_to_map ((fun '(a, code, x) => (be_value (Keccak256 code), code)) <$> l)).
Definition machineOver (db : Database) (warm : Address) (ro : bool) : EVM := mkEVM (AddAddressToAccessList warm (New db)) 0 ro [] 0 ∅ 0.

Lemma storeAccounts_fine `{Crypto} l : Forall (fun p : Address * bytes * Z => Z.of_nat (length p.1.2) < 2 ^ 62) l -> db_fine (storeAccounts l).
Proof.
  intros Hl a acct Ha code. assert (be_value (Keccak256 code) = sa_CodeHash acct /\ Z.of_nat (length code) < 2 ^ 62 \/ code = []) as [[Hh Hlen]| ->].
  - unfold code, ContractCode. destruct (db_code (storeAccounts l) !! sa_CodeHash acct) as [c|] eqn:Hc; [left|by right]. cbn [storeAccounts db_code] in Hc.
    apply elem_of_list_to_map_2, list_elem_of_fmap in Hc as ([[a' c'] x] & [= Hh ->] & Hin). rewrite Hh. split; [done|].
    rewrite Forall_forall in Hl. by apply (Hl (a', c', x)).
  - split; [by right|done].
  - split; [by left|done].
Qed.
Lemma machineOver_ok `{Crypto} l warm ro : Forall (fun p : Address * bytes * Z => Z.of_nat (length p.1.2) < 2 ^ 62) l -> evm_ok (machineOver (storeAccounts l) warm ro).
Proof.
  intros Hl. pose proof (New_ok clearRefund _ (storeAccounts_fine l Hl)) as Hn. split.
  - by eapply (exec_advances clearRefund (OpAddAddress warm)).
  - intros h bits Hx. cbn in Hx. by rewrite lookup_empty in Hx.
Qed.
Lemma machineOver_starts `{Crypto} l warm ro fuel gas input value : Forall (fun p : Address * bytes * Z => Z.of_nat (length p.1.2) < 2 ^ 62) l ->
  0 <= gas < 2 ^ 40 -> gas < Z.of_nat fuel -> Z.of_nat (length input) < 2 ^ 62 -> word value ->
  starts fuel gas input value (machineOver (storeAccounts l) warm ro).
Proof.
  intros Hl Hg Hf Hi Hv. split; [by apply machineOver_ok|done| |done|done]. split; [lia|].
  assert (sdb_refund (evm_StateDB (machineOver (storeAccounts l) warm ro)) = 0) as ->; [|lia]. by apply (exec_calm (OpAddAddress warm) (New (storeAccounts l))); [|apply New_start|].
Qed.

(** * Calls and creations *)

Section calls.
#[local] Existing Instance injectiveCrypto.
#[local] Existing Instance sampleWords.
#[local] Existing Instance samplePrecompiles.

#[local] Instance injective_free : CollisionFree.
Proof.
  intros c c' Hc. unfold be_value, injectiveCrypto, Keccak256 in Hc. cbn [fold_left foldl] in Hc. apply (inj encode), Pos2Z.inj. lia.
Qed.

(** The callee returns the sum of two numbers; the caller calls it with one coin, keeps
    the result of the call in its storage and fails or not by its last instruction. *)
Definition calleeCode : bytes := [0x60;2;0x60;3;0x01;0x60;0;0x52;0x60;32;0x60;0;0xf3].
Definition callerCode (last : Z) : bytes :=
  [0x60;32;0x60;0;0x60;0;0x60;0;0x60;1;0x61;0x05;0x00;0x61;0x13;0x88;0xf1;0x60;7;0x55;0x60;32;0x60;0;last].
Definition callAccounts (last : Z) : list (Address * bytes * Z) := [(0x500, calleeCode, 0); (0x600, callerCode last, 50); (5, [], 1000000)].
Definition callMachine (last : Z) : EVM := machineOver (storeAccounts (callAccounts last)) 0x600 false.
Definition gasGiven : Z := 50000.
Definition fuelGiven : nat := Z.to_nat 50001.

Ltac short_codes := apply (bool_decide_unpack _); vm_compute; exact I.
Lemma callMachine_starts last fuel value : 0 <= value < 100 -> gasGiven < Z.of_nat fuel -> starts fuel gasGiven [] value (callMachine last).
Proof.
  intros Hv Hf. apply (machineOver_starts (callAccounts last) 0x600 false); [short_codes|done|done|done|]. split; [lia|]. apply (Z.lt_trans _ 100); [lia|reflexivity].
Qed.
Lemma enough_fuel : gasGiven < Z.of_nat fuelGiven.
Proof. unfold fuelGiven. by rewrite Z2Nat.id. Qed.
Lemma callMachine_warm last : AddressInAccessList (evm_StateDB (callMachine last)) 0x600 = true.
Proof. apply warmed. Qed.

Lemma call_returns_witness : exists ret left err e', evm_Call sampleEnv fuelGiven (AccountRef 5) 0x600 [] gasGiven 3 (callMachine 0xf3) = Done (ret, left, err, e') /\
  0 <= left <= gasGiven /\ evm_ok e' /\ evm_depth e' = 0 /\ evm_readOnly e' = false /\
  0 <= sdb_refund (evm_StateDB e') <= sdb_refund (evm_StateDB (callMachine 0xf3)) + refundRatio * (gasGiven - left).
Proof. apply (call_returns sampleAdapter); [apply sampleEnv_anzeon|apply callMachine_starts; [lia|apply enough_fuel]|apply callMachine_warm]. Defined.

Lemma create_returns_witness : exists ret address left err e', evm_Create sampleEnv fuelGiven (AccountRef 5) calleeCode gasGiven 3 (callMachine 0xf3) = Done (ret, address, left, err, e') /\
  0 <= left <= gasGiven /\ evm_ok e' /\ evm_depth e' = 0 /\ evm_readOnly e' = false /\
  0 <= sdb_refund (evm_StateDB e') <= sdb_refund (evm_StateDB (callMachine 0xf3)) + refundRatio * (gasGiven - left).
Proof.
  apply (create_returns sampleAdapter); [apply sampleEnv_anzeon|]. apply (machineOver_starts (callAccounts 0xf3) 0x600 false); [short_codes|done|apply enough_fuel|done|done].
Defined.

(** The state after a run. *)
Definition after {A} (r : Outcome (A * EVM)) (e : EVM) : EVM := match r with Done (_, e') => e' | _ => e end.
Definition callRun (last value : Z) : Outcome (Returned * EVM) := evm_Call sampleEnv fuelGiven (AccountRef 5) 0x600 [] gasGiven value (callMachine last).

Lemma failed_call_undone_witness : exists left e', callRun 0xfe 3 = Done ([], left, Some (ErrInvalidOpCode 0xfe), e') /\
  same (evm_StateDB e') (evm_StateDB (callMachine 0xfe)).
Proof.
  assert (exists left e', callRun 0xfe 3 = Done ([], left, Some (ErrInvalidOpCode 0xfe), e')) as (left & e' & Hr).
  { eexists _, (after (callRun 0xfe 3) (callMachine 0xfe)). vm_compute. reflexivity. }
  exists left, e'. split; [exact Hr|]. eapply (failed_call_undone sampleAdapter sampleEnv fuelGiven (AccountRef 5) 0x600 [] gasGiven 3); [apply sampleEnv_anzeon|apply callMachine_starts; [lia|apply enough_fuel]|apply callMachine_warm|exact Hr].
Defined.

(** * The native managers *)

(** Hand-written contracts in the places of the adapter and of the council: they call
    [to] with the selector of [signature] and words. *)
Definition storeWord (offset x : Z) : bytes := [0x60; x; 0x60; offset; 0x52].
Definition callNative (to3 : bytes) (signature : bytes) (params : list Z) : bytes :=
  [0x60; digit signature; 0x60; 3; 0x53] ++ concat (imap (fun i x => storeWord (4 + 32 * Z.of_nat i) x) params) ++
  [0x60; 0; 0x60; 0; 0x60; 4 + 32 * Z.of_nat (length params); 0x60; 0; 0x60; 0] ++ 0x62 :: to3 ++ [0x61; 0xff; 0xff; 0xf1; 0].
Definition mintCode : bytes := callNative [0xb0; 0; 2] sig_mint [9; 77].
Definition blacklistCode : bytes := callNative [0xb0; 0; 3] sig_blacklist [9].
Definition nativeAccounts : list (Address * bytes * Z) := [(sampleAdapter, mintCode, 0); (sampleCouncil, blacklistCode, 0); (5, [], 1000000)].
Definition nativeMachine (warm : Address) : EVM := machineOver (storeAccounts nativeAccounts) warm false.

Lemma nativeMachine_starts warm : starts fuelGiven gasGiven [] 0 (nativeMachine warm).
Proof. apply (machineOver_starts nativeAccounts warm false); [short_codes|done|apply enough_fuel|done|done]. Qed.
Lemma nativeMachine_balance warm a : GetBalance (evm_StateDB (nativeMachine warm)) a = if a =? 5 then 1000000 else 0.
Proof.
  change (GetBalance (AddAddressToAccessList warm (New (storeAccounts nativeAccounts))) a = if a =? 5 then 1000000 else 0).
  rewrite (exec_balance (OpAddAddress warm) (New (storeAccounts nativeAccounts)) _ a); [|done|apply New_start|done]. cbn [balanceAfter].
  unfold GetBalance, read, getStateObject, getDeletedStateObject, GetAccount, storeAccounts, nativeAccounts.
  cbn [New sdb_stateObjects sdb_db db_accounts fmap list_fmap list_to_map foldr fst snd]. rewrite lookup_empty, !lookup_insert, lookup_empty.
  destruct (Z.eqb_spec a 5); repeat case_decide; subst; done.
Qed.
Lemma nativeMachine_funds warm : funds (evm_StateDB (nativeMachine warm)) 1000000.
Proof.
  split; [intros a; rewrite nativeMachine_balance; by case_match|]. intros l Hl. pose proof (counted_le 5 1000000 l ltac:(lia) Hl) as Hc.
  assert (holdings (evm_StateDB (nativeMachine warm)) l = counted 5 1000000 l) as ->; [|lia]. unfold holdings, counted. clear Hl Hc.
  induction l as [|a l IH]; [done|]. cbn [foldr]. by rewrite IH, nativeMachine_balance.
Qed.
Definition mintRun : Outcome (Returned * EVM) := evm_Call sampleEnv fuelGiven (AccountRef 5) sampleAdapter [] gasGiven 0 (nativeMachine sampleAdapter).

(** Minting to an account and logging it. *)
Lemma supply_accounted_witness : exists left e', mintRun = Done ([], left, None, e') /\ GetBalance (evm_StateDB e') 9 = 77 /\ funds (evm_StateDB e') 1000077.
Proof.
  assert (exists left e', mintRun = Done ([], left, None, e') /\ GetBalance (evm_StateDB e') 9 = 77 /\
    minted sampleAdapter (evm_StateDB e') - minted sampleAdapter (evm_StateDB (nativeMachine sampleAdapter)) = 77) as (left & e' & Hr & Hb & Hm).
  { eexists _, (after mintRun (nativeMachine sampleAdapter)). split_and!; vm_compute; reflexivity. }
  exists left, e'. split_and!; [exact Hr|exact Hb|]. change 1000077 with (1000000 + 77). rewrite <- Hm.
  eapply (supply_accounted sampleAdapter sampleEnv fuelGiven (AccountRef 5) sampleAdapter [] gasGiven 0); [apply sampleEnv_anzeon| |apply warmed|apply nativeMachine_funds|exact Hr].
  apply nativeMachine_starts.
Defined.

(** The coin manager for the adapter contract, and the account manager for the council. *)
Definition mintInput : bytes := [0; 0; 0; digit sig_mint] ++ be_bytes 32 9 ++ be_bytes 32 77.
Definition mintRaw : Outcome (Returned * EVM) := runNativeManager sampleEnv coinManager NativeManager.CALL sampleAdapter mintInput gasGiven (nativeMachine sampleAdapter).
Lemma native_authorized_witness : exists r e', mintRaw = Done (r, e') /\ r.2 = None /\ NativeManager.CALL = NativeManager.CALL /\
  (NativeCoinManagerAddress = NativeCoinManagerAddress /\ systemContract sampleEnv NativeCoinAdapter = Some sampleAdapter \/
   NativeCoinManagerAddress = AccountManagerAddress /\ systemContract sampleEnv GovCouncil = Some sampleAdapter).
Proof.
  assert (exists r e', mintRaw = Done (r, e') /\ GetBalance (evm_StateDB e') 9 = 77) as (r & e' & Hr & Hb).
  { eexists _, (after mintRaw (nativeMachine sampleAdapter)). split; vm_compute; reflexivity. }
  exists r, e'. split; [exact Hr|]. apply (native_authorized sampleEnv NativeCoinManagerAddress coinManager _ _ mintInput gasGiven (nativeMachine sampleAdapter) r e'); [reflexivity|exact Hr|].
  intros He. rewrite He, nativeMachine_balance in Hb. discriminate Hb.
Defined.

(** A write-protected frame of the adapter contract. *)
Definition protectedMachine : EVM := machineOver (storeAccounts nativeAccounts) sampleAdapter true.
Lemma static_transfer_moves_witness : exists left e',
  Call sampleEnv (Run sampleEnv fuelGiven) (ContractOf (NewContract (AccountRef 5) sampleAdapter 0 gasGiven 0 [])) NativeCoinManagerAddress
    (transferInput 5 9 77) gasGiven 0 protectedMachine = Done ([], left, None, e') /\
  evm_readOnly e' = true /\
  GetBalance (evm_StateDB e') 5 = GetBalance (evm_StateDB protectedMachine) 5 - 77 /\
  GetBalance (evm_StateDB e') 9 = GetBalance (evm_StateDB protectedMachine) 9 + 77.
Proof.
  apply (static_transfer_moves sampleAdapter); try (vm_compute; reflexivity).
  - apply sampleEnv_anzeon.
  - vm_compute. repeat constructor.
  - apply (machineOver_ok nativeAccounts sampleAdapter true). short_codes.
  - vm_compute. discriminate.
  - split; reflexivity.
  - vm_compute. split; [discriminate|reflexivity].
  - discriminate.
  - vm_compute. split; [reflexivity|discriminate].
  - vm_compute. split; [discriminate|reflexivity].
  - vm_compute. discriminate.
Defined.

(** * The journaled state *)

Definition journalStart : StateDB := New (storeAccounts (callAccounts 0xf3)).
Definition journalBefore : list StateOp := [OpAddBalance 1 5; OpSetState 0x600 7 1; OpSnapshot; OpSetNonce 5 2].
Definition journalAfter : list StateOp :=
  [OpSubBalance 5 10; OpSnapshot; OpCreateAccount 0x900; OpSetState 0x600 7 0; OpAddLog (mkLog 1 [] [] 0 0 0 0); OpRevert 2; OpSelfDestruct 0x500; OpSnapshot; OpAddSlot 0x600 7].
Definition journalState : StateDB := default journalStart (execs journalBefore journalStart).
Definition journalEnd : StateDB := default journalStart (execs journalAfter (Snapshot journalState).2).

Lemma revert_restores_witness : exists r, RevertToSnapshot (Snapshot journalState).1 journalEnd = Some r /\ same r journalState /\
  sdb_validRevisions r = sdb_validRevisions journalState.
Proof.
  apply (revert_restores journalStart journalBefore journalState journalAfter journalEnd); [apply New_start|vm_compute; reflexivity|vm_compute; reflexivity|].
  apply (bool_decide_unpack _). vm_compute. exact I.
Defined.

Lemma finalise_settles_witness : tx_start (Finalise true journalState) /\
  (forall k, GetCommittedState (Finalise true journalState) 0x500 k = GetCommittedState journalStart 0x500 k) /\
  (forall k, GetCommittedState (Finalise true journalState) 0x600 k = GetState journalState 0x600 k).
Proof.
  assert (execs journalBefore journalStart = Some journalState) as Hx by (vm_compute; reflexivity).
  destruct (finalise_settles true journalStart journalBefore journalState (New_start _) Hx) as [Hs Hv]. split_and!; [exact Hs| |].
  - destruct (Hv 0x500 ltac:(discriminate)) as [Hu _]. apply Hu. vm_compute. reflexivity.
  - destruct (Hv 0x600 ltac:(discriminate)) as [_ Hc].
    assert (exists o, sdb_stateObjects journalState !! 0x600 = Some o /\ removed true o = false) as (o & Ho & Hr) by (eexists; split; vm_compute; reflexivity).
    specialize (Hc o Ho). rewrite Hr in Hc. apply Hc. by eexists.
Defined.
End calls.

(** * Code analysis *)

(** A push instruction hides the byte that it pushes. *)
Lemma analysis_exact_witness : exists bits, codeBitmap [0x60; 0x5b; 0x5b] = Some bits /\
  forall pos, 0 <= pos < 3 -> exists b, codeSegment bits pos = Some b /\ (b = true <-> instruction_at [0x60; 0x5b; 0x5b] pos).
Proof. apply (analysis_exact [0x60; 0x5b; 0x5b]). repeat constructor; done. Defined.
